(* ===== verification/_CoqProject ===== *)
-Q . S2P
Prelude.v
GoText.v
Json.v
Aliases.v
Storage.v
Aggregator.v
Effects.v
Backfill.v
Cache.v
Frames.v
HttpApi.v
Notify.v
Engine.v
EngineFacts.v
Bits.v
IdAddress.v
IdAddressFacts.v
UserInfo.v
UserInfoFacts.v
UserInfoFrames.v
Paging.v
GroupChat.v
GroupChatFacts.v
GroupChatApi.v
PrivateChat.v
PrivateChatFacts.v
PrivateChatApi.v
Config.v
FedStore.v
FedStoreFacts.v
Federation.v
FederationSample.v
FederationFacts.v
Socket.v
SocketFacts.v
SocketProfile.v
SocketServer.v
Wire.v
Chain.v
ChainRpc.v
ChainBitcoin.v
ChainOpcat.v
ChainMvc.v
ChainDoge.v
ChainFacts.v
ChainMvcFacts.v
ChainSample.v
ChainDogeFacts.v
ChainIndexers.v
ChainRpcFacts.v
Publisher.v
Metalet.v
PublisherFacts.v
PublisherPin.v
PublisherSample.v
FederationService.v
FederationServiceFacts.v
SkillService.v
SkillCatalogue.v
SkillServiceFacts.v
SkillServiceHistory.v
SkillList.v
SkillListFacts.v
SkillSample.v
PublishedContent.v
PublishedContentFacts.v
PublishedContentRuns.v
PublishedContentLists.v
PublishedContentReplay.v
PublishedContentBackfill.v
PublishedContentSample.v
HttpClients.v
BotHomepage.v
BotHomepageFacts.v
BotHomepagePage.v
BotHomepageSample.v
Node.v
NodeFacts.v
Router.v
Command.v
