(* ===== verification/Prelude.v ===== *)
(** * Verification of metaso-p2p

    metaso-p2p indexes MetaID "pins" (protocol entries inscribed in the transactions of
    four chains), hands them to aggregators that keep their records in a namespaced Pebble
    store and answer HTTP queries from it, pushes notifications to socket clients, and
    shares the presence of its users with other nodes.  This library models the Go code of
    the repository, up to the program that main starts, and proves what its parts promise.

    ** How the parts interact

    A chain adapter fetches blocks and mempool transactions from the node of its chain; an
    indexer of the chain catches the pins in them; the engine scans heights, polls mempools
    and routes each pin through the registry to the seven aggregators, which share the
    store and a cache.  Two of them put notifications in channels; the socket server sends
    them to the devices of the users they are meant for.  HTTP handlers answer from the
    aggregators, the socket server's presence, and the federation's merged presence.
    [Command.startup_exact], [Command.program_indexes] and [Command.program_homepage] tie
    the parts together.

    ** Files

    Shared ground.
    - [Prelude]: results ([res], Go's [(T, error)]), machine integers ([wrap64], [u64],
      ...), Go's [strings] on byte strings, stable sorting, the order of map ranges.
    - [GoText]: formatting and parsing of numbers, runes, base64, hex, key order.
    - [Json]: [encoding/json] as the class [JSON] (marshal, unmarshal, the values that
      survive the round trip), JSON values, a codec for witnesses.  [Bits]: digits, bits.
    - [Storage] (internal/storage/pebble.go): [PebbleStore] over the engine (class
      [Pebble]); the interface [KVStore] through which every aggregator uses the store,
      discharged by [PebbleStore_store].  [Cache] (internal/cache/cache.go): the two
      levels over the store, itself a [KVStore].
    - [Aggregator] (internal/aggregator/aggregator.go): pins, notify events, the registry,
      the monad of handlers (a handler keeps the writes it made before an error).
      [Effects]: handlers as updates of one namespace.  [Frames]: what a handler leaves
      alone and what it depends on.  [Aliases]: lists of identities.  [Paging]: cursors of
      message lists.  [Backfill]: the paged loop of two aggregators.  [HttpApi]
      (internal/api/response.go): queries and answers.

    Chains and indexing (internal/chain, internal/indexer).
    - [Wire]: transactions, blocks and the btcd routines (class [Btcd]).  [Chain]: what the
      packages bitcoin, mvc, dogecoin and opcat have in common; [ChainBitcoin],
      [ChainMvc], [ChainDoge], [ChainOpcat]: each indexer (indexer.go) and adapter
      (bitcoin.go, mvc.go, dogecoin.go, opcat.go), with [ChainRpc] for the RPC clients.
      [ChainFacts], [ChainMvcFacts], [ChainDogeFacts], [ChainIndexers] (class
      [IndexerLaws]), [ChainRpcFacts]; [ChainSample].
    - [Engine], [EngineFacts] (engine.go): scans, polls, persisted heights.

    Aggregators (internal/aggregator).
    - [IdAddress], [IdAddressFacts] (pkg/idaddress): the id address codec and conversions.
    - [UserInfo], [UserInfoFacts], [UserInfoFrames] (userinfo): profiles.
    - [GroupChat], [GroupChatFacts], [GroupChatApi] (groupchat); [PrivateChat],
      [PrivateChatFacts], [PrivateChatApi] (privatechat); [Notify] (notify).
    - [SkillService], [SkillCatalogue] (the abstract catalogue), [SkillServiceFacts],
      [SkillServiceHistory], [SkillList], [SkillListFacts], [SkillSample] (skillservice).
    - [PublishedContent] and its [Facts], [Runs], [Lists], [Replay], [Backfill], [Sample]
      (publishedcontent).  [BotHomepage] and its [Facts], [Page], [Sample] (bothomepage).
    - [HttpClients] (backfill.go of two packages, userinfo/remote.go): the clients of the
      MANAPI service and of a remote profile service.

    Presence and federation.
    - [Socket], [SocketFacts] (internal/socket: manager.go, routing of server.go,
      decisions of presence.go), [SocketProfile] (profile.go, the presence endpoints),
      [SocketServer] (server.go).
    - [FedStore], [FedStoreFacts] (internal/federation/store.go), [Federation],
      [FederationFacts], [FederationSample] (signature, snapshot, puller, discovery),
      [Publisher], [PublisherFacts], [PublisherPin], [PublisherSample], [Metalet]
      (publisher.go, mvc_tx.go, metalet_client.go), [FederationService],
      [FederationServiceFacts] (service.go).

    The program.
    - [Config] (internal/config/config.go), [Node] and [NodeFacts] (the aggregators that
      main registers, over one store, and the engine over them), [Router]
      (internal/api/router.go), [Command] (cmd/metaso-p2p).

    ** How state and operations correspond to the code

    A Go function that reads the store becomes a function of the store state; a pin handler
    becomes a computation [M St A] = [St -> res A * St].  A definition bears the name of
    the function it translates; loops are Fixpoints beside it.  A Go error is [Err] with
    the constant part of its message; a run-time panic the code can reach is an [Err] whose
    message begins with "panic:".  A pointer that may be nil is an [option].  A log line is
    dropped.  [int64] and [int] are [Z] with [wrap64] where an operation can overflow.
    Iteration over a Go map is [map_range], in an order the runtime picks (class
    [MapOrder]).  Mutexes disappear: an operation under a lock is one step; where the lock
    itself matters (a handler that takes it again) it is part of the model.

    [strings.ToLower] and [strings.EqualFold] act on the ASCII letters only; a value of
    type [interface{}] is the JSON value it holds; [json.Marshal] never fails, as all the
    records it is applied to are plain data.

    Goroutines: the engine is the relation [engine_step] (whole passes of its two loops in
    any order); sockets, pings and cleanup ticks are an arbitrary sequence of
    [server_event]s; pins from blocks and mempools are an arbitrary sequence of [routed].
    A clock, a ticker, a network answer is an argument of the operation that reads it.

    ** Third-party code

    A class per library, with the documented behaviour the code relies on as laws, and an
    instance on which the witnesses evaluate: [Pebble], [LRU], [Btcd] and [HashText] (with
    the record [RPC]: a node's answers), [Base58], [Secp256k1], [Bsv] and [BsvLaws],
    [Gin].  Of Go's standard library, [net/url] parsing is [NetURL], [NetURLParts] and
    [URLParse], [time.ParseDuration] is [DurationParser], float parsing, URL hosts and the
    sort of the skill lists are [GoLib], formatting with %v is [FmtV]; the JSON codecs of the packages are
    [GroupChatJSON], [PrivateChatJSON], [SkillJSON], [CursorJSON], [PublishedJSON],
    [HomepageJSON], [FedJSON], [MetaletJSON], [ClientJSON].  An HTTP client is a record of
    what it answers ([HTTPClient], [HTTPTransport]).

    ** What the theorems show

    - Refinement: the store is a map of maps, the cache a map, the skill service a
      catalogue, the blocked chats a set per user; the four indexers one interface; the
      node of seven aggregators each aggregator alone; the running program those, on the
      pins of the blocks it scans.
    - Exactness: what each handler stores, which pins a transaction carries, what lists,
      conversations, merged presence, homepages and endpoints answer; that a backfill
      handles what a service lists and records what it creates; who is notified.
    - Invariants: well-formed stores over all runs, ratings and their sums, indexes and
      records, device limits, sockets and tracked connections, profiles through the cache.
    - Safety and order: blocks once and in order, mempool pins once per window, snapshots
      only from the node that signed them, a block parser whose only panic is one allocation.
    - Termination: cursor walks, the fee loop, backfills.  Round trips: addresses,
      snapshots, escapes and queries, blocks.
    - Errors: which environments the program starts from, and how it stops otherwise.

    Behaviour that departs from the documentation is in lemmas beside these.

    ** Fuel

    Loops over input are structural.  Where a Fixpoint has fuel, a theorem says how much is
    enough: the cursor walks take one page more than there are messages or services, a
    backfill the number of pages of a path ([backfill_paths_serves]) or of cursors of the
    service, the fee loop 20 rounds as in the code (and it converges), the search for a
    height 65 halvings of an [int64] range, printing an [int64] 20 digits.  [emit_loop]
    runs at most as many rounds as there are bits left, [take_desc] as there are indices
    left, [range_from] as there are bytes left.

    ** Not modelled

    The Socket.IO and gin libraries beyond what their classes and the connection events
    say; the text of JSON (a codec is a class); HTTP transports, TLS, deadlines and
    contexts; the moments at which tickers fire; log lines; the one-line summary of the
    configuration; the signals and the listening of the process.  Goroutines interleave by
    whole operations, so data races inside one are outside the model.  The tests and the
    documents of the repository are not code of the program. *)


From Stdlib Require Export ZArith Lia Bool Permutation.
From stdpp Require Export base list gmap strings sorting.
From Stdlib Require Export Ascii.

#[global] Open Scope Z_scope.

(** ** Results: Go's [(T, error)] pairs *)

Declare Scope go_scope.
Delimit Scope go_scope with go.

(** A Go error, carrying the constant part of its message. *)
Definition error : Type := string.

Inductive res (A : Type) : Type :=
  | Ok (a : A)
  | Err (e : error).
Arguments Ok {A} a.
Arguments Err {A} e.

(** [x, err := c1; if err != nil { return err }; c2] *)
Notation "x <-? c1 ;; c2" :=
  (match c1 with Ok x => c2 | Err e => Err e end)
  (at level 80, c1 at next level, right associativity) : go_scope.
#[global] Open Scope go_scope.

Definition is_ok {A} (r : res A) : bool :=
  match r with Ok _ => true | Err _ => false end.

(** ** Machine integers *)

(** Two's complement wrap-around of [int64] (Go's [int] on the 64-bit targets
    the program is built for), and truncation to the unsigned widths. *)
Definition wrap64 (z : Z) : Z := (z + 2 ^ 63) mod 2 ^ 64 - 2 ^ 63.
Definition u64 (z : Z) : Z := z mod 2 ^ 64.
Definition u32 (z : Z) : Z := z mod 2 ^ 32.
Definition u8 (z : Z) : Z := z mod 2 ^ 8.

Definition in_i64 (z : Z) : Prop := - 2 ^ 63 <= z < 2 ^ 63.

Lemma wrap64_id z : in_i64 z -> wrap64 z = z.
Proof. unfold in_i64, wrap64. intros. rewrite Z.mod_small; lia. Qed.

Lemma wrap64_range z : in_i64 (wrap64 z).
Proof. unfold in_i64, wrap64. pose proof (Z.mod_pos_bound (z + 2 ^ 63) (2 ^ 64)). lia. Qed.

Lemma wrap64_mod z k : 0 <= k <= 64 -> wrap64 z mod 2 ^ k = z mod 2 ^ k.
Proof.
  intros Hk. unfold wrap64.
  rewrite (Z.mod_eq (z + 2 ^ 63) (2 ^ 64)) by lia.
  set (q := (z + 2 ^ 63) / 2 ^ 64).
  replace (2 ^ 64) with (2 ^ (64 - k) * 2 ^ k) by (rewrite <- Z.pow_add_r by lia; f_equal; lia).
  replace (_ - _) with (z + (- q * 2 ^ (64 - k)) * 2 ^ k) by lia.
  apply Z.mod_add. lia.
Qed.

(** ** Bytes and strings

    A Go [string] or [[]byte] used as text is a Rocq [string] (a byte
    sequence); a [[]byte] the code computes with is a [list Z] of bytes. *)

Definition byte_ok (b : Z) : Prop := 0 <= b < 256.
Definition bytes_ok (l : list Z) : Prop := Forall byte_ok l.

Definition Z_of_ascii (c : ascii) : Z := Z.of_N (N_of_ascii c).
Definition ascii_of_Z (z : Z) : ascii := ascii_of_N (Z.to_N (z mod 256)).

Lemma Z_of_ascii_range c : byte_ok (Z_of_ascii c).
Proof. unfold byte_ok, Z_of_ascii. pose proof (N_ascii_bounded c). lia. Qed.

Lemma ascii_of_Z_of_ascii c : ascii_of_Z (Z_of_ascii c) = c.
Proof.
  unfold ascii_of_Z. rewrite Z.mod_small by apply Z_of_ascii_range.
  unfold Z_of_ascii. rewrite N2Z.id. apply ascii_N_embedding.
Qed.

Lemma Z_of_ascii_of_Z z : byte_ok z -> Z_of_ascii (ascii_of_Z z) = z.
Proof.
  unfold byte_ok, Z_of_ascii, ascii_of_Z. intros H. rewrite Z.mod_small by lia.
  rewrite N_ascii_embedding by lia. lia.
Qed.

Lemma Z_of_ascii_inj c d : Z_of_ascii c = Z_of_ascii d -> c = d.
Proof.
  intros H. rewrite <- (ascii_of_Z_of_ascii c), <- (ascii_of_Z_of_ascii d). by rewrite H.
Qed.

Fixpoint bytes_of_string (s : string) : list Z :=
  match s with "" => [] | String c s => Z_of_ascii c :: bytes_of_string s end.
Fixpoint string_of_bytes (l : list Z) : string :=
  match l with [] => "" | b :: l => String (ascii_of_Z b) (string_of_bytes l) end.

Lemma string_of_bytes_of_string s : string_of_bytes (bytes_of_string s) = s.
Proof. induction s; simpl; [done|]. by rewrite ascii_of_Z_of_ascii, IHs. Qed.

Lemma bytes_of_string_of_bytes l : bytes_ok l -> bytes_of_string (string_of_bytes l) = l.
Proof. induction 1; simpl; [done|]. rewrite Z_of_ascii_of_Z by done. by f_equal. Qed.

Lemma bytes_of_string_ok s : bytes_ok (bytes_of_string s).
Proof. induction s; constructor; auto using Z_of_ascii_range. Qed.

(** [len(s)] *)
Definition slen (s : string) : Z := Z.of_nat (String.length s).

Definition is_empty (s : string) : bool := match s with "" => true | _ => false end.

Lemma is_empty_spec s : is_empty s = true <-> s = "".
Proof. by destruct s. Qed.

(** Byte slicing [s[:n]] and [s[n:]]. *)
Fixpoint stake (n : nat) (s : string) : string :=
  match n, s with S n, String c s => String c (stake n s) | _, _ => "" end.
Fixpoint sdrop (n : nat) (s : string) : string :=
  match n, s with S n, String _ s => sdrop n s | _, _ => s end.

Fixpoint srev_app (s acc : string) : string :=
  match s with "" => acc | String c s => srev_app s (String c acc) end.
Definition srev (s : string) : string := srev_app s "".

(** [strings.HasPrefix], [strings.HasSuffix], [strings.TrimPrefix]. *)
Fixpoint HasPrefix (s p : string) : bool :=
  match p, s with
  | "", _ => true
  | String c p, String d s => Ascii.eqb c d && HasPrefix s p
  | _, _ => false
  end.
Definition HasSuffix (s p : string) : bool := HasPrefix (srev s) (srev p).
Definition TrimPrefix (s p : string) : string :=
  if HasPrefix s p then sdrop (String.length p) s else s.

(** [strings.Index] and [strings.LastIndex]; [None] is Go's [-1]. *)
Fixpoint Index (s p : string) : option nat :=
  if HasPrefix s p then Some 0%nat else
  match s with "" => None | String _ s => S <$> Index s p end.
Fixpoint LastIndex (s p : string) : option nat :=
  match s with
  | "" => if is_empty p then Some 0%nat else None
  | String _ s' =>
      match LastIndex s' p with
      | Some n => Some (S n)
      | None => if HasPrefix s p then Some 0%nat else None
      end
  end.
Definition Contains (s p : string) : bool := bool_decide (is_Some (Index s p)).

(** Bytes in the ranges [A-Z] and [a-z].  [strings.ToLower], [strings.ToUpper]
    and [strings.EqualFold] are modelled on the ASCII letters, which is all the
    identifiers, paths and keywords of the program are made of; bytes outside
    ASCII are left alone. *)
Definition lower_ascii (c : ascii) : ascii :=
  let z := Z_of_ascii c in
  if (65 <=? z) && (z <=? 90) then ascii_of_Z (z + 32) else c.
Definition upper_ascii (c : ascii) : ascii :=
  let z := Z_of_ascii c in
  if (97 <=? z) && (z <=? 122) then ascii_of_Z (z - 32) else c.
Fixpoint smap (f : ascii -> ascii) (s : string) : string :=
  match s with "" => "" | String c s => String (f c) (smap f s) end.
Definition ToLower (s : string) : string := smap lower_ascii s.
Definition ToUpper (s : string) : string := smap upper_ascii s.
Definition EqualFold (s t : string) : bool := String.eqb (ToLower s) (ToLower t).

(** [strings.TrimSpace]: the ASCII spaces and the encodings of the Unicode
    white space characters, stripped from both ends. *)
Definition space1 (c : ascii) : bool :=
  let z := Z_of_ascii c in ((9 <=? z) && (z <=? 13)) || (z =? 32).
Definition space2 (c d : ascii) : bool :=
  (Z_of_ascii c =? 0xC2) && ((Z_of_ascii d =? 0x85) || (Z_of_ascii d =? 0xA0)).
Definition space3 (c d e : ascii) : bool :=
  let c := Z_of_ascii c in let d := Z_of_ascii d in let e := Z_of_ascii e in
  ((c =? 0xE1) && (d =? 0x9A) && (e =? 0x80)) ||
  ((c =? 0xE2) && (d =? 0x80) &&
     (((0x80 <=? e) && (e <=? 0x8A)) || (e =? 0xA8) || (e =? 0xA9) || (e =? 0xAF))) ||
  ((c =? 0xE2) && (d =? 0x81) && (e =? 0x9F)) ||
  ((c =? 0xE3) && (d =? 0x80) && (e =? 0x80)).
Fixpoint trim_left_with (s2 : ascii -> ascii -> bool) (s3 : ascii -> ascii -> ascii -> bool)
    (s : string) : string :=
  match s with
  | "" => ""
  | String c r =>
      if space1 c then trim_left_with s2 s3 r else
      match r with
      | "" => s
      | String d r' =>
          if s2 c d then trim_left_with s2 s3 r' else
          match r' with
          | "" => s
          | String e r'' => if s3 c d e then trim_left_with s2 s3 r'' else s
          end
      end
  end.
Definition TrimSpace (s : string) : string :=
  srev (trim_left_with (fun d c => space2 c d) (fun e d c => space3 c d e)
          (srev (trim_left_with space2 space3 s))).

(** [strings.TrimLeft/TrimRight/Trim] with a one-character cutset. *)
Fixpoint TrimLeftChar (c : ascii) (s : string) : string :=
  match s with
  | "" => ""
  | String d r => if Ascii.eqb c d then TrimLeftChar c r else s
  end.
Definition TrimRightChar (c : ascii) (s : string) : string := srev (TrimLeftChar c (srev s)).
Definition TrimChar (c : ascii) (s : string) : string := TrimRightChar c (TrimLeftChar c s).

(** [strings.SplitN(s, c, n)] for a one-character separator, [n > 0]. *)
Fixpoint cut_char (c : ascii) (s : string) : option (string * string) :=
  match s with
  | "" => None
  | String d r =>
      if Ascii.eqb c d then Some ("", r)
      else (fun p => (String d p.1, p.2)) <$> cut_char c r
  end.
Fixpoint SplitN (s : string) (c : ascii) (n : nat) : list string :=
  match n with
  | O => []
  | S O => [s]
  | S n => match cut_char c s with Some (a, r) => a :: SplitN r c n | None => [s] end
  end.

(** [a < b] on Go strings: bytewise lexicographic order. *)
Definition str_lt (s t : string) : bool := String.ltb s t.
Definition str_gt (s t : string) : bool := String.ltb t s.
Definition Z_gt (a b : Z) : bool := b <? a.

Lemma nonempty s : s <> "" -> is_empty s = false.
Proof. by destruct s. Qed.

(** Facts on the elements of a literal list, as one conjunction. *)
Lemma Forall_all {A} (P : A -> Prop) l : Forall P l <-> foldr (fun x Q => P x /\ Q) True l.
Proof. induction l as [|x l IH]; cbn; [by split|]. by rewrite Forall_cons, IH. Qed.
Ltac forall_all :=
  repeat match goal with H : Forall _ _ |- _ => apply Forall_all in H end; try apply Forall_all; cbn in *;
  destruct_and?; repeat first [assumption|exact I|apply conj].

(** ** Chains of [let]s and conditional updates *)

(** A property carried through a chain. *)
Lemma through_if {A} (P : A -> Prop) (b : bool) r r' : P r -> P r' -> P (if b then r' else r).
Proof. by destruct b. Qed.
Lemma through_let {A B} (P : B -> Prop) (Q : A -> Prop) e (f : A -> B) :
  Q e -> (forall y, Q y -> P (f y)) -> P (let y := e in f y).
Proof. intros H1 H2. exact (H2 e H1). Qed.
Ltac step_let :=
  match goal with |- ?P (let y := ?e in @?f y) => apply (through_let P P e f); cbv beta end.
Lemma let_eq {A B} (e e' : A) (f : A -> B) z : e = e' -> f e' = z -> (let y := e in f y) = z.
Proof. by intros -> <-. Qed.
Lemma if_same {A} (b : bool) (x : A) : (if b then x else x) = x.
Proof. by destruct b. Qed.


(** ** Sorting

    [sort.SliceStable] and [sort.Slice] with a comparison that is a strict weak
    order: the result of the former is determined (the stable rearrangement),
    and so is that of the latter when no two elements are tied. *)

Class StrictWeak {A} (less : A -> A -> bool) : Prop := {
  sw_asym a b : less a b = true -> less b a = false;
  sw_negtrans a b c : less a b = false -> less b c = false -> less a c = false }.

(** A strict total order: ties are equalities. *)
Class StrictTotal {A} (less : A -> A -> bool) : Prop := {
  st_weak :: StrictWeak less;
  st_tie a b : less a b = false -> less b a = false -> a = b }.

(** [if f(a) != f(b) { return lt(f(a), f(b)) }; return next(a, b)] *)
Definition on_key {A K} `{EqDecision K} (lt : K -> K -> bool) (f : A -> K)
    (next : A -> A -> bool) (a b : A) : bool :=
  if decide (f a = f b) then next a b else lt (f a) (f b).

(** The comparison that ties everything: the end of a chain of [on_key]. *)
Definition tie {A} (_ _ : A) : bool := false.

#[export] Instance Z_ltb_total : StrictTotal Z.ltb.
Proof. split; [split|]; intros *; rewrite ?Z.ltb_lt, ?Z.ltb_ge; lia. Qed.
#[export] Instance Z_gt_total : StrictTotal Z_gt.
Proof. unfold Z_gt. split; [split|]; intros *; rewrite ?Z.ltb_lt, ?Z.ltb_ge; lia. Qed.

Lemma ltb_leb s t : String.ltb s t = negb (String.leb t s).
Proof.
  unfold String.ltb, String.leb. rewrite String.compare_antisym.
  by destruct (t ?= s)%string.
Qed.

#[export] Instance str_lt_total : StrictTotal str_lt.
Proof.
  assert (Htot : forall a b, String.leb a b = false -> String.leb b a = true).
  { intros a b H. destruct (String.leb_total a b); congruence. }
  unfold str_lt. split; [split|]; intros *; rewrite !ltb_leb, ?negb_true_iff, ?negb_false_iff.
  - apply Htot.
  - intros H1 H2. apply Is_true_true. apply Is_true_true in H1, H2.
    by apply (transitivity (R := String.le) H2 H1).
  - intros H1 H2. by apply String.leb_antisym.
Qed.
#[export] Instance str_gt_total : StrictTotal str_gt.
Proof.
  destruct str_lt_total as [[Ha Hn] Ht]. unfold str_gt, str_lt in *.
  split; [split|]; intros *; eauto.
Qed.
#[export] Instance tie_weak {A} : StrictWeak (A := A) tie.
Proof. by split. Qed.

#[export] Instance on_key_weak {A K} `{EqDecision K} lt (f : A -> K) next :
  StrictTotal lt -> StrictWeak next -> StrictWeak (on_key lt f next).
Proof.
  intros [[Ha Hn] Ht] [Na Nn]. split; unfold on_key; intros *.
  - intros H. destruct (decide (f a = f b)) as [E|E].
    + rewrite decide_True by done. by apply Na.
    + rewrite decide_False by done. by apply Ha.
  - destruct (decide (f a = f b)) as [E1|E1], (decide (f b = f c)) as [E2|E2];
      intros H1 H2.
    + rewrite decide_True by congruence. by apply (Nn a b c).
    + rewrite decide_False by congruence. by rewrite E1.
    + rewrite decide_False by congruence. by rewrite <- E2.
    + destruct (decide (f a = f c)) as [E3|E3]; [|by apply (Hn _ (f b))].
      exfalso. apply E1, Ht; [done|]. by rewrite E3.
Qed.

Lemma on_key_tie {A K} `{EqDecision K} (lt : K -> K -> bool) (f : A -> K) next a b :
  StrictTotal lt -> on_key lt f next a b = false -> on_key lt f next b a = false ->
  f a = f b /\ next a b = false /\ next b a = false.
Proof.
  intros [_ Ht]. unfold on_key. destruct (decide (f a = f b)) as [E|E].
  - rewrite decide_True by done. done.
  - rewrite decide_False by done. intros H1 H2. by destruct (E (Ht _ _ H1 H2)).
Qed.

Section Sorting.
Context {A : Type} (less : A -> A -> bool).

Fixpoint insert_stable (x : A) (l : list A) : list A :=
  match l with
  | [] => [x]
  | y :: l' => if less y x then y :: insert_stable x l' else x :: l
  end.
Fixpoint SliceStable (l : list A) : list A :=
  match l with [] => [] | x :: l => insert_stable x (SliceStable l) end.

Definition sorted_by : list A -> Prop := StronglySorted (fun a b => less b a = false).

Lemma insert_stable_perm x l : insert_stable x l ≡ₚ x :: l.
Proof.
  induction l as [|y l IH]; simpl; [done|]. destruct (less y x); [|done].
  rewrite IH. apply Permutation_swap.
Qed.
Lemma SliceStable_perm l : SliceStable l ≡ₚ l.
Proof. induction l as [|x l IH]; simpl; [done|]. by rewrite insert_stable_perm, IH. Qed.

Lemma elem_of_SliceStable x l : x ∈ SliceStable l <-> x ∈ l.
Proof. by rewrite SliceStable_perm. Qed.
Lemma length_SliceStable l : length (SliceStable l) = length l.
Proof. by rewrite SliceStable_perm. Qed.

Context `{!StrictWeak less}.

Lemma insert_stable_sorted x l : sorted_by l -> sorted_by (insert_stable x l).
Proof.
  unfold sorted_by. induction 1 as [|y l Hs IH Hy]; simpl; [repeat constructor|].
  destruct (less y x) eqn:E.
  - constructor; [done|]. rewrite insert_stable_perm. constructor; [|done].
    by apply sw_asym.
  - constructor; [by constructor|]. constructor; [done|].
    eapply Forall_impl; [exact Hy|]. simpl. intros z Hz. by apply (sw_negtrans z y x).
Qed.
Lemma SliceStable_sorted l : sorted_by (SliceStable l).
Proof. induction l; simpl; [constructor|]. by apply insert_stable_sorted. Qed.

Lemma SliceStable_id l : sorted_by l -> SliceStable l = l.
Proof.
  induction 1 as [|x l Hs IH Hx]; simpl; [done|]. rewrite IH.
  destruct l as [|y l]; simpl; [done|]. inversion Hx; subst. by rewrite H1.
Qed.

(** Two sorted lists with the same elements agree when ties are equalities. *)
Lemma sorted_by_unique l1 l2 :
  (forall a b, a ∈ l1 -> b ∈ l1 -> less a b = false -> less b a = false -> a = b) ->
  sorted_by l1 -> sorted_by l2 -> l1 ≡ₚ l2 -> l1 = l2.
Proof.
  intros Htie H1. revert l2. induction H1 as [|x l1 Hs IH Hx]; intros l2 H2 Hp.
  { by apply Permutation_nil_l in Hp. }
  destruct H2 as [|y l2 Hs2 Hy].
  { by apply Permutation_nil_r in Hp. }
  assert (x = y) as ->.
  { assert (Hyin : y ∈ x :: l1) by (rewrite Hp; left).
    assert (Hxin : x ∈ y :: l2) by (rewrite <- Hp; left).
    apply elem_of_cons in Hyin as [->|Hyin]; [done|].
    apply elem_of_cons in Hxin as [->|Hxin]; [done|].
    rewrite Forall_forall in Hx, Hy.
    apply Htie; [left|by right|by apply Hy|by apply Hx]. }
  f_equal. apply IH; [|done|by apply Permutation_cons_inv in Hp].
  intros a b Ha Hb. apply Htie; by right.
Qed.

Lemma SliceStable_perm_eq l1 l2 :
  (forall a b, a ∈ l1 -> b ∈ l1 -> less a b = false -> less b a = false -> a = b) ->
  l1 ≡ₚ l2 -> SliceStable l1 = SliceStable l2.
Proof.
  intros Htie Hp. apply sorted_by_unique; auto using SliceStable_sorted.
  - intros a b. rewrite !elem_of_SliceStable. apply Htie.
  - by rewrite !SliceStable_perm.
Qed.
End Sorting.

(** ** Ranging over a map

    [for k, v := range m] visits the entries in an order the runtime picks. *)
Class MapOrder := {
  map_range {A} : gmap string A -> list (string * A);
  map_range_perm {A} (m : gmap string A) : map_range m ≡ₚ map_to_list m }.

#[refine] Definition some_order : MapOrder := {| map_range A m := map_to_list m |}.
Proof. done. Defined.
#[refine] Definition reverse_order : MapOrder := {| map_range A m := reverse (map_to_list m) |}.
Proof. intros. apply reverse_Permutation. Defined.

Section Range.
Context {MO : MapOrder}.
Lemma elem_of_range {A} (m : gmap string A) k x : (k, x) ∈ map_range m <-> m !! k = Some x.
Proof. rewrite map_range_perm. apply elem_of_map_to_list. Qed.
Lemma range_fst_NoDup {A} (m : gmap string A) : NoDup (map_range m).*1.
Proof. rewrite map_range_perm. apply NoDup_fst_map_to_list. Qed.
End Range.

(** ** Filters and folds over lists *)

Lemma filter_bool_perm {A} (P : A -> bool) l1 l2 :
  l1 ≡ₚ l2 -> List.filter P l1 ≡ₚ List.filter P l2.
Proof.
  induction 1 as [|x l1 l2 _ IH|x y l|l1 l2 l3 _ IH1 _ IH2]; simpl.
  - done.
  - destruct (P x); by rewrite IH.
  - destruct (P x), (P y); (done || apply Permutation_swap).
  - by etransitivity.
Qed.


Lemma sorted_by_filter {A} (less : A -> A -> bool) (P : A -> bool) l :
  sorted_by less l -> sorted_by less (List.filter P l).
Proof.
  unfold sorted_by. induction 1 as [|x l Hs IH Hx]; simpl; [constructor|].
  destruct (P x); [|done]. constructor; [done|].
  rewrite Forall_forall in *. intros y Hy. apply list_elem_of_In, filter_In in Hy.
  apply Hx, list_elem_of_In, Hy.
Qed.

(** A decidable property of all the elements of a concrete list. *)
Lemma check_all {A} (P : A -> bool) l : forallb P l = true -> forall x, x ∈ l -> P x = true.
Proof. rewrite forallb_forall. intros H x Hx. by apply H, list_elem_of_In. Qed.

Lemma sorted_by_strict {A} (less : A -> A -> bool) l :
  (forall a b, a ∈ l -> b ∈ l -> less a b = false -> less b a = false -> a = b) ->
  NoDup l -> sorted_by less l -> StronglySorted (fun a b => less a b = true) l.
Proof.
  intros Htie Hnd Hs. induction Hs as [|x l Hs IH Hx]; [constructor|].
  apply NoDup_cons in Hnd as [Hx' Hnd]. constructor.
  - apply IH; [|done]. intros a b Ha Hb. apply Htie; by right.
  - rewrite Forall_forall in *. intros y Hy. apply not_false_is_true. intros Hless.
    apply Hx'. rewrite (Htie x y); [done|left|by right|done|by apply Hx].
Qed.

Lemma StronglySorted_impl {A} (R R' : A -> A -> Prop) l :
  (forall a b, R a b -> R' a b) -> StronglySorted R l -> StronglySorted R' l.
Proof.
  intros HR. induction 1; constructor; [done|]. eapply Forall_impl; [eassumption|]. simpl. auto.
Qed.
Lemma StronglySorted_filter {A} (R : A -> A -> Prop) (f : A -> bool) l :
  StronglySorted R l -> StronglySorted R (List.filter f l).
Proof.
  induction 1 as [|x l Hl IH Hx]; simpl; [constructor|]. case_match; [|done].
  constructor; [done|]. rewrite Forall_forall in Hx |- *. intros y Hy.
  apply Hx. apply list_elem_of_In, filter_In in Hy as [Hy _]. by apply list_elem_of_In.
Qed.
Lemma StronglySorted_reverse {A} (R : A -> A -> Prop) l :
  StronglySorted R l -> StronglySorted (flip R) (reverse l).
Proof.
  induction 1 as [|x l Hl IH Hx]; [constructor|]. rewrite reverse_cons.
  apply StronglySorted_app. split; [intros a b Ha Hb|split; [done|repeat constructor]].
  apply list_elem_of_singleton in Hb as ->. rewrite Forall_forall in Hx. by apply Hx, elem_of_reverse.
Qed.
Lemma elem_of_List_filter {A} (f : A -> bool) l x : x ∈ List.filter f l <-> x ∈ l /\ f x = true.
Proof. by rewrite !list_elem_of_In, filter_In. Qed.
Lemma StronglySorted_omap {A B} (R : A -> A -> Prop) (R' : B -> B -> Prop) (f : A -> option B) l :
  (forall x y x' y', x ∈ l -> y ∈ l -> f x = Some x' -> f y = Some y' -> R x y -> R' x' y') ->
  StronglySorted R l -> StronglySorted R' (omap f l).
Proof.
  intros Hf Hs. induction Hs as [|x l Hs IH Hx]; simpl; [constructor|].
  assert (IH' : StronglySorted R' (omap f l)).
  { apply IH. intros a b a' b' Ha Hb. apply Hf; by right. }
  destruct (f x) as [x'|] eqn:E; [|done]. constructor; [done|].
  rewrite Forall_forall in Hx. apply Forall_forall. intros y' Hy'. apply list_elem_of_omap in Hy' as (y & Hy & Ey).
  apply (Hf x y); [left|by right|done|done|by apply Hx].
Qed.
