(* ===== verification/GoText.v ===== *)
(** * Text: the string, number and base64 routines of Go's standard library

    Formatting and parsing of integers ([fmt]'s [%d], [%019d], [%016x]), the
    decoding of strings into runes ([for _, c := range s]), [encoding/base64]'s
    standard alphabet, the [int64] cursors built on it, and the lemmas on
    concatenation, prefixes and key order that the storage keys rely on. *)

From S2P Require Import Prelude.

(** ** Concatenation and prefixes *)

Lemma sapp_cons c s t : String c s +:+ t = String c (s +:+ t).
Proof. done. Qed.
Lemma sapp_nil_l s : "" +:+ s = s.
Proof. done. Qed.
Lemma sapp_nil_r s : s +:+ "" = s.
Proof. induction s; [done|]. by rewrite sapp_cons, IHs. Qed.
Lemma sapp_assoc a b c : (a +:+ b) +:+ c = a +:+ (b +:+ c).
Proof. induction a; [done|]. by rewrite !sapp_cons, IHa. Qed.
Lemma sapp_length a b : String.length (a +:+ b) = (String.length a + String.length b)%nat.
Proof. induction a; [done|]. rewrite sapp_cons. simpl. by rewrite IHa. Qed.
Lemma slen_app a b : slen (a +:+ b) = slen a + slen b.
Proof. unfold slen. rewrite sapp_length. lia. Qed.
Lemma slen_nonneg s : 0 <= slen s.
Proof. unfold slen. lia. Qed.

Lemma HasPrefix_nil s : HasPrefix s "" = true.
Proof. by destruct s. Qed.
Lemma HasPrefix_spec s p : HasPrefix s p = true <-> exists r, s = p +:+ r.
Proof.
  revert s. induction p as [|c p IH]; intros s.
  { rewrite HasPrefix_nil. split; [|done]. by exists s. }
  destruct s as [|d s]; simpl; [split; [done|]; by intros [r ?]|].
  rewrite andb_true_iff, IH, Ascii.eqb_eq. split.
  - intros [-> [r ->]]. by exists r.
  - intros [r Hr]. rewrite sapp_cons in Hr. injection Hr as -> ->. eauto.
Qed.
Lemma HasPrefix_app p s : HasPrefix (p +:+ s) p = true.
Proof. apply HasPrefix_spec. eauto. Qed.
Lemma HasPrefix_app_l p q s : HasPrefix (p +:+ s) (p +:+ q) = HasPrefix s q.
Proof. induction p; [done|]. rewrite !sapp_cons. simpl. by rewrite Ascii.eqb_refl, IHp. Qed.
Lemma HasPrefix_refl p : HasPrefix p p = true.
Proof. rewrite <- (sapp_nil_r p) at 1. apply HasPrefix_app. Qed.
Lemma HasPrefix_trans a b c : HasPrefix a b = true -> HasPrefix b c = true -> HasPrefix a c = true.
Proof. rewrite !HasPrefix_spec. intros [r ->] [r' ->]. exists (r' +:+ r). by rewrite sapp_assoc. Qed.

Lemma sdrop_app p s : sdrop (String.length p) (p +:+ s) = s.
Proof. induction p; [by destruct s|]. by rewrite sapp_cons. Qed.
Lemma stake_app p s : stake (String.length p) (p +:+ s) = p.
Proof. induction p; [by destruct s|]. rewrite sapp_cons. simpl. by rewrite IHp. Qed.
Lemma TrimPrefix_app p s : TrimPrefix (p +:+ s) p = s.
Proof. unfold TrimPrefix. by rewrite HasPrefix_app, sdrop_app. Qed.

Lemma sapp_eq_length a b c d :
  String.length a = String.length b -> a +:+ c = b +:+ d -> a = b /\ c = d.
Proof.
  revert b. induction a as [|x a IH]; intros [|y b]; try done.
  rewrite !sapp_cons. intros [= Hl] [= -> H]. destruct (IH _ Hl H) as [-> ->]. done.
Qed.

(** A key component without the separator determines the split. *)
Fixpoint no_char (c : ascii) (s : string) : bool :=
  match s with "" => true | String d r => negb (Ascii.eqb c d) && no_char c r end.

Lemma cut_char_app c a r : no_char c a = true -> cut_char c (a +:+ String c r) = Some (a, r).
Proof.
  induction a as [|d a IH]; simpl.
  { intros _. by rewrite Ascii.eqb_refl. }
  rewrite andb_true_iff, negb_true_iff. intros [Hd Ha].
  by rewrite Hd, IH.
Qed.
Lemma cut_char_none c s : no_char c s = true -> cut_char c s = None.
Proof.
  induction s as [|d s IH]; simpl; [done|]. rewrite andb_true_iff, negb_true_iff.
  intros [-> H]. by rewrite IH.
Qed.
Lemma sep_inj c a b r t :
  no_char c a = true -> no_char c b = true ->
  a +:+ String c r = b +:+ String c t -> a = b /\ r = t.
Proof.
  intros Ha Hb H. apply (f_equal (cut_char c)) in H. rewrite !cut_char_app in H by done.
  by simplify_eq.
Qed.

(** ** Key order *)

Lemma compare_refl s : (s ?= s)%string = Eq.
Proof. induction s as [|c s IH]; [done|]. simpl. unfold Ascii.compare. by rewrite N.compare_refl. Qed.

Lemma str_lt_irrefl s : str_lt s s = false.
Proof. unfold str_lt, String.ltb. by rewrite compare_refl. Qed.
Lemma strict_NoDup {A} (f : A -> string) l :
  StronglySorted (fun a b => str_lt (f a) (f b) = true) l -> NoDup l.
Proof.
  induction 1 as [|x l _ IH Hx]; constructor; [|done]. intros Hin. rewrite Forall_forall in Hx.
  specialize (Hx x Hin). by rewrite str_lt_irrefl in Hx.
Qed.

Lemma compare_app_l p a b : (p +:+ a ?= p +:+ b)%string = (a ?= b)%string.
Proof.
  induction p as [|c p IH]; [done|]. rewrite !sapp_cons. simpl.
  unfold Ascii.compare. by rewrite N.compare_refl.
Qed.
Lemma compare_app_eqlen a b x y :
  String.length a = String.length b ->
  (a +:+ x ?= b +:+ y)%string =
  match (a ?= b)%string with Eq => (x ?= y)%string | c => c end.
Proof.
  revert b. induction a as [|c a IH]; intros [|d b]; try done.
  intros [= Hl]. rewrite !sapp_cons. simpl. destruct (Ascii.compare c d); [by apply IH|done..].
Qed.
Lemma leb_app_l p a b : String.leb (p +:+ a) (p +:+ b) = String.leb a b.
Proof. unfold String.leb. by rewrite compare_app_l. Qed.
Lemma ltb_app_l p a b : String.ltb (p +:+ a) (p +:+ b) = String.ltb a b.
Proof. unfold String.ltb. by rewrite compare_app_l. Qed.

(** ** Fixed-width numerals *)

Definition digit_char (d : Z) : ascii := ascii_of_Z (if d <? 10 then 48 + d else 87 + d).

(** The [w] low digits of [z] in base [b], most significant first. *)
Fixpoint fixed_digits (b : Z) (w : nat) (z : Z) : string :=
  match w with
  | O => ""
  | S w => String (digit_char (z / b ^ Z.of_nat w)) (fixed_digits b w (z mod b ^ Z.of_nat w))
  end.

Lemma fixed_digits_length b w z : String.length (fixed_digits b w z) = w.
Proof. revert z. induction w; intros z; simpl; [done|]. by rewrite IHw. Qed.

Lemma digit_char_compare d e :
  0 <= d < 16 -> 0 <= e < 16 -> Ascii.compare (digit_char d) (digit_char e) = Z.compare d e.
Proof.
  intros Hd He. unfold Ascii.compare. rewrite <- N2Z.inj_compare.
  change (Z.of_N (N_of_ascii ?c)) with (Z_of_ascii c). unfold digit_char.
  rewrite !Z_of_ascii_of_Z by (unfold byte_ok; repeat case_match; lia).
  destruct (Z.compare_spec d e); repeat case_match; try lia;
    (apply Z.compare_eq_iff || apply Z.compare_lt_iff || apply Z.compare_gt_iff); lia.
Qed.

Lemma fixed_digits_compare b w x y :
  2 <= b <= 16 -> 0 <= x < b ^ Z.of_nat w -> 0 <= y < b ^ Z.of_nat w ->
  (fixed_digits b w x ?= fixed_digits b w y)%string = Z.compare x y.
Proof.
  intros Hb. revert x y. induction w as [|w IH]; intros x y Hx Hy.
  { simpl in *. replace x with 0 by lia. by replace y with 0 by lia. }
  replace (b ^ Z.of_nat (S w)) with (b * b ^ Z.of_nat w) in *
    by (rewrite Nat2Z.inj_succ, Z.pow_succ_r by lia; lia).
  assert (Hp : 0 < b ^ Z.of_nat w) by (apply Z.pow_pos_nonneg; lia).
  set (p := b ^ Z.of_nat w) in *.
  pose proof (Z.div_mod x p ltac:(lia)). pose proof (Z.div_mod y p ltac:(lia)).
  pose proof (Z.mod_pos_bound x p Hp). pose proof (Z.mod_pos_bound y p Hp).
  assert (0 <= x / p < b) by (split; [apply Z.div_pos|apply Z.div_lt_upper_bound]; lia).
  assert (0 <= y / p < b) by (split; [apply Z.div_pos|apply Z.div_lt_upper_bound]; lia).
  simpl. fold p. rewrite digit_char_compare by lia. rewrite IH by done.
  destruct (Z.compare_spec (x / p) (y / p)) as [E|E|E].
  - rewrite E in *. destruct (Z.compare_spec (x mod p) (y mod p)); symmetry;
      (apply Z.compare_eq_iff || apply Z.compare_lt_iff || apply Z.compare_gt_iff); lia.
  - symmetry. apply Z.compare_lt_iff. nia.
  - symmetry. apply Z.compare_gt_iff. nia.
Qed.

Lemma fixed_digits_inj b w x y :
  2 <= b <= 16 -> 0 <= x < b ^ Z.of_nat w -> 0 <= y < b ^ Z.of_nat w ->
  fixed_digits b w x = fixed_digits b w y -> x = y.
Proof.
  intros Hb Hx Hy H. apply Z.compare_eq_iff. rewrite <- (fixed_digits_compare b w) by done.
  rewrite H. apply compare_refl.
Qed.

(** [%d]: the digits without leading zeros, by [fuel] divisions. *)
Fixpoint dec_digits (fuel : nat) (z : Z) (acc : string) : string :=
  match fuel with
  | O => acc
  | S fuel =>
      let acc := String (digit_char (z mod 10)) acc in
      if z / 10 =? 0 then acc else dec_digits fuel (z / 10) acc
  end.
(** An [int64] has at most 19 digits. *)
Definition fmt_d (z : Z) : string :=
  if z <? 0 then String "-" (dec_digits 20 (- z) "") else dec_digits 20 z "".

(** [%019d]: zero-padded to 19 characters, the sign included. *)
Definition fmt_019d (z : Z) : string :=
  if 0 <=? z then fixed_digits 10 19 z
  else String "-" (fixed_digits 10 (if - z <? 10 ^ 18 then 18%nat else 19%nat) (- z)).

(** [%016x] of a [uint64]. *)
Definition fmt_016x (z : Z) : string := fixed_digits 16 16 z.

Lemma fmt_019d_length z : 0 <= z -> String.length (fmt_019d z) = 19%nat.
Proof. intros H. unfold fmt_019d. rewrite (proj2 (Z.leb_le 0 z) H). apply fixed_digits_length. Qed.
Lemma fmt_019d_compare x y :
  0 <= x < 2 ^ 63 -> 0 <= y < 2 ^ 63 -> (fmt_019d x ?= fmt_019d y)%string = Z.compare x y.
Proof.
  intros Hx Hy. unfold fmt_019d.
  rewrite (proj2 (Z.leb_le 0 x)), (proj2 (Z.leb_le 0 y)) by lia.
  apply fixed_digits_compare; [lia|..]; change (10 ^ Z.of_nat 19) with 10000000000000000000; lia.
Qed.

(** [fmt.Sscanf(s, "%d", &n)]: blanks, an optional sign and the decimal
    digits that follow; a newline before the number or a value outside [int64] is an error.  [None] leaves [n] unchanged. *)
Definition digit_val (c : ascii) : option Z :=
  let z := Z_of_ascii c in if (48 <=? z) && (z <=? 57) then Some (z - 48) else None.
Fixpoint scan_digits (s : string) (acc : option Z) : option Z :=
  match s with
  | "" => acc
  | String c r =>
      match digit_val c with
      | Some d => scan_digits r (Some (default 0 acc * 10 + d))
      | None => acc
      end
  end.
Definition check_i64 (z : Z) : option Z :=
  if (- 2 ^ 63 <=? z) && (z <? 2 ^ 63) then Some z else None.
Fixpoint Sscanf_d (s : string) : option Z :=
  match s with
  | "" => None
  | String c r =>
      if Ascii.eqb c "010" then None
      else if space1 c then Sscanf_d r
      else if Ascii.eqb c "-" then scan_digits r None ≫= fun z => check_i64 (- z)
      else if Ascii.eqb c "+" then scan_digits r None ≫= check_i64
      else scan_digits s None ≫= check_i64
  end.

(** ** Runes

    [for i, c := range s] decodes UTF-8; an invalid byte yields U+FFFD and
    advances by one. *)

Definition cont_byte (b : Z) : bool := (0x80 <=? b) && (b <=? 0xBF).

Definition decode_rune (l : list Z) : Z * nat :=
  match l with
  | b0 :: l1 =>
      if b0 <? 0x80 then (b0, 1%nat) else
      match l1 with
      | b1 :: l2 =>
          if (0xC2 <=? b0) && (b0 <=? 0xDF) && cont_byte b1
          then ((b0 - 0xC0) * 64 + (b1 - 0x80), 2%nat) else
          match l2 with
          | b2 :: l3 =>
              if (0xE0 <=? b0) && (b0 <=? 0xEF) &&
                 ((if b0 =? 0xE0 then 0xA0 else 0x80) <=? b1) &&
                 (b1 <=? (if b0 =? 0xED then 0x9F else 0xBF)) && cont_byte b2
              then ((b0 - 0xE0) * 4096 + (b1 - 0x80) * 64 + (b2 - 0x80), 3%nat) else
              match l3 with
              | b3 :: _ =>
                  if (0xF0 <=? b0) && (b0 <=? 0xF4) &&
                     ((if b0 =? 0xF0 then 0x90 else 0x80) <=? b1) &&
                     (b1 <=? (if b0 =? 0xF4 then 0x8F else 0xBF)) && cont_byte b2 && cont_byte b3
                  then ((b0 - 0xF0) * 262144 + (b1 - 0x80) * 4096 + (b2 - 0x80) * 64
                        + (b3 - 0x80), 4%nat)
                  else (0xFFFD, 1%nat)
              | [] => (0xFFFD, 1%nat)
              end
          | [] => (0xFFFD, 1%nat)
          end
      | [] => (0xFFFD, 1%nat)
      end
  | [] => (0xFFFD, 1%nat)
  end.

(** The pairs [(i, c)] of the range loop; [fuel] is the number of bytes left. *)
Fixpoint range_from (fuel : nat) (i : Z) (l : list Z) : list (Z * Z) :=
  match fuel with
  | O => []
  | S fuel =>
      match l with
      | [] => []
      | _ =>
          let '(r, w) := decode_rune l in
          (i, r) :: range_from fuel (i + Z.of_nat w) (drop w l)
      end
  end.
Definition range_runes (s : string) : list (Z * Z) :=
  range_from (String.length s) 0 (bytes_of_string s).

Definition ascii_bytes (l : list Z) : Prop := Forall (fun b => 0 <= b < 0x80) l.

Lemma range_from_ascii l i :
  ascii_bytes l -> range_from (length l) i l = zip (seqZ i (Z.of_nat (length l))) l.
Proof.
  intros H. revert i. induction H as [|b l Hb Hl IH]; intros i; [done|].
  cbn [length range_from]. rewrite Nat2Z.inj_succ, seqZ_cons by lia.
  assert (decode_rune (b :: l) = (b, 1%nat)) as ->.
  { simpl. by rewrite (proj2 (Z.ltb_lt b 128)) by lia. }
  cbn [drop zip zip_with]. f_equal. rewrite IH. by rewrite Z.pred_succ, Z.add_1_r.
Qed.

Lemma bytes_of_string_length s : length (bytes_of_string s) = String.length s.
Proof. induction s; simpl; congruence. Qed.
Lemma string_of_bytes_length l : String.length (string_of_bytes l) = length l.
Proof. induction l; simpl; congruence. Qed.
Lemma bytes_of_string_app s t : bytes_of_string (s +:+ t) = bytes_of_string s ++ bytes_of_string t.
Proof. induction s; [done|]. rewrite sapp_cons. simpl. by rewrite IHs. Qed.

(** On ASCII text the runes are the bytes. *)
Lemma range_runes_ascii s :
  ascii_bytes (bytes_of_string s) -> (range_runes s).*2 = bytes_of_string s.
Proof.
  intros H. unfold range_runes. rewrite <- bytes_of_string_length, range_from_ascii by done.
  apply snd_zip. rewrite length_seqZ. lia.
Qed.

(** ** base64.StdEncoding *)

Definition b64_char (v : Z) : ascii :=
  ascii_of_Z (if v <? 26 then v + 65 else if v <? 52 then v + 71
              else if v <? 62 then v - 4 else if v =? 62 then 43 else 47).
Definition b64_val (c : ascii) : option Z :=
  let z := Z_of_ascii c in
  if (65 <=? z) && (z <=? 90) then Some (z - 65)
  else if (97 <=? z) && (z <=? 122) then Some (z - 71)
  else if (48 <=? z) && (z <=? 57) then Some (z + 4)
  else if z =? 43 then Some 62 else if z =? 47 then Some 63 else None.
Definition b64_pad : ascii := "="%char.

Fixpoint b64_encode (l : list Z) : string :=
  match l with
  | [] => ""
  | [a] => String (b64_char (a / 4)) (String (b64_char (a mod 4 * 16))
             (String b64_pad (String b64_pad "")))
  | [a; b] => String (b64_char (a / 4)) (String (b64_char (a mod 4 * 16 + b / 16))
                (String (b64_char (b mod 16 * 4)) (String b64_pad "")))
  | a :: b :: c :: l =>
      String (b64_char (a / 4)) (String (b64_char (a mod 4 * 16 + b / 16))
        (String (b64_char (b mod 16 * 4 + c / 64)) (String (b64_char (c mod 64))
          (b64_encode l))))
  end.

(** Newlines are skipped; the length must be a multiple of four, the last
    quantum may be padded, and the unused low bits of it are not checked. *)
Fixpoint b64_strip (s : string) : string :=
  match s with
  | "" => ""
  | String c r => if Ascii.eqb c "010" || Ascii.eqb c "013" then b64_strip r
                  else String c (b64_strip r)
  end.
Fixpoint b64_quanta (s : string) : option (list Z) :=
  match s with
  | "" => Some []
  | String c0 (String c1 (String c2 (String c3 r))) =>
      v0 ← b64_val c0; v1 ← b64_val c1;
      let a := v0 * 4 + v1 / 16 in
      if Ascii.eqb c2 b64_pad then
        if Ascii.eqb c3 b64_pad && is_empty r then Some [a] else None
      else
        v2 ← b64_val c2;
        let b := v1 mod 16 * 16 + v2 / 4 in
        if Ascii.eqb c3 b64_pad then
          if is_empty r then Some [a; b] else None
        else
          v3 ← b64_val c3;
          l ← b64_quanta r;
          Some (a :: b :: v2 mod 4 * 64 + v3 :: l)
  | _ => None
  end.
Definition b64_decode (s : string) : option (list Z) := b64_quanta (b64_strip s).

Lemma b64_all (P : Z -> bool) :
  forallb P (map Z.of_nat (List.seq 0 64)) = true -> forall v, 0 <= v < 64 -> P v = true.
Proof.
  intros H v Hv. rewrite forallb_forall in H. apply H. apply in_map_iff.
  exists (Z.to_nat v). split; [lia|]. apply in_seq. lia.
Qed.

Lemma b64_val_char v : 0 <= v < 64 -> b64_val (b64_char v) = Some v.
Proof.
  intros Hv. apply (bool_decide_eq_true_1 (b64_val (b64_char v) = Some v)). revert v Hv.
  apply b64_all. by vm_compute.
Qed.
Lemma b64_char_plain v :
  0 <= v < 64 ->
  Ascii.eqb (b64_char v) b64_pad = false /\ Ascii.eqb (b64_char v) "010" = false
  /\ Ascii.eqb (b64_char v) "013" = false.
Proof.
  intros Hv. rewrite <- !negb_true_iff, <- !andb_true_iff. revert v Hv.
  apply b64_all. by vm_compute.
Qed.

(** Decoding what was encoded gives the bytes back. *)
Lemma b64_strip_encode l : bytes_ok l -> b64_strip (b64_encode l) = b64_encode l.
Proof.
  intros H. assert (Hn : exists n, (length l <= n)%nat) by eauto. destruct Hn as [n Hn].
  revert l Hn H. induction n as [|n IH]; intros l Hn H.
  { by destruct l; [|simpl in Hn; lia]. }
  unfold bytes_ok, byte_ok in H.
  destruct l as [|a [|b [|c l]]]; [done|..];
    repeat match goal with H : Forall _ (_ :: _) |- _ => inversion H; clear H; subst end;
    cbn [b64_encode b64_strip];
    repeat match goal with
    | |- context [Ascii.eqb (b64_char ?v) "010"] =>
        destruct (b64_char_plain v ltac:(Z.div_mod_to_equations; lia)) as (_ & -> & ->)
    end; cbn [orb]; try reflexivity.
  do 4 f_equal. apply IH; [simpl in Hn; lia|done].
Qed.

Lemma b64_roundtrip l : bytes_ok l -> b64_decode (b64_encode l) = Some l.
Proof.
  intros H. unfold b64_decode. rewrite b64_strip_encode by done.
  assert (Hn : exists n, (length l <= n)%nat) by eauto. destruct Hn as [n Hn].
  revert l Hn H. induction n as [|n IH]; intros l Hn H.
  { by destruct l; [|simpl in Hn; lia]. }
  unfold bytes_ok, byte_ok in H.
  destruct l as [|a [|b [|c l]]]; [done|..];
    repeat match goal with H : Forall _ (_ :: _) |- _ => inversion H; clear H; subst end;
    cbn [b64_encode b64_quanta];
    repeat match goal with
    | |- context [b64_val (b64_char ?v)] =>
        rewrite (b64_val_char v) by (Z.div_mod_to_equations; lia)
    | |- context [Ascii.eqb (b64_char ?v) b64_pad] =>
        destruct (b64_char_plain v ltac:(Z.div_mod_to_equations; lia)) as (-> & _ & _)
    end; cbn [mbind option_bind Ascii.eqb b64_pad Bool.eqb is_empty andb];
    [do 2 f_equal; Z.div_mod_to_equations; lia
    |f_equal; f_equal; [|f_equal]; Z.div_mod_to_equations; lia|].
  rewrite IH by (simpl in Hn; lia || done). cbn [mbind option_bind].
  f_equal; f_equal; [|f_equal; [|f_equal]]; Z.div_mod_to_equations; lia.
Qed.

(** ** base64.RawURLEncoding *)

Definition url_char (v : Z) : ascii := if v =? 62 then "-"%char else if v =? 63 then "_"%char else b64_char v.
Definition url_val (c : ascii) : option Z :=
  if Ascii.eqb c "-" then Some 62 else if Ascii.eqb c "_" then Some 63
  else if Ascii.eqb c "+" || Ascii.eqb c "/" then None else b64_val c.
Fixpoint url_encode (l : list Z) : string :=
  match l with
  | [] => ""
  | [a] => String (url_char (a / 4)) (String (url_char (a mod 4 * 16)) "")
  | [a; b] => String (url_char (a / 4)) (String (url_char (a mod 4 * 16 + b / 16))
                (String (url_char (b mod 16 * 4)) ""))
  | a :: b :: c :: l =>
      String (url_char (a / 4)) (String (url_char (a mod 4 * 16 + b / 16))
        (String (url_char (b mod 16 * 4 + c / 64)) (String (url_char (c mod 64)) (url_encode l))))
  end.
(** Newlines are skipped; the last quantum has two characters or more. *)
Fixpoint url_quanta (s : string) : option (list Z) :=
  match s with
  | "" => Some []
  | String c0 (String c1 r) =>
      v0 ← url_val c0; v1 ← url_val c1;
      let a := v0 * 4 + v1 / 16 in
      match r with
      | "" => Some [a]
      | String c2 r =>
          v2 ← url_val c2;
          let b := v1 mod 16 * 16 + v2 / 4 in
          match r with
          | "" => Some [a; b]
          | String c3 r =>
              v3 ← url_val c3;
              l ← url_quanta r;
              Some (a :: b :: v2 mod 4 * 64 + v3 :: l)
          end
      end
  | _ => None
  end.
Definition url_decode (s : string) : option (list Z) := url_quanta (b64_strip s).

Lemma url_val_char v : 0 <= v < 64 -> url_val (url_char v) = Some v.
Proof.
  intros Hv. apply (bool_decide_eq_true_1 (url_val (url_char v) = Some v)). revert v Hv.
  apply b64_all. by vm_compute.
Qed.
Lemma url_char_plain v :
  0 <= v < 64 -> Ascii.eqb (url_char v) "010" = false /\ Ascii.eqb (url_char v) "013" = false.
Proof.
  intros Hv. rewrite <- !negb_true_iff, <- !andb_true_iff. revert v Hv. apply b64_all. by vm_compute.
Qed.
Lemma url_roundtrip l : bytes_ok l -> url_decode (url_encode l) = Some l.
Proof.
  intros H. unfold url_decode.
  assert (Hn : exists n, (length l <= n)%nat) by eauto. destruct Hn as [n Hn].
  revert l Hn H. induction n as [|n IH]; intros l Hn H.
  { by destruct l; [|simpl in Hn; lia]. }
  unfold bytes_ok, byte_ok in H.
  destruct l as [|a [|b [|c l]]]; [done|..];
    repeat match goal with H : Forall _ (_ :: _) |- _ => inversion H; clear H; subst end;
    cbn [url_encode b64_strip];
    repeat match goal with
    | |- context [Ascii.eqb (url_char ?v) "010"] =>
        destruct (url_char_plain v ltac:(Z.div_mod_to_equations; lia)) as (-> & ->)
    end; cbn [orb url_quanta];
    repeat match goal with
    | |- context [url_val (url_char ?v)] =>
        rewrite (url_val_char v) by (Z.div_mod_to_equations; lia)
    end; cbn [mbind option_bind];
    [do 2 f_equal; Z.div_mod_to_equations; lia
    |f_equal; f_equal; [|f_equal]; Z.div_mod_to_equations; lia|].
  rewrite IH by (simpl in Hn; lia || done). cbn [mbind option_bind].
  f_equal; f_equal; [|f_equal; [|f_equal]]; Z.div_mod_to_equations; lia.
Qed.

(** ** strconv.Atoi *)

Fixpoint digits_val (s : string) (acc : Z) : option Z :=
  match s with "" => Some acc | String c r => v ← digit_val c; digits_val r (acc * 10 + v) end.
Definition Atoi (s : string) : option Z :=
  match s with
  | "" => None
  | String c r =>
      if Ascii.eqb c "-" then if is_empty r then None else z ← digits_val r 0; check_i64 (- z)
      else if Ascii.eqb c "+" then if is_empty r then None else z ← digits_val r 0; check_i64 z
      else z ← digits_val s 0; check_i64 z
  end.

(** ** The last separator *)

Lemma LastIndex_nil_char c s : no_char c s = true -> LastIndex s (String c "") = None.
Proof.
  induction s as [|d s IH]; simpl; [done|]. rewrite andb_true_iff, negb_true_iff.
  intros [Hd Hs]. by rewrite IH, Hd.
Qed.
Lemma LastIndex_app c a b :
  no_char c b = true -> LastIndex (a +:+ String c b) (String c "") = Some (String.length a).
Proof.
  intros Hb. induction a as [|d a IH].
  - simpl. rewrite LastIndex_nil_char, Ascii.eqb_refl, HasPrefix_nil by done. done.
  - rewrite sapp_cons. cbn [LastIndex String.length]. by rewrite IH.
Qed.
Lemma LastIndex_char_none c s : LastIndex s (String c "") = None -> no_char c s = true.
Proof.
  induction s as [|d s IH]; simpl; [done|].
  destruct (LastIndex s _); [done|]. rewrite HasPrefix_nil, andb_true_r.
  destruct (Ascii.eqb c d); [done|]. intros _. by apply IH.
Qed.
Lemma LastIndex_char_some c s n :
  LastIndex s (String c "") = Some n ->
  s = stake n s +:+ String c (sdrop (n + 1) s) /\ no_char c (sdrop (n + 1) s) = true
  /\ String.length (stake n s) = n.
Proof.
  revert n. induction s as [|d s IH]; intros n; simpl; [done|].
  destruct (LastIndex s (String c "")) as [m|] eqn:E.
  - intros [= <-]. destruct (IH m eq_refl) as (H1 & H2 & H3). rewrite Nat.add_1_r in *.
    split_and!; [|done|simpl; congruence]. cbn [stake]. rewrite sapp_cons. f_equal. exact H1.
  - rewrite HasPrefix_nil, andb_true_r. destruct (Ascii.eqb_spec c d) as [<-|]; [|done].
    intros [= <-]. split_and!; [done| |done]. by apply LastIndex_char_none.
Qed.

(** ** Case mapping *)

Lemma smap_app f a b : smap f (a +:+ b) = smap f a +:+ smap f b.
Proof. induction a; [done|]. rewrite !sapp_cons. simpl. by rewrite IHa. Qed.
Lemma ToLower_app a b : ToLower (a +:+ b) = ToLower a +:+ ToLower b.
Proof. apply smap_app. Qed.

Lemma lower_ascii_idem c : lower_ascii (lower_ascii c) = lower_ascii c.
Proof.
  apply (bool_decide_eq_true_1 (lower_ascii (lower_ascii c) = lower_ascii c)).
  destruct c as [[] [] [] [] [] [] [] []]; by vm_compute.
Qed.
Lemma ToLower_idem s : ToLower (ToLower s) = ToLower s.
Proof.
  induction s as [|c s IH]; [done|].
  change (String (lower_ascii (lower_ascii c)) (ToLower (ToLower s))
          = String (lower_ascii c) (ToLower s)).
  by rewrite lower_ascii_idem, IH.
Qed.
Lemma smap_length f s : String.length (smap f s) = String.length s.
Proof. induction s; simpl; congruence. Qed.

Lemma stake_length_le n s : (String.length (stake n s) <= n)%nat.
Proof. revert s. induction n as [|n IH]; intros [|c s]; simpl; try lia. specialize (IH s). lia. Qed.
Lemma stake_sdrop n s : stake n s +:+ sdrop n s = s.
Proof. revert s. induction n as [|n IH]; intros [|c s]; try done. simpl. rewrite sapp_cons. by rewrite IH. Qed.
Lemma sdrop_sdrop n m s : sdrop n (sdrop m s) = sdrop (m + n) s.
Proof. revert s. induction m as [|m IH]; intros [|c s]; try done; [by destruct n|]. simpl. apply IH. Qed.

(** Strings with different prefixes of which neither extends the other. *)
Lemma HasPrefix_clash p q r :
  HasPrefix p q || HasPrefix q p = false -> HasPrefix (p +:+ r) q = false.
Proof.
  revert q. induction p as [|c p IH]; intros [|d q]; simpl; try done.
  rewrite (Ascii.eqb_sym c d).
  destruct (Ascii.eqb d c); [apply IH|done].
Qed.

(** ** encoding/hex *)

Definition hex_char (v : Z) : ascii := digit_char v.
Fixpoint hex_EncodeToString (l : list Z) : string :=
  match l with
  | [] => ""
  | b :: l => String (hex_char (b / 16)) (String (hex_char (b mod 16)) (hex_EncodeToString l))
  end.
Definition hex_val (c : ascii) : option Z :=
  let z := Z_of_ascii c in
  if (48 <=? z) && (z <=? 57) then Some (z - 48)
  else if (97 <=? z) && (z <=? 102) then Some (z - 87)
  else if (65 <=? z) && (z <=? 70) then Some (z - 55)
  else None.
Fixpoint hex_DecodeString (s : string) : res (list Z) :=
  match s with
  | "" => Ok []
  | String c s =>
      match hex_val c, s with
      | None, _ => Err "encoding/hex: invalid byte"
      | Some _, "" => Err "encoding/hex: odd length hex string"
      | Some h, String d s =>
          match hex_val d with
          | None => Err "encoding/hex: invalid byte"
          | Some l => rest <-? hex_DecodeString s ;; Ok (h * 16 + l :: rest)
          end
      end
  end.

Lemma hex_val_char v : 0 <= v < 16 -> hex_val (hex_char v) = Some v.
Proof.
  intros Hv. assert (H : In v (map Z.of_nat (List.seq 0 16))).
  { apply in_map_iff. exists (Z.to_nat v). split; [lia|]. apply in_seq. lia. }
  revert H. apply (proj1 (List.Forall_forall (fun v => hex_val (hex_char v) = Some v) _)).
  repeat constructor.
Qed.
Lemma hex_roundtrip l : bytes_ok l -> hex_DecodeString (hex_EncodeToString l) = Ok l.
Proof.
  induction 1 as [|b l Hb _ IH]; [done|]. unfold byte_ok in Hb. cbn [hex_EncodeToString hex_DecodeString].
  pose proof (Z.div_mod b 16 ltac:(lia)). pose proof (Z.mod_pos_bound b 16 ltac:(lia)).
  rewrite !hex_val_char by lia. rewrite IH. do 2 f_equal. lia.
Qed.

(** ** TrimSpace leaves nothing to trim *)

(** Whether [trim_left_with] would strip something. *)
Definition leading (s2 : ascii -> ascii -> bool) (s3 : ascii -> ascii -> ascii -> bool)
    (s : string) : bool :=
  match s with
  | "" => false
  | String c "" => space1 c
  | String c (String d "") => space1 c || s2 c d
  | String c (String d (String e _)) => space1 c || s2 c d || s3 c d e
  end.
Lemma trim_left_leading s2 s3 s : leading s2 s3 (trim_left_with s2 s3 s) = false.
Proof.
  assert (H : forall n s, (String.length s <= n)%nat -> leading s2 s3 (trim_left_with s2 s3 s) = false).
  { intros n. induction n as [|n IH]; intros t Hn; [destruct t; [done|simpl in Hn; lia]|].
    destruct t as [|c [|d [|e r]]]; simpl in *; [done| | |].
    - by destruct (space1 c) eqn:E.
    - destruct (space1 c) eqn:E1; [apply (IH (String d "")); simpl; lia|].
      destruct (s2 c d) eqn:E2; [done|]. simpl. by rewrite E1, E2.
    - destruct (space1 c) eqn:E1; [apply (IH (String d (String e r))); simpl; lia|].
      destruct (s2 c d) eqn:E2; [apply (IH (String e r)); simpl; lia|].
      destruct (s3 c d e) eqn:E3; [apply (IH r); lia|]. simpl. by rewrite E1, E2, E3. }
  by apply (H (String.length s)).
Qed.
Lemma trim_left_id s2 s3 s : leading s2 s3 s = false -> trim_left_with s2 s3 s = s.
Proof.
  destruct s as [|c [|d [|e r]]]; simpl; [done| | |]; rewrite ?orb_false_iff.
  - by intros ->.
  - by intros [-> ->].
  - by intros [[-> ->] ->].
Qed.
(** A prefix of text without leading space has none. *)
Lemma leading_prefix s2 s3 s t : leading s2 s3 (s +:+ t) = false -> leading s2 s3 s = false.
Proof.
  destruct s as [|c [|d [|e r]]]; simpl; [done| | |done]; destruct t as [|x [|y t]]; simpl;
    rewrite ?orb_false_iff; intuition.
Qed.

Lemma srev_app_acc s a b : srev_app (srev_app s a) b = srev_app a (s +:+ b).
Proof.
  revert a. induction s as [|c s IH]; intros a; [done|]. rewrite sapp_cons. simpl.
  rewrite IH. done.
Qed.
Lemma srev_srev s : srev (srev s) = s.
Proof. unfold srev. rewrite srev_app_acc. simpl. by rewrite sapp_nil_r. Qed.
Lemma srev_app_app s t acc : srev_app (s +:+ t) acc = srev_app t (srev_app s acc).
Proof. revert acc. induction s as [|c s IH]; intros acc; [done|]. rewrite sapp_cons. apply IH. Qed.
Lemma srev_app_eq s acc : srev_app s acc = srev s +:+ acc.
Proof.
  unfold srev. revert acc. induction s as [|c s IH]; intros acc; [done|]. simpl.
  rewrite IH, (IH (String c "")), sapp_assoc. done.
Qed.
Lemma srev_sapp a b : srev (a +:+ b) = srev b +:+ srev a.
Proof. unfold srev at 1. rewrite srev_app_app. apply srev_app_eq. Qed.

Lemma trim_left_suffix s2 s3 s : exists p, s = p +:+ trim_left_with s2 s3 s.
Proof.
  assert (H : forall n s, (String.length s <= n)%nat -> exists p, s = p +:+ trim_left_with s2 s3 s).
  { intros n. induction n as [|n IH]; intros t Hn; [destruct t; [by exists ""|simpl in Hn; lia]|].
    assert (Hgo : forall q u, (String.length u <= n)%nat -> exists p, q +:+ u = p +:+ trim_left_with s2 s3 u).
    { intros q u Hu. destruct (IH u Hu) as [p E]. exists (q +:+ p). by rewrite sapp_assoc, <- E. }
    destruct t as [|c [|d [|e r]]]; simpl in *; [by exists ""| | |].
    - destruct (space1 c); [by exists (String c "")|by exists ""].
    - destruct (space1 c); [apply (Hgo (String c "") (String d "")); simpl; lia|].
      destruct (s2 c d); [by exists (String c (String d ""))|by exists ""].
    - destruct (space1 c); [apply (Hgo (String c "") (String d (String e r))); simpl; lia|].
      destruct (s2 c d); [apply (Hgo (String c (String d "")) (String e r)); simpl; lia|].
      destruct (s3 c d e); [apply (Hgo (String c (String d (String e ""))) r); lia|by exists ""]. }
  by apply (H (String.length s)).
Qed.
Lemma TrimSpace_idem s : TrimSpace (TrimSpace s) = TrimSpace s.
Proof.
  unfold TrimSpace. set (s2' := fun d c => space2 c d). set (s3' := fun e d c => space3 c d e).
  set (u := trim_left_with space2 space3 s). set (t := trim_left_with s2' s3' (srev u)).
  assert (Hu : leading space2 space3 (srev t) = false).
  { destruct (trim_left_suffix s2' s3' (srev u)) as [p E]. fold t in E.
    apply (leading_prefix _ _ _ (srev p)). rewrite <- srev_sapp, <- E, srev_srev.
    apply trim_left_leading. }
  rewrite (trim_left_id _ _ (srev t)) by done. rewrite srev_srev, (trim_left_id _ _ t); [done|].
  apply trim_left_leading.
Qed.
