(* ===== verification/Json.v ===== *)
(** * encoding/json as the program uses it

    Every aggregator stores Go structs as JSON text and reads them back, and
    parses the bodies of pins.  What the code relies on is an interface: a
    marshaller, an unmarshaller that may fail, and that a value JSON text can
    represent (valid UTF-8 strings, no lossy numbers) survives the round trip.
    The class is instantiated at the end by a codec built from [Countable], with
    which the witnesses evaluate the program's definitions. *)

From S2P Require Import Prelude GoText.
#[local] Set Warnings "-register-all".

Class JSON (A : Type) := {
  json_Marshal : A -> string;
  json_Unmarshal : string -> res A;
  (** the values the text represents exactly *)
  json_faithful : A -> Prop;
  json_roundtrip a : json_faithful a -> json_Unmarshal (json_Marshal a) = Ok a }.

(** A value of static type [interface{}] after [json.Unmarshal]: JSON's own
    shapes.  Numbers are [float64]s, kept as mantissa and exponent. *)
Inductive any : Type :=
  | ANil
  | ABool (b : bool)
  | AFloat (m e : Z)          (* the float64 m * 2^e *)
  | AStr (s : string)
  | AList (l : list any)
  | AMap (l : list (string * any)).

(** ** JSON objects

    A [map[string]interface{}] is the list of its members, each name once. *)

Fixpoint obj_get (k : string) (m : list (string * any)) : option any :=
  match m with
  | [] => None
  | (k', v) :: m => if String.eqb k k' then Some v else obj_get k m
  end.
Fixpoint obj_set (k : string) (v : any) (m : list (string * any)) : list (string * any) :=
  match m with
  | [] => [(k, v)]
  | (k', v') :: m => if String.eqb k k' then (k, v) :: m else (k', v') :: obj_set k v m
  end.
(** [v, _ := m[k].(string)] *)
Definition obj_string (k : string) (m : list (string * any)) : string :=
  match obj_get k m with Some (AStr s) => s | _ => "" end.

(** ** A codec for evaluation

    Records as lists of tokens, written out with a mark before each character. *)

Inductive tok := TS (s : string) | TZ (z : Z).

Fixpoint bits_of_pos (p : positive) : string :=
  match p with
  | xH => ""
  | xO p => String "0"%char (bits_of_pos p)
  | xI p => String "1"%char (bits_of_pos p)
  end.
Fixpoint pos_of_bits (s : string) : positive :=
  match s with
  | "" => xH
  | String c r => if Ascii.eqb c "1" then xI (pos_of_bits r) else xO (pos_of_bits r)
  end.
Lemma pos_of_bits_of_pos p : pos_of_bits (bits_of_pos p) = p.
Proof. induction p; simpl; by rewrite ?IHp. Qed.

Definition tok_text (t : tok) : string :=
  match t with
  | TS s => String "s" s
  | TZ Z0 => "0"
  | TZ (Zpos p) => String "p" (bits_of_pos p)
  | TZ (Zneg p) => String "n" (bits_of_pos p)
  end.
Definition text_tok (s : string) : tok :=
  match s with
  | "" => TS ""
  | String c r =>
      if Ascii.eqb c "s" then TS r else if Ascii.eqb c "p" then TZ (Zpos (pos_of_bits r))
      else if Ascii.eqb c "n" then TZ (Zneg (pos_of_bits r)) else TZ 0
  end.
Lemma text_tok_text t : text_tok (tok_text t) = t.
Proof. destruct t as [s|[]]; simpl; by rewrite ?pos_of_bits_of_pos. Qed.

Fixpoint mark (s rest : string) : string :=
  match s with "" => String "-" rest | String c s => String "+" (String c (mark s rest)) end.
Fixpoint write_toks (l : list tok) : string :=
  match l with [] => "" | t :: l => mark (tok_text t) (write_toks l) end.
(** [cur] is the current token, reversed. *)
Fixpoint read_toks (s cur : string) : res (list tok) :=
  match s with
  | "" => Ok []
  | String m r =>
      if Ascii.eqb m "-" then l <-? read_toks r "" ;; Ok (text_tok (srev cur) :: l)
      else if Ascii.eqb m "+" then
        match r with
        | String c r => read_toks r (String c cur)
        | "" => Err "unexpected end of JSON input"
        end
      else Err "invalid character"
  end.

Lemma read_mark s rest cur :
  read_toks (mark s rest) cur
  = (l <-? read_toks rest "" ;; Ok (text_tok (srev (srev_app s cur)) :: l)).
Proof. revert cur. induction s as [|c s IH]; intros cur; [done|]. simpl. apply IH. Qed.
Lemma read_write l : read_toks (write_toks l) "" = Ok l.
Proof.
  induction l as [|t l IH]; [done|]. simpl. rewrite read_mark, IH.
  change (srev_app (tok_text t) "") with (srev (tok_text t)).
  by rewrite srev_srev, text_tok_text.
Qed.

(** A codec that keeps what [f] keeps; and one that parses nothing. *)
Definition via_JSON {A} (f : A -> list tok) (g : list tok -> option A) : JSON A.
Proof.
  refine {| json_Marshal a := write_toks (f a);
            json_Unmarshal s :=
              l <-? read_toks s "" ;;
              match g l with Some a => Ok a | None => Err "cannot unmarshal" end;
            json_faithful a := g (f a) = Some a |}.
  intros a Ha. by rewrite read_write, Ha.
Defined.
Definition no_JSON {A} : JSON A.
Proof.
  refine {| json_Marshal _ := ""; json_Unmarshal _ := Err "unexpected end of JSON input";
            json_faithful _ := False |}. done.
Defined.
