(* ===== verification/Aliases.v ===== *)
(** * Aliases: collecting the identities of a user

    The closure [add] that several parts contain (socket/server.go, privatechat/identity.go):
    blanks are trimmed, blank values dropped, and a value that differs from an earlier one
    only by letter case is skipped. *)

From S2P Require Import Prelude GoText.
#[local] Set Warnings "-clear-no-such-hyp".

(** The values so far, and the lower-case keys already seen. *)
Definition add_alias (st : list string * gset string) (id : string) : list string * gset string :=
  let id := TrimSpace id in
  if is_empty id then st else
  let key := ToLower id in
  if bool_decide (key ∈ st.2) then st else (st.1 ++ [id], {[key]} ∪ st.2).

Lemma is_empty_false s : is_empty s = false -> s <> "".
Proof. by destruct s. Qed.
Lemma is_empty_true s : is_empty s = true -> s = "".
Proof. by destruct s. Qed.

(** [st] is what adding the values [l] makes. *)
Definition aliases_inv (l : list string) (st : list string * gset string) : Prop :=
  NoDup (map ToLower st.1) /\ list_to_set (map ToLower st.1) = st.2
  /\ (forall x, x ∈ st.1 -> x <> "" /\ exists id, id ∈ l /\ TrimSpace id = x)
  /\ (forall id, id ∈ l -> TrimSpace id <> "" -> ToLower (TrimSpace id) ∈ st.2).
Lemma add_alias_inv l st id :
  aliases_inv l st -> aliases_inv (l ++ [id]) (add_alias st id).
Proof.
  intros (Hnd & Hset & Hsrc & Hall). unfold add_alias.
  destruct (is_empty (TrimSpace id)) eqn:Eid; [|case_bool_decide as Hseen].
  - apply is_empty_true in Eid. split_and!; [done..| |].
    + intros x Hx. destruct (Hsrc x Hx) as (? & i & ? & ?). split; [done|].
      exists i. split; [apply elem_of_app; by left|done].
    + intros i [Hi| ->%list_elem_of_singleton]%elem_of_app Hne; [by apply Hall|done].
  - split_and!; [done..| |].
    + intros x Hx. destruct (Hsrc x Hx) as (? & i & ? & ?). split; [done|].
      exists i. split; [apply elem_of_app; by left|done].
    + intros i [Hi| ->%list_elem_of_singleton]%elem_of_app Hne; [by apply Hall|done].
  - apply is_empty_false in Eid. unfold aliases_inv. cbn [fst snd].
    split_and!.
    + rewrite map_app. apply NoDup_app. split_and!; [done| |apply NoDup_singleton].
      intros k Hk Hk'. apply list_elem_of_singleton in Hk'. subst k.
      apply Hseen. rewrite <- Hset. by apply elem_of_list_to_set.
    + rewrite map_app, list_to_set_app_L, Hset. simpl. set_solver.
    + intros x [Hx| ->%list_elem_of_singleton]%elem_of_app.
      * destruct (Hsrc x Hx) as (? & i & ? & ?). split; [done|].
        exists i. split; [apply elem_of_app; by left|done].
      * split; [done|]. exists id. split; [apply elem_of_app; right; left|done].
    + intros i [Hi| ->%list_elem_of_singleton]%elem_of_app Hne; [|set_solver].
      apply elem_of_union. right. by apply Hall.
Qed.
Lemma fold_alias_inv l l0 st :
  aliases_inv l0 st -> aliases_inv (l0 ++ l) (foldl add_alias st l).
Proof.
  revert l0 st. induction l as [|id l IH]; intros l0 st H; [by rewrite app_nil_r|].
  cbn [foldl]. replace (l0 ++ id :: l) with ((l0 ++ [id]) ++ l) by (by rewrite <- app_assoc).
  by apply IH, add_alias_inv.
Qed.
Lemma aliases_inv_nil : aliases_inv [] ([], ∅).
Proof.
  split_and!; [constructor|done| |]; intros x Hx; by apply not_elem_of_nil in Hx.
Qed.
Lemma fold_alias_blank l :
  forallb (fun id => is_empty (TrimSpace id)) l = true <-> (foldl add_alias ([], ∅) l).1 = [].
Proof.
  pose proof (fold_alias_inv l [] _ aliases_inv_nil) as (_ & Hset & Hsrc & Hall). simpl in *.
  rewrite forallb_forall. split; intros H.
  - destruct (foldl _ _ _).1 as [|x t]; [done|].
    destruct (Hsrc x ltac:(left)) as (Hx & id & Hid & <-).
    apply list_elem_of_In in Hid. apply H, is_empty_true in Hid. done.
  - intros id Hid. destruct (is_empty (TrimSpace id)) eqn:E; [done|].
    apply is_empty_false in E. apply list_elem_of_In in Hid. specialize (Hall id Hid E).
    rewrite <- Hset, H in Hall. set_solver.
Qed.

