(* ===== verification/Storage.v ===== *)
(** * internal/storage: the namespaced key-value store

    [PebbleStore] of internal/storage/pebble.go over an abstract Pebble
    database (class [Pebble]: the third-party engine, with the documented
    behaviour the code relies on as laws), and the interface [KVStore] it
    promises to the aggregators, discharged by the instance at the end.
    Namespaces are plain directory names (they are constants of the program),
    so that [filepath.Join(dir, namespace)] separates them. *)

From S2P Require Import Prelude GoText.

(** ** Sorted contents of a map and key ranges *)

Definition entry_lt : string * string -> string * string -> bool := on_key str_lt fst tie.
Definition sorted_entries (m : gmap string string) : list (string * string) :=
  SliceStable entry_lt (map_to_list m).
Definition in_range (lo : string) (hi : option string) (k : string) : bool :=
  String.leb lo k && match hi with Some h => str_lt k h | None => true end.
Definition range_entries (m : gmap string string) lo hi : list (string * string) :=
  List.filter (fun e => in_range lo hi e.1) (sorted_entries m).
Definition prefix_entries (m : gmap string string) (p : string) : list (string * string) :=
  List.filter (fun e => HasPrefix e.1 p) (sorted_entries m).
Definition delete_keys (ks : list string) (m : gmap string string) : gmap string string :=
  foldr delete m ks.

(** ** The third-party engine *)

Class Pebble := {
  DB : Type;
  (** the contents of a database on disk *)
  db_map : DB -> gmap string string;
  (** no I/O error is pending *)
  db_ok : DB -> bool;
  db_new : DB;
  db_Get : DB -> string -> res (option string);   (* [Ok None]: pebble.ErrNotFound *)
  db_Set : DB -> string -> string -> res DB;
  db_Delete : DB -> string -> res DB;
  db_NewIter : DB -> string -> option string -> res (list (string * string));
  db_CommitDeletes : DB -> list string -> res DB;
  db_Close : DB -> res unit;
  db_new_map : db_map db_new = ∅;
  db_new_ok : db_ok db_new = true;
  db_Get_ok d k : db_ok d = true -> db_Get d k = Ok (db_map d !! k);
  db_Set_ok d k v : db_ok d = true ->
    exists d', db_Set d k v = Ok d' /\ db_map d' = <[k := v]> (db_map d) /\ db_ok d' = true;
  db_Delete_ok d k : db_ok d = true ->
    exists d', db_Delete d k = Ok d' /\ db_map d' = delete k (db_map d) /\ db_ok d' = true;
  db_NewIter_ok d lo hi : db_ok d = true -> db_NewIter d lo hi = Ok (range_entries (db_map d) lo hi);
  db_CommitDeletes_ok d ks : db_ok d = true ->
    exists d', db_CommitDeletes d ks = Ok d' /\ db_map d' = delete_keys ks (db_map d)
               /\ db_ok d' = true;
  db_Get_fail d k : db_ok d = false -> is_ok (db_Get d k) = false;
  db_Set_fail d k v : db_ok d = false -> is_ok (db_Set d k v) = false;
  db_NewIter_fail d lo hi : db_ok d = false -> is_ok (db_NewIter d lo hi) = false }.

(** ** prefixUpperBound *)

(** The loop [for i := len(end) - 1; i >= 0; i--]: [i] counts the bytes left. *)
Fixpoint upper_bound_loop (i : nat) (e : list Z) : option (list Z) :=
  match i with
  | O => None
  | S i =>
      let b := u8 (default 0 (e !! i) + 1) in
      let e := <[i := b]> e in
      if b =? 0 then upper_bound_loop i e else Some (take (S i) e)
  end.
(** [None] is Go's [nil]: no upper bound. *)
Definition prefixUpperBound (prefix : string) : option string :=
  let e := bytes_of_string prefix in
  string_of_bytes <$> upper_bound_loop (length e) e.

(** ** PebbleStore *)

Section PebbleStore.
Context {PB : Pebble}.
(** The file system and [pebble.Open]: whether the directory of a path can be
    created and the database in it opened. *)
Context (os_MkdirAll pebble_Open : string -> bool).

Record PebbleStore := mkStore {
  ps_dbs : gset string;          (* the namespaces with an open handle *)
  ps_dir : string;
  ps_opened : bool;
  ps_disk : gmap string DB }.    (* the databases under [ps_dir] *)

Definition NewPebbleStore (dataDir : string) (disk : gmap string DB) : PebbleStore :=
  mkStore ∅ dataDir false disk.

(** The database behind a namespace: what is on disk, or a new one. *)
Definition db_at (s : PebbleStore) (ns : string) : DB := default db_new (ps_disk s !! ns).
Definition set_db (s : PebbleStore) (ns : string) (d : DB) : PebbleStore :=
  mkStore (ps_dbs s) (ps_dir s) (ps_opened s) (<[ns := d]> (ps_disk s)).

Definition can_open (s : PebbleStore) (ns : string) : bool :=
  let dbPath := ps_dir s +:+ "/" +:+ ns in os_MkdirAll dbPath && pebble_Open dbPath.

Definition OpenDB (ns : string) (s : PebbleStore) : res DB * PebbleStore :=
  if bool_decide (ns ∈ ps_dbs s) then (Ok (db_at s ns), s)
  else
    let dbPath := ps_dir s +:+ "/" +:+ ns in
    if negb (os_MkdirAll dbPath) then (Err "create db dir", s)
    else if negb (pebble_Open dbPath) then (Err "open pebble", s)
    else (Ok (db_at s ns),
          mkStore ({[ns]} ∪ ps_dbs s) (ps_dir s) true (<[ns := db_at s ns]> (ps_disk s))).

Definition GetDB (ns : string) (s : PebbleStore) : option DB :=
  if bool_decide (ns ∈ ps_dbs s) then Some (db_at s ns) else None.

Definition Close (s : PebbleStore) : res unit * PebbleStore :=
  let errs := List.filter (fun ns => negb (is_ok (db_Close (db_at s ns)))) (elements (ps_dbs s)) in
  let s' := mkStore ∅ (ps_dir s) (ps_opened s) (ps_disk s) in
  (if bool_decide (errs = []) then Ok tt else Err "close errors", s').

Definition Set_ (ns key value : string) (s : PebbleStore) : res unit * PebbleStore :=
  let '(r, s) := OpenDB ns s in
  match r with
  | Err e => (Err e, s)
  | Ok db => match db_Set db key value with
             | Ok db => (Ok tt, set_db s ns db)
             | Err e => (Err e, s)
             end
  end.

Definition Get (ns key : string) (s : PebbleStore) : res (option string) * PebbleStore :=
  let '(r, s) := OpenDB ns s in
  match r with Err e => (Err e, s) | Ok db => (db_Get db key, s) end.

Definition Delete (ns key : string) (s : PebbleStore) : res unit * PebbleStore :=
  match GetDB ns s with
  | None => (Ok tt, s)
  | Some db => match db_Delete db key with
               | Ok db => (Ok tt, set_db s ns db)
               | Err e => (Err e, s)
               end
  end.

Definition DeleteByPrefix (ns prefix : string) (s : PebbleStore) : res unit * PebbleStore :=
  match GetDB ns s with
  | None => (Ok tt, s)
  | Some db =>
      match db_NewIter db prefix (prefixUpperBound prefix) with
      | Err e => (Err e, s)
      | Ok es => match db_CommitDeletes db es.*1 with
                 | Ok db => (Ok tt, set_db s ns db)
                 | Err e => (Err e, s)
                 end
      end
  end.

(** [fn] is called on the entries in turn and may stop the scan; it threads
    the caller's own accumulator. *)
Fixpoint scan_entries {A} (fn : string -> string -> A -> res A) (es : list (string * string))
    (a : A) : res A :=
  match es with
  | [] => Ok a
  | (k, v) :: es => a <-? fn k v a ;; scan_entries fn es a
  end.
Definition ScanPrefix {A} (ns prefix : string) (fn : string -> string -> A -> res A) (a : A)
    (s : PebbleStore) : res A * PebbleStore :=
  let '(r, s) := OpenDB ns s in
  match r with
  | Err e => (Err e, s)
  | Ok db => match db_NewIter db prefix (prefixUpperBound prefix) with
             | Err e => (Err e, s)
             | Ok es => (scan_entries fn es a, s)
             end
  end.
End PebbleStore.

(** ** The upper bound delimits exactly the keys with the prefix *)

Fixpoint upper_bound (p : string) : option string :=
  match p with
  | "" => None
  | String c r =>
      match upper_bound r with
      | Some e => Some (String c e)
      | None => if Z_of_ascii c =? 255 then None else Some (String (ascii_of_Z (Z_of_ascii c + 1)) "")
      end
  end.

Fixpoint upper_bound_bytes (l : list Z) : option (list Z) :=
  match l with
  | [] => None
  | b :: l =>
      match upper_bound_bytes l with
      | Some e => Some (b :: e)
      | None => if b =? 255 then None else Some [b + 1]
      end
  end.

Lemma upper_bound_bytes_snoc l b :
  upper_bound_bytes (l ++ [b]) = if b =? 255 then upper_bound_bytes l else Some (l ++ [b + 1]).
Proof.
  induction l as [|a l IH]; simpl; [by destruct (b =? 255)|]. rewrite IH.
  by destruct (b =? 255).
Qed.

Lemma upper_bound_loop_spec l t :
  bytes_ok l -> upper_bound_loop (length l) (l ++ t) = upper_bound_bytes l.
Proof.
  revert t. induction l as [|b l IH] using rev_ind; intros t Hl; [done|].
  apply Forall_app in Hl as [Hl Hb]. inversion Hb as [|? ? Hb' _]; subst.
  rewrite length_app, Nat.add_1_r, upper_bound_bytes_snoc. cbn [upper_bound_loop].
  rewrite <- app_assoc, lookup_app_r, Nat.sub_diag by lia. cbn [app lookup list_lookup default].
  rewrite insert_app_r_alt, Nat.sub_diag by lia. cbn.
  unfold byte_ok, u8 in *. destruct (Z.eqb_spec b 255) as [->|Hne].
  - change ((255 + 1) mod 2 ^ 8) with 0. simpl. by apply IH.
  - rewrite (Z.mod_small (b + 1)) by lia. destruct (Z.eqb_spec (b + 1) 0); [lia|].
    f_equal. rewrite cons_middle, app_assoc, take_app_length'; [done|].
    rewrite length_app; simpl; lia.
Qed.

Lemma upper_bound_string p :
  string_of_bytes <$> upper_bound_bytes (bytes_of_string p) = upper_bound p.
Proof.
  induction p as [|c p IH]; simpl; [done|]. rewrite <- IH.
  destruct (upper_bound_bytes _) as [e|]; simpl; [by rewrite ascii_of_Z_of_ascii|].
  by destruct (_ =? 255).
Qed.

Lemma prefixUpperBound_eq p : prefixUpperBound p = upper_bound p.
Proof.
  unfold prefixUpperBound. rewrite <- upper_bound_string.
  rewrite <- (app_nil_r (bytes_of_string p)) at 2.
  by rewrite upper_bound_loop_spec by apply bytes_of_string_ok.
Qed.

Lemma ascii_compare_Z c d : Ascii.compare c d = Z.compare (Z_of_ascii c) (Z_of_ascii d).
Proof. unfold Ascii.compare, Z_of_ascii. by rewrite N2Z.inj_compare. Qed.

Lemma in_range_upper_bound p k : in_range p (upper_bound p) k = HasPrefix k p.
Proof.
  unfold in_range, str_lt, String.leb, String.ltb. revert k.
  induction p as [|c p IH]; intros [|d k]; try done.
  specialize (IH k). simpl. rewrite !ascii_compare_Z.
  pose proof (Z_of_ascii_range c) as Hc. pose proof (Z_of_ascii_range d) as Hd. unfold byte_ok in *.
  destruct (Ascii.eqb_spec d c) as [->|Hne].
  - rewrite Z.compare_refl, Ascii.eqb_refl. simpl. rewrite <- IH.
    destruct (upper_bound p) as [e|]; simpl; [by rewrite ascii_compare_Z, Z.compare_refl|].
    destruct (Z.eqb_spec (Z_of_ascii c) 255); simpl; [done|].
    rewrite ascii_compare_Z, Z_of_ascii_of_Z by (unfold byte_ok; lia).
    assert ((Z_of_ascii c ?= Z_of_ascii c + 1) = Lt) as -> by (apply Z.compare_lt_iff; lia). done.
  - assert (Z_of_ascii c <> Z_of_ascii d) by (intros E; by apply Z_of_ascii_inj in E).
    destruct (Ascii.eqb_spec c d); [congruence|]. simpl.
    destruct (Z.compare_spec (Z_of_ascii c) (Z_of_ascii d)) as [?|E|E]; [lia| |done]. simpl.
    destruct (upper_bound p) as [e|]; simpl.
    { rewrite ascii_compare_Z.
      assert ((Z_of_ascii d ?= Z_of_ascii c) = Gt) as -> by (apply Z.compare_gt_iff; lia). done. }
    destruct (Z.eqb_spec (Z_of_ascii c) 255); [lia|]. simpl.
    rewrite ascii_compare_Z, Z_of_ascii_of_Z by (unfold byte_ok; lia).
    destruct (Z.compare_spec (Z_of_ascii d) (Z_of_ascii c + 1)); [by destruct k|lia|done].
Qed.

Lemma range_prefix_entries m p : range_entries m p (prefixUpperBound p) = prefix_entries m p.
Proof.
  unfold range_entries, prefix_entries. apply filter_ext. intros e.
  by rewrite prefixUpperBound_eq, in_range_upper_bound.
Qed.

(** ** Lemmas on the sorted contents *)

#[export] Instance entry_lt_weak : StrictWeak entry_lt.
Proof. apply _. Qed.

Lemma elem_of_sorted_entries m k v : (k, v) ∈ sorted_entries m <-> m !! k = Some v.
Proof. unfold sorted_entries. by rewrite elem_of_SliceStable, elem_of_map_to_list. Qed.

Lemma entry_lt_tie m a b :
  a ∈ map_to_list m -> b ∈ map_to_list m ->
  entry_lt a b = false -> entry_lt b a = false -> a = b.
Proof.
  destruct a as [k v], b as [k' v']. rewrite !elem_of_map_to_list. unfold entry_lt, on_key. simpl.
  intros Ha Hb. destruct (decide (k = k')) as [->|Hne]; [intros; congruence|].
  rewrite decide_False by congruence. intros H1 H2. by destruct (st_tie k k' H1 H2).
Qed.

Lemma sorted_entries_sorted m : sorted_by entry_lt (sorted_entries m).
Proof. apply SliceStable_sorted; apply _. Qed.

Lemma sorted_entries_unique m l :
  l ≡ₚ map_to_list m -> sorted_by entry_lt l -> l = sorted_entries m.
Proof.
  intros Hp Hs. apply (sorted_by_unique entry_lt); [|done|apply sorted_entries_sorted|].
  - intros a b. rewrite Hp. apply entry_lt_tie.
  - unfold sorted_entries. by rewrite Hp, SliceStable_perm.
Qed.

Lemma sorted_entries_insert m k v :
  m !! k = None ->
  sorted_entries (<[k := v]> m) = insert_stable entry_lt (k, v) (sorted_entries m).
Proof.
  intros Hk. symmetry. apply sorted_entries_unique.
  - rewrite insert_stable_perm, map_to_list_insert by done. unfold sorted_entries.
    by rewrite SliceStable_perm.
  - apply insert_stable_sorted; [apply _|apply sorted_entries_sorted].
Qed.

Lemma elem_of_prefix_entries m p k v :
  (k, v) ∈ prefix_entries m p <-> m !! k = Some v /\ HasPrefix k p = true.
Proof.
  unfold prefix_entries. rewrite list_elem_of_In, filter_In, <- list_elem_of_In.
  by rewrite elem_of_sorted_entries.
Qed.
Lemma prefix_entries_sorted m p : sorted_by entry_lt (prefix_entries m p).
Proof. apply sorted_by_filter, sorted_entries_sorted. Qed.

(** The keys of a scan increase strictly. *)
Lemma prefix_entries_strict m p :
  StronglySorted (fun a b => str_lt a.1 b.1 = true) (prefix_entries m p).
Proof.
  assert (Hs : StronglySorted (fun a b => entry_lt a b = true) (prefix_entries m p)).
  { apply sorted_by_strict; [| |apply prefix_entries_sorted].
    - intros [k v] [k' v']. rewrite !elem_of_prefix_entries, <- !elem_of_map_to_list.
      intros [Ha _] [Hb _]. by apply (entry_lt_tie m).
    - unfold prefix_entries, sorted_entries. apply NoDup_ListNoDup, List.NoDup_filter, NoDup_ListNoDup.
      rewrite SliceStable_perm. apply NoDup_map_to_list. }
  eapply StronglySorted_impl; [|exact Hs]. intros a b. unfold entry_lt, on_key, tie.
  by destruct (decide _).
Qed.

Lemma filter_insert_stable_in {A} (less : A -> A -> bool) `{!StrictWeak less} P x l :
  sorted_by less l -> P x = true ->
  List.filter P (insert_stable less x l) = insert_stable less x (List.filter P l).
Proof.
  intros Hs HP. induction Hs as [|y l Hs IH Hy]; simpl; [by rewrite HP|].
  destruct (less y x) eqn:E.
  - simpl. rewrite IH. destruct (P y); [|done]. simpl. by rewrite E.
  - simpl. rewrite HP. destruct (P y); simpl; [by rewrite E|].
    assert (Hall : Forall (fun z => less z x = false) (List.filter P l)).
    { rewrite Forall_forall in *. intros z Hz. apply list_elem_of_In, filter_In in Hz.
      apply (sw_negtrans z y x); [|done]. apply Hy, list_elem_of_In, Hz. }
    destruct Hall as [|z l' Hz]; simpl; [done|]. by rewrite Hz.
Qed.
Lemma filter_insert_stable_out {A} (less : A -> A -> bool) (P : A -> bool) x l :
  P x = false -> List.filter P (insert_stable less x l) = List.filter P l.
Proof.
  intros HP. induction l as [|y l IH]; simpl; [by rewrite HP|].
  destruct (less y x); simpl; [|by rewrite HP]. by rewrite IH.
Qed.

Lemma prefix_entries_insert_in m p k v :
  m !! k = None -> HasPrefix k p = true ->
  prefix_entries (<[k := v]> m) p = insert_stable entry_lt (k, v) (prefix_entries m p).
Proof.
  intros Hk Hp. unfold prefix_entries. rewrite sorted_entries_insert by done.
  apply filter_insert_stable_in; [apply _|apply sorted_entries_sorted|done].
Qed.
Lemma prefix_entries_insert_out m p k v :
  HasPrefix k p = false -> prefix_entries (<[k := v]> m) p = prefix_entries m p.
Proof.
  intros Hp. destruct (m !! k) as [v'|] eqn:Hk.
  - unfold prefix_entries.
    rewrite <- (insert_delete_id m k v' Hk). rewrite insert_insert_eq.
    rewrite !sorted_entries_insert by apply lookup_delete_eq.
    by rewrite !filter_insert_stable_out.
  - unfold prefix_entries. rewrite sorted_entries_insert by done.
    by apply filter_insert_stable_out.
Qed.

Lemma delete_keys_lookup ks m k : delete_keys ks m !! k = if bool_decide (k ∈ ks) then None else m !! k.
Proof.
  induction ks as [|k' ks IH]; simpl; [done|].
  rewrite lookup_delete, IH. destruct (decide (k' = k)) as [->|Hne].
  - by rewrite bool_decide_eq_true_2 by left.
  - erewrite (bool_decide_ext (k ∈ k' :: ks) (k ∈ ks)); [done|]. rewrite elem_of_cons. intuition congruence.
Qed.
Lemma delete_prefix_keys m p :
  delete_keys (prefix_entries m p).*1 m = filter (fun e => HasPrefix e.1 p = false) m.
Proof.
  apply map_eq. intros k. rewrite delete_keys_lookup.
  destruct (bool_decide_reflect (k ∈ (prefix_entries m p).*1)) as [Hin|Hin].
  - symmetry. apply map_lookup_filter_None. right. intros v Hv. simpl.
    apply list_elem_of_fmap in Hin as ([k' v'] & -> & Hin). simpl.
    apply elem_of_prefix_entries in Hin as [_ ->]. done.
  - destruct (m !! k) as [v|] eqn:Hk; symmetry.
    + apply map_lookup_filter_Some. split; [done|]. simpl.
      destruct (HasPrefix k p) eqn:Hp; [|done]. exfalso. apply Hin.
      apply list_elem_of_fmap. exists (k, v). by rewrite elem_of_prefix_entries.
    + apply map_lookup_filter_None. by left.
Qed.

(** ** The interface the store offers to the aggregators

    [kv_view s ns] is the contents of a namespace, [kv_ok s ns] that its
    database opens and answers, [kv_is_open s ns] that its handle is open
    ([Delete] and [DeleteByPrefix] do nothing otherwise).  Reading opens the
    namespace: [kv_touch] is that effect of [Get] and [ScanPrefix], which
    changes no contents. *)

Class KVOps (St : Type) := {
  kv_view : St -> string -> gmap string string;
  kv_ok : St -> string -> bool;
  kv_is_open : St -> string -> bool;
  kv_touch : St -> string -> St;
  kv_Get : St -> string -> string -> res (option string);
  kv_Scan : St -> string -> string -> res (list (string * string));
  kv_Set : St -> string -> string -> string -> res St;
  kv_Delete : St -> string -> string -> res St;
  kv_DeleteByPrefix : St -> string -> string -> res St }.

(** [s'] is [s] with the contents of [ns] replaced by [m]. *)
Record kv_update `{KVOps St} (s : St) (ns : string) (m : gmap string string) (s' : St) : Prop := {
  kvu_view : kv_view s' ns = m;
  kvu_other ns' : ns' <> ns -> kv_view s' ns' = kv_view s ns';
  kvu_ok ns' : kv_ok s' ns' = kv_ok s ns';
  kvu_open ns' : kv_is_open s ns' = true -> kv_is_open s' ns' = true }.

Class KVStore (St : Type) `{!KVOps St} : Prop := {
  kv_touch_update s ns : kv_update s ns (kv_view s ns) (kv_touch s ns);
  kv_touch_open s ns : kv_ok s ns = true -> kv_is_open (kv_touch s ns) ns = true;
  kv_Get_ok s ns k : kv_ok s ns = true -> kv_Get s ns k = Ok (kv_view s ns !! k);
  kv_Scan_ok s ns p : kv_ok s ns = true -> kv_Scan s ns p = Ok (prefix_entries (kv_view s ns) p);
  kv_Set_ok s ns k v : kv_ok s ns = true ->
    exists s', kv_Set s ns k v = Ok s' /\ kv_update s ns (<[k := v]> (kv_view s ns)) s'
               /\ kv_is_open s' ns = true;
  kv_Delete_ok s ns k : kv_ok s ns = true -> kv_is_open s ns = true ->
    exists s', kv_Delete s ns k = Ok s' /\ kv_update s ns (delete k (kv_view s ns)) s';
  kv_Delete_closed s ns k : kv_is_open s ns = false -> kv_Delete s ns k = Ok s;
  kv_DeleteByPrefix_ok s ns p : kv_ok s ns = true -> kv_is_open s ns = true ->
    exists s', kv_DeleteByPrefix s ns p = Ok s'
      /\ kv_update s ns (delete_keys (prefix_entries (kv_view s ns) p).*1 (kv_view s ns)) s';
  kv_DeleteByPrefix_closed s ns p : kv_is_open s ns = false -> kv_DeleteByPrefix s ns p = Ok s;
  kv_Get_fail s ns k : kv_ok s ns = false -> is_ok (kv_Get s ns k) = false;
  kv_Scan_fail s ns p : kv_ok s ns = false -> is_ok (kv_Scan s ns p) = false;
  kv_Set_fail s ns k v : kv_ok s ns = false -> is_ok (kv_Set s ns k v) = false;
  kv_DeleteByPrefix_fail s ns p : kv_ok s ns = false -> kv_is_open s ns = true ->
    is_ok (kv_DeleteByPrefix s ns p) = false }.

(** ** PebbleStore implements the interface *)

Section Refinement.
Context {PB : Pebble} (os_MkdirAll pebble_Open : string -> bool).

Definition ps_ok (s : PebbleStore) (ns : string) : bool :=
  (bool_decide (ns ∈ ps_dbs s) || can_open os_MkdirAll pebble_Open s ns) && db_ok (db_at s ns).

(** The result of an operation, with the store it leaves when it succeeds. *)
Definition on_ok {A} (r : res A * PebbleStore) : res PebbleStore :=
  match r with (Ok _, s) => Ok s | (Err e, _) => Err e end.

#[global] Instance PebbleStore_ops : KVOps PebbleStore := {|
  kv_view s ns := db_map (db_at s ns);
  kv_ok := ps_ok;
  kv_is_open s ns := bool_decide (ns ∈ ps_dbs s);
  kv_touch s ns := (OpenDB os_MkdirAll pebble_Open ns s).2;
  kv_Get s ns k := (Get os_MkdirAll pebble_Open ns k s).1;
  kv_Scan s ns p :=
    (ScanPrefix os_MkdirAll pebble_Open ns p (fun k v l => Ok (l ++ [(k, v)])) [] s).1;
  kv_Set s ns k v := on_ok (Set_ os_MkdirAll pebble_Open ns k v s);
  kv_Delete s ns k := on_ok (Delete ns k s);
  kv_DeleteByPrefix s ns p := on_ok (DeleteByPrefix ns p s) |}.

Lemma db_at_set_db s ns d ns' : db_at (set_db s ns d) ns' = if decide (ns = ns') then d else db_at s ns'.
Proof. unfold db_at, set_db. simpl. rewrite lookup_insert. by case_decide. Qed.

Lemma OpenDB_db_at s ns ns' : db_at (OpenDB os_MkdirAll pebble_Open ns s).2 ns' = db_at s ns'.
Proof.
  unfold OpenDB. repeat case_match; try done. unfold db_at at 1. simpl. rewrite lookup_insert.
  destruct (decide (ns = ns')); [by subst|done].
Qed.
Lemma OpenDB_spec s ns :
  (OpenDB os_MkdirAll pebble_Open ns s).1 =
    if bool_decide (ns ∈ ps_dbs s) || can_open os_MkdirAll pebble_Open s ns
    then Ok (db_at s ns)
    else Err (if os_MkdirAll (ps_dir s +:+ "/" +:+ ns) then "open pebble" else "create db dir").
Proof.
  unfold OpenDB, can_open. destruct (bool_decide _); [done|]. simpl.
  destruct (os_MkdirAll _); [|done]. simpl. by destruct (pebble_Open _).
Qed.
Lemma OpenDB_dir s ns : ps_dir (OpenDB os_MkdirAll pebble_Open ns s).2 = ps_dir s.
Proof. unfold OpenDB. by repeat case_match. Qed.
Lemma OpenDB_dbs s ns ns' :
  ns' ∈ ps_dbs (OpenDB os_MkdirAll pebble_Open ns s).2 <->
  ns' ∈ ps_dbs s \/ (ns' = ns /\ can_open os_MkdirAll pebble_Open s ns = true).
Proof.
  unfold OpenDB, can_open. destruct (bool_decide_reflect (ns ∈ ps_dbs s)); simpl.
  { intuition congruence. }
  destruct (os_MkdirAll _); simpl; [|intuition congruence].
  destruct (pebble_Open _); simpl; [|intuition congruence].
  rewrite elem_of_union, elem_of_singleton. tauto.
Qed.
Lemma OpenDB_ok s ns ns' : ps_ok (OpenDB os_MkdirAll pebble_Open ns s).2 ns' = ps_ok s ns'.
Proof.
  unfold ps_ok. rewrite OpenDB_db_at. f_equal.
  assert (can_open os_MkdirAll pebble_Open (OpenDB os_MkdirAll pebble_Open ns s).2 ns' =
          can_open os_MkdirAll pebble_Open s ns') as ->.
  { unfold can_open. by rewrite OpenDB_dir. }
  destruct (can_open _ _ s ns') eqn:E; [by rewrite !orb_true_r|]. rewrite !orb_false_r.
  apply bool_decide_ext. rewrite OpenDB_dbs. intuition congruence.
Qed.

(** Replacing the database behind an open handle by a healthy one. *)
Lemma set_db_update s ns d m :
  db_map d = m -> db_ok d = db_ok (db_at s ns) -> kv_update s ns m (set_db s ns d).
Proof.
  intros Hm Hok. split; simpl; [|intros ns' Hne|intros ns'|done].
  - by rewrite db_at_set_db, decide_True.
  - by rewrite db_at_set_db, decide_False.
  - unfold ps_ok. rewrite db_at_set_db. change (ps_dbs (set_db s ns d)) with (ps_dbs s).
    change (can_open _ _ (set_db s ns d)) with (can_open os_MkdirAll pebble_Open s).
    case_decide; [|done]. subst ns'. by rewrite Hok.
Qed.

Lemma scan_entries_collect es l :
  scan_entries (fun k v l => Ok (l ++ [(k, v)])) es l = Ok (l ++ es).
Proof.
  revert l. induction es as [|[k v] es IH]; intros l; simpl; [by rewrite app_nil_r|].
  by rewrite IH, <- app_assoc.
Qed.
Lemma open_split s ns r s' :
  OpenDB os_MkdirAll pebble_Open ns s = (r, s') ->
  r = (OpenDB os_MkdirAll pebble_Open ns s).1 /\ s' = (OpenDB os_MkdirAll pebble_Open ns s).2.
Proof. by intros ->. Qed.

Lemma open_update s ns :
  kv_update s ns (kv_view s ns) (OpenDB os_MkdirAll pebble_Open ns s).2.
Proof.
  split; simpl; intros *; rewrite ?OpenDB_db_at; try done; [apply OpenDB_ok|].
  rewrite !bool_decide_eq_true, OpenDB_dbs. tauto.
Qed.
Lemma open_ok s ns :
  ps_ok s ns = true ->
  exists s', OpenDB os_MkdirAll pebble_Open ns s = (Ok (db_at s ns), s') /\ db_ok (db_at s ns) = true
    /\ kv_update s ns (kv_view s ns) s' /\ bool_decide (ns ∈ ps_dbs s') = true.
Proof.
  unfold ps_ok. rewrite andb_true_iff. intros [Ho Hd]. pose proof (open_update s ns) as Hu.
  pose proof (OpenDB_spec s ns) as H1. pose proof (OpenDB_dbs s ns ns) as H2.
  destruct (OpenDB _ _ ns s) as [r s'] eqn:E. simpl in *. rewrite Ho in H1. subst r.
  exists s'. split; [done|split; [done|split; [done|]]].
  apply bool_decide_eq_true, H2. apply orb_true_iff in Ho as [Ho|Ho]; [left|by right].
  by apply bool_decide_eq_true in Ho.
Qed.
Lemma open_not_ok s ns :
  ps_ok s ns = false ->
  (exists e s', OpenDB os_MkdirAll pebble_Open ns s = (Err e, s')) \/
  (exists s', OpenDB os_MkdirAll pebble_Open ns s = (Ok (db_at s ns), s')
     /\ db_ok (db_at s ns) = false).
Proof.
  unfold ps_ok. rewrite andb_false_iff. intros Ho. pose proof (OpenDB_spec s ns) as H1.
  destruct (OpenDB _ _ ns s) as [r s'] eqn:E. simpl in *.
  destruct (_ || _); subst r; [right|left; eauto]. destruct Ho; [done|]. eauto.
Qed.

Lemma kv_update_trans (s s' s'' : PebbleStore) ns m m' :
  kv_update s ns m s' -> kv_update s' ns m' s'' -> kv_update s ns m' s''.
Proof.
  intros [V O K P] [V' O' K' P']. split; [done|..].
  - intros ns' Hne. rewrite O', O by done. done.
  - intros ns'. by rewrite K', K.
  - auto.
Qed.

#[global] Instance PebbleStore_store : KVStore PebbleStore.
Proof.
  split; simpl; intros *.
  - apply open_update.
  - intros Hok. destruct (open_ok s ns Hok) as (s' & -> & _ & _ & H). done.
  - intros Hok. destruct (open_ok s ns Hok) as (s' & E & Hd & _ & _).
    unfold Get. rewrite E. by apply db_Get_ok.
  - intros Hok. destruct (open_ok s ns Hok) as (s' & E & Hd & _ & _).
    unfold ScanPrefix. rewrite E, db_NewIter_ok, range_prefix_entries by done. simpl.
    apply scan_entries_collect.
  - intros Hok. destruct (open_ok s ns Hok) as (s' & E & Hd & Hu & Ho).
    destruct (db_Set_ok _ k v Hd) as (d & Es & Hm & Hd'). unfold Set_. rewrite E, Es. simpl.
    eexists. split; [done|]. split; [|done]. apply (kv_update_trans s s' _ ns _ _ Hu).
    apply set_db_update; [done|]. rewrite Hd'. symmetry.
    pose proof (kvu_ok _ _ _ _ Hu ns) as Hk. simpl in Hk. rewrite Hok in Hk.
    unfold ps_ok in Hk. by apply andb_true_iff in Hk as [_ Hk].
  - unfold ps_ok. rewrite andb_true_iff. intros [_ Hd] Ho.
    destruct (db_Delete_ok _ k Hd) as (d & Es & Hm & Hd').
    unfold Delete, GetDB. rewrite Ho, Es. simpl. eexists. split; [done|].
    apply set_db_update; [done|]. by rewrite Hd', Hd.
  - intros Ho. unfold Delete, GetDB. by rewrite Ho.
  - unfold ps_ok. rewrite andb_true_iff. intros [_ Hd] Ho.
    unfold DeleteByPrefix, GetDB. rewrite Ho, db_NewIter_ok, range_prefix_entries by done.
    destruct (db_CommitDeletes_ok _ (prefix_entries (db_map (db_at s ns)) p).*1 Hd)
      as (d & Es & Hm & Hd'). rewrite Es. simpl. eexists. split; [done|].
    apply set_db_update; [done|]. by rewrite Hd', Hd.
  - intros Ho. unfold DeleteByPrefix, GetDB. by rewrite Ho.
  - intros Hk. unfold Get. destruct (open_not_ok s ns Hk) as [(e & s' & E)|(s' & E & Hd)];
      rewrite E; [done|]. by apply db_Get_fail.
  - intros Hk. unfold ScanPrefix.
    destruct (open_not_ok s ns Hk) as [(e & s' & E)|(s' & E & Hd)]; rewrite E; [done|]. simpl.
    pose proof (db_NewIter_fail (db_at s ns) p (prefixUpperBound p) Hd).
    by destruct (db_NewIter _ _ _).
  - intros Hk. unfold Set_. destruct (open_not_ok s ns Hk) as [(e & s' & E)|(s' & E & Hd)];
      rewrite E; [done|]. simpl. pose proof (db_Set_fail (db_at s ns) k v Hd).
    by destruct (db_Set _ _ _).
  - unfold ps_ok, DeleteByPrefix, GetDB. intros H Ho. rewrite Ho in *. simpl in H.
    pose proof (db_NewIter_fail (db_at s ns) p (prefixUpperBound p) H).
    by destruct (db_NewIter _ _ _).
Qed.
End Refinement.

(** ** The abstract store and the simulation

    The specification is a map of namespaces to maps, and the set of namespaces
    opened since the last [Close]. *)

Inductive store_op :=
  | OpSet (ns k v : string) | OpGet (ns k : string) | OpDelete (ns k : string)
  | OpDeleteByPrefix (ns p : string) | OpScan (ns p : string) | OpClose.
Inductive store_out :=
  | OutDone | OutErr | OutValue (v : option string) | OutEntries (es : list (string * string)).

Record AbsStore := mkAbs { abs_data : gmap string (gmap string string); abs_open : gset string }.
Definition abs_view (a : AbsStore) (ns : string) : gmap string string := abs_data a !!! ns.
Definition abs_put (a : AbsStore) (ns : string) (m : gmap string string) : AbsStore :=
  mkAbs (<[ns := m]> (abs_data a)) (abs_open a).
Definition abs_touch (a : AbsStore) (ns : string) : AbsStore :=
  mkAbs (abs_data a) ({[ns]} ∪ abs_open a).

Definition abs_step (a : AbsStore) (o : store_op) : store_out * AbsStore :=
  match o with
  | OpSet ns k v => (OutDone, abs_put (abs_touch a ns) ns (<[k := v]> (abs_view a ns)))
  | OpGet ns k => (OutValue (abs_view a ns !! k), abs_touch a ns)
  | OpDelete ns k =>
      (OutDone, if bool_decide (ns ∈ abs_open a) then abs_put a ns (delete k (abs_view a ns)) else a)
  | OpDeleteByPrefix ns p =>
      (OutDone, if bool_decide (ns ∈ abs_open a)
                then abs_put a ns (filter (fun e => HasPrefix e.1 p = false) (abs_view a ns)) else a)
  | OpScan ns p => (OutEntries (prefix_entries (abs_view a ns) p), abs_touch a ns)
  | OpClose => (OutDone, mkAbs (abs_data a) ∅)
  end.

Section Simulation.
Context {PB : Pebble} (os_MkdirAll pebble_Open : string -> bool).

Definition out_of {A} (f : A -> store_out) (r : res A * PebbleStore) : store_out * PebbleStore :=
  match r with (Ok a, s) => (f a, s) | (Err _, s) => (OutErr, s) end.
Definition step (s : PebbleStore) (o : store_op) : store_out * PebbleStore :=
  match o with
  | OpSet ns k v => out_of (fun _ => OutDone) (Set_ os_MkdirAll pebble_Open ns k v s)
  | OpGet ns k => out_of OutValue (Get os_MkdirAll pebble_Open ns k s)
  | OpDelete ns k => out_of (fun _ => OutDone) (Delete ns k s)
  | OpDeleteByPrefix ns p => out_of (fun _ => OutDone) (DeleteByPrefix ns p s)
  | OpScan ns p =>
      out_of OutEntries
        (ScanPrefix os_MkdirAll pebble_Open ns p (fun k v l => Ok (l ++ [(k, v)])) [] s)
  | OpClose => (OutDone, (Close s).2)
  end.

(** The store under [dir] holds what [a] says, is healthy, and opens. *)
Record simulates (s : PebbleStore) (a : AbsStore) : Prop := {
  sim_view ns : db_map (db_at s ns) = abs_view a ns;
  sim_open : ps_dbs s = abs_open a;
  sim_ok ns : db_ok (db_at s ns) = true;
  sim_can ns : can_open os_MkdirAll pebble_Open s ns = true }.

Lemma abs_view_put a ns m ns' :
  abs_view (abs_put a ns m) ns' = if decide (ns = ns') then m else abs_view a ns'.
Proof.
  unfold abs_view, abs_put, lookup_total, map_lookup_total. simpl.
  rewrite lookup_insert. by destruct (decide _).
Qed.

Lemma open_simulates s a ns :
  simulates s a ->
  exists s', OpenDB os_MkdirAll pebble_Open ns s = (Ok (db_at s ns), s')
    /\ simulates s' (abs_touch a ns) /\ (forall ns', db_at s' ns' = db_at s ns').
Proof.
  intros [V O K C]. pose proof (OpenDB_spec os_MkdirAll pebble_Open s ns) as H1.
  pose proof (OpenDB_db_at os_MkdirAll pebble_Open s ns) as H2.
  pose proof (OpenDB_dir os_MkdirAll pebble_Open s ns) as H3.
  pose proof (OpenDB_dbs os_MkdirAll pebble_Open s ns) as H4.
  rewrite C, orb_true_r in H1. destruct (OpenDB _ _ ns s) as [r s']. simpl in *. subst r.
  exists s'. split; [done|split; [|done]]. split; intros *; rewrite ?H2; auto.
  - simpl. rewrite <- O. apply set_eq. intros ns'. rewrite H4, elem_of_union, elem_of_singleton.
    rewrite C. tauto.
  - unfold can_open. rewrite H3. apply C.
Qed.
Lemma put_simulates s a ns d m :
  simulates s a -> db_map d = m -> db_ok d = true -> simulates (set_db s ns d) (abs_put a ns m).
Proof.
  intros [V O K C] Hm Hd. split; intros *; [| done | | apply C];
    rewrite db_at_set_db, ?abs_view_put; by destruct (decide _).
Qed.

Lemma step_simulates s a o :
  simulates s a ->
  (step s o).1 = (abs_step a o).1 /\ simulates (step s o).2 (abs_step a o).2.
Proof.
  intros Hs. pose proof Hs as [V O K C]. destruct o as [ns k v|ns k|ns k|ns p|ns p|]; simpl.
  - destruct (open_simulates s a ns Hs) as (s' & E & Hs' & _).
    destruct (db_Set_ok _ k v (K ns)) as (d & Es & Hm & Hd). unfold Set_. rewrite E, Es. simpl.
    split; [done|]. rewrite V in Hm. by apply put_simulates.
  - destruct (open_simulates s a ns Hs) as (s' & E & Hs' & _). unfold Get.
    by rewrite E, db_Get_ok, V.
  - unfold Delete, GetDB. rewrite O. destruct (bool_decide _); [|done].
    destruct (db_Delete_ok _ k (K ns)) as (d & Es & Hm & Hd). rewrite Es. simpl.
    split; [done|]. rewrite V in Hm. by apply put_simulates.
  - unfold DeleteByPrefix, GetDB. rewrite O. destruct (bool_decide _); [|done].
    rewrite db_NewIter_ok, range_prefix_entries by done.
    destruct (db_CommitDeletes_ok _ (prefix_entries (db_map (db_at s ns)) p).*1 (K ns))
      as (d & Es & Hm & Hd). rewrite Es. simpl. split; [done|].
    rewrite delete_prefix_keys, V in Hm. by apply put_simulates.
  - destruct (open_simulates s a ns Hs) as (s' & E & Hs' & _). unfold ScanPrefix.
    rewrite E, db_NewIter_ok, range_prefix_entries by done. simpl.
    by rewrite scan_entries_collect, V.
  - split; [done|]. by split.
Qed.
End Simulation.

(** ** A concrete engine

    A map in memory with a health flag: the instance the witnesses run on. *)

Definition mem_op {A} (d : gmap string string * bool) (r : A) : res A :=
  if d.2 then Ok r else Err "pebble: closed".
#[refine] Definition mem_Pebble : Pebble := {|
  DB := gmap string string * bool;
  db_map := fst;
  db_ok := snd;
  db_new := (∅, true);
  db_Get d k := mem_op d (d.1 !! k);
  db_Set d k v := mem_op d (<[k := v]> d.1, d.2);
  db_Delete d k := mem_op d (delete k d.1, d.2);
  db_NewIter d lo hi := mem_op d (range_entries d.1 lo hi);
  db_CommitDeletes d ks := mem_op d (delete_keys ks d.1, d.2);
  db_Close d := Ok tt |}.
Proof.
  all: try done; intros [m b]; simpl; intros; subst; unfold mem_op; simpl; eauto.
Defined.

(** A file system on which every directory can be made and opened. *)
Definition any_path (_ : string) : bool := true.

(** ** Properties *)

Fixpoint run {T} (f : T -> store_op -> store_out * T) (t : T) (ops : list store_op) : list store_out * T :=
  match ops with
  | [] => ([], t)
  | o :: ops => let '(out, t) := f t o in let '(outs, t) := run f t ops in (out :: outs, t)
  end.

Lemma run_simulates {PB : Pebble} mk op s a ops :
  simulates mk op s a ->
  (run (step mk op) s ops).1 = (run abs_step a ops).1
  /\ simulates mk op (run (step mk op) s ops).2 (run abs_step a ops).2.
Proof.
  revert s a. induction ops as [|o ops IH]; intros s a Hs; simpl; [done|].
  destruct (step_simulates mk op s a o Hs) as [Ho Hs'].
  destruct (step mk op s o) as [out s'], (abs_step a o) as [out' a']. simpl in *. subst out'.
  destruct (IH _ _ Hs') as [Hr Hs''].
  destruct (run (step mk op) s' ops), (run abs_step a' ops). simpl in *. by subst.
Qed.

Lemma New_simulates {PB : Pebble} mk op dir disk :
  (forall ns, can_open mk op (NewPebbleStore dir disk) ns = true) ->
  map_Forall (fun _ d => db_ok d = true) disk ->
  simulates mk op (NewPebbleStore dir disk) (mkAbs (db_map <$> disk) ∅).
Proof.
  intros Hc Hd. split; intros *; [|done| |apply Hc]; unfold db_at, abs_view; simpl.
  - unfold lookup_total, map_lookup_total. rewrite lookup_fmap.
    destruct (disk !! ns); simpl; [done|]. apply db_new_map.
  - destruct (disk !! ns) eqn:E; simpl; [by apply (Hd ns)|]. apply db_new_ok.
Qed.

(** C3: a store opened on a healthy disk answers every sequence of [Set],
    [Get], [Delete], [DeleteByPrefix], [ScanPrefix] and [Close] as the abstract
    map of maps does: reads see the last write of the same namespace and key,
    namespaces do not interfere, scans return exactly the keys with the prefix
    in byte order, prefix deletion removes exactly those, and closing keeps the
    data. *)
Theorem PebbleStore_refines {PB : Pebble} mk op dir disk ops :
  (forall ns, can_open mk op (NewPebbleStore dir disk) ns = true) ->
  map_Forall (fun _ d => db_ok d = true) disk ->
  (run (step mk op) (NewPebbleStore dir disk) ops).1 =
  (run abs_step (mkAbs (db_map <$> disk) ∅) ops).1.
Proof. intros Hc Hd. by apply run_simulates, New_simulates. Qed.

Definition sample_ops : list store_op :=
  [OpSet "a" "x" "1"; OpSet "b" "x" "2"; OpSet "a" "xy" "3"; OpScan "a" "x"; OpClose;
   OpGet "a" "x"; OpDeleteByPrefix "a" "xy"; OpScan "a" ""; OpGet "b" "x"].
Lemma PebbleStore_refines_witness :
  (run (step (PB := mem_Pebble) any_path any_path) (NewPebbleStore "data" ∅) sample_ops).1 =
  [OutDone; OutDone; OutDone; OutEntries [("x", "1"); ("xy", "3")]; OutDone;
   OutValue (Some "1"); OutDone; OutEntries [("x", "1")]; OutValue (Some "2")].
Proof.
  etransitivity.
  - apply (PebbleStore_refines (PB := mem_Pebble) any_path any_path "data" ∅ sample_ops);
      [done|apply map_Forall_empty].
  - vm_compute. reflexivity.
Defined.

(** the bounds of a prefix scan ([LowerBound: prefix], [UpperBound:
    prefixUpperBound(prefix)]) select exactly the keys that start with the
    prefix, for every byte string, prefixes ending in 0xff included. *)
Theorem prefixUpperBound_exact p k : in_range p (prefixUpperBound p) k = HasPrefix k p.
Proof. rewrite prefixUpperBound_eq. apply in_range_upper_bound. Qed.

(** [Delete] on a namespace whose handle is not open (the state after a
    restart or [Close]) reports success without deleting: the key is still
    there for the next [Get]. *)
Theorem Delete_before_open_keeps {PB : Pebble} mk op s s1 ns k v :
  ps_ok mk op s ns = true -> can_open mk op s ns = true ->
  Set_ mk op ns k v s = (Ok tt, s1) ->
  let s2 := (Close s1).2 in
  Delete ns k s2 = (Ok tt, s2) /\ (Get mk op ns k s2).1 = Ok (Some v).
Proof.
  intros Hok Hc E s2. split.
  { unfold Delete, GetDB. simpl. by rewrite bool_decide_eq_false_2 by set_solver. }
  destruct (@kv_Set_ok _ (PebbleStore_ops mk op) _ s ns k v Hok) as (s' & Es & Hu & _).
  simpl in Es. rewrite E in Es. simpl in Es. injection Es as <-.
  assert (Hok1 : ps_ok mk op s1 ns = true).
  { pose proof (kvu_ok _ _ _ _ Hu ns) as H. simpl in H. by rewrite H. }
  assert (Hok2 : ps_ok mk op s2 ns = true).
  { unfold ps_ok in *. apply andb_true_iff in Hok1 as [_ Hd].
    assert (can_open mk op s2 ns = true) as ->.
    { revert Hc. unfold can_open. assert (ps_dir s2 = ps_dir s) as ->; [|done].
      simpl. revert E. unfold Set_. pose proof (OpenDB_dir mk op s ns) as Hdir.
      destruct (OpenDB mk op ns s) as [[d|e] s']; [|done]. destruct (db_Set d k v); [|done].
      intros [= <-]. simpl. by rewrite <- Hdir. }
    by rewrite orb_true_r. }
  pose proof (@kv_Get_ok _ (PebbleStore_ops mk op) _ s2 ns k Hok2) as Hg. simpl in Hg. rewrite Hg.
  change (db_at s2 ns) with (db_at s1 ns).
  pose proof (kvu_view _ _ _ _ Hu) as Hv. simpl in Hv. by rewrite Hv, lookup_insert_eq.
Qed.

Definition one_key : PebbleStore (PB := mem_Pebble) :=
  (Set_ (PB := mem_Pebble) any_path any_path "n" "k" "v" (NewPebbleStore "data" ∅)).2.
Lemma Delete_before_open_keeps_witness :
  Delete (PB := mem_Pebble) "n" "k" (Close one_key).2 = (Ok tt, (Close one_key).2)
  /\ (Get (PB := mem_Pebble) any_path any_path "n" "k" (Close one_key).2).1 = Ok (Some "v").
Proof.
  apply (Delete_before_open_keeps (PB := mem_Pebble) any_path any_path (NewPebbleStore "data" ∅)
           one_key "n" "k" "v"); reflexivity.
Defined.

(** ** A concrete store, for the witnesses of the clients *)

Definition sample_store : Type := PebbleStore (PB := mem_Pebble).
Definition empty_store : sample_store := NewPebbleStore (PB := mem_Pebble) "data" ∅.
Definition sample_ops_inst : KVOps sample_store :=
  PebbleStore_ops (PB := mem_Pebble) any_path any_path.
Lemma sample_store_inst : @KVStore sample_store sample_ops_inst.
Proof. exact (PebbleStore_store (PB := mem_Pebble) any_path any_path). Qed.
