(* ===== verification/Aggregator.v ===== *)
(** * Aggregator: pins, notify events, the registry

    The types of [internal/aggregator/aggregator.go], the [Registry] that routes
    a pin to every registered aggregator, and the small store monad in which the
    aggregators' handlers are written. *)

From S2P Require Import Prelude GoText Json Storage.

(** A [[]byte] body is kept as the text it is. *)
Record PinInscription := mkPin {
  pin_Id : string;
  pin_Number : Z;
  pin_Path : string;
  pin_OriginalPath : string;
  pin_Operation : string;
  pin_ContentBody : string;
  pin_ContentSummary : string;
  pin_ContentType : string;
  pin_Creator : string;
  pin_CreateAddress : string;
  pin_CreateMetaId : string;
  pin_MetaId : string;
  pin_GlobalMetaId : string;
  pin_Address : string;
  pin_ChainName : string;
  pin_GenesisTransaction : string;
  pin_GenesisHeight : Z;
  pin_Timestamp : Z;
  pin_Output : string;
  pin_IsTransfered : bool;
  pin_OriginalId : string;
  pin_Host : string }.

(** The payload is an [interface{}], kept as the JSON value that is pushed. *)
Record NotifyEvent := mkEvent {
  ev_Type : string;
  ev_MetaId : string;
  ev_GlobalMetaId : string;
  ev_TargetIds : list string;
  ev_GroupId : string;
  ev_Payload : any }.

(** ** The registry *)

Section Registry.
(** [W] is everything the aggregators share and own: the store, their caches
    and notify channels. *)
Context {W : Type}.

(** The methods of the [Aggregator] interface the registry uses. *)
Record AggregatorI := mkAggregator {
  agg_Name : string;
  agg_Init : W -> option error * W;
  agg_HandleBlockPin : PinInscription -> W -> res (option NotifyEvent) * W;
  agg_HandleMempoolPin : PinInscription -> W -> res (option NotifyEvent) * W }.

Record Registry := mkRegistry { reg_aggregators : list AggregatorI }.
Definition NewRegistry : Registry := mkRegistry [].

Definition Register (a : AggregatorI) (r : Registry) (w : W) : option error * Registry * W :=
  match agg_Init a w with
  | (Some err, w) => (Some err, r, w)
  | (None, w) => (None, mkRegistry (reg_aggregators r ++ [a]), w)
  end.

Definition All (r : Registry) : list AggregatorI := reg_aggregators r.

(** [for _, a := range r.aggregators]: an error skips to the next one. *)
Fixpoint route (handle : AggregatorI -> PinInscription -> W -> res (option NotifyEvent) * W)
    (pin : PinInscription) (l : list AggregatorI) (w : W) : list NotifyEvent * W :=
  match l with
  | [] => ([], w)
  | a :: l =>
      let '(r, w) := handle a pin w in
      let '(events, w) := route handle pin l w in
      (match r with Ok (Some evt) => evt :: events | _ => events end, w)
  end.
Definition RouteBlockPin (r : Registry) (pin : PinInscription) (w : W) : list NotifyEvent * W :=
  route agg_HandleBlockPin pin (reg_aggregators r) w.
Definition RouteMempoolPin (r : Registry) (pin : PinInscription) (w : W) : list NotifyEvent * W :=
  route agg_HandleMempoolPin pin (reg_aggregators r) w.
End Registry.
Arguments AggregatorI : clear implicits.
Arguments Registry : clear implicits.

(** ** Writing handlers: state and early return

    A handler keeps the writes it made before an error. *)

Section Monad.
Context {St : Type}.
Definition M (A : Type) : Type := St -> res A * St.
Definition hret {A} (a : A) : M A := fun s => (Ok a, s).
Definition hfail {A} (e : error) : M A := fun s => (Err e, s).
Definition hbind {A B} (c : M A) (k : A -> M B) : M B :=
  fun s => match c s with (Ok a, s) => k a s | (Err e, s) => (Err e, s) end.
(** a pure read of the state *)
Definition hget {A} (f : St -> A) : M A := fun s => (Ok (f s), s).
Definition hres {A} (f : St -> res A) : M A := fun s => (f s, s).
(** a call whose error is logged or dropped *)
Definition htry (c : M unit) : M bool :=
  fun s => match c s with (Ok _, s) => (Ok true, s) | (Err _, s) => (Ok false, s) end.
Fixpoint hfold {A B} (f : B -> A -> M B) (l : list A) (b : B) : M B :=
  match l with [] => hret b | a :: l => hbind (f b a) (hfold f l) end.
End Monad.
Arguments M : clear implicits.

Declare Scope handler_scope.
Delimit Scope handler_scope with handler.
Notation "x <- c1 ;; c2" := (hbind c1 (fun x => c2))
  (at level 80, c1 at next level, right associativity) : handler_scope.
Notation "c1 ;;; c2" := (hbind c1 (fun _ => c2))
  (at level 80, right associativity) : handler_scope.

(** ** The store, as JSON *)

Section JsonStore.
Context {St : Type} {KV : KVOps St}.

(** [Get] then [json.Unmarshal]: the pattern of every [GetX]. *)
Definition load {A} {J : JSON A} (ns key : string) (s : St) : res (option A) :=
  raw <-? kv_Get s ns key ;;
  match raw with
  | None => Ok None
  | Some raw => a <-? json_Unmarshal raw ;; Ok (Some a)
  end.
(** [json.Marshal] then [Set]: the pattern of every [SaveX]. *)
Definition save {A} {J : JSON A} (ns key : string) (a : A) : M St unit :=
  fun s => match kv_Set s ns key (json_Marshal a) with
           | Ok s => (Ok tt, s)
           | Err e => (Err e, s)
           end.
(** A scan whose error is not looked at, and the values it can parse. *)
Definition scan (ns prefix : string) (s : St) : list (string * string) :=
  match kv_Scan s ns prefix with Ok es => es | Err _ => [] end.
Definition parse_values {A} {J : JSON A} (es : list (string * string)) : list (string * A) :=
  omap (fun e => match json_Unmarshal e.2 with Ok a => Some (e.1, a) | Err _ => None end) es.
Definition scan_json {A} {J : JSON A} (ns prefix : string) (s : St) : list A :=
  (parse_values (scan ns prefix s)).*2.
Definition scan_json_err {A} {J : JSON A} (ns prefix : string) (s : St) : res (list A) :=
  es <-? kv_Scan s ns prefix ;; Ok (parse_values es).*2.
End JsonStore.

(** ** Facts *)

Lemma route_app {W} handle pin (l1 l2 : list (AggregatorI W)) w :
  route handle pin (l1 ++ l2) w =
  let '(e1, w1) := route handle pin l1 w in
  let '(e2, w2) := route handle pin l2 w1 in (e1 ++ e2, w2).
Proof.
  revert w. induction l1 as [|a l1 IH]; intros w; simpl; [by destruct (route handle pin l2 w)|].
  destruct (handle a pin w) as [r w1]. rewrite IH.
  destruct (route handle pin l1 w1) as [e1 w2]. destruct (route handle pin l2 w2) as [e2 w3].
  by destruct r as [[|]|].
Qed.

Section JsonStoreFacts.
Context {St : Type} {KV : KVOps St} {KVS : KVStore St}.

Lemma scan_ok s ns p :
  kv_ok s ns = true -> scan ns p s = prefix_entries (kv_view s ns) p.
Proof. intros H. unfold scan. by rewrite kv_Scan_ok. Qed.

Definition unmarshal_value {A} {J : JSON A} (e : string * string) : option A :=
  match json_Unmarshal e.2 with Ok a => Some a | Err _ => None end.
Lemma parse_values_snd {A} {J : JSON A} es :
  (parse_values (A := A) es).*2 = omap unmarshal_value es.
Proof.
  induction es as [|e es IH]; [done|]. unfold parse_values, unmarshal_value in *. csimpl.
  destruct (json_Unmarshal e.2); [|done]. csimpl. by rewrite IH.
Qed.
Lemma scan_json_ok {A} {J : JSON A} s ns p :
  kv_ok s ns = true ->
  scan_json (A := A) ns p s = omap unmarshal_value (prefix_entries (kv_view s ns) p).
Proof. intros H. unfold scan_json. by rewrite scan_ok, parse_values_snd. Qed.

Lemma load_spec {A} {J : JSON A} s ns k :
  kv_ok s ns = true ->
  load ns k s = match kv_view s ns !! k with
                | None => Ok None
                | Some raw => a <-? json_Unmarshal raw ;; Ok (Some a)
                end.
Proof. intros H. unfold load. by rewrite kv_Get_ok. Qed.

Lemma save_spec {A} {J : JSON A} s ns k (a : A) :
  kv_ok s ns = true ->
  exists s', save ns k a s = (Ok tt, s') /\ kv_update s ns (<[k := json_Marshal a]> (kv_view s ns)) s'.
Proof.
  intros H. destruct (kv_Set_ok s ns k (json_Marshal a) H) as (s' & E & Hu & _).
  exists s'. unfold save. by rewrite E.
Qed.

Lemma load_save {A} {J : JSON A} s s' ns k (a : A) :
  kv_ok s ns = true -> json_faithful a -> save ns k a s = (Ok tt, s') -> load ns k s' = Ok (Some a).
Proof.
  intros H Hf E. destruct (save_spec s ns k a H) as (s2 & E2 & Hu). rewrite E in E2.
  injection E2 as <-. rewrite load_spec by (by rewrite (kvu_ok _ _ _ _ Hu)).
  rewrite (kvu_view _ _ _ _ Hu), lookup_insert_eq. by rewrite json_roundtrip.
Qed.
Lemma load_save_ne {A B} {J : JSON A} {J2 : JSON B} s s' ns k k' (b : B) :
  kv_ok s ns = true -> k <> k' -> save ns k b s = (Ok tt, s') ->
  load (A := A) ns k' s' = load ns k' s.
Proof.
  intros H Hne E. destruct (save_spec s ns k b H) as (s2 & E2 & Hu). rewrite E in E2.
  injection E2 as <-. rewrite !load_spec by (by rewrite ?(kvu_ok _ _ _ _ Hu)).
  by rewrite (kvu_view _ _ _ _ Hu), lookup_insert_ne.
Qed.
End JsonStoreFacts.

(** ** Invariants of handlers *)

Section Preserves.
Context {St : Type} (I : St -> Prop).
(** Whatever the outcome, the state a handler leaves satisfies [I]. *)
Definition preserves {A} (c : M St A) : Prop := forall s, I s -> I (c s).2.

Lemma preserves_ret {A} (a : A) : preserves (hret a).
Proof. by intros s. Qed.
Lemma preserves_get {A} (f : St -> A) : preserves (hget f).
Proof. by intros s. Qed.
Lemma preserves_bind {A B} (c : M St A) (k : A -> M St B) :
  preserves c -> (forall a, preserves (k a)) -> preserves (hbind c k).
Proof.
  intros Hc Hk s Hs. unfold hbind. pose proof (Hc s Hs) as H.
  destruct (c s) as [[a|e] s']; [by apply Hk|done].
Qed.
Lemma preserves_try (c : M St unit) : preserves c -> preserves (htry c).
Proof.
  intros Hc s Hs. unfold htry. pose proof (Hc s Hs) as H. by destruct (c s) as [[|] s'].
Qed.
Lemma preserves_fold {A B} (f : B -> A -> M St B) (l : list A) b :
  (forall b a, preserves (f b a)) -> preserves (hfold f l b).
Proof.
  intros Hf. revert b. induction l as [|a l IH]; intros b; [apply preserves_ret|].
  apply preserves_bind; [apply Hf|done].
Qed.
End Preserves.

Create HintDb handlers.
#[export] Hint Resolve preserves_ret preserves_get preserves_try preserves_fold : handlers.

(** Splits a handler into its steps. *)
Ltac handler_steps :=
  repeat first
    [ progress intros
    | apply preserves_bind
    | match goal with |- preserves _ (match ?x with _ => _ end) => destruct x end
    | solve [auto with handlers] ].

Section SaveInvariant.
Context {St : Type} {KV : KVOps St} {KVS : KVStore St}.

(** A save either does nothing or writes its key. *)
Lemma save_cases {A} {J : JSON A} s ns k (a : A) :
  (save ns k a s).2 = s
  \/ kv_update s ns (<[k := json_Marshal a]> (kv_view s ns)) (save ns k a s).2.
Proof.
  destruct (kv_ok s ns) eqn:Hok.
  - right. destruct (save_spec s ns k a Hok) as (s' & E & Hu). by rewrite E.
  - left. unfold save. pose proof (kv_Set_fail s ns k (json_Marshal a) Hok) as Hf.
    by destruct (kv_Set s ns k _).
Qed.

(** An invariant of the entries of a namespace. *)
Definition entries_satisfy (P : string -> string -> Prop) (ns : string) (s : St) : Prop :=
  map_Forall P (kv_view s ns).
Lemma save_preserves {A} {J : JSON A} (P : string -> string -> Prop) ns k (a : A) :
  P k (json_Marshal a) -> preserves (entries_satisfy P ns) (save ns k a).
Proof.
  intros HP s Hs. destruct (save_cases s ns k a) as [->|Hu]; [done|].
  unfold entries_satisfy. rewrite (kvu_view _ _ _ _ Hu). by apply map_Forall_insert_2.
Qed.
End SaveInvariant.
