(* ===== verification/Effects.v ===== *)
(** * Effects: handlers as updates of one namespace

    The single writes the aggregators make, and a calculus that reads a sequence of
    them as one update of the contents of a namespace. *)

From S2P Require Import Prelude GoText Storage Aggregator.

Section Effects.
Context {St : Type} {KV : KVOps St} (ns : string).

(** [_ = store.Delete] and [store.Set] whose error is returned. *)
Definition kv_put (key value : string) : M St unit := fun s =>
  match kv_Set s ns key value with Ok s => (Ok tt, s) | Err e => (Err e, s) end.
Definition kv_del (key : string) : M St unit := fun s =>
  match kv_Delete s ns key with Ok s => (Ok tt, s) | Err _ => (Ok tt, s) end.
Definition hwhen (b : bool) (c : M St unit) : M St unit := if b then c else hret tt.
(** [store.Get] whose error counts as absence; it opens the namespace. *)
Definition fetch (key : string) : M St (option string) := fun s =>
  let s := kv_touch s ns in
  (Ok (match kv_Get s ns key with Ok r => r | Err _ => None end), s).
Open Scope handler_scope.
(** Index entries, whose values are empty. *)
Fixpoint put_empty (keys : list string) : M St unit :=
  match keys with [] => hret tt | key :: keys => kv_put key "" ;;; put_empty keys end.
Fixpoint del_all (keys : list string) : M St unit :=
  match keys with [] => hret tt | key :: keys => kv_del key ;;; del_all keys end.
End Effects.

Definition insert_empty (ks : list string) (m : gmap string string) : gmap string string :=
  foldl (fun m k => <[k := ""]> m) m ks.
Lemma insert_empty_lookup ks m k :
  insert_empty ks m !! k = if bool_decide (k ∈ ks) then Some "" else m !! k.
Proof.
  unfold insert_empty. induction ks as [|k' ks IH] using rev_ind; [done|].
  rewrite foldl_snoc, lookup_insert, IH. destruct (decide (k' = k)) as [->|E].
  - rewrite bool_decide_eq_true_2; [done|]. apply elem_of_app. right. by left.
  - rewrite (bool_decide_ext (k ∈ ks ++ [k']) (k ∈ ks)); [done|].
    rewrite elem_of_app, list_elem_of_singleton. naive_solver.
Qed.
Lemma delete_keys_perm ks ks' m : ks ≡ₚ ks' -> delete_keys ks m = delete_keys ks' m.
Proof.
  intros H. apply map_eq. intros k. rewrite !delete_keys_lookup.
  by rewrite (bool_decide_ext (k ∈ ks) (k ∈ ks')) by (by rewrite H).
Qed.

Section EffectFacts.
Context {St : Type} {KV : KVOps St} {KVS : KVStore St} (ns : string).

(** The namespace is open, and a handler leaves it so. *)
Definition ns_open (s : St) : Prop := kv_ok s ns = true /\ kv_is_open s ns = true.
Definition ns_effect (c : M St unit) (s : St) (m : gmap string string) : Prop :=
  exists s', c s = (Ok tt, s') /\ kv_update s ns m s'.

Lemma kv_update_compose (s s1 s2 : St) m m' :
  kv_update s ns m s1 -> kv_update s1 ns m' s2 -> kv_update s ns m' s2.
Proof.
  intros [A1 A2 A3 A4] [B1 B2 B3 B4]. split; [done|..].
  - intros ns' Hne. by rewrite B2, A2.
  - intros ns'. by rewrite B3.
  - intros ns' H. by apply B4, A4.
Qed.
Lemma effect_open c s m : ns_open s -> ns_effect c s m -> ns_open (c s).2 /\ kv_view (c s).2 ns = m.
Proof.
  intros [H1 H2] (s' & -> & Hu). cbn. split; [|apply (kvu_view _ _ _ _ Hu)].
  split; [by rewrite (kvu_ok _ _ _ _ Hu)|by apply (kvu_open _ _ _ _ Hu)].
Qed.
Lemma effect_ret s : ns_effect (hret tt) s (kv_view s ns).
Proof. exists s. split; [done|]. by constructor. Qed.
Lemma effect_seq c d s m m' :
  ns_open s -> ns_effect c s m ->
  (forall s', ns_open s' -> kv_view s' ns = m -> ns_effect d s' m') ->
  ns_effect (hbind c (fun _ => d)) s m'.
Proof.
  intros Ho He Hd. destruct (effect_open c s m Ho He) as [Ho' Hm']. destruct He as (s1 & E & Hu).
  rewrite E in Ho', Hm'. destruct (Hd s1 Ho' Hm') as (s2 & E2 & Hu2). exists s2.
  split; [unfold hbind; by rewrite E|]. by eapply kv_update_compose.
Qed.
Lemma effect_put k v s : ns_open s -> ns_effect (kv_put ns k v) s (<[k := v]> (kv_view s ns)).
Proof.
  intros [Hok _]. destruct (kv_Set_ok s ns k v Hok) as (s' & E & Hu & _).
  exists s'. unfold kv_put. by rewrite E.
Qed.
Lemma effect_del k s : ns_open s -> ns_effect (kv_del ns k) s (delete k (kv_view s ns)).
Proof.
  intros [Hok Hop]. destruct (kv_Delete_ok s ns k Hok Hop) as (s' & E & Hu).
  exists s'. unfold kv_del. by rewrite E.
Qed.
Lemma effect_when b c s m :
  ns_open s -> ns_effect c s m -> ns_effect (hwhen b c) s (if b then m else kv_view s ns).
Proof. intros Ho He. destruct b; [done|apply effect_ret]. Qed.
Lemma effect_eq c s m m' : ns_effect c s m -> m = m' -> ns_effect c s m'.
Proof. by intros H ->. Qed.
Lemma effect_put_empty ks s :
  ns_open s -> ns_effect (put_empty ns ks) s (insert_empty ks (kv_view s ns)).
Proof.
  revert s. induction ks as [|k ks IH]; intros s Ho; [apply effect_ret|]. cbn [put_empty].
  eapply effect_seq; [done|by apply effect_put|]. intros s1 Ho1 E1.
  eapply effect_eq; [by apply IH|]. by rewrite E1.
Qed.
Lemma effect_del_all ks s :
  ns_open s -> ns_effect (del_all ns ks) s (delete_keys ks (kv_view s ns)).
Proof.
  intros Ho. eapply effect_eq; [|apply (delete_keys_perm (rev ks)); symmetry; apply Permutation_rev].
  revert s Ho. induction ks as [|k ks IH]; intros s Ho; [apply effect_ret|]. cbn [del_all].
  eapply effect_seq; [done|by apply effect_del|]. intros s1 Ho1 E1.
  eapply effect_eq; [by apply IH|]. rewrite E1. unfold delete_keys. cbn [rev].
  by rewrite foldr_app.
Qed.

Lemma fetch_spec k s :
  kv_ok s ns = true ->
  exists s', fetch ns k s = (Ok (kv_view s ns !! k), s') /\ ns_open s' /\ kv_update s ns (kv_view s ns) s'.
Proof.
  intros Hok. pose proof (kv_touch_update s ns) as Hu. exists (kv_touch s ns).
  assert (Hok' : kv_ok (kv_touch s ns) ns = true) by (by rewrite (kvu_ok _ _ _ _ Hu)).
  split; [|split; [split; [done|by apply kv_touch_open]|done]].
  unfold fetch. cbv zeta. by rewrite kv_Get_ok, (kvu_view _ _ _ _ Hu).
Qed.
End EffectFacts.
Arguments effect_open {_ _ ns} _ _ _ _ _.
Arguments effect_seq {_ _ ns} _ _ _ _ _ _ _ _.
Arguments effect_put {_ _ _ ns} _ _ _ _.
Arguments effect_ret {_ _ ns} _.
