(* ===== verification/Backfill.v ===== *)
(** * Backfill: the paged loop over a MANAPI service

    [backfill.go] of userinfo and of publishedcontent hold the same loop over the
    pages of each path: here it is once, over what they do with a pin, with its
    termination. *)

From S2P Require Import Prelude GoText Aggregator.

Record manapiPin := mkManapiPin {
  mp_ID : string;
  mp_Path : string;
  mp_OriginalPath : string;
  mp_Operation : string;
  mp_ContentType : string;
  mp_ContentBody : string;
  mp_ContentSummary : string;
  mp_MetaId : string;
  mp_GlobalMetaId : string;
  mp_Address : string;
  mp_CreateMetaId : string;
  mp_CreateAddress : string;
  mp_ChainName : string;
  mp_Timestamp : Z;
  mp_GenesisHeight : Z;
  mp_OriginalId : string }.
Record backfillPage := mkPage { bp_Pins : list manapiPin; bp_NextCursor : string }.

(** [since] in milliseconds and seconds; [None] is the zero time. *)
Definition manapiTimestampBefore (timestamp : Z) (since : option Z) : bool :=
  match since with
  | None => false
  | Some ms =>
      if timestamp <=? 0 then false
      else if 100000000000 <? timestamp then timestamp <? ms else timestamp <? ms / 1000
  end.

Section Loop.
Context {W : Type}.
Open Scope handler_scope.

(** [client.ListPath]: what the service answers for a path, a cursor and a size;
    and what is done with a pin. *)
Variable ListPath : string -> string -> Z -> res backfillPage.
Variable process : manapiPin -> M W unit.

(** The pins of a page; whether all of them were too old. *)
Fixpoint backfill_pins (pins : list manapiPin) (since : option Z) (allOlder : bool) : M W bool :=
  match pins with
  | [] => hret allOlder
  | pin :: pins =>
      if manapiTimestampBefore (mp_Timestamp pin) since then backfill_pins pins since allOlder
      else process pin ;;; backfill_pins pins since false
  end.
(** The loop over the pages of one path; [fuel] bounds the pages, [None] means it ran out. *)
Fixpoint backfill_path (fuel : nat) (path cursor : string) (seen : gset string) (pageSize : Z)
    (since : option Z) (w : W) : option (res unit * W) :=
  match fuel with
  | O => None
  | S fuel =>
      let seen := {[cursor]} ∪ seen in
      match ListPath path cursor pageSize with
      | Err e => Some (Err e, w)
      | Ok page =>
          match bp_Pins page with
          | [] => Some (Ok tt, w)
          | pins =>
              match backfill_pins pins since true w with
              | (Err e, w) => Some (Err e, w)
              | (Ok true, w) => Some (Ok tt, w)
              | (Ok false, w) =>
                  let next := bp_NextCursor page in
                  if is_empty next || (Z.of_nat (length pins) <? pageSize) then Some (Ok tt, w)
                  else if bool_decide (next ∈ seen) then Some (Err "repeated MANAPI cursor", w)
                  else backfill_path fuel path next seen pageSize since w
              end
          end
      end
  end.
Fixpoint backfill_paths (fuel : nat) (paths : list string) (pageSize : Z) (since : option Z) (w : W)
    : option (res unit * W) :=
  match paths with
  | [] => Some (Ok tt, w)
  | path :: paths =>
      match backfill_path fuel path "" ∅ pageSize since w with
      | Some (Ok _, w) => backfill_paths fuel paths pageSize since w
      | r => r
      end
  end.

(** ** A service that pages through a list *)

(** The pages of a path, each under its cursor: all but the last full, and each but the
    last leading to the next. *)
Fixpoint serves (path : string) (pageSize : Z) (pages : list (string * list manapiPin)) : Prop :=
  match pages with
  | [] => True
  | (cursor, pins) :: rest =>
      (exists page, ListPath path cursor pageSize = Ok page /\ bp_Pins page = pins
       /\ match rest with
          | [] => is_empty (bp_NextCursor page) = true \/ Z.of_nat (length pins) < pageSize
          | (next, _) :: _ => bp_NextCursor page = next /\ next <> "" /\ pins <> [] /\ pageSize <= Z.of_nat (length pins)
          end)
      /\ serves path pageSize rest
  end.
Definition not_older (since : option Z) (pin : manapiPin) : bool := negb (manapiTimestampBefore (mp_Timestamp pin) since).
(** Every pin in turn, until one fails. *)
Fixpoint process_all (pins : list manapiPin) : M W unit :=
  match pins with
  | [] => hret tt
  | pin :: pins => process pin ;;; process_all pins
  end.
Lemma process_all_app l1 l2 w : process_all (l1 ++ l2) w = (process_all l1 ;;; process_all l2) w.
Proof.
  revert w. induction l1 as [|pin l1 IH]; intros w; [done|]. cbn [app process_all]. unfold hbind in *.
  destruct (process pin w) as [[u|e] w1]; [apply IH|done].
Qed.
Lemma backfill_pins_spec pins since old w :
  backfill_pins pins since old w
  = (process_all (List.filter (not_older since) pins) ;;; hret (old && negb (existsb (not_older since) pins))) w.
Proof.
  revert old w. induction pins as [|pin pins IH]; intros old w.
  { unfold hbind, hret. cbn [backfill_pins List.filter existsb process_all]. by rewrite andb_true_r. }
  cbn [backfill_pins List.filter existsb].
  assert (Ef : not_older since pin = negb (manapiTimestampBefore (mp_Timestamp pin) since)) by done. rewrite Ef.
  destruct (manapiTimestampBefore _ _); cbn [negb orb]; [apply IH|].
  rewrite andb_false_r. cbn [process_all]. unfold hbind in *.
  destruct (process pin w) as [[u|e] w1]; [|done]. rewrite IH. cbn [andb].
  by destruct (process_all _ w1) as [[?|?] ?].
Qed.
Lemma newest_first_stale since pins rest :
  StronglySorted (fun p q => not_older since p = false -> not_older since q = false) (pins ++ rest) ->
  pins <> [] -> existsb (not_older since) pins = false -> List.filter (not_older since) rest = [].
Proof.
  destruct pins as [|p pins]; [done|]. cbn [app existsb]. intros Hs _ [Hp _]%orb_false_iff.
  apply StronglySorted_inv in Hs as [_ Hs]. rewrite Forall_app in Hs. destruct Hs as [_ Hs].
  induction Hs as [|q rest Hq _ IH]; [done|]. cbn [List.filter]. by rewrite (Hq Hp).
Qed.
Lemma backfill_path_serves fuel path pageSize since pages seen cursor pins w :
  0 < pageSize -> serves path pageSize ((cursor, pins) :: pages) ->
  NoDup (cursor :: pages.*1) -> (forall c, c ∈ cursor :: pages.*1 -> c ∉ seen) ->
  StronglySorted (fun p q => not_older since p = false -> not_older since q = false) (pins ++ concat pages.*2) ->
  (length pages < fuel)%nat ->
  backfill_path fuel path cursor seen pageSize since w
  = Some (process_all (List.filter (not_older since) (pins ++ concat pages.*2)) w).
Proof.
  intros Hsize. revert fuel seen cursor pins w.
  induction pages as [|[next more] pages IH]; intros fuel seen cursor pins w Hsv Hnd Hseen Hs Hf;
    destruct fuel as [|fuel]; [lia| |cbn in Hf; lia|]; destruct Hsv as ((page & Hl & <- & Hnext) & Hsv); cbn [backfill_path]; rewrite Hl.
  - cbn [fmap list_fmap concat]. rewrite app_nil_r. destruct (bp_Pins page) as [|pin pins] eqn:Ep; [done|].
    rewrite backfill_pins_spec. unfold hbind. destruct (process_all _ w) as [[[]|e] w1]; [|done].
    unfold hret. destruct (true && _); [done|].
    assert (Hstop : is_empty (bp_NextCursor page) || (Z.of_nat (length (pin :: pins)) <? pageSize) = true)
      by (apply orb_true_iff; destruct Hnext as [->|Hlt]; [by left|right; apply Z.ltb_lt; exact Hlt]).
    by rewrite Hstop.
  - destruct Hnext as (Enext & Hne & Hpins & Hfull). cbn [fmap list_fmap concat fst snd] in *.
    destruct (bp_Pins page) as [|pin pins] eqn:Ep; [done|]. rewrite <- Ep in *.
    rewrite backfill_pins_spec, List.filter_app, process_all_app. unfold hbind.
    destruct (process_all _ w) as [[[]|e] w1] eqn:Er; [|done].
    unfold hret. cbn [andb]. destruct (existsb (not_older since) (bp_Pins page)) eqn:Ex; cbn [negb].
    + assert (Hgo : is_empty next || (Z.of_nat (length (bp_Pins page)) <? pageSize) = false).
      { apply orb_false_iff. split; [by destruct next|]. by apply Z.ltb_ge. }
      rewrite Enext, Ep in *. rewrite Hgo. rewrite <- Ep in *.
      apply NoDup_cons in Hnd as [Hc Hnd]. rewrite bool_decide_eq_false_2.
      2: { rewrite elem_of_union, elem_of_singleton. intros [->|Hin]; [by destruct Hc; left|].
           apply (Hseen next); [right; left|done]. }
      rewrite (IH fuel _ next more); [done|exact Hsv|exact Hnd| | |cbn in Hf; lia].
      * intros c Hcin [->%elem_of_singleton|Hin]%elem_of_union; [done|]. by apply (Hseen c); [right|].
      * by apply StronglySorted_app_1_r in Hs.
    + by rewrite (newest_first_stale since (bp_Pins page) (more ++ concat pages.*2)).
Qed.
(** A backfill of paths that a service pages, newest first and under distinct cursors,
    hands every pin that is not too old to [process], path by path and in order, and
    nothing else; the fuel it takes is one more than the pages of a path. *)
Lemma backfill_paths_serves fuel paths (pages : string -> list (list manapiPin)) (cursors : string -> list string) pageSize since w :
  0 < pageSize ->
  (forall path, path ∈ paths -> exists pins more names,
     pages path = pins :: more /\ cursors path = "" :: names /\ length names = length more
     /\ serves path pageSize (zip ("" :: names) (pins :: more)) /\ NoDup ("" :: names)
     /\ StronglySorted (fun p q => not_older since p = false -> not_older since q = false) (concat (pages path))
     /\ (length more < fuel)%nat) ->
  backfill_paths fuel paths pageSize since w
  = Some (process_all (List.filter (not_older since) (concat (map (fun path => concat (pages path)) paths))) w).
Proof.
  intros Hsize. revert w. induction paths as [|path ps IH]; intros w H; [done|]. cbn [backfill_paths map concat].
  destruct (H path ltac:(left)) as (pins & more & names & Ep & Ec & El & Hsv & Hnd & Hs & Hf). rewrite Ep in *.
  assert (E1 : (zip names more).*1 = names) by (apply fst_zip; lia).
  assert (E2 : (zip names more).*2 = more) by (apply snd_zip; lia). cbn [zip zip_with] in Hsv.
  rewrite (backfill_path_serves fuel path pageSize since (zip names more) ∅ "" pins w);
    rewrite ?E1, ?E2; [|exact Hsize|exact Hsv|exact Hnd|intros c _; apply not_elem_of_empty|exact Hs|].
  - rewrite (List.filter_app _ (concat (pins :: more))), process_all_app. unfold hbind. cbn [concat].
    destruct (process_all _ w) as [[[]|e] w1]; [|done]. apply IH. intros path' Hp. apply H. by right.
  - rewrite length_zip_with. lia.
Qed.

(** ** Termination *)

Lemma seen_shrinks (U seen : gset string) cursor :
  cursor ∈ U -> cursor ∉ seen -> (size (U ∖ ({[cursor]} ∪ seen)) < size (U ∖ seen))%nat.
Proof.
  intros Hc Hn. apply subset_size. split.
  - intros x. rewrite !elem_of_difference, elem_of_union. tauto.
  - intros Hs. assert (cursor ∈ U ∖ ({[cursor]} ∪ seen)) as Hx by (apply Hs, elem_of_difference; done).
    apply elem_of_difference in Hx as [_ Hx]. apply Hx, elem_of_union. left. by apply elem_of_singleton.
Qed.

Variable C : gset string.
Hypothesis cursors : forall path cursor size page,
  ListPath path cursor size = Ok page -> bp_NextCursor page ∈ C.

Lemma backfill_path_terminates fuel path cursor seen pageSize since w :
  cursor ∈ {[""]} ∪ C -> cursor ∉ seen -> (size (({[""]} ∪ C) ∖ seen) < fuel)%nat ->
  is_Some (backfill_path fuel path cursor seen pageSize since w).
Proof.
  revert cursor seen w. induction fuel as [|fuel IH]; intros cursor seen w Hc Hn Hf; [lia|].
  cbn [backfill_path]. destruct (ListPath path cursor pageSize) as [page|] eqn:El; [|by eexists].
  destruct (bp_Pins page) as [|pin pins]; [by eexists|].
  destruct (backfill_pins (pin :: pins) since true w) as [[[]|] w1]; [by eexists| |by eexists].
  destruct (_ || _); [by eexists|]. case_bool_decide as Hseen; [by eexists|].
  apply IH; [apply elem_of_union; right; by eapply cursors|done|].
  assert (size (({[""]} ∪ C) ∖ ({[cursor]} ∪ seen)) < size (({[""]} ∪ C) ∖ seen))%nat; [|lia].
  by apply seen_shrinks.
Qed.
Lemma backfill_paths_terminates fuel paths pageSize since w :
  (size C + 2 <= fuel)%nat -> is_Some (backfill_paths fuel paths pageSize since w).
Proof.
  intros Hf. revert w. induction paths as [|path ps IH]; intros w; [by eexists|].
  cbn [backfill_paths].
  destruct (backfill_path_terminates fuel path "" ∅ pageSize since w) as [[[u|e] w'] ->];
    [by apply elem_of_union; left; apply elem_of_singleton|by apply not_elem_of_empty| |by apply IH|by eexists].
  rewrite difference_empty_L, size_union_alt, size_singleton.
  assert (size (C ∖ {[""]}) <= size C)%nat; [|lia].
  apply subseteq_size. intros x. rewrite elem_of_difference. tauto.
Qed.
End Loop.
