(* ===== verification/Cache.v ===== *)
(** * Cache: the two-level cache ([internal/cache/cache.go])

    L1 is a third-party expirable LRU, a parameter with its documented behaviour: it
    never answers anything but the last value added under a key, and may have dropped
    any entry (capacity, expiry).  L2 is a namespace of the Pebble store.  Values are
    [[]byte] (the only instance), so marshalling copies bytes.  The facts: for its
    client the cache is a map, whatever the LRU drops; what fails is deleting in a
    process that has not read yet, and deleting during a read. *)

From S2P Require Import Prelude GoText Storage.

(** ** The LRU *)

Class LRU := {
  lru : Type;
  (** everything in memory, expired or not *)
  lru_view : lru -> gmap string string;
  lru_New (maxEntries ttl : Z) : lru;
  lru_Get (now : Z) (key : string) (l : lru) : option string * lru;
  lru_Add (now : Z) (key value : string) (l : lru) : lru;
  lru_Remove (key : string) (l : lru) : lru;
  lru_Purge (l : lru) : lru;
  lru_New_view maxEntries ttl : lru_view (lru_New maxEntries ttl) = ∅;
  lru_Get_some now key l v : (lru_Get now key l).1 = Some v -> lru_view l !! key = Some v;
  lru_Get_view now key l : lru_view (lru_Get now key l).2 ⊆ lru_view l;
  lru_Add_view now key value l : lru_view (lru_Add now key value l) ⊆ <[key := value]> (lru_view l);
  lru_Remove_view key l : lru_view (lru_Remove key l) ⊆ delete key (lru_view l);
  lru_Purge_view l : lru_view (lru_Purge l) = ∅ }.

(** ** The provider and its caches *)

Section Cache.
Context {L : LRU} {St : Type} {KV : KVOps St}.

Record namespaceCache := mkNsCache { l1 : lru; l2Prefix : string }.
Record CacheProvider := mkProvider {
  cp_store : St;
  cp_namespaces : gmap string namespaceCache }.
Definition New (store : St) : CacheProvider := mkProvider store ∅.
Definition new_ns (name : string) (maxEntries ttl : Z) : namespaceCache :=
  mkNsCache (lru_New maxEntries ttl) ("cache_" +:+ name).
(** The [*Cache] that is returned is its name: the limits of a later call are ignored. *)
Definition Namespace (name : string) (maxEntries ttl : Z) (cp : CacheProvider) : CacheProvider :=
  match cp_namespaces cp !! name with
  | Some _ => cp
  | None => mkProvider (cp_store cp) (<[name := new_ns name maxEntries ttl]> (cp_namespaces cp))
  end.

(** [c.ns]: a cache exists once [Namespace] has been called. *)
Definition ns_of (name : string) (cp : CacheProvider) : namespaceCache :=
  default (new_ns name 0 0) (cp_namespaces cp !! name).
Definition set_l1 (name : string) (l : lru) (cp : CacheProvider) : CacheProvider :=
  mkProvider (cp_store cp) (<[name := mkNsCache l (l2Prefix (ns_of name cp))]> (cp_namespaces cp)).
Definition set_store (s : St) (cp : CacheProvider) : CacheProvider := mkProvider s (cp_namespaces cp).

(** The steps of [Get], between which other calls can run: the lookup in L1, the read
    of L2, the backfill. *)
Definition get_l1 (name key : string) (now : Z) (cp : CacheProvider) : option string * CacheProvider :=
  let '(val, l) := lru_Get now key (l1 (ns_of name cp)) in (val, set_l1 name l cp).
Definition get_l2 (name key : string) (cp : CacheProvider) : option string * CacheProvider :=
  let pre := l2Prefix (ns_of name cp) in
  (match kv_Get (cp_store cp) pre key with Ok raw => raw | Err _ => None end,
   set_store (kv_touch (cp_store cp) pre) cp).
Definition backfill (name key : string) (now : Z) (raw : string) (cp : CacheProvider) : CacheProvider :=
  set_l1 name (lru_Add now key raw (l1 (ns_of name cp))) cp.
Definition cache_Get (name key : string) (now : Z) (cp : CacheProvider)
    : option string * CacheProvider :=
  match get_l1 name key now cp with
  | (Some val, cp) => (Some val, cp)
  | (None, cp) =>
      match get_l2 name key cp with
      | (None, cp) => (None, cp)
      | (Some raw, cp) => (Some raw, backfill name key now raw cp)
      end
  end.
Definition of_store (r : res St) (cp : CacheProvider) : res unit * CacheProvider :=
  match r with Ok s => (Ok tt, set_store s cp) | Err e => (Err e, cp) end.
(** L1 first: it keeps the value when L2 fails.  The [ttl] argument is not used. *)
Definition cache_Set (name key value : string) (ttl now : Z) (cp : CacheProvider)
    : res unit * CacheProvider :=
  let cp := set_l1 name (lru_Add now key value (l1 (ns_of name cp))) cp in
  let pre := l2Prefix (ns_of name cp) in
  match kv_Set (cp_store cp) pre key value with
  | Ok s => (Ok tt, set_store s cp)
  | Err e => (Err e, set_store (kv_touch (cp_store cp) pre) cp)
  end.
Definition cache_Delete (name key : string) (cp : CacheProvider) : res unit * CacheProvider :=
  let cp := set_l1 name (lru_Remove key (l1 (ns_of name cp))) cp in
  of_store (kv_Delete (cp_store cp) (l2Prefix (ns_of name cp)) key) cp.
Definition InvalidateByPrefix (name pre : string) (cp : CacheProvider) : res unit * CacheProvider :=
  let cp := set_l1 name (lru_Purge (l1 (ns_of name cp))) cp in
  of_store (kv_DeleteByPrefix (cp_store cp) (l2Prefix (ns_of name cp)) pre) cp.
Fixpoint Warmup (name : string) (keys : list string) (now : Z) (cp : CacheProvider) : CacheProvider :=
  match keys with
  | [] => cp
  | key :: keys =>
      match get_l2 name key cp with
      | (None, cp) => Warmup name keys now cp
      | (Some raw, cp) => Warmup name keys now (backfill name key now raw cp)
      end
  end.
End Cache.
Arguments CacheProvider {L} St.

(** ** The provider carries the store

    An aggregator's state is the provider: its own records go to the store under it. *)

#[export] Instance provider_ops {L : LRU} {St} {KV : KVOps St} : KVOps (CacheProvider St) := {|
  kv_view cp := kv_view (cp_store cp);
  kv_ok cp := kv_ok (cp_store cp);
  kv_is_open cp := kv_is_open (cp_store cp);
  kv_touch cp ns := set_store (kv_touch (cp_store cp) ns) cp;
  kv_Get cp := kv_Get (cp_store cp);
  kv_Scan cp := kv_Scan (cp_store cp);
  kv_Set cp ns k v := s <-? kv_Set (cp_store cp) ns k v ;; Ok (set_store s cp);
  kv_Delete cp ns k := s <-? kv_Delete (cp_store cp) ns k ;; Ok (set_store s cp);
  kv_DeleteByPrefix cp ns p := s <-? kv_DeleteByPrefix (cp_store cp) ns p ;; Ok (set_store s cp) |}.
Lemma set_store_update {L : LRU} {St} {KV : KVOps St} (cp : CacheProvider St) ns m s :
  kv_update (cp_store cp) ns m s -> kv_update cp ns m (set_store s cp).
Proof. by intros [? ? ? ?]. Qed.
#[export] Instance provider_store {L : LRU} {St} {KV : KVOps St} {KVS : KVStore St} :
  KVStore (CacheProvider St).
Proof.
  split; simpl; intros *.
  - apply set_store_update, kv_touch_update.
  - apply kv_touch_open.
  - apply kv_Get_ok.
  - apply kv_Scan_ok.
  - intros H. destruct (kv_Set_ok (cp_store s) ns k v H) as (s' & -> & Hu & Ho).
    eexists. split; [done|]. split; [by apply set_store_update|done].
  - intros H Ho. destruct (kv_Delete_ok (cp_store s) ns k H Ho) as (s' & -> & Hu).
    eexists. split; [done|]. by apply set_store_update.
  - intros H. rewrite kv_Delete_closed by done. by destruct s.
  - intros H Ho. destruct (kv_DeleteByPrefix_ok (cp_store s) ns p H Ho) as (s' & -> & Hu).
    eexists. split; [done|]. by apply set_store_update.
  - intros H. rewrite kv_DeleteByPrefix_closed by done. by destruct s.
  - apply kv_Get_fail.
  - apply kv_Scan_fail.
  - intros H. pose proof (kv_Set_fail (cp_store s) ns k v H) as Hf.
    by destruct (kv_Set (cp_store s) ns k v).
  - intros H Ho. pose proof (kv_DeleteByPrefix_fail (cp_store s) ns p H Ho) as Hf.
    by destruct (kv_DeleteByPrefix (cp_store s) ns p).
Qed.

(** ** The cache is a map

    The specification of a cache: the L2 contents, and nothing else. *)

Inductive cache_op :=
  | CGet (key : string) (now : Z)
  | CSet (key value : string) (ttl now : Z)
  | CDelete (key : string)
  | CInvalidate (pre : string)
  | CWarmup (keys : list string) (now : Z).

Definition abs_cache_step (m : gmap string string) (o : cache_op)
    : option string * gmap string string :=
  match o with
  | CGet key _ => (m !! key, m)
  | CSet key value _ _ => (None, <[key := value]> m)
  | CDelete key => (None, delete key m)
  | CInvalidate pre => (None, delete_keys (prefix_entries m pre).*1 m)
  | CWarmup _ _ => (None, m)
  end.

Section Facts.
Context {L : LRU} {St : Type} {KV : KVOps St} {KVS : KVStore St}.

Definition cache_step (name : string) (cp : CacheProvider St) (o : cache_op)
    : option string * CacheProvider St :=
  match o with
  | CGet key now => cache_Get name key now cp
  | CSet key value ttl now => (None, (cache_Set name key value ttl now cp).2)
  | CDelete key => (None, (cache_Delete name key cp).2)
  | CInvalidate pre => (None, (InvalidateByPrefix name pre cp).2)
  | CWarmup keys now => (None, Warmup name keys now cp)
  end.
Fixpoint cache_run {T} (step : T -> cache_op -> option string * T) (t : T) (ops : list cache_op)
    : list (option string) :=
  match ops with
  | [] => []
  | o :: ops => let '(out, t) := step t o in out :: cache_run step t ops
  end.

(** The simulation: a healthy open database whose contents are the map, and an L1
    that holds a part of it. *)
Record cache_sim (name : string) (cp : CacheProvider St) (m : gmap string string) : Prop := {
  cs_prefix : l2Prefix (ns_of name cp) = "cache_" +:+ name;
  cs_ok : kv_ok (cp_store cp) ("cache_" +:+ name) = true;
  cs_open : kv_is_open (cp_store cp) ("cache_" +:+ name) = true;
  cs_l2 : kv_view (cp_store cp) ("cache_" +:+ name) = m;
  cs_l1 : lru_view (l1 (ns_of name cp)) ⊆ m }.

Lemma ns_of_set_l1 name l (cp : CacheProvider St) :
  ns_of name (set_l1 name l cp) = mkNsCache l (l2Prefix (ns_of name cp)).
Proof. unfold ns_of at 1, set_l1. simpl. by rewrite lookup_insert_eq. Qed.
(** A change of both levels that keeps L1 below L2. *)
Lemma cache_sim_next name cp m l s m' :
  cache_sim name cp m -> kv_update (cp_store cp) ("cache_" +:+ name) m' s ->
  lru_view l ⊆ m' -> cache_sim name (set_store s (set_l1 name l cp)) m'.
Proof.
  intros [Hp Hok Hop H2 H1] [Hv _ Hk Hi] Hl.
  assert (E : ns_of name (set_store s (set_l1 name l cp)) = mkNsCache l (l2Prefix (ns_of name cp)))
    by exact (ns_of_set_l1 name l cp).
  split; rewrite ?E; simpl; [done|by rewrite Hk|by apply Hi|done|done].
Qed.
Lemma cache_sim_l1 name cp m l :
  cache_sim name cp m -> lru_view l ⊆ m -> cache_sim name (set_l1 name l cp) m.
Proof.
  intros [Hp Hok Hop H2 H1] Hl. split; rewrite ?ns_of_set_l1; simpl; done.
Qed.
Lemma get_l2_sim name cp m key :
  cache_sim name cp m ->
  (get_l2 name key cp).1 = m !! key /\ cache_sim name (get_l2 name key cp).2 m.
Proof.
  intros Hs. pose proof Hs as [Hp Hok Hop H2 H1]. unfold get_l2. rewrite Hp. simpl.
  rewrite kv_Get_ok, H2 by done. split; [done|].
  destruct (kv_touch_update (cp_store cp) ("cache_" +:+ name)) as [Hv _ Hk Hi].
  split; simpl; [done|by rewrite Hk|by apply Hi|by rewrite Hv|done].
Qed.
Lemma backfill_sim name cp m key now raw :
  cache_sim name cp m -> m !! key = Some raw -> cache_sim name (backfill name key now raw cp) m.
Proof.
  intros Hs E. apply cache_sim_l1; [done|]. etransitivity; [apply lru_Add_view|].
  rewrite <- (insert_id m key raw E). by apply insert_mono, cs_l1.
Qed.
Lemma Warmup_sim name keys now cp m :
  cache_sim name cp m -> cache_sim name (Warmup name keys now cp) m.
Proof.
  revert cp. induction keys as [|key keys IH]; intros cp Hs; [done|]. cbn [Warmup].
  destruct (get_l2_sim name cp m key Hs) as [E Hs'].
  destruct (get_l2 name key cp) as [[raw|] cp']; simpl in *; apply IH; [|done].
  by apply backfill_sim.
Qed.
Lemma cache_Get_sim name cp m key now :
  cache_sim name cp m ->
  (cache_Get name key now cp).1 = m !! key /\ cache_sim name (cache_Get name key now cp).2 m.
Proof.
  intros Hs. unfold cache_Get, get_l1. pose proof (cs_l1 _ _ _ Hs) as H1.
  destruct (lru_Get now key (l1 (ns_of name cp))) as [val l] eqn:El.
  pose proof (lru_Get_view now key (l1 (ns_of name cp))) as Hv. rewrite El in Hv. simpl in Hv.
  assert (Hs1 : cache_sim name (set_l1 name l cp) m) by (apply cache_sim_l1; [done|by etransitivity]).
  destruct val as [val|].
  - split; [|done]. symmetry. eapply lookup_weaken; [|exact H1].
    apply (lru_Get_some now). by rewrite El.
  - destruct (get_l2_sim name _ m key Hs1) as [E Hs2].
    destruct (get_l2 name key (set_l1 name l cp)) as [[raw|] cp']; simpl in *; [|done].
    split; [done|]. by apply backfill_sim.
Qed.
Lemma cache_step_sim name cp m o :
  cache_sim name cp m ->
  (cache_step name cp o).1 = (abs_cache_step m o).1
  /\ cache_sim name (cache_step name cp o).2 (abs_cache_step m o).2.
Proof.
  intros Hs. pose proof Hs as [Hp Hok Hop H2 H1].
  destruct o as [key now|key value ttl now|key|pre|keys now]; cbn [cache_step abs_cache_step fst snd].
  - by apply cache_Get_sim.
  - split; [done|]. unfold cache_Set. rewrite ns_of_set_l1. simpl. rewrite Hp.
    destruct (kv_Set_ok (cp_store cp) ("cache_" +:+ name) key value Hok) as (s & -> & Hu & _).
    rewrite H2 in Hu. apply (cache_sim_next name cp m); [done..|].
    etransitivity; [apply lru_Add_view|]. by apply insert_mono.
  - split; [done|]. unfold cache_Delete. rewrite ns_of_set_l1. simpl. rewrite Hp.
    destruct (kv_Delete_ok (cp_store cp) ("cache_" +:+ name) key Hok Hop) as (s & -> & Hu).
    rewrite H2 in Hu. apply (cache_sim_next name cp m); [done..|].
    etransitivity; [apply lru_Remove_view|]. by apply delete_mono.
  - split; [done|]. unfold InvalidateByPrefix. rewrite ns_of_set_l1. simpl. rewrite Hp.
    destruct (kv_DeleteByPrefix_ok (cp_store cp) ("cache_" +:+ name) pre Hok Hop) as (s & -> & Hu).
    rewrite H2 in Hu. apply (cache_sim_next name cp m); [done..|].
    rewrite lru_Purge_view. apply map_empty_subseteq.
  - split; [done|]. by apply Warmup_sim.
Qed.
Lemma cache_run_sim name ops cp m :
  cache_sim name cp m -> cache_run (cache_step name) cp ops = cache_run abs_cache_step m ops.
Proof.
  revert cp m. induction ops as [|o ops IH]; intros cp m Hs; [done|]. cbn [cache_run].
  destruct (cache_step_sim name cp m o Hs) as [E Hs'].
  destruct (cache_step name cp o) as [out cp'], (abs_cache_step m o) as [out' m'].
  simpl in *. subst out'. f_equal. by apply IH.
Qed.

(** *** One call on a cache whose namespace may still be closed *)

Record cache_ok (name : string) (cp : CacheProvider St) : Prop := {
  co_prefix : l2Prefix (ns_of name cp) = "cache_" +:+ name;
  co_ok : kv_ok (cp_store cp) ("cache_" +:+ name) = true;
  co_l1 : lru_view (l1 (ns_of name cp)) ⊆ kv_view (cp_store cp) ("cache_" +:+ name) }.
Lemma ns_of_next name l s (cp : CacheProvider St) :
  ns_of name (set_store s (set_l1 name l cp)) = mkNsCache l (l2Prefix (ns_of name cp)).
Proof. exact (ns_of_set_l1 name l cp). Qed.
Lemma cache_ok_next name cp l s m :
  cache_ok name cp -> kv_update (cp_store cp) ("cache_" +:+ name) m s -> lru_view l ⊆ m ->
  cache_ok name (set_store s (set_l1 name l cp)).
Proof.
  intros [Hp Hok _] [Hv _ Hk _] Hl. split; rewrite ?ns_of_next; simpl; [done|by rewrite Hk|by rewrite Hv].
Qed.
Lemma kv_update_refl (s : St) ns : kv_update s ns (kv_view s ns) s.
Proof. by split. Qed.
Lemma cache_Get_spec name key now cp :
  cache_ok name cp ->
  let r := cache_Get name key now cp in
  r.1 = kv_view (cp_store cp) ("cache_" +:+ name) !! key /\ cache_ok name r.2
  /\ kv_update (cp_store cp) ("cache_" +:+ name) (kv_view (cp_store cp) ("cache_" +:+ name))
       (cp_store r.2).
Proof.
  intros Hok. pose proof Hok as [Hp Hk H1]. cbv zeta. unfold cache_Get, get_l1.
  destruct (lru_Get now key (l1 (ns_of name cp))) as [val l] eqn:El.
  pose proof (lru_Get_view now key (l1 (ns_of name cp))) as Hv. rewrite El in Hv. simpl in Hv.
  assert (Hl : lru_view l ⊆ kv_view (cp_store cp) ("cache_" +:+ name)) by by etransitivity.
  destruct val as [val|].
  - split; [|split; [|apply kv_update_refl]].
    + symmetry. eapply lookup_weaken; [|exact H1]. apply (lru_Get_some now). by rewrite El.
    + apply (cache_ok_next name cp l (cp_store cp) _ Hok (kv_update_refl _ _) Hl).
  - unfold get_l2. rewrite ns_of_set_l1. simpl. rewrite Hp, kv_Get_ok by done.
    pose proof (kv_touch_update (cp_store cp) ("cache_" +:+ name)) as Ht.
    destruct (_ !! key) as [raw|] eqn:Ek; simpl; (split; [done|]); (split; [|exact Ht]).
    + set (cp' := set_store _ _). unfold backfill.
      assert (Hok' : cache_ok name cp') by by eapply (cache_ok_next name cp).
      assert (En : ns_of name cp' = mkNsCache l ("cache_" +:+ name))
        by (unfold cp'; by rewrite ns_of_next, Hp).
      apply (cache_ok_next name cp' _ (cp_store cp') (kv_view (cp_store cp') ("cache_" +:+ name)) Hok');
        [apply kv_update_refl|].
      rewrite En. simpl. etransitivity; [apply lru_Add_view|].
      destruct Ht as [Tv _ _ _]. rewrite Tv, <- (insert_id _ _ _ Ek). by apply insert_mono.
    + by eapply (cache_ok_next name cp).
Qed.
Lemma cache_Set_spec name key value ttl now cp :
  cache_ok name cp ->
  let r := cache_Set name key value ttl now cp in
  r.1 = Ok tt /\ cache_ok name r.2 /\ kv_is_open (cp_store r.2) ("cache_" +:+ name) = true
  /\ kv_update (cp_store cp) ("cache_" +:+ name)
       (<[key := value]> (kv_view (cp_store cp) ("cache_" +:+ name))) (cp_store r.2).
Proof.
  intros Hok. pose proof Hok as [Hp Hk H1]. cbv zeta. unfold cache_Set. rewrite ns_of_set_l1. simpl.
  rewrite Hp. destruct (kv_Set_ok (cp_store cp) ("cache_" +:+ name) key value Hk) as (s & -> & Hu & Ho).
  split; [done|]. split; [|done]. apply (cache_ok_next name cp _ s _ Hok Hu).
  etransitivity; [apply lru_Add_view|]. by apply insert_mono.
Qed.
(** Invalidation, on a namespace that is open or empty. *)
Lemma Invalidate_spec name pre cp :
  cache_ok name cp ->
  kv_is_open (cp_store cp) ("cache_" +:+ name) = true \/ kv_view (cp_store cp) ("cache_" +:+ name) = ∅ ->
  let r := InvalidateByPrefix name pre cp in
  r.1 = Ok tt /\ cache_ok name r.2
  /\ exists m, kv_update (cp_store cp) ("cache_" +:+ name) m (cp_store r.2)
     /\ forall k, m !! k = if HasPrefix k pre then None
                          else kv_view (cp_store cp) ("cache_" +:+ name) !! k.
Proof.
  intros Hok Ho. pose proof Hok as [Hp Hk H1]. cbv zeta. unfold InvalidateByPrefix.
  rewrite ns_of_set_l1. simpl. rewrite Hp.
  assert (exists m s, kv_DeleteByPrefix (cp_store cp) ("cache_" +:+ name) pre = Ok s
    /\ kv_update (cp_store cp) ("cache_" +:+ name) m s
    /\ forall k, m !! k = if HasPrefix k pre then None
                         else kv_view (cp_store cp) ("cache_" +:+ name) !! k) as (m & s & -> & Hu & Hm).
  { destruct (kv_is_open (cp_store cp) ("cache_" +:+ name)) eqn:Eo.
    - destruct (kv_DeleteByPrefix_ok (cp_store cp) ("cache_" +:+ name) pre Hk Eo) as (s & -> & Hu).
      eexists _, s. split; [done|]. split; [exact Hu|]. intros k. rewrite delete_prefix_keys.
      destruct (HasPrefix k pre) eqn:Ek.
      + apply map_lookup_filter_None. right. intros v _. simpl. by rewrite Ek.
      + destruct (kv_view _ _ !! k) as [v|] eqn:Ev; [by apply map_lookup_filter_Some|].
        apply map_lookup_filter_None. by left.
    - exists ∅, (cp_store cp). destruct Ho as [|Ho]; [done|].
      rewrite kv_DeleteByPrefix_closed by done. split; [done|]. rewrite Ho. split; [by split|].
      intros k. rewrite !lookup_empty. by destruct (HasPrefix k pre). }
  split; [done|]. split; [|by exists m].
  apply (cache_ok_next name cp _ s m Hok Hu). rewrite lru_Purge_view. apply map_empty_subseteq.
Qed.

(** A fresh process: nothing in memory, the namespace perhaps not opened yet. *)
Definition fresh (name : string) (maxEntries ttl : Z) (store : St) : CacheProvider St :=
  Namespace name maxEntries ttl (New store).
Lemma ns_of_fresh name maxEntries ttl store :
  ns_of name (fresh name maxEntries ttl store) = new_ns name maxEntries ttl.
Proof. unfold fresh, Namespace, New, ns_of. simpl. by rewrite lookup_empty; simpl; rewrite lookup_insert_eq. Qed.
Lemma fresh_sim name maxEntries ttl store :
  kv_ok store ("cache_" +:+ name) = true -> kv_is_open store ("cache_" +:+ name) = true ->
  cache_sim name (fresh name maxEntries ttl store) (kv_view store ("cache_" +:+ name)).
Proof.
  intros Hok Hop.
  assert (Es : cp_store (fresh name maxEntries ttl store) = store).
  { unfold fresh, Namespace, New. simpl. by rewrite lookup_empty. }
  split; rewrite ?ns_of_fresh, ?Es; simpl; [done..|].
  rewrite lru_New_view. apply map_empty_subseteq.
Qed.
(** The operations that open the namespace. *)
Definition opens (o : cache_op) : bool :=
  match o with CGet _ _ | CSet _ _ _ _ => true | _ => false end.
Lemma fresh_first_step name maxEntries ttl store o :
  kv_ok store ("cache_" +:+ name) = true -> opens o = true ->
  let r := cache_step name (fresh name maxEntries ttl store) o in
  let a := abs_cache_step (kv_view store ("cache_" +:+ name)) o in
  r.1 = a.1 /\ cache_sim name r.2 a.2.
Proof.
  intros Hok Ho. cbv zeta. set (ns := "cache_" +:+ name).
  set (cp := fresh name maxEntries ttl store).
  assert (Es : cp_store cp = store).
  { unfold cp, fresh, Namespace, New. simpl. by rewrite lookup_empty. }
  assert (En : ns_of name cp = new_ns name maxEntries ttl) by apply ns_of_fresh.
  destruct (kv_touch_update store ns) as [Tv _ Tk _].
  destruct o as [key now|key value t now| | |]; try discriminate Ho; clear Ho;
    cbn [cache_step abs_cache_step fst snd].
  - unfold cache_Get, get_l1. rewrite En. simpl.
    pose proof (lru_Get_view now key (lru_New maxEntries ttl)) as Hv.
    pose proof (lru_Get_some now key (lru_New maxEntries ttl)) as Hs.
    destruct (lru_Get now key (lru_New maxEntries ttl)) as [val l]. simpl in *.
    rewrite lru_New_view in Hv, Hs.
    destruct val as [val|]; [specialize (Hs val eq_refl); by rewrite lookup_empty in Hs|].
    assert (Hsim : cache_sim name (set_store (kv_touch store ns) (set_l1 name l cp)) (kv_view store ns)).
    { assert (E : ns_of name (set_store (kv_touch store ns) (set_l1 name l cp))
                  = mkNsCache l (l2Prefix (ns_of name cp))) by exact (ns_of_set_l1 name l cp).
      split; rewrite ?E; simpl; [by rewrite En|by rewrite Tk|by apply kv_touch_open|done|].
      etransitivity; [exact Hv|apply map_empty_subseteq]. }
    unfold get_l2. rewrite ns_of_set_l1, En. simpl. rewrite Es. fold ns. rewrite kv_Get_ok by done.
    destruct (kv_view store ns !! key) as [raw|] eqn:Ek; simpl; [|done].
    split; [done|]. by apply backfill_sim.
  - split; [done|]. unfold cache_Set. rewrite ns_of_set_l1, En. simpl. rewrite Es. fold ns.
    destruct (kv_Set_ok store ns key value Hok) as (s & -> & [Sv _ Sk _] & So).
    set (l := lru_Add now key value _).
    assert (E : ns_of name (set_store s (set_l1 name l cp)) = mkNsCache l (l2Prefix (ns_of name cp)))
      by exact (ns_of_set_l1 name l cp).
    cbn [snd]. split; rewrite ?E; simpl; [by rewrite En|by rewrite Sk|done|done|].
    etransitivity; [apply lru_Add_view|]. rewrite lru_New_view.
    apply insert_mono, map_empty_subseteq.
Qed.

(** C17: A cache whose store namespace is open, or is opened by its first operation, a
    read or a write, answers every sequence of reads, writes, deletions, prefix
    invalidations and warm-ups as a plain map would that starts with the contents of
    that namespace, whatever the LRU evicts or lets expire and whatever its capacity and
    TTL.  The other case is [fresh_delete_serves_stale]. *)
Theorem cache_is_map name maxEntries ttl store o ops :
  kv_ok store ("cache_" +:+ name) = true ->
  opens o = true \/ kv_is_open store ("cache_" +:+ name) = true ->
  cache_run (cache_step name) (fresh name maxEntries ttl store) (o :: ops)
  = cache_run abs_cache_step (kv_view store ("cache_" +:+ name)) (o :: ops).
Proof.
  intros Hok [Ho|Hop]; [|by apply cache_run_sim, fresh_sim].
  destruct (fresh_first_step name maxEntries ttl store o Hok Ho) as [E Hs]. cbn [cache_run].
  destruct (cache_step _ _ o) as [out cp], (abs_cache_step _ o) as [out' m]. simpl in *.
  subst out'. f_equal. by apply cache_run_sim.
Qed.

(** In a process that has not yet read or written the namespace, deleting a key, or
    invalidating any prefix of it, reports success and deletes nothing: the next read
    returns the old value. *)
Theorem fresh_delete_serves_stale name maxEntries ttl store o key value now :
  kv_ok store ("cache_" +:+ name) = true -> kv_is_open store ("cache_" +:+ name) = false ->
  kv_view store ("cache_" +:+ name) !! key = Some value ->
  o = CDelete key \/ (exists pre, o = CInvalidate pre) ->
  (cache_step name (cache_step name (fresh name maxEntries ttl store) o).2 (CGet key now)).1
  = Some value.
Proof.
  intros Hok Hcl Hv Ho. set (cp := fresh name maxEntries ttl store).
  assert (exists l, lru_view l = ∅ /\ (cache_step name cp o).2 = set_store store (set_l1 name l cp))
    as (l & Hl & ->).
  { assert (Es : cp_store cp = store).
    { unfold cp, fresh, Namespace, New. simpl. by rewrite lookup_empty. }
    destruct Ho as [->|[pre ->]]; cbn [cache_step snd].
    - exists (lru_Remove key (lru_New maxEntries ttl)). split.
      + pose proof (lru_Remove_view key (lru_New maxEntries ttl)) as Hr.
        rewrite lru_New_view, delete_empty in Hr. apply (anti_symm (⊆)); [done|].
        apply map_empty_subseteq.
      + unfold cache_Delete, cp. rewrite ns_of_set_l1, ns_of_fresh. simpl. fold cp.
        by rewrite Es, kv_Delete_closed.
    - exists (lru_Purge (lru_New maxEntries ttl)). split; [apply lru_Purge_view|].
      unfold InvalidateByPrefix, cp. rewrite ns_of_set_l1, ns_of_fresh. simpl. fold cp.
      by rewrite Es, kv_DeleteByPrefix_closed. }
  cbn [cache_step]. unfold cache_Get, get_l1.
  assert (En : ns_of name (set_store store (set_l1 name l cp)) = mkNsCache l ("cache_" +:+ name)).
  { unfold cp. etransitivity; [exact (ns_of_set_l1 name l _)|]. by rewrite ns_of_fresh. }
  rewrite En. simpl. pose proof (lru_Get_some now key l) as Hs.
  destruct (lru_Get now key l) as [[val|] l']; simpl in *;
    [specialize (Hs val eq_refl); by rewrite Hl, lookup_empty in Hs|].
  unfold get_l2. rewrite ns_of_set_l1, En. simpl. rewrite kv_Get_ok, Hv by done. done.
Qed.
End Facts.

(** ** A concrete LRU, for evaluation *)

Record list_lru := mkLru { ll_max : Z; ll_ttl : Z; ll_entries : list (string * (string * Z)) }.
Definition ll_drop (key : string) (es : list (string * (string * Z))) :=
  List.filter (fun e => negb (String.eqb e.1 key)) es.
Definition ll_map (es : list (string * (string * Z))) : gmap string string :=
  list_to_map (map (fun e => (e.1, e.2.1)) es).
Lemma ll_drop_map key es : ll_map (ll_drop key es) = delete key (ll_map es).
Proof.
  unfold ll_map, ll_drop. induction es as [|[k [v t]] es IH]; simpl; [by rewrite delete_empty|].
  destruct (String.eqb_spec k key) as [->|Hne]; simpl; rewrite IH.
  - by rewrite delete_insert_eq.
  - by rewrite delete_insert_ne.
Qed.
Lemma ll_take_map n es : ll_map (take n es) ⊆ ll_map es.
Proof.
  revert n. induction es as [|[k [v t]] es IH]; intros [|n]; simpl; [done|done| |].
  - apply map_empty_subseteq.
  - apply insert_mono, IH.
Qed.

(** The entries in order of use; a capacity or TTL of 0 is no limit. *)
#[refine] Definition list_LRU : LRU := {|
  lru := list_lru;
  lru_view l := ll_map (ll_entries l);
  lru_New m t := mkLru m t [];
  lru_Get now key l :=
    match List.find (fun e => String.eqb e.1 key) (ll_entries l) with
    | Some (_, (v, expiry)) =>
        if (0 <? ll_ttl l) && (expiry <=? now)
        then (None, mkLru (ll_max l) (ll_ttl l) (ll_drop key (ll_entries l)))
        else (Some v, mkLru (ll_max l) (ll_ttl l) ((key, (v, expiry)) :: ll_drop key (ll_entries l)))
    | None => (None, l)
    end;
  lru_Add now key v l :=
    let es := (key, (v, now + ll_ttl l)) :: ll_drop key (ll_entries l) in
    mkLru (ll_max l) (ll_ttl l) (if 0 <? ll_max l then take (Z.to_nat (ll_max l)) es else es);
  lru_Remove key l := mkLru (ll_max l) (ll_ttl l) (ll_drop key (ll_entries l));
  lru_Purge l := mkLru (ll_max l) (ll_ttl l) [] |}.
Proof.
  - done.
  - intros now key l v. destruct (List.find _ _) as [[k [v' t]]|] eqn:E; [|done].
    destruct (_ && _); [done|]. intros [= ->]. unfold ll_map.
    induction (ll_entries l) as [|[k' [v'' t']] es IH]; [done|]. simpl in *.
    destruct (String.eqb_spec k' key) as [->|Hne].
    + injection E as <- <- <-. by rewrite lookup_insert_eq.
    + rewrite lookup_insert_ne by done. by apply IH.
  - intros now key l. destruct (List.find _ _) as [[k [v t]]|] eqn:E; [|done].
    destruct (_ && _); simpl; [rewrite ll_drop_map; apply delete_subseteq|].
    change (ll_map ((key, (v, t)) :: ?x)) with (<[key := v]> (ll_map x)).
    rewrite ll_drop_map, insert_delete_eq.
    assert (ll_map (ll_entries l) !! key = Some v) as Hv; [|by rewrite (insert_id _ _ _ Hv)].
    clear -E. unfold ll_map. induction (ll_entries l) as [|[k' [v'' t']] es IH]; [done|]. simpl in *.
    destruct (String.eqb_spec k' key) as [->|Hne].
    + injection E as <- <- <-. by rewrite lookup_insert_eq.
    + rewrite lookup_insert_ne by done. by apply IH.
  - intros now key v l. simpl.
    assert (E : ll_map ((key, (v, now + ll_ttl l)) :: ll_drop key (ll_entries l))
                = <[key := v]> (ll_map (ll_entries l))).
    { change (ll_map ((key, (v, ?t)) :: ?x)) with (<[key := v]> (ll_map x)).
      by rewrite ll_drop_map, insert_delete_eq. }
    rewrite <- E. destruct (0 <? ll_max l); [apply ll_take_map|done].
  - intros key l. simpl. by rewrite ll_drop_map.
  - done.
Defined.

(** ** Examples *)

#[local] Existing Instance list_LRU.
#[local] Existing Instance sample_ops_inst.
#[local] Existing Instance sample_store_inst.

(** A store left by an earlier process, its databases closed. *)
Definition store_on_disk : sample_store :=
  NewPebbleStore (PB := mem_Pebble) "data" {["cache_u" := ({["k" := "old"; "k2" := "v2"]}, true)]}.
Lemma cache_is_map_witness :
  cache_run (cache_step "u") (fresh "u" 1 10 store_on_disk)
    [CGet "k" 0; CSet "a" "1" 10 1; CSet "b" "2" 10 2; CGet "a" 3; CDelete "b"; CGet "b" 4;
     CInvalidate "k"; CGet "k2" 5; CGet "a" 100]
  = [Some "old"; None; None; Some "1"; None; None; None; None; Some "1"].
Proof.
  rewrite (cache_is_map "u" 1 10 store_on_disk); [by vm_compute|by vm_compute|by left].
Defined.
Lemma fresh_delete_serves_stale_witness :
  (cache_step "u" (cache_step "u" (fresh "u" 5 10 store_on_disk) (CInvalidate "k")).2 (CGet "k" 1)).1
  = Some "old".
Proof.
  apply (fresh_delete_serves_stale "u" 5 10 store_on_disk (CInvalidate "k") "k" "old" 1);
    [by vm_compute|by vm_compute|by vm_compute|]. right. by exists "k".
Defined.

(** Nothing orders a [Delete] against a [Get]: when it runs between the read of L2 and
    the backfill, the deleted value stays readable from L1. *)
Lemma delete_during_get :
  let cp := (cache_Get "u" "none" 0 (fresh "u" 5 10 store_on_disk)).2 in
  let '(hit, cp) := get_l1 "u" "k" 1 cp in
  let '(raw, cp) := get_l2 "u" "k" cp in
  let cp := (cache_Delete "u" "k" cp).2 in
  hit = None /\ raw = Some "old"
  /\ kv_view (cp_store (backfill "u" "k" 1 "old" cp)) "cache_u" !! "k" = None
  /\ (cache_Get "u" "k" 2 (backfill "u" "k" 1 "old" cp)).1 = Some "old".
Proof. by vm_compute. Qed.
(** A write that the store refuses is reported as an error and still answers reads. *)
Lemma failed_set_is_readable :
  let store := NewPebbleStore (PB := mem_Pebble) "data" {["cache_u" := (∅, false)]} in
  let '(r, cp) := cache_Set "u" "k" "v" 10 0 (fresh "u" 5 10 store) in
  is_ok r = false /\ (cache_Get "u" "k" 1 cp).1 = Some "v".
Proof. by vm_compute. Qed.
