(* ===== verification/Frames.v ===== *)
(** * Frames: what a handler leaves alone, and what it depends on

    The aggregators share one store and each keeps to namespaces of its own.  Two
    calculi over the handlers say so: [frame], that a handler changes no namespace
    but its own, and [same], that it does the same, and answers the same, on any two
    stores that agree on its own namespaces, whatever else they hold and however they
    are implemented. *)

From S2P Require Import Prelude GoText Json Storage Aggregator Effects Cache.
Open Scope handler_scope.

(** Membership in an explicit list. *)
Ltac in_list := solve [repeat (first [left; reflexivity | right])].

(** ** Frames *)

Section Frame.
Context {St : Type} {KV : KVOps St} {KVS : KVStore St}.
Definition kept (ns : string) (s s' : St) : Prop := kv_view s' ns = kv_view s ns /\ kv_ok s' ns = kv_ok s ns.
(** [I] is what the handler relies on besides the contents of the store; accesses to
    the store do not touch it. *)
Class StoreInv (I : St -> Prop) : Prop := {
  si_Set s ns k v s' : I s -> kv_Set s ns k v = Ok s' -> I s';
  si_Delete s ns k s' : I s -> kv_Delete s ns k = Ok s' -> I s';
  si_touch s ns : I s -> I (kv_touch s ns) }.
Context (I : St -> Prop) {SI : StoreInv I} (own : list string).

Definition own_ok (s : St) : Prop := forall ns, ns ∈ own -> kv_ok s ns = true.
Definition moves (s s' : St) : Prop :=
  I s -> own_ok s -> I s' /\ (forall ns, ns ∉ own -> kept ns s s') /\ forall ns, kv_ok s' ns = kv_ok s ns.
Definition frame {A} (c : M St A) : Prop := forall s, moves s (c s).2.

Lemma moves_refl s : moves s s.
Proof. by repeat split. Qed.
Lemma moves_trans s s1 s2 : moves s s1 -> moves s1 s2 -> moves s s2.
Proof.
  intros H1 H2 HI HO. destruct (H1 HI HO) as (I1 & K1 & O1).
  destruct (H2 I1) as (I2 & K2 & O2); [intros ns Hns; by rewrite O1; auto|].
  split; [done|]. split; [|intros ns; by rewrite O2].
  intros ns Hns. destruct (K1 ns Hns) as [V1 _], (K2 ns Hns) as [V2 _]. split; [congruence|by rewrite O2].
Qed.
Lemma moves_update s ns m s' : ns ∈ own -> (I s -> I s') -> kv_update s ns m s' -> moves s s'.
Proof.
  intros Hns HI [Hv Ho Hk _] Hs _. split; [by apply HI|]. split; [|done]. intros ns' Hns'.
  split; [apply Ho; by intros ->|apply Hk].
Qed.
Lemma frame_ret {A} (a : A) : frame (hret a).
Proof. intros s. apply moves_refl. Qed.
Lemma frame_fail {A} e : frame (hfail (A := A) e).
Proof. intros s. apply moves_refl. Qed.
Lemma frame_get {A} (f : St -> A) : frame (hget f).
Proof. intros s. apply moves_refl. Qed.
Lemma frame_res {A} (f : St -> res A) : frame (hres f).
Proof. intros s. apply moves_refl. Qed.
Lemma frame_bind {A B} (c : M St A) (k : A -> M St B) : frame c -> (forall a, frame (k a)) -> frame (hbind c k).
Proof.
  intros Hc Hk s. unfold hbind. specialize (Hc s). destruct (c s) as [[a|e] s1]; [|done].
  eapply moves_trans; [exact Hc|apply Hk].
Qed.
Lemma frame_try (c : M St unit) : frame c -> frame (htry c).
Proof. intros Hc s. unfold htry. specialize (Hc s). by destruct (c s) as [[] s1]. Qed.
Lemma frame_fold {A B} (f : B -> A -> M St B) (l : list A) b : (forall b a, frame (f b a)) -> frame (hfold f l b).
Proof.
  intros Hf. revert b. induction l as [|a l IH]; intros b; [apply frame_ret|]. by apply frame_bind.
Qed.
Lemma frame_when b c : frame c -> frame (hwhen b c).
Proof. intros. destruct b; [done|apply frame_ret]. Qed.
Lemma frame_put ns k v : ns ∈ own -> frame (kv_put ns k v).
Proof.
  intros Hns s HI HO. destruct (kv_Set_ok s ns k v (HO ns Hns)) as (s' & E & Hu & _).
  unfold kv_put. rewrite E. revert HI HO. eapply moves_update; [done|intros; by eapply si_Set|exact Hu].
Qed.
Lemma frame_save {A} {J : JSON A} ns k (a : A) : ns ∈ own -> frame (save ns k a).
Proof. apply (frame_put ns k (json_Marshal a)). Qed.
Lemma frame_del ns k : ns ∈ own -> frame (kv_del ns k).
Proof.
  intros Hns s HI HO. unfold kv_del. destruct (kv_is_open s ns) eqn:Ho.
  - destruct (kv_Delete_ok s ns k (HO ns Hns) Ho) as (s' & E & Hu). rewrite E.
    revert HI HO. eapply moves_update; [done|intros; by eapply si_Delete|exact Hu].
  - rewrite kv_Delete_closed by done. by apply moves_refl.
Qed.
Lemma moves_touch ns s : ns ∈ own -> moves s (kv_touch s ns).
Proof. intros Hns. eapply moves_update; [done|apply si_touch|apply kv_touch_update]. Qed.
Lemma frame_fetch ns k : ns ∈ own -> frame (fetch ns k).
Proof. intros Hns s. by apply moves_touch. Qed.
Lemma frame_put_empty ns ks : ns ∈ own -> frame (put_empty ns ks).
Proof.
  intros Hns. induction ks as [|k ks IH]; [apply frame_ret|]. apply frame_bind; [by apply frame_put|done].
Qed.
Lemma frame_del_all ns ks : ns ∈ own -> frame (del_all ns ks).
Proof.
  intros Hns. induction ks as [|k ks IH]; [apply frame_ret|]. apply frame_bind; [by apply frame_del|done].
Qed.
End Frame.
#[export] Instance no_invariant {St} {KV : KVOps St} : StoreInv (fun _ : St => True).
Proof. by split. Qed.

Create HintDb frames.
#[export] Hint Resolve frame_ret frame_fail frame_get frame_res frame_try frame_fold frame_when : frames.
#[export] Hint Extern 1 (_ ∈ _ :: _) => in_list : frames.
#[export] Hint Extern 2 (frame _ _ _) =>
  first [apply frame_put|apply frame_save|apply frame_del|apply frame_fetch|apply frame_put_empty|apply frame_del_all];
  solve [typeclasses eauto|in_list] : frames.
(** Splits a handler into its steps. *)
Ltac frame_steps :=
  repeat first
    [ match goal with |- forall _, _ => intros ? end
    | match goal with
      | |- frame _ _ (hbind _ _) => apply frame_bind
      | |- frame _ _ (hfold _ _ _) => apply frame_fold
      | |- frame _ _ (htry _) => apply frame_try
      | |- frame _ _ (match ?x with _ => _ end) => destruct x
      end
    | solve [auto with frames] ].

(** ** Two runs *)

Section Same.
Context {S1 : Type} {KV1 : KVOps S1} {KVS1 : KVStore S1} {S2 : Type} {KV2 : KVOps S2} {KVS2 : KVStore S2}.
Context (own : list string).

(** The two stores hold the same in the namespaces [own], healthy in both; those of [opened]
    are open in both. *)
Definition agree (opened : list string) (s1 : S1) (s2 : S2) : Prop :=
  forall ns, ns ∈ own -> kv_ok s1 ns = true /\ kv_ok s2 ns = true /\ kv_view s1 ns = kv_view s2 ns
    /\ (ns ∈ opened -> kv_is_open s1 ns = true /\ kv_is_open s2 ns = true).
Lemma agree_weaken opened opened' s1 s2 : opened' ⊆ opened -> agree opened s1 s2 -> agree opened' s1 s2.
Proof. intros Hsub H ns Hns. destruct (H ns Hns) as (?&?&?&?). split_and!; auto. Qed.
Lemma agree_update opened s1 s2 ns f s1' s2' :
  agree opened s1 s2 -> kv_update s1 ns (f (kv_view s1 ns)) s1' -> kv_update s2 ns (f (kv_view s2 ns)) s2' ->
  agree opened s1' s2'.
Proof.
  intros H [V1 O1 K1 P1] [V2 O2 K2 P2] n Hn. destruct (H n Hn) as (A1 & A2 & Av & Ao).
  rewrite K1, K2. split_and!; [done|done| |intros Hop; destruct (Ao Hop); auto].
  destruct (decide (n = ns)) as [->|Hne]; [by rewrite V1, V2, Av|by rewrite O1, O2].
Qed.
Lemma agree_touch opened s1 s2 ns :
  ns ∈ own -> agree opened s1 s2 -> agree (ns :: opened) (kv_touch s1 ns) (kv_touch s2 ns).
Proof.
  intros Hns H n Hn.
  assert (H' : agree opened (kv_touch s1 ns) (kv_touch s2 ns))
    by (apply (agree_update opened s1 s2 ns (fun m => m)); [done|apply kv_touch_update..]).
  destruct (H' n Hn) as (A1 & A2 & Av & Ao). split_and!; [done..|].
  intros [->|Hop]%elem_of_cons; [|by apply Ao]. destruct (H ns Hns) as (B1 & B2 & _).
  split; by apply kv_touch_open.
Qed.

Section Steps.
Context (opened : list string).
Definition same {A} (c1 : M S1 A) (c2 : M S2 A) : Prop :=
  forall s1 s2, agree opened s1 s2 -> (c1 s1).1 = (c2 s2).1 /\ agree opened (c1 s1).2 (c2 s2).2.
(** Two reads with the same answer. *)
Definition same_read {A} (f1 : S1 -> A) (f2 : S2 -> A) : Prop :=
  forall s1 s2, agree opened s1 s2 -> f1 s1 = f2 s2.

Lemma agree_Get s1 s2 ns k : agree opened s1 s2 -> ns ∈ own -> kv_Get s1 ns k = kv_Get s2 ns k.
Proof. intros H Hns. destruct (H ns Hns) as (?&?&E&_). by rewrite !kv_Get_ok, E. Qed.
Lemma agree_Scan s1 s2 ns p : agree opened s1 s2 -> ns ∈ own -> kv_Scan s1 ns p = kv_Scan s2 ns p.
Proof. intros H Hns. destruct (H ns Hns) as (?&?&E&_). by rewrite !kv_Scan_ok, E. Qed.

Lemma same_ret {A} (a : A) : same (hret a) (hret a).
Proof. by intros s1 s2 H. Qed.
Lemma same_fail {A} e : same (hfail (A := A) e) (hfail e).
Proof. by intros s1 s2 H. Qed.
Lemma same_get {A} (f1 : S1 -> A) f2 : same_read f1 f2 -> same (hget f1) (hget f2).
Proof. intros Hf s1 s2 H. split; [|done]. unfold hget. cbn [fst]. f_equal. by apply Hf. Qed.
Lemma same_bind {A B} (c1 : M S1 A) c2 (k1 : A -> M S1 B) k2 :
  same c1 c2 -> (forall a, same (k1 a) (k2 a)) -> same (hbind c1 k1) (hbind c2 k2).
Proof.
  intros Hc Hk s1 s2 H. unfold hbind. destruct (Hc s1 s2 H) as [E H'].
  destruct (c1 s1) as [r1 s1'], (c2 s2) as [r2 s2']. cbn [fst snd] in *. subst r2.
  destruct r1 as [a|e]; [by apply Hk|done].
Qed.
Lemma same_try (c1 : M S1 unit) c2 : same c1 c2 -> same (htry c1) (htry c2).
Proof.
  intros Hc s1 s2 H. unfold htry. destruct (Hc s1 s2 H) as [E H'].
  destruct (c1 s1) as [r1 s1'], (c2 s2) as [r2 s2']. cbn [fst snd] in *. subst r2. by destruct r1.
Qed.
Lemma same_fold {A B} (f1 : B -> A -> M S1 B) f2 (l : list A) b :
  (forall b a, same (f1 b a) (f2 b a)) -> same (hfold f1 l b) (hfold f2 l b).
Proof.
  intros Hf. revert b. induction l as [|a l IH]; intros b; [apply same_ret|]. by apply same_bind.
Qed.
Lemma same_when b c1 c2 : same c1 c2 -> same (hwhen b c1) (hwhen b c2).
Proof. intros. destruct b; [done|apply same_ret]. Qed.
Lemma same_put ns k v : ns ∈ own -> same (kv_put ns k v) (kv_put ns k v).
Proof.
  intros Hns s1 s2 H. destruct (H ns Hns) as (H1 & H2 & _).
  destruct (kv_Set_ok s1 ns k v H1) as (s1' & E1 & U1 & _), (kv_Set_ok s2 ns k v H2) as (s2' & E2 & U2 & _).
  unfold kv_put. rewrite E1, E2. split; [done|]. by apply (agree_update opened s1 s2 ns (<[k := v]>)).
Qed.
Lemma same_save {A} {J : JSON A} ns k (a : A) : ns ∈ own -> same (save ns k a) (save ns k a).
Proof. apply (same_put ns k (json_Marshal a)). Qed.
Lemma same_del ns k : ns ∈ own -> ns ∈ opened -> same (kv_del ns k) (kv_del ns k).
Proof.
  intros Hns Hop s1 s2 H. destruct (H ns Hns) as (H1 & H2 & _ & Ho). destruct (Ho Hop) as [O1 O2].
  destruct (kv_Delete_ok s1 ns k H1 O1) as (s1' & E1 & U1), (kv_Delete_ok s2 ns k H2 O2) as (s2' & E2 & U2).
  unfold kv_del. rewrite E1, E2. split; [done|]. by apply (agree_update opened s1 s2 ns (delete k)).
Qed.
End Steps.
(** A first access that opens the namespace, at least when it answers an [a] with [opens a]. *)
Lemma same_opening {A B} (opens : A -> bool) opened ns (c1 : M S1 A) c2 (k1 : A -> M S1 B) k2 :
  (forall s1 s2, agree opened s1 s2 -> (c1 s1).1 = (c2 s2).1 /\ agree opened (c1 s1).2 (c2 s2).2
     /\ forall a, (c1 s1).1 = Ok a -> opens a = true -> agree (ns :: opened) (c1 s1).2 (c2 s2).2) ->
  (forall a, same (if opens a then ns :: opened else opened) (k1 a) (k2 a)) ->
  same opened (hbind c1 k1) (hbind c2 k2).
Proof.
  intros Hc Hk s1 s2 H. unfold hbind. destruct (Hc s1 s2 H) as (E & H' & Ho).
  destruct (c1 s1) as [r1 s1'], (c2 s2) as [r2 s2']. cbn [fst snd] in *. subst r2.
  destruct r1 as [a|e]; [|done]. specialize (Ho a eq_refl). specialize (Hk a s1' s2').
  destruct (opens a); [|by apply Hk]. destruct (Hk (Ho eq_refl)) as [? Hk']. split; [done|].
  eapply agree_weaken; [|exact Hk']. intros x Hx. by right.
Qed.
Lemma same_opened {A B} opened ns (c1 : M S1 A) c2 (k1 : A -> M S1 B) k2 :
  (forall s1 s2, agree opened s1 s2 -> (c1 s1).1 = (c2 s2).1 /\ agree (ns :: opened) (c1 s1).2 (c2 s2).2) ->
  (forall a, same (ns :: opened) (k1 a) (k2 a)) -> same opened (hbind c1 k1) (hbind c2 k2).
Proof.
  intros Hc Hk. apply (same_opening (fun _ => true) opened ns); [|done]. intros s1 s2 H.
  destruct (Hc s1 s2 H) as [E H']. split_and!; [done| |done].
  eapply agree_weaken; [|exact H']. intros x Hx. by right.
Qed.
(** [fetch] opens its namespace. *)
Lemma fetch_opens opened ns k s1 s2 :
  ns ∈ own -> agree opened s1 s2 ->
  (fetch ns k s1).1 = (fetch ns k s2).1 /\ agree (ns :: opened) (fetch ns k s1).2 (fetch ns k s2).2.
Proof.
  intros Hns H. apply (agree_touch _ _ _ ns) in H; [|done]. split; [|exact H].
  unfold fetch. cbn [fst]. by rewrite (agree_Get _ _ _ _ _ H).
Qed.
Lemma same_fetch opened ns k : ns ∈ own -> same opened (fetch ns k) (fetch ns k).
Proof.
  intros Hns s1 s2 H. destruct (fetch_opens opened ns k s1 s2 Hns H) as [E H']. split; [done|].
  eapply agree_weaken; [|exact H']. intros x Hx. by right.
Qed.
Lemma same_put_empty opened ns ks : ns ∈ own -> same opened (put_empty ns ks) (put_empty ns ks).
Proof.
  intros Hns. induction ks as [|k ks IH]; [apply same_ret|]. apply same_bind; [by apply same_put|done].
Qed.
Lemma same_del_all opened ns ks : ns ∈ own -> ns ∈ opened -> same opened (del_all ns ks) (del_all ns ks).
Proof.
  intros Hns Ho. induction ks as [|k ks IH]; [apply same_ret|]. apply same_bind; [by apply same_del|done].
Qed.
End Same.

Create HintDb same.
#[export] Hint Resolve same_ret same_fail same_get same_try same_fold same_when same_put same_save same_del
  same_fetch same_put_empty same_del_all : same.
#[export] Hint Extern 1 (_ ∈ _ :: _) => in_list : same.
(** Splits a pair of handlers into their steps. *)
Ltac same_steps :=
  repeat first
    [ match goal with |- forall _, _ => intros ? end
    | match goal with
      | |- same _ _ (hbind _ _) _ => apply same_bind
      | |- same _ _ (hfold _ _ _) _ => apply same_fold
      | |- same _ _ (htry _) _ => apply same_try
      | |- same _ _ (match ?x with _ => _ end) _ => destruct x
      end
    | solve [auto with same] ].
(** Reads that get and scan. *)
Ltac same_reads :=
  match goal with
  | H : agree _ _ ?s1 ?s2 |- _ =>
      repeat first [ rewrite (agree_Get _ _ s1 s2 _ _ H) by in_list
                   | rewrite (agree_Scan _ _ s1 s2 _ _ H) by in_list ]
  end.
