(* ===== verification/HttpApi.v ===== *)
(** * HttpApi: requests and answers of the HTTP endpoints

    [internal/api/response.go], the query parameters as [gin] hands them over, and
    [strconv.ParseInt] with its error dropped, as the handlers use it.  A handler is
    a function of the query and the state; gin itself is left out.  A handler that
    can panic returns a [res]: gin's recovery then answers 500. *)

From S2P Require Import Prelude GoText.

(** ** Answers *)

Inductive response (A : Type) : Type :=
| RespSuccess (data : A)
| RespErr (code : Z) (message : string).
Arguments RespSuccess {A} data.
Arguments RespErr {A} code message.
(** [api.RespErr]: the code is never that of a success. *)
Definition resp_err {A} (code : Z) (message : string) : response A :=
  RespErr (if code =? 0 then 1 else code) message.
(** [x, err := f(); if err != nil { api.RespErr(c, 1, message); return }]. *)
Definition resp_or {A B} (r : res A) (message : string) (k : A -> response B) : response B :=
  match r with Ok a => k a | Err _ => resp_err 1 message end.

(** ** Queries

    The query of a request, the values of each key that occurs; a key that occurs
    has a value. *)

Abbreviation Values := (gmap string (list string)).
Definition DefaultQuery (values : Values) (key fallback : string) : string :=
  match values !! key with Some (v :: _) => v | _ => fallback end.
Definition Query (values : Values) (key : string) : string := DefaultQuery values key "".

(** ** Numbers

    [strconv.ParseUint(s, 10, 64)] reads digit by digit and stops at the first
    overflow, before it has seen the rest of the text. *)

Inductive uint_result := UVal (z : Z) | USyntax | URange.
Fixpoint parse_uint (s : string) (acc : Z) : uint_result :=
  match s with
  | "" => UVal acc
  | String c r =>
      match digit_val c with
      | None => USyntax
      | Some d => let n := acc * 10 + d in if n <? 2 ^ 64 then parse_uint r n else URange
      end
  end.
(** [n, _ := strconv.ParseInt(s, 10, 64)], and [strconv.Atoi] alike: zero for what is
    no number, the nearest [int64] for what does not fit. *)
Definition signed (neg : bool) (s : string) : Z * bool :=
  if is_empty s then (0, false) else
  match parse_uint s 0 with
  | USyntax => (0, false)
  | UVal n => if neg then if 2 ^ 63 <? n then (- 2 ^ 63, false) else (- n, true)
              else if n <? 2 ^ 63 then (n, true) else (2 ^ 63 - 1, false)
  | URange => if neg then (- 2 ^ 63, false) else (2 ^ 63 - 1, false)
  end.
(** The value, and whether there is no error. *)
Definition parse_int (s : string) : Z * bool :=
  match s with
  | "" => (0, false)
  | String c r => if Ascii.eqb c "-" then signed true r else if Ascii.eqb c "+" then signed false r else signed false s
  end.
Definition ParseInt (s : string) : Z := (parse_int s).1.
(** [n, err := strconv.Atoi(s)] where the error is looked at. *)
Definition Atoi (s : string) : option Z := let '(n, ok) := parse_int s in if ok then Some n else None.

Lemma parse_uint_range s acc n : 0 <= acc < 2 ^ 64 -> parse_uint s acc = UVal n -> 0 <= n < 2 ^ 64.
Proof.
  revert acc. induction s as [|c s IH]; intros acc Ha; cbn [parse_uint]; [by intros [= <-]|].
  destruct (digit_val c) as [d|] eqn:Ed; [|done]. cbv zeta. destruct (Z.ltb_spec (acc * 10 + d) (2 ^ 64)); [|done].
  apply IH. unfold digit_val in Ed. destruct (_ && _) eqn:Eb; [|done]. injection Ed as <-.
  apply andb_prop in Eb as [E1 E2]. apply Z.leb_le in E1. lia.
Qed.
Lemma signed_range neg s : in_i64 (signed neg s).1.
Proof.
  unfold signed, in_i64. destruct (is_empty s); [by cbn; lia|].
  destruct (parse_uint s 0) as [n| |] eqn:E; [|by cbn; lia|by destruct neg; cbn [fst]; lia].
  apply parse_uint_range in E; [|lia]. destruct neg.
  - destruct (Z.ltb_spec (2 ^ 63) n); cbn [fst]; lia.
  - destruct (Z.ltb_spec n (2 ^ 63)); cbn [fst]; lia.
Qed.
Lemma ParseInt_range s : in_i64 (ParseInt s).
Proof.
  unfold ParseInt, parse_int. destruct s as [|c s]; [by vm_compute|]. repeat case_match; apply signed_range.
Qed.

(** The size of a page: what is out of range, or no number, is replaced. *)
Definition size_or (fallback size : Z) : Z := if (size <? 1) || (100 <? size) then fallback else size.
Definition page_size (values : Values) (key fallback : string) : Z :=
  size_or (ParseInt fallback) (ParseInt (DefaultQuery values key fallback)).
Lemma size_or_range fallback size : 1 <= fallback <= 100 -> 1 <= size_or fallback size <= 100.
Proof. unfold size_or. destruct (Z.ltb_spec size 1), (Z.ltb_spec 100 size); cbn [orb]; lia. Qed.

Example ParseInt_texts :
  map ParseInt [""; "-"; "20"; "-7"; "+3"; " 1"; "1e2"; "9223372036854775808"; "-9223372036854775809";
                "99999999999999999999x"; "x99999999999999999999"]
  = [0; 0; 20; -7; 3; 0; 0; 2 ^ 63 - 1; - 2 ^ 63; 2 ^ 63 - 1; 0].
Proof. vm_compute. reflexivity. Qed.
Example Atoi_texts : map Atoi [""; "+7"; "-0"; "9223372036854775808"] = [None; Some 7; Some 0; None].
Proof. vm_compute. reflexivity. Qed.
