(* ===== verification/Notify.v ===== *)
(** * Notify: the lists of blocked chats

    [internal/aggregator/notify/module.go]: users block and unblock chats over HTTP;
    a list per user is kept in the store.  A request is a parsed body with its
    headers, a response the code and message or the list.  The state is the cache
    provider, which carries the store.  The aggregator's cache is never read. *)

From S2P Require Import Prelude GoText Storage Aggregator Json HttpApi Cache.

Record BlockedChat := mkBlocked {
  bc_ChatID : string; bc_ChatType : string; bc_MetaID : string; bc_Reason : string }.
#[export] Instance BlockedChat_eq_dec : EqDecision BlockedChat.
Proof. solve_decision. Defined.
Record UserBlockedChats := mkUserBlocked {
  ub_UserID : string; ub_BlockedChats : list BlockedChat; ub_UpdatedAt : Z }.
Definition notify_ns : string := "notify".
Definition blockedPrefix : string := "blocked:".
Definition notify_cacheMaxEntries : Z := 1000.
(** Three hundred nanoseconds: the number is no duration of the [time] package. *)
Definition notify_cacheTTL : Z := 5 * 60.
Definition blockedKey (metaID : string) : string := blockedPrefix +:+ metaID.

Record headers := mkHeaders { X_Signature : string; X_Public_Key : string }.

Section Notify.
Context {L : LRU} {St : Type} {KV : KVOps St} {BJ : JSON UserBlockedChats}.
(** [sha256.Sum256] *)
Context (Sum256 : string -> list Z).
Abbreviation W := (CacheProvider St).
Record Aggregator := mkNotify { nf_cache : W; nf_pubKey : string }.

Definition notify_Init (provider : W) : Aggregator :=
  mkNotify (Namespace notify_ns notify_cacheMaxEntries notify_cacheTTL provider) "".
Definition SetPubKey (key : string) (a : Aggregator) : Aggregator := mkNotify (nf_cache a) key.

Definition getBlockedChats (metaID : string) (w : W) : res (option UserBlockedChats) :=
  match kv_Get w notify_ns (blockedKey metaID) with
  | Err _ | Ok None => Ok None
  | Ok (Some raw) => blocked <-? json_Unmarshal raw ;; Ok (Some blocked)
  end.
Definition saveBlockedChats (blocked : UserBlockedChats) : M W unit :=
  save notify_ns (blockedKey (ub_UserID blocked)) blocked.
Definition verifySignature (h : headers) (a : Aggregator) : bool :=
  if is_empty (nf_pubKey a) then true else
  if is_empty (X_Signature h) || is_empty (X_Public_Key h) then false else
  if negb (String.eqb (X_Public_Key h) (nf_pubKey a)) then false else
  String.eqb (X_Signature h) (hex_EncodeToString (Sum256 "metaso.network")).

(** Reading opens the namespace. *)
Definition read_blocked (metaID : string) (a : Aggregator) : res (option UserBlockedChats) * Aggregator :=
  (getBlockedChats metaID (nf_cache a), mkNotify (kv_touch (nf_cache a) notify_ns) (nf_pubKey a)).
Definition handleGetBlockedChats (metaID : string) (a : Aggregator) : response UserBlockedChats * Aggregator :=
  if is_empty metaID then (RespErr 1 "metaId is required", a) else
  match read_blocked metaID a with
  | (Err _, a) => (RespErr 1 "failed to get blocked chats", a)
  | (Ok None, a) => (RespSuccess (mkUserBlocked metaID [] 0), a)
  | (Ok (Some blocked), a) => (RespSuccess blocked, a)
  end.
(** Saves, drops the cached copy, and answers with the list. *)
Definition store_blocked (metaID : string) (blocked : UserBlockedChats) (a : Aggregator) : response UserBlockedChats * Aggregator :=
  match saveBlockedChats blocked (nf_cache a) with
  | (Err _, w) => (RespErr 1 "failed to save", mkNotify w (nf_pubKey a))
  | (Ok _, w) => (RespSuccess blocked, mkNotify (cache_Delete notify_ns (blockedKey metaID) w).2 (nf_pubKey a))
  end.
(** [None] is a body that does not parse; [timestamp] is [c.GetInt64("timestamp")],
    which no middleware sets. *)
Definition handleAddBlockedChat (req : option BlockedChat) (h : headers) (timestamp : Z) (a : Aggregator)
    : response UserBlockedChats * Aggregator :=
  match req with
  | None => (RespErr 1 "invalid request body", a)
  | Some req =>
      if is_empty (bc_ChatID req) || is_empty (bc_MetaID req)
      then (RespErr 1 "chatId and metaId are required", a) else
      if negb (verifySignature h a) then (RespErr 403 "signature verification failed", a) else
      let '(blocked, a) := read_blocked (bc_MetaID req) a in
      let blocked := match blocked with Ok (Some b) => b | _ => mkUserBlocked (bc_MetaID req) [] 0 end in
      if existsb (fun bc => String.eqb (bc_ChatID bc) (bc_ChatID req) && String.eqb (bc_ChatType bc) (bc_ChatType req))
           (ub_BlockedChats blocked)
      then (RespSuccess blocked, a) else
      store_blocked (bc_MetaID req)
        (mkUserBlocked (ub_UserID blocked) (ub_BlockedChats blocked ++ [req]) timestamp) a
  end.
Definition handleRemoveBlockedChat (req : option (string * string)) (h : headers) (timestamp : Z) (a : Aggregator)
    : response UserBlockedChats * Aggregator :=
  match req with
  | None => (RespErr 1 "invalid request body", a)
  | Some (chatID, metaID) =>
      if negb (verifySignature h a) then (RespErr 403 "signature verification failed", a) else
      let '(blocked, a) := read_blocked metaID a in
      match blocked with
      | Ok (Some blocked) =>
          store_blocked metaID
            (mkUserBlocked (ub_UserID blocked)
               (List.filter (fun bc => negb (String.eqb (bc_ChatID bc) chatID)) (ub_BlockedChats blocked)) timestamp) a
      | _ => (RespSuccess (mkUserBlocked metaID [] 0), a)
      end
  end.

(** ** Requests *)

Inductive request :=
| GetBlocked (metaID : string)
| AddBlocked (req : option BlockedChat) (h : headers) (timestamp : Z)
| RemoveBlocked (req : option (string * string)) (h : headers) (timestamp : Z).
Definition handle (r : request) : Aggregator -> response UserBlockedChats * Aggregator :=
  match r with
  | GetBlocked m => handleGetBlockedChats m
  | AddBlocked req h t => handleAddBlockedChat req h t
  | RemoveBlocked req h t => handleRemoveBlockedChat req h t
  end.
Fixpoint serve (rs : list request) (a : Aggregator) : list (response UserBlockedChats) * Aggregator :=
  match rs with
  | [] => ([], a)
  | r :: rs => let '(out, a) := handle r a in let '(outs, a) := serve rs a in (out :: outs, a)
  end.

(** ** The specification: a list per user

    A user's list holds each pair of a chat and a type once, in the order of
    blocking; unblocking a chat drops all its types. *)

Abbreviation lists := (gmap string (list BlockedChat * Z)).
Definition answer (m : string) (s : lists) : response UserBlockedChats :=
  match s !! m with
  | Some (l, t) => RespSuccess (mkUserBlocked m l t)
  | None => RespSuccess (mkUserBlocked m [] 0)
  end.
Definition same_chat (b c : BlockedChat) : Prop := bc_ChatID b = bc_ChatID c /\ bc_ChatType b = bc_ChatType c.
#[export] Instance same_chat_dec b c : Decision (same_chat b c).
Proof. unfold same_chat. apply _. Defined.
Definition spec (authorised : headers -> bool) (r : request) (s : lists) : response UserBlockedChats * lists :=
  match r with
  | GetBlocked m => (if is_empty m then RespErr 1 "metaId is required" else answer m s, s)
  | AddBlocked None _ _ | RemoveBlocked None _ _ => (RespErr 1 "invalid request body", s)
  | AddBlocked (Some b) h t =>
      if is_empty (bc_ChatID b) || is_empty (bc_MetaID b) then (RespErr 1 "chatId and metaId are required", s)
      else if negb (authorised h) then (RespErr 403 "signature verification failed", s)
      else let l := default [] (fst <$> s !! bc_MetaID b) in
           if bool_decide (Exists (same_chat b) l) then (answer (bc_MetaID b) s, s)
           else let s := <[bc_MetaID b := (l ++ [b], t)]> s in (answer (bc_MetaID b) s, s)
  | RemoveBlocked (Some (chat, m)) h t =>
      if negb (authorised h) then (RespErr 403 "signature verification failed", s)
      else match s !! m with
           | None => (answer m s, s)
           | Some (l, _) =>
               let s := <[m := (filter (fun b => bc_ChatID b <> chat) l, t)]> s in (answer m s, s)
           end
  end.
Fixpoint spec_serve (authorised : headers -> bool) (rs : list request) (s : lists) : list (response UserBlockedChats) * lists :=
  match rs with
  | [] => ([], s)
  | r :: rs => let '(out, s) := spec authorised r s in
               let '(outs, s) := spec_serve authorised rs s in (out :: outs, s)
  end.

(** ** The handlers keep a list per user *)

Context {KVS : KVStore St}.
(** The values come out of [encoding/json]: their texts are valid UTF-8. *)
Hypothesis decoded : forall u : UserBlockedChats, json_faithful u.

Record tracks (s : lists) (a : Aggregator) : Prop := {
  tr_ok : kv_ok (nf_cache a) notify_ns = true;
  tr_cache_ok : kv_ok (nf_cache a) "cache_notify" = true;
  tr_prefix : l2Prefix (ns_of notify_ns (nf_cache a)) = "cache_notify";
  tr_lists m : kv_view (nf_cache a) notify_ns !! blockedKey m
    = (fun l => json_Marshal (mkUserBlocked m l.1 l.2)) <$> s !! m }.

Lemma tracks_update s s' a w :
  tracks s a -> kv_update (nf_cache a) notify_ns (kv_view w notify_ns) w ->
  l2Prefix (ns_of notify_ns w) = "cache_notify" ->
  (forall m, kv_view w notify_ns !! blockedKey m = (fun l => json_Marshal (mkUserBlocked m l.1 l.2)) <$> s' !! m) ->
  tracks s' (mkNotify w (nf_pubKey a)).
Proof. intros [H1 H2 H3 H4] [U1 U2 U3 U4] Hp Hl. split; cbn [nf_cache]; [by rewrite U3|by rewrite U3|done|done]. Qed.
Lemma read_blocked_spec s a m :
  tracks s a -> exists a', read_blocked m a
    = (Ok ((fun l => mkUserBlocked m l.1 l.2) <$> s !! m), a') /\ tracks s a' /\ nf_pubKey a' = nf_pubKey a.
Proof.
  intros T. pose proof T as [H1 H2 H3 H4]. unfold read_blocked, getBlockedChats.
  rewrite (kv_Get_ok (nf_cache a)), H4 by done. pose proof (kv_touch_update (nf_cache a) notify_ns) as U.
  assert (Hp : l2Prefix (ns_of notify_ns (kv_touch (nf_cache a) notify_ns)) = "cache_notify") by done.
  set (w := kv_touch (nf_cache a) notify_ns) in *. exists (mkNotify w (nf_pubKey a)). split; [|split; [|done]].
  - f_equal. destruct (s !! m) as [[l t]|]; cbn; [|done]. by rewrite json_roundtrip by apply decoded.
  - apply (tracks_update s s a); [done| |done|intros k; by rewrite (kvu_view _ _ _ _ U)].
    pose proof (kvu_view _ _ _ _ U) as E. by rewrite <- E in U at 1.
Qed.
Lemma cache_Delete_elsewhere key (w : W) :
  kv_ok w "cache_notify" = true -> l2Prefix (ns_of notify_ns w) = "cache_notify" ->
  let w' := (cache_Delete notify_ns key w).2 in
  kv_view w' notify_ns = kv_view w notify_ns /\ (forall ns, kv_ok w' ns = kv_ok w ns)
  /\ (forall ns, kv_is_open w ns = true -> kv_is_open w' ns = true)
  /\ (forall ns, ns <> "cache_notify" -> kv_view w' ns = kv_view w ns)
  /\ l2Prefix (ns_of notify_ns w') = "cache_notify".
Proof.
  intros Hok Hp. unfold cache_Delete. rewrite ns_of_set_l1. cbn [l2Prefix]. rewrite Hp.
  change (cp_store (set_l1 notify_ns (lru_Remove key (l1 (ns_of notify_ns w))) w)) with (cp_store w).
  cbn in Hok. destruct (kv_is_open (cp_store w) "cache_notify") eqn:Ho.
  - destruct (kv_Delete_ok (cp_store w) "cache_notify" key Hok Ho) as (s & -> & [U1 U2 U3 U4]).
    cbn [of_store snd]. rewrite ns_of_next, Hp. cbn. split_and!; try done. by apply U2.
  - rewrite kv_Delete_closed by done. cbn [of_store snd]. rewrite ns_of_next, Hp. by split_and!.
Qed.
Lemma store_blocked_spec s a m l t :
  tracks s a -> exists a', store_blocked m (mkUserBlocked m l t) a = (RespSuccess (mkUserBlocked m l t), a')
    /\ tracks (<[m := (l, t)]> s) a' /\ nf_pubKey a' = nf_pubKey a.
Proof.
  intros T. pose proof T as [H1 H2 H3 H4]. unfold store_blocked, saveBlockedChats. cbn [ub_UserID].
  destruct (save_spec (nf_cache a) notify_ns (blockedKey m) (mkUserBlocked m l t) H1) as (w & Hs & U).
  rewrite Hs. eexists. split; [done|]. split; [|done].
  assert (Hpre : ns_of notify_ns w = ns_of notify_ns (nf_cache a)).
  { unfold save in Hs. cbn in Hs. destruct (kv_Set (cp_store (nf_cache a)) _ _ _); [|done]. by injection Hs as <-. }
  pose proof U as [U1 U2 U3 U4].
  destruct (cache_Delete_elsewhere (blockedKey m) w) as (V1 & V2 & V3 & V4 & V5); [by rewrite U3|by rewrite Hpre|].
  split; cbn [nf_cache]; [by rewrite V2, U3|by rewrite V2, U3|done|].
  intros k. rewrite V1, U1. destruct (decide (k = m)) as [->|Hne]; [by rewrite !lookup_insert_eq|].
  rewrite !lookup_insert_ne; [apply H4|done|].
  intros E. apply Hne. by apply sapp_eq_length in E as [_ ->].
Qed.

Lemma answer_eq s m : answer m s = RespSuccess (default (mkUserBlocked m [] 0) ((fun l => mkUserBlocked m l.1 l.2) <$> s !! m)).
Proof. unfold answer. by destruct (s !! m) as [[l t]|]. Qed.
Lemma filter_chat chat (l : list BlockedChat) :
  List.filter (fun bc => negb (String.eqb (bc_ChatID bc) chat)) l = filter (fun b => bc_ChatID b <> chat) l.
Proof.
  induction l as [|b l IH]; [done|]. rewrite filter_cons. cbn [List.filter]. rewrite IH.
  destruct (String.eqb_spec (bc_ChatID b) chat) as [E|E]; cbn [negb]; by repeat case_decide.
Qed.
Lemma exists_chat req (l : list BlockedChat) :
  existsb (fun bc => String.eqb (bc_ChatID bc) (bc_ChatID req) && String.eqb (bc_ChatType bc) (bc_ChatType req)) l
  = bool_decide (Exists (same_chat req) l).
Proof.
  apply eq_true_iff_eq. rewrite existsb_exists, bool_decide_eq_true, Exists_exists. unfold same_chat.
  split; intros (b & Hb & E); exists b; rewrite <- list_elem_of_In in *; (split; [done|]).
  - apply andb_prop in E as [E1 E2]. apply String.eqb_eq in E1, E2. by split.
  - destruct E as [-> ->]. by rewrite !String.eqb_refl.
Qed.
Lemma handle_spec (authorised : headers -> bool) r s a :
  (forall h, verifySignature h a = authorised h) -> tracks s a ->
  exists a', handle r a = ((spec authorised r s).1, a')
    /\ tracks (spec authorised r s).2 a' /\ nf_pubKey a' = nf_pubKey a.
Proof.
  intros Hv T. destruct r as [m|[b|] h t|[[chat m]|] h t]; cbn [handle spec]; try by exists a.
  - unfold handleGetBlockedChats. destruct (is_empty m); [by exists a|].
    destruct (read_blocked_spec s a m T) as (a' & -> & T' & Hk). exists a'. rewrite answer_eq.
    by destruct (s !! m) as [[l t]|].
  - unfold handleAddBlockedChat. rewrite Hv. destruct (_ || _); [by exists a|]. destruct (negb _); [by exists a|].
    destruct (read_blocked_spec s a (bc_MetaID b) T) as (a' & -> & T' & Hk). cbv zeta.
    set (l := default [] (fst <$> s !! bc_MetaID b)).
    assert (Hl : match (fun l => mkUserBlocked (bc_MetaID b) l.1 l.2) <$> s !! bc_MetaID b with
        | Some x => x | None => mkUserBlocked (bc_MetaID b) [] 0 end
      = mkUserBlocked (bc_MetaID b) l (default 0 (snd <$> s !! bc_MetaID b)))
      by (unfold l; by destruct (s !! bc_MetaID b) as [[]|]).
    rewrite Hl. cbn [ub_BlockedChats ub_UserID]. rewrite exists_chat.
    destruct (bool_decide _) eqn:He.
    + exists a'. rewrite answer_eq. unfold l. by destruct (s !! bc_MetaID b) as [[]|].
    + destruct (store_blocked_spec s a' (bc_MetaID b) (l ++ [b]) t T') as (a2 & -> & T2 & Hk2).
      exists a2. cbn [fst snd]. rewrite answer_eq, lookup_insert_eq. split_and!; [done|done|congruence].
  - unfold handleRemoveBlockedChat. rewrite Hv. destruct (negb _); [by exists a|].
    destruct (read_blocked_spec s a m T) as (a' & -> & T' & Hk).
    destruct (s !! m) as [[l u]|] eqn:E; cbn [fmap option_fmap option_map fst snd ub_BlockedChats ub_UserID].
    + rewrite filter_chat. destruct (store_blocked_spec s a' m (filter (fun b => bc_ChatID b <> chat) l) t T') as (a2 & -> & T2 & Hk2).
      exists a2. cbn [fst snd]. rewrite answer_eq, lookup_insert_eq. split_and!; [done|done|congruence].
    + exists a'. rewrite answer_eq, E. done.
Qed.
Lemma verifySignature_key h a a' : nf_pubKey a' = nf_pubKey a -> verifySignature h a' = verifySignature h a.
Proof. unfold verifySignature. by intros ->. Qed.
Lemma serve_spec authorised rs s a :
  (forall h, verifySignature h a = authorised h) -> tracks s a ->
  (serve rs a).1 = (spec_serve authorised rs s).1 /\ tracks (spec_serve authorised rs s).2 (serve rs a).2.
Proof.
  revert s a. induction rs as [|r rs IH]; intros s a Hv T; [done|]. cbn [serve spec_serve].
  destruct (handle_spec authorised r s a Hv T) as (a' & -> & T' & Hk).
  destruct (spec authorised r s) as [out s']. cbn [fst snd] in *.
  destruct (IH s' a') as [E T2]; [intros h; by rewrite (verifySignature_key h a a')|done|].
  destruct (serve rs a') as [outs a2], (spec_serve authorised rs s') as [outs' s2]. cbn [fst snd] in *. by subst.
Qed.

(** C39: The requests are served from a list of blocked chats per user: whatever the
    requests, every answer is that of the specification, in which a user's list
    holds each pair of a chat and a type once, in the order of blocking, and only
    requests with an accepted signature change it. *)
Theorem blocked_chats_refine rs provider key :
  let a := SetPubKey key (notify_Init provider) in
  cp_namespaces provider !! notify_ns = None -> kv_view provider notify_ns = ∅ ->
  kv_ok provider notify_ns = true -> kv_ok provider "cache_notify" = true ->
  (serve rs a).1 = (spec_serve (fun h => verifySignature h a) rs ∅).1.
Proof.
  intros a Hns Hv Hok Hokc. apply serve_spec; [done|].
  assert (Hw : nf_cache a = mkProvider (cp_store provider)
      (<[notify_ns := new_ns notify_ns notify_cacheMaxEntries notify_cacheTTL]> (cp_namespaces provider)))
    by (cbn; unfold Namespace; by rewrite Hns).
  split; rewrite Hw; [done|done|unfold ns_of; cbn; by rewrite lookup_insert_eq|].
  intros m. cbn in Hv. cbn. by rewrite Hv, !lookup_empty.
Qed.

(** The signature that is accepted is a constant: with the public key, which every
    client sends, anyone can change the list of any user. *)
Lemma signature_is_constant a :
  verifySignature (mkHeaders (hex_EncodeToString (Sum256 "metaso.network")) (nf_pubKey a)) a = true
  \/ Sum256 "metaso.network" = [].
Proof.
  unfold verifySignature. cbn [X_Signature X_Public_Key]. destruct (is_empty (nf_pubKey a)) eqn:E; [by left|].
  rewrite String.eqb_refl. destruct (Sum256 "metaso.network"); [by right|left]. cbn [hex_EncodeToString is_empty orb negb].
  by rewrite String.eqb_refl.
Qed.
(** The aggregator starts without a key, and then accepts every request. *)
Lemma unsigned_accepted provider h : verifySignature h (notify_Init provider) = true.
Proof. done. Qed.
End Notify.

(** ** Examples *)

#[local] Existing Instance list_LRU.
#[local] Existing Instance sample_ops_inst.
#[local] Existing Instance sample_store_inst.
Fixpoint toks_blocked (l : list tok) : option (list BlockedChat) :=
  match l with
  | [] => Some []
  | TS a :: TS b :: TS c :: TS d :: l => cons (mkBlocked a b c d) <$> toks_blocked l
  | _ => None
  end.
Definition blocked_toks (b : BlockedChat) : list tok :=
  [TS (bc_ChatID b); TS (bc_ChatType b); TS (bc_MetaID b); TS (bc_Reason b)].
Lemma toks_blocked_toks l : toks_blocked (mjoin (map blocked_toks l)) = Some l.
Proof.
  induction l as [|[a b c d] l IH]; [done|].
  change (mjoin (map blocked_toks (mkBlocked a b c d :: l)))
    with (TS a :: TS b :: TS c :: TS d :: mjoin (map blocked_toks l)).
  cbn [toks_blocked]. by rewrite IH.
Qed.
#[local] Instance blocked_JSON : JSON UserBlockedChats :=
  via_JSON (fun u => TS (ub_UserID u) :: TZ (ub_UpdatedAt u) :: mjoin (map blocked_toks (ub_BlockedChats u)))
    (fun l => match l with TS i :: TZ t :: l => (fun b => mkUserBlocked i b t) <$> toks_blocked l | _ => None end).
Lemma blocked_faithful (u : UserBlockedChats) : json_faithful u.
Proof. destruct u. cbn. by rewrite toks_blocked_toks. Qed.
Definition no_headers : headers := mkHeaders "" "".
Definition block (chat type who : string) : request :=
  AddBlocked (Some (mkBlocked chat type who "")) no_headers 0.
Definition sample_requests : list request :=
  [block "c1" "group" "bob"; block "c1" "private" "bob"; block "c1" "group" "bob"; block "c2" "group" "eve";
   GetBlocked "bob"; RemoveBlocked (Some ("c1", "bob")) no_headers 0; GetBlocked "bob"; GetBlocked "eve"].
Definition sample_digest (_ : string) : list Z := [1; 2].
Definition sample_provider : CacheProvider sample_store := New (NewPebbleStore (PB := mem_Pebble) "data" ∅).

Lemma blocked_chats_refine_witness :
  (serve sample_digest sample_requests (SetPubKey "" (notify_Init sample_provider))).1
  = (spec_serve (fun h => verifySignature sample_digest h (SetPubKey "" (notify_Init sample_provider)))
       sample_requests ∅).1.
Proof.
  apply (blocked_chats_refine sample_digest blocked_faithful sample_requests sample_provider "");
    [apply lookup_empty|vm_compute; reflexivity..].
Defined.
(** Unblocking a private chat unblocks the group of the same id. *)
Example unblock_ignores_type :
  last (serve sample_digest (take 7 sample_requests) (notify_Init sample_provider)).1
  = Some (RespSuccess (mkUserBlocked "bob" [] 0)).
Proof. vm_compute. reflexivity. Qed.
