(* ===== verification/Engine.v ===== *)
(** * Engine: the indexing engine ([internal/indexer/engine.go])

    Block scanning, mempool polling with deduplication, and the persisted scan
    heights.  Chains and indexers ([chain.Chain], [chain.Indexer]) do network
    I/O: what they answer at the time of a call is an argument ([ChainEnv]).
    The aggregators behind the registry share the store with the engine; [X] is
    whatever else they own. *)

From S2P Require Import Prelude GoText Json Storage Aggregator.

(** What the node of a chain answers while a call runs; [Tx] is the type of the
    transactions that the chain hands to its indexer. *)
Record ChainEnv {Tx : Type} := mkEnv {
  ce_InitChain : option error;
  ce_InitIndexer : option error;
  ce_GetBestHeight : Z;
  ce_GetMempoolTransactionList : res (list Tx);
  ce_CatchPins : Z -> res (list PinInscription * list string);
  ce_CatchMempoolPins : list Tx -> res (list (option PinInscription) * list string) }.

Arguments ChainEnv Tx : clear implicits.
Arguments mkEnv {Tx}.

(** The log lines of a scan, which say what was done with each height. *)
Inductive scan_log := LogError (h : Z) | LogBlock (h : Z) (pins : list PinInscription).

(** [mempoolTxIDFromPinID]; its digit check ranges over runes, and a rune is a
    digit exactly when it is a digit byte. *)
Definition is_digit (c : ascii) : bool :=
  let z := Z_of_ascii c in (48 <=? z) && (z <=? 57).
Fixpoint all_chars (P : ascii -> bool) (s : string) : bool :=
  match s with "" => true | String c s => P c && all_chars P s end.
Definition mempoolTxIDFromPinID (pinID : string) : string :=
  if is_empty pinID then "" else
  match Index pinID ":" with
  | Some (S n) => TrimSpace (stake (S n) pinID)
  | _ =>
      match LastIndex pinID "i" with
      | None => ""
      | Some suffixStart =>
          if (suffixStart <=? 0)%nat || Nat.eqb suffixStart (String.length pinID - 1) then ""
          else if all_chars is_digit (sdrop (suffixStart + 1) pinID)
          then TrimSpace (stake suffixStart pinID) else ""
      end
  end.

Fixpoint match_tx (pinID : string) (txIDs : list string) : option string :=
  match txIDs with
  | [] => None
  | txID :: txIDs =>
      let txID := TrimSpace txID in
      if negb (is_empty txID) &&
         (String.eqb pinID txID || HasPrefix pinID (txID +:+ "i") || HasPrefix pinID (txID +:+ ":"))
      then Some txID else match_tx pinID txIDs
  end.
Definition mempoolStableIDForPin (pin : option PinInscription) (txIDs : list string) : string :=
  match pin with
  | None => ""
  | Some pin =>
      let genesisTx := TrimSpace (pin_GenesisTransaction pin) in
      if negb (is_empty genesisTx) then genesisTx else
      let pinID := TrimSpace (pin_Id pin) in
      let txID := mempoolTxIDFromPinID pinID in
      if negb (is_empty txID) then txID else default pinID (match_tx pinID txIDs)
  end.

(** [now] and the times of [mempoolSeen] are in nanoseconds. *)
Definition expired (ttl now seenAt : Z) : bool := (0 <? ttl) && (ttl <? now - seenAt).

(** The loop of [filterSeenMempoolPins]: the pins kept and the new keys. *)
Definition filter_step (chainName : string) (txIDs : list string) (ttl now : Z)
    (seen : gmap string Z) (st : list PinInscription * gset string) (pin : option PinInscription)
    : list PinInscription * gset string :=
  match pin with
  | None => st
  | Some p =>
      let stableID := mempoolStableIDForPin pin txIDs in
      if is_empty stableID then (st.1 ++ [p], st.2) else
      let key := chainName +:+ ":" +:+ stableID in
      let dup := match seen !! key with
                 | Some seenAt => (ttl <=? 0) || (now - seenAt <=? ttl)
                 | None => false
                 end in
      if dup then st
      else if bool_decide (key ∈ st.2) then st
      else (st.1 ++ [p], {[key]} ∪ st.2)
  end.
Definition filterSeenMempoolPins (chainName : string) (pins : list (option PinInscription))
    (txIDs : list string) (ttl now : Z) (mempoolSeen : gmap string Z)
    : list PinInscription * gmap string Z :=
  let seen := filter (fun e => expired ttl now e.2 = false) mempoolSeen in
  let '(filtered, newKeys) :=
    foldl (filter_step chainName txIDs ttl now seen) ([], ∅) pins in
  (filtered, set_fold (fun key m => <[key := now]> m) seen newKeys).

Section Engine.
Context {St X Tx : Type} {KV : KVOps St} {MO : MapOrder}.

(** [chains] keeps the name and [lastHeight] of each entry. *)
Record Engine := mkEngine {
  en_chains : gmap string Z;
  en_registry : Registry (St * X);
  en_mempoolPollingEnabled : bool;
  en_mempoolPollInterval : Z;
  en_mempoolDedupeTTL : Z;
  en_mempoolSeen : gmap string Z;
  en_running : bool }.

Definition second : Z := 1000000000.
Definition NewEngine (registry : Registry (St * X)) : Engine :=
  mkEngine ∅ registry true (10 * second) (30 * 60 * second) ∅ false.

Definition ConfigureMempoolPolling (enabled : bool) (pollInterval dedupeTTL : Z) (e : Engine) : Engine :=
  mkEngine (en_chains e) (en_registry e) enabled
    (if 0 <? pollInterval then pollInterval else en_mempoolPollInterval e)
    (if 0 <? dedupeTTL then dedupeTTL else en_mempoolDedupeTTL e)
    (en_mempoolSeen e) (en_running e).

Definition Chains (e : Engine) : Z := Z.of_nat (size (en_chains e)).

Definition set_height (name : string) (h : Z) (e : Engine) : Engine :=
  mkEngine (<[name := h]> (en_chains e)) (en_registry e) (en_mempoolPollingEnabled e)
    (en_mempoolPollInterval e) (en_mempoolDedupeTTL e) (en_mempoolSeen e) (en_running e).
Definition set_seen (seen : gmap string Z) (e : Engine) : Engine :=
  mkEngine (en_chains e) (en_registry e) (en_mempoolPollingEnabled e)
    (en_mempoolPollInterval e) (en_mempoolDedupeTTL e) seen (en_running e).

Definition RegisterChain (name : string) (env : ChainEnv Tx) (startHeight : Z) (e : Engine)
    : option error * Engine :=
  match ce_InitChain env with
  | Some err => (Some err, e)
  | None =>
      match ce_InitIndexer env with
      | Some err => (Some err, e)
      | None => (None, set_height name startHeight e)
      end
  end.

(** ** Persisted heights *)

Definition height_key (chainName : string) : string := chainName +:+ "_lastheight".
(** A failed write is only logged. *)
Definition persistHeight (chainName : string) (height : Z) (w : St * X) : St * X :=
  match kv_Set w.1 "indexer_meta" (height_key chainName) (fmt_d height) with
  | Ok s => (s, w.2)
  | Err _ => w
  end.
(** The height read back for a chain, if the entry is to be changed. *)
Definition restored_height (name : string) (w : St * X) : option Z :=
  match kv_Get w.1 "indexer_meta" (height_key name) with
  | Ok (Some raw) => let height := default 0 (Sscanf_d raw) in
                     if 0 <? height then Some height else None
  | _ => None
  end.
Definition restoreHeights (w : St * X) (e : Engine) : Engine :=
  mkEngine (map_imap (fun name h => Some (default h (restored_height name w))) (en_chains e))
    (en_registry e) (en_mempoolPollingEnabled e) (en_mempoolPollInterval e)
    (en_mempoolDedupeTTL e) (en_mempoolSeen e) (en_running e).

(** ** Block scanning *)

(** [for _, p := range pins { RouteBlockPin(p) }] *)
Fixpoint route_pins (r : Registry (St * X)) (pins : list PinInscription) (w : St * X)
    : list NotifyEvent * (St * X) :=
  match pins with
  | [] => ([], w)
  | p :: pins =>
      let '(evt, w) := RouteBlockPin r p w in
      let '(events, w) := route_pins r pins w in (evt ++ events, w)
  end.

(** [processTransfers] does nothing with its arguments. *)
Definition processTransfers (chainName : string) (txIDs : list string) (w : St * X) : St * X := w.

(** One height of [scanRange]. *)
Definition scan_block (name : string) (env : ChainEnv Tx) (h : Z) (e : Engine) (w : St * X)
    : scan_log * Engine * (St * X) :=
  match ce_CatchPins env h with
  | Err _ => (LogError h, e, w)
  | Ok ([], _) => (LogBlock h [], set_height name h e, persistHeight name h w)
  | Ok (pins, txIDs) =>
      let '(events, w) := route_pins (en_registry e) pins w in
      let w := if (0 <? length txIDs)%nat then processTransfers name txIDs w else w in
      (LogBlock h pins, set_height name h e, persistHeight name h w)
  end.
(** [for h := fromHeight; h <= toHeight; h++]: [n] heights are left. *)
Fixpoint scan_loop (n : nat) (name : string) (env : ChainEnv Tx) (h : Z) (e : Engine) (w : St * X)
    : list scan_log * Engine * (St * X) :=
  match n with
  | O => ([], e, w)
  | S n =>
      let '(l, e, w) := scan_block name env h e w in
      let '(ls, e, w) := scan_loop n name env (h + 1) e w in (l :: ls, e, w)
  end.
Definition scanRange (name : string) (env : ChainEnv Tx) (fromHeight toHeight : Z) (e : Engine)
    (w : St * X) : list scan_log * Engine * (St * X) :=
  scan_loop (Z.to_nat (toHeight - fromHeight + 1)) name env fromHeight e w.

(** One entry of [catchUpAll] and of [scanNewBlocks]. *)
Definition catchUp (name : string) (env : ChainEnv Tx) (e : Engine) (w : St * X)
    : list scan_log * Engine * (St * X) :=
  let bestHeight := ce_GetBestHeight env in
  if bestHeight <=? 0 then ([], e, w) else
  let from := wrap64 (default 0 (en_chains e !! name) + 1) in
  let from := if from <=? 0 then 1 else from in
  scanRange name env from bestHeight e w.
Definition scanNew (name : string) (env : ChainEnv Tx) (e : Engine) (w : St * X)
    : list scan_log * Engine * (St * X) :=
  let bestHeight := ce_GetBestHeight env in
  let lastHeight := default 0 (en_chains e !! name) in
  if lastHeight <? bestHeight then scanRange name env (lastHeight + 1) bestHeight e w
  else ([], e, w).
(** The loop over the registered chains, in the order of the map. *)
Fixpoint for_chains
    (f : string -> ChainEnv Tx -> Engine -> St * X -> list scan_log * Engine * (St * X))
    (names : list string) (envs : string -> ChainEnv Tx) (e : Engine) (w : St * X)
    : list (string * list scan_log) * Engine * (St * X) :=
  match names with
  | [] => ([], e, w)
  | name :: names =>
      let '(l, e, w) := f name (envs name) e w in
      let '(ls, e, w) := for_chains f names envs e w in ((name, l) :: ls, e, w)
  end.
Definition catchUpAll (envs : string -> ChainEnv Tx) (e : Engine) (w : St * X) :=
  for_chains catchUp (map_range (en_chains e)).*1 envs e w.
Definition scanNewBlocks (envs : string -> ChainEnv Tx) (e : Engine) (w : St * X) :=
  for_chains scanNew (map_range (en_chains e)).*1 envs e w.

(** ** The mempool *)

Fixpoint route_mempool (r : Registry (St * X)) (pins : list PinInscription) (w : St * X) : St * X :=
  match pins with
  | [] => w
  | p :: pins => route_mempool r pins (RouteMempoolPin r p w).2
  end.
Definition poll_chain (name : string) (env : ChainEnv Tx) (now : Z) (e : Engine) (w : St * X)
    : Engine * (St * X) :=
  match ce_GetMempoolTransactionList env with
  | Err _ => (e, w)
  | Ok [] => (e, w)
  | Ok txList =>
      match ce_CatchMempoolPins env txList with
      | Err _ => (e, w)
      | Ok (pins, txIDs) =>
          let '(pins, seen) := filterSeenMempoolPins name pins txIDs (en_mempoolDedupeTTL e) now
                                 (en_mempoolSeen e) in
          (set_seen seen e, route_mempool (en_registry e) pins w)
      end
  end.
Fixpoint poll_chains (names : list string) (envs : string -> ChainEnv Tx) (now : Z) (e : Engine)
    (w : St * X) : Engine * (St * X) :=
  match names with
  | [] => (e, w)
  | name :: names =>
      let '(e, w) := poll_chain name (envs name) now e w in poll_chains names envs now e w
  end.
Definition pollMempoolOnce (envs : string -> ChainEnv Tx) (now : Z) (e : Engine) (w : St * X)
    : Engine * (St * X) :=
  poll_chains (map_range (en_chains e)).*1 envs now e w.

(** [Start] restores the heights before the loops begin; [Stop]. *)
Definition Start (w : St * X) (e : Engine) : Engine :=
  let e := mkEngine (en_chains e) (en_registry e) (en_mempoolPollingEnabled e)
    (en_mempoolPollInterval e) (en_mempoolDedupeTTL e) (en_mempoolSeen e) true in
  restoreHeights w e.
Definition Stop (e : Engine) : Engine :=
  mkEngine (en_chains e) (en_registry e) (en_mempoolPollingEnabled e)
    (en_mempoolPollInterval e) (en_mempoolDedupeTTL e) (en_mempoolSeen e) false.
End Engine.
Arguments Engine : clear implicits.
