(* ===== verification/EngineFacts.v ===== *)
(** * EngineFacts: scanning order, restart, mempool deduplication

    Over any sequence of scan rounds and mempool polls: no block is routed
    twice, none is passed over silently, and what an error costs; the persisted
    height survives a restart; what the mempool filter keeps. *)

From S2P Require Import Prelude GoText Json Storage Aggregator Engine.

(** ** The persisted height is read back *)

Lemma digit_val_char d : 0 <= d < 10 -> digit_val (digit_char d) = Some d.
Proof.
  intros Hd. assert (H : In d (map Z.of_nat (List.seq 0 10))).
  { apply in_map_iff. exists (Z.to_nat d). split; [lia|]. apply in_seq. lia. }
  revert H. apply (proj1 (List.Forall_forall (fun d => digit_val (digit_char d) = Some d) _)).
  repeat constructor.
Qed.

(** The number that [scan_digits] has read, starting from [acc]. *)
Lemma scan_digits_app fuel z rest a :
  0 <= z -> z < 10 ^ Z.of_nat fuel -> (0 < fuel)%nat ->
  exists k, 0 <= k /\
  scan_digits (dec_digits fuel z rest) a = scan_digits rest (Some (default 0 a * 10 ^ k + z)).
Proof.
  revert z rest. induction fuel as [|fuel IH]; intros z rest Hz Hlt Hf; [lia|].
  cbn [dec_digits].
  pose proof (Z.div_mod z 10 ltac:(lia)). pose proof (Z.mod_pos_bound z 10 ltac:(lia)).
  destruct (Z.eqb_spec (z / 10) 0) as [E|E].
  - exists 1. split; [lia|]. cbn [scan_digits]. rewrite digit_val_char by lia.
    change (10 ^ 1) with 10. do 2 f_equal. lia.
  - rewrite Nat2Z.inj_succ, Z.pow_succ_r in Hlt by lia.
    assert (0 < fuel)%nat by (destruct fuel; [simpl in Hlt; lia|lia]).
    destruct (IH (z / 10) (String (digit_char (z mod 10)) rest)) as (k & Hk & ->);
      [lia|lia|done|].
    exists (k + 1). split; [lia|]. cbn [scan_digits]. rewrite digit_val_char by lia.
    cbn [from_option id]. rewrite Z.pow_add_r by lia. change (10 ^ 1) with 10.
    rewrite Z.mul_assoc. do 2 f_equal. unfold id. lia.
Qed.

Lemma dec_digits_head fuel z rest :
  0 <= z -> (0 < fuel)%nat ->
  exists d r, 0 <= d < 10 /\ dec_digits fuel z rest = String (digit_char d) r.
Proof.
  revert z rest. induction fuel as [|fuel IH]; intros z rest Hz Hf; [lia|]. cbn [dec_digits].
  destruct (Z.eqb_spec (z / 10) 0) as [E|E].
  - eexists _, _. split; [|reflexivity]. apply Z.mod_pos_bound. lia.
  - destruct fuel as [|fuel]; [|apply IH; [apply Z.div_pos|]; lia].
    eexists _, _. split; [|reflexivity]. apply Z.mod_pos_bound. lia.
Qed.
Lemma digit_char_plain d :
  0 <= d < 10 ->
  Ascii.eqb (digit_char d) "010" = false /\ space1 (digit_char d) = false
  /\ Ascii.eqb (digit_char d) "-" = false /\ Ascii.eqb (digit_char d) "+" = false.
Proof.
  intros Hd. assert (H : In d (map Z.of_nat (List.seq 0 10))).
  { apply in_map_iff. exists (Z.to_nat d). split; [lia|]. apply in_seq. lia. }
  revert H. refine (proj1 (List.Forall_forall (fun d => Ascii.eqb (digit_char d) "010" = false
    /\ space1 (digit_char d) = false /\ Ascii.eqb (digit_char d) "-" = false
    /\ Ascii.eqb (digit_char d) "+" = false) _) _ d).
  repeat constructor.
Qed.

(** [Sscanf] reads back what [%d] printed. *)
Lemma Sscanf_fmt_d z : 0 <= z < 2 ^ 63 -> Sscanf_d (fmt_d z) = Some z.
Proof.
  intros Hz. unfold fmt_d. rewrite (proj2 (Z.ltb_ge z 0)) by lia.
  destruct (dec_digits_head 20 z "" ltac:(lia) ltac:(lia)) as (d & r & Hd & E).
  destruct (digit_char_plain d Hd) as (H1 & H2 & H3 & H4).
  rewrite E. cbn [Sscanf_d]. rewrite H1, H2, H3, H4, <- E.
  destruct (scan_digits_app 20 z "" None) as (k & _ & ->);
    [lia|change (10 ^ Z.of_nat 20) with 100000000000000000000; lia|lia|].
  simpl. unfold check_i64. 
  by rewrite (proj2 (Z.leb_le _ _)), (proj2 (Z.ltb_lt _ _)) by lia.
Qed.

Section EngineFacts.
Context {St X : Type} {KV : KVOps St} {KVS : KVStore St} {MO : MapOrder}.

(** After a restart the engine resumes where it was: the height persisted for
    a chain is the one restored, for every chain name, and persisting one chain's
    height leaves the others' alone. *)
Theorem restart_resumes (w : St * X) name h (e : Engine St X) :
  kv_ok w.1 "indexer_meta" = true -> 0 < h < 2 ^ 63 -> name ∈ dom (en_chains e) ->
  let w' := persistHeight name h w in
  en_chains (restoreHeights w' e) !! name = Some h
  /\ forall name', name' <> name ->
       en_chains (restoreHeights w' e) !! name' = en_chains (restoreHeights w e) !! name'.
Proof.
  intros Hok Hh Hn. cbv zeta. unfold persistHeight.
  destruct (kv_Set_ok w.1 "indexer_meta" (height_key name) (fmt_d h) Hok) as (s' & -> & Hu & _).
  assert (Hok' : kv_ok s' "indexer_meta" = true) by by rewrite (kvu_ok _ _ _ _ Hu).
  split.
  - unfold restoreHeights. cbn [en_chains]. rewrite map_lookup_imap.
    apply elem_of_dom in Hn as [h0 ->]. simpl. unfold restored_height. cbn [fst].
    rewrite kv_Get_ok, (kvu_view _ _ _ _ Hu), lookup_insert_eq by done.
    rewrite Sscanf_fmt_d by lia. cbn [from_option id]. by rewrite (proj2 (Z.ltb_lt 0 h)) by lia.
  - intros name' Hne. unfold restoreHeights. cbn [en_chains]. rewrite !map_lookup_imap.
    destruct (en_chains e !! name') as [h0|]; [|done]. simpl. unfold restored_height. cbn [fst].
    rewrite !kv_Get_ok by done. rewrite (kvu_view _ _ _ _ Hu), lookup_insert_ne; [done|].
    unfold height_key. intros E. apply Hne.
    assert (Hl : String.length name = String.length name').
    { apply (f_equal String.length) in E. rewrite !sapp_length in E. lia. }
    by apply sapp_eq_length in E as [-> _].
Qed.

(** ** Scan rounds *)

Definition log_height (l : scan_log) : Z := match l with LogError h => h | LogBlock h _ => h end.
(** The heights whose pins were routed. *)
Definition processed (ls : list scan_log) : list Z :=
  omap (fun l => match l with LogBlock h _ => Some h | LogError _ => None end) ls.
Definition lastHeight (name : string) (e : Engine St X) : Z := default 0 (en_chains e !! name).

Lemma processed_app l1 l2 : processed (l1 ++ l2) = processed l1 ++ processed l2.
Proof. apply omap_app. Qed.

Lemma scan_block_spec {Tx} name (env : ChainEnv Tx) h e w l e' w' :
  scan_block name env h e w = (l, e', w') ->
  log_height l = h /\ (forall name', name' <> name -> lastHeight name' e' = lastHeight name' e)
  /\ lastHeight name e' = match processed [l] with [] => lastHeight name e | _ => h end.
Proof.
  unfold scan_block.
  assert (Hset : (forall name', name' <> name -> lastHeight name' (set_height name h e) = lastHeight name' e)
                 /\ lastHeight name (set_height name h e) = h).
  { unfold lastHeight, set_height. simpl. split; [|by rewrite lookup_insert_eq].
    intros name' Hne. by rewrite lookup_insert_ne by congruence. }
  destruct Hset as [Ho Hs].
  destruct (ce_CatchPins env h) as [[[|p pins] txIDs]|err].
  - intros [= <- <- <-]. done.
  - destruct (route_pins _ _ w) as [events w1]. intros [= <- <- <-]. done.
  - intros [= <- <- <-]. done.
Qed.

Lemma scan_loop_spec {Tx} n name (env : ChainEnv Tx) h e w ls e' w' :
  scan_loop n name env h e w = (ls, e', w') ->
  map log_height ls = seqZ h (Z.of_nat n)
  /\ (forall name', name' <> name -> lastHeight name' e' = lastHeight name' e)
  /\ lastHeight name e' = default (lastHeight name e) (last (processed ls)).
Proof.
  revert h e w ls. induction n as [|n IH]; intros h e w ls; cbn [scan_loop].
  { by intros [= <- <- <-]. }
  destruct (scan_block name env h e w) as [[l e1] w1] eqn:E1.
  destruct (scan_loop n name env (h + 1) e1 w1) as [[ls1 e2] w2] eqn:E2.
  intros [= <- <- <-].
  apply scan_block_spec in E1 as (H1 & H2 & H3). apply IH in E2 as (I1 & I2 & I3).
  split_and!.
  - rewrite Nat2Z.inj_succ, seqZ_cons by lia. cbn [map]. rewrite H1, I1. f_equal. f_equal; lia.
  - intros name' Hne. by rewrite I2, H2.
  - rewrite I3, H3. change (l :: ls1) with ([l] ++ ls1). rewrite processed_app.
    destruct (processed [l]) as [|x [|]] eqn:E; simpl in E.
    + done.
    + destruct l; [done|]. simpl in E. injection E as <-. cbn [log_height] in H1. subst h0.
      rewrite last_app. by destruct (last (processed ls1)).
    + by destruct l.
Qed.

Lemma processed_heights ls h : h ∈ processed ls -> h ∈ map log_height ls.
Proof.
  intros Hh. apply list_elem_of_omap in Hh as (l & Hl & E). destruct l as [|h' pins]; [done|].
  injection E as <-. apply list_elem_of_In, in_map_iff. exists (LogBlock h' pins).
  split; [done|]. by apply list_elem_of_In.
Qed.
Lemma processed_sorted ls :
  StronglySorted Z.lt (map log_height ls) -> StronglySorted Z.lt (processed ls).
Proof.
  induction ls as [|l ls IH]; [constructor|]. cbn [map]. intros Hs.
  inversion Hs as [|? ? Hs' Hall]; subst. change (l :: ls) with ([l] ++ ls).
  rewrite processed_app. destruct l as [h|h pins]; simpl; [by apply IH|].
  constructor; [by apply IH|]. apply Forall_forall. intros x Hx. apply processed_heights in Hx.
  rewrite Forall_forall in Hall. by apply Hall.
Qed.
Lemma seqZ_sorted h n : StronglySorted Z.lt (seqZ h (Z.of_nat n)).
Proof.
  revert h. induction n as [|n IH]; intros h; [constructor|].
  rewrite Nat2Z.inj_succ, seqZ_cons, Z.pred_succ by lia. constructor; [apply IH|].
  apply Forall_forall. intros x Hx. apply elem_of_seqZ in Hx. lia.
Qed.

Lemma StronglySorted_Z_app l1 l2 b :
  StronglySorted Z.lt l1 -> StronglySorted Z.lt l2 ->
  (forall x, x ∈ l1 -> x <= b) -> (forall x, x ∈ l2 -> b < x) -> StronglySorted Z.lt (l1 ++ l2).
Proof.
  induction 1 as [|x l1 Hs IH Hx]; intros Hs2 Hb1 Hb2; [done|]. simpl. constructor.
  - apply IH; [done| |done]. intros y Hy. apply Hb1. by right.
  - apply Forall_app. split; [done|]. apply Forall_forall. intros y Hy.
    specialize (Hb1 x ltac:(left)). specialize (Hb2 y Hy). lia.
Qed.
Lemma sorted_last l d x :
  StronglySorted Z.lt l -> x ∈ l -> x <= default d (last l).
Proof.
  intros Hs. revert x. induction Hs as [|y l Hs IH Hy]; intros x Hx; [by apply not_elem_of_nil in Hx|].
  destruct l as [|z l]; [apply list_elem_of_singleton in Hx; subst; simpl; lia|].
  change (last (y :: z :: l)) with (last (z :: l)).
  apply elem_of_cons in Hx as [->|Hx]; [|by apply IH].
  inversion Hy; subst. specialize (IH z ltac:(left)). lia.
Qed.

(** What has been scanned of chain [name] since it was registered at [start]:
    the heights routed are distinct and in order, all above [start] and up to the
    chain's [lastHeight], and each height in between has been tried. *)
Record scanned (name : string) (start : Z) (ls : list scan_log) (e : Engine St X) : Prop := {
  sc_low : start <= lastHeight name e < 2 ^ 63 - 1;
  sc_sorted : StronglySorted Z.lt (processed ls);
  sc_range h : h ∈ processed ls -> start < h <= lastHeight name e;
  sc_tried h : start < h <= lastHeight name e -> h ∈ map log_height ls }.

Lemma scan_extends {Tx} name start ls e (env : ChainEnv Tx) n e' w w' ls' :
  scanned name start ls e -> lastHeight name e + Z.of_nat n < 2 ^ 63 - 1 ->
  scan_loop n name env (lastHeight name e + 1) e w = (ls', e', w') ->
  scanned name start (ls ++ ls') e'.
Proof.
  intros [H1 H2 H3 H4] Hn E. apply scan_loop_spec in E as (Hh & _ & Hl).
  assert (Hs : StronglySorted Z.lt (processed ls')) by (apply processed_sorted; rewrite Hh; apply seqZ_sorted).
  assert (Hin : forall h, h ∈ processed ls' -> lastHeight name e < h <= lastHeight name e + Z.of_nat n).
  { intros h Hp. apply processed_heights in Hp. rewrite Hh in Hp. apply elem_of_seqZ in Hp. lia. }
  assert (Hle : lastHeight name e <= lastHeight name e' <= lastHeight name e + Z.of_nat n).
  { rewrite Hl. destruct (last (processed ls')) as [x|] eqn:El; simpl; [|lia].
    apply last_Some_elem_of, Hin in El. lia. }
  split.
  - lia.
  - rewrite processed_app. apply (StronglySorted_Z_app _ _ (lastHeight name e)); auto.
    + intros x Hx. by apply H3.
    + intros x Hx. by apply Hin.
  - intros h. rewrite processed_app, elem_of_app. intros [Hp|Hp].
    + specialize (H3 h Hp). lia.
    + specialize (Hin h Hp). split; [lia|]. rewrite Hl. by apply sorted_last.
  - intros h Hr. rewrite map_app, elem_of_app. destruct (decide (h <= lastHeight name e)).
    + left. apply H4. lia.
    + right. rewrite Hh. apply elem_of_seqZ. lia.
Qed.

(** The lines of chain [name] in the log of a round. *)
Definition lines_of (name : string) (ls : list (string * list scan_log)) : list scan_log :=
  mjoin (map snd (List.filter (fun l => String.eqb l.1 name) ls)).

(** A call for one chain keeps [scanned] for every chain. *)
Definition round_ok {Tx} (f : string -> ChainEnv Tx -> Engine St X -> St * X
    -> list scan_log * Engine St X * (St * X)) : Prop :=
  forall name start ls name' env e w ls' e' w',
    0 <= start -> ce_GetBestHeight env < 2 ^ 63 - 1 ->
    scanned name start ls e -> f name' env e w = (ls', e', w') ->
    scanned name start (if String.eqb name' name then ls ++ ls' else ls) e'.

Lemma scanRange_round {Tx} name start ls name' (env : ChainEnv Tx) e w ls' e' w' from to :
  scanned name start ls e -> to < 2 ^ 63 - 1 -> from = lastHeight name' e + 1 ->
  scanRange name' env from to e w = (ls', e', w') ->
  scanned name start (if String.eqb name' name then ls ++ ls' else ls) e'.
Proof.
  intros Hs Ht -> E. unfold scanRange in E. destruct (String.eqb_spec name' name) as [->|Hne].
  - eapply scan_extends; [done| |exact E]. destruct (sc_low _ _ _ _ Hs). lia.
  - apply scan_loop_spec in E as (_ & Ho & _). destruct Hs as [H1 H2 H3 H4].
    rewrite <- (Ho name) in H1, H3, H4 by congruence. by split.
Qed.
Lemma round_nop name start ls name' (e : Engine St X) :
  scanned name start ls e ->
  scanned name start (if String.eqb name' name then ls ++ [] else ls) e.
Proof. intros H. destruct (String.eqb name' name); by rewrite ?app_nil_r. Qed.

Lemma scanNew_ok {Tx} : round_ok (scanNew (Tx := Tx)).
Proof.
  intros name start ls name' env e w ls' e' w' H0 Hb Hs E. unfold scanNew in E.
  fold (lastHeight name' e) in E. destruct (_ <? _).
  - by eapply scanRange_round.
  - injection E as <- <- <-. by apply round_nop.
Qed.

Lemma for_chains_ok {Tx} (f : string -> ChainEnv Tx -> _) names envs name start ls e w ls' e' w' :
  round_ok f -> 0 <= start -> (forall n, ce_GetBestHeight (envs n) < 2 ^ 63 - 1) ->
  scanned name start ls e -> for_chains f names envs e w = (ls', e', w') ->
  scanned name start (ls ++ lines_of name ls') e'.
Proof.
  intros Hf H0 Hb. revert ls e w ls'. induction names as [|n names IH]; intros ls e w ls' Hs;
    cbn [for_chains].
  { intros [= <- <- <-]. unfold lines_of. simpl. by rewrite app_nil_r. }
  destruct (f n (envs n) e w) as [[l e1] w1] eqn:E1.
  destruct (for_chains f names envs e1 w1) as [[ls1 e2] w2] eqn:E2. intros [= <- <- <-].
  specialize (Hf name start ls n (envs n) e w l e1 w1 H0 (Hb n) Hs E1).
  specialize (IH _ e1 w1 ls1 Hf E2). unfold lines_of in *. cbn [List.filter fst].
  destruct (String.eqb n name); [|done]. cbn [map snd mjoin list_join]. by rewrite app_assoc.
Qed.

Lemma catchUp_ok {Tx} : round_ok (catchUp (Tx := Tx)).
Proof.
  intros name start ls name' env e w ls' e' w' H0 Hb Hs E. unfold catchUp in E.
  fold (lastHeight name' e) in E. destruct (Z.leb_spec (ce_GetBestHeight env) 0).
  { injection E as <- <- <-. by apply round_nop. }
  destruct (String.eqb_spec name' name) as [->|Hne].
  - pose proof (sc_low _ _ _ _ Hs). rewrite wrap64_id in E by (unfold in_i64; lia).
    rewrite (proj2 (Z.leb_gt (lastHeight name e + 1) 0)) in E by lia.
    assert (R := scanRange_round name start ls name env e w ls' e' w' _ _ Hs Hb eq_refl E).
    by rewrite String.eqb_refl in R.
  - unfold scanRange in E. apply scan_loop_spec in E as (_ & Ho & _).
    destruct Hs as [H1 H2 H3 H4].
    rewrite <- (Ho name) in H1, H3, H4 by congruence. by split.
Qed.

Lemma poll_chains_heights {Tx} names (envs : string -> ChainEnv Tx) now e w name :
  lastHeight name (poll_chains names envs now e w).1 = lastHeight name e.
Proof.
  revert e w. induction names as [|n names IH]; intros e w; [done|]. cbn [poll_chains].
  destruct (poll_chain n (envs n) now e w) as [e1 w1] eqn:E1. rewrite IH.
  unfold poll_chain in E1. destruct (ce_GetMempoolTransactionList _) as [[|tx txs]|]; [by simplify_eq| |by simplify_eq].
  destruct (ce_CatchMempoolPins _ _) as [[pins txIDs]|]; [|by simplify_eq].
  destruct (filterSeenMempoolPins _ _ _ _ _ _) as [kept seen]. by simplify_eq.
Qed.

(** ** The running engine

    One step is a whole pass of one of its two goroutines, or a reconfiguration;
    the nodes may answer anything at each step. *)
Definition conf : Type := Engine St X * (St * X).
Definition sane {Tx} (envs : string -> ChainEnv Tx) : Prop :=
  forall n, ce_GetBestHeight (envs n) < 2 ^ 63 - 1.
Inductive engine_step : conf -> list (string * list scan_log) -> conf -> Prop :=
  | step_catchUpAll Tx (envs : string -> ChainEnv Tx) e w l e' w' :
      sane envs -> catchUpAll envs e w = (l, e', w') -> engine_step (e, w) l (e', w')
  | step_scanNewBlocks Tx (envs : string -> ChainEnv Tx) e w l e' w' :
      sane envs -> scanNewBlocks envs e w = (l, e', w') -> engine_step (e, w) l (e', w')
  | step_pollMempoolOnce Tx (envs : string -> ChainEnv Tx) now e w :
      engine_step (e, w) [] (pollMempoolOnce envs now e w)
  | step_Configure enabled i ttl e w :
      engine_step (e, w) [] (ConfigureMempoolPolling enabled i ttl e, w).
(** Any number of steps, with everything they logged. *)
Inductive engine_steps : conf -> list (string * list scan_log) -> conf -> Prop :=
  | steps_nil c : engine_steps c [] c
  | steps_cons c1 l c2 ls c3 :
      engine_step c1 l c2 -> engine_steps c2 ls c3 -> engine_steps c1 (l ++ ls) c3.

Lemma lines_of_app name l1 l2 : lines_of name (l1 ++ l2) = lines_of name l1 ++ lines_of name l2.
Proof. unfold lines_of. by rewrite List.filter_app, map_app, join_app. Qed.

Lemma engine_step_scanned c l c' name start ls :
  engine_step c l c' -> 0 <= start -> scanned name start ls c.1 ->
  scanned name start (ls ++ lines_of name l) c'.1.
Proof.
  assert (Hheights : forall (e e' : Engine St X), lastHeight name e' = lastHeight name e ->
    scanned name start ls e -> scanned name start (ls ++ lines_of name []) e').
  { intros e e' E [H1 H2 H3 H4]. unfold lines_of. simpl. rewrite app_nil_r.
    split; by rewrite ?E. }
  intros Hstep H0 Hs. inversion Hstep; subst; cbn [fst] in *.
  - eapply for_chains_ok; eauto using catchUp_ok.
  - eapply for_chains_ok; eauto using scanNew_ok.
  - eapply Hheights, Hs. apply poll_chains_heights.
  - by eapply Hheights, Hs.
Qed.
Lemma engine_steps_scanned c l c' name start ls :
  engine_steps c l c' -> 0 <= start -> scanned name start ls c.1 ->
  scanned name start (ls ++ lines_of name l) c'.1.
Proof.
  intros Hst H0. revert ls. induction Hst as [c|c1 l c2 l2 c3 H1 _ IH]; intros ls Hs.
  - unfold lines_of. simpl. by rewrite app_nil_r.
  - rewrite lines_of_app, app_assoc. apply IH. by eapply engine_step_scanned.
Qed.
Lemma scanned_start name (e : Engine St X) :
  lastHeight name e < 2 ^ 63 - 1 -> scanned name (lastHeight name e) [] e.
Proof.
  intros H. split; [lia|constructor|intros h Hh; by apply not_elem_of_nil in Hh|lia].
Qed.

(** *** Only registered chains *)

Definition same_chains (e e' : Engine St X) : Prop := dom (en_chains e') = dom (en_chains e).
Definition keeps_chains {Tx} (f : string -> ChainEnv Tx -> Engine St X -> St * X -> list scan_log * Engine St X * (St * X)) : Prop :=
  forall name env e w ls e' w', name ∈ dom (en_chains e) -> f name env e w = (ls, e', w') -> same_chains e e'.
Lemma scan_loop_chains {Tx} n name (env : ChainEnv Tx) h e w ls e' w' :
  name ∈ dom (en_chains e) -> scan_loop n name env h e w = (ls, e', w') -> same_chains e e'.
Proof.
  unfold same_chains. revert h e w ls. induction n as [|n IH]; intros h e w ls Hn; cbn [scan_loop]; [by intros [= <- <- <-]|].
  destruct (scan_block name env h e w) as [[l e1] w1] eqn:E1. destruct (scan_loop n name env (h + 1) e1 w1) as [[ls1 e2] w2] eqn:E2.
  intros [= <- <- <-]. assert (Hd : dom (en_chains e1) = dom (en_chains e)); [|by rewrite (IH _ _ _ _ ltac:(by rewrite Hd) E2)].
  unfold scan_block in E1. destruct (ce_CatchPins env h) as [[[|pin pins] txs]|].
  - injection E1 as <- <- <-. cbn [set_height en_chains]. rewrite dom_insert_L. set_solver.
  - destruct (route_pins _ _ _). injection E1 as <- <- <-. cbn [set_height en_chains]. rewrite dom_insert_L. set_solver.
  - by injection E1 as <- <- <-.
Qed.
Lemma catchUp_chains {Tx} : keeps_chains (catchUp (Tx := Tx)).
Proof.
  intros name env e w ls e' w' Hn. unfold catchUp. case_match; [by intros [= <- <- <-]|]. by apply scan_loop_chains.
Qed.
Lemma scanNew_chains {Tx} : keeps_chains (scanNew (Tx := Tx)).
Proof.
  intros name env e w ls e' w' Hn. unfold scanNew. case_match; [by apply scan_loop_chains|by intros [= <- <- <-]].
Qed.
Lemma for_chains_chains {Tx} (f : string -> ChainEnv Tx -> _) names envs e w l e' w' :
  keeps_chains f -> (forall n, n ∈ names -> n ∈ dom (en_chains e)) -> for_chains f names envs e w = (l, e', w') ->
  same_chains e e' /\ forall x, x ∈ l -> x.1 ∈ dom (en_chains e).
Proof.
  intros Hf. unfold same_chains. revert e w l. induction names as [|n names IH]; intros e w l Hn; cbn [for_chains].
  { intros [= <- <- <-]. split; [done|]. intros x Hx. by apply not_elem_of_nil in Hx. }
  destruct (f n (envs n) e w) as [[ls e1] w1] eqn:E1. destruct (for_chains f names envs e1 w1) as [[l1 e2] w2] eqn:E2.
  intros [= <- <- <-]. apply Hf in E1; [|apply Hn; left]. unfold same_chains in E1.
  destruct (IH e1 w1 l1) as [H1 H2]; [|done|].
  { intros n' Hn'. rewrite E1. apply Hn. by right. }
  split; [congruence|]. intros x [->|Hx]%elem_of_cons; [apply Hn; left|]. rewrite <- E1. by apply H2.
Qed.
Lemma range_dom (e : Engine St X) n : n ∈ (map_range (en_chains e)).*1 -> n ∈ dom (en_chains e).
Proof.
  intros ([n' h] & -> & Hin)%list_elem_of_fmap. apply elem_of_range in Hin. by apply elem_of_dom_2 in Hin.
Qed.
Lemma poll_chains_chains {Tx} names (envs : string -> ChainEnv Tx) now (e : Engine St X) w :
  en_chains (poll_chains names envs now e w).1 = en_chains e.
Proof.
  revert e w. induction names as [|n names IH]; intros e w; [done|]. cbn [poll_chains].
  destruct (poll_chain n (envs n) now e w) as [e1 w1] eqn:E1. rewrite IH. unfold poll_chain in E1.
  repeat case_match; by simplify_eq.
Qed.
Lemma engine_step_chains (c : conf) l c' :
  engine_step c l c' -> same_chains c.1 c'.1 /\ forall x, x ∈ l -> x.1 ∈ dom (en_chains c.1).
Proof.
  assert (Hnil : forall (e : Engine St X) (x : string * list scan_log), x ∈ [] -> x.1 ∈ dom (en_chains e))
    by (intros e x Hx; by apply not_elem_of_nil in Hx).
  intros [Tx envs e w l' e' w' _ E|Tx envs e w l' e' w' _ E|Tx envs now e w|enabled i ttl e w]; cbn [fst].
  - eapply for_chains_chains; [apply catchUp_chains|apply range_dom|exact E].
  - eapply for_chains_chains; [apply scanNew_chains|apply range_dom|exact E].
  - split; [|apply Hnil]. unfold same_chains, pollMempoolOnce. by rewrite poll_chains_chains.
  - by split; [|apply Hnil].
Qed.
(** Nothing is scanned for a chain that is not registered. *)
Lemma engine_steps_registered (c : conf) l c' name :
  engine_steps c l c' -> en_chains c.1 !! name = None -> lines_of name l = [].
Proof.
  intros Hst Hn%not_elem_of_dom. assert (H : forall x, x ∈ l -> x.1 ∈ dom (en_chains c.1)).
  { clear Hn. induction Hst as [c|c1 l c2 ls c3 H1 _ IH]; intros x Hx; [by apply not_elem_of_nil in Hx|].
    apply engine_step_chains in H1 as [Hs H1]. apply elem_of_app in Hx as [Hx|Hx]; [by apply H1|].
    unfold same_chains in Hs. rewrite <- Hs. by apply IH. }
  unfold lines_of. clear Hst. induction l as [|x l IH]; [done|]. cbn [List.filter].
  destruct (String.eqb_spec x.1 name) as [<-|]; [destruct Hn; apply H; left|]. apply IH. intros y Hy. apply H. by right.
Qed.

(** C4: However scan passes, mempool polls and node answers interleave, the
    blocks of a chain are routed in strictly increasing height, hence at most once
    each, none beyond the recorded [lastHeight], and every height from the start
    to [lastHeight] has at least been tried. *)
Theorem scan_exactly_once e w l e' w' name :
  0 <= lastHeight name e < 2 ^ 63 - 1 -> engine_steps (e, w) l (e', w') ->
  let ls := lines_of name l in
  StronglySorted Z.lt (processed ls)
  /\ (forall h, h ∈ processed ls -> lastHeight name e < h <= lastHeight name e')
  /\ (forall h, lastHeight name e < h <= lastHeight name e' -> h ∈ map log_height ls)
  /\ lastHeight name e <= lastHeight name e'.
Proof.
  intros [H0 H1] Hst. cbv zeta.
  destruct (engine_steps_scanned _ _ _ name _ [] Hst H0 (scanned_start name e H1)) as [S1 S2 S3 S4].
  cbn [app fst] in *. split_and!; [done|done|done|lia].
Qed.

(** A height at or below [lastHeight] is never routed by a continuation of the run. *)
Lemma below_never_routed e w l e' w' name h :
  0 <= lastHeight name e < 2 ^ 63 - 1 -> h <= lastHeight name e ->
  engine_steps (e, w) l (e', w') -> h ∉ processed (lines_of name l).
Proof.
  intros [H0 H1] Hh Hst Hin.
  destruct (engine_steps_scanned _ _ _ name _ [] Hst H0 (scanned_start name e H1)) as [_ _ S3 _].
  cbn [app] in S3. specialize (S3 h Hin). lia.
Qed.

(** A pass over heights 6, 7, 8 in which only 7 fails leaves [lastHeight] at 8. *)
Lemma scanNew_skips_error {Tx} name (env : ChainEnv Tx) (e : Engine St X) w h p8 t8 t6 :
  en_chains e !! name = Some (h - 1) -> ce_GetBestHeight env = h + 2 ->
  ce_CatchPins env h = Ok ([], t6) -> ce_CatchPins env (h + 1) = Err "rpc" ->
  ce_CatchPins env (h + 1 + 1) = Ok (p8, t8) ->
  exists w', scanNew name env e w =
    ([LogBlock h []; LogError (h + 1); LogBlock (h + 1 + 1) p8],
     set_height name (h + 1 + 1) (set_height name h e), w').
Proof.
  intros He Hb H6 H7 H8. unfold scanNew. rewrite He, Hb. cbn [from_option id].
  rewrite (proj2 (Z.ltb_lt _ _)) by lia. unfold scanRange.
  replace (Z.to_nat (h + 2 - (h - 1 + 1) + 1)) with 3%nat by lia.
  replace (h - 1 + 1) with h by lia. cbn [scan_loop].
  unfold scan_block at 1. rewrite H6. unfold scan_block at 1. rewrite H7.
  unfold scan_block. rewrite H8. destruct p8 as [|p ps]; [by eexists|].
  destruct (route_pins _ _ _) as [evs w1]. by eexists.
Qed.

(** A block whose [CatchPins] failed is lost for good when the next one of
    the pass succeeds: no later pass of the run routes its pins, whatever the
    node answers from then on. *)
Theorem failed_block_never_retried {Tx} name (env : ChainEnv Tx) (e : Engine St X) w h p8 t8 t6 :
  1 <= h < 2 ^ 63 - 3 ->
  en_chains e !! name = Some (h - 1) -> ce_GetBestHeight env = h + 2 ->
  ce_CatchPins env h = Ok ([], t6) -> ce_CatchPins env (h + 1) = Err "rpc" ->
  ce_CatchPins env (h + 1 + 1) = Ok (p8, t8) ->
  forall l e1 w1, scanNew name env e w = (l, e1, w1) ->
    LogError (h + 1) ∈ l /\ forall ls e2 w2, engine_steps (e1, w1) ls (e2, w2) ->
      (h + 1) ∉ processed l ++ processed (lines_of name ls).
Proof.
  intros Hh He Hb H6 H7 H8 l e1 w1 E.
  destruct (scanNew_skips_error name env e w h p8 t8 t6 He Hb H6 H7 H8) as [w' E'].
  rewrite E' in E. injection E as <- <- <-. split; [by right; left|].
  intros ls e2 w2 Hst. rewrite elem_of_app. intros [Hin|Hin].
  - simpl in Hin. apply elem_of_cons in Hin as [|Hin]; [lia|].
    apply list_elem_of_singleton in Hin. lia.
  - revert Hin. eapply below_never_routed; [| |exact Hst];
      unfold lastHeight, set_height; cbn [en_chains]; rewrite lookup_insert_eq; simpl; lia.
Qed.
End EngineFacts.

(** ** Mempool deduplication *)

Section Mempool.
Context (chainName : string) (txIDs : list string) (ttl now : Z) (seen : gmap string Z).
Implicit Types (pins : list (option PinInscription)) (p : PinInscription).

(** The key a pin is remembered under; pins without a stable id are never held back. *)
Definition stable_key (chainName : string) (txIDs : list string) (p : PinInscription)
    : option string :=
  let stableID := mempoolStableIDForPin (Some p) txIDs in
  if is_empty stableID then None else Some (chainName +:+ ":" +:+ stableID).
Definition live (ttl now : Z) (seen : gmap string Z) (k : string) : Prop :=
  exists t, seen !! k = Some t /\ (ttl <= 0 \/ now - t <= ttl).

Definition step_ok (kept : list PinInscription) (new : gset string) : Prop :=
  NoDup (omap (stable_key chainName txIDs) kept) /\ (forall k, k ∈ new <-> k ∈ omap (stable_key chainName txIDs) kept)
  /\ forall k, k ∈ new -> ~ live ttl now seen k.

Lemma filter_step_ok kept new p kept' new' :
  step_ok kept new ->
  filter_step chainName txIDs ttl now seen (kept, new) (Some p) = (kept', new') ->
  step_ok kept' new'
  /\ match stable_key chainName txIDs p with
     | Some k => live ttl now seen k \/ k ∈ new'
     | None => kept' = kept ++ [p]
     end
  /\ new ⊆ new' /\ exists l, kept' = kept ++ l /\ l `sublist_of` [p].
Proof.
  intros (Hnd & Hnew & Hlive). unfold filter_step. cbn [fst snd].
  assert (Hadd : omap (stable_key chainName txIDs) (kept ++ [p]) = omap (stable_key chainName txIDs) kept ++ match stable_key chainName txIDs p with Some k => [k] | None => [] end)
    by (rewrite omap_app; simpl; by destruct (stable_key chainName txIDs p)).
  assert (Ek := eq_refl (stable_key chainName txIDs p)). unfold stable_key at 2 in Ek.
  destruct (is_empty _) eqn:Ei; rewrite Ek in *.
  { intros [= <- <-]. split_and!; [|done|done|by exists [p]].
    rewrite app_nil_r in Hadd. unfold step_ok. by rewrite Hadd. }
  cbv zeta. clear Ek. set (k := chainName +:+ _) in *.
  destruct (match seen !! k with Some t => _ | None => false end) eqn:Ed.
  { intros [= <- <-]. split_and!; [done| |done|by exists []; rewrite app_nil_r; split; [|apply sublist_nil_l]].
    left. unfold live. destruct (seen !! k) as [t|]; [|done]. exists t.
    rewrite orb_true_iff, !Z.leb_le in Ed. done. }
  case_bool_decide as Hin; intros [= <- <-].
  { split_and!; [done|by right|done|by exists []; rewrite app_nil_r; split; [|apply sublist_nil_l]]. }
  assert (Hnl : ~ live ttl now seen k).
  { intros (t & Et & Ht). rewrite Et, orb_false_iff, !Z.leb_gt in Ed. lia. }
  split_and!; [|right; set_solver|set_solver|by exists [p]].
  unfold step_ok. rewrite Hadd. split_and!.
  - apply NoDup_app. split; [done|]. split; [|apply NoDup_singleton].
    intros x Hx ->%list_elem_of_singleton. by apply Hin, Hnew.
  - intros k'. rewrite elem_of_app, list_elem_of_singleton, <- Hnew. set_solver.
  - intros k'. rewrite elem_of_union, elem_of_singleton. intros [->|Hk']; [done|by apply Hlive].
Qed.

Lemma filter_fold_ok pins kept new kept' new' :
  step_ok kept new ->
  foldl (filter_step chainName txIDs ttl now seen) (kept, new) pins = (kept', new') ->
  step_ok kept' new'
  /\ (forall p k, Some p ∈ pins -> stable_key chainName txIDs p = Some k -> live ttl now seen k \/ k ∈ new')
  /\ (forall p, Some p ∈ pins -> stable_key chainName txIDs p = None -> p ∈ kept')
  /\ new ⊆ new' /\ exists l, kept' = kept ++ l /\ l `sublist_of` omap id pins.
Proof.
  revert kept new. induction pins as [|[p|] pins IH]; intros kept new Hok; cbn [foldl].
  - intros [= <- <-]. split_and!; [done|intros p k H; by apply not_elem_of_nil in H
      |intros p H; by apply not_elem_of_nil in H|done|exists []; by rewrite app_nil_r].
  - destruct (filter_step _ _ _ _ _ (kept, new) (Some p)) as [kept1 new1] eqn:E1.
    intros E. destruct (filter_step_ok _ _ _ _ _ Hok E1) as (Hok1 & Hp & Hsub & l1 & -> & Hl1).
    destruct (IH _ _ Hok1 E) as (Hok' & Hk & Hn & Hsub' & l & -> & Hl). split_and!; [done|..].
    + intros p' k [[= <-]|Hin]%elem_of_cons Ek; [|by eauto]. rewrite Ek in Hp.
      destruct Hp as [|]; [by left|right; by apply Hsub'].
    + intros p' [[= <-]|Hin]%elem_of_cons Ek; [|by apply Hn]. rewrite Ek in Hp.
      rewrite Hp. rewrite !elem_of_app. left. right. left.
    + set_solver.
    + exists (l1 ++ l). rewrite app_assoc. split; [done|]. simpl.
      exact (sublist_app _ _ _ _ Hl1 Hl).
  - cbn [filter_step]. intros E. destruct (IH _ _ Hok E) as (Hok' & Hk & Hn & Hsub & Hl).
    split_and!; [done| | |done|done].
    + intros p k [|Hin]%elem_of_cons; [done|by apply Hk].
    + intros p [|Hin]%elem_of_cons; [done|by apply Hn].
Qed.

Lemma set_fold_insert (new : gset string) (m : gmap string Z) k :
  set_fold (fun k m => <[k := now]> m) m new !! k = if decide (k ∈ new) then Some now else m !! k.
Proof.
  assert (H : (k ∈ new -> set_fold (fun k m => <[k := now]> m) m new !! k = Some now)
    /\ (k ∉ new -> set_fold (fun k m => <[k := now]> m) m new !! k = m !! k)).
  { apply (set_fold_ind_L (fun m' new =>
      (k ∈ new -> m' !! k = Some now) /\ (k ∉ new -> m' !! k = m !! k)));
      [split; set_solver|].
    intros x X m' Hx [I1 I2]. destruct (decide (x = k)) as [->|Hne].
    - rewrite lookup_insert_eq. split; [done|set_solver].
    - rewrite lookup_insert_ne by done. split; intros; [apply I1|apply I2]; set_solver. }
  case_decide; by apply H.
Qed.
End Mempool.

(** One poll routes, in order, a selection of the parsed pins with pairwise
    different keys, none of them remembered; it drops a pin only if its key was
    remembered or routed in the same poll; and afterwards every key that was met is
    remembered, with the poll's time if it was routed. *)
Theorem filterSeenMempoolPins_exact chainName pins txIDs ttl now mempoolSeen kept seen' :
  filterSeenMempoolPins chainName pins txIDs ttl now mempoolSeen = (kept, seen') ->
  let key := stable_key chainName txIDs in
  let remembered k := live ttl now mempoolSeen k in
  kept `sublist_of` omap id pins
  /\ NoDup (omap key kept)
  /\ (forall k, k ∈ omap key kept -> ~ remembered k)
  /\ (forall p, Some p ∈ pins ->
        match key p with
        | Some k => remembered k \/ k ∈ omap key kept
        | None => p ∈ kept
        end)
  /\ (forall k, seen' !! k = if decide (k ∈ omap key kept) then Some now
                             else match mempoolSeen !! k with
                                  | Some t => if expired ttl now t then None else Some t
                                  | None => None
                                  end).
Proof.
  unfold filterSeenMempoolPins. set (seen := filter _ mempoolSeen).
  assert (Hseen : forall k, seen !! k = match mempoolSeen !! k with
      | Some t => if expired ttl now t then None else Some t | None => None end).
  { intros k. unfold seen. rewrite map_lookup_filter. destruct (mempoolSeen !! k) as [t|]; [|done].
    simpl. by destruct (expired ttl now t). }
  assert (Hlive : forall k, live ttl now seen k <-> live ttl now mempoolSeen k).
  { intros k. unfold live. rewrite Hseen. split; intros (t & Et & Ht).
    - exists t. split; [|done]. destruct (mempoolSeen !! k) as [t'|]; [|done].
      by destruct (expired _ _ _).
    - exists t. split; [|done]. rewrite Et. unfold expired.
      destruct (Z.ltb_spec 0 ttl), (Z.ltb_spec ttl (now - t)); simpl; (done || lia). }
  destruct (foldl _ _ pins) as [kept0 new] eqn:E. intros [= <- <-]. cbv zeta.
  assert (H0 : step_ok chainName txIDs ttl now seen [] ∅).
  { split_and!; [constructor|set_solver|set_solver]. }
  destruct (filter_fold_ok _ _ _ _ _ _ _ _ _ _ H0 E) as ((Hnd & Hnew & Hnl) & Hk & Hn & _ & l & -> & Hl).
  cbn [app] in *. split_and!; [done|done| | |].
  - intros k Hin. rewrite <- Hlive. by apply Hnl, Hnew.
  - intros p Hin. destruct (stable_key chainName txIDs p) as [k|] eqn:Ek; [|by apply Hn].
    rewrite <- Hlive, <- Hnew. by apply (Hk p).
  - intros k. rewrite set_fold_insert, Hseen. do 2 case_decide; [done| | |done];
      by rewrite Hnew in *.
Qed.

(** Successive polls, of any chains: each has the chain, what was parsed, and its
    time; the history is what was routed, by key, with the time. *)
Record poll := mkPoll {
  po_chain : string; po_pins : list (option PinInscription); po_txIDs : list string; po_now : Z }.
Fixpoint polls (ttl : Z) (l : list poll) (seen : gmap string Z) : list (string * Z) :=
  match l with
  | [] => []
  | b :: l =>
      let '(kept, seen) :=
        filterSeenMempoolPins (po_chain b) (po_pins b) (po_txIDs b) ttl (po_now b) seen in
      map (fun k => (k, po_now b)) (omap (stable_key (po_chain b) (po_txIDs b)) kept)
        ++ polls ttl l seen
  end.

Lemma polls_fresh ttl l seen k t t0 now :
  0 < ttl -> StronglySorted (fun a b => po_now a <= po_now b) l ->
  Forall (fun b => now <= po_now b) l -> (forall k t, seen !! k = Some t -> t <= now) ->
  (k, t) ∈ polls ttl l seen -> now <= t /\ (seen !! k = Some t0 -> ttl < t - t0).
Proof.
  intros Httl Hs. revert seen k t t0 now. induction Hs as [|b l Hs IH Hb];
    intros seen k t t0 now Hnow Hseen Hin; [by apply not_elem_of_nil in Hin|].
  cbn [polls] in Hin. inversion Hnow as [|? ? Hnb Hnow']; subst.
  destruct (filterSeenMempoolPins _ _ _ _ _ seen) as [kept seen'] eqn:E.
  apply filterSeenMempoolPins_exact in E as (_ & _ & Hnl & _ & Hs').
  assert (Hnew : forall k', k' ∈ omap (stable_key (po_chain b) (po_txIDs b)) kept ->
    forall t', seen !! k' = Some t' -> ttl < po_now b - t').
  { intros k' Hk' t' Et'. apply Z.nle_gt. intros Hle. apply (Hnl k' Hk'). exists t'. auto. }
  apply elem_of_app in Hin as [Hin|Hin].
  - apply list_elem_of_In, in_map_iff in Hin as (k' & [= <- <-] & Hk'). split; [done|].
    by apply Hnew, list_elem_of_In.
  - assert (Hseen' : forall k t, seen' !! k = Some t -> t <= po_now b).
    { intros k' t'. rewrite Hs'. case_decide; [intros [= <-]; lia|].
      destruct (seen !! k') as [t1|] eqn:E1; [|done]. destruct (expired _ _ _); [done|].
      intros [= <-]. specialize (Hseen _ _ E1). lia. }
    assert (Hge : po_now b <= t) by (by apply (IH seen' k t t0 (po_now b)) in Hin as [? _]).
    split; [lia|]. intros E0. specialize (Hs' k). rewrite E0 in Hs'.
    case_decide as Hd.
    + specialize (Hnew k Hd _ E0). lia.
    + unfold expired in Hs'. rewrite (proj2 (Z.ltb_lt 0 ttl) Httl) in Hs'. cbn [andb] in Hs'.
      destruct (Z.ltb_spec ttl (po_now b - t0)); [lia|].
      apply (IH seen' k t t0 (po_now b)) in Hin as [_ Hin]; [by apply Hin|done|done].
Qed.

(** C14: Over any sequence of polls in time order, two routed pins that share a key
    are more than the deduplication window apart. *)
Theorem mempool_once_per_window ttl l now :
  0 < ttl -> StronglySorted (fun a b => po_now a <= po_now b) l ->
  Forall (fun b => now <= po_now b) l ->
  StronglySorted (fun a b => a.1 = b.1 -> ttl < b.2 - a.2) (polls ttl l ∅).
Proof.
  intros Httl Hs Hnow.
  assert (Hseen : forall k t, (∅ : gmap string Z) !! k = Some t -> t <= now) by done.
  revert Hseen. generalize (∅ : gmap string Z). revert now Hnow.
  induction Hs as [|b l Hs IH Hb]; intros now Hnow seen Hseen; [constructor|]. cbn [polls].
  inversion Hnow as [|? ? Hnb Hnow']; subst.
  destruct (filterSeenMempoolPins _ _ _ _ _ seen) as [kept seen'] eqn:E.
  apply filterSeenMempoolPins_exact in E as (_ & Hnd & _ & _ & Hs').
  assert (Hseen' : forall k t, seen' !! k = Some t -> t <= po_now b).
  { intros k' t'. rewrite Hs'. case_decide; [intros [= <-]; lia|].
    destruct (seen !! k') as [t1|] eqn:E1; [|done]. destruct (expired _ _ _); [done|].
    intros [= <-]. specialize (Hseen _ _ E1). lia. }
  assert (Hrest := IH (po_now b) Hb seen' Hseen').
  assert (Hlate : forall k k' t, k ∈ omap (stable_key (po_chain b) (po_txIDs b)) kept ->
    (k', t) ∈ polls ttl l seen' -> k = k' -> ttl < t - po_now b).
  { intros k k' t Hk Hin ->. eapply (polls_fresh ttl l seen' k' t _ (po_now b)); try done.
    by rewrite Hs', decide_True. }
  clear Hs'. induction (omap _ kept) as [|k ks IHk]; [done|]. simpl.
  apply NoDup_cons in Hnd as [Hk Hnd]. constructor.
  - apply IHk; [done|]. intros k1 k' t Hk1. apply Hlate. by right.
  - apply Forall_app. split.
    + apply Forall_forall. intros [k' t'] Hin. simpl. intros ->.
      apply list_elem_of_In, in_map_iff in Hin as (k1 & [= <- <-] & Hin). by apply list_elem_of_In in Hin.
    + apply Forall_forall. intros [k' t'] Hin. simpl. by apply Hlate; [left|].
Qed.

(** Two different pins of one transaction share their key, so the mempool
    delivers the first only. *)
Theorem same_tx_pins_dropped chainName p q txIDs ttl now :
  TrimSpace (pin_GenesisTransaction p) <> "" ->
  TrimSpace (pin_GenesisTransaction q) = TrimSpace (pin_GenesisTransaction p) ->
  (filterSeenMempoolPins chainName [Some p; Some q] txIDs ttl now ∅).1 = [p].
Proof.
  intros Hne Hq.
  assert (Hk : forall k : string, k ∈ ({[k]} ∪ ∅ : gset string)) by (intros k; set_solver).
  assert (He : forall k : string, k ∉ (∅ : gset string)) by (intros k; set_solver).
  unfold filterSeenMempoolPins, filter_step, mempoolStableIDForPin.
  rewrite map_filter_empty. cbn [foldl fst snd]. rewrite Hq.
  destruct (TrimSpace (pin_GenesisTransaction p)) as [|c s]; [done|]. cbn [is_empty negb].
  rewrite !lookup_empty. rewrite (bool_decide_eq_false_2 ((chainName +:+ ":" +:+ String c s) ∈ ∅)) by apply He.
  cbn [fst snd]. rewrite bool_decide_eq_true_2; [done|apply Hk].
Qed.

(** ** Witnesses *)

#[local] Existing Instance sample_ops_inst.
#[local] Existing Instance sample_store_inst.
#[local] Existing Instance some_order.

Definition no_registry : Registry (sample_store * unit) := NewRegistry.
(** A node at height 8 whose [CatchPins] fails for 7. *)
Definition sample_env : ChainEnv string :=
  mkEnv None None 8 (Err "no mempool") (fun h => if h =? 7 then Err "rpc" else Ok ([], []))
    (fun _ => Ok ([], [])).
Definition engine5 : Engine sample_store unit :=
  (RegisterChain "mvc" sample_env 5 (NewEngine no_registry)).2.

Lemma restart_resumes_witness :
  let w' := persistHeight "mvc" 42 (empty_store, tt) in
  en_chains (restoreHeights w' engine5) !! "mvc" = Some 42
  /\ forall name', name' <> "mvc" ->
       en_chains (restoreHeights w' engine5) !! name'
       = en_chains (restoreHeights (empty_store, tt) engine5) !! name'.
Proof.
  apply (restart_resumes (empty_store, tt) "mvc" 42 engine5); [done|lia|vm_compute; by eexists].
Defined.

Definition pass1 := scanNewBlocks (fun _ => sample_env) engine5 (empty_store, tt).
Definition pass2 := catchUpAll (fun _ => sample_env) pass1.1.2 pass1.2.
Lemma sample_steps :
  engine_steps (engine5, (empty_store, tt)) (pass1.1.1 ++ pass2.1.1 ++ []) (pass2.1.2, pass2.2).
Proof.
  apply steps_cons with (c2 := (pass1.1.2, pass1.2)).
  { apply (step_scanNewBlocks string (fun _ => sample_env)); [by intros n|].
    unfold pass1. by destruct (scanNewBlocks _ _ _) as [[l e] w]. }
  apply steps_cons with (c2 := (pass2.1.2, pass2.2)); [|constructor].
  apply (step_catchUpAll string (fun _ => sample_env)); [by intros n|].
  unfold pass2. by destruct (catchUpAll _ _ _) as [[l e] w].
Qed.
Example sample_log : lines_of "mvc" (pass1.1.1 ++ pass2.1.1 ++ [])
  = [LogBlock 6 []; LogError 7; LogBlock 8 []].
Proof. vm_compute. reflexivity. Qed.

Lemma scan_exactly_once_witness :
  let ls := lines_of "mvc" (pass1.1.1 ++ pass2.1.1 ++ []) in
  StronglySorted Z.lt (processed ls)
  /\ (forall h, h ∈ processed ls -> lastHeight "mvc" engine5 < h <= lastHeight "mvc" pass2.1.2)
  /\ (forall h, lastHeight "mvc" engine5 < h <= lastHeight "mvc" pass2.1.2 -> h ∈ map log_height ls)
  /\ lastHeight "mvc" engine5 <= lastHeight "mvc" pass2.1.2.
Proof.
  apply (scan_exactly_once engine5 (empty_store, tt) _ pass2.1.2 pass2.2 "mvc");
    [by vm_compute|apply sample_steps].
Defined.

Lemma failed_block_never_retried_witness :
  let r := scanNew "mvc" sample_env engine5 (empty_store, tt) in
  LogError 7 ∈ r.1.1 /\
  forall ls e2 w2, engine_steps (r.1.2, r.2) ls (e2, w2) ->
    7 ∉ processed r.1.1 ++ processed (lines_of "mvc" ls).
Proof.
  apply (failed_block_never_retried "mvc" sample_env engine5 (empty_store, tt) 6 [] [] []);
    [lia|by vm_compute|done|done|done|done|].
  by destruct (scanNew "mvc" sample_env engine5 (empty_store, tt)) as [[l e] w].
Defined.

Definition mempool_pin (id tx : string) : PinInscription :=
  mkPin id 0 "/protocols/simplebuzz" "" "create" "" "" "" "" "a" "" "m" "g" "a" "mvc" tx 1 1 "" false "" "".
Definition sample_polls : list poll :=
  [mkPoll "mvc" [Some (mempool_pin "t1i0" "t1"); Some (mempool_pin "t1i0" "t1")] [] 10;
   mkPoll "mvc" [Some (mempool_pin "t1i0" "t1"); None; Some (mempool_pin "t2i0" "")] [] 12;
   mkPoll "mvc" [Some (mempool_pin "t1i0" "t1")] [] 20].
Example sample_history : polls 5 sample_polls ∅ = [("mvc:t1", 10); ("mvc:t2", 12); ("mvc:t1", 20)].
Proof. vm_compute. reflexivity. Qed.
Lemma filterSeenMempoolPins_exact_witness :
  let pins := [Some (mempool_pin "t1i0" "t1"); Some (mempool_pin "t1i0" "t1"); None] in
  let r := filterSeenMempoolPins "mvc" pins [] 5 10 ∅ in
  let key := stable_key "mvc" [] in
  r.1 `sublist_of` omap id pins /\ NoDup (omap key r.1).
Proof.
  intros pins r key.
  destruct (filterSeenMempoolPins_exact "mvc" pins [] 5 10 ∅ r.1 r.2) as (H1 & H2 & _);
    [apply surjective_pairing|]. split; assumption.
Defined.
Lemma mempool_once_per_window_witness :
  StronglySorted (fun a b => a.1 = b.1 -> 5 < b.2 - a.2) (polls 5 sample_polls ∅).
Proof.
  apply (mempool_once_per_window 5 sample_polls 0); repeat constructor; cbn [po_now]; lia.
Defined.
Lemma same_tx_pins_dropped_witness :
  (filterSeenMempoolPins "btc" [Some (mempool_pin "t1:i0" "t1"); Some (mempool_pin "t1:i1" "t1")]
     [] 5 10 ∅).1 = [mempool_pin "t1:i0" "t1"].
Proof. apply same_tx_pins_dropped; [vm_compute; discriminate|done]. Defined.
