(* ===== verification/Bits.v ===== *)
(** * Bits: positional numerals and bit operations

    Big-endian digit lists as numbers, the uniqueness of the digits of a given
    length, and the facts on [Z.land], [Z.lor], [Z.lxor] and shifts that the
    base-32 encodings and the checksum of [IdAddress] use. *)

From S2P Require Import Prelude.

(** ** Digit lists *)

(** The number with digits [l] in base [b], most significant first. *)
Definition digits_val (b : Z) (l : list Z) : Z := foldl (fun a d => a * b + d) 0 l.
Definition digits_ok (b : Z) (l : list Z) : Prop := Forall (fun d => 0 <= d < b) l.

Lemma digits_val_snoc b l d : digits_val b (l ++ [d]) = digits_val b l * b + d.
Proof. unfold digits_val. by rewrite foldl_snoc. Qed.

Lemma digits_val_nonneg b l : 0 <= b -> digits_ok b l -> 0 <= digits_val b l.
Proof.
  intros Hb H. induction l as [|d l IH] using rev_ind; [done|].
  apply Forall_app in H as [Hl Hd]. inversion Hd; subst. rewrite digits_val_snoc.
  specialize (IH Hl). nia.
Qed.

Lemma digits_val_app b l l' :
  digits_val b (l ++ l') = digits_val b l * b ^ Z.of_nat (length l') + digits_val b l'.
Proof.
  induction l' as [|d l' IH] using rev_ind.
  { rewrite app_nil_r. simpl. rewrite Z.pow_0_r. unfold digits_val at 3. simpl. lia. }
  rewrite app_assoc, !digits_val_snoc, IH, length_app. simpl.
  rewrite Nat2Z.inj_add, Z.pow_add_r by lia. change (b ^ Z.of_nat 1) with (b ^ 1). lia.
Qed.
Lemma digits_val_cons b d l :
  digits_val b (d :: l) = d * b ^ Z.of_nat (length l) + digits_val b l.
Proof. apply (digits_val_app b [d] l). Qed.

Lemma digits_val_inj b l l' :
  digits_ok b l -> digits_ok b l' -> length l = length l' ->
  digits_val b l = digits_val b l' -> l = l'.
Proof.
  intros H. revert l'. induction l as [|d l IH] using rev_ind; intros l' H' Hlen Hv.
  { destruct l'; [done|]. simpl in Hlen. lia. }
  destruct l' as [|d' l' _] using rev_ind; rewrite ?length_app in Hlen; simpl in Hlen; [lia|].
  apply Forall_app in H as [Hl Hd]. apply Forall_app in H' as [Hl' Hd'].
  inversion Hd; inversion Hd'; subst. rewrite !digits_val_snoc in Hv.
  destruct (Z.div_mod_unique b (digits_val b l) (digits_val b l') d d') as [E ->]; [lia..|].
  f_equal. apply IH; auto; lia.
Qed.

(** ** Bit operations *)

Lemma land_ones_mod z n : 0 <= n -> Z.land z (Z.ones n) = z mod 2 ^ n.
Proof. apply Z.land_ones. Qed.

Lemma ones_eq n : 0 <= n -> 2 ^ n - 1 = Z.ones n.
Proof. intros. rewrite Z.ones_equiv. lia. Qed.

(** [(z << f) | v] for [v] below [2^f]. *)
Lemma lor_shiftl_add z f v : 0 <= f -> 0 <= v < 2 ^ f -> Z.lor (Z.shiftl z f) v = z * 2 ^ f + v.
Proof.
  intros Hf Hv. rewrite <- (Z.shiftl_mul_pow2 z f) by done.
  assert (Hl : Z.land (Z.shiftl z f) v = 0).
  { apply Z.bits_inj'. intros n Hn. rewrite Z.land_spec, Z.bits_0.
    destruct (Z.lt_ge_cases n f).
    - by rewrite Z.shiftl_spec_low.
    - rewrite <- (Z.mod_small v (2 ^ f)), Z.mod_pow2_bits_high by lia. apply andb_false_r. }
  rewrite <- Z.lxor_lor by done. symmetry. by apply Z.add_nocarry_lxor.
Qed.

Lemma lxor_range n a b : 0 <= n -> 0 <= a < 2 ^ n -> 0 <= b < 2 ^ n -> 0 <= Z.lxor a b < 2 ^ n.
Proof.
  intros Hn Ha Hb.
  assert (E : Z.lxor a b mod 2 ^ n = Z.lxor a b).
  { apply Z.bits_inj'. intros k Hk. destruct (Z.lt_ge_cases k n).
    - by rewrite Z.mod_pow2_bits_low.
    - rewrite Z.mod_pow2_bits_high by lia. rewrite Z.lxor_spec.
      rewrite <- (Z.mod_small a (2 ^ n)), <- (Z.mod_small b (2 ^ n)) by done.
      by rewrite !Z.mod_pow2_bits_high by lia. }
  rewrite <- E. apply Z.mod_pos_bound. lia.
Qed.

Lemma lxor_cancel_r a b c : Z.lxor a c = Z.lxor b c -> a = b.
Proof.
  intros H. apply (f_equal (fun x => Z.lxor x c)) in H.
  by rewrite !Z.lxor_assoc, Z.lxor_nilpotent, !Z.lxor_0_r in H.
Qed.

Lemma shiftl_range c n k : 0 <= n -> 0 <= k -> 0 <= c < 2 ^ n -> 0 <= Z.shiftl c k < 2 ^ (n + k).
Proof.
  intros Hn Hk Hc. rewrite Z.shiftl_mul_pow2, Z.pow_add_r by done.
  assert (0 < 2 ^ k) by lia. nia.
Qed.

(** Equations of [Z.lxor] and [0], bit by bit. *)
Ltac xor_solve :=
  apply Z.bits_inj'; intros ? _; rewrite ?Z.lxor_spec, ?Z.bits_0;
  repeat match goal with |- context [Z.testbit ?a ?n] => destruct (Z.testbit a n) end; done.

(** [(z << f) ^ v] for [v] below [2^f]. *)
Lemma lxor_mul_add z f v : 0 <= f -> 0 <= v < 2 ^ f -> Z.lxor (z * 2 ^ f) v = z * 2 ^ f + v.
Proof.
  intros Hf Hv. rewrite <- lor_shiftl_add, Z.shiftl_mul_pow2 by done. symmetry.
  rewrite <- (Z.shiftl_mul_pow2 z f) by done.
  rewrite <- Z.lxor_lor; [done|]. apply Z.bits_inj'. intros n Hn. rewrite Z.land_spec, Z.bits_0.
  destruct (Z.lt_ge_cases n f).
  - by rewrite Z.shiftl_spec_low.
  - rewrite <- (Z.mod_small v (2 ^ f)), Z.mod_pow2_bits_high by lia. apply andb_false_r.
Qed.

(** Six base-32 digits of a 30-bit number reassemble it. *)
Lemma split30 m :
  0 <= m < 2 ^ 30 ->
  digits_val 32 (map (fun i => Z.land (Z.shiftr m (5 * (5 - i))) 31) [0; 1; 2; 3; 4; 5]) = m.
Proof.
  intros Hm. change 31 with (Z.ones 5). cbn [map]. rewrite !Z.land_ones by lia.
  assert (Hs : forall k, 0 <= k ->
    Z.shiftr m k = Z.shiftr m (k + 5) * 32 + Z.shiftr m k mod 2 ^ 5).
  { intros k Hk. rewrite <- (Z.shiftr_shiftr m k 5), (Z.shiftr_div_pow2 _ 5) by lia.
    change (2 ^ 5) with 32. pose proof (Z.div_mod (Z.shiftr m k) 32). lia. }
  pose proof (Hs 0 ltac:(lia)) as H0. pose proof (Hs 5 ltac:(lia)) as H1.
  pose proof (Hs 10 ltac:(lia)) as H2. pose proof (Hs 15 ltac:(lia)) as H3.
  pose proof (Hs 20 ltac:(lia)) as H4.
  assert (H5 : Z.shiftr m 25 mod 2 ^ 5 = Z.shiftr m 25).
  { apply Z.mod_small. rewrite Z.shiftr_div_pow2 by lia.
    split; [apply Z.div_pos|apply Z.div_lt_upper_bound]; lia. }
  change (5 * (5 - 0)) with 25. change (5 * (5 - 1)) with 20. change (5 * (5 - 2)) with 15.
  change (5 * (5 - 3)) with 10. change (5 * (5 - 4)) with 5. change (5 * (5 - 5)) with 0.
  change (0 + 5) with 5 in H0. change (5 + 5) with 10 in H1. change (10 + 5) with 15 in H2.
  change (15 + 5) with 20 in H3. change (20 + 5) with 25 in H4.
  rewrite !Z.shiftr_0_r in *. unfold digits_val. cbn [foldl]. lia.
Qed.

(** [z & (1 << n)] *)
Lemma land_pow2 z n : 0 <= n -> Z.land z (2 ^ n) = if Z.testbit z n then 2 ^ n else 0.
Proof.
  intros Hn. apply Z.bits_inj'. intros k Hk. rewrite Z.land_spec, Z.pow2_bits_eqb by done.
  destruct (Z.eqb_spec n k) as [->|Hne].
  - rewrite andb_true_r. destruct (Z.testbit z k); [by rewrite Z.pow2_bits_true|by rewrite Z.bits_0].
  - rewrite andb_false_r. destruct (Z.testbit z n); [|by rewrite Z.bits_0].
    by rewrite Z.pow2_bits_false.
Qed.
