(* ===== verification/IdAddress.v ===== *)
(** * IdAddress: chain addresses and GlobalMetaIds ([pkg/idaddress])

    The "id" address codec of [idaddress.go] (base-32 data, BCH checksum) and
    the address conversions of [converter.go] (Bech32/Bech32m, Base58Check).
    A [[]byte] or [[]int] is a [list Z]; a Go [string] is a [string].  The
    base58 alphabet code ([btcutil/base58]) and SHA-256 are not part of the
    repository: they are the class [Base58]. *)

From S2P Require Import Prelude GoText Bits.

(** ** Bit regrouping *)

(** [for bits >= toBits { bits -= toBits; ret = append(ret, (acc>>bits)&maxv) }]:
    each round lowers [bits], so [bits] rounds are enough. *)
Fixpoint emit_loop (fuel : nat) (toBits acc bits : Z) : list Z * Z :=
  match fuel with
  | O => ([], bits)
  | S fuel =>
      if toBits <=? bits then
        let bits := bits - toBits in
        let '(out, bits') := emit_loop fuel toBits acc bits in
        (Z.land (Z.shiftr acc bits) (Z.shiftl 1 toBits - 1) :: out, bits')
      else ([], bits)
  end.
Definition emit (toBits acc bits : Z) : list Z * Z :=
  emit_loop (Z.to_nat bits) toBits acc bits.

(** The loop over the input values of [convertBits] and [convertBits8to5].
    [norm] is what the code does to the accumulator after the shift (the mask
    [& maxAcc], or the wrap-around of [int]); [valid] is the range check. *)
Fixpoint regroup (norm : Z -> Z) (valid : Z -> bool) (fromBits toBits acc bits : Z)
    (data : list Z) : res (list Z * Z * Z) :=
  match data with
  | [] => Ok ([], acc, bits)
  | value :: data =>
      if negb (valid value) then Err "invalid data value" else
      let acc := norm (Z.lor (Z.shiftl acc fromBits) value) in
      let '(out, bits) := emit toBits acc (bits + fromBits) in
      x <-? regroup norm valid fromBits toBits acc bits data ;;
      let '(rest, acc, bits) := x in Ok (out ++ rest, acc, bits)
  end.

(** The tail of both functions: the padding. *)
Definition finish_bits (fromBits toBits : Z) (pad : bool) (x : list Z * Z * Z) : res (list Z) :=
  let '(ret, acc, bits) := x in
  let last := Z.land (wrap64 (Z.shiftl acc (toBits - bits))) (Z.shiftl 1 toBits - 1) in
  if pad then Ok (if 0 <? bits then ret ++ [last] else ret)
  else if (fromBits <=? bits) || negb (last =? 0) then Err "invalid padding"
  else Ok ret.

Definition byteOf (v : Z) : Z := u8 v.

(** [intSliceToBytes] and [toByteArray]. *)
Definition intSliceToBytes (data : list Z) : list Z := map byteOf data.
Definition toByteArray (ints : list Z) : list Z := map byteOf ints.

(** [convertBits] of [idaddress.go], on bytes (an [[]int] argument goes through
    [intSliceToBytes] first). *)
Definition convertBits (byteData : list Z) (fromBits toBits : Z) (pad : bool) : res (list Z) :=
  let maxAcc := Z.shiftl 1 (fromBits + toBits - 1) - 1 in
  x <-? regroup (fun acc => Z.land acc maxAcc) (fun v => Z.shiftr v fromBits =? 0)
          fromBits toBits 0 0 byteData ;;
  finish_bits fromBits toBits pad x.

(** [convertBits8to5] of [converter.go]: no mask, so the accumulator is an
    [int] that wraps around; no range check. *)
Definition convertBits8to5 (data : list Z) (fromBits toBits : Z) (pad : bool) : res (list Z) :=
  x <-? regroup wrap64 (fun _ => true) fromBits toBits 0 0 data ;;
  finish_bits fromBits toBits pad x.

(** ** The checksum *)

Definition gen : list Z := [0x3b6a57b2; 0x26508e6d; 0x1ea119fa; 0x3d4233dd; 0x2a1462b3].

(** [for i := 0; i < 5; i++ { if (top>>i)&1 == 1 { chk ^= gen[i] } }] *)
Fixpoint xor_gens (top : Z) (i : Z) (gens : list Z) (chk : Z) : Z :=
  match gens with
  | [] => chk
  | g :: gens =>
      xor_gens top (i + 1) gens (if Z.land (Z.shiftr top i) 1 =? 1 then Z.lxor chk g else chk)
  end.
Definition polymod_step (chk v : Z) : Z :=
  let top := Z.shiftr chk 25 in
  xor_gens top 0 gen (Z.lxor (Z.shiftl (Z.land chk 0x1ffffff) 5) v).
Definition polymod (values : list Z) : Z := foldl polymod_step 1 values.

(** [hrpExpand] writes at the byte index of each rune of a zeroed slice. *)
Definition hrpExpand (hrp : string) : list Z :=
  let n := String.length hrp in
  let ret := foldl (fun ret '(i, c) =>
      <[(Z.to_nat i + n + 1)%nat := Z.land c 31]> (<[Z.to_nat i := Z.shiftr c 5]> ret))
    (replicate (n * 2 + 1) 0) (range_runes hrp) in
  <[n := 0]> ret.

(** [bech32HrpExpand] appends per rune. *)
Definition bech32HrpExpand (hrp : string) : list Z :=
  map (fun c => Z.shiftr c 5) (range_runes hrp).*2 ++ [0] ++
  map (fun c => Z.land c 31) (range_runes hrp).*2.

(** [for i := 0; i < 6; i++ { ret[i] = (mod >> (5 * (5 - i))) & 31 }] *)
Definition checksum_digits (m : Z) : list Z :=
  map (fun i => Z.land (Z.shiftr m (5 * (5 - i))) 31) [0; 1; 2; 3; 4; 5].

Definition createChecksum (hrpExpand data : list Z) : list Z :=
  checksum_digits (Z.lxor (polymod (hrpExpand ++ data ++ [0; 0; 0; 0; 0; 0])) 1).

Definition verifyChecksum (hrpExpand data : list Z) : bool :=
  polymod (hrpExpand ++ data) =? 1.

(** ** The id address codec ([idaddress.go]) *)

Definition HRP : string := "id".
Definition Separator : string := "1".
Definition ChecksumLength : nat := 6.

(** [AddressVersion] is a byte; the constants are 0..5. *)
Definition VersionP2PKH : Z := 0.
Definition VersionP2SH : Z := 1.
Definition VersionP2WPKH : Z := 2.
Definition VersionP2WSH : Z := 3.
Definition VersionP2MS : Z := 4.
Definition VersionP2TR : Z := 5.

Definition VersionChar (v : Z) : option string :=
  if v =? VersionP2PKH then Some "q" else if v =? VersionP2SH then Some "p"
  else if v =? VersionP2WPKH then Some "z" else if v =? VersionP2WSH then Some "r"
  else if v =? VersionP2MS then Some "y" else if v =? VersionP2TR then Some "t" else None.
Definition CharVersion (s : string) : option Z :=
  if String.eqb s "q" then Some VersionP2PKH else if String.eqb s "p" then Some VersionP2SH
  else if String.eqb s "z" then Some VersionP2WPKH else if String.eqb s "r" then Some VersionP2WSH
  else if String.eqb s "y" then Some VersionP2MS else if String.eqb s "t" then Some VersionP2TR
  else None.

Definition Charset : string := "qpzry9x8gf2tvdw0s3jn54khce6mua7l".

(** [CharsetMap], filled by [init] from [Charset]: the index of a byte. *)
Fixpoint index_from (i : Z) (l : list Z) (b : Z) : option Z :=
  match l with
  | [] => None
  | c :: l => if b =? c then Some i else index_from (i + 1) l b
  end.
Definition CharsetMap (b : Z) : option Z := index_from 0 (bytes_of_string Charset) b.

(** [Charset[val]]; an index outside the string panics. *)
Definition charset_at (val : Z) : res ascii :=
  if (0 <=? val) && (val <? slen Charset) then
    match String.get (Z.to_nat val) Charset with
    | Some c => Ok c
    | None => Err "panic: index out of range"
    end
  else Err "panic: index out of range".
Fixpoint charset_string (vals : list Z) : res string :=
  match vals with
  | [] => Ok ""
  | v :: vals =>
      c <-? charset_at v ;;
      s <-? charset_string vals ;;
      Ok (String c s)
  end.

(** [nil] is [None]; an error otherwise. *)
Definition validateDataLength (version : Z) (data : list Z) : option error :=
  let n := Z.of_nat (length data) in
  if (version =? VersionP2PKH) || (version =? VersionP2SH) || (version =? VersionP2WPKH) then
    if n =? 20 then None else Some "invalid data length for version: expected 20"
  else if version =? VersionP2WSH then
    if n =? 32 then None else Some "invalid data length for version: expected 32"
  else if version =? VersionP2TR then
    if n =? 32 then None else Some "invalid data length for version: expected 32"
  else if version =? VersionP2MS then
    match data with
    | m :: n' :: _ =>
        if (m =? 0) || (n' =? 0) || (n' <? m) || (15 <? n')
        then Some "invalid multisig parameters"
        else if n =? 2 + n' * 33 then None else Some "invalid multisig data length"
    | _ => Some "invalid multisig data: too short"
    end
  else Some "unknown version".

Record AddressInfo := mkAddressInfo {
  ai_Version : Z;
  ai_Data : list Z;
  ai_Address : string }.

Definition EncodeIDAddress (version : Z) (data : list Z) : res string :=
  match VersionChar version with
  | None => Err "invalid version"
  | Some versionChar =>
      match validateDataLength version data with
      | Some err => Err err
      | None =>
          converted <-? convertBits data 8 5 true ;;
          let hrpWithVersion := HRP +:+ versionChar in
          let checksum := createChecksum (hrpExpand hrpWithVersion) converted in
          encoded <-? charset_string (converted ++ checksum) ;;
          Ok (hrpWithVersion +:+ (Separator +:+ encoded))
      end
  end.

(** The base-32 loop of [DecodeIDAddress]: the map is indexed with [byte(c)]
    for a rune [c], and the result is written at the rune's byte index. *)
Definition decode_data (dataStr : string) : res (list Z) :=
  foldl (fun acc '(i, c) =>
      decoded <-? acc ;;
      match CharsetMap (byteOf c) with
      | None => Err "invalid character"
      | Some val => Ok (<[Z.to_nat i := val]> decoded)
      end)
    (Ok (replicate (String.length dataStr) 0)) (range_runes dataStr).

Definition DecodeIDAddress (addr : string) : res AddressInfo :=
  let addr := ToLower addr in
  if negb (HasPrefix addr HRP) then Err "invalid HRP: must start with 'id'" else
  match LastIndex addr Separator with
  | None => Err "separator not found"
  | Some sepIndex =>
      if (sepIndex <? String.length HRP + 1)%nat then Err "invalid address format" else
      let versionChar := stake (sepIndex - String.length HRP) (sdrop (String.length HRP) addr) in
      match CharVersion versionChar with
      | None => Err "invalid version character"
      | Some version =>
          let dataStr := sdrop (sepIndex + 1) addr in
          if (String.length dataStr <? ChecksumLength)%nat then Err "address too short" else
          decoded <-? decode_data dataStr ;;
          let hrpWithVersion := HRP +:+ versionChar in
          if negb (verifyChecksum (hrpExpand hrpWithVersion) decoded)
          then Err "checksum verification failed" else
          let data := take (length decoded - ChecksumLength) decoded in
          convertedInts <-? convertBits (intSliceToBytes data) 5 8 false ;;
          let converted := intSliceToBytes convertedInts in
          match validateDataLength version converted with
          | Some err => Err err
          | None => Ok (mkAddressInfo version converted addr)
          end
      end
  end.

Definition ValidateIDAddress (addr : string) : bool := is_ok (DecodeIDAddress addr).

Definition GetAddressType (version : Z) : string :=
  if version =? VersionP2PKH then "Pay-to-PubKey-Hash"
  else if version =? VersionP2SH then "Pay-to-Script-Hash"
  else if version =? VersionP2WPKH then "Pay-to-Witness-PubKey-Hash"
  else if version =? VersionP2WSH then "Pay-to-Witness-Script-Hash"
  else if version =? VersionP2MS then "Pay-to-Multisig"
  else if version =? VersionP2TR then "Pay-to-Taproot" else "Unknown".

(** ** Bech32 and Bech32m ([converter.go]) *)

Inductive Bech32Encoding := Bech32 | Bech32m.
#[export] Instance Bech32Encoding_dec : EqDecision Bech32Encoding.
Proof. solve_decision. Defined.

(** [bech32CharsetMap], written out per rune in the source. *)
Definition bech32CharsetMap (c : Z) : option Z :=
  if c =? 113 then Some 0 else if c =? 112 then Some 1 else if c =? 122 then Some 2
  else if c =? 114 then Some 3 else if c =? 121 then Some 4 else if c =? 57 then Some 5
  else if c =? 120 then Some 6 else if c =? 56 then Some 7 else if c =? 103 then Some 8
  else if c =? 102 then Some 9 else if c =? 50 then Some 10 else if c =? 116 then Some 11
  else if c =? 118 then Some 12 else if c =? 100 then Some 13 else if c =? 119 then Some 14
  else if c =? 48 then Some 15 else if c =? 115 then Some 16 else if c =? 51 then Some 17
  else if c =? 106 then Some 18 else if c =? 110 then Some 19 else if c =? 53 then Some 20
  else if c =? 52 then Some 21 else if c =? 107 then Some 22 else if c =? 104 then Some 23
  else if c =? 99 then Some 24 else if c =? 101 then Some 25 else if c =? 54 then Some 26
  else if c =? 109 then Some 27 else if c =? 117 then Some 28 else if c =? 97 then Some 29
  else if c =? 55 then Some 30 else if c =? 108 then Some 31 else None.
Definition bech32Const (encoding : Bech32Encoding) : Z :=
  match encoding with Bech32 => 1 | Bech32m => 0x2bc830a3 end.

Definition bech32VerifyChecksum (hrp : string) (data : list Z) (encoding : Bech32Encoding) : bool :=
  polymod (bech32HrpExpand hrp ++ data) =? bech32Const encoding.

Fixpoint bech32_data (runes : list Z) : res (list Z) :=
  match runes with
  | [] => Ok []
  | c :: runes =>
      match bech32CharsetMap c with
      | None => Err "invalid bech32 character"
      | Some val => rest <-? bech32_data runes ;; Ok (val :: rest)
      end
  end.

(** The results of [Bech32Decode]. *)
Record Bech32Addr := mkBech32 {
  b32_hrp : string;
  b32_version : Z;
  b32_program : list Z;
  b32_encoding : Bech32Encoding }.

Definition Bech32Decode (addr : string) : res Bech32Addr :=
  let addr := ToLower addr in
  match LastIndex addr "1" with
  | None => Err "invalid bech32 address format"
  | Some pos =>
      if (Z.of_nat pos <? 1) || (slen addr <? Z.of_nat pos + 7) || (90 <? slen addr)
      then Err "invalid bech32 address format" else
      let hrp := stake pos addr in
      let data := sdrop (pos + 1) addr in
      decoded <-? bech32_data (range_runes data).*2 ;;
      encoding <-?
        (if bech32VerifyChecksum hrp decoded Bech32m then Ok Bech32m
         else if bech32VerifyChecksum hrp decoded Bech32 then Ok Bech32
         else Err "invalid bech32 checksum") ;;
      match take (length decoded - 6) decoded with
      | [] => Err "invalid bech32 data length"
      | d0 :: decoded =>
          let version := byteOf d0 in
          program <-? convertBits8to5 (toByteArray decoded) 5 8 false ;;
          let n := Z.of_nat (length program) in
          if (n <? 2) || (40 <? n) then Err "invalid witness program length"
          else if (version =? 0) && negb (bool_decide (encoding = Bech32))
          then Err "witness version 0 must use bech32"
          else if negb (version =? 0) && negb (bool_decide (encoding = Bech32m))
          then Err "witness version 1+ must use bech32m"
          else Ok (mkBech32 hrp version program encoding)
      end
  end.

Definition Bech32Encode (hrp : string) (version : Z) (program : list Z) : res string :=
  let encoding := if negb (version =? 0) then Bech32m else Bech32 in
  let n := Z.of_nat (length program) in
  if (n <? 2) || (40 <? n) then Err "invalid witness program length" else
  converted <-? convertBits8to5 program 8 5 true ;;
  let data := version :: converted in
  let poly := Z.lxor (polymod (bech32HrpExpand hrp ++ data ++ [0; 0; 0; 0; 0; 0]))
                (bech32Const encoding) in
  s <-? charset_string (data ++ checksum_digits poly) ;;
  Ok (hrp +:+ (Separator +:+ s)).

(** ** Base58Check and the conversions ([converter.go]) *)

(** [base58.Encode], [base58.Decode] and [sha256.Sum256]. *)
Class Base58 := {
  base58_Encode : list Z -> string;
  base58_Decode : string -> list Z;
  sha256_Sum256 : list Z -> list Z;
  sha256_length l : length (sha256_Sum256 l) = 32%nat;
  sha256_bytes l : bytes_ok (sha256_Sum256 l);
  base58_roundtrip l : bytes_ok l -> base58_Decode (base58_Encode l) = l }.

(** [BitcoinAddress] of [ParseBitcoinAddress]. *)
Record BitcoinAddress := mkBitcoinAddress {
  ba_Type : string;
  ba_Network : string;
  ba_Data : list Z }.

Section Converter.
Context {B58 : Base58}.

Definition doubleSHA256 (data : list Z) : list Z := sha256_Sum256 (sha256_Sum256 data).

Definition Base58Decode (input : string) : res (list Z) :=
  let decoded := base58_Decode input in
  if Nat.eqb (length decoded) 0 && (0 <? slen input) then Err "invalid base58 string"
  else Ok decoded.

Definition Base58CheckDecode (input : string) : res (Z * list Z) :=
  decoded <-? Base58Decode input ;;
  if (length decoded <? 5)%nat then Err "decoded data too short" else
  let data := take (length decoded - 4) decoded in
  let checksum := drop (length decoded - 4) decoded in
  if bool_decide (take 4 checksum = take 4 (doubleSHA256 data)) then
    match data with
    | version :: payload => Ok (version, payload)
    | [] => Err "panic: index out of range"
    end
  else Err "checksum mismatch".

Definition Base58CheckEncode (version : Z) (payload : list Z) : string :=
  let data := version :: payload in
  base58_Encode (data ++ take 4 (doubleSHA256 data)).

Definition convertFromLegacyAddress (version : Z) (payload : list Z) : res string :=
  if version =? 0x00 then EncodeIDAddress VersionP2PKH payload
  else if version =? 0x05 then EncodeIDAddress VersionP2SH payload
  else if version =? 0x6F then EncodeIDAddress VersionP2PKH payload
  else if version =? 0xC4 then EncodeIDAddress VersionP2SH payload
  else if version =? 0x1E then EncodeIDAddress VersionP2PKH payload
  else if version =? 0x16 then EncodeIDAddress VersionP2SH payload
  else Err "unsupported version byte".

Definition convertFromSegWitAddress (hrp : string) (witnessVersion : Z) (program : list Z)
    : res string :=
  if negb (String.eqb hrp "bc") && negb (String.eqb hrp "tb") then Err "unsupported network"
  else if witnessVersion =? 0 then
    if Nat.eqb (length program) 20 then EncodeIDAddress VersionP2WPKH program
    else if Nat.eqb (length program) 32 then EncodeIDAddress VersionP2WSH program
    else Err "invalid witness v0 program length"
  else if witnessVersion =? 1 then
    if Nat.eqb (length program) 32 then EncodeIDAddress VersionP2TR program
    else Err "invalid taproot program length"
  else Err "unsupported witness version".

Definition ConvertFromBitcoin (bitcoinAddr : string) : res string :=
  match Base58CheckDecode bitcoinAddr with
  | Ok (version, payload) => convertFromLegacyAddress version payload
  | Err _ =>
      match Bech32Decode bitcoinAddr with
      | Ok a => convertFromSegWitAddress (b32_hrp a) (b32_version a) (b32_program a)
      | Err _ => Err "unsupported address format"
      end
  end.

Definition ConvertToBitcoin (idAddr network : string) : res string :=
  info <-? DecodeIDAddress idAddr ;;
  let hrp := if String.eqb network "testnet" then "tb" else "bc" in
  let mainnet := String.eqb network "mainnet" in
  let v := ai_Version info in
  let n := length (ai_Data info) in
  if v =? VersionP2PKH then Ok (Base58CheckEncode (if mainnet then 0x00 else 0x6F) (ai_Data info))
  else if v =? VersionP2SH then
    Ok (Base58CheckEncode (if mainnet then 0x05 else 0xC4) (ai_Data info))
  else if v =? VersionP2WPKH then
    if negb (Nat.eqb n 20) then Err "invalid P2WPKH data length"
    else Bech32Encode hrp 0 (ai_Data info)
  else if v =? VersionP2WSH then
    if negb (Nat.eqb n 32) then Err "invalid P2WSH data length"
    else Bech32Encode hrp 0 (ai_Data info)
  else if v =? VersionP2TR then
    if negb (Nat.eqb n 32) then Err "invalid P2TR data length"
    else Bech32Encode hrp 1 (ai_Data info)
  else Err "cannot convert version to Bitcoin address".

Definition ConvertToDogecoin (idAddr : string) : res string :=
  info <-? DecodeIDAddress idAddr ;;
  if ai_Version info =? VersionP2PKH then Ok (Base58CheckEncode 0x1E (ai_Data info))
  else if ai_Version info =? VersionP2SH then Ok (Base58CheckEncode 0x16 (ai_Data info))
  else Err "cannot convert version to Dogecoin address".

Definition ParseBitcoinAddress (addr : string) : res BitcoinAddress :=
  x <-? Base58CheckDecode addr ;;
  let '(version, payload) := x in
  if version =? 0x00 then Ok (mkBitcoinAddress "P2PKH" "mainnet" payload)
  else if version =? 0x05 then Ok (mkBitcoinAddress "P2SH" "mainnet" payload)
  else if version =? 0x6F then Ok (mkBitcoinAddress "P2PKH" "testnet" payload)
  else if version =? 0xC4 then Ok (mkBitcoinAddress "P2SH" "testnet" payload)
  else if version =? 0x1E then Ok (mkBitcoinAddress "P2PKH" "dogecoin" payload)
  else if version =? 0x16 then Ok (mkBitcoinAddress "P2SH" "dogecoin" payload)
  else Err "unknown version".

(** [EncodeGlobalMetaId(metaid, chainName)]; the chain name is not used. *)
Definition EncodeGlobalMetaId (metaid chainName : string) : string :=
  if is_empty metaid || String.eqb metaid "errorAddr" then ""
  else match ConvertFromBitcoin metaid with Ok idAddr => idAddr | Err _ => "" end.

Definition DecodeGlobalMetaId (globalMetaId : string) : res (string * string) :=
  if is_empty globalMetaId then Err "empty globalMetaId" else
  match ConvertToBitcoin globalMetaId "mainnet" with
  | Ok addr => Ok (addr, "btc")
  | Err _ =>
      match ConvertToBitcoin globalMetaId "testnet" with
      | Ok addr => Ok (addr, "btc")
      | Err _ =>
          match ConvertToDogecoin globalMetaId with
          | Ok addr => Ok (addr, "doge")
          | Err _ => Err "unsupported globalMetaId format"
          end
      end
  end.

(** [AddressConverter]: its one field and its methods. *)
Record AddressConverter := NewAddressConverter { ac_defaultNetwork : string }.
Definition ToID (ac : AddressConverter) (addr : string) : res string := ConvertFromBitcoin addr.
Definition FromID (ac : AddressConverter) (idAddr network : string) : res string :=
  let network := if is_empty network then ac_defaultNetwork ac else network in
  if String.eqb network "bitcoin" || String.eqb network "mainnet"
     || String.eqb network "testnet"
  then ConvertToBitcoin idAddr network
  else if String.eqb network "dogecoin" then ConvertToDogecoin idAddr
  else Err "unsupported network".
Definition Batch (ac : AddressConverter) (addrs : list string) : list string * list (option error) :=
  (map (fun a => match ToID ac a with Ok s => s | Err _ => "" end) addrs,
   map (fun a => match ToID ac a with Ok _ => None | Err e => Some e end) addrs).
End Converter.
