(* ===== verification/IdAddressFacts.v ===== *)
(** * IdAddressFacts: the address codecs are correct

    The bit regrouping is a change of base, the checksum is linear over
    exclusive or, and with both: encoding and decoding are inverse, a checksum
    rejects every substituted symbol, and the conversions between chain
    addresses and GlobalMetaIds go there and back. *)

From S2P Require Import Prelude GoText Bits IdAddress.

(** ** Bit regrouping is a change of base *)

Lemma emit_spec to acc bits out bits' :
  0 < to -> 0 <= bits -> emit to acc bits = (out, bits') ->
  0 <= bits' < to /\ digits_ok (2 ^ to) out /\ Z.of_nat (length out) * to + bits' = bits
  /\ digits_val (2 ^ to) out * 2 ^ bits' + acc mod 2 ^ bits' = acc mod 2 ^ bits.
Proof.
  intros Hto Hb. unfold emit.
  assert (Hf : bits <= Z.of_nat (Z.to_nat bits)) by lia. revert Hf.
  generalize (Z.to_nat bits). intros fuel. revert bits Hb out.
  induction fuel as [|fuel IH]; intros bits Hb out Hf; simpl.
  { intros [= <- <-]. split_and!; cbn [length]; try lia; [constructor|]. unfold digits_val. simpl. lia. }
  destruct (Z.leb_spec to bits) as [H|H].
  2:{ intros [= <- <-]. split_and!; cbn [length]; try lia; [constructor|]. unfold digits_val. simpl. lia. }
  destruct (emit_loop fuel to acc (bits - to)) as [out1 b1] eqn:E. intros [= <- <-].
  destruct (IH (bits - to) ltac:(lia) out1 ltac:(lia) E) as (H1 & H2 & H3 & H4).
  assert (Hd : Z.land (Z.shiftr acc (bits - to)) (Z.shiftl 1 to - 1)
               = acc / 2 ^ (bits - to) mod 2 ^ to).
  { rewrite Z.shiftl_1_l, ones_eq, Z.land_ones, Z.shiftr_div_pow2 by lia. done. }
  rewrite Hd. split_and!; try lia.
  - constructor; [apply Z.mod_pos_bound; lia|done].
  - cbn [length]. lia.
  - rewrite digits_val_cons.
    assert (Hp : (2 ^ to) ^ Z.of_nat (length out1) * 2 ^ b1 = 2 ^ (bits - to)).
    { rewrite <- Z.pow_mul_r, <- Z.pow_add_r by lia. f_equal. lia. }
    assert (Hm : acc mod 2 ^ bits
                 = acc mod 2 ^ (bits - to) + 2 ^ (bits - to) * (acc / 2 ^ (bits - to) mod 2 ^ to)).
    { rewrite <- Z.rem_mul_r by lia. f_equal. rewrite <- Z.pow_add_r by lia. f_equal. lia. }
    rewrite Hm, <- H4, <- Hp. lia.
Qed.

Section Regroup.
Variables (norm : Z -> Z) (valid : Z -> bool) (from to : Z).
Hypothesis Hfrom : 0 < from.
Hypothesis Hto : 0 < to.
(** the accumulator keeps the bits that are still to be emitted *)
Hypothesis Hnorm : forall z k, 0 <= k <= from + to - 1 -> norm z mod 2 ^ k = z mod 2 ^ k.
Hypothesis Hvalid : forall v, 0 <= v < 2 ^ from -> valid v = true.

Lemma regroup_spec data acc bits :
  digits_ok (2 ^ from) data -> 0 <= bits < to ->
  exists out acc' bits', regroup norm valid from to acc bits data = Ok (out, acc', bits')
  /\ 0 <= bits' < to /\ digits_ok (2 ^ to) out
  /\ Z.of_nat (length out) * to + bits' = bits + from * Z.of_nat (length data)
  /\ digits_val (2 ^ to) out * 2 ^ bits' + acc' mod 2 ^ bits'
     = (acc mod 2 ^ bits) * (2 ^ from) ^ Z.of_nat (length data) + digits_val (2 ^ from) data.
Proof.
  intros Hd. revert acc bits. induction Hd as [|v data Hv Hd IH]; intros acc bits Hb; simpl.
  { exists [], acc, bits. split_and!; cbn [length]; try lia; [done|constructor|]. unfold digits_val. simpl. lia. }
  rewrite Hvalid by done. simpl.
  set (acc1 := norm _). destruct (emit to acc1 (bits + from)) as [out1 b1] eqn:E.
  apply emit_spec in E as (Hb1 & Ho1 & Hl1 & Hv1); [|lia..].
  destruct (IH acc1 b1 Hb1) as (out2 & acc2 & b2 & -> & Hb2 & Ho2 & Hl2 & Hv2).
  exists (out1 ++ out2), acc2, b2. split_and!; cbn [length]; try lia; [done|..].
  - by apply Forall_app.
  - rewrite length_app. lia.
  - assert (Ha : acc1 mod 2 ^ (bits + from) = (acc mod 2 ^ bits) * 2 ^ from + v).
    { unfold acc1. rewrite Hnorm, lor_shiftl_add by lia.
      rewrite (Z.add_comm bits from), (Z.add_comm (acc * _) v), Z.pow_add_r by lia.
      rewrite Z.rem_mul_r by lia.
      rewrite Z.mod_add, Z.mod_small, Z.div_add, Z.div_small, Z.add_0_l by lia. lia. }
    assert (Hp : (2 ^ to) ^ Z.of_nat (length out2) * 2 ^ b2
                 = (2 ^ from) ^ Z.of_nat (length data) * 2 ^ b1).
    { rewrite <- !Z.pow_mul_r, <- !Z.pow_add_r by lia. f_equal. lia. }
    rewrite digits_val_app, digits_val_cons, Nat2Z.inj_succ, Z.pow_succ_r by lia.
    transitivity (digits_val (2 ^ to) out1 * ((2 ^ to) ^ Z.of_nat (length out2) * 2 ^ b2)
      + (digits_val (2 ^ to) out2 * 2 ^ b2 + acc2 mod 2 ^ b2)); [lia|].
    rewrite Hv2, Hp.
    transitivity ((digits_val (2 ^ to) out1 * 2 ^ b1 + acc1 mod 2 ^ b1)
      * (2 ^ from) ^ Z.of_nat (length data) + digits_val (2 ^ from) data); [lia|].
    rewrite Hv1, Ha. lia.
Qed.
End Regroup.

(** The padding digit. *)
Lemma last_digit to acc bits :
  0 <= bits < to -> to <= 64 ->
  Z.land (wrap64 (Z.shiftl acc (to - bits))) (Z.shiftl 1 to - 1)
  = (acc mod 2 ^ bits) * 2 ^ (to - bits).
Proof.
  intros Hb Hto. rewrite Z.shiftl_1_l, ones_eq, Z.land_ones, wrap64_mod by lia.
  rewrite Z.shiftl_mul_pow2 by lia.
  replace (2 ^ to) with (2 ^ bits * 2 ^ (to - bits)) by (rewrite <- Z.pow_add_r by lia; f_equal; lia).
  rewrite Z.mul_mod_distr_r by lia. done.
Qed.

Section Roundtrip.
Variables (norm1 norm2 : Z -> Z) (valid1 valid2 : Z -> bool).
Hypothesis Hn1 : forall z k, 0 <= k <= 12 -> norm1 z mod 2 ^ k = z mod 2 ^ k.
Hypothesis Hn2 : forall z k, 0 <= k <= 12 -> norm2 z mod 2 ^ k = z mod 2 ^ k.
Hypothesis Hv1 : forall v, 0 <= v < 2 ^ 8 -> valid1 v = true.
Hypothesis Hv2 : forall v, 0 <= v < 2 ^ 5 -> valid2 v = true.

Definition regroup_with (norm : Z -> Z) (valid : Z -> bool) (from to : Z) (pad : bool)
    (data : list Z) : res (list Z) :=
  x <-? regroup norm valid from to 0 0 data ;; finish_bits from to pad x.

(** Eight to five with padding: the digits, and their number. *)
Lemma regroup_8to5 data :
  bytes_ok data ->
  exists out pad, regroup_with norm1 valid1 8 5 true data = Ok out
  /\ digits_ok 32 out /\ 0 <= pad < 5
  /\ Z.of_nat (length out) * 5 = 8 * Z.of_nat (length data) + pad
  /\ digits_val 32 out = digits_val 256 data * 2 ^ pad.
Proof.
  intros Hd. unfold regroup_with.
  destruct (regroup_spec norm1 valid1 8 5 ltac:(lia) ltac:(lia) ltac:(intros; apply Hn1; lia) Hv1
              data 0 0 Hd ltac:(lia)) as (out & acc & bits & -> & Hb & Ho & Hl & Hv).
  unfold finish_bits. rewrite last_digit by lia.
  change (2 ^ 5) with 32 in *. change (2 ^ 8) with 256 in *.
  rewrite Zmod_0_l, Z.mul_0_l, Z.add_0_l in Hv.
  destruct (Z.ltb_spec 0 bits).
  - exists (out ++ [(acc mod 2 ^ bits) * 2 ^ (5 - bits)]), (5 - bits).
    assert (E : 2 ^ bits * 2 ^ (5 - bits) = 32)
      by (rewrite <- Z.pow_add_r by lia; by replace (bits + (5 - bits)) with 5 by lia).
    split_and!; try lia; [done|..].
    + apply Forall_app. split; [done|]. repeat constructor.
      all: pose proof (Z.mod_pos_bound acc (2 ^ bits) ltac:(lia)); nia.
    + rewrite length_app. simpl. lia.
    + rewrite digits_val_snoc, <- Hv, <- E. lia.
  - assert (bits = 0) as -> by lia. exists out, 0. split_and!; try lia; [done|done|].
    rewrite <- Hv. rewrite Z.pow_0_r, Zmod_1_r. lia.
Qed.

(** Five to eight of padded digits: exactly the bytes. *)
Lemma regroup_5to8 l data pad :
  digits_ok 32 l -> bytes_ok data -> 0 <= pad < 5 ->
  Z.of_nat (length l) * 5 = 8 * Z.of_nat (length data) + pad ->
  digits_val 32 l = digits_val 256 data * 2 ^ pad ->
  regroup_with norm2 valid2 5 8 false l = Ok data.
Proof.
  intros Hl Hd Hp Hlen Hval. unfold regroup_with.
  destruct (regroup_spec norm2 valid2 5 8 ltac:(lia) ltac:(lia) ltac:(intros; apply Hn2; lia) Hv2
              l 0 0 Hl ltac:(lia)) as (out & acc & bits & -> & Hb & Ho & Hl' & Hv).
  rewrite Zmod_0_l, Z.mul_0_l, Z.add_0_l in Hv. change (2 ^ 5) with 32 in *.
  change (2 ^ 8) with 256 in *. rewrite Hval in Hv.
  assert (bits = pad) as -> by lia.
  pose proof (Z.mod_pos_bound acc (2 ^ pad) ltac:(lia)) as Hm.
  destruct (Z.div_mod_unique (2 ^ pad) (digits_val 256 out) (digits_val 256 data)
              (acc mod 2 ^ pad) 0) as [Hvo Hz]; [lia..|].
  unfold finish_bits. rewrite last_digit, Hz, Z.mul_0_l by lia.
  rewrite (proj2 (Z.leb_gt 5 pad)) by lia. simpl. f_equal.
  apply (digits_val_inj 256); auto. lia.
Qed.
End Roundtrip.

Lemma mask_norm z k : 0 <= k <= 12 -> Z.land z (Z.shiftl 1 12 - 1) mod 2 ^ k = z mod 2 ^ k.
Proof.
  intros Hk. rewrite Z.shiftl_1_l, ones_eq, Z.land_ones by lia.
  replace (2 ^ 12) with (2 ^ k * 2 ^ (12 - k)) by (rewrite <- Z.pow_add_r by lia; f_equal; lia).
  rewrite Z.rem_mul_r by lia. rewrite Z.mul_comm, Z.mod_add by lia. by rewrite Z.mod_mod by lia.
Qed.
Lemma wrap_norm z k : 0 <= k <= 12 -> wrap64 z mod 2 ^ k = z mod 2 ^ k.
Proof. intros. apply wrap64_mod. lia. Qed.
Lemma valid_norm n v : 0 <= n -> 0 <= v < 2 ^ n -> (Z.shiftr v n =? 0) = true.
Proof. intros Hn Hv. rewrite Z.shiftr_div_pow2, Z.div_small by lia. done. Qed.

(** ** The checksum is linear over exclusive or *)

Lemma bit_test t i : 0 <= i -> (Z.land (Z.shiftr t i) 1 =? 1) = Z.testbit t i.
Proof.
  intros Hi. change 1 with (Z.ones 1) at 1. rewrite Z.land_ones, Z.shiftr_div_pow2 by lia.
  change (2 ^ 1) with 2. rewrite <- Z.testbit_spec' by done. by destruct (Z.testbit t i).
Qed.

Lemma land_lxor_distr a b c : Z.land (Z.lxor a b) c = Z.lxor (Z.land a c) (Z.land b c).
Proof.
  apply Z.bits_inj'. intros n _. rewrite Z.lxor_spec, !Z.land_spec, Z.lxor_spec.
  by destruct (Z.testbit a n), (Z.testbit b n), (Z.testbit c n).
Qed.

Lemma xor_gens_acc top i gens chk :
  xor_gens top i gens chk = Z.lxor chk (xor_gens top i gens 0).
Proof.
  revert i chk. induction gens as [|g gens IH]; intros i chk; simpl; [by rewrite Z.lxor_0_r|].
  destruct (_ =? 1); rewrite IH; [|done]. rewrite (IH _ (Z.lxor 0 g)), Z.lxor_0_l.
  by rewrite Z.lxor_assoc.
Qed.
Lemma xor_gens_lxor a b i gens :
  0 <= i -> xor_gens (Z.lxor a b) i gens 0 = Z.lxor (xor_gens a i gens 0) (xor_gens b i gens 0).
Proof.
  revert i. induction gens as [|g gens IH]; intros i Hi; simpl; [done|].
  rewrite !bit_test, Z.lxor_spec by done.
  rewrite (xor_gens_acc (Z.lxor a b)), (xor_gens_acc a), (xor_gens_acc b), IH by lia.
  set (x := xor_gens a _ _ _). set (y := xor_gens b _ _ _).
  destruct (Z.testbit a i), (Z.testbit b i); simpl; xor_solve.
Qed.
Lemma xor_gens_range top i gens :
  Forall (fun g => 0 <= g < 2 ^ 30) gens -> 0 <= xor_gens top i gens 0 < 2 ^ 30.
Proof.
  intros H. revert i. induction H as [|g gens Hg H IH]; intros i; simpl; [lia|].
  destruct (_ =? 1); [|by apply IH]. rewrite xor_gens_acc. apply lxor_range; [lia| |by apply IH].
  by rewrite Z.lxor_0_l.
Qed.

(** One step without an input: the linear part of [polymod_step]. *)
Definition polymod_shift (chk : Z) : Z := polymod_step chk 0.

Lemma polymod_step_shift chk v : polymod_step chk v = Z.lxor (polymod_shift chk) v.
Proof.
  unfold polymod_shift, polymod_step. rewrite (xor_gens_acc _ _ _ (Z.lxor _ v)).
  rewrite (xor_gens_acc _ _ _ (Z.lxor _ 0)). xor_solve.
Qed.
Lemma polymod_shift_lxor a b :
  polymod_shift (Z.lxor a b) = Z.lxor (polymod_shift a) (polymod_shift b).
Proof.
  unfold polymod_shift, polymod_step.
  rewrite Z.shiftr_lxor, xor_gens_acc, xor_gens_lxor, land_lxor_distr, Z.shiftl_lxor by lia.
  rewrite (xor_gens_acc (Z.shiftr a 25) _ _ (Z.lxor _ _)).
  rewrite (xor_gens_acc (Z.shiftr b 25) _ _ (Z.lxor _ _)). xor_solve.
Qed.
Lemma polymod_step_lxor a b v w :
  polymod_step (Z.lxor a b) (Z.lxor v w) = Z.lxor (polymod_step a v) (polymod_step b w).
Proof.
  rewrite !polymod_step_shift, polymod_shift_lxor. xor_solve.
Qed.

Lemma land25 c : 0 <= c -> Z.land c 0x1ffffff = c mod 2 ^ 25.
Proof. intros. change 0x1ffffff with (Z.ones 25). by apply Z.land_ones. Qed.

Lemma polymod_shift_small c : 0 <= c < 2 ^ 25 -> polymod_shift c = c * 32.
Proof.
  intros Hc. unfold polymod_shift, polymod_step.
  rewrite Z.shiftr_div_pow2, Z.div_small, land25, Z.mod_small, Z.shiftl_mul_pow2 by lia.
  rewrite Z.lxor_0_r. done.
Qed.

Lemma gen_range : Forall (fun g => 0 <= g < 2 ^ 30) gen.
Proof. repeat constructor; lia. Qed.

Lemma polymod_step_range c v : 0 <= c -> 0 <= v < 2 ^ 30 -> 0 <= polymod_step c v < 2 ^ 30.
Proof.
  intros Hc Hv. unfold polymod_step. rewrite xor_gens_acc. apply lxor_range; [lia| |].
  - apply lxor_range; [lia| |done]. rewrite land25 by done.
    apply (shiftl_range _ 25 5); [lia..|]. apply Z.mod_pos_bound. lia.
  - apply xor_gens_range, gen_range.
Qed.
Lemma polymod_fold_range c vs :
  0 <= c < 2 ^ 30 -> Forall (fun v => 0 <= v < 2 ^ 30) vs ->
  0 <= foldl polymod_step c vs < 2 ^ 30.
Proof.
  intros Hc H. revert c Hc. induction H as [|v vs Hv H IH]; intros c Hc; simpl; [done|].
  apply IH, polymod_step_range; lia.
Qed.

Lemma polymod_fold_lxor a b l1 l2 :
  length l1 = length l2 ->
  foldl polymod_step (Z.lxor a b) (zip_with Z.lxor l1 l2)
  = Z.lxor (foldl polymod_step a l1) (foldl polymod_step b l2).
Proof.
  revert a b l2. induction l1 as [|x l1 IH]; intros a b [|y l2] Hl; try done.
  simpl. rewrite polymod_step_lxor. apply IH. simpl in Hl. lia.
Qed.

(** Up to six base-32 digits are their number. *)
Lemma polymod_fold_digits vs :
  digits_ok 32 vs -> (length vs <= 6)%nat -> foldl polymod_step 0 vs = digits_val 32 vs.
Proof.
  assert (Hgen : forall vs, digits_ok 32 vs -> 
    0 <= digits_val 32 vs < 32 ^ Z.of_nat (length vs)).
  { intros l. induction 1 as [|d l Hd Hl IH]; [done|].
    rewrite digits_val_cons. cbn [length]. rewrite Nat2Z.inj_succ, Z.pow_succ_r by lia. nia. }
  induction vs as [|d vs IH] using rev_ind; intros Hd Hl; [done|].
  apply Forall_app in Hd as [Hvs Hd]. rewrite length_app in Hl. simpl in Hl.
  rewrite foldl_snoc, digits_val_snoc, IH by (done || lia).
  specialize (Hgen vs Hvs). apply Forall_inv in Hd.
  rewrite polymod_step_shift, polymod_shift_small.
  - by apply (lxor_mul_add _ 5).
  - split; [lia|]. eapply Z.lt_le_trans; [apply Hgen|].
    change (2 ^ 25) with (32 ^ 5). apply Z.pow_le_mono_r; lia.
Qed.

(** What the checksum construction and check amount to: for [l] of small
    values and six digits [ck], the value over [l ++ ck]. *)
Lemma polymod_six l ck :
  digits_ok 32 ck -> length ck = 6%nat ->
  polymod (l ++ ck) = Z.lxor (polymod (l ++ [0; 0; 0; 0; 0; 0])) (digits_val 32 ck).
Proof.
  intros Hck Hlen. unfold polymod. rewrite !foldl_app. set (c := foldl _ _ l).
  rewrite <- (polymod_fold_digits ck) by (done || lia).
  rewrite <- (polymod_fold_lxor c 0) by done. rewrite Z.lxor_0_r.
  destruct ck as [|? [|? [|? [|? [|? [|? [|]]]]]]]; try done.
Qed.

Lemma polymod_range l : Forall (fun v => 0 <= v < 2 ^ 30) l -> 0 <= polymod l < 2 ^ 30.
Proof. apply polymod_fold_range. lia. Qed.

Lemma checksum_digits_ok m : digits_ok 32 (checksum_digits m).
Proof.
  unfold checksum_digits, digits_ok. apply Forall_map. repeat constructor.
  all: change 31 with (Z.ones 5); simpl; rewrite Z.land_ones by lia; apply Z.mod_pos_bound; lia.
Qed.
Lemma checksum_digits_val m : 0 <= m < 2 ^ 30 -> digits_val 32 (checksum_digits m) = m.
Proof. apply split30. Qed.

Definition small_values (l : list Z) : Prop := Forall (fun v => 0 <= v < 2 ^ 30) l.

Lemma small_values_digits l : digits_ok 32 l -> small_values l.
Proof. intros H. eapply Forall_impl; [exact H|]. simpl. lia. Qed.

Lemma six_zeros l : small_values l -> 0 <= polymod (l ++ [0; 0; 0; 0; 0; 0]) < 2 ^ 30.
Proof. intros. apply polymod_range, Forall_app. split; [done|]. repeat constructor; lia. Qed.

(** The checksum makes the polynomial come out as the constant ... *)
Lemma checksum_correct l c :
  small_values l -> 0 <= c < 2 ^ 30 ->
  polymod (l ++ checksum_digits (Z.lxor (polymod (l ++ [0; 0; 0; 0; 0; 0])) c)) = c.
Proof.
  intros Hl Hc. pose proof (six_zeros l Hl) as Hr.
  rewrite polymod_six by (apply checksum_digits_ok || done).
  rewrite checksum_digits_val by (apply lxor_range; lia || done).
  by rewrite <- Z.lxor_assoc, Z.lxor_nilpotent, Z.lxor_0_l.
Qed.
(** ... and is the only six digits that do. *)
Lemma checksum_unique l c ck :
  small_values l -> 0 <= c < 2 ^ 30 -> digits_ok 32 ck -> length ck = 6%nat ->
  polymod (l ++ ck) = c -> ck = checksum_digits (Z.lxor (polymod (l ++ [0; 0; 0; 0; 0; 0])) c).
Proof.
  intros Hl Hc Hck Hlen H. pose proof (six_zeros l Hl) as Hr.
  apply (digits_val_inj 32); [done|apply checksum_digits_ok|done|].
  rewrite checksum_digits_val by (apply lxor_range; lia || done).
  rewrite polymod_six in H by done. rewrite <- H.
  by rewrite <- Z.lxor_assoc, Z.lxor_nilpotent, Z.lxor_0_l.
Qed.

(** *** One substituted value is always noticed *)

Lemma gens_low_bits :
  forallb (fun t => implb (Z.land (xor_gens t 0 gen 0) 31 =? 0) (t =? 0))
    (map Z.of_nat (List.seq 0 32)) = true.
Proof. by vm_compute. Qed.

Lemma polymod_shift_zero x : 0 <= x < 2 ^ 30 -> polymod_shift x = 0 -> x = 0.
Proof.
  intros Hx H. unfold polymod_shift, polymod_step in H. rewrite xor_gens_acc, Z.lxor_0_r in H.
  assert (Ht : Z.shiftr x 25 = 0).
  { assert (Hlow : Z.land (xor_gens (Z.shiftr x 25) 0 gen 0) 31 = 0).
    { apply (f_equal (fun z => Z.land z 31)) in H. rewrite land_lxor_distr in H.
      assert (Z.land (Z.shiftl (Z.land x 33554431) 5) 31 = 0) as E.
      { change 31 with (Z.ones 5). rewrite Z.land_ones, Z.shiftl_mul_pow2 by lia. 
        apply Z.mod_mul. lia. }
      by rewrite E, Z.lxor_0_l in H. }
    pose proof gens_low_bits as Hg. rewrite forallb_forall in Hg.
    specialize (Hg (Z.shiftr x 25)). rewrite Hlow in Hg. change (implb (0 =? 0)) with (fun b : bool => b) in Hg.
    apply Z.eqb_eq. apply Hg. apply in_map_iff. exists (Z.to_nat (Z.shiftr x 25)).
    assert (0 <= Z.shiftr x 25 < 32).
    { rewrite Z.shiftr_div_pow2 by lia.
      split; [apply Z.div_pos|apply Z.div_lt_upper_bound]; lia. }
    split; [lia|]. apply in_seq. lia. }
  rewrite Ht in H. change (xor_gens 0 0 gen 0) with 0 in H.
  rewrite Z.lxor_0_r, land25, Z.shiftl_mul_pow2 in H by lia.
  rewrite Z.shiftr_div_pow2 in Ht by lia.
  assert (x < 2 ^ 25).
  { apply Z.div_small_iff in Ht; lia. }
  rewrite Z.mod_small in H by lia. lia.
Qed.

Lemma polymod_step_inj a b v :
  0 <= a < 2 ^ 30 -> 0 <= b < 2 ^ 30 -> polymod_step a v = polymod_step b v -> a = b.
Proof.
  intros Ha Hb H. rewrite !polymod_step_shift in H. apply lxor_cancel_r in H.
  apply Z.lxor_eq, polymod_shift_zero; [apply lxor_range; lia|].
  by rewrite polymod_shift_lxor, H, Z.lxor_nilpotent.
Qed.
Lemma polymod_fold_inj a b l :
  0 <= a < 2 ^ 30 -> 0 <= b < 2 ^ 30 -> small_values l ->
  foldl polymod_step a l = foldl polymod_step b l -> a = b.
Proof.
  intros Ha Hb Hl. revert a b Ha Hb. induction Hl as [|v l Hv Hl IH]; intros a b Ha Hb H; [done|].
  simpl in H. apply IH in H; [|apply polymod_step_range; lia..].
  by apply (polymod_step_inj a b v).
Qed.
Lemma polymod_substitution l1 l2 x y :
  small_values (l1 ++ x :: l2) -> 0 <= y < 2 ^ 30 -> x <> y ->
  polymod (l1 ++ x :: l2) <> polymod (l1 ++ y :: l2).
Proof.
  intros Hl Hy Hne H. apply Forall_app in Hl as [Hl1 Hl2]. apply Forall_cons in Hl2 as [Hx Hl2].
  unfold polymod in H. rewrite !foldl_app in H. simpl in H.
  pose proof (polymod_range l1 Hl1) as Hc. unfold polymod in Hc.
  apply polymod_fold_inj in H; [|apply polymod_step_range; lia..|done].
  rewrite !polymod_step_shift in H. rewrite !(Z.lxor_comm (polymod_shift _)) in H.
  by apply lxor_cancel_r in H.
Qed.

(** ** The base-32 text *)

(** The characters of [Charset] are ASCII, lower case, not the separator, and
    decode to their index in both maps. *)
Lemma charset_all v :
  0 <= v < 32 ->
  exists c, charset_at v = Ok c /\ CharsetMap (Z_of_ascii c) = Some v
  /\ bech32CharsetMap (Z_of_ascii c) = Some v /\ Z_of_ascii c < 0x80
  /\ lower_ascii c = c /\ Ascii.eqb "1" c = false.
Proof.
  set (good := fun v => match charset_at v with
    | Ok c => bool_decide (CharsetMap (Z_of_ascii c) = Some v)
              && bool_decide (bech32CharsetMap (Z_of_ascii c) = Some v)
              && (Z_of_ascii c <? 0x80) && Ascii.eqb (lower_ascii c) c && negb (Ascii.eqb "1" c)
    | Err _ => false end).
  assert (H : forallb good (map Z.of_nat (List.seq 0 32)) = true) by by vm_compute.
  intros Hv. rewrite forallb_forall in H. specialize (H v).
  assert (Hin : In v (map Z.of_nat (List.seq 0 32))).
  { apply in_map_iff. exists (Z.to_nat v). split; [lia|]. apply in_seq. lia. }
  specialize (H Hin). unfold good in H. destruct (charset_at v) as [c|]; [|done].
  exists c. rewrite !andb_true_iff, negb_true_iff in H.
  destruct H as ((((H1 & H2) & H3) & H4) & H5).
  apply bool_decide_eq_true_1 in H1, H2. apply Z.ltb_lt in H3. apply Ascii.eqb_eq in H4. done.
Qed.

(** Decoding at rune indices, on ASCII text: byte by byte. *)
Fixpoint decode_bytes (l : list Z) : res (list Z) :=
  match l with
  | [] => Ok []
  | b :: l => match CharsetMap b with
              | None => Err "invalid character"
              | Some v => rest <-? decode_bytes l ;; Ok (v :: rest)
              end
  end.

Lemma decode_data_fold l pre :
  bytes_ok l ->
  foldl (fun acc '(i, c) =>
      decoded <-? acc ;;
      match CharsetMap (byteOf c) with
      | None => Err "invalid character"
      | Some val => Ok (<[Z.to_nat i := val]> decoded)
      end) (Ok (pre ++ replicate (length l) 0))
    (zip (seqZ (Z.of_nat (length pre)) (Z.of_nat (length l))) l)
  = (rest <-? decode_bytes l ;; Ok (pre ++ rest)).
Proof.
  intros Hl. revert pre. induction Hl as [|b l Hb Hl IH]; intros pre; [done|].
  cbn [length decode_bytes]. rewrite Nat2Z.inj_succ, seqZ_cons by lia. cbn [zip zip_with foldl].
  unfold byteOf at 2, u8. rewrite Z.mod_small by (unfold byte_ok in Hb; lia).
  destruct (CharsetMap b) as [v|].
  2:{ clear. generalize (zip (seqZ (Z.succ (Z.of_nat (length pre))) (Z.pred (Z.succ (Z.of_nat (length l))))) l).
      intros z. induction z as [|[i c] z IH]; [done|]. exact IH. }
  assert (E : <[Z.to_nat (Z.of_nat (length pre)) := v]> (pre ++ replicate (S (length l)) 0)
              = (pre ++ [v]) ++ replicate (length l) 0).
  { rewrite Nat2Z.id. rewrite <- (Nat.add_0_r (length pre)), insert_app_r.
    rewrite replicate_S. simpl. by rewrite <- app_assoc. }
  rewrite E. specialize (IH (pre ++ [v])). rewrite length_app, Nat2Z.inj_add in IH.
  replace (Z.pred (Z.succ (Z.of_nat (length l)))) with (Z.of_nat (length l)) by lia.
  change (Z.of_nat (length [v])) with 1 in IH. rewrite <- Z.add_1_r, IH.
  destruct (decode_bytes l); [|done]. by rewrite <- app_assoc.
Qed.
Lemma decode_data_ascii s :
  ascii_bytes (bytes_of_string s) -> decode_data s = decode_bytes (bytes_of_string s).
Proof.
  intros H. unfold decode_data, range_runes. rewrite <- bytes_of_string_length.
  rewrite range_from_ascii by done.
  etransitivity; [apply (decode_data_fold _ []), bytes_of_string_ok|].
  by destruct (decode_bytes _).
Qed.

Lemma index_from_range i l b v :
  index_from i l b = Some v ->
  exists n, nth_error l n = Some b /\ v = i + Z.of_nat n.
Proof.
  revert i. induction l as [|c l IH]; intros i; simpl; [done|].
  destruct (Z.eqb_spec b c) as [->|].
  - intros [= <-]. exists O. split; [done|lia].
  - intros H. destruct (IH _ H) as (k & Hk & ->). exists (S k). split; [done|lia].
Qed.
Lemma get_bytes s n b :
  nth_error (bytes_of_string s) n = Some b -> String.get n s = Some (ascii_of_Z b).
Proof.
  revert n. induction s as [|c s IH]; intros [|n]; simpl; try done; [|apply IH].
  intros [= <-]. by rewrite ascii_of_Z_of_ascii.
Qed.
Lemma CharsetMap_inv b v :
  CharsetMap b = Some v -> 0 <= v < 32 /\ charset_at v = Ok (ascii_of_Z b).
Proof.
  intros H. apply index_from_range in H as (n & Hn & ->).
  assert (Hlt : (n < 32)%nat) 
    by (apply (proj1 (nth_error_Some (bytes_of_string Charset) n)); congruence).
  split; [lia|]. unfold charset_at. change (slen Charset) with 32.
  rewrite Z.add_0_l, (proj2 (Z.leb_le 0 _)), (proj2 (Z.ltb_lt _ 32)), Nat2Z.id by lia.
  by rewrite (get_bytes _ _ _ Hn).
Qed.

(** Writing values as text and reading them back. *)
Lemma charset_string_spec vals :
  digits_ok 32 vals ->
  exists s, charset_string vals = Ok s /\ decode_bytes (bytes_of_string s) = Ok vals
  /\ bech32_data (bytes_of_string s) = Ok vals
  /\ ascii_bytes (bytes_of_string s) /\ ToLower s = s /\ no_char "1" s = true
  /\ String.length s = length vals.
Proof.
  induction 1 as [|v vals Hv Hvals (s & H1 & H2 & H3 & H4 & H5 & H6 & H7)].
  { exists "". split_and!; try done. constructor. }
  destruct (charset_all v Hv) as (c & E1 & E2 & E3 & E4 & E5 & E6).
  exists (String c s).
  cbn [charset_string bytes_of_string decode_bytes bech32_data no_char String.length length].
  rewrite E1, H1, E2, H2, E3, H3, E6, H6.
  split_and!; try done.
  - constructor; [|done]. pose proof (Z_of_ascii_range c). unfold byte_ok in *. lia.
  - change (ToLower (String c s)) with (String (lower_ascii c) (ToLower s)). by rewrite E5, H5.
  - by rewrite H7.
Qed.
Lemma decode_bytes_inv s vals :
  decode_bytes (bytes_of_string s) = Ok vals -> digits_ok 32 vals /\ charset_string vals = Ok s.
Proof.
  revert vals. induction s as [|c s IH]; intros vals; simpl.
  { intros [= <-]. split; [constructor|done]. }
  destruct (CharsetMap (Z_of_ascii c)) as [v|] eqn:E; [|done].
  destruct (decode_bytes (bytes_of_string s)) as [rest|]; [|done]. intros [= <-].
  apply CharsetMap_inv in E as [Hv E]. destruct (IH rest eq_refl) as [Hd Hs].
  split; [by constructor|]. simpl. by rewrite E, ascii_of_Z_of_ascii, Hs.
Qed.
Lemma charset_string_length vals s :
  charset_string vals = Ok s -> String.length s = length vals.
Proof.
  revert s. induction vals as [|v vals IH]; intros s; simpl; [by intros [= <-]|].
  destruct (charset_at v); [|done]. destruct (charset_string vals); [|done].
  intros [= <-]. simpl. f_equal. by apply IH.
Qed.

Lemma bytes_digits256 l : bytes_ok l <-> digits_ok 256 l.
Proof. done. Qed.
Lemma intSliceToBytes_id l : bytes_ok l -> intSliceToBytes l = l.
Proof.
  induction 1 as [|b l Hb Hl IH]; [done|]. unfold intSliceToBytes in *. simpl. rewrite IH.
  unfold byteOf, u8. rewrite Z.mod_small by (unfold byte_ok in Hb; lia). done.
Qed.
Lemma digits32_bytes l : digits_ok 32 l -> bytes_ok l.
Proof. intros H. eapply Forall_impl; [exact H|]. unfold byte_ok. simpl. lia. Qed.

(** ** The id address codec *)

Lemma small_values_check l :
  forallb (fun v => (0 <=? v) && (v <? 2 ^ 30)) l = true -> small_values l.
Proof.
  intros H. apply Forall_forall. intros v Hv. rewrite forallb_forall in H.
  specialize (H v). rewrite andb_true_iff, Z.leb_le, Z.ltb_lt in H.
  by apply H, list_elem_of_In.
Qed.

Lemma VersionChar_cases v vc :
  VersionChar v = Some vc -> In (v, vc) [(0, "q"); (1, "p"); (2, "z"); (3, "r"); (4, "y"); (5, "t")].
Proof.
  unfold VersionChar. simpl.
  repeat (match goal with |- context [Z.eqb ?a ?b] => destruct (Z.eqb_spec a b) as [->|_] end;
          [intros [= <-]; tauto|]). done.
Qed.
Lemma VersionChar_spec v vc :
  VersionChar v = Some vc ->
  exists c, vc = String c "" /\ CharVersion vc = Some v /\ ToLower vc = vc
  /\ small_values (hrpExpand (HRP +:+ vc)).
Proof.
  intros H. apply VersionChar_cases in H. simpl in H.
  destruct H as [[= <- <-]|[[= <- <-]|[[= <- <-]|[[= <- <-]|[[= <- <-]|[[= <- <-]|[]]]]]]];
    eexists; (split; [reflexivity|]); (split; [reflexivity|]); (split; [reflexivity|]);
    apply small_values_check; vm_compute; reflexivity.
Qed.
Lemma CharVersion_spec vc v : CharVersion vc = Some v -> VersionChar v = Some vc.
Proof.
  unfold CharVersion.
  repeat (match goal with |- context [String.eqb ?a ?b] =>
            destruct (String.eqb_spec a b) as [->|_] end; [by intros [= <-]|]). done.
Qed.

(** What [DecodeIDAddress] does after the separator. *)
Definition decode_payload (version : Z) (hrp s addr : string) : res AddressInfo :=
  if (String.length s <? ChecksumLength)%nat then Err "address too short" else
  decoded <-? decode_data s ;;
  if negb (verifyChecksum (hrpExpand hrp) decoded) then Err "checksum verification failed" else
  let data := take (length decoded - ChecksumLength) decoded in
  convertedInts <-? convertBits (intSliceToBytes data) 5 8 false ;;
  let converted := intSliceToBytes convertedInts in
  match validateDataLength version converted with
  | Some err => Err err
  | None => Ok (mkAddressInfo version converted addr)
  end.

Definition id_text (vc s : string) : string := (HRP +:+ vc) +:+ (Separator +:+ s).

Lemma DecodeIDAddress_text v vc s :
  VersionChar v = Some vc -> no_char "1" s = true -> ToLower s = s ->
  DecodeIDAddress (id_text vc s) = decode_payload v (HRP +:+ vc) s (id_text vc s).
Proof.
  intros Hv Hs Hl. destruct (VersionChar_spec v vc Hv) as (c & -> & Hc & Hlc & _).
  unfold DecodeIDAddress, id_text.
  rewrite !ToLower_app, Hl, Hlc. change (ToLower HRP) with HRP.
  change (ToLower Separator) with Separator.
  change (Separator +:+ s) with (String "1" s). unfold Separator.
  rewrite (LastIndex_app "1" (HRP +:+ String c "") s) by done.
  rewrite sapp_assoc at 1. rewrite HasPrefix_app. cbn [negb].
  change (String.length (HRP +:+ String c "")) with 3%nat.
  change (3 <? String.length HRP + 1)%nat with false. cbn [Nat.sub].
  change (stake (3 - String.length HRP) (sdrop (String.length HRP)
    ((HRP +:+ String c "") +:+ String "1" s))) with (String c "").
  rewrite Hc. reflexivity.
Qed.

Lemma DecodeIDAddress_inv addr info :
  DecodeIDAddress addr = Ok info ->
  exists vc s, ToLower addr = id_text vc s /\ VersionChar (ai_Version info) = Some vc
  /\ no_char "1" s = true /\ ToLower s = s
  /\ decode_payload (ai_Version info) (HRP +:+ vc) s (ToLower addr) = Ok info.
Proof.
  unfold DecodeIDAddress. intros H.
  destruct (HasPrefix (ToLower addr) HRP) eqn:Hp; [|done]. cbn [negb] in H.
  destruct (LastIndex (ToLower addr) Separator) as [n|] eqn:Hi; [|done].
  destruct (n <? String.length HRP + 1)%nat eqn:Hn; [done|]. apply Nat.ltb_ge in Hn.
  apply LastIndex_char_some in Hi as (Hsplit & Hno & Hlen).
  destruct (CharVersion _) as [v|] eqn:Hv; [|done].
  set (vc := stake (n - String.length HRP) (sdrop (String.length HRP) (ToLower addr))) in *.
  set (s := sdrop (n + 1) (ToLower addr)) in *.
  assert (Ha : ToLower addr = id_text vc s).
  { unfold id_text. rewrite Hsplit. unfold Separator. rewrite sapp_cons, sapp_nil_l. f_equal.
    apply HasPrefix_spec in Hp as [r Hr]. subst vc. rewrite Hr in *.
    rewrite sdrop_app in *. 
    replace n with (String.length HRP + (n - String.length HRP))%nat at 1
      by (simpl in *; lia).
    generalize (n - String.length HRP)%nat as k. intros k. reflexivity. }
  assert (Hvi : v = ai_Version info).
  { destruct (String.length s <? ChecksumLength)%nat; [done|].
    repeat (case_match; try done). by simplify_eq/=. }
  exists vc, s. split_and!; [done|by apply CharVersion_spec; rewrite <- Hvi|done| |].
  - pose proof (ToLower_idem addr) as Hid. rewrite Ha in Hid at 1. rewrite Ha in Hid.
    unfold id_text in Hid. rewrite !ToLower_app in Hid.
    apply sapp_eq_length in Hid as [_ Hid]; [|by rewrite !sapp_length; unfold ToLower; rewrite !smap_length].
    change (ToLower Separator) with Separator in Hid.
    by apply sapp_eq_length in Hid as [_ Hid].
  - by rewrite <- Hvi.
Qed.

(** *** [convertBits] both ways *)

Lemma convertBits_8to5 data :
  bytes_ok data ->
  exists out pad, convertBits data 8 5 true = Ok out /\ digits_ok 32 out /\ 0 <= pad < 5
  /\ Z.of_nat (length out) * 5 = 8 * Z.of_nat (length data) + pad
  /\ digits_val 32 out = digits_val 256 data * 2 ^ pad.
Proof.
  apply (regroup_8to5 (fun acc => Z.land acc (Z.shiftl 1 12 - 1)) (fun v => Z.shiftr v 8 =? 0));
    [apply mask_norm|intros; by apply (valid_norm 8)].
Qed.
Lemma convertBits_5to8 l data pad :
  digits_ok 32 l -> bytes_ok data -> 0 <= pad < 5 ->
  Z.of_nat (length l) * 5 = 8 * Z.of_nat (length data) + pad ->
  digits_val 32 l = digits_val 256 data * 2 ^ pad ->
  convertBits l 5 8 false = Ok data.
Proof.
  apply (regroup_5to8 (fun acc => Z.land acc (Z.shiftl 1 12 - 1)) (fun v => Z.shiftr v 5 =? 0));
    [apply mask_norm|intros; by apply (valid_norm 5)].
Qed.
(** A successful 5-to-8 conversion had canonical padding. *)
Lemma convertBits_5to8_inv l data :
  digits_ok 32 l -> convertBits l 5 8 false = Ok data ->
  bytes_ok data /\ exists pad, 0 <= pad < 5
  /\ Z.of_nat (length l) * 5 = 8 * Z.of_nat (length data) + pad
  /\ digits_val 32 l = digits_val 256 data * 2 ^ pad.
Proof.
  intros Hl H. unfold convertBits in H.
  destruct (regroup_spec (fun acc => Z.land acc (Z.shiftl 1 12 - 1)) (fun v => Z.shiftr v 5 =? 0)
              5 8 ltac:(lia) ltac:(lia) ltac:(intros; by apply mask_norm)
              ltac:(intros; by apply (valid_norm 5)) l 0 0 Hl ltac:(lia))
    as (out & acc & bits & E & Hb & Ho & Hlen & Hv).
  change (5 + 8 - 1) with 12 in H. rewrite E in H. unfold finish_bits in H.
  rewrite last_digit in H by lia.
  destruct (Z.leb_spec 5 bits); [done|].
  destruct (Z.eqb_spec (acc mod 2 ^ bits * 2 ^ (8 - bits)) 0) as [Hz|]; [|done].
  injection H as <-. split; [done|]. exists bits. change (2 ^ 5) with 32 in Hv.
  change (2 ^ 8) with 256 in Hv. rewrite Zmod_0_l, Z.mul_0_l, Z.add_0_l in Hv.
  assert (0 < 2 ^ (8 - bits)) by lia.
  assert (acc mod 2 ^ bits = 0) as Hz' by nia. rewrite Hz' in Hv. split_and!; lia.
Qed.
Lemma convertBits_inverse l data :
  digits_ok 32 l -> convertBits l 5 8 false = Ok data -> convertBits data 8 5 true = Ok l.
Proof.
  intros Hl H. destruct (convertBits_5to8_inv l data Hl H) as (Hd & pad & Hp & Hlen & Hv).
  destruct (convertBits_8to5 data Hd) as (out & pad' & -> & Ho & Hp' & Hlen' & Hv').
  f_equal. assert (pad = pad') as <- by lia. apply (digits_val_inj 32); [done..|lia|congruence].
Qed.

(** *** Both directions *)

Lemma decode_payload_ascii v hrp s addr :
  ascii_bytes (bytes_of_string s) ->
  decode_payload v hrp s addr =
  if (String.length s <? ChecksumLength)%nat then Err "address too short" else
  decoded <-? decode_bytes (bytes_of_string s) ;;
  if negb (verifyChecksum (hrpExpand hrp) decoded) then Err "checksum verification failed" else
  let data := take (length decoded - ChecksumLength) decoded in
  convertedInts <-? convertBits (intSliceToBytes data) 5 8 false ;;
  let converted := intSliceToBytes convertedInts in
  match validateDataLength v converted with
  | Some err => Err err
  | None => Ok (mkAddressInfo v converted addr)
  end.
Proof. intros H. unfold decode_payload. by rewrite decode_data_ascii. Qed.

Lemma id_encode_decode v data vc :
  VersionChar v = Some vc -> bytes_ok data -> validateDataLength v data = None ->
  exists addr, EncodeIDAddress v data = Ok addr
  /\ DecodeIDAddress addr = Ok (mkAddressInfo v data addr) /\ ToLower addr = addr.
Proof.
  intros Hv Hd Hlen. unfold EncodeIDAddress. rewrite Hv, Hlen.
  destruct (convertBits_8to5 data Hd) as (out & pad & -> & Ho & Hp & Hol & Hov).
  destruct (VersionChar_spec v vc Hv) as (c & Ec & _ & Hlc & Hhrp).
  unfold createChecksum. rewrite app_assoc.
  set (ck := checksum_digits _).
  assert (Hck : digits_ok 32 ck) by apply checksum_digits_ok.
  destruct (charset_string_spec (out ++ ck)) as (s & -> & Hdec & _ & Ha & Hl & Hno & Hsl).
  { by apply Forall_app. }
  eexists. split; [reflexivity|].
  change ((HRP +:+ vc) +:+ (Separator +:+ s)) with (id_text vc s). split.
  - rewrite (DecodeIDAddress_text v) by done. rewrite decode_payload_ascii by done.
    rewrite Hsl, Hdec, length_app. change (length ck) with 6%nat.
    destruct (Nat.ltb_spec (length out + 6) ChecksumLength); [unfold ChecksumLength in *; lia|].
    unfold verifyChecksum. rewrite app_assoc. unfold ck at 1.
    rewrite checksum_correct; [|apply Forall_app; split; [done|by apply small_values_digits]|lia].
    cbn [Z.eqb Pos.eqb negb]. cbv zeta.
    replace (length out + 6 - ChecksumLength)%nat with (length out) by (unfold ChecksumLength; lia).
    rewrite take_app_length, intSliceToBytes_id by (by apply digits32_bytes).
    rewrite (convertBits_5to8 out data pad) by done. rewrite intSliceToBytes_id by done.
    by rewrite Hlen.
  - unfold id_text. rewrite !ToLower_app, Hl, Hlc. reflexivity.
Qed.

Lemma id_decode_encode addr info :
  ascii_bytes (bytes_of_string (ToLower addr)) -> DecodeIDAddress addr = Ok info ->
  EncodeIDAddress (ai_Version info) (ai_Data info) = Ok (ToLower addr)
  /\ ai_Address info = ToLower addr /\ bytes_ok (ai_Data info).
Proof.
  intros Hascii H. destruct (DecodeIDAddress_inv addr info H) as (vc & s & Ha & Hv & Hno & Hl & Hp).
  rewrite Ha in *. unfold id_text in Hascii. rewrite !bytes_of_string_app in Hascii.
  apply Forall_app in Hascii as [_ Hascii]. apply Forall_app in Hascii as [_ Hascii].
  destruct (VersionChar_spec _ vc Hv) as (c & Ec & _ & Hlc & Hhrp).
  rewrite decode_payload_ascii in Hp by done.
  destruct (Nat.ltb_spec (String.length s) ChecksumLength) as [|Hsl]; [done|].
  destruct (decode_bytes (bytes_of_string s)) as [decoded|] eqn:Hdec; [|done].
  apply decode_bytes_inv in Hdec as [Hdd Hcs].
  rewrite (charset_string_length _ _ Hcs) in Hsl.
  destruct (verifyChecksum _ _) eqn:Hck; [|done]. cbn [negb] in Hp.
  set (k := (length decoded - ChecksumLength)%nat) in *.
  rewrite <- (take_drop k decoded) in Hdd, Hck, Hcs. apply Forall_app in Hdd as [Hd1 Hd2].
  rewrite intSliceToBytes_id in Hp by (by apply digits32_bytes).
  destruct (convertBits (take k decoded) 5 8 false) as [ints|] eqn:Hconv; [|done].
  destruct (convertBits_5to8_inv _ _ Hd1 Hconv) as [Hints _].
  rewrite intSliceToBytes_id in Hp by done.
  destruct (validateDataLength (ai_Version info) ints) eqn:Hval; [done|].
  injection Hp as Hinfo. rewrite <- Hinfo. cbn [ai_Version ai_Data ai_Address].
  split_and!; [|done|done]. unfold EncodeIDAddress. rewrite Hv, Hval.
  rewrite (convertBits_inverse _ _ Hd1 Hconv).
  unfold verifyChecksum in Hck. apply Z.eqb_eq in Hck. rewrite app_assoc in Hck.
  apply checksum_unique in Hck; [|apply Forall_app; split; [done|by apply small_values_digits]
    |lia|done|rewrite length_drop; unfold k, ChecksumLength in *; lia].
  unfold createChecksum. rewrite app_assoc, <- Hck, Hcs. reflexivity.
Qed.

(** ** Bech32 and Bech32m *)

Lemma convertBits8to5_8to5 data :
  bytes_ok data ->
  exists out pad, convertBits8to5 data 8 5 true = Ok out /\ digits_ok 32 out /\ 0 <= pad < 5
  /\ Z.of_nat (length out) * 5 = 8 * Z.of_nat (length data) + pad
  /\ digits_val 32 out = digits_val 256 data * 2 ^ pad.
Proof. apply (regroup_8to5 wrap64 (fun _ => true)); [apply wrap_norm|done]. Qed.
Lemma convertBits8to5_5to8 l data pad :
  digits_ok 32 l -> bytes_ok data -> 0 <= pad < 5 ->
  Z.of_nat (length l) * 5 = 8 * Z.of_nat (length data) + pad ->
  digits_val 32 l = digits_val 256 data * 2 ^ pad ->
  convertBits8to5 l 5 8 false = Ok data.
Proof. apply (regroup_5to8 wrap64 (fun _ => true)); [apply wrap_norm|done]. Qed.

Lemma bech32HrpExpand_small hrp :
  ascii_bytes (bytes_of_string hrp) -> small_values (bech32HrpExpand hrp).
Proof.
  intros H. unfold bech32HrpExpand. rewrite range_runes_ascii by done.
  apply Forall_app; split; [|apply Forall_app; split]; [|by repeat constructor|].
  - apply Forall_map. eapply Forall_impl; [exact H|]. simpl. intros x Hx.
    rewrite Z.shiftr_div_pow2 by lia.
    split; [apply Z.div_pos; lia|apply Z.div_lt_upper_bound; lia].
  - apply Forall_map. eapply Forall_impl; [exact H|]. simpl. intros x Hx.
    change 31 with (Z.ones 5). rewrite Z.land_ones by lia.
    pose proof (Z.mod_pos_bound x (2 ^ 5)). lia.
Qed.

Definition encoding_of (version : Z) : Bech32Encoding :=
  if negb (version =? 0) then Bech32m else Bech32.

Lemma bech32Const_range e : 0 <= bech32Const e < 2 ^ 30.
Proof. by destruct e. Qed.

Lemma bech32_encode_decode hrp version program :
  ascii_bytes (bytes_of_string hrp) -> ToLower hrp = hrp -> 1 <= slen hrp ->
  0 <= version < 32 -> bytes_ok program -> 2 <= Z.of_nat (length program) <= 40 ->
  slen hrp + 8 + (Z.of_nat (length program) * 8 + 4) / 5 <= 90 ->
  exists addr, Bech32Encode hrp version program = Ok addr
  /\ Bech32Decode addr = Ok (mkBech32 hrp version program (encoding_of version)).
Proof.
  intros Hh Hlow Hlen Hv Hprog Hplen H90. unfold Bech32Encode.
  fold (encoding_of version).
  assert (Hpl : (Z.of_nat (length program) <? 2) || (40 <? Z.of_nat (length program)) = false) by lia.
  rewrite Hpl.
  destruct (convertBits8to5_8to5 program Hprog) as (out & pad & -> & Ho & Hp & Hol & Hov).
  assert (Hvo : digits_ok 32 (version :: out)) by by constructor.
  rewrite app_assoc. set (ck := checksum_digits _).
  assert (Hck : digits_ok 32 ck) by apply checksum_digits_ok.
  destruct (charset_string_spec ((version :: out) ++ ck)) as
    (s & -> & _ & Hdec & Ha & Hl & Hno & Hsl).
  { by apply Forall_app. }
  eexists. split; [reflexivity|].
  assert (Hslen : slen s = Z.of_nat (length out) + 7).
  { unfold slen. rewrite Hsl, length_app. cbn [length]. change (length ck) with 6%nat. lia. }
  unfold Bech32Decode. rewrite !ToLower_app, Hlow, Hl.
  change (ToLower Separator +:+ s) with (String "1" s).
  rewrite (LastIndex_app "1" hrp s) by done.
  assert (Ht : slen (hrp +:+ String "1" s) = slen hrp + 1 + slen s).
  { rewrite slen_app. unfold slen. cbn [String.length]. lia. }
  rewrite Ht. fold (slen hrp).
  assert (Hg : (slen hrp <? 1) || (slen hrp + 1 + slen s <? slen hrp + 7)
               || (90 <? slen hrp + 1 + slen s) = false).
  { rewrite Hslen. apply orb_false_iff; split; [lia|]. apply Z.ltb_ge.
    Z.div_mod_to_equations. lia. }
  rewrite Hg, stake_app.
  replace (sdrop (String.length hrp + 1) (hrp +:+ String "1" s)) with s
    by by rewrite <- sdrop_sdrop, sdrop_app.
  rewrite range_runes_ascii, Hdec by done.
  assert (Hc : polymod (bech32HrpExpand hrp ++ (version :: out) ++ ck)
               = bech32Const (encoding_of version)).
  { rewrite app_assoc. apply checksum_correct; [|apply bech32Const_range].
    apply Forall_app; split; [by apply bech32HrpExpand_small|by apply small_values_digits]. }
  unfold bech32VerifyChecksum. rewrite Hc.
  assert (Henc : (if bech32Const (encoding_of version) =? bech32Const Bech32m then Ok Bech32m
     else if bech32Const (encoding_of version) =? bech32Const Bech32 then Ok Bech32
     else Err "invalid bech32 checksum") = Ok (encoding_of version)).
  { by destruct (encoding_of version). }
  rewrite Henc, length_app. change (length ck) with 6%nat. rewrite Nat.add_sub, take_app_length.
  assert (Hbv : byteOf version = version) by (unfold byteOf, u8; rewrite Z.mod_small; lia).
  rewrite Hbv. change (toByteArray out) with (intSliceToBytes out).
  rewrite intSliceToBytes_id by (by apply digits32_bytes).
  rewrite (convertBits8to5_5to8 out program pad) by done. rewrite Hpl.
  unfold encoding_of. by destruct (version =? 0).
Qed.

(** ** Conversions between chain addresses and id addresses *)

Section ConverterFacts.
Context {B58 : Base58}.

Lemma doubleSHA256_bytes l : bytes_ok (doubleSHA256 l).
Proof. apply sha256_bytes. Qed.

Lemma Base58Check_roundtrip version payload :
  byte_ok version -> bytes_ok payload ->
  Base58CheckDecode (Base58CheckEncode version payload) = Ok (version, payload).
Proof.
  intros Hv Hp. unfold Base58CheckDecode, Base58CheckEncode, Base58Decode.
  set (ck := take 4 (doubleSHA256 (version :: payload))).
  assert (Hck : length ck = 4%nat).
  { unfold ck. rewrite length_take. unfold doubleSHA256. by rewrite sha256_length. }
  assert (Hb : bytes_ok ((version :: payload) ++ ck)).
  { apply Forall_app. split; [by constructor|]. apply Forall_take, doubleSHA256_bytes. }
  rewrite base58_roundtrip by done. rewrite length_app, Hck.
  change (Nat.eqb (length (version :: payload) + 4) 0) with false. cbn [andb].
  rewrite length_app, Hck, Nat.add_sub.
  destruct (Nat.ltb_spec (length (version :: payload) + 4) 5) as [Hlt|_];
    [cbn [length] in Hlt; lia|].
  rewrite take_app_length, drop_app_length.
  rewrite bool_decide_eq_true_2; [done|]. by rewrite (take_ge ck) by lia.
Qed.

(** The version byte of a legacy address on a network. *)
Definition legacy_byte (network : string) (v : Z) : Z :=
  if String.eqb network "dogecoin" then (if v =? VersionP2PKH then 0x1E else 0x16)
  else if String.eqb network "mainnet" then (if v =? VersionP2PKH then 0x00 else 0x05)
  else (if v =? VersionP2PKH then 0x6F else 0xC4).

Lemma convertFromLegacy_byte network v payload :
  v = VersionP2PKH \/ v = VersionP2SH ->
  convertFromLegacyAddress (legacy_byte network v) payload = EncodeIDAddress v payload.
Proof.
  unfold legacy_byte. intros [-> | ->];
    destruct (String.eqb network "dogecoin"), (String.eqb network "mainnet"); reflexivity.
Qed.

Lemma convertFromSegWit hrp v witness payload :
  hrp = "bc" \/ hrp = "tb" ->
  (v = VersionP2WPKH /\ witness = 0 /\ length payload = 20%nat)
  \/ (v = VersionP2WSH /\ witness = 0 /\ length payload = 32%nat)
  \/ (v = VersionP2TR /\ witness = 1 /\ length payload = 32%nat) ->
  convertFromSegWitAddress hrp witness payload = EncodeIDAddress v payload.
Proof.
  intros Hh Hv. unfold convertFromSegWitAddress.
  destruct Hh as [-> | ->], Hv as [(-> & -> & ->)|[(-> & -> & ->)|(-> & -> & ->)]]; reflexivity.
Qed.
End ConverterFacts.

(** ** The properties of the address codecs *)

(** Text over the base-32 alphabet. *)
Definition charset_text (s : string) : bool :=
  forallb (fun b => bool_decide (is_Some (CharsetMap b))) (bytes_of_string s).

Lemma charset_text_spec s :
  charset_text s = true ->
  exists vals, decode_bytes (bytes_of_string s) = Ok vals /\ digits_ok 32 vals
  /\ ascii_bytes (bytes_of_string s) /\ ToLower s = s /\ no_char "1" s = true.
Proof.
  intros H. assert (exists vals, decode_bytes (bytes_of_string s) = Ok vals) as [vals Hv].
  { unfold charset_text in H. induction (bytes_of_string s) as [|b l IH]; [by exists []|].
    simpl in H. apply andb_true_iff in H as [Hb Hl]. destruct (IH Hl) as [vals E].
    apply bool_decide_eq_true_1 in Hb as [v Hv]. exists (v :: vals). simpl. by rewrite Hv, E. }
  exists vals. apply decode_bytes_inv in Hv as Hinv. destruct Hinv as [Hd Hs].
  destruct (charset_string_spec vals Hd) as (s' & Hs' & _ & _ & H1 & H2 & H3 & _).
  rewrite Hs in Hs'. by injection Hs' as <-.
Qed.

Lemma decode_bytes_app a b va vb :
  decode_bytes a = Ok va -> decode_bytes b = Ok vb -> decode_bytes (a ++ b) = Ok (va ++ vb).
Proof.
  revert va. induction a as [|x a IH]; intros va; simpl; [by intros [= <-]|].
  destruct (CharsetMap x); [|done]. destruct (decode_bytes a) as [r|]; [|done].
  intros [= <-] Hb. by rewrite (IH r eq_refl Hb).
Qed.
Lemma charset_text_app a b : charset_text (a +:+ b) = charset_text a && charset_text b.
Proof. unfold charset_text. by rewrite bytes_of_string_app, forallb_app. Qed.
Lemma charset_text_mid a c b :
  charset_text (a +:+ String c b)
  = charset_text a && (charset_text (String c "") && charset_text b).
Proof. rewrite charset_text_app. f_equal. apply (charset_text_app (String c "")). Qed.

(** Every well-formed payload has an id address, and [DecodeIDAddress] reads
    back exactly the version and the bytes that [EncodeIDAddress] was given. *)
Theorem id_address_roundtrip v data vc :
  VersionChar v = Some vc -> bytes_ok data -> validateDataLength v data = None ->
  exists addr, EncodeIDAddress v data = Ok addr
  /\ DecodeIDAddress addr = Ok (mkAddressInfo v data addr) /\ ValidateIDAddress addr = true.
Proof.
  intros Hv Hd Hl. destruct (id_encode_decode v data vc Hv Hd Hl) as (addr & H1 & H2 & _).
  exists addr. unfold ValidateIDAddress. by rewrite H2.
Qed.

Lemma id_address_roundtrip_witness :
  exists addr, EncodeIDAddress VersionP2PKH (replicate 20 7) = Ok addr
  /\ DecodeIDAddress addr = Ok (mkAddressInfo VersionP2PKH (replicate 20 7) addr)
  /\ ValidateIDAddress addr = true.
Proof.
  apply (id_address_roundtrip VersionP2PKH (replicate 20 7) "q"); [reflexivity| |reflexivity].
  repeat constructor; unfold byte_ok; lia.
Defined.

(** C28: On ASCII text [DecodeIDAddress] accepts exactly the image of
    [EncodeIDAddress], up to letter case: an accepted address is the encoding of
    the version and bytes it decodes to, so no two texts stand for one address. *)
Theorem id_address_canonical addr v data :
  ascii_bytes (bytes_of_string (ToLower addr)) ->
  DecodeIDAddress addr = Ok (mkAddressInfo v data (ToLower addr))
  <-> EncodeIDAddress v data = Ok (ToLower addr) /\ bytes_ok data.
Proof.
  intros Ha. split.
  - intros H. by destruct (id_decode_encode addr _ Ha H) as (H1 & _ & H3).
  - intros [H Hb]. assert (exists vc, VersionChar v = Some vc) as [vc Hv].
    { unfold EncodeIDAddress in H. destruct (VersionChar v); [eauto|done]. }
    assert (Hl : validateDataLength v data = None).
    { unfold EncodeIDAddress in H. rewrite Hv in H. by destruct (validateDataLength v data). }
    destruct (id_encode_decode v data vc Hv Hb Hl) as (addr' & H1 & H2 & Hlow).
    rewrite H in H1. injection H1 as <-. rewrite <- H2. unfold DecodeIDAddress.
    by rewrite ToLower_idem.
Qed.

Lemma id_address_canonical_witness :
  let addr := "IDQ1QYPQXPQ9QCRSSZG2PVXQ6RS0ZQG3YYC5PW5Z8N" in
  DecodeIDAddress addr = Ok (mkAddressInfo 0 (map Z.of_nat (List.seq 1 20)) (ToLower addr))
  <-> EncodeIDAddress 0 (map Z.of_nat (List.seq 1 20)) = Ok (ToLower addr)
      /\ bytes_ok (map Z.of_nat (List.seq 1 20)).
Proof.
  apply id_address_canonical. vm_compute. repeat constructor; discriminate.
Defined.

(** The checksum catches every substitution of one data character by another:
    if a text is a valid id address, the same text with one base-32 character
    replaced by a different one fails the checksum. *)
Theorem id_address_substitution v vc a b c d :
  VersionChar v = Some vc -> charset_text (a +:+ String c b) = true ->
  charset_text (String d "") = true -> c <> d ->
  ValidateIDAddress (id_text vc (a +:+ String c b)) = true ->
  DecodeIDAddress (id_text vc (a +:+ String d b)) = Err "checksum verification failed".
Proof.
  intros Hv Hc Hd Hne Hvalid. unfold ValidateIDAddress in Hvalid.
  assert (Hdt : charset_text (a +:+ String d b) = true).
  { rewrite charset_text_mid in *. rewrite Hd.
    apply andb_true_iff in Hc as [-> Hc]. by apply andb_true_iff in Hc as [_ ->]. }
  destruct (charset_text_spec _ Hc) as (vc1 & E1 & D1 & A1 & L1 & N1).
  destruct (charset_text_spec _ Hdt) as (vc2 & E2 & D2 & A2 & L2 & N2).
  rewrite (DecodeIDAddress_text v), decode_payload_ascii, E1 in Hvalid by done.
  rewrite (DecodeIDAddress_text v), decode_payload_ascii, E2 by done.
  rewrite sapp_length in *. cbn [String.length] in *.
  destruct (_ <? _)%nat; [done|].
  destruct (verifyChecksum (hrpExpand (HRP +:+ vc)) vc1) eqn:Hck; [|done].
  destruct (verifyChecksum (hrpExpand (HRP +:+ vc)) vc2) eqn:Hck2; [exfalso|done].
  destruct (VersionChar_spec v vc Hv) as (_ & _ & _ & _ & Hhrp).
  rewrite charset_text_mid, !andb_true_iff in Hc.
  destruct Hc as (Ta & Tc & Tb).
  destruct (charset_text_spec a Ta) as (xa & Ea & Da & _).
  destruct (charset_text_spec b Tb) as (xb & Eb & Db & _).
  destruct (charset_text_spec _ Tc) as (xc & Ec & Dc & _).
  destruct (charset_text_spec _ Hd) as (xd & Ed & Dd & _).
  assert (F1 : vc1 = xa ++ xc ++ xb).
  { rewrite bytes_of_string_app in E1. change (bytes_of_string (String c b))
      with (bytes_of_string (String c "") ++ bytes_of_string b) in E1.
    rewrite (decode_bytes_app _ _ xa (xc ++ xb)) in E1; [by simplify_eq|done|].
    by apply decode_bytes_app. }
  assert (F2 : vc2 = xa ++ xd ++ xb).
  { rewrite bytes_of_string_app in E2. change (bytes_of_string (String d b))
      with (bytes_of_string (String d "") ++ bytes_of_string b) in E2.
    rewrite (decode_bytes_app _ _ xa (xd ++ xb)) in E2; [by simplify_eq|done|].
    by apply decode_bytes_app. }
  destruct (decode_bytes_inv _ _ Ec) as [_ Sc]. destruct (decode_bytes_inv _ _ Ed) as [_ Sd].
  simpl in Ec, Ed. destruct (CharsetMap (Z_of_ascii c)) as [nc|]; [|done].
  destruct (CharsetMap (Z_of_ascii d)) as [nd|]; [|done]. injection Ec as <-. injection Ed as <-.
  apply Forall_inv in Dc, Dd. simpl in Dc, Dd.
  apply (polymod_substitution (hrpExpand (HRP +:+ vc) ++ xa) xb nc nd).
  - rewrite <- app_assoc. apply Forall_app; split; [done|].
    apply small_values_digits, Forall_app; split; [done|]. by constructor.
  - lia.
  - intros ->. congruence.
  - unfold verifyChecksum in Hck, Hck2. apply Z.eqb_eq in Hck, Hck2.
    rewrite F1 in Hck. rewrite F2 in Hck2. rewrite <- !app_assoc. simpl in *. congruence.
Qed.

Lemma id_address_substitution_witness :
  DecodeIDAddress (id_text "q" ("qypqxpq9qcrssz" +:+ String "q" "2pvxq6rs0zqg3yyc5pw5z8n"))
  = Err "checksum verification failed".
Proof. apply (id_address_substitution 0 "q" _ _ "g" "q"); vm_compute; done. Defined.

(** [Bech32Decode] reads back what [Bech32Encode] wrote, for every witness
    version and program length, with Bech32 chosen for version 0 and Bech32m for
    the others; the unmasked 64-bit accumulator of [convertBits8to5] overflows
    without losing a bit that is still to be emitted. *)
Theorem Bech32_roundtrip hrp version program :
  ascii_bytes (bytes_of_string hrp) -> ToLower hrp = hrp -> 1 <= slen hrp ->
  0 <= version < 32 -> bytes_ok program -> 2 <= Z.of_nat (length program) <= 40 ->
  slen hrp + 8 + (Z.of_nat (length program) * 8 + 4) / 5 <= 90 ->
  exists addr, Bech32Encode hrp version program = Ok addr
  /\ Bech32Decode addr = Ok (mkBech32 hrp version program
       (if version =? 0 then Bech32 else Bech32m)).
Proof.
  intros. destruct (bech32_encode_decode hrp version program) as (addr & Henc & Hdec); try done.
  exists addr. split; [done|]. rewrite Hdec. unfold encoding_of. by destruct (version =? 0).
Qed.

Lemma Bech32_roundtrip_witness :
  exists addr, Bech32Encode "bc" 1 (replicate 32 255) = Ok addr
  /\ Bech32Decode addr = Ok (mkBech32 "bc" 1 (replicate 32 255) Bech32m).
Proof.
  apply (Bech32_roundtrip "bc" 1 (replicate 32 255)); try done.
  - vm_compute. repeat constructor; discriminate.
  - repeat constructor; unfold byte_ok; lia.
Defined.

(** A stand-in for [base58] and SHA-256: the text of the bytes, and a constant
    digest. *)
#[local] Instance toy_Base58 : Base58.
Proof.
  refine {| base58_Encode := string_of_bytes; base58_Decode := bytes_of_string;
            sha256_Sum256 l := replicate 32 (foldr Z.add 0 l mod 256) |}.
  - intros l. apply length_replicate.
  - intros l. apply Forall_replicate, Z.mod_pos_bound. lia.
  - apply bytes_of_string_of_bytes.
Defined.

Section ConverterProperties.
Context {B58 : Base58}.

Lemma EncodeIDAddress_valid v data idAddr :
  EncodeIDAddress v data = Ok idAddr ->
  (exists vc, VersionChar v = Some vc) /\ validateDataLength v data = None.
Proof.
  unfold EncodeIDAddress. destruct (VersionChar v); [|done].
  destruct (validateDataLength v data); [done|]. eauto.
Qed.

Lemma valid_length v data :
  validateDataLength v data = None ->
  (v = VersionP2PKH \/ v = VersionP2SH \/ v = VersionP2WPKH) /\ length data = 20%nat
  \/ (v = VersionP2WSH \/ v = VersionP2TR) /\ length data = 32%nat \/ v = VersionP2MS.
Proof.
  unfold validateDataLength. intros H.
  destruct ((v =? _) || _ || _) eqn:E1.
  { left. rewrite !orb_true_iff, !Z.eqb_eq in E1.
    destruct (Z.eqb_spec (Z.of_nat (length data)) 20); [|done]. split; [tauto|lia]. }
  right. destruct (Z.eqb_spec v VersionP2WSH).
  { left. destruct (Z.eqb_spec (Z.of_nat (length data)) 32); [|done]. split; [tauto|lia]. }
  destruct (Z.eqb_spec v VersionP2TR).
  { left. destruct (Z.eqb_spec (Z.of_nat (length data)) 32); [|done]. split; [tauto|lia]. }
  destruct (Z.eqb_spec v VersionP2MS); [by right|done].
Qed.

Definition is_segwit (v : Z) : bool :=
  (v =? VersionP2WPKH) || (v =? VersionP2WSH) || (v =? VersionP2TR).

(** A legacy conversion, there and back. *)
Lemma from_legacy network v data :
  v = VersionP2PKH \/ v = VersionP2SH -> bytes_ok data ->
  ConvertFromBitcoin (Base58CheckEncode (legacy_byte network v) data) = EncodeIDAddress v data.
Proof.
  intros Hv Hd. unfold ConvertFromBitcoin. rewrite Base58Check_roundtrip.
  - by apply convertFromLegacy_byte.
  - unfold legacy_byte, byte_ok. repeat case_match; lia.
  - done.
Qed.

(** A segwit conversion, there and back. *)
Lemma from_segwit hrp v witness data addr :
  hrp = "bc" \/ hrp = "tb" -> bytes_ok data ->
  (v = VersionP2WPKH /\ witness = 0 /\ length data = 20%nat)
  \/ (v = VersionP2WSH /\ witness = 0 /\ length data = 32%nat)
  \/ (v = VersionP2TR /\ witness = 1 /\ length data = 32%nat) ->
  Bech32Encode hrp witness data = Ok addr -> is_ok (Base58CheckDecode addr) = false ->
  ConvertFromBitcoin addr = EncodeIDAddress v data.
Proof.
  intros Hh Hd Hv He Hb. unfold ConvertFromBitcoin.
  destruct (Base58CheckDecode addr) as [|] eqn:E; [done|].
  destruct (bech32_encode_decode hrp witness data) as (addr' & H1 & H2).
  - destruct Hh as [-> | ->]; vm_compute; repeat constructor; discriminate.
  - by destruct Hh as [-> | ->].
  - by destruct Hh as [-> | ->].
  - lia.
  - done.
  - lia.
  - assert (slen hrp = 2) as -> by by destruct Hh as [-> | ->].
    Z.div_mod_to_equations. lia.
  - rewrite He in H1. injection H1 as <-. rewrite H2. cbn. by apply convertFromSegWit.
Qed.

(** Address conversion is faithful: whatever network's address [FromID]
    produces for an id address, [ToID] (and [EncodeGlobalMetaId]) maps it back
    to that id address.  A segwit address must not also be a Base58Check
    string, which [ConvertFromBitcoin] tries first. *)
Theorem FromID_ToID ac network v data idAddr addr :
  bytes_ok data -> EncodeIDAddress v data = Ok idAddr ->
  FromID ac idAddr network = Ok addr ->
  (is_segwit v = true -> is_ok (Base58CheckDecode addr) = false) ->
  ToID ac addr = Ok idAddr.
Proof.
  intros Hd He Hf Hseg. destruct (EncodeIDAddress_valid _ _ _ He) as [[vc Hv] Hval].
  destruct (id_encode_decode v data vc Hv Hd Hval) as (idAddr' & H1 & H2 & _).
  rewrite He in H1. injection H1 as <-. unfold ToID. rewrite <- He.
  unfold FromID in Hf. set (net := if is_empty network then _ else _) in *.
  destruct (String.eqb net "bitcoin" || String.eqb net "mainnet" || String.eqb net "testnet").
  - unfold ConvertToBitcoin in Hf. rewrite H2 in Hf. cbn [ai_Version ai_Data] in Hf.
    assert (Hh : (if String.eqb net "testnet" then "tb" else "bc") = "bc"
                 \/ (if String.eqb net "testnet" then "tb" else "bc") = "tb").
    { destruct (String.eqb net "testnet"); auto. }
    destruct (valid_length v data Hval) as [[[-> |[-> | ->]] Hlen]|[[[-> | ->] Hlen]| ->]];
      cbn in Hf; rewrite ?Hlen in Hf; cbn in Hf; try done.
    + injection Hf as <-. destruct (String.eqb net "mainnet").
      * apply (from_legacy "mainnet" VersionP2PKH); auto.
      * apply (from_legacy "testnet" VersionP2PKH); auto.
    + injection Hf as <-. destruct (String.eqb net "mainnet").
      * apply (from_legacy "mainnet" VersionP2SH); auto.
      * apply (from_legacy "testnet" VersionP2SH); auto.
    + eapply from_segwit; [exact Hh|done|left; done|done|by apply Hseg].
    + eapply from_segwit; [exact Hh|done|right; left; done|done|by apply Hseg].
    + eapply from_segwit; [exact Hh|done|right; right; done|done|by apply Hseg].
  - destruct (String.eqb net "dogecoin"); [|done].
    unfold ConvertToDogecoin in Hf. rewrite H2 in Hf. cbn [ai_Version ai_Data] in Hf.
    destruct (Z.eqb_spec v VersionP2PKH) as [->|]; [|destruct (Z.eqb_spec v VersionP2SH) as [->|]];
      [..|done]; injection Hf as <-;
      [apply (from_legacy "dogecoin" VersionP2PKH)|apply (from_legacy "dogecoin" VersionP2SH)];
      auto.
Qed.
End ConverterProperties.

Lemma FromID_ToID_witness :
  let ac := NewAddressConverter "mainnet" in
  ToID ac (match FromID ac "idq1qypqxpq9qcrsszg2pvxq6rs0zqg3yyc5pw5z8n" "dogecoin" with
           | Ok a => a | Err _ => "" end) = Ok "idq1qypqxpq9qcrsszg2pvxq6rs0zqg3yyc5pw5z8n".
Proof.
  apply (FromID_ToID (NewAddressConverter "mainnet") "dogecoin" 0 (map Z.of_nat (List.seq 1 20))).
  - repeat constructor; unfold byte_ok; simpl; lia.
  - by vm_compute.
  - by vm_compute.
  - done.
Defined.

(** ** Where the code departs from its documentation *)

(** [DecodeIDAddress] indexes the base-32 table with [byte(c)] of a rune, so
    a text that is not base-32 at all can pass: in a valid address, the letters
    ["qq"] may be replaced by the one letter U+0171, and the address still
    validates and decodes to the same payload. *)
Theorem DecodeIDAddress_accepts_non_ascii :
  exists s vc data addr,
    EncodeIDAddress VersionP2PKH data = Ok (id_text vc ("qq" +:+ s))
    /\ addr = id_text vc (string_of_bytes [0xC5; 0xB1] +:+ s)
    /\ charset_text (string_of_bytes [0xC5; 0xB1] +:+ s) = false
    /\ DecodeIDAddress addr = Ok (mkAddressInfo VersionP2PKH data addr).
Proof.
  exists (match EncodeIDAddress 0 (replicate 20 0) with Ok a => sdrop 6 a | Err _ => "" end), "q",
    (replicate 20 0). eexists. split_and!; [|reflexivity|..]; vm_compute; reflexivity.
Qed.

Section Divergence.
Context {B58 : Base58}.

(** [FromID] takes ["bitcoin"] and ["mainnet"] for the same network, but a
    legacy address asked for ["bitcoin"] gets the testnet version byte: the
    result is the testnet address. *)
Theorem FromID_bitcoin_is_testnet ac idAddr info :
  DecodeIDAddress idAddr = Ok info ->
  ai_Version info = VersionP2PKH \/ ai_Version info = VersionP2SH ->
  FromID ac idAddr "bitcoin" = FromID ac idAddr "testnet".
Proof.
  intros Hd Hv. unfold FromID. cbn. unfold ConvertToBitcoin. rewrite Hd. cbn.
  destruct Hv as [-> | ->]; reflexivity.
Qed.

(** [DecodeGlobalMetaId] does not return the original chain address: the
    GlobalMetaId of a Dogecoin address decodes to the Bitcoin mainnet address of
    the same key, with chain name ["btc"]. *)
Theorem DecodeGlobalMetaId_forgets_chain data :
  let doge := Base58CheckEncode 0x1E data in
  bytes_ok data -> length data = 20%nat -> doge <> "" -> doge <> "errorAddr" ->
  DecodeGlobalMetaId (EncodeGlobalMetaId doge "doge") = Ok (Base58CheckEncode 0x00 data, "btc").
Proof.
  intros doge Hd Hl Hn1 Hn2. unfold EncodeGlobalMetaId.
  assert (is_empty doge = false) as -> by by destruct doge.
  rewrite (proj2 (String.eqb_neq _ _) Hn2). cbn [orb].
  assert (Hval : validateDataLength VersionP2PKH data = None).
  { unfold validateDataLength. by rewrite Hl. }
  unfold doge. rewrite (from_legacy "dogecoin" VersionP2PKH) by auto.
  destruct (id_encode_decode VersionP2PKH data "q" eq_refl Hd Hval) as (a & H1 & H2 & _).
  rewrite H1. unfold DecodeGlobalMetaId.
  assert (is_empty a = false) as -> by by destruct a.
  unfold ConvertToBitcoin. rewrite H2. reflexivity.
Qed.
End Divergence.

Lemma FromID_bitcoin_is_testnet_witness :
  let ac := NewAddressConverter "mainnet" in
  FromID ac "idq1qypqxpq9qcrsszg2pvxq6rs0zqg3yyc5pw5z8n" "bitcoin"
  = FromID ac "idq1qypqxpq9qcrsszg2pvxq6rs0zqg3yyc5pw5z8n" "testnet".
Proof.
  eapply (FromID_bitcoin_is_testnet (NewAddressConverter "mainnet"));
    [vm_compute; reflexivity|left; reflexivity].
Defined.
Lemma DecodeGlobalMetaId_forgets_chain_witness :
  DecodeGlobalMetaId (EncodeGlobalMetaId (Base58CheckEncode 0x1E (replicate 20 9)) "doge")
  = Ok (Base58CheckEncode 0x00 (replicate 20 9), "btc").
Proof.
  apply DecodeGlobalMetaId_forgets_chain; [|reflexivity|discriminate|discriminate].
  repeat constructor; unfold byte_ok; lia.
Defined.
