(* ===== verification/UserInfo.v ===== *)
(** * UserInfo: user profiles ([internal/aggregator/userinfo])

    module.go, remote.go (its merging, completion and persistence) and the loop of
    backfill.go: profiles built from /info pins, the indexes by address and global id,
    lookups with completion from a remote service, and the profile endpoint with its
    cache.  The HTTP clients are parameters: what a remote lookup or a page request
    answers.  The state is the cache provider, which carries the store. *)

From S2P Require Import Prelude GoText Json Storage Aggregator IdAddress Cache Backfill.
From coqutil.Datatypes Require Import RecordSetters.
Import TriangleBracketNotations.

Record UserProfile := mkProfile {
  GlobalMetaID : string;
  MetaID : string;
  Address : string;
  Name : string;
  NameId : string;
  Avatar : string;
  AvatarId : string;
  NftAvatar : string;
  Bio : string;
  BioId : string;
  Role : string;
  RoleId : string;
  Soul : string;
  SoulId : string;
  Goal : string;
  GoalId : string;
  ChatSkills : string;
  ChatSkillsId : string;
  LLM : string;
  LLMId : string;
  Homepage : string;
  HomepageId : string;
  Background : string;
  BackgroundId : string;
  ChatPublicKey : string;
  ChatPublicKeyId : string;
  ChainName : string }.
Definition empty_profile : UserProfile :=
  mkProfile "" "" "" "" "" "" "" "" "" "" "" "" "" "" "" "" "" "" "" "" "" "" "" "" "" "" "".

Definition userinfo_ns : string := "userinfo".
Definition profileKey (metaid : string) : string := "profile:" +:+ metaid.
Definition metaidKey (metaid : string) : string := "metaid:" +:+ metaid.
Definition globalMetaIdKey (globalMetaId : string) : string :=
  "globalmetaid:" +:+ ToLower (TrimSpace globalMetaId).
Definition addressKey (address : string) : string := "address:" +:+ ToLower (TrimSpace address).
(** The key of a profile in the cache. *)
Definition cacheKey (metaid : string) : string := "profile:" +:+ metaid.
(** 10 * time.Minute *)
Definition defaultTTL : Z := 600 * 1000000000.

(** ** Merging (remote.go) *)

(** [url.Parse]: the host and the path, or nothing when it fails. *)
Class URLParse := { url_HostPath : string -> option (string * string) }.

Definition shouldFillString (dst src : string) : bool :=
  let dst := TrimSpace dst in
  let src := TrimSpace src in
  negb (is_empty src) && (is_empty dst || String.eqb dst "/content/").
Definition fillString (dst src : string) : string := if shouldFillString dst src then src else dst.
Definition overrideString (dst src : string) : string :=
  if is_empty (TrimSpace src) then dst else src.
Fixpoint firstNonEmptyString (values : list string) : string :=
  match values with
  | [] => ""
  | v :: values => if is_empty (TrimSpace v) then firstNonEmptyString values else TrimSpace v
  end.

Section Avatar.
Context {UP : URLParse}.

Definition content_url (host pre asset : string) : bool :=
  match url_HostPath (TrimSpace asset) with
  | Some (h, path) => String.eqb (ToLower h) host && HasPrefix path pre
  | None => false
  end.
Definition isLegacyManAPIContentURL : string -> bool := content_url "manapi.metaid.io" "/content/".
Definition isFileIndexerContentURL : string -> bool :=
  content_url "file.metaid.io" "/metafile-indexer/content/".
(** The part after the last slash ([strings.Split] and its last element). *)
Definition last_part (s : string) : string :=
  match LastIndex s "/" with Some i => sdrop (S i) s | None => s end.
Definition avatarIDFromReference (avatar : string) : string :=
  let avatar := TrimSpace avatar in
  if is_empty avatar || String.eqb avatar "/content/" then "" else
  let lower := ToLower avatar in
  if HasPrefix avatar "/content/" then TrimChar "/" (TrimPrefix avatar "/content/")
  else if HasPrefix lower "metafile://" then TrimChar "/" (TrimPrefix avatar "metafile://")
  else if HasPrefix lower "metafile:" then TrimChar "/" (TrimPrefix avatar "metafile:")
  else if isLegacyManAPIContentURL avatar || isFileIndexerContentURL avatar then
    match url_HostPath avatar with
    | Some (_, path) => TrimSpace (last_part (TrimChar "/" path))
    | None => ""
    end
  else "".
Definition isContentBackedAvatarReference (avatar : string) : bool :=
  let avatar := TrimSpace avatar in
  HasPrefix avatar "/content/" || HasPrefix (ToLower avatar) "metafile:"
  || isLegacyManAPIContentURL avatar || isFileIndexerContentURL avatar.
Definition normaliseAvatarReference (avatar avatarID : string) : string * string :=
  let avatar := TrimSpace avatar in
  let avatarID := TrimSpace avatarID in
  let avatarID := if is_empty avatarID then avatarIDFromReference avatar else avatarID in
  if is_empty avatarID then (avatar, "")
  else if is_empty avatar || String.eqb avatar "/content/" || isContentBackedAvatarReference avatar
  then ("/content/" +:+ avatarID, avatarID)
  else (avatar, avatarID).
Definition shouldUseRemoteAvatar (dstAvatar dstID srcAvatar srcID : string) : bool :=
  let dstAvatar := TrimSpace dstAvatar in
  let dstID := TrimSpace dstID in
  let srcAvatar := TrimSpace srcAvatar in
  let srcID := TrimSpace srcID in
  if is_empty srcAvatar && is_empty srcID then false
  else if is_empty dstAvatar || String.eqb dstAvatar "/content/" || isLegacyManAPIContentURL dstAvatar
  then true
  else negb (is_empty srcID) && negb (is_empty dstID) && negb (EqualFold srcID dstID).
Definition fillAvatarFields (out remote : UserProfile) : UserProfile :=
  let '(srcAvatar, srcID) := normaliseAvatarReference (Avatar remote) (AvatarId remote) in
  if is_empty srcAvatar && is_empty srcID then out else
  let dstAvatar := TrimSpace (Avatar out) in
  let dstID := firstNonEmptyString [AvatarId out; avatarIDFromReference dstAvatar] in
  if shouldUseRemoteAvatar dstAvatar dstID srcAvatar srcID then
    out <| Avatar := if is_empty srcAvatar then Avatar out else srcAvatar |>
        <| AvatarId := if is_empty srcID then AvatarId out else srcID |>
  else if is_empty (TrimSpace (AvatarId out)) && negb (is_empty dstID)
  then out <| AvatarId := dstID |> else out.
Definition avatarNeedsRemoteCompletion (profile : UserProfile) : bool :=
  let avatar := TrimSpace (Avatar profile) in
  is_empty avatar || String.eqb avatar "/content/" || isLegacyManAPIContentURL avatar.
Definition profileNeedsRemoteCompletion (profile : option UserProfile) : bool :=
  match profile with
  | None => true
  | Some p => is_empty (TrimSpace (ChatPublicKey p)) || is_empty (TrimSpace (GlobalMetaID p))
              || is_empty (TrimSpace (MetaID p)) || is_empty (TrimSpace (Address p))
              || avatarNeedsRemoteCompletion p
  end.
Definition mergeUserProfiles (local : option UserProfile) (remote : UserProfile) : UserProfile :=
  match local with
  | None => remote
  | Some local =>
      let out := local <| MetaID := overrideString (MetaID local) (MetaID remote) |>
                       <| GlobalMetaID := overrideString (GlobalMetaID local) (GlobalMetaID remote) |>
                       <| Address := overrideString (Address local) (Address remote) |>
                       <| Name := fillString (Name local) (Name remote) |>
                       <| NameId := fillString (NameId local) (NameId remote) |> in
      let out := fillAvatarFields out remote in
      out <| NftAvatar := fillString (NftAvatar out) (NftAvatar remote) |>
          <| Bio := fillString (Bio out) (Bio remote) |>
          <| BioId := fillString (BioId out) (BioId remote) |>
          <| Background := fillString (Background out) (Background remote) |>
          <| ChatPublicKey := fillString (ChatPublicKey out) (ChatPublicKey remote) |>
          <| ChatPublicKeyId := fillString (ChatPublicKeyId out) (ChatPublicKeyId remote) |>
          <| ChainName := fillString (ChainName out) (ChainName remote) |>
  end.
End Avatar.

(** ** The aggregator *)

(** [remoteProfileLookup]: an answer per kind of query and value. *)
Inductive lookup_kind := remoteLookupByMetaId | remoteLookupByAddress | remoteLookupByGlobalMetaId.
#[export] Instance lookup_kind_eq_dec : EqDecision lookup_kind.
Proof. solve_decision. Defined.
Definition kind_string (k : lookup_kind) : string :=
  match k with
  | remoteLookupByMetaId => "metaid"
  | remoteLookupByAddress => "address"
  | remoteLookupByGlobalMetaId => "globalmetaid"
  end.
Definition remoteProfileQuery : Type := lookup_kind * string.
Definition remoteProfileLookup : Type := lookup_kind -> string -> res (option UserProfile).
(** The configuration; [None] is a nil [remoteLookup]. *)
Record Aggregator := mkAggregatorConfig {
  remoteLookup : option remoteProfileLookup;
  profileMode : string;
  allowRemoteFallback : bool }.

Definition normaliseProfileMode (mode : string) : string :=
  let m := ToLower (TrimSpace mode) in
  if String.eqb m "remote-only" || String.eqb m "local-only" || String.eqb m "local-first"
  then m else "local-first".
Definition parseBoolEnvDefault (raw : string) (fallback : bool) : bool :=
  let r := ToLower (TrimSpace raw) in
  if bool_decide (r ∈ ["1"; "true"; "t"; "yes"; "y"; "on"]) then true
  else if bool_decide (r ∈ ["0"; "false"; "f"; "no"; "n"; "off"]) then false
  else fallback.
(** [configureRemoteProfileLookupFromEnv], given the three variables and the client a
    base URL makes. *)
Definition configureRemoteProfileLookup (client : string -> remoteProfileLookup)
    (mode fallback baseURL : string) : Aggregator :=
  let mode := normaliseProfileMode mode in
  let baseURL := TrimSpace baseURL in
  mkAggregatorConfig
    (if is_empty baseURL || String.eqb mode "local-only" then None else Some (client baseURL))
    mode (parseBoolEnvDefault fallback true).

Section UserInfo.
Context {L : LRU} {St : Type} {KV : KVOps St} {UP : URLParse} {J : JSON UserProfile} {B58 : Base58}.
#[local] Abbreviation W := (CacheProvider St).
Open Scope handler_scope.

(** *** Persistence *)

(** A failed read is "not found"; only a record that does not parse is an error. *)
Definition getProfile (metaid : string) (w : W) : res (option UserProfile) :=
  match kv_Get w userinfo_ns (profileKey metaid) with
  | Err _ | Ok None => Ok None
  | Ok (Some raw) => p <-? json_Unmarshal raw ;; Ok (Some p)
  end.
Definition set_index (key value : string) : M W unit := fun w =>
  match kv_Set w userinfo_ns key value with Ok w => (Ok tt, w) | Err e => (Err e, w) end.
Definition saveProfileAtKey (key : string) (profile : UserProfile) : M W unit :=
  let key := TrimSpace key in
  if is_empty key then hret tt else
  save userinfo_ns (profileKey key) profile ;;;
  let indexMetaID := TrimSpace (MetaID profile) in
  let indexMetaID := if is_empty indexMetaID then key else indexMetaID in
  (let globalMetaId := TrimSpace (GlobalMetaID profile) in
   if is_empty globalMetaId then hret tt else set_index (globalMetaIdKey globalMetaId) indexMetaID) ;;;
  (let address := TrimSpace (Address profile) in
   if is_empty address then hret tt else set_index (addressKey address) indexMetaID).
Definition saveProfile (profile : UserProfile) : M W unit :=
  if is_empty (MetaID profile) then hret tt else saveProfileAtKey (MetaID profile) profile.
(** [a.cache.InvalidateByPrefix], its error dropped. *)
Definition invalidate (pre : string) : M W unit := fun w =>
  (Ok tt, (InvalidateByPrefix userinfo_ns pre w).2).

(** [defaultScanProfiles]: the last match of the scan. *)
Definition scanProfiles (ok : UserProfile -> bool) (w : W) : res (option UserProfile) :=
  ps <-? scan_json_err userinfo_ns (profileKey "") w ;;
  Ok (last (List.filter ok ps)).
(** The index first, when the profile it points to agrees. *)
Definition findProfile (key : string) (ok : UserProfile -> bool) (w : W) : res (option UserProfile) :=
  match kv_Get w userinfo_ns key with
  | Ok (Some raw) =>
      if is_empty raw then scanProfiles ok w else
      match getProfile raw w with
      | Ok (Some p) => if ok p then Ok (Some p) else scanProfiles ok w
      | _ => scanProfiles ok w
      end
  | _ => scanProfiles ok w
  end.
Definition has_address (address : string) (p : UserProfile) : bool :=
  EqualFold (TrimSpace (Address p)) address.
Definition has_global (globalMetaId : string) (p : UserProfile) : bool :=
  EqualFold (TrimSpace (GlobalMetaID p)) globalMetaId.
Definition findProfileByAddress (address : string) (w : W) : res (option UserProfile) :=
  let address := TrimSpace address in findProfile (addressKey address) (has_address address) w.
Definition findProfileByGlobalMetaId (globalMetaId : string) (w : W) : res (option UserProfile) :=
  let globalMetaId := TrimSpace globalMetaId in
  findProfile (globalMetaIdKey globalMetaId) (has_global globalMetaId) w.

(** *** Pins *)

Definition pin_metaid (pin : PinInscription) : string :=
  if is_empty (pin_MetaId pin) then pin_CreateMetaId pin else pin_MetaId pin.
Definition pin_address (pin : PinInscription) : string :=
  if is_empty (pin_Address pin) then pin_CreateAddress pin else pin_Address pin.
(** The profile the pin is applied to, with its identity fields filled in. *)
Definition load_or_create (pin : PinInscription) (w : W) : UserProfile :=
  let address := pin_address pin in
  let p := match getProfile (pin_metaid pin) w with
           | Ok (Some p) => p
           | _ => empty_profile <| MetaID := pin_metaid pin |> <| ChainName := pin_ChainName pin |>
           end in
  let p := if is_empty (Address p) && negb (is_empty address) then p <| Address := address |> else p in
  let p := if is_empty (GlobalMetaID p) then
             if negb (is_empty (TrimSpace (pin_GlobalMetaId pin)))
             then p <| GlobalMetaID := TrimSpace (pin_GlobalMetaId pin) |>
             else if negb (is_empty address)
             then p <| GlobalMetaID := EncodeGlobalMetaId address (pin_ChainName pin) |> else p
           else p in
  if is_empty (ChainName p) && negb (is_empty (pin_ChainName pin))
  then p <| ChainName := pin_ChainName pin |> else p.
(** The switch on /info paths; [None] is its default. *)
Definition apply_info (pin : PinInscription) (p : UserProfile) : option UserProfile :=
  let path := pin_Path pin in
  let body := pin_ContentBody pin in
  let id := pin_Id pin in
  if String.eqb path "/info/name" then Some (p <| Name := body |> <| NameId := id |>)
  else if String.eqb path "/info/avatar"
  then Some (p <| Avatar := "/content/" +:+ id |> <| AvatarId := id |>)
  else if String.eqb path "/info/nft-avatar" then Some (p <| NftAvatar := "/content/" +:+ id |>)
  else if String.eqb path "/info/bio" then Some (p <| Bio := body |> <| BioId := id |>)
  else if String.eqb path "/info/role" then Some (p <| Role := body |> <| RoleId := id |>)
  else if String.eqb path "/info/soul" then Some (p <| Soul := body |> <| SoulId := id |>)
  else if String.eqb path "/info/goal" then Some (p <| Goal := body |> <| GoalId := id |>)
  else if String.eqb path "/info/chatSkills"
  then Some (p <| ChatSkills := body |> <| ChatSkillsId := id |>)
  else if String.eqb path "/info/LLM" then Some (p <| LLM := body |> <| LLMId := id |>)
  else if String.eqb path "/info/homepage" then Some (p <| Homepage := body |> <| HomepageId := id |>)
  else if String.eqb path "/info/background"
  then Some (p <| Background := "/content/" +:+ id |> <| BackgroundId := id |>)
  else if String.eqb path "/info/chatpubkey"
  then Some (p <| ChatPublicKey := body |> <| ChatPublicKeyId := id |>)
  else None.
(** The address and the global id are already filled in: the second test of the init
    path changes nothing and is kept. *)
Definition init_profile (pin : PinInscription) (p : UserProfile) : UserProfile :=
  let address := pin_address pin in
  let p := if is_empty (Address p) && negb (is_empty address) then p <| Address := address |> else p in
  if is_empty (GlobalMetaID p) && negb (is_empty address)
  then p <| GlobalMetaID := EncodeGlobalMetaId address (pin_ChainName pin) |> else p.
Definition HandleBlockPin (pin : PinInscription) : M W (option NotifyEvent) :=
  let metaid := pin_metaid pin in
  if is_empty metaid then hret None else
  p <- hget (load_or_create pin) ;;
  if String.eqb (pin_Path pin) "/" then
    saveProfile (init_profile pin p) ;;;
    set_index (metaidKey metaid) (pin_address pin) ;;;
    hret None
  else
    match apply_info pin p with
    | None => hret None
    | Some p =>
        (if String.eqb (pin_Path pin) "/info/avatar" then invalidate ("avatar:" +:+ metaid) else hret tt) ;;;
        saveProfile p ;;;
        invalidate (cacheKey metaid) ;;;
        hret None
    end.
Definition HandleMempoolPin (pin : PinInscription) : M W (option NotifyEvent) := hret None.

(** *** Lookups *)

Definition shouldFetchRemote (a : Aggregator) (local : option UserProfile) : bool :=
  match remoteLookup a with
  | None => false
  | Some _ =>
      if String.eqb (profileMode a) "local-only" then false
      else if String.eqb (profileMode a) "remote-only" then true
      else if negb (allowRemoteFallback a) then false
      else profileNeedsRemoteCompletion local
  end.
(** [seen] holds the keys kind:value already asked. *)
Fixpoint fetch_loop (lookup : remoteProfileLookup) (queries : list remoteProfileQuery)
    (seen : gset string) (merged : option UserProfile) : res (option UserProfile) :=
  match queries with
  | [] => Ok merged
  | (kind, value) :: queries =>
      let value := TrimSpace value in
      if is_empty value then fetch_loop lookup queries seen merged else
      let key := kind_string kind +:+ ":" +:+ value in
      if bool_decide (key ∈ seen) then fetch_loop lookup queries seen merged else
      profile <-? lookup kind value ;;
      match profile with
      | None => fetch_loop lookup queries ({[key]} ∪ seen) merged
      | Some profile =>
          let merged := mergeUserProfiles merged profile in
          if profileNeedsRemoteCompletion (Some merged)
          then fetch_loop lookup queries ({[key]} ∪ seen) (Some merged)
          else Ok (Some merged)
      end
  end.
Definition fetchRemoteProfile (a : Aggregator) (queries : list remoteProfileQuery)
    : res (option UserProfile) :=
  match remoteLookup a with Some lookup => fetch_loop lookup queries ∅ None | None => Ok None end.
Definition persistMergedProfile (aliasKey : string) (profile : UserProfile) : M W unit :=
  saveProfile profile ;;;
  (let aliasKey := TrimSpace aliasKey in
   if negb (is_empty aliasKey) && negb (String.eqb aliasKey (MetaID profile)) then
     saveProfileAtKey aliasKey profile ;;; invalidate (cacheKey aliasKey)
   else hret tt) ;;;
  (if negb (is_empty (MetaID profile)) then invalidate (cacheKey (MetaID profile)) else hret tt).
Definition completeProfile (a : Aggregator) (local : option UserProfile)
    (queries : list remoteProfileQuery) (aliasKey : string) : M W (option UserProfile) :=
  if negb (shouldFetchRemote a local) then hret local else
  match fetchRemoteProfile a queries with
  | Err _ | Ok None => hret local
  | Ok (Some remote) =>
      let merged := mergeUserProfiles local remote in
      persistMergedProfile aliasKey merged ;;; hret (Some merged)
  end.
Definition metaid_queries (metaid : string) : list remoteProfileQuery :=
  [(remoteLookupByMetaId, metaid); (remoteLookupByAddress, metaid)].
Definition lookupByMetaId (a : Aggregator) (metaid : string) : M W (option UserProfile) :=
  profile <- hres (getProfile metaid) ;;
  completeProfile a profile (metaid_queries metaid) metaid.
Definition lookupByAddress (a : Aggregator) (address : string) : M W (option UserProfile) :=
  profile <- hres (findProfileByAddress address) ;;
  completeProfile a profile [(remoteLookupByAddress, address)] "".
Definition lookupByGlobalMetaId (a : Aggregator) (globalMetaId : string) : M W (option UserProfile) :=
  profile <- hres (findProfileByGlobalMetaId globalMetaId) ;;
  completeProfile a profile
    [(remoteLookupByGlobalMetaId, globalMetaId); (remoteLookupByAddress, globalMetaId);
     (remoteLookupByMetaId, globalMetaId)] globalMetaId.

(** *** Requests: the profile of the response, [None] for an error envelope *)

Definition cache_profile (metaid : string) (profile : UserProfile) (now : Z) (w : W) : W :=
  (cache_Set userinfo_ns (cacheKey metaid) (json_Marshal profile) defaultTTL now w).2.
Definition uncached_info (a : Aggregator) (metaid : string) (now : Z) (w : W) : option UserProfile * W :=
  match lookupByMetaId a metaid w with
  | (Ok (Some profile), w) => (Some profile, cache_profile metaid profile now w)
  | (_, w) => (None, w)
  end.
Definition handleMetaIdInfo (a : Aggregator) (metaid : string) (now : Z) (w : W)
    : option UserProfile * W :=
  if is_empty metaid then (None, w) else
  match cache_Get userinfo_ns (cacheKey metaid) now w with
  | (Some val, w) =>
      match json_Unmarshal val with
      | Ok profile =>
          match completeProfile a (Some profile) (metaid_queries metaid) metaid w with
          | (Ok (Some completed), w) => (Some completed, cache_profile metaid completed now w)
          | (_, w) => uncached_info a metaid now w
          end
      | Err _ => uncached_info a metaid now w
      end
  | (None, w) => uncached_info a metaid now w
  end.
Definition lookup_response (r : res (option UserProfile) * W) : option UserProfile * W :=
  match r with (Ok p, w) => (p, w) | (Err _, w) => (None, w) end.
Definition handleAddressInfo (a : Aggregator) (address : string) (w : W) : option UserProfile * W :=
  if is_empty address then (None, w) else lookup_response (lookupByAddress a address w).
Definition handleGlobalMetaIdInfo (a : Aggregator) (globalMetaId : string) (w : W)
    : option UserProfile * W :=
  if is_empty globalMetaId then (None, w) else lookup_response (lookupByGlobalMetaId a globalMetaId w).
End UserInfo.

(** ** Backfill *)

Definition toAggregatorPin (p : manapiPin) : PinInscription :=
  let summary := TrimSpace (mp_ContentSummary p) in
  let body := if is_empty (TrimSpace (mp_ContentBody p)) && negb (is_empty summary)
              then summary else mp_ContentBody p in
  mkPin (TrimSpace (mp_ID p)) 0 (TrimSpace (mp_Path p)) (TrimSpace (mp_OriginalPath p))
    (TrimSpace (mp_Operation p)) body summary (TrimSpace (mp_ContentType p)) ""
    (TrimSpace (mp_CreateAddress p)) (TrimSpace (mp_CreateMetaId p)) (TrimSpace (mp_MetaId p))
    (TrimSpace (mp_GlobalMetaId p)) (TrimSpace (mp_Address p)) (TrimSpace (mp_ChainName p)) ""
    (mp_GenesisHeight p) (mp_Timestamp p) "" false (TrimSpace (mp_OriginalId p)) "".
Definition defaultBackfillPaths : list string :=
  ["/info/role"; "/info/soul"; "/info/goal"; "/info/chatSkills"; "/info/LLM"; "/info/homepage"].
Definition normaliseBackfillPaths (paths : list string) : list string :=
  match paths with
  | [] => defaultBackfillPaths
  | _ => List.filter (fun p => bool_decide (p ∈ defaultBackfillPaths)) (map TrimSpace paths)
  end.

Section Backfill.
Context {L : LRU} {St : Type} {KV : KVOps St} {J : JSON UserProfile} {B58 : Base58}.
#[local] Abbreviation W := (CacheProvider St).
Open Scope handler_scope.

(** The pages of [ListPath], each pin through the handler. *)
Definition Backfill (ListPath : string -> string -> Z -> res backfillPage) (fuel : nat)
    (paths : list string) (pageSize : Z) (since : option Z) (w : W) : option (res unit * W) :=
  backfill_paths ListPath (fun pin => HandleBlockPin (toAggregatorPin pin) ;;; hret tt) fuel
    (normaliseBackfillPaths paths) (if pageSize <=? 0 then 100 else pageSize) since w.
End Backfill.
