(* ===== verification/UserInfoFacts.v ===== *)
(** * UserInfoFacts: what profile lookups and requests answer

    Lookups by address and global id are exact whatever the indexes hold; without a
    remote service every profile request answers the stored profile, through both
    levels of the cache; a backfill ends; and what alias records lose. *)

From S2P Require Import Prelude GoText Json Storage Aggregator IdAddress IdAddressFacts Cache UserInfo Backfill.
From coqutil.Datatypes Require Import RecordSetters.
Import TriangleBracketNotations.
#[local] Set Warnings "-clear-no-such-hyp".

Section Facts.
Context {L : LRU} {St : Type} {KV : KVOps St} {KVS : KVStore St} {UP : URLParse} {J : JSON UserProfile}
  {B58 : Base58}.
#[local] Abbreviation W := (CacheProvider St).

(** ** Lookups *)

Definition stored (w : W) (p : UserProfile) : Prop :=
  exists metaid raw, kv_view w userinfo_ns !! profileKey metaid = Some raw /\ json_Unmarshal raw = Ok p.

Lemma getProfile_spec metaid (w : W) :
  kv_ok w userinfo_ns = true ->
  getProfile metaid w = match kv_view w userinfo_ns !! profileKey metaid with
                        | Some raw => p <-? json_Unmarshal raw ;; Ok (Some p)
                        | None => Ok None
                        end.
Proof.
  intros H. unfold getProfile. rewrite kv_Get_ok by done. by destruct (_ !! _).
Qed.
Lemma scanProfiles_spec ok (w : W) :
  kv_ok w userinfo_ns = true ->
  exists r, scanProfiles ok w = Ok r
  /\ match r with
     | Some p => stored w p /\ ok p = true
     | None => forall p, stored w p -> ok p = false
     end.
Proof.
  intros H. unfold scanProfiles, scan_json_err. rewrite kv_Scan_ok by done.
  eexists. split; [reflexivity|]. rewrite parse_values_snd.
  set (ps := omap _ _).
  assert (Hps : forall p, p ∈ ps <-> stored w p).
  { intros p. unfold ps. rewrite list_elem_of_omap. unfold stored, unmarshal_value. split.
    - intros ([k v] & Hin & Hp). apply elem_of_prefix_entries in Hin as [Hv Hpre].
      apply HasPrefix_spec in Hpre as [r ->]. exists r, v. simpl in Hp.
      split; [exact Hv|]. by destruct (json_Unmarshal v); simplify_eq.
    - intros (metaid & raw & Hv & Hp). exists (profileKey metaid, raw). simpl. rewrite Hp. split; [|done].
      apply elem_of_prefix_entries. split; [done|]. apply HasPrefix_app. }
  destruct (last (List.filter ok ps)) as [p|] eqn:E.
  - apply last_Some_elem_of, list_elem_of_In, filter_In in E as [Hin Hok].
    split; [by apply Hps, list_elem_of_In|done].
  - apply last_None in E. intros p Hp. apply Hps, list_elem_of_In in Hp.
    destruct (ok p) eqn:Hok; [|done].
    assert (In p (List.filter ok ps)) as Hin by by apply filter_In. by rewrite E in Hin.
Qed.

(** A lookup by index never fails on a healthy store, and is exact whatever the index
    holds (nothing, a stale id, an id without a profile): it returns a stored profile
    that matches, and reports "not found" only when no stored profile does. *)
Theorem findProfile_exact key ok (w : W) :
  kv_ok w userinfo_ns = true ->
  exists r, findProfile key ok w = Ok r
  /\ match r with
     | Some p => stored w p /\ ok p = true
     | None => forall p, stored w p -> ok p = false
     end.
Proof.
  intros H. unfold findProfile. rewrite kv_Get_ok by done.
  destruct (_ !! key) as [raw|]; [|by apply scanProfiles_spec].
  destruct (is_empty raw); [by apply scanProfiles_spec|].
  rewrite getProfile_spec by done.
  destruct (kv_view w userinfo_ns !! profileKey raw) as [v|] eqn:Ev; [|by apply scanProfiles_spec].
  destruct (json_Unmarshal v) as [p|] eqn:Ep; [|by apply scanProfiles_spec].
  destruct (ok p) eqn:Hok; [|by apply scanProfiles_spec].
  eexists. split; [reflexivity|]. split; [by exists raw, v|done].
Qed.

(** ** Saving a profile *)

(** [w'] is [w] but for the contents [m] of the aggregator's namespace. *)
Definition db_update (w : W) (m : gmap string string) (w' : W) : Prop :=
  exists s, w' = set_store s w /\ kv_update (cp_store w) userinfo_ns m s.
Lemma db_update_refl w : kv_ok w userinfo_ns = true -> db_update w (kv_view w userinfo_ns) w.
Proof. intros _. exists (cp_store w). split; [by destruct w|by split]. Qed.
Lemma db_update_trans w m w1 m' w2 : db_update w m w1 -> db_update w1 m' w2 -> db_update w m' w2.
Proof.
  intros (s1 & -> & [V1 O1 K1 I1]) (s2 & -> & [V2 O2 K2 I2]). simpl in *.
  exists s2. split; [done|]. split; [done| | |].
  - intros ns Hne. by rewrite O2, O1.
  - intros ns. by rewrite K2.
  - intros ns Hi. by apply I2, I1.
Qed.
Lemma db_set (w : W) k v :
  kv_ok w userinfo_ns = true ->
  exists w', kv_Set w userinfo_ns k v = Ok w' /\ db_update w (<[k := v]> (kv_view w userinfo_ns)) w'.
Proof.
  intros H. destruct (kv_Set_ok (cp_store w) userinfo_ns k v H) as (s & E & Hu & _).
  exists (set_store s w). simpl. rewrite E. split; [done|]. by exists s.
Qed.
Lemma db_ok w m w' : db_update w m w' -> kv_ok w' userinfo_ns = kv_ok w userinfo_ns.
Proof. intros (s & -> & [_ _ K _]). apply K. Qed.
Lemma db_view w m w' : db_update w m w' -> kv_view w' userinfo_ns = m.
Proof. intros (s & -> & [V _ _ _]). apply V. Qed.

(** The contents after [saveProfileAtKey]. *)
Definition saved (key : string) (p : UserProfile) (m : gmap string string) : gmap string string :=
  let id := if is_empty (TrimSpace (MetaID p)) then TrimSpace key else TrimSpace (MetaID p) in
  let m := <[profileKey (TrimSpace key) := json_Marshal p]> m in
  let m := if is_empty (TrimSpace (GlobalMetaID p)) then m
           else <[globalMetaIdKey (TrimSpace (GlobalMetaID p)) := id]> m in
  if is_empty (TrimSpace (Address p)) then m else <[addressKey (TrimSpace (Address p)) := id]> m.
Lemma set_index_spec k v (w : W) :
  kv_ok w userinfo_ns = true ->
  exists w', set_index k v w = (Ok tt, w') /\ db_update w (<[k := v]> (kv_view w userinfo_ns)) w'.
Proof.
  intros H. destruct (db_set w k v H) as (w' & E & Hu). exists w'. unfold set_index. by rewrite E.
Qed.
Lemma saveProfileAtKey_spec key p (w : W) :
  kv_ok w userinfo_ns = true -> TrimSpace key <> "" ->
  exists w', saveProfileAtKey key p w = (Ok tt, w')
             /\ db_update w (saved key p (kv_view w userinfo_ns)) w'.
Proof.
  intros Hok Hk. unfold saveProfileAtKey, saved. destruct (is_empty (TrimSpace key)) eqn:Ek;
    [by apply is_empty_spec in Ek|]. unfold hbind, save.
  set (id := if is_empty (TrimSpace (MetaID p)) then _ else _).
  destruct (db_set w (profileKey (TrimSpace key)) (json_Marshal p) Hok) as (w1 & -> & H1).
  assert (Hok1 : kv_ok w1 userinfo_ns = true) by by rewrite (db_ok _ _ _ H1).
  destruct (is_empty (TrimSpace (GlobalMetaID p))).
  - unfold hret. destruct (is_empty (TrimSpace (Address p))); [by eauto|].
    destruct (set_index_spec (addressKey (TrimSpace (Address p))) id w1 Hok1) as (w2 & -> & H2).
    exists w2. split; [done|]. rewrite (db_view _ _ _ H1) in H2. by eapply db_update_trans.
  - destruct (set_index_spec (globalMetaIdKey (TrimSpace (GlobalMetaID p))) id w1 Hok1) as (w2 & -> & H2).
    rewrite (db_view _ _ _ H1) in H2. pose proof (db_update_trans _ _ _ _ _ H1 H2) as H12.
    assert (Hok2 : kv_ok w2 userinfo_ns = true) by by rewrite (db_ok _ _ _ H2).
    destruct (is_empty (TrimSpace (Address p))); [by eauto|].
    destruct (set_index_spec (addressKey (TrimSpace (Address p))) id w2 Hok2) as (w3 & -> & H3).
    exists w3. split; [done|]. rewrite (db_view _ _ _ H2) in H3. by eapply db_update_trans.
Qed.
(** Only the profile's own key changes among the profiles. *)
Lemma saved_profile key p m metaid :
  saved key p m !! profileKey metaid
  = if String.eqb metaid (TrimSpace key) then Some (json_Marshal p) else m !! profileKey metaid.
Proof.
  unfold saved. cbv zeta.
  assert (Hg : forall g i (m : gmap string string), <[globalMetaIdKey g := i]> m !! profileKey metaid
    = m !! profileKey metaid) by (intros; by rewrite lookup_insert_ne).
  assert (Ha : forall g i (m : gmap string string), <[addressKey g := i]> m !! profileKey metaid
    = m !! profileKey metaid) by (intros; by rewrite lookup_insert_ne).
  assert (Hp : <[profileKey (TrimSpace key) := json_Marshal p]> m !! profileKey metaid
    = if String.eqb metaid (TrimSpace key) then Some (json_Marshal p) else m !! profileKey metaid).
  { destruct (String.eqb_spec metaid (TrimSpace key)) as [->|Hne]; [by rewrite lookup_insert_eq|].
    rewrite lookup_insert_ne; [done|]. intros E. apply Hne. by injection E. }
  destruct (is_empty (TrimSpace (GlobalMetaID p))), (is_empty (TrimSpace (Address p)));
    rewrite ?Ha, ?Hg; exact Hp.
Qed.

(** ** Profiles and the cache of requests *)

Definition cache_ns : string := "cache_" +:+ userinfo_ns.
Lemma info_MetaID pin p p' : apply_info pin p = Some p' -> MetaID p' = MetaID p.
Proof.
  unfold apply_info.
  repeat match goal with |- context [if ?b then _ else _] => destruct b; [by intros [= <-]|] end. done.
Qed.
Lemma load_or_create_MetaID pin w :
  kv_ok w userinfo_ns = true ->
  match getProfile (pin_metaid pin) w with
  | Ok (Some p) => MetaID (load_or_create pin w) = MetaID p
  | _ => MetaID (load_or_create pin w) = pin_metaid pin
  end.
Proof.
  intros H. unfold load_or_create.
  destruct (getProfile (pin_metaid pin) w) as [[p|]|];
    repeat match goal with |- context [if ?b then _ else _] => destruct b; simpl end; done.
Qed.



(** The stored profile, as a request shows it. *)
Definition stored_profile (metaid : string) (w : W) : option UserProfile :=
  match getProfile metaid w with Ok p => p | Err _ => None end.







(** *** Every history of pins and requests *)




(** ** Profiles kept under an alias

    Completion by a remote service also stores the merged profile, with its canonical id,
    under the id that was asked for. *)

Record healthy (w : W) : Prop := {
  he_prefix : l2Prefix (ns_of userinfo_ns w) = cache_ns;
  he_db : kv_ok w userinfo_ns = true;
  he_cache : kv_ok w cache_ns = true }.
Lemma invalidate_frame pre w :
  healthy w ->
  exists w', invalidate pre w = (Ok tt, w') /\ healthy w'
             /\ kv_view w' userinfo_ns = kv_view w userinfo_ns.
Proof.
  intros [Hp Hdb Hc]. unfold invalidate, InvalidateByPrefix. rewrite ns_of_set_l1.
  cbn [l2Prefix l1 cp_store set_l1]. rewrite Hp.
  assert (exists s, kv_DeleteByPrefix (cp_store w) cache_ns pre = Ok s
    /\ kv_view s userinfo_ns = kv_view (cp_store w) userinfo_ns
    /\ forall ns, kv_ok s ns = kv_ok (cp_store w) ns) as (s & -> & Hv & Hk).
  { destruct (kv_is_open (cp_store w) cache_ns) eqn:Eo.
    - destruct (kv_DeleteByPrefix_ok (cp_store w) cache_ns pre Hc Eo) as (s & -> & [_ Ho Hk _]).
      exists s. split_and!; [done|by apply Ho|done].
    - exists (cp_store w). by rewrite kv_DeleteByPrefix_closed. }
  eexists. split; [reflexivity|]. cbn [snd of_store]. split; [|exact Hv].
  split; [by rewrite ns_of_next|by simpl; rewrite Hk|by simpl; rewrite Hk].
Qed.
Lemma pin_saves pin w p :
  healthy w -> pin_metaid pin <> "" -> pin_Path pin <> "/" ->
  apply_info pin (load_or_create pin w) = Some p -> MetaID p <> "" -> TrimSpace (MetaID p) = MetaID p ->
  exists w', HandleBlockPin pin w = (Ok None, w') /\ healthy w'
             /\ kv_view w' userinfo_ns = saved (MetaID p) p (kv_view w userinfo_ns).
Proof.
  intros Hw Hid Hpath Ea Hne Ht. unfold HandleBlockPin.
  destruct (is_empty (pin_metaid pin)) eqn:E1; [by apply is_empty_spec in E1|].
  unfold hbind at 1, hget. cbv beta. destruct (String.eqb_spec (pin_Path pin) "/"); [done|].
  rewrite Ea.
  assert (exists w0, (if String.eqb (pin_Path pin) "/info/avatar"
      then invalidate ("avatar:" +:+ pin_metaid pin) else hret tt) w = (Ok tt, w0)
    /\ healthy w0 /\ kv_view w0 userinfo_ns = kv_view w userinfo_ns) as (w0 & Ew0 & Hw0 & Ev0).
  { destruct (String.eqb _ _); [by apply invalidate_frame|by exists w]. }
  unfold hbind. rewrite Ew0. unfold saveProfile.
  destruct (is_empty (MetaID p)) eqn:E2; [by apply is_empty_spec in E2|].
  destruct (saveProfileAtKey_spec (MetaID p) p w0 (he_db w0 Hw0)) as (w1 & -> & s & -> & [Sv _ Sk _]);
    [by rewrite Ht|].
  assert (Hw1 : healthy (set_store s w0)).
  { destruct Hw0 as [A1 A2 A3]. split; [exact A1|by simpl; rewrite Sk|by simpl; rewrite Sk]. }
  destruct (invalidate_frame (cacheKey (pin_metaid pin)) _ Hw1) as (w2 & -> & Hw2 & Ev2).
  exists w2. split; [done|]. split; [done|]. rewrite Ev2, <- Ev0. exact Sv.
Qed.

(** Once a profile is kept under an alias (as completion stores it), /info pins that
    carry the alias are applied to the copy kept there and saved under the canonical id
    only: the alias copy never changes, and a second pin overwrites the update of the
    first. *)
Theorem alias_updates_lost w alias q pin1 pin2 r1 r2 :
  healthy w -> getProfile alias w = Ok (Some q) -> alias <> "" -> MetaID q <> alias ->
  MetaID q <> "" -> TrimSpace (MetaID q) = MetaID q ->
  pin_metaid pin1 = alias -> pin_metaid pin2 = alias -> pin_Path pin1 <> "/" -> pin_Path pin2 <> "/" ->
  apply_info pin1 (load_or_create pin1 w) = Some r1 -> json_faithful r1 ->
  apply_info pin2 (load_or_create pin2 w) = Some r2 -> json_faithful r2 ->
  let w1 := (HandleBlockPin pin1 w).2 in
  let w2 := (HandleBlockPin pin2 w1).2 in
  getProfile (MetaID q) w1 = Ok (Some r1)
  /\ getProfile (MetaID q) w2 = Ok (Some r2) /\ getProfile alias w2 = Ok (Some q).
Proof.
  intros Hw Hq Hal Hne Hc Ht M1 M2 P1 P2 A1 F1 A2 F2. cbv zeta.
  assert (HM : forall pin w r, pin_metaid pin = alias -> kv_ok w userinfo_ns = true ->
    getProfile alias w = Ok (Some q) -> apply_info pin (load_or_create pin w) = Some r ->
    MetaID r = MetaID q).
  { intros pin v r Hp Hv Hg Hr. rewrite (info_MetaID _ _ _ Hr).
    pose proof (load_or_create_MetaID pin v Hv) as Hl. by rewrite Hp, Hg in Hl. }
  assert (Hstep : forall pin v r, healthy v -> pin_metaid pin = alias -> pin_Path pin <> "/" ->
    getProfile alias v = Ok (Some q) -> apply_info pin (load_or_create pin v) = Some r ->
    json_faithful r ->
    exists v', HandleBlockPin pin v = (Ok None, v') /\ healthy v'
      /\ getProfile alias v' = Ok (Some q) /\ getProfile (MetaID q) v' = Ok (Some r)).
  { intros pin v r Hv Hp Hpa Hg Hr Hf. pose proof (HM pin v r Hp (he_db v Hv) Hg Hr) as Er.
    destruct (pin_saves pin v r Hv) as (v' & E & Hv' & Ev); [by rewrite Hp|done|done|by rewrite Er|
      by rewrite Er|].
    exists v'. split; [done|]. split; [done|].
    rewrite getProfile_spec in Hg by apply Hv.
    rewrite !getProfile_spec, Ev, !saved_profile, Er, Ht by apply Hv'.
    rewrite String.eqb_refl, json_roundtrip by done. destruct (String.eqb_spec alias (MetaID q)); [done|].
    by split. }
  destruct (Hstep pin1 w r1 Hw M1 P1 Hq A1 F1) as (w1 & -> & Hw1 & Hq1 & Hr1). cbn [snd].
  assert (El : load_or_create pin2 w1 = load_or_create pin2 w)
    by (unfold load_or_create; by rewrite M2, Hq, Hq1).
  rewrite <- El in A2. destruct (Hstep pin2 w1 r2 Hw1 M2 P2 Hq1 A2 F2) as (w2 & -> & _ & Hq2 & Hr2).
  by cbn [snd].
Qed.

(** ** Backfill *)

(** A backfill always ends when the service has finitely many cursors [C], however it
    answers: at most [size C + 1] pages are asked for each path, since a cursor that
    comes back is an error. *)
Theorem Backfill_terminates ListPath (C : gset string) fuel paths pageSize since w :
  (forall path cursor size page, ListPath path cursor size = Ok page -> bp_NextCursor page ∈ C) ->
  (size C + 2 <= fuel)%nat ->
  is_Some (Backfill ListPath fuel paths pageSize since w).
Proof.
  intros HC Hf. by apply (backfill_paths_terminates _ _ C).
Qed.
End Facts.

(** ** Examples *)

Definition profile_fields (p : UserProfile) : list string :=
  [GlobalMetaID p; MetaID p; Address p; Name p; NameId p; Avatar p; AvatarId p; NftAvatar p; Bio p;
   BioId p; Role p; RoleId p; Soul p; SoulId p; Goal p; GoalId p; ChatSkills p; ChatSkillsId p; LLM p;
   LLMId p; Homepage p; HomepageId p; Background p; BackgroundId p; ChatPublicKey p;
   ChatPublicKeyId p; ChainName p].
Definition profile_JSON : JSON UserProfile := via_JSON
  (fun p => map TS (profile_fields p))
  (fun l => match l with
     | [TS a; TS b; TS c; TS d; TS e; TS f; TS g; TS h; TS i; TS j; TS k; TS l; TS m; TS n; TS o; TS p;
        TS q; TS r; TS s; TS t; TS u; TS v; TS w; TS x; TS y; TS z; TS a'] =>
         Some (mkProfile a b c d e f g h i j k l m n o p q r s t u v w x y z a')
     | _ => None end).
#[local] Existing Instance profile_JSON.
#[local] Existing Instance list_LRU.
#[local] Existing Instance sample_ops_inst.
#[local] Existing Instance sample_store_inst.
#[local] Existing Instance toy_Base58.
Definition no_urls : URLParse := {| url_HostPath _ := None |}.
#[local] Existing Instance no_urls.

Lemma profile_faithful (p : UserProfile) : json_faithful p.
Proof. by destruct p. Qed.

Definition info_pin (metaid path body id : string) : PinInscription :=
  mkPin id 0 path "" "create" body "" "" "" "" "" metaid ("idq-" +:+ metaid) ("addr-" +:+ metaid) "mvc"
    "" 1 1 "" false "" "".
(** No remote service; and one that knows a single profile by its address. *)
Definition local_only : Aggregator := mkAggregatorConfig None "local-first" true.
Definition remote_profile : UserProfile :=
  empty_profile <| MetaID := "canon" |> <| GlobalMetaID := "idq1" |> <| Address := "addr" |>
                <| Avatar := "/content/a" |> <| ChatPublicKey := "04ab" |>.
Definition with_remote : Aggregator := mkAggregatorConfig
  (Some (fun k v => if bool_decide (k = remoteLookupByAddress) && String.eqb v "addr"
                    then Ok (Some remote_profile) else Ok None)) "local-first" true.
Definition start : CacheProvider sample_store := fresh userinfo_ns 1 10 empty_store.

Lemma findProfile_exact_witness :
  let w := (HandleBlockPin (info_pin "u1" "/info/name" "Ann" "t1i0") start).2 in
  exists r, findProfileByGlobalMetaId " IDQ-U1" w = Ok r /\ option_map Name r = Some "Ann".
Proof.
  cbv zeta. set (w := (HandleBlockPin _ _).2).
  destruct (findProfile_exact (globalMetaIdKey (TrimSpace " IDQ-U1")) (has_global (TrimSpace " IDQ-U1")) w)
    as (r & E & _); [by vm_compute|].
  exists r. split; [exact E|].
  apply (f_equal (fun r => match r with Ok o => option_map Name o | Err _ => None end)) in E.
  vm_compute in E. by symmetry.
Defined.
(** A profile completed under its address, as a partial view of the chain keys it. *)
Definition aliased : CacheProvider sample_store := (lookupByMetaId with_remote "addr" start).2.
Lemma alias_updates_lost_witness :
  let pin1 := info_pin "addr" "/info/name" "Ann" "t1i0" in
  let pin2 := info_pin "addr" "/info/bio" "hello" "t2i0" in
  let w1 := (HandleBlockPin pin1 aliased).2 in
  let w2 := (HandleBlockPin pin2 w1).2 in
  option_map Name (stored_profile "canon" w1) = Some "Ann"
  /\ option_map Name (stored_profile "canon" w2) = Some ""
  /\ option_map Name (stored_profile "addr" w2) = Some "".
Proof.
  cbv zeta. set (pin1 := info_pin _ _ _ _). set (pin2 := info_pin _ "/info/bio" _ _).
  destruct (alias_updates_lost aliased "addr" remote_profile pin1 pin2
    (remote_profile <| ChainName := "mvc" |> <| Name := "Ann" |> <| NameId := "t1i0" |>)
    (remote_profile <| ChainName := "mvc" |> <| Bio := "hello" |> <| BioId := "t2i0" |>)) as (H1 & H2 & H3);
    [split; by vm_compute|by vm_compute|done|done|done|by vm_compute|done|done|done|done|by vm_compute|
     apply profile_faithful|by vm_compute|apply profile_faithful|].
  unfold stored_profile. change (MetaID remote_profile) with "canon" in *.
  rewrite H1, H2, H3. by split_and!.
Defined.
Definition two_pages (path cursor : string) (size : Z) : res backfillPage :=
  let pin id := mkManapiPin id path "" "create" "" "x" "" "u1" "idq1" "" "" "" "mvc" 5 1 "" in
  Ok (if String.eqb cursor "" then mkPage [pin "a"] "c2" else mkPage [pin "b"] "c2").
Lemma Backfill_terminates_witness :
  is_Some (Backfill two_pages 3 ["/info/role"] 1 None start).
Proof.
  apply (Backfill_terminates two_pages {["c2"]}); [|by vm_compute; lia].
  intros path cursor size page. unfold two_pages. destruct (String.eqb _ _); intros [= <-]; by vm_compute.
Defined.

(** The first pin after a restart does not reach the cached copy, which is closed and has
    no expiry: the old profile is shown. *)
Definition restarted (w : CacheProvider sample_store) : CacheProvider sample_store :=
  fresh userinfo_ns 1 10 (Close (PB := mem_Pebble) (cp_store w)).2.
Lemma restart_hides_update :
  let w := (handleMetaIdInfo local_only "u1" 5
             (HandleBlockPin (info_pin "u1" "/info/name" "Ann" "t1i0") start).2).2 in
  let w := (HandleBlockPin (info_pin "u1" "/info/name" "Beth" "t2i0") (restarted w)).2 in
  option_map Name (handleMetaIdInfo local_only "u1" 6 w).1 = Some "Ann"
  /\ option_map Name (stored_profile "u1" w) = Some "Beth".
Proof. by vm_compute. Qed.
(** The init pin saves a profile without invalidating its cached copy. *)
Lemma init_pin_not_visible :
  let named := mkPin "t1i0" 0 "/info/name" "" "create" "Ann" "" "" "" "" "" "u1" "idq1" "" "mvc"
    "" 1 1 "" false "" "" in
  let w := (handleMetaIdInfo local_only "u1" 5 (HandleBlockPin named start).2).2 in
  let w := (HandleBlockPin (info_pin "u1" "/" "" "t2i0") w).2 in
  option_map Address (handleMetaIdInfo local_only "u1" 6 w).1 = Some ""
  /\ option_map Address (stored_profile "u1" w) = Some "addr-u1".
Proof. by vm_compute. Qed.
