(* ===== verification/UserInfoFrames.v ===== *)
(** * UserInfoFrames: what the user info aggregator leaves alone

    Pins, lookups with their completion, and requests change the namespace of the
    profiles and the one of their cache, and no other; whether writes succeed or not. *)

From S2P Require Import Prelude GoText Json Storage Aggregator Frames IdAddress Cache UserInfo UserInfoFacts.
Open Scope handler_scope.

Section Frames.
Context {L : LRU} {St : Type} {KV : KVOps St} {KVS : KVStore St} {UP : URLParse} {J : JSON UserProfile}.
#[local] Abbreviation W := (CacheProvider St).

(** The cache of the user info aggregator is where it should be. *)
Definition cache_placed (w : W) : Prop := l2Prefix (ns_of userinfo_ns w) = cache_ns.
#[export] Instance cache_placed_inv : StoreInv cache_placed.
Proof.
  split; intros *; intros Hs; simpl; [destruct (kv_Set _ _ _ _)|destruct (kv_Delete _ _ _)|done]; intros [= <-]; exact Hs.
Qed.
Definition user_namespaces : list string := [userinfo_ns; cache_ns].
(** [w'] differs from [w] in those namespaces at most. *)
Definition others_kept (w w' : W) : Prop :=
  (forall ns, ns ∉ user_namespaces -> kv_view w' ns = kv_view w ns) /\ forall ns, kv_ok w' ns = kv_ok w ns.
Lemma others_kept_update w ns m w' : ns ∈ user_namespaces -> kv_update w ns m w' -> others_kept w w'.
Proof. intros Hns [_ Ho Hk _]. split; [|done]. intros n Hn. apply Ho. by intros ->. Qed.
(** [c] changes the user info namespaces only. *)
Definition elsewhere {A} (c : M W A) : Prop := forall w, cache_placed w -> cache_placed (c w).2 /\ others_kept w (c w).2.
Lemma elsewhere_pure {A} (r : W -> res A) : elsewhere (fun w => (r w, w)).
Proof. by intros w. Qed.
Lemma elsewhere_bind {A B} (c : M W A) (k : A -> M W B) :
  elsewhere c -> (forall a, elsewhere (k a)) -> elsewhere (hbind c k).
Proof.
  intros Hc Hk w Hw. unfold hbind. destruct (Hc w Hw) as (H1 & H2 & H3).
  destruct (c w) as [[a|e] w']; [|done]. destruct (Hk a w' H1) as (H4 & H5 & H6).
  split; [done|]. split; [intros ns Hns; by rewrite H5, H2|intros ns; by rewrite H6].
Qed.
Lemma elsewhere_Set k v : elsewhere (fun w : W =>
  match kv_Set w userinfo_ns k v with Ok w => (Ok tt, w) | Err e => (Err e, w) end).
Proof.
  intros w Hw. destruct (kv_ok w userinfo_ns) eqn:Hok.
  - destruct (kv_Set_ok (cp_store w) userinfo_ns k v Hok) as (s & E & Hu & _).
    simpl. rewrite E. cbn [snd]. split; [exact Hw|]. eapply (others_kept_update w userinfo_ns); [in_list|].
    by apply set_store_update.
  - pose proof (kv_Set_fail w userinfo_ns k v Hok) as Hf. by destruct (kv_Set w userinfo_ns k v).
Qed.
Lemma elsewhere_invalidate pre : elsewhere (invalidate pre).
Proof.
  intros w Hw. unfold invalidate, InvalidateByPrefix. rewrite ns_of_set_l1.
  cbn [l2Prefix l1 cp_store set_l1]. rewrite Hw.
  assert (Hp : cache_placed (set_l1 userinfo_ns (lru_Purge (l1 (ns_of userinfo_ns w))) w))
    by (unfold cache_placed; by rewrite ns_of_set_l1).
  destruct (kv_is_open (cp_store w) cache_ns) eqn:Eo.
  - destruct (kv_ok (cp_store w) cache_ns) eqn:Ek.
    + destruct (kv_DeleteByPrefix_ok (cp_store w) cache_ns pre Ek Eo) as (s & -> & Hu).
      cbn [of_store snd]. split; [exact Hp|]. destruct Hu as [_ Ho Hk _].
      split; [|exact Hk]. intros n Hn. apply Ho. intros ->. apply Hn. in_list.
    + pose proof (kv_DeleteByPrefix_fail (cp_store w) cache_ns pre Ek Eo) as Hf.
      by destruct (kv_DeleteByPrefix (cp_store w) cache_ns pre).
  - rewrite kv_DeleteByPrefix_closed by done. split; [exact Hp|done].
Qed.
Lemma elsewhere_ret {A} (a : A) : elsewhere (hret a).
Proof. apply (elsewhere_pure (fun _ => Ok a)). Qed.
Lemma elsewhere_save k (p : UserProfile) : elsewhere (save userinfo_ns k p).
Proof. apply (elsewhere_Set k (json_Marshal p)). Qed.
Lemma elsewhere_index k v : elsewhere (set_index k v).
Proof. apply elsewhere_Set. Qed.
Lemma elsewhere_saveAtKey key p : elsewhere (saveProfileAtKey key p).
Proof.
  unfold saveProfileAtKey. destruct (is_empty _); [apply elsewhere_ret|].
  apply elsewhere_bind; [apply elsewhere_save|intros _].
  apply elsewhere_bind; [destruct (is_empty _); [apply elsewhere_ret|apply elsewhere_index]|intros _].
  destruct (is_empty _); [apply elsewhere_ret|apply elsewhere_index].
Qed.
Lemma elsewhere_complete ui local queries aliasKey :
  elsewhere (completeProfile ui local queries aliasKey).
Proof.
  unfold completeProfile. destruct (negb _); [apply elsewhere_ret|].
  destruct (fetchRemoteProfile ui queries) as [[remote|]|]; [|apply elsewhere_ret..].
  apply elsewhere_bind; [|intros _; apply elsewhere_ret]. unfold persistMergedProfile.
  apply elsewhere_bind; [|intros _; apply elsewhere_bind; [|intros _]].
  - unfold saveProfile. destruct (is_empty _); [apply elsewhere_ret|apply elsewhere_saveAtKey].
  - destruct (_ && _); [|apply elsewhere_ret].
    apply elsewhere_bind; [apply elsewhere_saveAtKey|intros _; apply elsewhere_invalidate].
  - destruct (negb _); [apply elsewhere_invalidate|apply elsewhere_ret].
Qed.
Lemma elsewhere_lookups ui id :
  elsewhere (lookupByMetaId ui id) /\ elsewhere (lookupByGlobalMetaId ui id) /\ elsewhere (lookupByAddress ui id).
Proof.
  split_and!; (apply elsewhere_bind; [apply elsewhere_pure|intros; apply elsewhere_complete]).
Qed.
Lemma elsewhere_HandleBlockPin {B58 : Base58} pin : elsewhere (HandleBlockPin pin).
Proof.
  assert (Hs : forall p, elsewhere (saveProfile p)).
  { intros p. unfold saveProfile. destruct (is_empty _); [apply elsewhere_ret|apply elsewhere_saveAtKey]. }
  unfold HandleBlockPin. cbv zeta. destruct (is_empty _); [apply elsewhere_ret|].
  apply elsewhere_bind; [apply (elsewhere_pure (fun w => Ok (load_or_create pin w)))|intros p].
  destruct (String.eqb (pin_Path pin) "/").
  - apply elsewhere_bind; [apply Hs|intros _]. apply elsewhere_bind; [apply elsewhere_index|intros; apply elsewhere_ret].
  - destruct (apply_info pin p); [|apply elsewhere_ret].
    apply elsewhere_bind; [destruct (String.eqb _ _); [apply elsewhere_invalidate|apply elsewhere_ret]|intros _].
    apply elsewhere_bind; [apply Hs|intros _].
    apply elsewhere_bind; [apply elsewhere_invalidate|intros; apply elsewhere_ret].
Qed.
Lemma elsewhere_frame {A} (c : M W A) : elsewhere c -> frame cache_placed user_namespaces c.
Proof.
  intros Hc w Hw _. destruct (Hc w Hw) as (H1 & H2 & H3). split; [done|]. split; [|done].
  intros ns Hns. split; [by apply H2|done].
Qed.
End Frames.
