(* ===== verification/Paging.v ===== *)
(** * Paging: lists of messages, newest first, by cursor

    The routine that groupchat/db_chat.go and privatechat/db.go both contain: a page of
    an ascending list read from its end, and a base64 cursor that holds how many entries
    have been returned.  The facts: the cursor survives its round trip, and following
    the cursors ends and returns every entry once. *)

From S2P Require Import Prelude GoText Bits.

(** ** Cursors *)

(** [int64ToBytes]: [b[i] = byte(v >> (56 - i*8))]. *)
Definition int64ToBytes (v : Z) : list Z :=
  map (fun i => u8 (Z.shiftr v (56 - i * 8))) [0; 1; 2; 3; 4; 5; 6; 7].
(** [int64FromBytes] and [bytesToInt64]: at most eight bytes. *)
Definition int64FromBytes (b : list Z) : Z :=
  foldl (fun v x => Z.lor (wrap64 (Z.shiftl v 8)) x) 0 (take 8 b).

(** [cursorStr != "" && cursorStr != "null"] *)
Definition has_cursor (cursorStr : string) : bool :=
  negb (is_empty cursorStr) && negb (String.eqb cursorStr "null").

(** ** A page *)

(** [for i := startIdx; i >= 0 && len(messages) < size; i--]: [fuel] bounds the
    rounds by the number of indices left. *)
Fixpoint take_desc {A} (fuel : nat) (all : list A) (i n size : Z) : list A :=
  match fuel with
  | O => []
  | S fuel =>
      if (0 <=? i) && (n <? size) then
        match all !! Z.to_nat i with
        | Some msg => msg :: take_desc fuel all (i - 1) (n + 1) size
        | None => []
        end
      else []
  end.

Definition decode_cursor (cursorStr : string) : Z :=
  if has_cursor cursorStr then
    match b64_decode cursorStr with
    | Some decoded => if (8 <=? length decoded)%nat then int64FromBytes (take 8 decoded) else 0
    | None => 0
    end
  else 0.

Record page (A : Type) := mkPageDesc {
  pg_Total : Z;
  pg_NextCursor : string;
  pg_NextTimestamp : Z;
  pg_List : list A }.
Arguments mkPageDesc {A}. Arguments pg_Total {A}. Arguments pg_NextCursor {A}.
Arguments pg_NextTimestamp {A}. Arguments pg_List {A}.
(** [timestamp] reads the time of an entry. *)
Definition page_desc {A} (timestamp : A -> Z) (allMessages : list A) (cursorStr : string) (size : Z)
    : page A :=
  let total := Z.of_nat (length allMessages) in
  let startFromEnd := decode_cursor cursorStr in
  let startIdx := wrap64 (total - 1 - startFromEnd) in
  let startIdx := if total <=? startIdx then total - 1 else startIdx in
  let startIdx := if startIdx <? 0 then -1 else startIdx in
  let messages := take_desc (Z.to_nat (startIdx + 1)) allMessages startIdx 0 size in
  let n := Z.of_nat (length messages) in
  let newOffset := wrap64 (startFromEnd + n) in
  let nextCursor :=
    if (newOffset <? total) && (n =? size) && (0 <? n)
    then b64_encode (int64ToBytes newOffset) else "" in
  let nextTimestamp := match last messages with Some msg => timestamp msg | None => 0 end in
  mkPageDesc total nextCursor nextTimestamp messages.

(** ** Facts *)

(** One byte of [int64FromBytes], while the sign bit is not reached. *)
Lemma from_bytes_step v k :
  8 <= k <= 56 ->
  Z.lor (wrap64 (Z.shiftl (Z.shiftr v (k + 8) mod 2 ^ (56 - k)) 8)) (u8 (Z.shiftr v k))
  = Z.shiftr v k mod 2 ^ (64 - k).
Proof.
  intros Hk. set (a := _ mod _).
  assert (Ha : 0 <= a < 2 ^ (56 - k)) by (apply Z.mod_pos_bound; lia).
  assert (Hp : 2 ^ (56 - k) <= 2 ^ 48) by (apply Z.pow_le_mono_r; lia).
  rewrite wrap64_id by (unfold in_i64; rewrite Z.shiftl_mul_pow2 by lia; lia).
  rewrite lor_shiftl_add by (lia || apply Z.mod_pos_bound; lia).
  unfold u8, a. replace (64 - k) with (8 + (56 - k)) by lia. rewrite Z.pow_add_r by lia.
  rewrite Z.rem_mul_r by lia. rewrite <- (Z.shiftr_div_pow2 _ 8), Z.shiftr_shiftr by lia. lia.
Qed.

Lemma from_bytes_last v :
  in_i64 v ->
  Z.lor (wrap64 (Z.shiftl (Z.shiftr v 8 mod 2 ^ 56) 8)) (u8 v) = v.
Proof.
  intros Hv. unfold in_i64 in Hv.
  assert (E : wrap64 (Z.shiftl (Z.shiftr v 8 mod 2 ^ 56) 8) = Z.shiftl (Z.shiftr v 8) 8).
  { rewrite !Z.shiftl_mul_pow2, Z.shiftr_div_pow2 by lia. set (q := v / 2 ^ 8).
    assert (- 2 ^ 55 <= q < 2 ^ 55).
    { unfold q. split; [apply Z.div_le_lower_bound; lia|apply Z.div_lt_upper_bound; lia]. }
    unfold wrap64. rewrite (Z.mod_eq q) by lia.
    replace ((q - 2 ^ 56 * (q / 2 ^ 56)) * 2 ^ 8 + 2 ^ 63)
      with (q * 2 ^ 8 + 2 ^ 63 + (- (q / 2 ^ 56)) * 2 ^ 64) by lia.
    rewrite Z.mod_add, Z.mod_small by lia. lia. }
  rewrite E, lor_shiftl_add by (lia || apply Z.mod_pos_bound; lia).
  unfold u8. rewrite Z.shiftr_div_pow2 by lia. pose proof (Z.div_mod v (2 ^ 8)). lia.
Qed.

Lemma int64_bytes_roundtrip v : in_i64 v -> int64FromBytes (int64ToBytes v) = v.
Proof.
  intros Hv. unfold int64FromBytes, int64ToBytes. cbn [map take foldl].
  change (56 - 0 * 8) with 56. change (56 - 1 * 8) with 48. change (56 - 2 * 8) with 40.
  change (56 - 3 * 8) with 32. change (56 - 4 * 8) with 24. change (56 - 5 * 8) with 16.
  change (56 - 6 * 8) with 8. change (56 - 7 * 8) with 0.
  assert (H : forall k j a, 8 <= k <= 56 -> j = k + 8 -> a = Z.shiftr v j mod 2 ^ (56 - k) ->
    Z.lor (wrap64 (Z.shiftl a 8)) (u8 (Z.shiftr v k)) = Z.shiftr v k mod 2 ^ (64 - k)).
  { intros k j a Hk -> ->. by apply from_bytes_step. }
  rewrite (H 56 64) by (lia || by rewrite Z.mod_1_r).
  rewrite (H 48 56), (H 40 48), (H 32 40), (H 24 32), (H 16 24), (H 8 16) by (lia || done).
  rewrite Z.shiftr_0_r. by apply from_bytes_last.
Qed.

Lemma int64ToBytes_ok v : bytes_ok (int64ToBytes v).
Proof.
  unfold int64ToBytes. apply Forall_map. repeat constructor;
    unfold byte_ok, u8; simpl; apply Z.mod_pos_bound; lia.
Qed.
Lemma b64_nonempty a l : is_empty (b64_encode (a :: l)) = false.
Proof. by destruct l as [|? [|]]. Qed.

Lemma decode_cursor_encode v :
  in_i64 v -> decode_cursor (b64_encode (int64ToBytes v)) = v.
Proof.
  intros Hv. unfold decode_cursor, has_cursor.
  assert (is_empty (b64_encode (int64ToBytes v)) = false) as -> by apply b64_nonempty.
  assert (String.eqb (b64_encode (int64ToBytes v)) "null" = false) as ->.
  { apply String.eqb_neq. intros H. apply (f_equal String.length) in H. discriminate. }
  cbn [negb andb]. rewrite b64_roundtrip by apply int64ToBytes_ok.
  cbn [length int64ToBytes map Nat.leb]. by apply int64_bytes_roundtrip.
Qed.

Lemma take_desc_spec {A} (all : list A) size n k :
  (k <= length all)%nat -> n <= size ->
  take_desc k all (Z.of_nat k - 1) n size = take (Z.to_nat (size - n)) (reverse (take k all)).
Proof.
  revert n. induction k as [|k IH]; intros n Hk Hn.
  { by destruct (Z.to_nat (size - n)). }
  cbn [take_desc]. rewrite (proj2 (Z.leb_le 0 _)) by lia. cbn [andb].
  destruct (Z.ltb_spec n size) as [Hlt|].
  2:{ by replace (Z.to_nat (size - n)) with O by lia. }
  replace (Z.to_nat (Z.of_nat (S k) - 1)) with k by lia.
  destruct (all !! k) as [msg|] eqn:E.
  2:{ apply lookup_ge_None in E. lia. }
  rewrite (take_S_r _ _ _ E), reverse_app. cbn [reverse rev_append app].
  replace (Z.to_nat (size - n)) with (S (Z.to_nat (size - (n + 1)))) by lia.
  change (reverse [msg] ++ reverse (take k all)) with (msg :: reverse (take k all)).
  rewrite firstn_cons. f_equal. rewrite <- IH by lia. f_equal. lia.
Qed.

Lemma take_reverse_drop {A} (l : list A) off :
  reverse (take (length l - off) l) = drop off (reverse l).
Proof.
  transitivity (drop off (reverse (take (length l - off) l ++ drop (length l - off) l)));
    [|by rewrite take_drop].
  rewrite reverse_app, drop_app. rewrite length_reverse, length_drop.
  destruct (decide (off <= length l)%nat).
  - replace (off - (length l - (length l - off)))%nat with O by lia.
    rewrite (drop_ge (reverse (drop _ _))) by (rewrite length_reverse, length_drop; lia). done.
  - replace (length l - off)%nat with O by lia. rewrite take_0.
    rewrite (drop_ge (reverse (drop 0 l))) by (rewrite length_reverse, length_drop; lia).
    by rewrite drop_ge by (cbn; lia).
Qed.

(** One page: [size] messages from offset [off] of the newest-first list, and a
    cursor exactly when messages remain. *)
Lemma page_spec {A} (timestamp : A -> Z) all cursor size off :
  decode_cursor cursor = Z.of_nat off -> (off <= length all)%nat ->
  0 < size < 2 ^ 62 -> Z.of_nat (length all) < 2 ^ 62 ->
  let r := page_desc timestamp all cursor size in
  pg_Total r = Z.of_nat (length all)
  /\ pg_List r = take (Z.to_nat size) (drop off (reverse all))
  /\ pg_NextCursor r = if (off + Z.to_nat size <? length all)%nat
                       then b64_encode (int64ToBytes (Z.of_nat off + size)) else "".
Proof.
  intros Hc Hoff Hsize Hlen. unfold page_desc. rewrite Hc. cbv zeta.
  set (total := Z.of_nat (length all)).
  rewrite (wrap64_id (total - 1 - Z.of_nat off)) by (unfold in_i64, total; lia).
  assert (E1 : (if total <=? total - 1 - Z.of_nat off then total - 1 else total - 1 - Z.of_nat off)
               = total - 1 - Z.of_nat off).
  { rewrite (proj2 (Z.leb_gt _ _)) by lia. done. }
  rewrite E1.
  assert (E2 : (if total - 1 - Z.of_nat off <? 0 then -1 else total - 1 - Z.of_nat off)
               = Z.of_nat (length all - off) - 1).
  { destruct (Z.ltb_spec (total - 1 - Z.of_nat off) 0); unfold total in *; lia. }
  rewrite E2. replace (Z.to_nat (Z.of_nat (length all - off) - 1 + 1)) with (length all - off)%nat
    by lia.
  rewrite take_desc_spec by lia. rewrite Z.sub_0_r, take_reverse_drop.
  cbn [pg_Total pg_List pg_NextCursor].
  split; [done|split; [done|]].
  rewrite length_take, length_drop, length_reverse. 
  rewrite wrap64_id by (unfold in_i64; lia).
  destruct (decide (Z.of_nat off + size < total)) as [Hd|Hd].
  - rewrite (Nat.min_l (Z.to_nat size)) by (unfold total in *; lia).
    rewrite Z2Nat.id by lia. rewrite Z.eqb_refl.
    rewrite !(proj2 (Z.ltb_lt _ _)) by lia.
    destruct (Nat.ltb_spec (off + Z.to_nat size) (length all)); [done|unfold total in *; lia].
  - destruct (Nat.ltb_spec (off + Z.to_nat size) (length all)); [unfold total in *; lia|].
    destruct (Z.ltb_spec (Z.of_nat off + Z.of_nat (Z.to_nat size `min` (length all - off))) total);
      [|done].
    destruct (Z.eqb_spec (Z.of_nat (Z.to_nat size `min` (length all - off))) size); [|done].
    unfold total in *; lia.
Qed.

(** A client that follows the cursors from [cursor] until none is returned. *)
Fixpoint walk {A} (page : string -> list A * string) (fuel : nat) (cursor : string) : option (list A) :=
  match fuel with
  | O => None
  | S fuel =>
      let '(l, next) := page cursor in
      if is_empty next then Some l else app l <$> walk page fuel next
  end.
Definition page_of {A} (timestamp : A -> Z) (all : list A) (size : Z) (cursor : string) : list A * string :=
  let r := page_desc timestamp all cursor size in (pg_List r, pg_NextCursor r).

Lemma walk_spec {A} (timestamp : A -> Z) all size fuel cursor off :
  decode_cursor cursor = Z.of_nat off -> (off <= length all)%nat ->
  0 < size < 2 ^ 62 -> Z.of_nat (length all) < 2 ^ 62 -> (length all - off < fuel)%nat ->
  walk (page_of timestamp all size) fuel cursor = Some (drop off (reverse all)).
Proof.
  intros Hc Hoff Hsize Hlen. revert cursor off Hc Hoff.
  induction fuel as [|fuel IH]; intros cursor off Hc Hoff Hf; [lia|].
  destruct (page_spec timestamp all cursor size off Hc Hoff Hsize Hlen) as (_ & Hl & Hn).
  cbn [walk]. unfold page_of at 1. rewrite Hn, Hl.
  destruct (Nat.ltb_spec (off + Z.to_nat size) (length all)) as [Hlt|Hge].
  - assert (is_empty (b64_encode (int64ToBytes (Z.of_nat off + size))) = false) as ->
      by apply b64_nonempty.
    rewrite (IH _ (off + Z.to_nat size)%nat); [|rewrite decode_cursor_encode;
      [lia|unfold in_i64; lia]|lia|lia].
    simpl. by rewrite <- drop_drop, take_drop.
  - cbn [is_empty]. rewrite take_ge; [done|]. rewrite length_drop, length_reverse. lia.
Qed.

Lemma walk_complete {A} (timestamp : A -> Z) all size :
  0 < size < 2 ^ 62 -> Z.of_nat (length all) < 2 ^ 62 ->
  walk (page_of timestamp all size) (S (length all)) "" = Some (reverse all).
Proof. intros. rewrite (walk_spec timestamp all size _ "" 0); auto; lia. Qed.
