(* ===== verification/GroupChat.v ===== *)
(** * GroupChat: groups, members, roles and messages ([internal/aggregator/groupchat])

    The stored records, the keys, the queries (pure reads of the store) and the
    pin handlers (state and error) of db_group.go, db_chat.go, db_community.go,
    db_idchat_compat.go, process.go, module.go and notify.go.  This aggregator
    never deletes a key, so whether its namespace's handle is already open is
    not observable and reads do not thread the store.  [log.Printf] is dropped. *)

From S2P Require Import Prelude GoText Json Storage Aggregator Paging.

(** ** Stored records *)

Record Group := mkGroup {
  g_GroupId : string;
  g_TxId : string;
  g_PinId : string;
  g_GroupName : string;
  g_GroupNote : string;
  g_GroupType : string;
  g_Status : string;
  g_Avatar : string;
  g_Creator : string;
  g_CreatorMetaId : string;
  g_CreatorGlobalMetaId : string;
  g_MemberCount : Z;
  g_CommunityId : string;
  g_JoinType : string;
  g_CreatedAt : Z;
  g_Chain : string;
  g_BlockHeight : Z }.

Record GroupMember := mkMember {
  gm_MetaId : string;
  gm_GlobalMetaId : string;
  gm_Address : string;
  gm_UserName : string;
  gm_Avatar : string;
  gm_IsCreator : bool;
  gm_IsAdmin : bool;
  gm_IsBlocked : bool;
  gm_IsWhitelist : bool;
  gm_IsRemoved : bool;
  gm_Timestamp : Z }.

Record GroupMemberRole := mkRole {
  gr_MetaId : string;
  gr_GroupId : string;
  gr_IsCreator : bool;
  gr_IsAdmin : bool;
  gr_IsBlocked : bool;
  gr_IsWhitelist : bool;
  gr_IsRemoved : bool;
  gr_Timestamp : Z;
  gr_BlockHeight : Z }.

Record Community := mkCommunity {
  c_CommunityId : string;
  c_Name : string;
  c_Description : string;
  c_Cover : string;
  c_Icon : string;
  c_Creator : string;
  c_CreatorMetaId : string;
  c_MemberCount : Z;
  c_CreatedAt : Z;
  c_Chain : string;
  c_BlockHeight : Z }.

(** The [interface{}] fields [UserInfo] and [ReplyInfo] are JSON values. *)
Record ChatMessage := mkChat {
  cm_TxId : string;
  cm_PinId : string;
  cm_GroupId : string;
  cm_ChannelId : string;
  cm_MetaId : string;
  cm_GlobalMetaId : string;
  cm_Address : string;
  cm_UserInfo : any;
  cm_NickName : string;
  cm_Protocol : string;
  cm_Content : string;
  cm_ContentType : string;
  cm_Encryption : string;
  cm_ChatType : string;
  cm_ReplyPin : string;
  cm_ReplyInfo : any;
  cm_ReplyMetaId : string;
  cm_ReplyGlobalMetaId : string;
  cm_Mention : list string;
  cm_Timestamp : Z;
  cm_Chain : string;
  cm_BlockHeight : Z;
  cm_Index : Z }.

Record GroupChannel := mkChannel {
  ch_ChannelId : string;
  ch_GroupId : string;
  ch_TxId : string;
  ch_PinId : string;
  ch_ChannelName : string;
  ch_ChannelIcon : string;
  ch_ChannelNote : string;
  ch_ChannelType : Z;
  ch_ChannelNewestTxId : string;
  ch_ChannelNewestPinId : string;
  ch_ChannelNewestProtocol : string;
  ch_ChannelNewestContent : string;
  ch_ChannelNewestTimestamp : Z;
  ch_ChannelNewestMetaId : string;
  ch_ChannelNewestGlobalMetaId : string;
  ch_CreateUserMetaId : string;
  ch_CreateUserGlobalMetaId : string;
  ch_CreateUserAddress : string;
  ch_Timestamp : Z;
  ch_Chain : string;
  ch_BlockHeight : Z;
  ch_Index : Z;
  ch_Version : string }.

Record GroupMetaIdJoinItem := mkJoinItem {
  ji_JoinPinId : string;
  ji_JoinType : string;
  ji_JoinTimestamp : Z;
  ji_GroupState : Z;
  ji_Address : string;
  ji_Referrer : string;
  ji_K : string;
  ji_BlockHeight : Z;
  ji_Chain : string;
  ji_ByGlobalMetaId : string;
  ji_ByMetaId : string;
  ji_ByAddress : string }.

(** ** Results of queries *)

Record ChatListResult := mkChatList {
  cl_Total : Z;
  cl_NextCursor : string;
  cl_NextTimestamp : Z;
  cl_List : list ChatMessage }.
Record ChatListByIndexResult := mkChatListByIndex {
  cli_Total : Z;
  cli_LastIndex : Z;
  cli_NextTimestamp : Z;
  cli_List : list ChatMessage }.
Record GroupJoinControlList := mkJoinControl {
  jc_GroupId : string;
  jc_JoinBlockMetaIds : list string;
  jc_JoinBlockGlobalMetaIds : list string;
  jc_JoinWhitelistMetaIds : list string;
  jc_JoinWhitelistGlobalMetaIds : list string }.

(** [UserLatestChatInfo]; [LastMessage] is the JSON value of the message. *)
Record UserLatestChatInfo := mkLatest {
  ul_Type : string;
  ul_GlobalMetaId : string;
  ul_GroupId : string;
  ul_MetaId : string;
  ul_Address : string;
  ul_Timestamp : Z;
  ul_ChatType : string;
  ul_Content : string;
  ul_CreateMetaId : string;
  ul_CreateGlobalMetaId : string;
  ul_CreateAddress : string;
  ul_LastMessagePinId : string;
  ul_Version : string;
  ul_BlockHeight : Z;
  ul_Chain : string;
  ul_Index : Z;
  ul_UserInfo : any;
  ul_RoomName : string;
  ul_RoomJoinType : string;
  ul_RoomAvatarUrl : string;
  ul_CreateUserInfo : any;
  ul_UserCount : Z;
  ul_Path : string;
  ul_LastMessage : any }.
(** [latestPrivateMessage]: a message of the privatechat namespace. *)
Record latestPrivateMessage := mkLatestPrivate {
  lp_FromGlobalMetaId : string;
  lp_From : string;
  lp_FromAddress : string;
  lp_FromUserInfo : any;
  lp_ToGlobalMetaId : string;
  lp_To : string;
  lp_ToAddress : string;
  lp_ToUserInfo : any;
  lp_TxId : string;
  lp_PinId : string;
  lp_Protocol : string;
  lp_Content : string;
  lp_ContentType : string;
  lp_Encryption : string;
  lp_Timestamp : Z;
  lp_Chain : string;
  lp_BlockHeight : Z;
  lp_Index : Z }.

(** ** Protocol bodies parsed from pins *)

Record SimpleCommunity := mkSimpleCommunity {
  sc_Name : string; sc_Description : string; sc_Cover : string; sc_Icon : string }.
Record SimpleGroupCreate := mkSimpleGroupCreate {
  sgc_GroupId : string;
  sgc_GroupName : string;
  sgc_GroupIcon : string;
  sgc_GroupNote : string;
  sgc_GroupType : string;
  sgc_Status : string;
  sgc_JoinType : any;
  sgc_Type : any;
  sgc_CommunityId : string }.
Record SimpleGroupChannel := mkSimpleGroupChannel {
  sch_GroupId : string;
  sch_ChannelId : string;
  sch_ChannelName : string;
  sch_ChannelIcon : string;
  sch_ChannelNote : string;
  sch_ChannelType : any }.
Record SimpleGroupAdmin := mkSimpleGroupAdmin { sga_GroupId : string; sga_Admins : list string }.
Record SimpleGroupBlock := mkSimpleGroupBlock { sgb_GroupId : string; sgb_Users : list string }.
Record SimpleGroupChat := mkSimpleGroupChat {
  sgt_GroupId : string;
  sgt_ChannelId : string;
  sgt_Content : string;
  sgt_ContentType : string;
  sgt_Encryption : string;
  sgt_ReplyPin : string;
  sgt_Mention : list string }.
Record SimpleGroupJoin := mkSimpleGroupJoin {
  sgj_GroupId : string; sgj_Referrer : string; sgj_State : any; sgj_K : string }.

(** What the aggregator's JSON can do, and the JSON value of a message (the
    content of an [interface{}] that holds one). *)
Class GroupChatJSON := {
  json_Group :: JSON Group;
  json_GroupMember :: JSON GroupMember;
  json_GroupMemberRole :: JSON GroupMemberRole;
  json_Community :: JSON Community;
  json_ChatMessage :: JSON ChatMessage;
  json_GroupChannel :: JSON GroupChannel;
  json_JoinItem :: JSON GroupMetaIdJoinItem;
  json_SimpleCommunity :: JSON SimpleCommunity;
  json_SimpleGroupCreate :: JSON SimpleGroupCreate;
  json_SimpleGroupChannel :: JSON SimpleGroupChannel;
  json_SimpleGroupAdmin :: JSON SimpleGroupAdmin;
  json_SimpleGroupBlock :: JSON SimpleGroupBlock;
  json_SimpleGroupChat :: JSON SimpleGroupChat;
  json_SimpleGroupJoin :: JSON SimpleGroupJoin;
  json_latestPrivate :: JSON latestPrivateMessage;
  json_profile :: JSON (list (string * any));   (* a JSON object *)
  any_of_ChatMessage : ChatMessage -> any;
  any_of_latestPrivate : latestPrivateMessage -> any }.

Definition namespace : string := "groupchat".

(** ** Keys *)

Definition groupPrefix : string := "group:".
Definition groupMemberPrefix : string := "member:".
Definition groupRolePrefix : string := "grouprole:".
Definition communityPrefix : string := "community:".
Definition chatPrefix : string := "chat:".
Definition groupJoinPrefix : string := "groupjoin:".
Definition groupChannelPrefix : string := "channel:".

Definition groupKey (groupId : string) : string := groupPrefix +:+ groupId.
Definition groupMemberKey (groupId metaId : string) : string :=
  groupMemberPrefix +:+ groupId +:+ ":" +:+ metaId.
Definition groupRoleKey (groupId metaId : string) : string :=
  groupRolePrefix +:+ groupId +:+ ":" +:+ metaId.
Definition communityKey (communityId : string) : string := communityPrefix +:+ communityId.
Definition chatKey (groupId : string) (timestamp : Z) (txId : string) : string :=
  chatPrefix +:+ groupId +:+ ":" +:+ fmt_019d timestamp +:+ ":" +:+ txId.
Definition chatKeyPrefix (groupId : string) : string := chatPrefix +:+ groupId +:+ ":".
Definition groupJoinKey (identity groupId : string) (timestamp : Z) (pinId : string) : string :=
  groupJoinPrefix +:+ identity +:+ ":" +:+ groupId +:+ ":" +:+ fmt_019d timestamp +:+ ":" +:+ pinId.
Definition groupJoinKeyPrefix (identity groupId : string) : string :=
  groupJoinPrefix +:+ identity +:+ ":" +:+ groupId +:+ ":".
Definition groupChannelKey (groupId channelId : string) : string :=
  groupChannelPrefix +:+ groupId +:+ ":" +:+ channelId.
Definition groupChannelKeyPrefix (groupId : string) : string :=
  groupChannelPrefix +:+ groupId +:+ ":".

(** [extractTxId]: up to the last ["i"], when it is not the first character. *)
Definition extractTxId (pinId : string) : string :=
  match LastIndex pinId "i" with
  | Some idx => if (0 <? idx)%nat then stake idx pinId else pinId
  | None => pinId
  end.

(** ** Identities *)

Definition identityEqual (a b : string) : bool :=
  let a := TrimSpace a in
  let b := TrimSpace b in
  if is_empty a || is_empty b then false else String.eqb a b || EqualFold a b.

Definition groupMemberMatchesIdentity (identity : string) (member : GroupMember) : bool :=
  let identity := TrimSpace identity in
  if is_empty identity then false
  else identityEqual identity (gm_MetaId member) || identityEqual identity (gm_GlobalMetaId member)
       || identityEqual identity (gm_Address member).

(** [addIdentityAlias] and the closure [add] of [GroupMemberTargetIds]: the
    list built so far and the set of lower-cased ids seen. *)
Definition addIdentityAlias (st : list string * gset string) (value : string)
    : list string * gset string :=
  let value := TrimSpace value in
  if is_empty value then st else
  let key := ToLower value in
  if bool_decide (key ∈ st.2) then st else (st.1 ++ [value], {[key]} ∪ st.2).
Definition add_aliases (values : list string) (st : list string * gset string)
    : list string * gset string := foldl addIdentityAlias st values.

Definition groupMetaIdJoinItemAliases (item : GroupMetaIdJoinItem) : list string :=
  (add_aliases [ji_ByMetaId item; ji_ByGlobalMetaId item; ji_ByAddress item; ji_Address item]
     ([], ∅)).1.

(** ** Protocol values *)

(** The [float64] [m * 2^e] is the integer [n]. *)
Definition float_is (m e n : Z) : bool :=
  if 0 <=? e then m * 2 ^ e =? n else m =? n * 2 ^ (- e).
(** [int64(v)]: truncation; out of range it is the least [int64] on amd64. *)
Definition float_int64 (m e : Z) : Z :=
  let n := if 0 <=? e then m * 2 ^ e else Z.quot m (2 ^ (- e)) in
  if (- 2 ^ 63 <=? n) && (n <? 2 ^ 63) then n else - 2 ^ 63.

(** [fmt.Sprintf("%v", v)] of a value that is not a string or an integer. *)
Class FmtV := { fmt_v : any -> string }.

Definition protocolStringValue {F : FmtV} (value : any) : string :=
  match value with
  | ANil => ""
  | AStr v => v
  | AFloat m e => if float_is m e (float_int64 m e) then fmt_d (float_int64 m e) else fmt_v value
  | _ => fmt_v value
  end.
Fixpoint firstProtocolString {F : FmtV} (values : list any) : string :=
  match values with
  | [] => ""
  | value :: values =>
      let result := protocolStringValue value in
      if is_empty result then firstProtocolString values else result
  end.
Definition protocolInt64Value (value : any) (defaultValue : Z) : Z :=
  match value with
  | ANil => defaultValue
  | AFloat m e => float_int64 m e
  | AStr v => default defaultValue (Sscanf_d v)
  | _ => defaultValue
  end.

(** ** Pure list routines of db_chat.go *)

Definition filterMessagesByChannel (messages : list ChatMessage) (channelId : string) :=
  List.filter (fun msg => String.eqb (cm_ChannelId msg) channelId) messages.

Definition filterMessagesBeforeTimestamp (messages : list ChatMessage) (beforeTimestamp : Z) :=
  if beforeTimestamp <=? 0 then messages
  else List.filter (fun msg => cm_Timestamp msg <? beforeTimestamp) messages.

Definition paginateMessagesDesc (allMessages : list ChatMessage) (cursorStr : string) (size : Z)
    : ChatListResult :=
  let r := page_desc cm_Timestamp allMessages cursorStr size in
  mkChatList (pg_Total r) (pg_NextCursor r) (pg_NextTimestamp r) (pg_List r).

Definition index_less : ChatMessage -> ChatMessage -> bool :=
  on_key Z.ltb cm_Index (on_key Z.ltb cm_Timestamp (on_key str_lt cm_PinId tie)).

(** The loop of [sliceMessagesByIndex], with [messages] and [lastIndex] so far. *)
Fixpoint slice_loop (l : list ChatMessage) (startIndex size : Z) (messages : list ChatMessage)
    (lastIndex : Z) : list ChatMessage * Z :=
  match l with
  | [] => (messages, lastIndex)
  | msg :: l =>
      if cm_Index msg <? startIndex then slice_loop l startIndex size messages lastIndex else
      let messages := messages ++ [msg] in
      let lastIndex := if lastIndex <? cm_Index msg then cm_Index msg else lastIndex in
      if size <=? Z.of_nat (length messages) then (messages, lastIndex)
      else slice_loop l startIndex size messages lastIndex
  end.
Definition sliceMessagesByIndex (allMessages : list ChatMessage) (startIndex size : Z)
    : list ChatMessage * Z :=
  slice_loop (SliceStable index_less allMessages) startIndex size [] 0.

Definition latestMessageByTimestamp (messages : list ChatMessage) : option ChatMessage :=
  foldl (fun latest msg =>
      match latest with
      | None => Some msg
      | Some l =>
          if (cm_Timestamp l <? cm_Timestamp msg)
             || ((cm_Timestamp msg =? cm_Timestamp l) && str_gt (cm_PinId msg) (cm_PinId l))
          then Some msg else latest
      end) None messages.

Definition chat_less : ChatMessage -> ChatMessage -> bool :=
  on_key Z.ltb cm_Timestamp (on_key Z.ltb cm_Index (on_key str_lt cm_PinId tie)).
Definition sortChatMessagesAscending (messages : list ChatMessage) : list ChatMessage :=
  SliceStable chat_less messages.

(** [contains] and [searchSubstring]: [s[i:]] has [substr] as a prefix, up to
    the case of ASCII letters. *)
Definition lower_byte (c : ascii) : ascii :=
  let z := Z_of_ascii c in if (65 <=? z) && (z <=? 90) then ascii_of_Z (z + 32) else c.
Fixpoint match_at (s substr : string) : bool :=
  match substr, s with
  | "", _ => true
  | String c2 substr, String c1 s => Ascii.eqb (lower_byte c1) (lower_byte c2) && match_at s substr
  | _, _ => false
  end.
Fixpoint searchSubstring (s substr : string) : bool :=
  match_at s substr || match s with "" => false | String _ s => searchSubstring s substr end.
Definition contains (s substr : string) : bool :=
  (slen substr <=? slen s) && searchSubstring s substr.

(** [splitKey] with the one-character delimiter it is called with. *)
Fixpoint splitKey_loop (s : string) (delimiter : ascii) (part : string) : list string :=
  match s with
  | "" => [srev part]
  | String c s =>
      if Ascii.eqb c delimiter then srev part :: splitKey_loop s delimiter ""
      else splitKey_loop s delimiter (String c part)
  end.
Definition splitKey (s : string) (delimiter : ascii) : list string := splitKey_loop s delimiter "".

Definition channelSortTimestamp (channel : GroupChannel) : Z :=
  if 0 <? ch_ChannelNewestTimestamp channel then ch_ChannelNewestTimestamp channel
  else ch_Timestamp channel.

(** What [GetGroupChannelList] does to a channel entry for a newer message. *)
Definition channel_newest (ch : GroupChannel) (msg : ChatMessage) : GroupChannel :=
  let keep_s (a b : string) := if is_empty a then b else a in
  let keep_z (a b : Z) := if a =? 0 then b else a in
  mkChannel (ch_ChannelId ch) (ch_GroupId ch) (ch_TxId ch) (ch_PinId ch) (ch_ChannelName ch)
    (ch_ChannelIcon ch) (ch_ChannelNote ch) (ch_ChannelType ch)
    (cm_TxId msg) (cm_PinId msg) (cm_Protocol msg) (cm_Content msg) (cm_Timestamp msg)
    (cm_MetaId msg) (cm_GlobalMetaId msg)
    (keep_s (ch_CreateUserMetaId ch) (cm_MetaId msg))
    (keep_s (ch_CreateUserGlobalMetaId ch) (cm_GlobalMetaId msg))
    (keep_s (ch_CreateUserAddress ch) (cm_Address msg))
    (keep_z (ch_Timestamp ch) (cm_Timestamp msg))
    (keep_s (ch_Chain ch) (cm_Chain msg))
    (keep_z (ch_BlockHeight ch) (cm_BlockHeight msg))
    (cm_Index msg) (ch_Version ch).
(** The entry made for a channel that is only known from its messages. *)
Definition new_channel (groupId channelId : string) : GroupChannel :=
  mkChannel channelId groupId "" "" channelId "" "" 0 "" "" "" "" 0 "" "" "" "" "" 0 "" 0 0 "".
Definition channel_message (groupId : string) (byChannel : gmap string GroupChannel)
    (msg : ChatMessage) : gmap string GroupChannel :=
  if is_empty (cm_ChannelId msg) then byChannel else
  let ch := default (new_channel groupId (cm_ChannelId msg)) (byChannel !! cm_ChannelId msg) in
  let ch := if ch_ChannelNewestTimestamp ch <=? cm_Timestamp msg then channel_newest ch msg else ch in
  <[cm_ChannelId msg := ch]> byChannel.

(** ** Roles *)

(** The role fields of a member record, taken from the role record if any. *)
Definition resolve_role (role : option GroupMemberRole) (m : GroupMember) : GroupMember :=
  match role with
  | None => m
  | Some r => mkMember (gm_MetaId m) (gm_GlobalMetaId m) (gm_Address m) (gm_UserName m) (gm_Avatar m)
                (gr_IsCreator r) (gr_IsAdmin r) (gr_IsBlocked r) (gr_IsWhitelist r) (gr_IsRemoved r)
                (gm_Timestamp m)
  end.

(** ** User profiles of private sessions *)

Definition normalizePrivateUserInfo (info : any) : any :=
  match info with
  | AMap m =>
      let m := match obj_get "chatPublicKey" m, obj_get "chatpubkey" m with
               | None, Some v => obj_set "chatPublicKey" v m
               | _, _ => m
               end in
      let m := match obj_get "chatPublicKeyId" m, obj_get "chatpubkeyId" m with
               | None, Some v => obj_set "chatPublicKeyId" v m
               | _, _ => m
               end in
      AMap m
  | _ => info
  end.
Definition privateUserInfoHasChatPublicKey (info : any) : bool :=
  match info with
  | AMap m =>
      match obj_get "chatPublicKey" m with
      | Some (AStr value) => negb (is_empty (TrimSpace value))
      | _ => false
      end ||
      match obj_get "chatpubkey" m with
      | Some (AStr value) => negb (is_empty (TrimSpace value))
      | _ => false
      end
  | _ => false
  end.
Definition profileMatchesAnyAlias (profile : list (string * any)) (aliases : list string) : bool :=
  existsb (fun key => existsb (fun alias => identityEqual (obj_string key profile) alias) aliases)
    ["metaid"; "metaId"; "globalMetaId"; "address"].

(** The message is from [metaId] under one of its three identities. *)
Definition from_me (metaId : string) (msg : latestPrivateMessage) : bool :=
  String.eqb (lp_From msg) metaId || String.eqb (lp_FromGlobalMetaId msg) metaId
  || String.eqb (lp_FromAddress msg) metaId.
Definition to_me (metaId : string) (msg : latestPrivateMessage) : bool :=
  String.eqb (lp_To msg) metaId || String.eqb (lp_ToGlobalMetaId msg) metaId
  || String.eqb (lp_ToAddress msg) metaId.
Definition private_peer (metaId : string) (msg : latestPrivateMessage) : string :=
  if from_me metaId msg then lp_To msg else if to_me metaId msg then lp_From msg else "".
Definition latest_by_peer (metaId : string) (m : gmap string latestPrivateMessage)
    (msg : latestPrivateMessage) : gmap string latestPrivateMessage :=
  let peer := private_peer metaId msg in
  if is_empty peer then m else
  match m !! peer with
  | Some existing => if lp_Timestamp existing <? lp_Timestamp msg then <[peer := msg]> m else m
  | None => <[peer := msg]> m
  end.

Section GroupChat.
Context {St : Type} {KV : KVOps St} {GJ : GroupChatJSON} {F : FmtV} {MO : MapOrder}.

(** ** db_group.go *)

Definition SaveGroup (group : Group) : M St unit := save namespace (groupKey (g_GroupId group)) group.
Definition GetGroup (groupId : string) (s : St) : res (option Group) :=
  load namespace (groupKey groupId) s.
Definition SaveGroupMember (groupId metaId : string) (member : GroupMember) : M St unit :=
  save namespace (groupMemberKey groupId metaId) member.
Definition GetGroupMember (groupId metaId : string) (s : St) : res (option GroupMember) :=
  load namespace (groupMemberKey groupId metaId) s.
Definition SetGroupRole (groupId metaId : string) (role : GroupMemberRole) : M St unit :=
  save namespace (groupRoleKey groupId metaId) role.
(** A failed [Get] counts as absent; a record that does not parse is an error. *)
Definition getGroupMemberRole (groupId metaId : string) (s : St) : res (option GroupMemberRole) :=
  match kv_Get s namespace (groupRoleKey groupId metaId) with
  | Ok (Some raw) => role <-? json_Unmarshal raw ;; Ok (Some role)
  | _ => Ok None
  end.
Definition GetGroupUserRole := getGroupMemberRole.

(** [x, _ := f()]: the error is dropped, and [x] is nil with it. *)
Definition value_of {A} (r : res (option A)) : option A :=
  match r with Ok a => a | Err _ => None end.

Definition IsUserInGroup (groupId metaId : string) (s : St) : res bool :=
  member <-? GetGroupMember groupId metaId s ;;
  Ok (match member with Some m => negb (gm_IsRemoved m) | None => false end).

(** The scan callback of [GetGroupMemberList]: the members so far (in order),
    the last key, and [count]. *)
Definition member_list_step (s : St) (groupId seekKey : string) (size : Z)
    (st : list GroupMember * option string * Z) (e : string * string)
    : list GroupMember * option string * Z :=
  let '(members, lastKey, count) := st in
  if String.leb e.1 seekKey then st
  else if size <=? count then st
  else match json_Unmarshal e.2 with
       | Err _ => st
       | Ok member =>
           let role := value_of (getGroupMemberRole groupId (gm_MetaId member) s) in
           (members ++ [resolve_role role member], Some e.1, count + 1)
       end.
Definition member_cursor (prefix cursorStr : string) : string :=
  if has_cursor cursorStr then
    match b64_decode cursorStr with Some decoded => string_of_bytes decoded | None => prefix end
  else prefix.
Definition GetGroupMemberList (groupId cursorStr : string) (size : Z) (s : St)
    : res (list GroupMember * string) :=
  let prefix := groupMemberPrefix +:+ groupId +:+ ":" in
  let seekKey := member_cursor prefix cursorStr in
  es <-? kv_Scan s namespace prefix ;;
  let '(members, lastKey, count) :=
    foldl (member_list_step s groupId seekKey size) ([], None, 0) es in
  Ok (members, match lastKey with
               | Some k => if count =? size then b64_encode (bytes_of_string k) else ""
               | None => ""
               end).

(** [GetGroupList]: the groups of a user's memberships, in key order. *)
Definition member_entries (metaId : string) (es : list (string * string)) : list string :=
  omap (fun e =>
      match SplitN (sdrop (String.length groupMemberPrefix) e.1) ":" 2 with
      | [groupId; _] =>
          match json_Unmarshal e.2 with
          | Err _ => None
          | Ok m => if negb (groupMemberMatchesIdentity metaId m) then None
                    else if gm_IsRemoved m then None else Some groupId
          end
      | _ => None
      end) es.
(** [for i := cursorIdx; i < total && len(groups) < size; i++]; a negative
    cursor indexes out of range. *)
Fixpoint group_page (s : St) (ids : list string) (groups : list Group) (size : Z) : list Group :=
  match ids with
  | [] => groups
  | groupId :: ids =>
      if Z.of_nat (length groups) <? size then
        match GetGroup groupId s with
        | Ok (Some group) => group_page s ids (groups ++ [group]) size
        | _ => group_page s ids groups size
        end
      else groups
  end.
Definition GetGroupList (metaId cursorStr : string) (size : Z) (s : St)
    : res (list Group * string * Z) :=
  es <-? kv_Scan s namespace groupMemberPrefix ;;
  let memberEntries := member_entries metaId es in
  let total := Z.of_nat (length memberEntries) in
  let cursorIdx :=
    if has_cursor cursorStr then
      match b64_decode cursorStr with Some decoded => int64FromBytes decoded | None => 0 end
    else 0 in
  if (cursorIdx <? 0) && (0 <? size) then Err "panic: index out of range" else
  let groups := if total <=? cursorIdx then []
                else group_page s (drop (Z.to_nat cursorIdx) memberEntries) [] size in
  let nextCursor :=
    if wrap64 (cursorIdx + size) <? total
    then b64_encode (int64ToBytes (wrap64 (cursorIdx + size))) else "" in
  Ok (groups, nextCursor, total).

Definition SearchGroupMembers (groupId query : string) (size : Z) (s : St) : res (list GroupMember) :=
  let queryLower := ToLower query in
  es <-? kv_Scan s namespace (groupMemberPrefix +:+ groupId +:+ ":") ;;
  Ok (foldl (fun members e =>
      if size <=? Z.of_nat (length members) then members else
      match json_Unmarshal e.2 with
      | Err _ => members
      | Ok member =>
          if Contains (ToLower (gm_MetaId member)) queryLower
             || Contains (ToLower (gm_UserName member)) queryLower
          then members ++ [resolve_role
                 (value_of (getGroupMemberRole groupId (gm_MetaId member) s)) member]
          else members
      end) [] es).

Definition GroupMemberTargetIds (groupId : string) (s : St) : list string :=
  (foldl (fun st member =>
      if gm_IsRemoved member then st
      else add_aliases [gm_MetaId member; gm_GlobalMetaId member; gm_Address member] st)
    ([], ∅) (scan_json namespace (groupMemberPrefix +:+ groupId +:+ ":") s)).1.

Definition role_global_ids (groupId : string) (role : GroupMemberRole) (s : St) : list string :=
  match value_of (GetGroupMember groupId (gr_MetaId role) s) with
  | Some member => if is_empty (gm_GlobalMetaId member) then [] else [gm_GlobalMetaId member]
  | None => []
  end.
Definition GetGroupJoinControlList (groupId : string) (s : St) : GroupJoinControlList :=
  let roles := scan_json namespace (groupRolePrefix +:+ groupId +:+ ":") s in
  let blocked := List.filter gr_IsBlocked roles in
  let whitelist := List.filter gr_IsWhitelist roles in
  mkJoinControl groupId (map gr_MetaId blocked)
    (mjoin (map (fun r => role_global_ids groupId r s) blocked))
    (map gr_MetaId whitelist)
    (mjoin (map (fun r => role_global_ids groupId r s) whitelist)).

(** ** db_community.go *)

Definition SaveCommunity (community : Community) : M St unit :=
  save namespace (communityKey (c_CommunityId community)) community.
Definition GetCommunity (communityId : string) (s : St) : res (option Community) :=
  load namespace (communityKey communityId) s.
Definition community_step (skip pageSize : Z) (st : list Community * Z) (e : string * string)
    : list Community * Z :=
  let '(communities, count) := st in
  if count <? skip then (communities, count + 1)
  else if pageSize <=? Z.of_nat (length communities) then st
  else match json_Unmarshal e.2 with
       | Err _ => st
       | Ok c => (communities ++ [c], count + 1)
       end.
Definition ListCommunities (page pageSize : Z) (s : St) : res (list Community * Z) :=
  es <-? kv_Scan s namespace communityPrefix ;;
  let skip := wrap64 ((page - 1) * pageSize) in
  Ok ((foldl (community_step skip pageSize) ([], 0) es).1, Z.of_nat (length es)).

(** ** db_chat.go: reading messages *)

Definition collectGroupMessages (groupId : string) (s : St) : list ChatMessage :=
  scan_json namespace (chatKeyPrefix groupId) s.
Definition collectAllChatMessages (s : St) : list ChatMessage :=
  sortChatMessagesAscending (scan_json namespace chatPrefix s).
Definition collectGroupRootMessages (groupId : string) (s : St) : list ChatMessage :=
  List.filter (fun msg => is_empty (cm_ChannelId msg)) (collectGroupMessages groupId s).
Definition collectChannelMessages (groupId channelId : string) (s : St) : list ChatMessage :=
  let source := if is_empty groupId then collectAllChatMessages s
                else collectGroupMessages groupId s in
  filterMessagesByChannel source channelId.

Definition nextChatIndex (groupId channelId : string) (s : St) : Z :=
  let messages := if is_empty channelId then collectGroupRootMessages groupId s
                  else collectChannelMessages groupId channelId s in
  wrap64 (foldl (fun maxIndex msg => if maxIndex <? cm_Index msg then cm_Index msg else maxIndex)
            (-1) messages + 1).

Definition set_Index (i : Z) (m : ChatMessage) : ChatMessage :=
  mkChat (cm_TxId m) (cm_PinId m) (cm_GroupId m) (cm_ChannelId m) (cm_MetaId m) (cm_GlobalMetaId m)
    (cm_Address m) (cm_UserInfo m) (cm_NickName m) (cm_Protocol m) (cm_Content m) (cm_ContentType m)
    (cm_Encryption m) (cm_ChatType m) (cm_ReplyPin m) (cm_ReplyInfo m) (cm_ReplyMetaId m)
    (cm_ReplyGlobalMetaId m) (cm_Mention m) (cm_Timestamp m) (cm_Chain m) (cm_BlockHeight m) i.
(** The index is written to the caller's message, which is returned. *)
Definition SaveChatMessage (msg : ChatMessage) : M St ChatMessage :=
  fun s =>
    let msg := if cm_Index msg <? 0
               then set_Index (nextChatIndex (cm_GroupId msg) (cm_ChannelId msg) s) msg else msg in
    hbind (save namespace (chatKey (cm_GroupId msg) (cm_Timestamp msg) (cm_TxId msg)) msg)
      (fun _ => hret msg) s.

Definition GetChatListV2BeforeTimestamp (groupId cursorStr : string) (size beforeTimestamp : Z)
    (s : St) : ChatListResult :=
  paginateMessagesDesc
    (filterMessagesBeforeTimestamp (collectGroupRootMessages groupId s) beforeTimestamp)
    cursorStr size.
Definition GetChatListV2 (groupId cursorStr : string) (size : Z) (s : St) : ChatListResult :=
  GetChatListV2BeforeTimestamp groupId cursorStr size 0 s.
Definition GetChatListByIndex (groupId : string) (startIndex size : Z) (s : St) : ChatListResult :=
  let '(messages, lastIndex) :=
    sliceMessagesByIndex (collectGroupRootMessages groupId s) startIndex size in
  mkChatList (Z.of_nat (length messages)) "" lastIndex messages.
Definition GetChatListByIndexCompat (groupId : string) (startIndex size : Z) (s : St)
    : ChatListByIndexResult :=
  let '(messages, lastIndex) :=
    sliceMessagesByIndex (collectGroupRootMessages groupId s) startIndex size in
  mkChatListByIndex (Z.of_nat (length messages)) lastIndex lastIndex messages.
Definition GetChannelChatListV3 (groupId channelId cursorStr : string) (size beforeTimestamp : Z)
    (s : St) : ChatListResult :=
  paginateMessagesDesc
    (filterMessagesBeforeTimestamp (collectChannelMessages groupId channelId s) beforeTimestamp)
    cursorStr size.
Definition GetChannelChatListByIndex (groupId channelId : string) (startIndex size : Z) (s : St)
    : ChatListByIndexResult :=
  let '(messages, lastIndex) :=
    sliceMessagesByIndex (collectChannelMessages groupId channelId s) startIndex size in
  mkChatListByIndex (Z.of_nat (length messages)) lastIndex lastIndex messages.

(** The first message with the pin id, in key order. *)
Definition GetReplyInfo (pinId : string) (s : St) : option ChatMessage :=
  find (fun msg => String.eqb (cm_PinId msg) pinId) (scan_json namespace chatPrefix s).
Definition GetChatMessage (groupId : string) (timestamp : Z) (txId : string) (s : St)
    : res (option ChatMessage) :=
  load namespace (chatKey groupId timestamp txId) s.

(** ** db_idchat_compat.go: joins and channels *)

Fixpoint save_aliases (identities : list string) (groupId : string) (item : GroupMetaIdJoinItem)
    : M St unit :=
  match identities with
  | [] => hret tt
  | identity :: rest =>
      hbind (save namespace (groupJoinKey identity groupId (ji_JoinTimestamp item)
               (ji_JoinPinId item)) item)
        (fun _ => save_aliases rest groupId item)
  end.
Definition SaveGroupMetaIdJoinItem (groupId : string) (item : GroupMetaIdJoinItem) : M St unit :=
  if is_empty groupId then hret tt
  else save_aliases (groupMetaIdJoinItemAliases item) groupId item.

Definition groupIdentityAliases (groupId identity : string) (s : St) : list string :=
  let st := add_aliases [identity] ([], ∅) in
  if is_empty groupId then st.1 else
  (foldl (fun st member =>
      if groupMemberMatchesIdentity identity member
      then add_aliases [gm_MetaId member; gm_GlobalMetaId member; gm_Address member] st else st)
    st (scan_json namespace (groupMemberPrefix +:+ groupId +:+ ":") s)).1.

Definition join_seen_key (item : GroupMetaIdJoinItem) : string :=
  ji_JoinPinId item +:+ ":" +:+ ji_JoinType item +:+ ":" +:+ fmt_d (ji_JoinTimestamp item).
Definition join_step (st : list GroupMetaIdJoinItem * gset string) (item : GroupMetaIdJoinItem)
    : list GroupMetaIdJoinItem * gset string :=
  if bool_decide (join_seen_key item ∈ st.2) then st
  else (st.1 ++ [item], {[join_seen_key item]} ∪ st.2).
Fixpoint collect_joins (identities : list string) (groupId : string) (s : St)
    (st : list GroupMetaIdJoinItem * gset string)
    : res (list GroupMetaIdJoinItem * gset string) :=
  match identities with
  | [] => Ok st
  | identity :: rest =>
      items <-? scan_json_err namespace (groupJoinKeyPrefix identity groupId) s ;;
      collect_joins rest groupId s (foldl join_step st items)
  end.
Definition join_less : GroupMetaIdJoinItem -> GroupMetaIdJoinItem -> bool :=
  on_key Z.ltb ji_JoinTimestamp (on_key str_lt ji_JoinPinId tie).
Definition collectGroupMetaIdJoinItems (groupId metaId : string) (s : St)
    : res (list GroupMetaIdJoinItem) :=
  st <-? collect_joins (groupIdentityAliases groupId metaId s) groupId s ([], ∅) ;;
  Ok (SliceStable join_less st.1).
(** [GetGroupMetaIdJoinList]: the items as JSON objects. *)
Definition join_object (item : GroupMetaIdJoinItem) : list (string * any) :=
  [("joinPinId", AStr (ji_JoinPinId item)); ("joinType", AStr (ji_JoinType item));
   ("joinTimestamp", AFloat (ji_JoinTimestamp item) 0);
   ("groupState", AFloat (ji_GroupState item) 0); ("address", AStr (ji_Address item));
   ("referrer", AStr (ji_Referrer item)); ("k", AStr (ji_K item));
   ("blockHeight", AFloat (ji_BlockHeight item) 0); ("chain", AStr (ji_Chain item));
   ("byGlobalMetaId", AStr (ji_ByGlobalMetaId item)); ("byMetaId", AStr (ji_ByMetaId item));
   ("byAddress", AStr (ji_ByAddress item))].
Definition GetGroupMetaIdJoinList (groupId metaId : string) (s : St)
    : res (list (list (string * any))) :=
  items <-? collectGroupMetaIdJoinItems groupId metaId s ;; Ok (map join_object items).

Definition SaveGroupChannel (channel : GroupChannel) : M St unit :=
  if is_empty (ch_GroupId channel) || is_empty (ch_ChannelId channel) then hret tt
  else save namespace (groupChannelKey (ch_GroupId channel) (ch_ChannelId channel)) channel.
Definition getStoredGroupChannels (groupId : string) (s : St) : res (list GroupChannel) :=
  channels <-? scan_json_err namespace (groupChannelKeyPrefix groupId) s ;;
  Ok (List.filter (fun channel => negb (is_empty (ch_ChannelId channel))) channels).

Definition channels_of (groupId : string) (stored : list GroupChannel) (messages : list ChatMessage)
    : gmap string GroupChannel :=
  foldl (channel_message groupId)
    (foldl (fun m ch => <[ch_ChannelId ch := ch]> m) ∅ stored) messages.
Definition GetGroupChannelList (groupId : string) (s : St) : res (list GroupChannel) :=
  stored <-? getStoredGroupChannels groupId s ;;
  let byChannel := channels_of groupId stored (collectGroupMessages groupId s) in
  Ok (SliceStable (on_key Z_gt channelSortTimestamp tie) (map_range byChannel).*2).

(** ** Sessions and search *)

Definition room_info (groupId : string) (group : Group) (latest : option ChatMessage)
    : UserLatestChatInfo :=
  match latest with
  | None =>
      mkLatest "1" "" groupId "" "" (g_CreatedAt group) "" "" (g_CreatorMetaId group)
        (g_CreatorGlobalMetaId group) (g_Creator group) "" "" (g_BlockHeight group) (g_Chain group)
        0 ANil (g_GroupName group) (g_JoinType group) (g_Avatar group) ANil (g_MemberCount group)
        "" ANil
  | Some l =>
      mkLatest "1" (cm_GlobalMetaId l) groupId (cm_MetaId l) (cm_Address l) (cm_Timestamp l)
        (cm_ChatType l) (cm_Content l) (g_CreatorMetaId group) (g_CreatorGlobalMetaId group)
        (g_Creator group) (cm_PinId l) "" (cm_BlockHeight l) (cm_Chain l) (cm_Index l) ANil
        (g_GroupName group) (g_JoinType group) (g_Avatar group) ANil (g_MemberCount group)
        (cm_Protocol l) (any_of_ChatMessage l)
  end.

Definition lookupPrivateUserInfo (aliases : list string) (s : St) : any :=
  let wanted := (add_aliases aliases ([], ∅)).1 in
  if Nat.eqb (length wanted) 0 then ANil else
  let stored := omap (fun alias => match load "userinfo" ("profile:" +:+ alias) s with
                                   | Ok (Some profile) => Some profile | _ => None end) wanted in
  match stored with
  | profile :: _ => normalizePrivateUserInfo (AMap profile)
  | [] =>
      match find (fun profile => profileMatchesAnyAlias profile wanted)
              (scan_json "userinfo" "profile:" s) with
      | Some profile => normalizePrivateUserInfo (AMap profile)
      | None => ANil
      end
  end.

Definition private_info (metaId : string) (s : St) (e : string * latestPrivateMessage)
    : UserLatestChatInfo :=
  let '(peer, msg) := e in
  let '(peerGlobalMetaId, peerAddress, userInfo) :=
    if from_me metaId msg then (lp_ToGlobalMetaId msg, lp_ToAddress msg, lp_ToUserInfo msg)
    else (lp_FromGlobalMetaId msg, lp_FromAddress msg, lp_FromUserInfo msg) in
  let userInfo := normalizePrivateUserInfo userInfo in
  let userInfo :=
    if privateUserInfoHasChatPublicKey userInfo then userInfo else
    match lookupPrivateUserInfo [peer; peerGlobalMetaId; peerAddress] s with
    | ANil => userInfo
    | hydrated => hydrated
    end in
  mkLatest "2" peerGlobalMetaId "" peer peerAddress (lp_Timestamp msg) "msg" (lp_Content msg) "" ""
    "" (lp_PinId msg) "" (lp_BlockHeight msg) (lp_Chain msg) (lp_Index msg) userInfo "" "" "" ANil 0
    (lp_Protocol msg) (any_of_latestPrivate msg).
Definition getPrivateLatestChatInfoList (metaId : string) (s : St) : list UserLatestChatInfo :=
  let latestByPeer := foldl (latest_by_peer metaId) ∅ (scan_json "privatechat" "pchat:" s) in
  map (private_info metaId s) (map_range latestByPeer).

Definition member_room (metaId : string) (s : St) (e : string * string) : option UserLatestChatInfo :=
  match splitKey (sdrop (String.length groupMemberPrefix) e.1) ":" with
  | [groupId; _] =>
      match json_Unmarshal e.2 with
      | Err _ => None
      | Ok m =>
          if negb (groupMemberMatchesIdentity metaId m) then None
          else if gm_IsRemoved m then None
          else match GetGroup groupId s with
               | Ok (Some group) =>
                   Some (room_info groupId group
                           (latestMessageByTimestamp (collectGroupRootMessages groupId s)))
               | _ => None
               end
      end
  | _ => None
  end.
Definition GetUserLatestChatInfoList (metaId : string) (s : St) : list UserLatestChatInfo :=
  SliceStable (on_key Z_gt ul_Timestamp tie)
    (omap (member_room metaId s) (scan namespace groupMemberPrefix s)
     ++ getPrivateLatestChatInfoList metaId s).

Definition SearchUsers (query : string) (size : Z) (s : St) : list (list (string * any)) :=
  foldl (fun results profile =>
      if size <=? Z.of_nat (length results) then results else
      let metaId := obj_string "metaid" profile in
      let name := obj_string "name" profile in
      if is_empty metaId && is_empty name then results
      else if contains metaId query || contains name query then results ++ [profile]
      else results)
    [] (scan_json "userinfo" "profile:" s).

Definition group_result (group : Group) : list (string * any) :=
  [("type", AStr "group"); ("groupId", AStr (g_GroupId group)); ("groupName", AStr (g_GroupName group));
   ("roomName", AStr (g_GroupName group)); ("avatar", AStr (g_Avatar group));
   ("roomAvatarUrl", AStr (g_Avatar group)); ("userCount", AFloat (g_MemberCount group) 0);
   ("joinType", AStr (g_JoinType group)); ("roomJoinType", AStr (g_JoinType group))].
Definition SearchGroupsAndUsers (query : string) (size : Z) (s : St) : list (list (string * any)) :=
  let size := if size <? 1 then 20 else size in
  let results := foldl (fun results group =>
      if size <=? Z.of_nat (length results) then results
      else if contains (g_GroupId group) query || contains (g_GroupName group) query
      then results ++ [group_result group] else results)
    [] (scan_json namespace (groupKey "") s) in
  if Z.of_nat (length results) <? size then
    results ++ map (obj_set "type" (AStr "user"))
      (take (Z.to_nat (size - Z.of_nat (length results)))
         (SearchUsers query (size - Z.of_nat (length results)) s))
  else results.

Definition groupCompatDTO (group : Group) (s : St) : list (string * any) :=
  let txId := g_TxId group in
  let txId := if is_empty txId && negb (is_empty (g_PinId group)) then extractTxId (g_PinId group)
              else txId in
  let txId := if is_empty txId then extractTxId (g_GroupId group) else txId in
  let pinId := if is_empty (g_PinId group) then g_GroupId group else g_PinId group in
  let roomJoinType := if is_empty (g_JoinType group) then g_GroupType group else g_JoinType group in
  [("communityId", AStr (g_CommunityId group)); ("groupId", AStr (g_GroupId group));
   ("groupName", AStr (g_GroupName group)); ("groupNote", AStr (g_GroupNote group));
   ("groupType", AStr (g_GroupType group)); ("status", AStr (g_Status group));
   ("avatar", AStr (g_Avatar group)); ("creator", AStr (g_Creator group));
   ("creatorMetaId", AStr (g_CreatorMetaId group));
   ("creatorGlobalMetaId", AStr (g_CreatorGlobalMetaId group));
   ("memberCount", AFloat (g_MemberCount group) 0); ("joinType", AStr (g_JoinType group));
   ("createdAt", AFloat (g_CreatedAt group) 0); ("chain", AStr (g_Chain group));
   ("blockHeight", AFloat (g_BlockHeight group) 0); ("txId", AStr txId); ("pinId", AStr pinId);
   ("roomName", AStr (g_GroupName group)); ("roomNote", AStr (g_GroupNote group));
   ("roomIcon", AStr (g_Avatar group)); ("roomAvatarUrl", AStr (g_Avatar group));
   ("roomType", AStr (g_GroupType group)); ("roomStatus", AStr (g_Status group));
   ("roomJoinType", AStr roomJoinType); ("createUserMetaId", AStr (g_CreatorMetaId group));
   ("createUserGlobalMetaId", AStr (g_CreatorGlobalMetaId group));
   ("createUserAddress", AStr (g_Creator group)); ("userCount", AFloat (g_MemberCount group) 0);
   ("timestamp", AFloat (g_CreatedAt group) 0)] ++
  match latestMessageByTimestamp (collectGroupRootMessages (g_GroupId group) s) with
  | None => []
  | Some latest =>
      [("roomNewestTxId", AStr (cm_TxId latest)); ("roomNewestPinId", AStr (cm_PinId latest));
       ("roomNewestProtocol", AStr (cm_Protocol latest));
       ("roomNewestContent", AStr (cm_Content latest));
       ("roomNewestTimestamp", AFloat (cm_Timestamp latest) 0);
       ("roomNewestMetaId", AStr (cm_MetaId latest));
       ("roomNewestGlobalMetaId", AStr (cm_GlobalMetaId latest));
       ("index", AFloat (cm_Index latest) 0); ("lastMessage", any_of_ChatMessage latest)]
  end.
Definition groupCompatDTOs (groups : list Group) (s : St) : list (list (string * any)) :=
  map (fun group => groupCompatDTO group s) groups.

(** ** process.go: the pin handlers *)

Local Open Scope handler_scope.

(** [metaId := pin.CreateMetaId; if metaId == "" { metaId = pin.MetaId }] *)
Definition pin_author (pin : PinInscription) : string :=
  if is_empty (pin_CreateMetaId pin) then pin_MetaId pin else pin_CreateMetaId pin.

Definition handleCommunityCreate (pin : PinInscription) : M St (option NotifyEvent) :=
  match json_Unmarshal (pin_ContentBody pin) with
  | Err _ => hret None
  | Ok sc =>
      SaveCommunity (mkCommunity (pin_Id pin) (sc_Name sc) (sc_Description sc) (sc_Cover sc)
        (sc_Icon sc) (pin_CreateAddress pin) (pin_author pin) 1 (pin_Timestamp pin)
        (pin_ChainName pin) (pin_GenesisHeight pin)) ;;;
      hret None
  end.

Definition handleGroupCreate (pin : PinInscription) : M St (option NotifyEvent) :=
  match json_Unmarshal (pin_ContentBody pin) with
  | Err _ => hret None
  | Ok sgc =>
      let groupId := if is_empty (sgc_GroupId sgc) then pin_Id pin else sgc_GroupId sgc in
      let metaId := pin_author pin in
      SaveGroup (mkGroup groupId (extractTxId (pin_Id pin)) (pin_Id pin) (sgc_GroupName sgc)
        (sgc_GroupNote sgc) (firstProtocolString [AStr (sgc_GroupType sgc); sgc_Type sgc])
        (sgc_Status sgc) (sgc_GroupIcon sgc) (pin_CreateAddress pin) metaId (pin_GlobalMetaId pin) 1
        (sgc_CommunityId sgc) (firstProtocolString [sgc_JoinType sgc; sgc_Type sgc])
        (pin_Timestamp pin) (pin_ChainName pin) (pin_GenesisHeight pin)) ;;;
      SaveGroupMember groupId metaId (mkMember metaId (pin_GlobalMetaId pin) (pin_CreateAddress pin)
        "" "" true true false false false (pin_Timestamp pin)) ;;;
      SetGroupRole groupId metaId (mkRole metaId groupId true true false false false
        (pin_Timestamp pin) (pin_GenesisHeight pin)) ;;;
      SaveGroupMetaIdJoinItem groupId (mkJoinItem (pin_Id pin) "create" (pin_Timestamp pin) 1
        (pin_CreateAddress pin) "" "" (pin_GenesisHeight pin) (pin_ChainName pin)
        (pin_GlobalMetaId pin) metaId (pin_CreateAddress pin)) ;;;
      hret None
  end.

Definition handleGroupChannel (pin : PinInscription) : M St (option NotifyEvent) :=
  match json_Unmarshal (pin_ContentBody pin) with
  | Err _ => hret None
  | Ok sgc =>
      let groupId := sch_GroupId sgc in
      if is_empty groupId then hret None else
      let channelId := if is_empty (sch_ChannelId sgc) then pin_Id pin else sch_ChannelId sgc in
      let name := if is_empty (sch_ChannelName sgc) then channelId else sch_ChannelName sgc in
      SaveGroupChannel (mkChannel channelId groupId (extractTxId (pin_Id pin)) (pin_Id pin) name
        (sch_ChannelIcon sgc) (sch_ChannelNote sgc) (protocolInt64Value (sch_ChannelType sgc) 0)
        "" "" "" "" 0 "" "" (pin_author pin) (pin_GlobalMetaId pin) (pin_CreateAddress pin)
        (pin_Timestamp pin) (pin_ChainName pin) (pin_GenesisHeight pin) (-1) "") ;;;
      hret None
  end.

Definition role_or_new (groupId metaId : string) (s : St) : GroupMemberRole :=
  default (mkRole metaId groupId false false false false false 0 0)
    (value_of (getGroupMemberRole groupId metaId s)).
Definition role_event (metaId groupId : string) (payload : list (string * any)) : NotifyEvent :=
  mkEvent "WS_SERVER_NOTIFY_GROUP_ROLE" metaId "" [] groupId
    (AMap ([("metaId", AStr metaId); ("groupId", AStr groupId)] ++ payload)).

Definition set_admin (pin : PinInscription) (groupId : string) (lastEvent : option NotifyEvent)
    (adminMetaId : string) : M St (option NotifyEvent) :=
  r <- hget (role_or_new groupId adminMetaId) ;;
  let role := mkRole (gr_MetaId r) (gr_GroupId r) (gr_IsCreator r) true (gr_IsBlocked r)
                (gr_IsWhitelist r) (gr_IsRemoved r) (pin_Timestamp pin) (pin_GenesisHeight pin) in
  ok <- htry (SetGroupRole groupId adminMetaId role) ;;
  if negb ok then hret lastEvent else
  member <- hget (fun s => value_of (GetGroupMember groupId adminMetaId s)) ;;
  match member with
  | None => hret true
  | Some m =>
      htry (SaveGroupMember groupId adminMetaId (mkMember (gm_MetaId m) (gm_GlobalMetaId m)
        (gm_Address m) (gm_UserName m) (gm_Avatar m) (gm_IsCreator m) true (gm_IsBlocked m)
        (gm_IsWhitelist m) (gm_IsRemoved m) (pin_Timestamp pin)))
  end ;;;
  hret (Some (role_event adminMetaId groupId
                [("isAdmin", ABool true); ("isCreator", ABool (gr_IsCreator role))])).
Definition handleGroupAdmin (pin : PinInscription) : M St (option NotifyEvent) :=
  match json_Unmarshal (pin_ContentBody pin) with
  | Err _ => hret None
  | Ok sga =>
      if is_empty (sga_GroupId sga) then hret None
      else hfold (set_admin pin (sga_GroupId sga)) (sga_Admins sga) None
  end.

Definition set_blocked (pin : PinInscription) (groupId : string) (lastEvent : option NotifyEvent)
    (blockedMetaId : string) : M St (option NotifyEvent) :=
  r <- hget (role_or_new groupId blockedMetaId) ;;
  let role := mkRole (gr_MetaId r) (gr_GroupId r) (gr_IsCreator r) (gr_IsAdmin r) true
                (gr_IsWhitelist r) (gr_IsRemoved r) (pin_Timestamp pin) (pin_GenesisHeight pin) in
  ok <- htry (SetGroupRole groupId blockedMetaId role) ;;
  if negb ok then hret lastEvent
  else hret (Some (role_event blockedMetaId groupId [("isBlocked", ABool true)])).
Definition handleGroupBlock (pin : PinInscription) : M St (option NotifyEvent) :=
  match json_Unmarshal (pin_ContentBody pin) with
  | Err _ => hret None
  | Ok sgb =>
      if is_empty (sgb_GroupId sgb) then hret None
      else hfold (set_blocked pin (sgb_GroupId sgb)) (sgb_Users sgb) None
  end.

Definition chat_message (pin : PinInscription) (sgc : SimpleGroupChat) (replyInfo : option ChatMessage)
    : ChatMessage :=
  mkChat (extractTxId (pin_Id pin)) (pin_Id pin) (sgt_GroupId sgc) (sgt_ChannelId sgc)
    (pin_author pin) (pin_GlobalMetaId pin) (pin_CreateAddress pin) ANil "" (pin_Path pin)
    (sgt_Content sgc) (sgt_ContentType sgc) (sgt_Encryption sgc)
    (if String.eqb (sgt_ContentType sgc) "file" then "file" else "msg") (sgt_ReplyPin sgc)
    (match replyInfo with Some r => any_of_ChatMessage r | None => ANil end)
    (match replyInfo with Some r => cm_MetaId r | None => pin_MetaId pin end)
    (match replyInfo with Some r => cm_GlobalMetaId r | None => pin_GlobalMetaId pin end)
    (sgt_Mention sgc) (pin_Timestamp pin) (pin_ChainName pin) (pin_GenesisHeight pin) (-1).
Definition handleGroupChat (pin : PinInscription) : M St (option NotifyEvent) :=
  match json_Unmarshal (pin_ContentBody pin) with
  | Err _ => hret None
  | Ok sgc =>
      let groupId := sgt_GroupId sgc in
      if is_empty groupId then hret None else
      let metaId := pin_author pin in
      isMember <- hget (fun s => match IsUserInGroup groupId metaId s with
                                 | Ok b => b | Err _ => false end) ;;
      (if negb isMember then
         htry (SaveGroupMember groupId metaId (mkMember metaId (pin_GlobalMetaId pin)
           (pin_CreateAddress pin) "" "" false false false false false (pin_Timestamp pin)))
       else hret true) ;;;
      replyInfo <- hget (fun s => if is_empty (sgt_ReplyPin sgc) then None
                                  else GetReplyInfo (sgt_ReplyPin sgc) s) ;;
      msg <- SaveChatMessage (chat_message pin sgc replyInfo) ;;
      targets <- hget (GroupMemberTargetIds groupId) ;;
      hret (Some (mkEvent "WS_SERVER_NOTIFY_GROUP_CHAT" "" "" targets groupId
                    (any_of_ChatMessage msg)))
  end.

(** The group's counter moves by [d]; a failed save is not looked at. *)
Definition set_MemberCount (n : Z) (g : Group) : Group :=
  mkGroup (g_GroupId g) (g_TxId g) (g_PinId g) (g_GroupName g) (g_GroupNote g) (g_GroupType g)
    (g_Status g) (g_Avatar g) (g_Creator g) (g_CreatorMetaId g) (g_CreatorGlobalMetaId g) n
    (g_CommunityId g) (g_JoinType g) (g_CreatedAt g) (g_Chain g) (g_BlockHeight g).

Definition join_item (pin : PinInscription) (sgj : SimpleGroupJoin) (joined : bool)
    : GroupMetaIdJoinItem :=
  mkJoinItem (pin_Id pin) (if joined then "join" else "leave") (pin_Timestamp pin)
    (if joined then 1 else -1) (pin_CreateAddress pin) (sgj_Referrer sgj) (sgj_K sgj)
    (pin_GenesisHeight pin) (pin_ChainName pin) (pin_GlobalMetaId pin) (pin_author pin)
    (pin_CreateAddress pin).
(** [joinState == 1], where a state that is not a number counts as 1. *)
Definition is_join (sgj : SimpleGroupJoin) : bool :=
  match sgj_State sgj with AFloat m e => float_is m e 1 | _ => true end.

Definition handleGroupJoin (pin : PinInscription) : M St (option NotifyEvent) :=
  match json_Unmarshal (pin_ContentBody pin) with
  | Err _ => hret None
  | Ok sgj =>
      let groupId := sgj_GroupId sgj in
      if is_empty groupId then hret None else
      let metaId := pin_author pin in
      SaveGroupMetaIdJoinItem groupId (join_item pin sgj (is_join sgj)) ;;;
      if is_join sgj then
        SaveGroupMember groupId metaId (mkMember metaId (pin_GlobalMetaId pin)
          (pin_CreateAddress pin) "" "" false false false false false (pin_Timestamp pin)) ;;;
        group <- hget (fun s => value_of (GetGroup groupId s)) ;;
        match group with
        | Some g => htry (SaveGroup (set_MemberCount (wrap64 (g_MemberCount g + 1)) g))
        | None => hret true
        end ;;;
        hret (Some (role_event metaId groupId []))
      else
        member <- hget (fun s => value_of (GetGroupMember groupId metaId s)) ;;
        match member with
        | Some m =>
            SaveGroupMember groupId metaId (mkMember (gm_MetaId m) (gm_GlobalMetaId m)
              (gm_Address m) (gm_UserName m) (gm_Avatar m) (gm_IsCreator m) (gm_IsAdmin m)
              (gm_IsBlocked m) (gm_IsWhitelist m) true (pin_Timestamp pin))
        | None => hret tt
        end ;;;
        group <- hget (fun s => value_of (GetGroup groupId s)) ;;
        match group with
        | Some g => if 0 <? g_MemberCount g
                    then htry (SaveGroup (set_MemberCount (g_MemberCount g - 1) g)) else hret true
        | None => hret true
        end ;;;
        hret (Some (role_event metaId groupId [("isRemoved", ABool true)]))
  end.

Definition dispatchPin (pin : PinInscription) : M St (option NotifyEvent) :=
  if is_empty (pin_Path pin) then hret None else
  let pathLower := ToLower (TrimChar "/" (pin_Path pin)) in
  if HasSuffix pathLower "simplecommunity" then handleCommunityCreate pin
  else if HasSuffix pathLower "simplegroupcreate" then handleGroupCreate pin
  else if HasSuffix pathLower "simplegroupchannel" then handleGroupChannel pin
  else if HasSuffix pathLower "simplegroupadmin" then handleGroupAdmin pin
  else if HasSuffix pathLower "simplegroupblock" then handleGroupBlock pin
  else if HasSuffix pathLower "simplegroupchat" then handleGroupChat pin
  else if HasSuffix pathLower "simplegroupjoin" then handleGroupJoin pin
  else hret None.

(** ** module.go and notify.go *)

(** The store and the buffered channel [notifyCh] of capacity 256. *)
Record Module := mkModule { md_store : St; md_notifyCh : list NotifyEvent }.

(** [select { case ch <- event: ... default: drop }] *)
Definition sendNotifyEvent (event : NotifyEvent) (m : Module) : bool * Module :=
  if (length (md_notifyCh m) <? 256)%nat
  then (true, mkModule (md_store m) (md_notifyCh m ++ [event]))
  else (false, m).
Definition HandleBlockPin (pin : PinInscription) (m : Module)
    : res (option NotifyEvent) * Module :=
  let '(r, s) := dispatchPin pin (md_store m) in
  let m := mkModule s (md_notifyCh m) in
  match r with
  | Err e => (Err e, m)
  | Ok None => (Ok None, m)
  | Ok (Some event) => (Ok (Some event), (sendNotifyEvent event m).2)
  end.
Definition HandleMempoolPin (pin : PinInscription) (m : Module)
    : res (option NotifyEvent) * Module :=
  let '(r, s) := dispatchPin pin (md_store m) in
  let m := mkModule s (md_notifyCh m) in
  match r with
  | Err e => (Err e, m)
  | Ok None => (Ok None, m)
  | Ok (Some event) => (Ok (Some event), (sendNotifyEvent event m).2)
  end.
End GroupChat.
