(* ===== verification/GroupChatFacts.v ===== *)
(** * GroupChatFacts: what the group chat aggregator guarantees

    Cursors and pagination, the order of messages, the records every handler
    leaves behind, message indices, membership and notification targets. *)

From S2P Require Import Prelude GoText Json Storage Aggregator Bits Paging GroupChat.

(** ** Pagination *)

(** A client that follows the cursors from [cursor] until none is returned. *)
Definition walk (fuel : nat) (all : list ChatMessage) (cursor : string) (size : Z)
    : option (list ChatMessage) :=
  Paging.walk (fun c => let r := paginateMessagesDesc all c size in (cl_List r, cl_NextCursor r))
    fuel cursor.

Definition sample_message (n : Z) : ChatMessage :=
  mkChat "" (fmt_d n) "g" "" "" "" "" ANil "" "" "" "" "" "" "" ANil "" "" [] n "" 0 n.

(** Following the cursors of [paginateMessagesDesc] from the start
    terminates (after at most one page per message) and returns every message
    exactly once, newest first, whatever the page size; the base64 cursor
    survives its round trip through the client. *)
Theorem paginate_walk_complete all size :
  0 < size < 2 ^ 62 -> Z.of_nat (length all) < 2 ^ 62 ->
  walk (S (length all)) all "" size = Some (reverse all).
Proof. intros. by apply (walk_complete cm_Timestamp). Qed.

Lemma paginate_walk_complete_witness :
  let all := map sample_message [1; 2; 3; 4; 5] in
  walk 6 all "" 2 = Some (reverse all).
Proof. apply (paginate_walk_complete (map sample_message [1; 2; 3; 4; 5]) 2); vm_compute; done. Defined.

(** ** What the handlers store *)

Section Entries.
Context {GJ : GroupChatJSON}.

(** What a pin says.  The handler is chosen by the end of the path, and the group and the
    users are in the body. *)
Definition says {A} {J : JSON A} (kind : string) (pin : PinInscription) (body : A) : Prop :=
  HasSuffix (ToLower (TrimChar "/" (pin_Path pin))) kind = true /\ json_Unmarshal (pin_ContentBody pin) = Ok body.
Definition created_group (pin : PinInscription) (b : SimpleGroupCreate) : string :=
  if is_empty (sgc_GroupId b) then pin_Id pin else sgc_GroupId b.
(** The pin makes its author a member of the group; its author leaves the group. *)
Inductive enters (pin : PinInscription) : string -> Prop :=
  | enters_create b : says "simplegroupcreate" pin b -> enters pin (created_group pin b)
  | enters_join b : says "simplegroupjoin" pin b -> is_join b = true -> enters pin (sgj_GroupId b)
  | enters_chat b : says "simplegroupchat" pin b -> enters pin (sgt_GroupId b).
Inductive leaves (pin : PinInscription) : string -> Prop :=
  | leaves_join b : says "simplegroupjoin" pin b -> is_join b = false -> leaves pin (sgj_GroupId b).
(** The pin is an entry of the join history of the group. *)
Inductive recorded (pin : PinInscription) : string -> Prop :=
  | recorded_create b : says "simplegroupcreate" pin b -> recorded pin (created_group pin b)
  | recorded_join b : says "simplegroupjoin" pin b -> recorded pin (sgj_GroupId b).
(** The pin makes a user an admin of a group, or blocks the user there. *)
Inductive appoints (pin : PinInscription) : string -> string -> Prop :=
  | appoints_creator b : says "simplegroupcreate" pin b -> appoints pin (created_group pin b) (pin_author pin)
  | appoints_admin b u : says "simplegroupadmin" pin b -> u ∈ sga_Admins b -> appoints pin (sga_GroupId b) u.
Inductive blocks (pin : PinInscription) : string -> string -> Prop :=
  | blocks_user b u : says "simplegroupblock" pin b -> u ∈ sgb_Users b -> blocks pin (sgb_GroupId b) u.

(** The member record under [k], after the pins [ps]: its user is the author of one of
    them that entered the group of the key; it is an admin, or gone, only when a pin about
    that key made it so. *)
Record member_rec (ps : list PinInscription) (k : string) (m : GroupMember) : Prop := {
  mr_by : exists pin g, pin ∈ ps /\ enters pin g /\ k = groupMemberKey g (gm_MetaId m)
    /\ gm_MetaId m = pin_author pin /\ gm_GlobalMetaId m = pin_GlobalMetaId pin /\ gm_Address m = pin_CreateAddress pin;
  mr_admin : gm_IsAdmin m = true -> exists pin g u, pin ∈ ps /\ appoints pin g u /\ k = groupMemberKey g u;
  mr_removed : gm_IsRemoved m = true -> exists pin g, pin ∈ ps /\ leaves pin g /\ k = groupMemberKey g (pin_author pin);
  mr_texts : gm_UserName m = "" /\ gm_Avatar m = "";
  mr_time : in_i64 (gm_Timestamp m) }.
(** The role record under [k]: of its own user in its own group, both named by a pin. *)
Record role_rec (ps : list PinInscription) (k : string) (r : GroupMemberRole) : Prop := {
  rr_key : k = groupRoleKey (gr_GroupId r) (gr_MetaId r);
  rr_by : exists pin, pin ∈ ps /\ (appoints pin (gr_GroupId r) (gr_MetaId r) \/ blocks pin (gr_GroupId r) (gr_MetaId r));
  rr_admin : gr_IsAdmin r = true -> exists pin g u, pin ∈ ps /\ appoints pin g u /\ k = groupRoleKey g u;
  rr_blocked : gr_IsBlocked r = true -> exists pin g u, pin ∈ ps /\ blocks pin g u /\ k = groupRoleKey g u;
  rr_ints : in_i64 (gr_Timestamp r) /\ in_i64 (gr_BlockHeight r) }.
(** A line of the join history: one of its pin's author's ids, the pin's group, and the
    pin's own fields. *)
Record join_rec (pin : PinInscription) (identity : string) (i : GroupMetaIdJoinItem) : Prop := {
  jr_identity : identity ∈ groupMetaIdJoinItemAliases i;
  jr_pin : ji_JoinPinId i = pin_Id pin /\ ji_JoinTimestamp i = pin_Timestamp pin;
  jr_by : ji_ByMetaId i = pin_author pin /\ ji_ByGlobalMetaId i = pin_GlobalMetaId pin
    /\ ji_ByAddress i = pin_CreateAddress pin /\ ji_Address i = pin_CreateAddress pin }.

(** An entry of the namespace after the pins [ps]: the key tells the kind of its record,
    and is made of the record's own fields and of what a pin says. *)
Record entry_wf (ps : list PinInscription) (k v : string) : Prop := {
  wf_chat : HasPrefix k chatPrefix = true ->
    exists pin b r i, let m := set_Index i (chat_message pin b r) in pin ∈ ps /\ says "simplegroupchat" pin b
      /\ k = chatKey (cm_GroupId m) (cm_Timestamp m) (cm_TxId m) /\ v = json_Marshal m
      /\ cm_TxId m = extractTxId (cm_PinId m);
  wf_group : HasPrefix k groupPrefix = true ->
    exists g : Group, k = groupKey (g_GroupId g) /\ v = json_Marshal g;
  wf_member : HasPrefix k groupMemberPrefix = true -> exists m, member_rec ps k m /\ v = json_Marshal m;
  wf_role : HasPrefix k groupRolePrefix = true -> exists r, role_rec ps k r /\ v = json_Marshal r;
  wf_community : HasPrefix k communityPrefix = true ->
    exists pin (c : Community), pin ∈ ps /\ c_CommunityId c = pin_Id pin
      /\ k = communityKey (c_CommunityId c) /\ v = json_Marshal c;
  wf_join : HasPrefix k groupJoinPrefix = true ->
    exists pin identity g i, pin ∈ ps /\ recorded pin g /\ join_rec pin identity i
      /\ k = groupJoinKey identity g (ji_JoinTimestamp i) (ji_JoinPinId i) /\ v = json_Marshal i;
  wf_channel : HasPrefix k groupChannelPrefix = true ->
    exists pin b (c : GroupChannel), pin ∈ ps /\ says "simplegroupchannel" pin b /\ ch_PinId c = pin_Id pin
      /\ ch_GroupId c = sch_GroupId b /\ k = groupChannelKey (ch_GroupId c) (ch_ChannelId c) /\ v = json_Marshal c }.

(** The fields of a pin are text and numbers that JSON carries: the records of members and
    roles made of them read back as they were. *)
Record json_plain (pin : PinInscription) : Prop := {
  jp_time : in_i64 (pin_Timestamp pin);
  jp_height : in_i64 (pin_GenesisHeight pin);
  jp_member m : gm_MetaId m = pin_author pin -> gm_GlobalMetaId m = pin_GlobalMetaId pin ->
    gm_Address m = pin_CreateAddress pin -> gm_UserName m = "" -> gm_Avatar m = "" -> in_i64 (gm_Timestamp m) ->
    json_faithful m;
  jp_role r : appoints pin (gr_GroupId r) (gr_MetaId r) \/ blocks pin (gr_GroupId r) (gr_MetaId r) ->
    in_i64 (gr_Timestamp r) -> in_i64 (gr_BlockHeight r) -> json_faithful r }.

Context (ps : list PinInscription) (plain : Forall json_plain ps).
Lemma plain_pin_of pin : pin ∈ ps -> json_plain pin.
Proof. by apply Forall_forall. Qed.
Lemma member_faithful k m : member_rec ps k m -> json_faithful m.
Proof. intros [(pin & g & Hpin & _ & _ & E1 & E2 & E3) _ _ [E4 E5] Ht]. by apply (jp_member _ (plain_pin_of pin Hpin)). Qed.
Lemma role_faithful k r : role_rec ps k r -> json_faithful r.
Proof. intros [_ (pin & Hpin & Hn) _ _ [Ht Hh]]. by apply (jp_role _ (plain_pin_of pin Hpin)). Qed.

(** Keys of one kind are not keys of another: the prefixes differ. *)
Ltac entry_kind :=
  intros; split; unfold chatKey, groupKey, groupMemberKey, groupRoleKey, communityKey,
    groupJoinKey, groupChannelKey;
  try (rewrite HasPrefix_clash by reflexivity; discriminate);
  intros _.

Lemma chat_entry pin b r i :
  let m := set_Index i (chat_message pin b r) in pin ∈ ps -> says "simplegroupchat" pin b ->
  entry_wf ps (chatKey (cm_GroupId m) (cm_Timestamp m) (cm_TxId m)) (json_Marshal m).
Proof. intros m Hpin Hb. entry_kind. by exists pin, b, r, i. Qed.
Lemma group_entry (g : Group) : entry_wf ps (groupKey (g_GroupId g)) (json_Marshal g).
Proof. entry_kind. by exists g. Qed.
Lemma member_entry g u m :
  member_rec ps (groupMemberKey g u) m -> entry_wf ps (groupMemberKey g u) (json_Marshal m).
Proof. intros H. entry_kind. by exists m. Qed.
Lemma role_entry g u r : role_rec ps (groupRoleKey g u) r -> entry_wf ps (groupRoleKey g u) (json_Marshal r).
Proof. intros H. entry_kind. by exists r. Qed.
Lemma community_entry pin (c : Community) :
  pin ∈ ps -> c_CommunityId c = pin_Id pin -> entry_wf ps (communityKey (c_CommunityId c)) (json_Marshal c).
Proof. intros Hpin E. entry_kind. by exists pin, c. Qed.
Lemma join_entry pin identity g (i : GroupMetaIdJoinItem) :
  pin ∈ ps -> recorded pin g -> join_rec pin identity i ->
  entry_wf ps (groupJoinKey identity g (ji_JoinTimestamp i) (ji_JoinPinId i)) (json_Marshal i).
Proof. intros Hpin Hr Hj. entry_kind. by exists pin, identity, g, i. Qed.
Lemma channel_entry pin b (c : GroupChannel) :
  pin ∈ ps -> says "simplegroupchannel" pin b -> ch_PinId c = pin_Id pin -> ch_GroupId c = sch_GroupId b ->
  entry_wf ps (groupChannelKey (ch_GroupId c) (ch_ChannelId c)) (json_Marshal c).
Proof. intros Hpin Hb E1 E2. entry_kind. by exists pin, b, c. Qed.
End Entries.

Section Handlers.
Context {St : Type} {KV : KVOps St} {KVS : KVStore St} {GJ : GroupChatJSON} {F : FmtV}
  {MO : MapOrder}.

Definition store_wf (ps : list PinInscription) (s : St) : Prop := entries_satisfy (entry_wf ps) namespace s.

Section Pins.
Context (ps : list PinInscription) (plain : Forall json_plain ps).
#[local] Abbreviation keeps := (preserves (store_wf ps)).

Lemma save_wf {A} {J : JSON A} k (a : A) : entry_wf ps k (json_Marshal a) -> keeps (save namespace k a).
Proof. apply save_preserves. Qed.
Lemma SaveGroup_wf g : keeps (SaveGroup g).
Proof. apply save_wf, group_entry. Qed.
Lemma SaveGroupMember_wf g u m : member_rec ps (groupMemberKey g u) m -> keeps (SaveGroupMember g u m).
Proof. intros H. by apply save_wf, member_entry. Qed.
Lemma SetGroupRole_wf g u r : role_rec ps (groupRoleKey g u) r -> keeps (SetGroupRole g u r).
Proof. intros H. by apply save_wf, role_entry. Qed.
Lemma SaveGroupChannel_wf pin b c :
  pin ∈ ps -> says "simplegroupchannel" pin b -> ch_PinId c = pin_Id pin -> ch_GroupId c = sch_GroupId b ->
  keeps (SaveGroupChannel c).
Proof. intros. unfold SaveGroupChannel. destruct (_ || _); [apply preserves_ret|]. by eapply save_wf, channel_entry. Qed.
Lemma save_aliases_wf pin ids g i :
  pin ∈ ps -> recorded pin g -> (forall identity, identity ∈ ids -> join_rec pin identity i) -> keeps (save_aliases ids g i).
Proof.
  intros Hpin Hr. induction ids as [|identity ids IH]; intros Hi; [apply preserves_ret|].
  apply preserves_bind; [|intros _; apply IH; intros; apply Hi; by right]. apply save_wf, (join_entry ps pin); [done..|].
  apply Hi. by left.
Qed.
(** The fields of a join item that come from its pin. *)
Definition item_of (pin : PinInscription) (i : GroupMetaIdJoinItem) : Prop :=
  (ji_JoinPinId i = pin_Id pin /\ ji_JoinTimestamp i = pin_Timestamp pin)
  /\ (ji_ByMetaId i = pin_author pin /\ ji_ByGlobalMetaId i = pin_GlobalMetaId pin
      /\ ji_ByAddress i = pin_CreateAddress pin /\ ji_Address i = pin_CreateAddress pin).
Lemma SaveGroupMetaIdJoinItem_wf pin g i :
  pin ∈ ps -> recorded pin g -> item_of pin i -> keeps (SaveGroupMetaIdJoinItem g i).
Proof.
  intros Hpin Hr [H1 H2]. unfold SaveGroupMetaIdJoinItem. destruct (is_empty g); [apply preserves_ret|].
  apply (save_aliases_wf pin); [done..|]. by split.
Qed.
Lemma SaveChatMessage_wf pin b r :
  pin ∈ ps -> says "simplegroupchat" pin b -> keeps (SaveChatMessage (chat_message pin b r)).
Proof.
  intros Hpin Hb s Hs. unfold SaveChatMessage. cbn [cm_Index chat_message]. change (-1 <? 0) with true. cbv iota zeta.
  refine (preserves_bind _ _ _ _ _ s Hs); [|intros; apply preserves_ret]. by apply save_wf, chat_entry.
Qed.

(** What a handler reads of members and roles. *)
Lemma stored_at s k v : store_wf ps s -> kv_Get s namespace k = Ok (Some v) -> entry_wf ps k v.
Proof.
  intros Hs E. apply Hs. destruct (kv_ok s namespace) eqn:Hok; [rewrite kv_Get_ok in E by done; by injection E|].
  pose proof (kv_Get_fail s namespace k Hok) as H. by rewrite E in H.
Qed.
Lemma read_member s g u m :
  store_wf ps s -> value_of (GetGroupMember g u s) = Some m -> member_rec ps (groupMemberKey g u) m.
Proof.
  intros Hs. unfold GetGroupMember, load. destruct (kv_Get s namespace _) as [[v|]|] eqn:E; [|done..].
  destruct (wf_member _ _ _ (stored_at _ _ _ Hs E) (HasPrefix_app _ _)) as (m' & Hm & ->).
  rewrite json_roundtrip by (by eapply member_faithful). by intros [= <-].
Qed.
Lemma read_role s pin g u :
  store_wf ps s -> pin ∈ ps -> appoints pin g u \/ blocks pin g u -> role_rec ps (groupRoleKey g u) (role_or_new g u s).
Proof.
  intros Hs Hpin Hn. unfold role_or_new, getGroupMemberRole.
  assert (Hnew : role_rec ps (groupRoleKey g u) (mkRole u g false false false false false 0 0))
    by (split; [done|by exists pin|done|done|by split]).
  destruct (kv_Get s namespace _) as [[v|]|] eqn:E; [|done..].
  destruct (wf_role _ _ _ (stored_at _ _ _ Hs E) (HasPrefix_app _ _)) as (r & Hr & ->).
  by rewrite json_roundtrip by (by eapply role_faithful).
Qed.
Lemma preserves_read {A B} (f : St -> A) (k : A -> M St B) :
  (forall s, store_wf ps s -> keeps (k (f s))) -> keeps (hbind (hget f) k).
Proof. intros H s Hs. exact (H s Hs s Hs). Qed.

(** ** The handlers *)

Lemma in_hfold {A B} (f : B -> A -> M St B) l b :
  (forall b a, a ∈ l -> keeps (f b a)) -> keeps (hfold f l b).
Proof.
  revert b. induction l as [|a l IH]; intros b Hf; [apply preserves_ret|].
  apply preserves_bind; [apply Hf; by left|]. intros b'. apply IH. intros b2 a2 Ha. apply Hf. by right.
Qed.
(** A record of a pin that enters a group. *)
Lemma new_member pin g m :
  pin ∈ ps -> enters pin g -> gm_MetaId m = pin_author pin -> gm_GlobalMetaId m = pin_GlobalMetaId pin ->
  gm_Address m = pin_CreateAddress pin -> gm_UserName m = "" -> gm_Avatar m = "" -> gm_Timestamp m = pin_Timestamp pin ->
  gm_IsRemoved m = false -> (gm_IsAdmin m = true -> appoints pin g (pin_author pin)) ->
  member_rec ps (groupMemberKey g (pin_author pin)) m.
Proof.
  intros Hpin Hg E1 E2 E3 E4 E5 E6 E7 Ha. split.
  - exists pin, g. by rewrite E1.
  - intros H. exists pin, g, (pin_author pin). by auto.
  - by rewrite E7.
  - done.
  - rewrite E6. apply (plain_pin_of ps plain pin Hpin).
Qed.

Lemma handleCommunityCreate_wf pin : pin ∈ ps -> keeps (handleCommunityCreate pin).
Proof.
  intros Hpin. unfold handleCommunityCreate. destruct (json_Unmarshal _); [|apply preserves_ret].
  apply preserves_bind; [|intros; apply preserves_ret]. by apply save_wf, (community_entry ps pin).
Qed.
Lemma handleGroupChannel_wf pin :
  pin ∈ ps -> HasSuffix (ToLower (TrimChar "/" (pin_Path pin))) "simplegroupchannel" = true -> keeps (handleGroupChannel pin).
Proof.
  intros Hpin Hk. unfold handleGroupChannel. destruct (json_Unmarshal _) as [b|] eqn:Eb; [|apply preserves_ret].
  cbv zeta. destruct (is_empty _); [apply preserves_ret|].
  apply preserves_bind; [|intros; apply preserves_ret]. by apply (SaveGroupChannel_wf pin b).
Qed.
Lemma handleGroupCreate_wf pin :
  pin ∈ ps -> HasSuffix (ToLower (TrimChar "/" (pin_Path pin))) "simplegroupcreate" = true -> keeps (handleGroupCreate pin).
Proof.
  intros Hpin Hk. unfold handleGroupCreate. destruct (json_Unmarshal _) as [b|] eqn:Eb; [|apply preserves_ret].
  cbv zeta. fold (created_group pin b). assert (Hb : says "simplegroupcreate" pin b) by done.
  pose proof (appoints_creator pin b Hb) as Ha. pose proof (plain_pin_of ps plain pin Hpin) as Hp.
  apply preserves_bind; [apply SaveGroup_wf|intros _].
  apply preserves_bind; [apply SaveGroupMember_wf, new_member; try done; by constructor|intros _].
  apply preserves_bind; [apply SetGroupRole_wf|intros _].
  { split; cbn; [done|exists pin; by auto|intros _; by exists pin, (created_group pin b), (pin_author pin)|done|].
    split; apply Hp. }
  apply preserves_bind; [|intros; apply preserves_ret]. apply (SaveGroupMetaIdJoinItem_wf pin); [done|by constructor|by split].
Qed.
Lemma set_admin_wf pin g e u : pin ∈ ps -> appoints pin g u -> keeps (set_admin pin g e u).
Proof.
  intros Hpin Ha. unfold set_admin. apply preserves_read. intros s Hs.
  destruct (read_role s pin g u Hs Hpin (or_introl Ha)) as [E Hby _ Hbl Hi]. set (r := role_or_new g u s) in *.
  pose proof (plain_pin_of ps plain pin Hpin) as Hp. apply preserves_bind; [apply preserves_try, SetGroupRole_wf|intros ok].
  { split; cbn; [done|done|intros _; by exists pin, g, u|done|]. split; apply Hp. }
  destruct (negb ok); [apply preserves_ret|]. apply preserves_read. intros s1 Hs1.
  apply preserves_bind; [|intros; apply preserves_ret].
  destruct (value_of _) as [m|] eqn:Em; [|apply preserves_ret]. apply preserves_try, SaveGroupMember_wf.
  destruct (read_member s1 g u m Hs1 Em) as [H1 _ H3 H4 _].
  split; cbn; [done|intros _; by exists pin, g, u|done|done|apply Hp].
Qed.
Lemma handleGroupAdmin_wf pin :
  pin ∈ ps -> HasSuffix (ToLower (TrimChar "/" (pin_Path pin))) "simplegroupadmin" = true -> keeps (handleGroupAdmin pin).
Proof.
  intros Hpin Hk. unfold handleGroupAdmin. destruct (json_Unmarshal _) as [b|] eqn:Eb; [|apply preserves_ret].
  destruct (is_empty _); [apply preserves_ret|]. apply in_hfold. intros e u Hu. by apply set_admin_wf, appoints_admin.
Qed.
Lemma set_blocked_wf pin g e u : pin ∈ ps -> blocks pin g u -> keeps (set_blocked pin g e u).
Proof.
  intros Hpin Ha. unfold set_blocked. apply preserves_read. intros s Hs.
  destruct (read_role s pin g u Hs Hpin (or_intror Ha)) as [E Hby Had _ Hi]. set (r := role_or_new g u s) in *.
  pose proof (plain_pin_of ps plain pin Hpin) as Hp. apply preserves_bind; [apply preserves_try, SetGroupRole_wf|intros ok].
  { split; cbn; [done|done|done|intros _; by exists pin, g, u|]. split; apply Hp. }
  destruct (negb ok); apply preserves_ret.
Qed.
Lemma handleGroupBlock_wf pin :
  pin ∈ ps -> HasSuffix (ToLower (TrimChar "/" (pin_Path pin))) "simplegroupblock" = true -> keeps (handleGroupBlock pin).
Proof.
  intros Hpin Hk. unfold handleGroupBlock. destruct (json_Unmarshal _) as [b|] eqn:Eb; [|apply preserves_ret].
  destruct (is_empty _); [apply preserves_ret|]. apply in_hfold. intros e u Hu. by apply set_blocked_wf, blocks_user.
Qed.
Lemma handleGroupChat_wf pin :
  pin ∈ ps -> HasSuffix (ToLower (TrimChar "/" (pin_Path pin))) "simplegroupchat" = true -> keeps (handleGroupChat pin).
Proof.
  intros Hpin Hk. unfold handleGroupChat. destruct (json_Unmarshal _) as [b|] eqn:Eb; [|apply preserves_ret].
  cbv zeta. destruct (is_empty _); [apply preserves_ret|]. apply preserves_read. intros s _.
  apply preserves_bind; [|intros _; apply preserves_read; intros s1 _].
  { destruct (negb _); [|apply preserves_ret]. apply preserves_try, SaveGroupMember_wf, new_member; try done. by apply enters_chat. }
  apply preserves_bind; [by apply SaveChatMessage_wf|intros msg]. apply preserves_read. intros s2 _. apply preserves_ret.
Qed.
Lemma count_wf group (f : Group -> Group) : keeps (match group with Some g => htry (SaveGroup (f g)) | None => hret true end).
Proof. destruct group; [apply preserves_try, SaveGroup_wf|apply preserves_ret]. Qed.
Lemma handleGroupJoin_wf pin :
  pin ∈ ps -> HasSuffix (ToLower (TrimChar "/" (pin_Path pin))) "simplegroupjoin" = true -> keeps (handleGroupJoin pin).
Proof.
  intros Hpin Hk. unfold handleGroupJoin. destruct (json_Unmarshal _) as [b|] eqn:Eb; [|apply preserves_ret].
  cbv zeta. destruct (is_empty _); [apply preserves_ret|]. assert (Hb : says "simplegroupjoin" pin b) by done.
  apply preserves_bind; [|intros _].
  { apply (SaveGroupMetaIdJoinItem_wf pin); [done|by constructor|by split]. }
  destruct (is_join b) eqn:Ej.
  - apply preserves_bind; [apply SaveGroupMember_wf, new_member; try done; by constructor|intros _].
    apply preserves_read. intros s _. apply preserves_bind; [apply count_wf|intros _; apply preserves_ret].
  - apply preserves_read. intros s Hs. apply preserves_bind; [|intros _].
    { destruct (value_of _) as [m|] eqn:Em; [|apply preserves_ret]. apply SaveGroupMember_wf.
      destruct (read_member s _ _ m Hs Em) as [H1 H2 _ H4 _].
      split; cbn; [done|done|intros _; exists pin, (sgj_GroupId b)|done|apply (plain_pin_of ps plain pin Hpin)].
      split; [done|]. split; [by constructor|done]. }
    apply preserves_read. intros s1 _. apply preserves_bind; [|intros _; apply preserves_ret].
    destruct (value_of _) as [g|]; [|apply preserves_ret]. destruct (_ <? _); [|apply preserves_ret].
    apply preserves_try, SaveGroup_wf.
Qed.

Lemma dispatchPin_wf pin : pin ∈ ps -> keeps (dispatchPin pin).
Proof.
  intros Hpin. unfold dispatchPin. destruct (is_empty _); [apply preserves_ret|]. cbv zeta.
  repeat match goal with |- context [if ?c then _ else _] => destruct c eqn:?; [
    first [by apply handleCommunityCreate_wf|by apply handleGroupCreate_wf|by apply handleGroupChannel_wf
      |by apply handleGroupAdmin_wf|by apply handleGroupBlock_wf|by apply handleGroupChat_wf|by apply handleGroupJoin_wf]|] end.
  apply preserves_ret.
Qed.

(** Any sequence of deliveries of the pins, in blocks and from the mempool, and of
    notifications that the socket layer takes. *)
Inductive pins_step : Module -> Module -> Prop :=
  | step_block pin m : pin ∈ ps -> pins_step m (HandleBlockPin pin m).2
  | step_mempool pin m : pin ∈ ps -> pins_step m (HandleMempoolPin pin m).2
  | step_recv s e q : pins_step (mkModule s (e :: q)) (mkModule s q).   (* the socket layer *)

Definition module_wf (m : Module) : Prop := store_wf ps (md_store m) /\ (length (md_notifyCh m) <= 256)%nat.
Lemma pins_step_inv m m' : pins_step m m' -> module_wf m -> module_wf m'.
Proof.
  assert (Hp : forall pin m0, pin ∈ ps -> module_wf m0 -> module_wf (HandleBlockPin pin m0).2).
  { intros pin m0 Hpin [Hw Hq]. unfold HandleBlockPin.
    pose proof (dispatchPin_wf pin Hpin (md_store m0) Hw) as Hw'.
    destruct (dispatchPin pin (md_store m0)) as [[[e|]|e] s]; simpl in *; [|done..].
    unfold sendNotifyEvent. simpl. destruct (Nat.ltb_spec (length (md_notifyCh m0)) 256); [|done].
    split; [done|]. simpl. rewrite length_app. simpl. lia. }
  intros Hs. destruct Hs as [pin m|pin m|s e q]; [by apply Hp|by apply Hp|]. intros [H Hl]. split; [done|].
  simpl in *. lia.
Qed.

(** C2: In every state reached by any sequence of block and mempool pins, successful or
    not, each key of the groupchat namespace holds a record of the kind its prefix says,
    under the key of that very record: a message, group, community or channel under its
    own ids; a member record under its own user and a group that this user's pin entered,
    with that pin's identities; a role record under its own group and user, named by a
    pin; a line of the join history under an id of its pin's author and the pin's group.
    Nobody is an admin, blocked or removed unless a pin about that key made it so; and the
    notify channel never exceeds its capacity. *)
Theorem groupchat_invariant m m' :
  rtc pins_step m m' -> store_wf ps (md_store m) -> (length (md_notifyCh m) <= 256)%nat ->
  store_wf ps (md_store m') /\ (length (md_notifyCh m') <= 256)%nat.
Proof.
  intros Hr Hw Hq. assert (Hi : module_wf m) by done. clear Hw Hq.
  induction Hr as [|m1 m2 m3 Hs Hr IH]; [done|]. by apply IH, (pins_step_inv m1 m2).
Qed.
End Pins.
End Handlers.

(** ** Concrete instances for evaluation *)

Definition of_bool (b : bool) : tok := TZ (if b then 1 else 0).
Definition sample_JSON : GroupChatJSON := {|
  json_Group := via_JSON
    (fun g => [TS (g_GroupId g); TS (g_GroupName g); TZ (g_MemberCount g); TZ (g_CreatedAt g)])
    (fun l => match l with
       | [TS i; TS n; TZ c; TZ t] => Some (mkGroup i "" "" n "" "" "" "" "" "" "" c "" "" t "" 0)
       | _ => None end);
  json_GroupMember := via_JSON
    (fun m => [TS (gm_MetaId m); TS (gm_GlobalMetaId m); TS (gm_Address m); TS (gm_UserName m); TS (gm_Avatar m);
               of_bool (gm_IsCreator m); of_bool (gm_IsAdmin m); of_bool (gm_IsBlocked m);
               of_bool (gm_IsWhitelist m); of_bool (gm_IsRemoved m); TZ (gm_Timestamp m)])
    (fun l => match l with
       | [TS i; TS g; TS a; TS n; TS v; TZ c; TZ d; TZ b; TZ w; TZ r; TZ t] =>
           Some (mkMember i g a n v (c =? 1) (d =? 1) (b =? 1) (w =? 1) (r =? 1) t)
       | _ => None end);
  json_GroupMemberRole := via_JSON
    (fun r => [TS (gr_MetaId r); TS (gr_GroupId r); of_bool (gr_IsCreator r); of_bool (gr_IsAdmin r);
               of_bool (gr_IsBlocked r); of_bool (gr_IsWhitelist r); of_bool (gr_IsRemoved r);
               TZ (gr_Timestamp r); TZ (gr_BlockHeight r)])
    (fun l => match l with
       | [TS i; TS g; TZ c; TZ d; TZ b; TZ w; TZ x; TZ t; TZ h] =>
           Some (mkRole i g (c =? 1) (d =? 1) (b =? 1) (w =? 1) (x =? 1) t h)
       | _ => None end);
  json_Community := no_JSON;
  json_ChatMessage := via_JSON
    (fun m => [TS (cm_TxId m); TS (cm_PinId m); TS (cm_GroupId m); TS (cm_ChannelId m);
               TS (cm_MetaId m); TS (cm_GlobalMetaId m); TS (cm_Address m); TS (cm_Protocol m);
               TS (cm_Content m); TS (cm_ChatType m); TS (cm_ReplyMetaId m);
               TS (cm_ReplyGlobalMetaId m); TZ (cm_Timestamp m); TS (cm_Chain m);
               TZ (cm_BlockHeight m); TZ (cm_Index m)])
    (fun l => match l with
       | [TS tx; TS p; TS g; TS c; TS m; TS gm; TS a; TS pr; TS co; TS ct; TS rm; TS rg; TZ t; TS ch;
          TZ b; TZ i] => Some (mkChat tx p g c m gm a ANil "" pr co "" "" ct "" ANil rm rg [] t ch b i)
       | _ => None end);
  json_GroupChannel := no_JSON;
  json_JoinItem := no_JSON;
  json_SimpleCommunity := no_JSON;
  json_SimpleGroupCreate := no_JSON;
  json_SimpleGroupChannel := no_JSON;
  json_SimpleGroupAdmin := via_JSON (fun b => [TS (sga_GroupId b); TS (String.concat "," (sga_Admins b))])
    (fun l => match l with [TS g; TS u] => Some (mkSimpleGroupAdmin g [u]) | _ => None end);
  json_SimpleGroupBlock := no_JSON;
  json_SimpleGroupChat := via_JSON
    (fun b => [TS (sgt_GroupId b); TS (sgt_ChannelId b); TS (sgt_Content b)])
    (fun l => match l with
       | [TS g; TS c; TS t] => Some (mkSimpleGroupChat g c t "" "" "" []) | _ => None end);
  json_SimpleGroupJoin := via_JSON
    (fun b => [TS (sgj_GroupId b); TZ (match sgj_State b with AFloat m _ => m | _ => 1 end)])
    (fun l => match l with
       | [TS g; TZ n] => Some (mkSimpleGroupJoin g "" (AFloat n 0) "") | _ => None end);
  json_latestPrivate := no_JSON;
  json_profile := no_JSON;
  any_of_ChatMessage m := AStr (cm_Content m);
  any_of_latestPrivate m := AStr (lp_Content m) |}.
Definition sample_fmt : FmtV := {| fmt_v _ := "" |}.

#[local] Existing Instance sample_ops_inst.
#[local] Existing Instance sample_store_inst.
#[local] Existing Instance sample_JSON.
#[local] Existing Instance sample_fmt.
#[local] Existing Instance some_order.

Definition sample_pin (path body id metaId : string) (t : Z) : PinInscription :=
  mkPin id 0 path "" "create" body "" "" "" ("addr-" +:+ metaId) "" metaId ("g-" +:+ metaId) "" "mvc"
    "" 1 t "" false "" "".
Definition chat_pin (id metaId text : string) (t : Z) : PinInscription :=
  sample_pin "/protocols/simplegroupchat"
    (json_Marshal (mkSimpleGroupChat "G" "" text "" "" "" [])) id metaId t.
Definition join_pin (id metaId : string) (state t : Z) : PinInscription :=
  sample_pin "/protocols/simplegroupjoin"
    (json_Marshal (mkSimpleGroupJoin "G" "" (AFloat state 0) "")) id metaId t.

Definition admin_pin (id metaId user : string) (t : Z) : PinInscription :=
  sample_pin "/protocols/simplegroupadmin" (json_Marshal (mkSimpleGroupAdmin "G" [user])) id metaId t.
(** Alice joins, Bob appoints her, she says something. *)
Definition three_pins : list PinInscription :=
  [join_pin "t0i0" "alice" 1 5; admin_pin "t1i0" "bob" "alice" 6; chat_pin "t2i0" "alice" "hi" 7].
Definition after_one : Module := (HandleMempoolPin (join_pin "t0i0" "alice" 1 5) (mkModule empty_store [])).2.
Definition after_two : Module := (HandleBlockPin (admin_pin "t1i0" "bob" "alice" 6) after_one).2.
Definition after_three : Module := (HandleBlockPin (chat_pin "t2i0" "alice" "hi" 7) after_two).2.
Lemma three_plain : Forall json_plain three_pins.
Proof.
  apply Forall_forall. intros pin Hpin. assert (in_i64 (pin_Timestamp pin) /\ in_i64 (pin_GenesisHeight pin)) as [H1 H2].
  { repeat (apply elem_of_cons in Hpin as [->|Hpin]; [by split|]). by apply not_elem_of_nil in Hpin. }
  split; [done|done| |].
  - intros [? ? ? ? ? [] [] [] [] [] ?] _ _ _ _ _ _; reflexivity.
  - intros [? ? [] [] [] [] [] ? ?] _ _ _; reflexivity.
Qed.
Lemma groupchat_invariant_witness :
  size (kv_view (md_store after_three) namespace) = 6%nat
  /\ store_wf three_pins (md_store after_three) /\ (length (md_notifyCh after_three) <= 256)%nat.
Proof.
  split; [by vm_compute|]. apply (groupchat_invariant three_pins three_plain (mkModule empty_store [])).
  - apply rtc_l with after_one; [apply step_mempool; left|].
    apply rtc_l with after_two; [apply step_block; right; left|]. apply rtc_once.
    apply step_block. right. right. left.
  - apply map_Forall_empty.
  - simpl. lia.
Defined.

(** ** Messages and their indices *)

Section Messages.
Context {St : Type} {KV : KVOps St} {KVS : KVStore St} {GJ : GroupChatJSON} {F : FmtV}
  {MO : MapOrder}.

Definition conversation (groupId channelId : string) (s : St) : list ChatMessage :=
  if is_empty channelId then collectGroupRootMessages groupId s
  else collectChannelMessages groupId channelId s.

Lemma max_index_spec l i :
  let m := foldl (fun maxIndex msg => if maxIndex <? cm_Index msg then cm_Index msg else maxIndex)
             i l in
  i <= m /\ (forall msg, msg ∈ l -> cm_Index msg <= m)
  /\ (m = i \/ exists msg, msg ∈ l /\ m = cm_Index msg).
Proof.
  revert i. induction l as [|x l IH]; intros i; simpl.
  { split; [lia|split; [|by left]]. intros msg H. by apply not_elem_of_nil in H. }
  specialize (IH (if i <? cm_Index x then cm_Index x else i)).
  destruct IH as (H1 & H2 & H3). destruct (Z.ltb_spec i (cm_Index x)).
  - split; [lia|split].
    + intros msg [->|Hm]%elem_of_cons; [lia|auto].
    + destruct H3 as [->|(msg & Hm & ->)]; right; eauto using list_elem_of_here, list_elem_of_further.
  - split; [lia|split].
    + intros msg [->|Hm]%elem_of_cons; [lia|auto].
    + destruct H3 as [->|(msg & Hm & ->)]; [by left|right]. eauto using list_elem_of_further.
Qed.

(** The next index is above every index of the conversation. *)
Lemma nextChatIndex_spec groupId channelId s :
  (forall m, m ∈ conversation groupId channelId s -> cm_Index m < 2 ^ 63 - 1) ->
  0 <= nextChatIndex groupId channelId s < 2 ^ 63
  /\ forall m, m ∈ conversation groupId channelId s ->
       cm_Index m < nextChatIndex groupId channelId s.
Proof.
  intros Hb. unfold nextChatIndex. fold (conversation groupId channelId s).
  destruct (max_index_spec (conversation groupId channelId s) (-1)) as (H1 & H2 & H3).
  cbv zeta in *. set (m := foldl _ _ _) in *.
  assert (m < 2 ^ 63 - 1) by (destruct H3 as [->|(msg & Hm & ->)]; [lia|auto]).
  rewrite wrap64_id by (unfold in_i64; lia). split; [lia|].
  intros msg Hm. specialize (H2 msg Hm). lia.
Qed.

(** A write outside the chat keys does not change any conversation. *)
Lemma scan_frame (s s' : St) ns k v p :
  kv_ok s ns = true -> kv_update s ns (<[k := v]> (kv_view s ns)) s' ->
  HasPrefix k p = false -> scan ns p s' = scan ns p s.
Proof.
  intros Hok Hu Hp. rewrite !scan_ok by (by rewrite ?(kvu_ok _ _ _ _ Hu)).
  rewrite (kvu_view _ _ _ _ Hu). by apply prefix_entries_insert_out.
Qed.
Lemma member_key_not_chat groupId metaId p :
  HasPrefix p chatPrefix = true -> HasPrefix (groupMemberKey groupId metaId) p = false.
Proof.
  intros Hp. apply not_true_is_false. intros H. apply (HasPrefix_trans _ _ chatPrefix) in H; [|done].
  unfold groupMemberKey in H. by rewrite HasPrefix_clash in H.
Qed.
Lemma member_save_frame (s s' : St) groupId metaId (m : GroupMember) g c :
  kv_ok s namespace = true ->
  kv_update s namespace (<[groupMemberKey groupId metaId := json_Marshal m]> (kv_view s namespace)) s' ->
  conversation g c s' = conversation g c s.
Proof.
  intros Hok Hu.
  assert (Hs : forall p, HasPrefix p chatPrefix = true ->
    scan_json (A := ChatMessage) namespace p s' = scan_json namespace p s).
  { intros p Hp. unfold scan_json. rewrite (scan_frame s s' namespace _ _ p Hok Hu); [done|].
    by apply member_key_not_chat. }
  assert (Hg : forall g, collectGroupMessages g s' = collectGroupMessages g s).
  { intros g'. apply Hs. apply HasPrefix_app. }
  unfold conversation, collectGroupRootMessages, collectChannelMessages, collectAllChatMessages.
  rewrite Hg, (Hs chatPrefix) by reflexivity. done.
Qed.
Lemma chat_key_not_member g t x groupId metaId : chatKey g t x <> groupMemberKey groupId metaId.
Proof. done. Qed.

Lemma SaveChatMessage_spec (s : St) msg :
  kv_ok s namespace = true -> cm_Index msg < 0 ->
  let msg' := set_Index (nextChatIndex (cm_GroupId msg) (cm_ChannelId msg) s) msg in
  exists s', SaveChatMessage msg s = (Ok msg', s')
  /\ kv_update s namespace
       (<[chatKey (cm_GroupId msg) (cm_Timestamp msg) (cm_TxId msg) := json_Marshal msg']>
          (kv_view s namespace)) s'.
Proof.
  intros Hok Hi msg'. unfold SaveChatMessage. rewrite (proj2 (Z.ltb_lt _ _)) by done.
  fold msg'. destruct (save_spec s namespace (chatKey (cm_GroupId msg') (cm_Timestamp msg')
    (cm_TxId msg')) msg' Hok) as (s' & E & Hu). unfold hbind. rewrite E. by exists s'.
Qed.

(** The member record [handleGroupChat] adds for an author who is not in. *)
Definition auto_member (pin : PinInscription) : GroupMember :=
  mkMember (pin_author pin) (pin_GlobalMetaId pin) (pin_CreateAddress pin) "" "" false false false
    false false (pin_Timestamp pin).

(** The state in which the message is saved: the author is a member. *)
Lemma ensure_member (s : St) pin groupId :
  kv_ok s namespace = true -> json_faithful (auto_member pin) ->
  let isMember := match IsUserInGroup groupId (pin_author pin) s with
                  | Ok b => b | Err _ => false end in
  exists b s1, (if negb isMember
              then htry (SaveGroupMember groupId (pin_author pin) (auto_member pin))
              else hret true) s = (Ok b, s1)
  /\ (forall ns, kv_ok s1 ns = kv_ok s ns)
  /\ IsUserInGroup groupId (pin_author pin) s1 = Ok true
  /\ (forall g c, conversation g c s1 = conversation g c s)
  /\ (forall k, k <> groupMemberKey groupId (pin_author pin) ->
        kv_view s1 namespace !! k = kv_view s namespace !! k).
Proof.
  intros Hok Hf isMember. destruct isMember eqn:E; cbn [negb].
  - exists true, s. split_and!; try done. unfold isMember in E.
    by destruct (IsUserInGroup _ _ s) as [[|]|].
  - destruct (save_spec s namespace (groupMemberKey groupId (pin_author pin)) (auto_member pin) Hok)
      as (s1 & Es & Hu). exists true, s1. unfold htry, SaveGroupMember. rewrite Es.
    split_and!; [done|apply (kvu_ok _ _ _ _ Hu)| | |].
    + unfold IsUserInGroup, GetGroupMember. by rewrite (load_save s s1 _ _ _ Hok Hf Es).
    + intros g c. by apply (member_save_frame s s1 _ _ _ g c Hok Hu).
    + intros k Hk. by rewrite (kvu_view _ _ _ _ Hu), lookup_insert_ne.
Qed.

(** C1: A group chat pin whose body parses stores its message under the message's
    own key, with an index above every index of its conversation (the group's
    root or the channel); makes the author a member if it was not one; notifies
    the group's current members with that message; and changes no other key. *)
Theorem handleGroupChat_stores s pin sgc :
  kv_ok s namespace = true ->
  json_Unmarshal (pin_ContentBody pin) = Ok sgc -> sgt_GroupId sgc <> "" ->
  json_faithful (auto_member pin) ->
  (forall i r, (sgt_ReplyPin sgc = "" -> r = None) ->
     json_faithful (set_Index i (chat_message pin sgc r))) ->
  (forall m, m ∈ conversation (sgt_GroupId sgc) (sgt_ChannelId sgc) s -> cm_Index m < 2 ^ 63 - 1) ->
  exists s' msg, handleGroupChat pin s
    = (Ok (Some (mkEvent "WS_SERVER_NOTIFY_GROUP_CHAT" "" "" (GroupMemberTargetIds (sgt_GroupId sgc) s')
                   (sgt_GroupId sgc) (any_of_ChatMessage msg))), s')
  /\ GetChatMessage (sgt_GroupId sgc) (pin_Timestamp pin) (extractTxId (pin_Id pin)) s' = Ok (Some msg)
  /\ cm_PinId msg = pin_Id pin /\ cm_Content msg = sgt_Content sgc /\ cm_MetaId msg = pin_author pin
  /\ 0 <= cm_Index msg
  /\ (forall m, m ∈ conversation (sgt_GroupId sgc) (sgt_ChannelId sgc) s -> cm_Index m < cm_Index msg)
  /\ IsUserInGroup (sgt_GroupId sgc) (pin_author pin) s' = Ok true
  /\ (forall k, k <> chatKey (sgt_GroupId sgc) (pin_Timestamp pin) (extractTxId (pin_Id pin)) ->
        k <> groupMemberKey (sgt_GroupId sgc) (pin_author pin) ->
        kv_view s' namespace !! k = kv_view s namespace !! k).
Proof.
  intros Hok Hbody Hgid Hfm Hfc Hidx. unfold handleGroupChat. rewrite Hbody.
  destruct (is_empty (sgt_GroupId sgc)) eqn:Eg; [by apply is_empty_spec in Eg|].
  destruct (ensure_member s pin (sgt_GroupId sgc) Hok Hfm) as (b & s1 & E1 & Hok1 & Hm1 & Hc1 & Hv1).
  unfold hbind at 1. cbn [hget]. unfold hget at 1.
  unfold hbind at 1. fold (auto_member pin). rewrite E1.
  unfold hbind at 1, hget at 1.
  set (r := if is_empty (sgt_ReplyPin sgc) then None else GetReplyInfo (sgt_ReplyPin sgc) s1).
  rewrite <- Hok1 in Hok.
  destruct (SaveChatMessage_spec s1 (chat_message pin sgc r) Hok ltac:(done)) as (s2 & E2 & Hu2).
  unfold hbind at 1. rewrite E2. unfold hbind, hget, hret.
  cbn [cm_GroupId cm_ChannelId cm_Timestamp cm_TxId chat_message] in *.
  set (msg := set_Index _ _) in *. exists s2, msg. split; [done|].
  rewrite <- Hc1 in Hidx.
  destruct (nextChatIndex_spec _ _ s1 Hidx) as [Hi Hlt]. rewrite <- Hc1.
  split_and!; try done; try lia.
  - unfold GetChatMessage. rewrite load_spec by (by rewrite (kvu_ok _ _ _ _ Hu2)).
    rewrite (kvu_view _ _ _ _ Hu2), lookup_insert_eq. rewrite json_roundtrip; [done|].
    apply Hfc. unfold r. by intros ->.
  - cbn [cm_Index msg set_Index]. lia.
  - rewrite <- Hm1. unfold IsUserInGroup, GetGroupMember.
    rewrite !load_spec by (by rewrite ?(kvu_ok _ _ _ _ Hu2)).
    by rewrite (kvu_view _ _ _ _ Hu2), lookup_insert_ne by apply chat_key_not_member.
  - intros k Hk1 Hk2. by rewrite (kvu_view _ _ _ _ Hu2), lookup_insert_ne, Hv1.
Qed.
End Messages.

Definition state1 : sample_store :=
  (dispatchPin (chat_pin "t1i0" "alice" "hi" 7) empty_store).2.
Lemma handleGroupChat_stores_witness :
  let pin := chat_pin "t2i0" "bob" "hello" 8 in
  exists s' msg, handleGroupChat pin state1
    = (Ok (Some (mkEvent "WS_SERVER_NOTIFY_GROUP_CHAT" "" "" (GroupMemberTargetIds "G" s') "G"
                   (any_of_ChatMessage msg))), s')
  /\ GetChatMessage "G" 8 "t2" s' = Ok (Some msg)
  /\ cm_PinId msg = "t2i0" /\ cm_Content msg = "hello" /\ cm_MetaId msg = "bob"
  /\ 0 <= cm_Index msg
  /\ (forall m, m ∈ conversation "G" "" state1 -> cm_Index m < cm_Index msg)
  /\ IsUserInGroup "G" "bob" s' = Ok true
  /\ (forall k, k <> chatKey "G" 8 "t2" -> k <> groupMemberKey "G" "bob" ->
        kv_view s' namespace !! k = kv_view state1 namespace !! k).
Proof.
  apply (handleGroupChat_stores state1 (chat_pin "t2i0" "bob" "hello" 8)
           (mkSimpleGroupChat "G" "" "hello" "" "" "" [])).
  - vm_compute. reflexivity.
  - vm_compute. reflexivity.
  - discriminate.
  - reflexivity.
  - intros i r Hr. rewrite (Hr eq_refl). reflexivity.
  - intros m Hm. apply Z.ltb_lt. revert m Hm. apply check_all. vm_compute. reflexivity.
Defined.

(** ** The order of messages *)

Section Order.
Context {St : Type} {KV : KVOps St} {KVS : KVStore St} {GJ : GroupChatJSON} {F : FmtV}
  {MO : MapOrder}.

(** The chat records of the store: each a message under its own key, that JSON
    represents, with a timestamp in range and a group id without [":"]. *)
Definition chats_ok (s : St) : Prop :=
  forall k v, kv_view s namespace !! k = Some v -> HasPrefix k chatPrefix = true ->
  exists m, k = chatKey (cm_GroupId m) (cm_Timestamp m) (cm_TxId m) /\ v = json_Marshal m
    /\ json_faithful m /\ 0 <= cm_Timestamp m < 2 ^ 63 /\ no_char ":" (cm_GroupId m) = true.

(** [m] is stored. *)
Definition stored (s : St) (m : ChatMessage) : Prop :=
  kv_view s namespace !! chatKey (cm_GroupId m) (cm_Timestamp m) (cm_TxId m) = Some (json_Marshal m).

Definition chat_before (a b : ChatMessage) : Prop :=
  cm_Timestamp a < cm_Timestamp b
  \/ (cm_Timestamp a = cm_Timestamp b /\ str_lt (cm_TxId a) (cm_TxId b) = true).

(** Keys of one group compare as (timestamp, transaction id). *)
Lemma chatKey_lt g t t' x x' :
  0 <= t < 2 ^ 63 -> 0 <= t' < 2 ^ 63 ->
  str_lt (chatKey g t x) (chatKey g t' x') = true <->
  t < t' \/ (t = t' /\ str_lt x x' = true).
Proof.
  intros Ht Ht'. unfold str_lt, chatKey, String.ltb.
  rewrite !compare_app_l. rewrite compare_app_eqlen by (by rewrite !fmt_019d_length by lia).
  rewrite fmt_019d_compare, compare_app_l by done.
  destruct (Z.compare_spec t t') as [->|H|H].
  - split; [by right|]. by intros [?|[_ ?]]; [lia|].
  - split; [by left|done].
  - split; [done|]. intros [?|[? _]]; lia.
Qed.

Lemma chatKeyPrefix_inv g k m :
  no_char ":" g = true -> no_char ":" (cm_GroupId m) = true ->
  k = chatKey (cm_GroupId m) (cm_Timestamp m) (cm_TxId m) ->
  HasPrefix k (chatKeyPrefix g) = true <-> cm_GroupId m = g.
Proof.
  intros Hg Hm ->. split.
  - intros H. apply HasPrefix_spec in H as [r Hr]. unfold chatKey, chatKeyPrefix in Hr.
    rewrite !sapp_assoc in Hr. apply sapp_eq_length in Hr as [_ Hr]; [|done].
    by apply sep_inj in Hr as [-> _].
  - intros <-. unfold chatKey, chatKeyPrefix. 
    rewrite <- (sapp_assoc (cm_GroupId m) ":"), HasPrefix_app_l. apply HasPrefix_app.
Qed.

Lemma chats_entry s g k v :
  kv_ok s namespace = true -> chats_ok s ->
  (k, v) ∈ prefix_entries (kv_view s namespace) (chatKeyPrefix g) ->
  exists m, k = chatKey (cm_GroupId m) (cm_Timestamp m) (cm_TxId m)
    /\ unmarshal_value (k, v) = Some m /\ v = json_Marshal m
    /\ 0 <= cm_Timestamp m < 2 ^ 63 /\ no_char ":" (cm_GroupId m) = true
    /\ kv_view s namespace !! k = Some v.
Proof.
  intros Hok Hs. rewrite elem_of_prefix_entries. intros [Hk Hp].
  assert (Hc : HasPrefix k chatPrefix = true).
  { apply (HasPrefix_trans _ _ chatPrefix) in Hp; [done|]. apply HasPrefix_app. }
  destruct (Hs k v Hk Hc) as (m & -> & -> & Hf & Ht & Hn). exists m. unfold unmarshal_value.
  simpl. by rewrite json_roundtrip.
Qed.

(** A group's message list is exactly the stored messages of that group, in
    strictly increasing order of (timestamp, transaction id): the zero-padded
    timestamp in the key makes the byte order of the scan the time order. *)
Theorem collectGroupMessages_chronological s groupId :
  kv_ok s namespace = true -> chats_ok s -> no_char ":" groupId = true ->
  StronglySorted chat_before (collectGroupMessages groupId s)
  /\ forall m, m ∈ collectGroupMessages groupId s
       <-> stored s m /\ cm_GroupId m = groupId /\ json_faithful m.
Proof.
  intros Hok Hs Hg. unfold collectGroupMessages. rewrite scan_json_ok by done. split.
  - eapply StronglySorted_omap; [|apply prefix_entries_strict].
    intros [k v] [k' v'] m m' Hx Hy Em Em' Hlt.
    assert (Hx' := Hx). assert (Hy' := Hy).
    apply elem_of_prefix_entries in Hx' as [_ Hp]. apply elem_of_prefix_entries in Hy' as [_ Hp'].
    destruct (chats_entry s _ _ _ Hok Hs Hx) as (m1 & Hk1 & E1 & _ & Ht1 & Hn1 & _).
    destruct (chats_entry s _ _ _ Hok Hs Hy) as (m2 & Hk2 & E2 & _ & Ht2 & Hn2 & _).
    rewrite Em in E1. rewrite Em' in E2. injection E1 as <-. injection E2 as <-.
    apply (chatKeyPrefix_inv groupId k m Hg Hn1 Hk1) in Hp.
    apply (chatKeyPrefix_inv groupId k' m' Hg Hn2 Hk2) in Hp'.
    cbn [fst] in Hlt. rewrite Hk1, Hk2, Hp, Hp' in Hlt. by apply chatKey_lt in Hlt.
  - intros m. rewrite list_elem_of_omap. split.
    + intros ([k v] & Hx & Em). assert (Hx' := Hx). apply elem_of_prefix_entries in Hx' as [Hk Hp].
      assert (Hc : HasPrefix k chatPrefix = true).
      { apply (HasPrefix_trans _ _ chatPrefix) in Hp; [done|]. apply HasPrefix_app. }
      destruct (Hs k v Hk Hc) as (m1 & Hk1 & -> & Hf & Ht & Hn).
      unfold unmarshal_value in Em. simpl in Em. rewrite json_roundtrip in Em by done.
      injection Em as <-. unfold stored. rewrite <- Hk1. split; [done|split; [|done]].
      by apply (chatKeyPrefix_inv groupId k m1 Hg Hn Hk1).
    + intros (Hst & Hgid & Hf). eexists (_, json_Marshal m). split.
      * apply elem_of_prefix_entries. split; [exact Hst|]. rewrite <- Hgid.
        unfold chatKey, chatKeyPrefix. rewrite <- (sapp_assoc (cm_GroupId m) ":"), HasPrefix_app_l.
        apply HasPrefix_app.
      * unfold unmarshal_value. simpl. by rewrite json_roundtrip.
Qed.
End Order.

Definition state2 : sample_store := (dispatchPin (chat_pin "t2i0" "bob" "hello" 3) state1).2.
Lemma state2_chats_ok : chats_ok state2.
Proof.
  set (m1 := match collectGroupMessages "G" state2 with m :: _ => m | [] => sample_message 0 end).
  set (m2 := match collectGroupMessages "G" state2 with _ :: m :: _ => m | _ => sample_message 0 end).
  set (key m := chatKey (cm_GroupId m) (cm_Timestamp m) (cm_TxId m)).
  assert (E : prefix_entries (kv_view state2 namespace) chatPrefix
    = [(key m1, json_Marshal m1); (key m2, json_Marshal m2)]) by (vm_compute; reflexivity).
  assert (H : forall m, m = m1 \/ m = m2 -> json_faithful m /\ 0 <= cm_Timestamp m < 2 ^ 63
                /\ no_char ":" (cm_GroupId m) = true).
  { intros m [-> | ->]; vm_compute; repeat split; discriminate || reflexivity. }
  intros k v Hk Hp.
  pose proof (proj2 (elem_of_prefix_entries _ _ _ _) (conj Hk Hp)) as Hin.
  rewrite E in Hin. apply elem_of_cons in Hin as [Hin|Hin];
    [exists m1|apply list_elem_of_singleton in Hin; exists m2];
    (split; [exact (f_equal fst Hin)|split; [exact (f_equal snd Hin)|apply H; tauto]]).
Qed.
Lemma collectGroupMessages_chronological_witness :
  StronglySorted chat_before (collectGroupMessages "G" state2)
  /\ forall m, m ∈ collectGroupMessages "G" state2
       <-> stored state2 m /\ cm_GroupId m = "G" /\ json_faithful m.
Proof. apply collectGroupMessages_chronological; [by vm_compute|apply state2_chats_ok|done]. Defined.

(** ** Membership and notification targets *)

Section Membership.
Context {St : Type} {KV : KVOps St} {KVS : KVStore St} {GJ : GroupChatJSON} {F : FmtV}
  {MO : MapOrder}.

(** [s'] differs from [s], in the namespace, only in keys for which [P] holds. *)
Definition changes_only (P : string -> Prop) (s s' : St) : Prop :=
  (forall ns, kv_ok s' ns = kv_ok s ns)
  /\ forall k, ~ P k -> kv_view s' namespace !! k = kv_view s namespace !! k.

Lemma changes_refl P s : changes_only P s s.
Proof. by split. Qed.
Lemma changes_trans P s s1 s2 : changes_only P s s1 -> changes_only P s1 s2 -> changes_only P s s2.
Proof. intros [H1 H2] [H3 H4]. split; intros; [by rewrite H3, H1|by rewrite H4, H2]. Qed.
Lemma save_changes {A} {J : JSON A} (P : string -> Prop) k (a : A) s :
  P k -> changes_only P s (save namespace k a s).2.
Proof.
  intros Hk. destruct (save_cases s namespace k a) as [->|Hu]; [apply changes_refl|].
  split; [apply (kvu_ok _ _ _ _ Hu)|]. intros k' Hk'. rewrite (kvu_view _ _ _ _ Hu).
  rewrite lookup_insert_ne; [done|]. by intros ->.
Qed.

Lemma save_aliases_ok ids groupId item s :
  kv_ok s namespace = true ->
  exists s', save_aliases ids groupId item s = (Ok tt, s')
  /\ changes_only (fun k => HasPrefix k groupJoinPrefix = true) s s'.
Proof.
  revert s. induction ids as [|identity ids IH]; intros s Hok; [exists s; by split; [|apply changes_refl]|].
  simpl. unfold hbind.
  set (k := groupJoinKey identity groupId (ji_JoinTimestamp item) (ji_JoinPinId item)).
  destruct (save_spec s namespace k item Hok) as (s1 & E1 & Hu1). rewrite E1.
  pose proof (save_changes (fun k => HasPrefix k groupJoinPrefix = true) k item s
                (HasPrefix_app _ _)) as Hc. rewrite E1 in Hc.
  destruct (IH s1) as (s' & -> & Hc'); [by rewrite (kvu_ok _ _ _ _ Hu1)|].
  exists s'. split; [done|]. by apply (changes_trans _ s s1).
Qed.
Lemma SaveJoinItem_ok groupId item s :
  kv_ok s namespace = true ->
  exists s', SaveGroupMetaIdJoinItem groupId item s = (Ok tt, s')
  /\ changes_only (fun k => HasPrefix k groupJoinPrefix = true) s s'.
Proof.
  intros Hok. unfold SaveGroupMetaIdJoinItem. destruct (is_empty groupId).
  - exists s. split; [done|apply changes_refl].
  - by apply save_aliases_ok.
Qed.

Lemma load_same {A} {J : JSON A} s s' k :
  kv_ok s namespace = true -> (forall ns, kv_ok s' ns = kv_ok s ns) ->
  kv_view s' namespace !! k = kv_view s namespace !! k ->
  load (A := A) namespace k s' = load namespace k s.
Proof. intros Hok Hk E. by rewrite !load_spec, E by (by rewrite ?Hk). Qed.

(** The state after the join record: groups and members are as before. *)
Lemma join_frame s s1 :
  kv_ok s namespace = true ->
  changes_only (fun k => HasPrefix k groupJoinPrefix = true) s s1 ->
  (forall g, GetGroup g s1 = GetGroup g s)
  /\ (forall g i, GetGroupMember g i s1 = GetGroupMember g i s).
Proof.
  intros Hok [Hk Hv]. split; intros; apply load_same; try done; apply Hv;
    unfold groupKey, groupMemberKey; by rewrite HasPrefix_clash.
Qed.

(** What is left of a group after a join or leave has moved its counter. *)
Definition count_moves (d : Z) (groupId : string) (s s' : St) : Prop :=
  forall g, GetGroup groupId s = Ok (Some g) -> g_GroupId g = groupId ->
  json_faithful (set_MemberCount (wrap64 (g_MemberCount g + d)) g) ->
  GetGroup groupId s' = Ok (Some (set_MemberCount (wrap64 (g_MemberCount g + d)) g)).

Definition joined_member (pin : PinInscription) : GroupMember :=
  mkMember (pin_author pin) (pin_GlobalMetaId pin) (pin_CreateAddress pin) "" "" false false false
    false false (pin_Timestamp pin).

Lemma member_save_then_group s pin groupId (m : GroupMember) :
  kv_ok s namespace = true -> json_faithful m ->
  exists s1, SaveGroupMember groupId (pin_author pin) m s = (Ok tt, s1)
  /\ (forall ns, kv_ok s1 ns = kv_ok s ns)
  /\ GetGroupMember groupId (pin_author pin) s1 = Ok (Some m)
  /\ (forall g, GetGroup g s1 = GetGroup g s)
  /\ (forall i, i <> pin_author pin -> GetGroupMember groupId i s1 = GetGroupMember groupId i s).
Proof.
  intros Hok Hf.
  destruct (save_spec s namespace (groupMemberKey groupId (pin_author pin)) m Hok) as (s1 & E & Hu).
  exists s1. split; [done|split; [apply (kvu_ok _ _ _ _ Hu)|split; [|split]]].
  - by apply (load_save s s1 namespace _ m Hok Hf E).
  - intros g. apply (load_save_ne s s1 namespace (groupMemberKey groupId (pin_author pin)) _ m Hok);
      [done|done].
  - intros i Hi.
    apply (load_save_ne s s1 namespace (groupMemberKey groupId (pin_author pin)) _ m Hok); [|done].
    unfold groupMemberKey. intros H. apply Hi.
    apply sapp_eq_length in H as [_ H]; [|done]. apply sapp_eq_length in H as [_ H]; [|done].
    by apply sapp_eq_length in H as [_ H].
Qed.

(** Saving a group leaves the members alone. *)
Lemma group_save_members s (g : Group) :
  kv_ok s namespace = true ->
  exists s1, SaveGroup g s = (Ok tt, s1)
  /\ (forall gid i, GetGroupMember gid i s1 = GetGroupMember gid i s)
  /\ (json_faithful g -> GetGroup (g_GroupId g) s1 = Ok (Some g)).
Proof.
  intros Hok. destruct (save_spec s namespace (groupKey (g_GroupId g)) g Hok) as (s1 & E & Hu).
  exists s1. split; [done|split].
  - intros gid i. by apply (load_save_ne s s1 namespace (groupKey (g_GroupId g)) _ g Hok).
  - intros Hf. by apply (load_save s s1 namespace _ g Hok Hf E).
Qed.

(** The last step of both branches: the counter, when the group is known. *)
Lemma move_counter s groupId d (ok : Group -> bool) :
  kv_ok s namespace = true ->
  (forall g, GetGroup groupId s = Ok (Some g) -> g_GroupId g = groupId -> ok g = true) ->
  exists b s1,
    (match value_of (GetGroup groupId s) with
     | Some g => if ok g then htry (SaveGroup (set_MemberCount (wrap64 (g_MemberCount g + d)) g))
                 else hret true
     | None => hret true
     end) s = (Ok b, s1)
  /\ (forall gid i, GetGroupMember gid i s1 = GetGroupMember gid i s)
  /\ count_moves d groupId s s1.
Proof.
  intros Hok Hg. destruct (GetGroup groupId s) as [[g|]|] eqn:E; simpl.
  - destruct (ok g) eqn:Eo.
    + destruct (group_save_members s (set_MemberCount (wrap64 (g_MemberCount g + d)) g) Hok)
        as (s1 & Es & Hm & Hf). exists true, s1. unfold htry. rewrite Es.
      split; [done|split; [done|]]. intros g' Hg' Hid Hfa. rewrite Hg' in E. injection E as ->.
      rewrite <- Hid at 1. by apply Hf.
    + exists true, s. split; [done|split; [done|]]. intros g' Hg' Hid _. rewrite Hg' in E.
      injection E as ->. rewrite (Hg g) in Eo; done.
  - exists true, s. split; [done|split; [done|]]. intros g' Hg'. congruence.
  - exists true, s. split; [done|split; [done|]]. intros g' Hg'. congruence.
Qed.

(** A join pin makes its author a member of the group, leaves every other
    member of the group as it was, adds one to the group's member count, and
    notifies with a role event. *)
Theorem handleGroupJoin_joins s pin sgj :
  kv_ok s namespace = true ->
  json_Unmarshal (pin_ContentBody pin) = Ok sgj -> sgj_GroupId sgj <> "" ->
  is_join sgj = true -> json_faithful (joined_member pin) ->
  exists s', handleGroupJoin pin s = (Ok (Some (role_event (pin_author pin) (sgj_GroupId sgj) [])), s')
  /\ IsUserInGroup (sgj_GroupId sgj) (pin_author pin) s' = Ok true
  /\ (forall i, i <> pin_author pin ->
        IsUserInGroup (sgj_GroupId sgj) i s' = IsUserInGroup (sgj_GroupId sgj) i s)
  /\ count_moves 1 (sgj_GroupId sgj) s s'.
Proof.
  intros Hok Hb Hgid Hj Hf. unfold handleGroupJoin. rewrite Hb.
  destruct (is_empty (sgj_GroupId sgj)) eqn:Eg; [by apply is_empty_spec in Eg|].
  destruct (SaveJoinItem_ok (sgj_GroupId sgj) (join_item pin sgj (is_join sgj)) s Hok)
    as (s1 & E1 & Hc1). unfold hbind at 1. rewrite E1, Hj.
  destruct (join_frame s s1 Hok Hc1) as [Hg1 Hm1].
  assert (Hok1 : kv_ok s1 namespace = true) by by rewrite (proj1 Hc1).
  destruct (member_save_then_group s1 pin (sgj_GroupId sgj) (joined_member pin) Hok1 Hf)
    as (s2 & E2 & Hok2 & Hm2 & Hg2 & Ho2).
  unfold hbind at 1. fold (joined_member pin). rewrite E2. unfold hbind at 1, hget at 1.
  destruct (move_counter s2 (sgj_GroupId sgj) 1 (fun _ => true)) as (b & s3 & E3 & Hm3 & Hc3);
    [by rewrite Hok2|done|].
  unfold hbind. cbv beta in E3. rewrite E3. exists s3. split; [done|split; [|split]].
  - unfold IsUserInGroup. by rewrite Hm3, Hm2.
  - intros i Hi. unfold IsUserInGroup. by rewrite Hm3, Ho2, Hm1.
  - intros g Hg. apply Hc3. by rewrite Hg2, Hg1.
Qed.

(** A leave pin (any state other than 1) marks the author's member record
    removed, so that the author is no longer in the group; it leaves the other
    members as they were, and takes one from a positive member count. *)
Theorem handleGroupJoin_leaves s pin sgj m :
  kv_ok s namespace = true ->
  json_Unmarshal (pin_ContentBody pin) = Ok sgj -> sgj_GroupId sgj <> "" ->
  is_join sgj = false -> GetGroupMember (sgj_GroupId sgj) (pin_author pin) s = Ok (Some m) ->
  json_faithful (mkMember (gm_MetaId m) (gm_GlobalMetaId m) (gm_Address m) (gm_UserName m)
    (gm_Avatar m) (gm_IsCreator m) (gm_IsAdmin m) (gm_IsBlocked m) (gm_IsWhitelist m) true
    (pin_Timestamp pin)) ->
  (forall g, GetGroup (sgj_GroupId sgj) s = Ok (Some g) -> 0 < g_MemberCount g < 2 ^ 63) ->
  exists s', handleGroupJoin pin s
    = (Ok (Some (role_event (pin_author pin) (sgj_GroupId sgj) [("isRemoved", ABool true)])), s')
  /\ IsUserInGroup (sgj_GroupId sgj) (pin_author pin) s' = Ok false
  /\ (forall i, i <> pin_author pin ->
        IsUserInGroup (sgj_GroupId sgj) i s' = IsUserInGroup (sgj_GroupId sgj) i s)
  /\ count_moves (-1) (sgj_GroupId sgj) s s'.
Proof.
  intros Hok Hb Hgid Hj Hmem Hf Hcnt. unfold handleGroupJoin. rewrite Hb.
  destruct (is_empty (sgj_GroupId sgj)) eqn:Eg; [by apply is_empty_spec in Eg|].
  destruct (SaveJoinItem_ok (sgj_GroupId sgj) (join_item pin sgj (is_join sgj)) s Hok)
    as (s1 & E1 & Hc1). unfold hbind at 1. rewrite E1, Hj.
  destruct (join_frame s s1 Hok Hc1) as [Hg1 Hm1].
  assert (Hok1 : kv_ok s1 namespace = true) by by rewrite (proj1 Hc1).
  unfold hbind at 1, hget at 1. rewrite Hm1, Hmem. cbn [value_of].
  destruct (member_save_then_group s1 pin (sgj_GroupId sgj) _ Hok1 Hf)
    as (s2 & E2 & Hok2 & Hm2 & Hg2 & Ho2).
  unfold hbind at 1. rewrite E2. unfold hbind at 1, hget at 1.
  destruct (move_counter s2 (sgj_GroupId sgj) (-1) (fun g => 0 <? g_MemberCount g))
    as (b & s3 & E3 & Hm3 & Hc3); [by rewrite Hok2| |].
  { intros g Hg _. rewrite Hg2, Hg1 in Hg. apply Z.ltb_lt, Hcnt, Hg. }
  assert (E3' : (match value_of (GetGroup (sgj_GroupId sgj) s2) with
     | Some g => if 0 <? g_MemberCount g
                 then htry (SaveGroup (set_MemberCount (g_MemberCount g - 1) g)) else hret true
     | None => hret true
     end) s2 = (Ok b, s3)).
  { rewrite <- E3. rewrite Hg2, Hg1. destruct (GetGroup (sgj_GroupId sgj) s) as [[g|]|] eqn:E;
      [|done..]. cbn [value_of]. specialize (Hcnt g eq_refl).
    rewrite wrap64_id by (unfold in_i64; lia). done. }
  unfold hbind. rewrite E3'. exists s3. split; [done|split; [|split]].
  - unfold IsUserInGroup. by rewrite Hm3, Hm2.
  - intros i Hi. unfold IsUserInGroup. by rewrite Hm3, Ho2, Hm1.
  - intros g Hg. apply Hc3. by rewrite Hg2, Hg1.
Qed.

(** *** The alias list *)

(** The list holds trimmed, non-empty ids, no two equal up to case, and the set
    is that of their lower-case forms. *)
Definition aliases_wf (st : list string * gset string) : Prop :=
  NoDup (map ToLower st.1) /\ (forall k, k ∈ st.2 <-> k ∈ map ToLower st.1)
  /\ Forall (fun id => id <> "") st.1.

Lemma addIdentityAlias_spec st v :
  aliases_wf st ->
  aliases_wf (addIdentityAlias st v)
  /\ (forall id, id ∈ (addIdentityAlias st v).1 -> id ∈ st.1 \/ id = TrimSpace v)
  /\ (TrimSpace v <> "" -> ToLower (TrimSpace v) ∈ map ToLower (addIdentityAlias st v).1)
  /\ (forall k, k ∈ map ToLower st.1 -> k ∈ map ToLower (addIdentityAlias st v).1).
Proof.
  intros (Hn & Hs & Hf). unfold addIdentityAlias.
  destruct (is_empty (TrimSpace v)) eqn:Ee.
  { apply is_empty_spec in Ee. split_and!; auto; [by split_and!|done]. }
  assert (Hne : TrimSpace v <> "") by (intros E; by rewrite E in Ee).
  destruct (bool_decide_reflect (ToLower (TrimSpace v) ∈ st.2)) as [Hin|Hnin].
  { apply Hs in Hin. split_and!; auto; by split_and!. }
  cbn [fst snd]. split_and!.
  - split_and!; cbn [fst snd].
    + rewrite map_app. apply NoDup_app. split_and!; [done| |].
      * intros k Hk Hk'. apply list_elem_of_singleton in Hk' as ->. by apply Hnin, Hs.
      * apply NoDup_singleton.
    + intros k. rewrite map_app, elem_of_app, elem_of_union, elem_of_singleton, Hs.
      rewrite (list_elem_of_singleton k (ToLower (TrimSpace v))). tauto.
    + apply Forall_app. split; [done|by repeat constructor].
  - intros id [?|Hid]%elem_of_app; [by left|right]. by apply list_elem_of_singleton in Hid.
  - intros _. rewrite map_app, elem_of_app. right. apply list_elem_of_singleton. done.
  - intros k Hk. rewrite map_app, elem_of_app. by left.
Qed.

Lemma add_aliases_spec vs st :
  aliases_wf st ->
  aliases_wf (add_aliases vs st)
  /\ (forall id, id ∈ (add_aliases vs st).1 -> id ∈ st.1 \/ exists v, v ∈ vs /\ id = TrimSpace v)
  /\ (forall v, v ∈ vs -> TrimSpace v <> "" ->
        ToLower (TrimSpace v) ∈ map ToLower (add_aliases vs st).1)
  /\ (forall k, k ∈ map ToLower st.1 -> k ∈ map ToLower (add_aliases vs st).1).
Proof.
  unfold add_aliases. revert st. induction vs as [|v vs IH]; intros st Hst; simpl.
  { split_and!; auto. intros v Hv. by apply not_elem_of_nil in Hv. }
  destruct (addIdentityAlias_spec st v Hst) as (H1 & H2 & H3 & H4).
  destruct (IH _ H1) as (I1 & I2 & I3 & I4). split_and!; [done|..].
  - intros id Hid. apply I2 in Hid as [Hid|(w & Hw & ->)].
    + apply H2 in Hid as [?| ->]; [by left|right]. exists v. split; [left|done].
    + right. exists w. split; [by right|done].
  - intros w [->|Hw]%elem_of_cons Hne; auto.
  - auto.
Qed.

Definition target_fold (st : list string * gset string) (member : GroupMember) :=
  if gm_IsRemoved member then st
  else add_aliases [gm_MetaId member; gm_GlobalMetaId member; gm_Address member] st.

Lemma targets_spec ms st :
  aliases_wf st ->
  aliases_wf (foldl target_fold st ms)
  /\ (forall id, id ∈ (foldl target_fold st ms).1 -> id ∈ st.1 \/ exists m, m ∈ ms
        /\ gm_IsRemoved m = false
        /\ exists v, v ∈ [gm_MetaId m; gm_GlobalMetaId m; gm_Address m] /\ id = TrimSpace v)
  /\ (forall m v, m ∈ ms -> gm_IsRemoved m = false ->
        v ∈ [gm_MetaId m; gm_GlobalMetaId m; gm_Address m] -> TrimSpace v <> "" ->
        ToLower (TrimSpace v) ∈ map ToLower (foldl target_fold st ms).1)
  /\ (forall k, k ∈ map ToLower st.1 -> k ∈ map ToLower (foldl target_fold st ms).1).
Proof.
  revert st. induction ms as [|m ms IH]; intros st Hst; cbn [foldl].
  { split_and!; auto. intros m v Hm. by apply not_elem_of_nil in Hm. }
  unfold target_fold at 2 4 6 8. destruct (gm_IsRemoved m) eqn:Er.
  - destruct (IH st Hst) as (I1 & I2 & I3 & I4). split_and!; auto.
    + intros id Hid. apply I2 in Hid as [?|(m' & Hm' & Hr)]; [by left|right].
      exists m'. split; [by right|done].
    + intros m' v [->|Hm']%elem_of_cons Hr; [congruence|]. eauto.
  - destruct (add_aliases_spec [gm_MetaId m; gm_GlobalMetaId m; gm_Address m] st Hst)
      as (H1 & H2 & H3 & H4).
    destruct (IH _ H1) as (I1 & I2 & I3 & I4). split_and!; auto.
    + intros id Hid. apply I2 in Hid as [Hid|(m' & Hm' & Hr)].
      * apply H2 in Hid as [?|Hv]; [by left|right]. exists m. split; [left|done].
      * right. exists m'. split; [by right|done].
    + intros m' v [->|Hm']%elem_of_cons Hr Hv Hne; eauto.
Qed.

(** The targets of a group message are exactly the trimmed, non-empty ids
    (MetaId, GlobalMetaId, address) of the members that are not removed, each
    once up to letter case. *)
Theorem GroupMemberTargetIds_exact groupId s :
  let ids := GroupMemberTargetIds groupId s in
  let members := scan_json (A := GroupMember) namespace (groupMemberPrefix +:+ groupId +:+ ":") s in
  let id_of m v := m ∈ members /\ gm_IsRemoved m = false
    /\ v ∈ [gm_MetaId m; gm_GlobalMetaId m; gm_Address m] /\ TrimSpace v <> "" in
  NoDup (map ToLower ids)
  /\ (forall id, id ∈ ids -> exists m v, id_of m v /\ id = TrimSpace v)
  /\ (forall m v, id_of m v -> ToLower (TrimSpace v) ∈ map ToLower ids).
Proof.
  cbv zeta. unfold GroupMemberTargetIds.
  assert (H0 : aliases_wf ([], ∅)).
  { split_and!; [constructor| |constructor]. intros k. set_solver. }
  destruct (targets_spec (scan_json (A := GroupMember) namespace
    (groupMemberPrefix +:+ groupId +:+ ":") s) ([], ∅) H0) as ((Hn & _ & Hf) & H2 & H3 & _).
  unfold target_fold in *. split_and!; [done| |].
  - intros id Hid. rewrite Forall_forall in Hf. specialize (Hf id Hid).
    apply H2 in Hid as [Hid|(m & Hm & Hr & v & Hv & ->)]; [by apply not_elem_of_nil in Hid|].
    exists m, v. done.
  - intros m v (Hm & Hr & Hv & Hne). by apply (H3 m v).
Qed.
End Membership.

(** ** Witnesses and findings on concrete states *)

(** A group "G" created by "carol", as [handleGroupCreate] stores it. *)
Definition group_store : sample_store :=
  (hbind (SaveGroup (mkGroup "G" "" "" "room" "" "" "" "" "" "" "" 1 "" "" 1 "" 0))
     (fun _ => SaveGroupMember "G" "carol"
                 (mkMember "carol" "g-carol" "addr-carol" "" "" false false false false false 1))
     empty_store).2.

Lemma handleGroupJoin_joins_witness :
  exists s', handleGroupJoin (join_pin "j1i0" "alice" 1 5) group_store
    = (Ok (Some (role_event "alice" "G" [])), s')
  /\ IsUserInGroup "G" "alice" s' = Ok true
  /\ (forall i, i <> "alice" -> IsUserInGroup "G" i s' = IsUserInGroup "G" i group_store)
  /\ count_moves 1 "G" group_store s'.
Proof.
  apply (handleGroupJoin_joins group_store (join_pin "j1i0" "alice" 1 5)
           (mkSimpleGroupJoin "G" "" (AFloat 1 0) "")); by vm_compute.
Defined.

Lemma handleGroupJoin_leaves_witness :
  exists s', handleGroupJoin (join_pin "j2i0" "carol" (-1) 6) group_store
    = (Ok (Some (role_event "carol" "G" [("isRemoved", ABool true)])), s')
  /\ IsUserInGroup "G" "carol" s' = Ok false
  /\ (forall i, i <> "carol" -> IsUserInGroup "G" i s' = IsUserInGroup "G" i group_store)
  /\ count_moves (-1) "G" group_store s'.
Proof.
  apply (handleGroupJoin_leaves group_store (join_pin "j2i0" "carol" (-1) 6)
           (mkSimpleGroupJoin "G" "" (AFloat (-1) 0) "")
           (mkMember "carol" "g-carol" "addr-carol" "" "" false false false false false 1));
    [by vm_compute..|].
  - assert (E : GetGroup "G" group_store
      = Ok (Some (mkGroup "G" "" "" "room" "" "" "" "" "" "" "" 1 "" "" 1 "" 0))) by by vm_compute.
    cbn [sgj_GroupId]. rewrite E. intros g [= <-]. simpl. lia.
Defined.

(** The indexer delivers a pin from the mempool and again from its block.  The
    second delivery of a join counts the member again ... *)
Lemma join_redelivery_counts_twice :
  let pin := join_pin "j1i0" "alice" 1 5 in
  let m1 := (HandleMempoolPin pin (mkModule group_store [])).2 in
  let m2 := (HandleBlockPin pin m1).2 in
  match GetGroup "G" (md_store m1), GetGroup "G" (md_store m2) with
  | Ok (Some g1), Ok (Some g2) => g_MemberCount g1 = 2 /\ g_MemberCount g2 = 3
  | _, _ => False
  end.
Proof. vm_compute. split; reflexivity. Qed.

(** ... and the second delivery of a message moves it to a new index, leaving a
    gap: the index of the only message of the conversation is 1. *)
Lemma message_redelivery_reindexes :
  let pin := chat_pin "t1i0" "alice" "hi" 7 in
  let m1 := (HandleMempoolPin pin (mkModule empty_store [])).2 in
  let m2 := (HandleBlockPin pin m1).2 in
  map cm_Index (collectGroupMessages "G" (md_store m1)) = [0]
  /\ map cm_Index (collectGroupMessages "G" (md_store m2)) = [1].
Proof. vm_compute. split; reflexivity. Qed.

(** A group id taken from a body may contain [":"], and then its messages are
    listed in the group whose id is the part before it. *)
Lemma colon_group_leaks :
  let pin := sample_pin "/protocols/simplegroupchat"
    (json_Marshal (mkSimpleGroupChat "G:x" "" "leak" "" "" "" [])) "t3i0" "mallory" 9 in
  map cm_Content (collectGroupRootMessages "G" (dispatchPin pin empty_store).2) = ["leak"].
Proof. vm_compute. reflexivity. Qed.

(** A pin id of the [txId:iN] form of the comment keeps its colon. *)
Lemma extractTxId_keeps_colon : extractTxId "abc:i0" = "abc:" /\ extractTxId "abci0" = "abc".
Proof. split; reflexivity. Qed.

Lemma GroupMemberTargetIds_exact_witness :
  let ids := GroupMemberTargetIds "G" group_store in
  let members :=
    scan_json (A := GroupMember) namespace (groupMemberPrefix +:+ "G" +:+ ":") group_store in
  let id_of m v := m ∈ members /\ gm_IsRemoved m = false
    /\ v ∈ [gm_MetaId m; gm_GlobalMetaId m; gm_Address m] /\ TrimSpace v <> "" in
  ids = ["carol"; "g-carol"; "addr-carol"] /\ NoDup (map ToLower ids)
  /\ (forall id, id ∈ ids -> exists m v, id_of m v /\ id = TrimSpace v)
  /\ (forall m v, id_of m v -> ToLower (TrimSpace v) ∈ map ToLower ids).
Proof. split; [by vm_compute|]. apply GroupMemberTargetIds_exact. Defined.
