(* ===== verification/GroupChatApi.v ===== *)
(** * GroupChatApi: the HTTP endpoints of group chats

    [internal/aggregator/groupchat/api.go] over the queries of [GroupChat].  The
    endpoints only read.  A client that follows the cursors gets every message of a
    group, or of a channel, once, and one that walks by index in steps gets them in
    the order of their indices. *)

From S2P Require Import Prelude GoText Json Storage Aggregator HttpApi Paging GroupChat GroupChatFacts.

(** The data of an answer: the objects the handlers write. *)
Inductive body :=
| Items (items : list Community)
| OneCommunity (community : Community)
| OneGroup (dto : list (string * any))
| IsInGroup (b : bool)
| Role (isCreator isAdmin isBlocked isWhitelist isRemoved : bool)
| Members (admins blockList : list GroupMember) (creator : string) (list_ : list GroupMember) (total : Z)
    (whiteList : list GroupMember)
| FoundMembers (total : Z) (list_ : list GroupMember)
| Groups (list_ : list (list (string * any))) (nextCursor : string) (total : Z)
| JoinControl (control : GroupJoinControlList)
| Chats (result : ChatListResult)
| ChatsByIndex (result : ChatListByIndexResult)
| LatestChats (total : Z) (list_ : list UserLatestChatInfo)
| Objects (total : Z) (list_ : list (list (string * any)))
| Channels (total : Z) (list_ : list GroupChannel)
| Joins (metaId : string) (items : list (list (string * any)))
| NoBody.
Definition len {A} (l : list A) : Z := Z.of_nat (length l).

Section Api.
Context {St : Type} {KV : KVOps St} {GJ : GroupChatJSON} {F : FmtV} {MO : MapOrder}.
Variable s : St.

Definition handleCommunityList (q : Values) : response body :=
  let page := ParseInt (DefaultQuery q "page" "1") in
  let pageSize := ParseInt (DefaultQuery q "pageSize" "20") in
  let page := if page <? 1 then 1 else page in
  resp_or (ListCommunities page (size_or 20 pageSize) s) "failed to list communities" (fun r => RespSuccess (Items r.1)).
Definition handleCommunityDetail (communityId : string) : response body :=
  if is_empty communityId then resp_err 1 "communityId is required" else
  resp_or (GetCommunity communityId s) "failed to get community" (fun community =>
    match community with
    | None => resp_err 1 "community not found"
    | Some community => RespSuccess (OneCommunity community)
    end).

Definition handleGroupInfo (q : Values) : response body :=
  let groupId := Query q "groupId" in
  if is_empty groupId then resp_err 1 "groupId is required" else
  resp_or (GetGroup groupId s) "failed to get group" (fun group =>
    match group with
    | None => resp_err 1 "group not found"
    | Some group => RespSuccess (OneGroup (groupCompatDTO group s))
    end).
Definition handleGroupPerson (q : Values) : response body :=
  let metaId := Query q "metaId" in
  let groupId := Query q "groupId" in
  if is_empty metaId || is_empty groupId then resp_err 1 "metaId and groupId are required" else
  resp_or (IsUserInGroup groupId metaId s) "failed to check group membership" (fun b => RespSuccess (IsInGroup b)).
Definition handleGroupUserRole (q : Values) : response body :=
  let groupId := Query q "groupId" in
  let metaId := Query q "metaId" in
  if is_empty groupId || is_empty metaId then resp_err 1 "groupId and metaId are required" else
  resp_or (GetGroupUserRole groupId metaId s) "failed to get user role" (fun role =>
    match role with
    | None => RespSuccess (Role false false false false false)
    | Some r => RespSuccess (Role (gr_IsCreator r) (gr_IsAdmin r) (gr_IsBlocked r) (gr_IsWhitelist r) (gr_IsRemoved r))
    end).
Definition handleGroupMemberList (q : Values) : response body :=
  let groupId := Query q "groupId" in
  if is_empty groupId then resp_err 1 "groupId is required" else
  resp_or (GetGroupMemberList groupId (Query q "cursor") (page_size q "size" "20") s) "failed to get member list"
    (fun r =>
      let members := r.1 in
      let creator := match GetGroup groupId s with Ok (Some group) => g_CreatorMetaId group | _ => "" end in
      RespSuccess (Members (List.filter gm_IsAdmin members) (List.filter gm_IsBlocked members) creator members
                     (len members) (List.filter gm_IsWhitelist members))).
Definition handleSearchGroupMembers (q : Values) : response body :=
  let groupId := Query q "groupId" in
  let query := Query q "query" in
  if is_empty groupId || is_empty query then resp_err 1 "groupId and query are required" else
  resp_or (SearchGroupMembers groupId query (page_size q "size" "20") s) "failed to search members"
    (fun members => RespSuccess (FoundMembers (len members) members)).
(** A cursor that decodes to a negative index panics. *)
Definition handleGroupList (q : Values) : res (response body) :=
  match GetGroupList (Query q "metaId") (Query q "cursor") (page_size q "size" "20") s with
  | Ok (groups, nextCursor, total) => Ok (RespSuccess (Groups (groupCompatDTOs groups s) nextCursor total))
  | Err e => if HasPrefix e "panic:" then Err e else Ok (resp_err 1 "failed to get group list")
  end.
Definition handleGroupJoinControlList (q : Values) : response body :=
  let groupId := Query q "groupId" in
  if is_empty groupId then resp_err 1 "groupId is required" else
  RespSuccess (JoinControl (GetGroupJoinControlList groupId s)).

(** *** Messages *)

Definition handleGroupChatListV2 (q : Values) : response body :=
  let groupId := Query q "groupId" in
  if is_empty groupId then resp_err 1 "groupId is required" else
  RespSuccess (Chats (GetChatListV2BeforeTimestamp groupId (Query q "cursor") (page_size q "size" "20")
                        (ParseInt (DefaultQuery q "timestamp" "0")) s)).
Definition handleGroupChatList := handleGroupChatListV2.
Definition handleGroupChatListV3 := handleGroupChatListV2.
Definition handleGroupChatListByIndex (q : Values) : response body :=
  let groupId := Query q "groupId" in
  if is_empty groupId then resp_err 1 "groupId is required" else
  RespSuccess (ChatsByIndex (GetChatListByIndexCompat groupId (ParseInt (DefaultQuery q "startIndex" "0"))
                               (page_size q "size" "20") s)).
Definition handleChannelChatListV3 (q : Values) : response body :=
  let channelId := Query q "channelId" in
  if is_empty channelId then resp_err 1 "channelId is required" else
  RespSuccess (Chats (GetChannelChatListV3 (Query q "groupId") channelId (Query q "cursor") (page_size q "size" "20")
                        (ParseInt (DefaultQuery q "timestamp" "0")) s)).
Definition handleChannelChatListByIndex (q : Values) : response body :=
  let channelId := Query q "channelId" in
  if is_empty channelId then resp_err 1 "channelId is required" else
  RespSuccess (ChatsByIndex (GetChannelChatListByIndex (Query q "groupId") channelId
                               (ParseInt (DefaultQuery q "startIndex" "0")) (page_size q "size" "20") s)).
Definition handleUserLatestChatInfoList (q : Values) : response body :=
  let metaId := Query q "metaId" in
  if is_empty metaId then resp_err 1 "metaId is required" else
  let infos := GetUserLatestChatInfoList metaId s in RespSuccess (LatestChats (len infos) infos).

(** *** Search and lists *)

Definition handleSearchUsers (q : Values) : response body :=
  let query := Query q "query" in
  if is_empty query then resp_err 1 "query is required" else
  let users := SearchUsers query (page_size q "size" "50") s in RespSuccess (Objects (len users) users).
Definition handleSearchGroupsAndUsers (q : Values) : response body :=
  let query := Query q "query" in
  if is_empty query then resp_err 1 "query is required" else
  let results := SearchGroupsAndUsers query (page_size q "size" "20") s in RespSuccess (Objects (len results) results).
Definition handleGroupChannelList (q : Values) : response body :=
  let groupId := Query q "groupId" in
  if is_empty groupId then resp_err 1 "groupId is required" else
  resp_or (GetGroupChannelList groupId s) "failed to get group channel list"
    (fun channels => RespSuccess (Channels (len channels) channels)).
Definition handleGroupMetaIdJoinList (q : Values) : response body :=
  let metaId := Query q "metaId" in
  let metaId := if is_empty metaId then Query q "globalMetaId" else metaId in
  resp_or (GetGroupMetaIdJoinList (Query q "groupId") metaId s) "failed to get group metaid join list"
    (fun items => RespSuccess (Joins metaId items)).
Definition handleStub : response body := RespSuccess NoBody.

(** ** Routes *)

Inductive endpoint :=
| CommunityList | CommunityDetail | Stub | GroupInfo | GroupPerson | GroupUserRole | GroupMemberList_
| SearchMembers | GroupList | JoinControlList | ChannelList | MetaIdJoinList | ChatList | ChatListV2 | ChatListV3
| ChatListByIndex | LatestChatInfoList | ChannelChatListV3 | ChannelChatListByIndex | SearchUsers_ | SearchGroupsAndUsers_.
(** The routes under the prefix of a router; every one is a GET. *)
Definition registerRoutes : list (string * endpoint) :=
  map (fun r => ("/group-chat" +:+ r.1, r.2))
    [("/community/list", CommunityList); ("/community/:communityId", CommunityDetail);
     ("/community/:communityId/auth/info", Stub); ("/community/auths/:metaId", Stub);
     ("/community/metaname/:address", Stub); ("/community/ens/:address", Stub);
     ("/community/:communityId/person/info", Stub); ("/community/:communityId/persons", Stub);
     ("/community/:communityId/announcements", Stub);
     ("/group-info", GroupInfo); ("/group-person", GroupPerson); ("/group-user-role", GroupUserRole);
     ("/group-member-list", GroupMemberList_); ("/search-group-members", SearchMembers); ("/group-list", GroupList);
     ("/group-join-control-list", JoinControlList); ("/group-channel-list", ChannelList);
     ("/group-metaid-join-list", MetaIdJoinList);
     ("/group-chat-list", ChatList); ("/group-chat-list-v2", ChatListV2); ("/group-chat-list-v3", ChatListV3);
     ("/group-chat-list-by-index", ChatListByIndex); ("/user/latest-chat-info-list", LatestChatInfoList);
     ("/channel-chat-list-v3", ChannelChatListV3); ("/channel-chat-list-by-index", ChannelChatListByIndex);
     ("/search-users", SearchUsers_); ("/search-groups-and-users", SearchGroupsAndUsers_)].
(** [param] is the value of the path's parameter. *)
Definition serve (e : endpoint) (param : string) (q : Values) : res (response body) :=
  match e with
  | GroupList => handleGroupList q
  | CommunityList => Ok (handleCommunityList q)
  | CommunityDetail => Ok (handleCommunityDetail param)
  | Stub => Ok handleStub
  | GroupInfo => Ok (handleGroupInfo q)
  | GroupPerson => Ok (handleGroupPerson q)
  | GroupUserRole => Ok (handleGroupUserRole q)
  | GroupMemberList_ => Ok (handleGroupMemberList q)
  | SearchMembers => Ok (handleSearchGroupMembers q)
  | JoinControlList => Ok (handleGroupJoinControlList q)
  | ChannelList => Ok (handleGroupChannelList q)
  | MetaIdJoinList => Ok (handleGroupMetaIdJoinList q)
  | ChatList => Ok (handleGroupChatList q)
  | ChatListV2 => Ok (handleGroupChatListV2 q)
  | ChatListV3 => Ok (handleGroupChatListV3 q)
  | ChatListByIndex => Ok (handleGroupChatListByIndex q)
  | LatestChatInfoList => Ok (handleUserLatestChatInfoList q)
  | ChannelChatListV3 => Ok (handleChannelChatListV3 q)
  | ChannelChatListByIndex => Ok (handleChannelChatListByIndex q)
  | SearchUsers_ => Ok (handleSearchUsers q)
  | SearchGroupsAndUsers_ => Ok (handleSearchGroupsAndUsers q)
  end.
End Api.

(** ** A client that reads the history *)

Section Client.
Context {St : Type} {KV : KVOps St} {KVS : KVStore St} {GJ : GroupChatJSON} {F : FmtV} {MO : MapOrder}.

(** The page that [e] answers for the query with the cursor replaced. *)
Definition chat_page (s : St) (e : endpoint) (q : Values) (cursor : string) : list ChatMessage * string :=
  match serve s e "" (<["cursor" := [cursor]]> q) with
  | Ok (RespSuccess (Chats r)) => (cl_List r, cl_NextCursor r)
  | _ => ([], "")
  end.
Definition history (s : St) (e : endpoint) (q : Values) (fuel : nat) : option (list ChatMessage) :=
  Paging.walk (chat_page s e q) fuel "".

(** [e] lists the messages of the channel of the group that the query names; the
    root of the group is the empty channel. *)
Definition asks_for (e : endpoint) (q : Values) (groupId channelId : string) : Prop :=
  Query q "groupId" = groupId
  /\ ((e = ChatList \/ e = ChatListV2 \/ e = ChatListV3) /\ channelId = ""
      \/ e = ChannelChatListV3 /\ Query q "channelId" = channelId /\ channelId <> "").
(** [timestamp] is the bound of the query; without one there is no bound. *)
Definition before (q : Values) (m : ChatMessage) : Prop :=
  let timestamp := ParseInt (Query q "timestamp") in 0 < timestamp -> cm_Timestamp m < timestamp.
Definition asked (s : St) (q : Values) (groupId channelId : string) : list ChatMessage :=
  filterMessagesBeforeTimestamp (filterMessagesByChannel (collectGroupMessages groupId s) channelId)
    (ParseInt (Query q "timestamp")).

Lemma Query_cursor (q : Values) c k d : k <> "cursor" -> DefaultQuery (<["cursor" := [c]]> q) k d = DefaultQuery q k d.
Proof. intros Hk. unfold DefaultQuery. by rewrite lookup_insert_ne. Qed.
Lemma Query_own_cursor (q : Values) c : Query (<["cursor" := [c]]> q) "cursor" = c.
Proof. unfold Query, DefaultQuery. by rewrite lookup_insert_eq. Qed.
(** An absent number is zero, whichever way the fallback says so. *)
Lemma ParseInt_default q k : ParseInt (DefaultQuery q k "0") = ParseInt (Query q k).
Proof. unfold Query, DefaultQuery. by destruct (q !! k) as [[|v l]|]. Qed.
Lemma page_size_range q k : 1 <= page_size q k "20" <= 100.
Proof. apply size_or_range. change (ParseInt "20") with 20. lia. Qed.

Lemma chat_page_eq s e q g ch c :
  asks_for e q g ch -> g <> "" ->
  chat_page s e q c = page_of cm_Timestamp (asked s q g ch) (page_size q "size" "20") c.
Proof.
  intros [Hg He] Hne. unfold chat_page.
  assert (Hg' : is_empty g = false) by (destruct g; done).
  assert (Hroot : forall m, is_empty (cm_ChannelId m) = String.eqb (cm_ChannelId m) "").
  { intros m. by destruct (cm_ChannelId m). }
  destruct He as [[He ->]|(-> & Hch & Hc)].
  - assert (serve s e "" (<["cursor":=[c]]> q) = Ok (handleGroupChatListV2 s (<["cursor":=[c]]> q))) as ->.
    { by destruct He as [-> | [-> | ->]]. }
    unfold handleGroupChatListV2. rewrite Query_own_cursor, ParseInt_default. unfold page_size, Query.
    rewrite !Query_cursor by done. fold (Query q "groupId"). rewrite Hg, Hg'. cbn [cl_List cl_NextCursor].
    unfold GetChatListV2BeforeTimestamp, paginateMessagesDesc, page_of, asked, collectGroupRootMessages,
      filterMessagesByChannel. cbn [cl_List cl_NextCursor].
    by rewrite (filter_ext _ _ Hroot).
  - unfold serve, handleChannelChatListV3. rewrite Query_own_cursor, ParseInt_default. unfold page_size, Query.
    rewrite !Query_cursor by done. fold (Query q "groupId") (Query q "channelId"). rewrite Hg, Hch.
    assert (is_empty ch = false) as -> by (destruct ch; done).
    unfold GetChannelChatListV3, paginateMessagesDesc, page_of, asked, collectChannelMessages. by rewrite Hg'.
Qed.

Lemma walk_ext {A} (p p' : string -> list A * string) fuel c :
  (forall c, p c = p' c) -> Paging.walk p fuel c = Paging.walk p' fuel c.
Proof.
  intros H. revert c. induction fuel as [|fuel IH]; intros c; [done|]. cbn [Paging.walk]. rewrite H.
  destruct (p' c) as [l next]. by rewrite IH.
Qed.

Lemma asked_length s q g ch : (length (asked s q g ch) <= length (collectGroupMessages g s))%nat.
Proof.
  assert (Hf : forall (f : ChatMessage -> bool) l, (length (List.filter f l) <= length l)%nat).
  { intros f l. apply filter_length_le. }
  unfold asked, filterMessagesBeforeTimestamp, filterMessagesByChannel. case_match; [apply Hf|].
  etransitivity; apply Hf.
Qed.
Lemma asked_spec s q g ch :
  kv_ok s namespace = true -> chats_ok s -> no_char ":" g = true ->
  StronglySorted chat_before (asked s q g ch)
  /\ forall m, m ∈ asked s q g ch
       <-> stored s m /\ json_faithful m /\ cm_GroupId m = g /\ cm_ChannelId m = ch /\ before q m.
Proof.
  intros Hok Hs Hg. destruct (collectGroupMessages_chronological s g Hok Hs Hg) as [Hsort Hin].
  unfold asked, filterMessagesBeforeTimestamp, filterMessagesByChannel, before. cbv zeta.
  set (t := ParseInt _). destruct (Z.leb_spec t 0) as [Ht|Ht].
  - split; [by apply StronglySorted_filter|]. intros m. rewrite elem_of_List_filter, Hin, String.eqb_eq.
    split; [intros [(?&?&?) ?]; repeat split; auto; lia|by intros (?&?&?&?&?)].
  - split; [by do 2 apply StronglySorted_filter|]. intros m.
    rewrite !elem_of_List_filter, Hin, String.eqb_eq, Z.ltb_lt.
    split; [by intros [[(?&?&?) ?] ?]|]. intros (?&?&?&?&Hb). by specialize (Hb Ht).
Qed.

(** C37: A client that asks a chat list endpoint again and again, each time with the cursor
    of the answer before, ends after at most one request more than there are
    messages, and has then every stored message of the channel (or of the root of the
    group) that is older than the bound of its query, each once and newest first;
    whatever the query says of the size of a page. *)
Theorem history_over_http s e q g ch :
  kv_ok s namespace = true -> chats_ok s -> no_char ":" g = true -> g <> "" ->
  Z.of_nat (length (collectGroupMessages g s)) < 2 ^ 62 -> asks_for e q g ch ->
  exists all, history s e q (S (length all)) = Some all
    /\ StronglySorted (flip chat_before) all
    /\ forall m, m ∈ all <-> stored s m /\ json_faithful m /\ cm_GroupId m = g /\ cm_ChannelId m = ch /\ before q m.
Proof.
  intros Hok Hs Hg Hne Hlen He. destruct (asked_spec s q g ch Hok Hs Hg) as [Hsort Hin].
  exists (reverse (asked s q g ch)). split; [|split; [by apply StronglySorted_reverse|]].
  - unfold history. rewrite (walk_ext _ _ _ _ (fun c => chat_page_eq s e q g ch c He Hne)), length_reverse.
    pose proof (page_size_range q "size"). pose proof (asked_length s q g ch). apply walk_complete; lia.
  - intros m. by rewrite elem_of_reverse.
Qed.
End Client.

#[local] Existing Instance sample_ops_inst.
#[local] Existing Instance sample_store_inst.
#[local] Existing Instance sample_JSON.
#[local] Existing Instance sample_fmt.
#[local] Existing Instance some_order.

Lemma history_over_http_witness :
  exists all, history state2 ChatListV3 {["groupId" := ["G"]; "size" := ["1"]]} (S (length all)) = Some all
    /\ StronglySorted (flip chat_before) all
    /\ forall m, m ∈ all <-> stored state2 m /\ json_faithful m /\ cm_GroupId m = "G" /\ cm_ChannelId m = ""
                             /\ before {["groupId" := ["G"]; "size" := ["1"]]} m.
Proof.
  apply history_over_http; [by vm_compute|apply state2_chats_ok|done|done|by vm_compute|].
  split; [done|]. left. split; [by right; right|done].
Defined.
Example state2_history :
  map cm_Content <$> history state2 ChatListV3 {["groupId" := ["G"]; "size" := ["1"]]} 3 = Some ["hi"; "hello"].
Proof. vm_compute. reflexivity. Qed.
