(* ===== verification/PrivateChat.v ===== *)
(** * PrivateChat: messages between two users ([internal/aggregator/privatechat])

    db.go, identity.go, process.go, module.go and userinfo_adapter.go: keys that do not
    depend on the direction, message indices, lists by cursor and by index, homes and
    paths, and the pin handlers.  Identity lookups are the interface [ProfileLookup]:
    they may change the state, so the operations that collect aliases thread it.
    [log.Printf] is dropped. *)

From S2P Require Import Prelude GoText Json Aliases Storage Aggregator Cache UserInfo Paging.

(** The [interface{}] fields hold JSON values. *)
Record PrivateMessage := mkPrivateMessage {
  pm_FromGlobalMetaId : string;
  pm_From : string;
  pm_FromAddress : string;
  pm_FromUserInfo : any;
  pm_ToGlobalMetaId : string;
  pm_To : string;
  pm_ToAddress : string;
  pm_ToUserInfo : any;
  pm_TxId : string;
  pm_PinId : string;
  pm_Protocol : string;
  pm_Content : string;
  pm_ContentType : string;
  pm_Encryption : string;
  pm_Timestamp : Z;
  pm_Chain : string;
  pm_BlockHeight : Z;
  pm_Index : Z }.
Record PrivateChatListResult := mkPrivateList {
  pl_Total : Z;
  pl_NextCursor : string;
  pl_NextTimestamp : Z;
  pl_List : list PrivateMessage }.
Record PrivateChatHome := mkHome {
  ph_MetaId : string;
  ph_GlobalMetaId : string;
  ph_LastMessage : PrivateMessage }.
Record PrivateGroupPath := mkPath { pp_Path : string; pp_GroupId : string; pp_PinId : string }.
Record SimpleMsg := mkSimpleMsg {
  sm_From : string;
  sm_To : string;
  sm_Content : string;
  sm_ContentType : string;
  sm_Encrypt : string;
  sm_EncryptAlias : string;
  sm_ReplyPin : string;
  sm_Mention : list string }.
Record SimplePrivateBlock := mkSimplePrivateBlock { spb_To : string; spb_BlockState : any }.

Class PrivateChatJSON := {
  json_PrivateMessage :: JSON PrivateMessage;
  json_SimpleMsg :: JSON SimpleMsg;
  json_SimplePrivateBlock :: JSON SimplePrivateBlock;
  any_of_PrivateMessage : PrivateMessage -> any }.

(** ** Keys *)

Definition privatechat_ns : string := "privatechat".
Definition pchatKeyConst : string := "pchat:".
Definition sortMetas (a b : string) : string * string := if str_lt a b then (a, b) else (b, a).
Definition pchatPrefix (metaId1 metaId2 : string) : string :=
  let '(lo, hi) := sortMetas metaId1 metaId2 in pchatKeyConst +:+ lo +:+ ":" +:+ hi +:+ ":".
Definition pchatKey (metaId1 metaId2 : string) (timestamp : Z) (txId : string) : string :=
  let '(lo, hi) := sortMetas metaId1 metaId2 in
  pchatKeyConst +:+ lo +:+ ":" +:+ hi +:+ ":" +:+ fmt_019d timestamp +:+ ":" +:+ txId.
Definition extractTxId_colon (pinId : string) : string :=
  match LastIndex pinId ":i" with Some (S i) => stake (S i) pinId | _ => pinId end.
Definition privateMessageDedupeKey (msg : PrivateMessage) : string :=
  if is_empty (pm_PinId msg) then pm_TxId msg +:+ ":" +:+ pm_From msg +:+ ":" +:+ pm_To msg
  else pm_PinId msg.
Definition time_less : PrivateMessage -> PrivateMessage -> bool :=
  on_key Z.ltb pm_Timestamp (on_key str_lt privateMessageDedupeKey tie).
Definition private_index_less : PrivateMessage -> PrivateMessage -> bool :=
  on_key Z.ltb pm_Index (on_key Z.ltb pm_Timestamp (on_key str_lt privateMessageDedupeKey tie)).

(** ** Identities *)

Record IdentityProfile := mkIdentity { ip_MetaId : string; ip_GlobalMetaId : string; ip_Address : string }.
(** The interface of the same name. *)
Record ProfileLookup (St : Type) := mkLookup {
  LookupByMetaId : string -> M St (option IdentityProfile);
  LookupByGlobalMetaId : string -> M St (option IdentityProfile);
  LookupByAddress : string -> M St (option IdentityProfile) }.
Arguments mkLookup {St}. Arguments LookupByMetaId {St}. Arguments LookupByGlobalMetaId {St}.
Arguments LookupByAddress {St}.
(** What a lookup promises its client: in states that satisfy [li], it leaves the
    namespace of the messages alone. *)
Class LookupLaws {St} {KV : KVOps St} (pl : option (ProfileLookup St)) (li : St -> Prop) : Prop := {
  ll_frame p f id s : pl = Some p -> f ∈ [LookupByMetaId p; LookupByGlobalMetaId p; LookupByAddress p] ->
    li s -> kv_ok s privatechat_ns = true ->
    li (f id s).2 /\ kv_view (f id s).2 privatechat_ns = kv_view s privatechat_ns
    /\ kv_ok (f id s).2 privatechat_ns = true;
  ll_set s k v s' : li s -> kv_Set s privatechat_ns k v = Ok s' -> li s' }.

(** [userInfoLookupAdapter]. *)
Definition identityFromUserInfo (p : option UserProfile) : option IdentityProfile :=
  (fun p => mkIdentity (MetaID p) (GlobalMetaID p) (Address p)) <$> p.
Definition adapt {W} (lookup : string -> M W (option UserProfile)) (id : string)
    : M W (option IdentityProfile) :=
  hbind (lookup id) (fun p => hret (identityFromUserInfo p)).
Definition NewUserInfoLookupAdapter {L : LRU} {St} {KV : KVOps St} {UP : URLParse} {J : JSON UserProfile}
    (ui : Aggregator) : ProfileLookup (CacheProvider St) :=
  mkLookup (adapt (lookupByMetaId ui)) (adapt (lookupByGlobalMetaId ui)) (adapt (lookupByAddress ui)).

Section PrivateChat.
Context {St : Type} {KV : KVOps St} {PJ : PrivateChatJSON} {MO : MapOrder}.
Open Scope handler_scope.
(** [a.profileLookup], or nil. *)
Variable profileLookup : option (ProfileLookup St).

(** Errors and missing profiles are skipped; the state a failing lookup leaves is kept. *)
Fixpoint lookup_aliases (lookups : list (string -> M St (option IdentityProfile))) (id : string)
    (st : list string * gset string) (s : St) : (list string * gset string) * St :=
  match lookups with
  | [] => (st, s)
  | lookup :: lookups =>
      match lookup id s with
      | (Ok (Some p), s) =>
          lookup_aliases lookups id
            (add_alias (add_alias (add_alias st (ip_MetaId p)) (ip_GlobalMetaId p)) (ip_Address p)) s
      | (_, s) => lookup_aliases lookups id st s
      end
  end.
Definition identityAliases (id : string) (s : St) : list string * St :=
  let id := TrimSpace id in
  if is_empty id then ([], s) else
  let st := add_alias ([], ∅) id in
  match profileLookup with
  | None => (st.1, s)
  | Some pl =>
      let '(st, s) := lookup_aliases
        [LookupByMetaId pl; LookupByGlobalMetaId pl; LookupByAddress pl] id st s in (st.1, s)
  end.

(** ** Collecting a conversation *)

(** The callback of the scan: messages so far and keys already seen. *)
Definition collect_step (st : list PrivateMessage * gset string) (msg : PrivateMessage)
    : list PrivateMessage * gset string :=
  let keyID := privateMessageDedupeKey msg in
  if bool_decide (keyID ∈ st.2) then st else (st.1 ++ [msg], {[keyID]} ∪ st.2).
Definition alias_pairs (my other : list string) : list (string * string) :=
  mjoin (map (fun m => map (pair m) other) my).
Definition collect_pairs (pairs : list (string * string)) (s : St) : list PrivateMessage * gset string :=
  foldl (fun st p => foldl collect_step st (scan_json privatechat_ns (pchatPrefix p.1 p.2) s))
    ([], ∅) pairs.
Definition collectPrivateMessages (myMetaId otherMetaId : string) (s : St) : list PrivateMessage * St :=
  let '(my, s) := identityAliases myMetaId s in
  let '(other, s) := identityAliases otherMetaId s in
  (SliceStable time_less (collect_pairs (alias_pairs my other) s).1, s).
Definition nextPrivateMessageIndex (from to : string) (s : St) : Z * St :=
  let '(messages, s) := collectPrivateMessages from to s in
  (wrap64 (foldl (fun m msg => if m <? pm_Index msg then pm_Index msg else m) (-1) messages + 1), s).

Definition set_pm_Index (i : Z) (m : PrivateMessage) : PrivateMessage :=
  mkPrivateMessage (pm_FromGlobalMetaId m) (pm_From m) (pm_FromAddress m) (pm_FromUserInfo m)
    (pm_ToGlobalMetaId m) (pm_To m) (pm_ToAddress m) (pm_ToUserInfo m) (pm_TxId m) (pm_PinId m)
    (pm_Protocol m) (pm_Content m) (pm_ContentType m) (pm_Encryption m) (pm_Timestamp m) (pm_Chain m)
    (pm_BlockHeight m) i.
(** The message as saved: its index is assigned here. *)
Definition SavePrivateMessage (msg : PrivateMessage) : M St PrivateMessage := fun s =>
  let '(msg, s) := if pm_Index msg <? 0 then
                     let '(i, s) := nextPrivateMessageIndex (pm_From msg) (pm_To msg) s in
                     (set_pm_Index i msg, s)
                   else (msg, s) in
  (save privatechat_ns (pchatKey (pm_From msg) (pm_To msg) (pm_Timestamp msg) (pm_TxId msg)) msg ;;;
   hret msg) s.

(** ** Queries *)

Definition GetPrivateChatList (myMetaId otherMetaId cursorStr : string) (size beforeTimestamp : Z) (s : St)
    : PrivateChatListResult * St :=
  let '(all, s) := collectPrivateMessages myMetaId otherMetaId s in
  let all := if 0 <? beforeTimestamp
             then List.filter (fun msg => pm_Timestamp msg <? beforeTimestamp) all else all in
  let r := page_desc pm_Timestamp all cursorStr size in
  (mkPrivateList (pg_Total r) (pg_NextCursor r) (pg_NextTimestamp r) (pg_List r), s).
Fixpoint index_loop (l : list PrivateMessage) (startIndex size : Z) (messages : list PrivateMessage)
    (lastIndex : Z) : list PrivateMessage * Z :=
  match l with
  | [] => (messages, lastIndex)
  | msg :: l =>
      if pm_Index msg <? startIndex then index_loop l startIndex size messages lastIndex else
      let messages := messages ++ [msg] in
      let lastIndex := if lastIndex <? pm_Index msg then pm_Index msg else lastIndex in
      if size <=? Z.of_nat (length messages) then (messages, lastIndex)
      else index_loop l startIndex size messages lastIndex
  end.
Definition GetPrivateChatListByIndex (myMetaId otherMetaId : string) (startIndex size : Z) (s : St)
    : PrivateChatListResult * St :=
  let '(all, s) := collectPrivateMessages myMetaId otherMetaId s in
  let '(messages, lastIndex) := index_loop (SliceStable private_index_less all) startIndex size [] 0 in
  (mkPrivateList (Z.of_nat (length messages)) "" lastIndex messages, s).

(** [partnerMap] after one more message. *)
Definition home_step (metaid : string) (partners : gmap string PrivateMessage) (msg : PrivateMessage)
    : gmap string PrivateMessage :=
  let keep partner :=
    match partners !! partner with
    | Some existing => if pm_Timestamp existing <? pm_Timestamp msg
                       then <[partner := msg]> partners else partners
    | None => <[partner := msg]> partners
    end in
  if String.eqb (pm_From msg) metaid then keep (pm_To msg)
  else if String.eqb (pm_To msg) metaid then keep (pm_From msg) else partners.
Definition home_of (kv : string * PrivateMessage) : PrivateChatHome :=
  let '(partner, lastMsg) := kv in
  mkHome partner (if String.eqb (pm_From lastMsg) partner then pm_FromGlobalMetaId lastMsg
                  else pm_ToGlobalMetaId lastMsg) lastMsg.
Definition GetPrivateChatHomes (metaid : string) (s : St) : list PrivateChatHome :=
  map home_of (map_range (foldl (home_step metaid) ∅ (scan_json privatechat_ns pchatKeyConst s))).
Definition path_step (metaid : string) (paths : gmap string PrivateGroupPath) (msg : PrivateMessage)
    : gmap string PrivateGroupPath :=
  if String.eqb (pm_From msg) metaid || String.eqb (pm_To msg) metaid then
    let '(lo, hi) := sortMetas (pm_From msg) (pm_To msg) in
    let path := lo +:+ ":" +:+ hi in
    match paths !! path with
    | Some _ => paths
    | None => <[path := mkPath path path (pm_PinId msg)]> paths
    end
  else paths.
Definition GetPrivateGroupPaths (metaid : string) (s : St) : list PrivateGroupPath :=
  (map_range (foldl (path_step metaid) ∅ (scan_json privatechat_ns pchatKeyConst s))).*2.
Definition GetPrivateMessage (metaId1 metaId2 : string) (timestamp : Z) (txId : string) (s : St)
    : res (option PrivateMessage) :=
  load privatechat_ns (pchatKey metaId1 metaId2 timestamp txId) s.

(** ** Pins *)

Definition private_message (pin : PinInscription) (sm : SimpleMsg) : PrivateMessage :=
  let author := if is_empty (pin_CreateMetaId pin) then pin_MetaId pin else pin_CreateMetaId pin in
  let from := if is_empty (sm_From sm) then author else sm_From sm in
  let fromGlobal := if is_empty (pin_GlobalMetaId pin) then pin_CreateMetaId pin else pin_GlobalMetaId pin in
  let fromAddress := if is_empty (pin_CreateAddress pin) then pin_Address pin else pin_CreateAddress pin in
  let encryption := if is_empty (sm_Encrypt sm) then sm_EncryptAlias sm else sm_Encrypt sm in
  mkPrivateMessage fromGlobal from fromAddress ANil (sm_To sm) (sm_To sm) "" ANil
    (extractTxId_colon (pin_Id pin)) (pin_Id pin) (pin_Path pin) (sm_Content sm) (sm_ContentType sm)
    encryption (pin_Timestamp pin) (pin_ChainName pin) (pin_GenesisHeight pin) (-1).
Definition handlePrivateChat (pin : PinInscription) : M St (option NotifyEvent) :=
  match json_Unmarshal (pin_ContentBody pin) with
  | Err _ => hret None
  | Ok sm =>
      if is_empty (sm_To sm) then hret None else
      msg <- SavePrivateMessage (private_message pin sm) ;;
      (fun s => let '(targets, s) := identityAliases (sm_To sm) s in
                (Ok (Some (mkEvent "WS_SERVER_NOTIFY_PRIVATE_CHAT" (sm_To sm) "" targets ""
                             (any_of_PrivateMessage msg))), s))
  end.
(** The block state is only logged. *)
Definition handlePrivateBlock (pin : PinInscription) : M St (option NotifyEvent) :=
  match json_Unmarshal (A := SimplePrivateBlock) (pin_ContentBody pin) with
  | Err _ => hret None
  | Ok spb => if is_empty (spb_To spb) then hret None else hret None
  end.
Definition private_dispatchPin (pin : PinInscription) : M St (option NotifyEvent) :=
  let path := pin_Path pin in
  if is_empty path then hret None else
  let pathLower := ToLower (TrimChar "/" path) in
  if HasSuffix pathLower "simplemsg" then handlePrivateChat pin
  else if HasSuffix pathLower "simpleprivateblock" then handlePrivateBlock pin
  else hret None.

(** The aggregator with its notify channel, of capacity 256. *)
Record PrivateModule := mkPrivateModule { pv_store : St; pv_notifyCh : list NotifyEvent }.
Definition private_send (event : NotifyEvent) (m : PrivateModule) : PrivateModule :=
  if (length (pv_notifyCh m) <? 256)%nat
  then mkPrivateModule (pv_store m) (pv_notifyCh m ++ [event]) else m.
(** [HandleBlockPin] and [HandleMempoolPin], whose bodies are the same. *)
Definition private_HandlePin (pin : PinInscription) (m : PrivateModule)
    : res (option NotifyEvent) * PrivateModule :=
  let '(r, s) := private_dispatchPin pin (pv_store m) in
  let m := mkPrivateModule s (pv_notifyCh m) in
  match r with
  | Ok (Some event) => (r, private_send event m)
  | _ => (r, m)
  end.
End PrivateChat.
