(* ===== verification/PrivateChatFacts.v ===== *)
(** * PrivateChatFacts: what the private chat guarantees

    Identity lookups leave the messages alone (and the user info adapter keeps that
    promise); a conversation is exact, without duplicates and in order; a sent message
    reaches it from both sides with the next index; pages and homes are complete. *)

From S2P Require Import Prelude GoText Json Aliases Storage Aggregator.
From S2P Require Import Cache UserInfo UserInfoFacts UserInfoFrames Paging PrivateChat.
#[local] Set Warnings "-clear-no-such-hyp".

(** ** Keys *)

Lemma sortMetas_comm a b : sortMetas a b = sortMetas b a.
Proof.
  unfold sortMetas. destruct (str_lt a b) eqn:E1, (str_lt b a) eqn:E2; try done.
  - exfalso. by rewrite (sw_asym a b E1) in E2.
  - by rewrite (st_tie a b E1 E2).
Qed.
Lemma pchatPrefix_comm a b : pchatPrefix a b = pchatPrefix b a.
Proof. unfold pchatPrefix. by rewrite sortMetas_comm. Qed.
Lemma pchatKey_comm a b t x : pchatKey a b t x = pchatKey b a t x.
Proof. unfold pchatKey. by rewrite sortMetas_comm. Qed.
Lemma pchatKey_prefix a b t x : HasPrefix (pchatKey a b t x) (pchatPrefix a b) = true.
Proof.
  unfold pchatKey, pchatPrefix. destruct (sortMetas a b) as [lo hi].
  rewrite <- !sapp_assoc. rewrite !sapp_assoc.
  apply HasPrefix_spec. exists (fmt_019d t +:+ ":" +:+ x). by rewrite !sapp_assoc.
Qed.


#[export] Instance time_less_weak : StrictWeak time_less.
Proof. unfold time_less. apply _. Qed.
(** Ties of the order are messages with one key. *)
Lemma time_less_tie a b :
  time_less a b = false -> time_less b a = false ->
  privateMessageDedupeKey a = privateMessageDedupeKey b.
Proof.
  intros H1 H2. destruct (on_key_tie Z.ltb pm_Timestamp _ a b _ H1 H2) as (_ & H3 & H4).
  by destruct (on_key_tie str_lt privateMessageDedupeKey _ a b _ H3 H4).
Qed.

Lemma NoDup_map_inj {A B} (f : A -> B) l a b : NoDup (map f l) -> a ∈ l -> b ∈ l -> f a = f b -> a = b.
Proof.
  induction l as [|x l IH]; intros Hnd Ha Hb E; [by apply not_elem_of_nil in Ha|].
  simpl in Hnd. apply NoDup_cons in Hnd as [Hx Hnd].
  apply elem_of_cons in Ha as [->|Ha]; apply elem_of_cons in Hb as [->|Hb];
    [done| | |by apply IH]; destruct Hx; [rewrite E|rewrite <- E];
    by apply list_elem_of_In, in_map, list_elem_of_In.
Qed.

(** ** Identity lookups keep the messages *)

Section Facts.
Context {St : Type} {KV : KVOps St} {KVS : KVStore St} {PJ : PrivateChatJSON} {MO : MapOrder}.
Context (pl : option (ProfileLookup St)) {li : St -> Prop} {LL : LookupLaws pl li}.

(** A state in which the messages can be read, and one that holds the same messages. *)
Definition ready (s : St) : Prop := li s /\ kv_ok s privatechat_ns = true.
Definition same_messages (s s' : St) : Prop :=
  ready s' /\ kv_view s' privatechat_ns = kv_view s privatechat_ns.
Lemma same_trans s s1 s2 : same_messages s s1 -> same_messages s1 s2 -> same_messages s s2.
Proof. intros [_ E1] [H E2]. split; [done|by rewrite E2]. Qed.

Lemma lookup_aliases_same p lookups id st s :
  pl = Some p -> lookups ⊆ [LookupByMetaId p; LookupByGlobalMetaId p; LookupByAddress p] -> ready s ->
  same_messages s (lookup_aliases lookups id st s).2.
Proof.
  intros Hp. revert st s. induction lookups as [|f fs IH]; intros st s Hin [Hl Hok]; [done|].
  cbn [lookup_aliases].
  destruct (ll_frame p f id s Hp) as (Hl' & Hv & Hok'); [apply Hin; left|done|done|].
  assert (Hfs : fs ⊆ [LookupByMetaId p; LookupByGlobalMetaId p; LookupByAddress p])
    by (intros x Hx; apply Hin; by right).
  destruct (f id s) as [[[q|]|e] s1]; simpl in *;
    (eapply same_trans; [|by apply IH]); by split.
Qed.
Lemma identityAliases_same id s : ready s -> same_messages s (identityAliases pl id s).2.
Proof.
  intros Hs. unfold identityAliases. destruct (is_empty _); [by split|].
  pose proof (fun p (Hp : pl = Some p) => lookup_aliases_same p
    [LookupByMetaId p; LookupByGlobalMetaId p; LookupByAddress p] (TrimSpace id)
    (add_alias ([], ∅) (TrimSpace id)) s Hp (fun x Hx => Hx) Hs) as H.
  destruct pl as [p|]; [|by split]. specialize (H p eq_refl).
  by destruct (lookup_aliases _ _ _ _) as [st s'].
Qed.

(** ** Conversations *)

(** The messages stored under the keys of two ids. *)
Definition stored_between (a b : string) (m : PrivateMessage) (s : St) : Prop :=
  exists k v, kv_view s privatechat_ns !! k = Some v /\ HasPrefix k (pchatPrefix a b) = true
              /\ json_Unmarshal v = Ok m.
Lemma elem_of_scan p m s :
  kv_ok s privatechat_ns = true ->
  m ∈ scan_json (A := PrivateMessage) privatechat_ns p s
  <-> exists k v, kv_view s privatechat_ns !! k = Some v /\ HasPrefix k p = true /\ json_Unmarshal v = Ok m.
Proof.
  intros Hok. rewrite scan_json_ok, list_elem_of_omap by done. unfold unmarshal_value. split.
  - intros ([k v] & [Hv Hp]%elem_of_prefix_entries & Hm). exists k, v. simpl in Hm.
    by destruct (json_Unmarshal v); simplify_eq.
  - intros (k & v & Hv & Hp & Hm). exists (k, v). simpl. rewrite Hm.
    split; [by apply elem_of_prefix_entries|done].
Qed.

(** [st] collects the messages [src]: their keys once each, nothing else. *)
Definition collected (src : list PrivateMessage) (st : list PrivateMessage * gset string) : Prop :=
  NoDup (map privateMessageDedupeKey st.1)
  /\ list_to_set (map privateMessageDedupeKey st.1) = st.2
  /\ (forall m, m ∈ st.1 -> m ∈ src)
  /\ (forall m, m ∈ src -> privateMessageDedupeKey m ∈ st.2).
Lemma collect_step_inv src st m : collected src st -> collected (src ++ [m]) (collect_step st m).
Proof.
  intros (Hnd & Hset & Hsrc & Hall). unfold collect_step. case_bool_decide as Hseen.
  - split_and!; [done|done| |].
    + intros x Hx. apply elem_of_app. left. by apply Hsrc.
    + intros x [Hx| ->%list_elem_of_singleton]%elem_of_app; [by apply Hall|done].
  - unfold collected. cbn [fst snd]. rewrite map_app. split_and!.
    + apply NoDup_app. split_and!; [done| |apply NoDup_singleton].
      intros k Hk ->%list_elem_of_singleton. apply Hseen. rewrite <- Hset. by apply elem_of_list_to_set.
    + rewrite list_to_set_app_L, Hset. simpl. rewrite (right_id_L ∅ (∪)). apply (comm_L (∪)).
    + intros x [Hx| ->%list_elem_of_singleton]%elem_of_app; apply elem_of_app;
        [left; by apply Hsrc|right; left].
    + intros x [Hx| ->%list_elem_of_singleton]%elem_of_app; apply elem_of_union;
        [right; by apply Hall|left; by apply elem_of_singleton].
Qed.
Lemma collect_fold_inv l src st : collected src st -> collected (src ++ l) (foldl collect_step st l).
Proof.
  revert src st. induction l as [|m l IH]; intros src st H; [by rewrite app_nil_r|]. cbn [foldl].
  replace (src ++ m :: l) with ((src ++ [m]) ++ l) by (by rewrite <- app_assoc).
  by apply IH, collect_step_inv.
Qed.
Lemma collect_pairs_inv pairs s :
  collected (mjoin (map (fun p => scan_json privatechat_ns (pchatPrefix p.1 p.2) s) pairs))
    (collect_pairs pairs s).
Proof.
  unfold collect_pairs.
  enough (forall src st, collected src st -> collected
    (src ++ mjoin (map (fun p => scan_json privatechat_ns (pchatPrefix p.1 p.2) s) pairs))
    (foldl (fun st p => foldl collect_step st (scan_json privatechat_ns (pchatPrefix p.1 p.2) s))
       st pairs)) as H.
  { apply (H [] ([], ∅)). split_and!; [constructor|done| |]; intros m Hm; by apply not_elem_of_nil in Hm. }
  induction pairs as [|p pairs IH]; intros src st H; [by rewrite app_nil_r|].
  cbn [foldl map]. change (mjoin (?x :: ?y)) with (x ++ mjoin y). rewrite app_assoc.
  by apply IH, collect_fold_inv.
Qed.
Lemma elem_of_alias_pairs A B a b : (a, b) ∈ alias_pairs A B <-> a ∈ A /\ b ∈ B.
Proof.
  unfold alias_pairs. rewrite list_elem_of_join. split.
  - intros (l & Hl & (x & <- & Hx)%list_elem_of_In%in_map_iff).
    apply list_elem_of_In, in_map_iff in Hl as (y & [= <- <-] & Hy).
    split; by apply list_elem_of_In.
  - intros [Ha Hb]. exists (map (pair a) B). split; apply list_elem_of_In, in_map_iff.
    + exists b. split; [done|by apply list_elem_of_In].
    + exists a. split; [done|by apply list_elem_of_In].
Qed.

Lemma conversation_facts my other s :
  ready s ->
  let '(A, s1) := identityAliases pl my s in
  let '(B, s2) := identityAliases pl other s1 in
  let '(out, s') := collectPrivateMessages pl my other s in
  s' = s2 /\ same_messages s s'
  /\ NoDup (map privateMessageDedupeKey out)
  /\ StronglySorted (fun m m' => time_less m m' = true) out
  /\ (forall m, m ∈ out -> exists a b, a ∈ A /\ b ∈ B /\ stored_between a b m s)
  /\ (forall a b m, a ∈ A -> b ∈ B -> stored_between a b m s ->
        exists m', m' ∈ out /\ privateMessageDedupeKey m' = privateMessageDedupeKey m).
Proof.
  intros Hs. unfold collectPrivateMessages. pose proof (identityAliases_same my s Hs) as H1.
  destruct (identityAliases pl my s) as [A s1]. cbn [snd] in H1.
  pose proof (identityAliases_same other s1 (proj1 H1)) as H2.
  destruct (identityAliases pl other s1) as [B s2]. cbn [snd] in H2.
  pose proof (same_trans _ _ _ H1 H2) as H12. split; [done|]. split; [done|].
  assert (Hb : forall a b m, m ∈ scan_json privatechat_ns (pchatPrefix a b) s2 <-> stored_between a b m s).
  { intros a b m. destruct H12 as [[_ Hok] Ev]. rewrite elem_of_scan by done. unfold stored_between.
    by rewrite Ev. }
  destruct (collect_pairs_inv (alias_pairs A B) s2) as (Hnd & Hset & Hsrc & Hall).
  destruct (collect_pairs (alias_pairs A B) s2) as [l seen]. cbn [fst snd] in *.
  assert (Hsrc' : forall m, m ∈ mjoin (map (fun p => scan_json privatechat_ns (pchatPrefix p.1 p.2) s2)
      (alias_pairs A B)) <-> exists a b, a ∈ A /\ b ∈ B /\ stored_between a b m s).
  { intros m. rewrite list_elem_of_join. split.
    - intros (x & Hx & ([a b] & <- & Hp%list_elem_of_In)%list_elem_of_In%in_map_iff).
      apply elem_of_alias_pairs in Hp as [Ha Hb']. exists a, b. split_and!; [done|done|by apply Hb].
    - intros (a & b & Ha & Hb' & Hm). eexists. split; [by apply Hb|].
      apply list_elem_of_In, in_map_iff. exists (a, b). split; [done|].
      by apply list_elem_of_In, elem_of_alias_pairs. }
  assert (Hnd' : NoDup (map privateMessageDedupeKey (SliceStable time_less l))).
  { by rewrite (Permutation_map privateMessageDedupeKey (SliceStable_perm time_less l)). }
  split_and!.
  - done.
  - apply sorted_by_strict; [|by apply (NoDup_fmap_1 privateMessageDedupeKey)|apply (SliceStable_sorted time_less)].
    intros a b Ha Hb' E1 E2. apply (NoDup_map_inj privateMessageDedupeKey _ a b Hnd'); [done|done|].
    by apply time_less_tie.
  - intros m Hm%elem_of_SliceStable. by apply Hsrc', Hsrc.
  - intros a b m Ha Hb' Hm.
    assert (privateMessageDedupeKey m ∈ seen) as Hk by (apply Hall, Hsrc'; eauto).
    rewrite <- Hset, elem_of_list_to_set in Hk.
    apply list_elem_of_In, in_map_iff in Hk as (m' & E & Hm'%list_elem_of_In).
    exists m'. split; [by apply elem_of_SliceStable|done].
Qed.

(** ** The messages of a run *)

Definition stored_message (m : PrivateMessage) (s : St) : Prop :=
  exists k v, kv_view s privatechat_ns !! k = Some v /\ HasPrefix k pchatKeyConst = true
              /\ json_Unmarshal v = Ok m.



(** ** Sending *)

Lemma collect_same my other s : ready s -> same_messages s (collectPrivateMessages pl my other s).2.
Proof.
  intros Hs. pose proof (conversation_facts my other s Hs) as H.
  destruct (identityAliases pl my s) as [A s1], (identityAliases pl other s1) as [B s2].
  destruct (collectPrivateMessages pl my other s) as [out s']. by destruct H as (_ & H & _).
Qed.
Lemma max_index_le (l : list PrivateMessage) i :
  i <= foldl (fun m msg => if m <? pm_Index msg then pm_Index msg else m) i l
  /\ forall m, m ∈ l -> pm_Index m <= foldl (fun m msg => if m <? pm_Index msg then pm_Index msg else m) i l.
Proof.
  revert i. induction l as [|x l IH]; intros i; cbn [foldl].
  { split; [lia|]. intros m Hm. by apply not_elem_of_nil in Hm. }
  destruct (IH (if i <? pm_Index x then pm_Index x else i)) as [H1 H2].
  destruct (Z.ltb_spec i (pm_Index x)); (split; [lia|]);
    intros m [->|Hm]%elem_of_cons; auto; lia.
Qed.

Lemma max_index_lt (l : list PrivateMessage) i b :
  (forall m, m ∈ l -> pm_Index m < b) -> i < b ->
  foldl (fun m msg => if m <? pm_Index msg then pm_Index msg else m) i l < b.
Proof.
  revert i. induction l as [|x l IH]; intros i Hl Hi; cbn [foldl]; [done|].
  apply IH; [intros; apply Hl; by right|]. specialize (Hl x ltac:(left)).
  destruct (Z.ltb_spec i (pm_Index x)); lia.
Qed.

(** A state that holds one more record. *)
Definition one_more (s : St) (k v : string) (s' : St) : Prop :=
  ready s' /\ kv_view s' privatechat_ns = <[k := v]> (kv_view s privatechat_ns).
Lemma save_ready k (m : PrivateMessage) s :
  ready s -> exists s', save privatechat_ns k m s = (Ok tt, s') /\ one_more s k (json_Marshal m) s'.
Proof.
  intros [Hl Hok]. destruct (kv_Set_ok s privatechat_ns k (json_Marshal m) Hok) as (s' & E & [V _ K _] & _).
  exists s'. unfold save. rewrite E. split; [done|]. split; [|done].
  split; [by eapply ll_set|by rewrite K].
Qed.

(** The index a new message of a conversation gets. *)
Definition next_index (from to : string) (s : St) : Z := (nextPrivateMessageIndex pl from to s).1.
Lemma SavePrivateMessage_spec msg s :
  ready s -> pm_Index msg = -1 ->
  let m := set_pm_Index (next_index (pm_From msg) (pm_To msg) s) msg in
  json_faithful m -> 0 <= next_index (pm_From msg) (pm_To msg) s ->
  exists s', SavePrivateMessage pl msg s = (Ok m, s')
  /\ one_more s (pchatKey (pm_From msg) (pm_To msg) (pm_Timestamp msg) (pm_TxId msg)) (json_Marshal m) s'.
Proof.
  intros Hs Hi m Hf Hn. unfold SavePrivateMessage. rewrite Hi. cbn [Z.ltb Z.compare].
  pose proof (collect_same (pm_From msg) (pm_To msg) s Hs) as Hc.
  unfold m, next_index in *. unfold nextPrivateMessageIndex in *.
  destruct (collectPrivateMessages pl (pm_From msg) (pm_To msg) s) as [l s1]. cbn [fst snd] in *.
  set (m' := set_pm_Index _ msg) in *. unfold hbind, hret.
  destruct (save_ready (pchatKey (pm_From m') (pm_To m') (pm_Timestamp m') (pm_TxId m')) m' s1 (proj1 Hc))
    as (s2 & -> & Hr & Hv).
  exists s2. split; [done|]. split; [exact Hr|]. rewrite Hv. by destruct Hc as [_ ->].
Qed.

(** C19: A private message pin stores its message with an index above that of every message
    of the conversation; the record is found under the ids in either order; it is part
    of the conversation of any two users whose identities include the sender's and the
    recipient's id; every other record stays; the notification names the recipient's
    identities. *)
Theorem handlePrivateChat_delivers pin sm s :
  ready s -> json_Unmarshal (pin_ContentBody pin) = Ok sm -> sm_To sm <> "" ->
  let msg := private_message pin sm in
  let i := next_index (pm_From msg) (pm_To msg) s in
  let m := set_pm_Index i msg in
  let key := pchatKey (pm_From m) (pm_To m) (pm_Timestamp m) (pm_TxId m) in
  json_faithful m -> 0 <= i ->
  (forall x, x ∈ (collectPrivateMessages pl (pm_From m) (pm_To m) s).1 -> pm_Index x < 2 ^ 63 - 1) ->
  exists s' targets,
    handlePrivateChat pl pin s
    = (Ok (Some (mkEvent "WS_SERVER_NOTIFY_PRIVATE_CHAT" (sm_To sm) "" targets "" (any_of_PrivateMessage m))), s')
  /\ (forall x, x ∈ (collectPrivateMessages pl (pm_From m) (pm_To m) s).1 -> pm_Index x < i)
  /\ GetPrivateMessage (pm_From m) (pm_To m) (pm_Timestamp m) (pm_TxId m) s' = Ok (Some m)
  /\ GetPrivateMessage (pm_To m) (pm_From m) (pm_Timestamp m) (pm_TxId m) s' = Ok (Some m)
  /\ (forall k, k <> key -> kv_view s' privatechat_ns !! k = kv_view s privatechat_ns !! k)
  /\ (forall my other, let A := (identityAliases pl my s').1 in
        let B := (identityAliases pl other (identityAliases pl my s').2).1 in
        (pm_From m ∈ A /\ pm_To m ∈ B) \/ (pm_To m ∈ A /\ pm_From m ∈ B) ->
        exists x, x ∈ (collectPrivateMessages pl my other s').1
                  /\ privateMessageDedupeKey x = privateMessageDedupeKey m)
  /\ targets = (identityAliases pl (sm_To sm) (SavePrivateMessage pl msg s).2).1.
Proof.
  intros Hs Hb Hto msg i m key Hf Hi Hmax. unfold handlePrivateChat. rewrite Hb.
  destruct (is_empty (sm_To sm)) eqn:Et; [by apply is_empty_spec in Et|].
  destruct (SavePrivateMessage_spec msg s Hs eq_refl Hf Hi) as (s1 & E1 & Hr1 & Hv1).
  fold m in E1, Hv1. unfold hbind. fold msg. rewrite E1. cbn [snd].
  pose proof (identityAliases_same (sm_To sm) s1 Hr1) as [Hr2 Hv2].
  destruct (identityAliases pl (sm_To sm) s1) as [targets s2]. cbn [fst snd] in *.
  exists s2, targets.
  assert (Hkey : kv_view s2 privatechat_ns = <[key := json_Marshal m]> (kv_view s privatechat_ns))
    by (by rewrite Hv2, Hv1).
  split; [done|]. split_and!.
  - intros x Hx. pose proof Hmax as Hall. specialize (Hmax x Hx). unfold i, next_index, nextPrivateMessageIndex.
    change (pm_From m) with (pm_From msg) in *. change (pm_To m) with (pm_To msg) in *.
    destruct (collectPrivateMessages pl (pm_From msg) (pm_To msg) s) as [l s3]. cbn [fst] in *.
    destruct (max_index_le l (-1)) as [Hge Hle]. specialize (Hle x Hx).
    pose proof (max_index_lt l (-1) (2 ^ 63 - 1) Hall ltac:(lia)) as Hlt.
    rewrite wrap64_id by (unfold in_i64; lia). lia.
  - unfold GetPrivateMessage. rewrite load_spec, Hkey by apply Hr2.
    rewrite lookup_insert_eq. by rewrite json_roundtrip.
  - unfold GetPrivateMessage. rewrite pchatKey_comm, load_spec, Hkey by apply Hr2.
    rewrite lookup_insert_eq. by rewrite json_roundtrip.
  - intros k Hk. by rewrite Hkey, lookup_insert_ne.
  - intros my other Hab. pose proof (conversation_facts my other s2 Hr2) as H.
    destruct (identityAliases pl my s2) as [A' s3]. cbn [fst snd] in Hab.
    destruct (identityAliases pl other s3) as [B' s4]. cbn [fst] in Hab.
    destruct (collectPrivateMessages pl my other s2) as [out s5]. cbn [fst].
    destruct H as (_ & _ & _ & _ & _ & H).
    assert (Hst : stored_between (pm_From m) (pm_To m) m s2).
    { exists key, (json_Marshal m). rewrite Hkey, lookup_insert_eq. split_and!; [done| |by apply json_roundtrip].
      apply pchatKey_prefix. }
    destruct Hab as [[Ha Hb']|[Ha Hb']]; [by apply (H (pm_From m) (pm_To m))|].
    apply (H (pm_To m) (pm_From m)); [done|done|]. unfold stored_between. by rewrite pchatPrefix_comm.
  - done.
Qed.

(** ** Pages *)

(** Following the cursors of the private chat list from the start ends and returns the
    whole conversation, newest first, each message once, whatever the page size. *)
Theorem private_walk_complete my other size s :
  let all := (collectPrivateMessages pl my other s).1 in
  0 < size < 2 ^ 62 -> Z.of_nat (length all) < 2 ^ 62 ->
  walk (fun c => let r := (GetPrivateChatList pl my other c size 0 s).1 in (pl_List r, pl_NextCursor r))
    (S (length all)) "" = Some (reverse all).
Proof.
  cbv zeta. intros H1 H2. rewrite <- (walk_complete pm_Timestamp _ size H1 H2).
  unfold GetPrivateChatList. by destruct (collectPrivateMessages pl my other s).
Qed.

(** ** Homes *)

Definition partner_of (metaid : string) (m : PrivateMessage) : option string :=
  if String.eqb (pm_From m) metaid then Some (pm_To m)
  else if String.eqb (pm_To m) metaid then Some (pm_From m) else None.
(** [ps] keeps the latest of the messages [src] for each partner. *)
Definition latest_of (metaid : string) (src : list PrivateMessage) (ps : gmap string PrivateMessage) : Prop :=
  (forall p m, ps !! p = Some m -> m ∈ src /\ partner_of metaid m = Some p)
  /\ (forall p m, m ∈ src -> partner_of metaid m = Some p ->
        exists l, ps !! p = Some l /\ pm_Timestamp m <= pm_Timestamp l).
Lemma home_step_eq metaid ps m :
  home_step metaid ps m
  = match partner_of metaid m with
    | None => ps
    | Some p => match ps !! p with
                | Some e => if pm_Timestamp e <? pm_Timestamp m then <[p := m]> ps else ps
                | None => <[p := m]> ps
                end
    end.
Proof. unfold home_step, partner_of. by repeat destruct (String.eqb _ _). Qed.
Lemma home_step_inv metaid src ps m :
  latest_of metaid src ps -> latest_of metaid (src ++ [m]) (home_step metaid ps m).
Proof.
  intros [H1 H2]. rewrite home_step_eq. destruct (partner_of metaid m) as [p|] eqn:Ep.
  2:{ split.
      - intros q x Hq. destruct (H1 q x Hq). split; [apply elem_of_app; by left|done].
      - intros q x [Hx| ->%list_elem_of_singleton]%elem_of_app Hq; [by apply H2|congruence]. }
  assert (Hnew : (forall e, ps !! p = Some e -> pm_Timestamp e <= pm_Timestamp m) ->
    latest_of metaid (src ++ [m]) (<[p := m]> ps)).
  { intros He. split.
    - intros q x. destruct (decide (p = q)) as [<-|Hne].
      + rewrite lookup_insert_eq. intros [= <-]. split; [apply elem_of_app; right; left|done].
      + rewrite lookup_insert_ne by done. intros Hq. destruct (H1 q x Hq).
        split; [apply elem_of_app; by left|done].
    - intros q x Hx Hq. destruct (decide (p = q)) as [<-|Hne].
      + exists m. rewrite lookup_insert_eq. split; [done|].
        apply elem_of_app in Hx as [Hx| ->%list_elem_of_singleton]; [|lia].
        destruct (H2 p x Hx Hq) as (e & Ee & Hle). specialize (He e Ee). lia.
      + rewrite lookup_insert_ne by done.
        apply elem_of_app in Hx as [Hx| ->%list_elem_of_singleton]; [by apply H2|congruence]. }
  destruct (ps !! p) as [e|] eqn:Ee; [|by apply Hnew].
  destruct (Z.ltb_spec (pm_Timestamp e) (pm_Timestamp m)).
  - apply Hnew. intros e' [= <-]. lia.
  - split.
    + intros q x Hq. destruct (H1 q x Hq). split; [apply elem_of_app; by left|done].
    + intros q x [Hx| ->%list_elem_of_singleton]%elem_of_app Hq; [by apply H2|].
      rewrite Ep in Hq. injection Hq as <-. by exists e.
Qed.
Lemma home_fold_inv metaid l src ps :
  latest_of metaid src ps -> latest_of metaid (src ++ l) (foldl (home_step metaid) ps l).
Proof.
  revert src ps. induction l as [|m l IH]; intros src ps H; [by rewrite app_nil_r|]. cbn [foldl].
  replace (src ++ m :: l) with ((src ++ [m]) ++ l) by (by rewrite <- app_assoc).
  by apply IH, home_step_inv.
Qed.

(** The homes of a user, in whatever order, name every partner of a stored message
    once, and show for each the latest message exchanged with that partner. *)
Theorem GetPrivateChatHomes_exact metaid s :
  kv_ok s privatechat_ns = true ->
  let homes := GetPrivateChatHomes metaid s in
  NoDup (map ph_MetaId homes)
  /\ (forall h, h ∈ homes ->
        stored_message (ph_LastMessage h) s /\ partner_of metaid (ph_LastMessage h) = Some (ph_MetaId h)
        /\ forall m, stored_message m s -> partner_of metaid m = Some (ph_MetaId h) ->
              pm_Timestamp m <= pm_Timestamp (ph_LastMessage h))
  /\ (forall m p, stored_message m s -> partner_of metaid m = Some p ->
        exists h, h ∈ homes /\ ph_MetaId h = p).
Proof.
  intros Hok. cbv zeta. unfold GetPrivateChatHomes.
  set (l := scan_json privatechat_ns pchatKeyConst s).
  assert (Hl : forall m, m ∈ l <-> stored_message m s) by (intros m; by apply elem_of_scan).
  assert (latest_of metaid l (foldl (home_step metaid) ∅ l)) as [H1 H2].
  { apply (home_fold_inv metaid l []). split; intros p m; [by rewrite lookup_empty|].
    intros Hm. by apply not_elem_of_nil in Hm. }
  set (ps := foldl (home_step metaid) ∅ l) in *.
  assert (Hid : forall kv, ph_MetaId (home_of kv) = kv.1) by (by intros []).
  assert (Hh : forall h, h ∈ map home_of (map_range ps)
    <-> exists p m, ps !! p = Some m /\ h = home_of (p, m)).
  { intros h. rewrite list_elem_of_In, in_map_iff. split.
    - intros ([p m] & <- & Hin%list_elem_of_In%elem_of_range). by exists p, m.
    - intros (p & m & Hp%elem_of_range%list_elem_of_In & ->). by exists (p, m). }
  split_and!.
  - rewrite map_map. erewrite map_ext; [|exact Hid]. apply range_fst_NoDup.
  - intros h (p & m & Hp & ->)%Hh. destruct (H1 p m Hp) as [Hm Hpm]. cbn [home_of ph_LastMessage ph_MetaId].
    split_and!; [by apply Hl|done|]. intros x Hx Hxp. apply Hl in Hx.
    destruct (H2 p x Hx Hxp) as (e & Ee & Hle). by simplify_eq.
  - intros m p Hm Hp. apply Hl in Hm. destruct (H2 p m Hm Hp) as (e & Ee & _).
    exists (home_of (p, e)). split; [apply Hh; by exists p, e|done].
Qed.
End Facts.

(** ** The user info adapter keeps the promise *)

Section Adapter.
Context {L : LRU} {St : Type} {KV : KVOps St} {KVS : KVStore St} {UP : URLParse} {J : JSON UserProfile}.
#[local] Abbreviation W := (CacheProvider St).

#[export] Instance adapter_laws ui : LookupLaws (Some (NewUserInfoLookupAdapter ui)) cache_placed.
Proof.
  split.
  - intros p f id w [= <-] Hf Hw Hok.
    assert (He : elsewhere (f id)).
    { repeat (apply elem_of_cons in Hf as [->|Hf]); [| | |by apply not_elem_of_nil in Hf];
        cbn [LookupByMetaId LookupByGlobalMetaId LookupByAddress NewUserInfoLookupAdapter]; unfold adapt;
        (apply elsewhere_bind; [|intros; apply elsewhere_ret]);
        apply (elsewhere_lookups ui id). }
    destruct (He w Hw) as (H1 & H2 & H3). split_and!; [done|apply H2|by rewrite H3].
    unfold user_namespaces, cache_ns. intros [E|[E|E%not_elem_of_nil]%elem_of_cons]%elem_of_cons; done.
  - intros w k v w' Hw. simpl. destruct (kv_Set _ _ _ _); [|done]. by intros [= <-].
Qed.
End Adapter.

(** No lookup at all. *)
#[export] Instance no_lookup_laws {St} {KV : KVOps St} : LookupLaws (St := St) None (fun _ => True).
Proof. split; [done|done]. Qed.

(** ** Examples *)

Definition private_JSON : PrivateChatJSON := {|
  json_PrivateMessage := via_JSON
    (fun m => [TS (pm_FromGlobalMetaId m); TS (pm_From m); TS (pm_FromAddress m);
               TS (pm_ToGlobalMetaId m); TS (pm_To m); TS (pm_TxId m); TS (pm_PinId m);
               TS (pm_Protocol m); TS (pm_Content m); TZ (pm_Timestamp m); TS (pm_Chain m);
               TZ (pm_BlockHeight m); TZ (pm_Index m)])
    (fun l => match l with
       | [TS fg; TS f; TS fa; TS tg; TS t; TS x; TS p; TS pr; TS c; TZ ts; TS ch; TZ b; TZ i] =>
           Some (mkPrivateMessage fg f fa ANil tg t "" ANil x p pr c "" "" ts ch b i)
       | _ => None end);
  json_SimpleMsg := via_JSON
    (fun b => [TS (sm_From b); TS (sm_To b); TS (sm_Content b)])
    (fun l => match l with
       | [TS f; TS t; TS c] => Some (mkSimpleMsg f t c "" "" "" "" []) | _ => None end);
  json_SimplePrivateBlock := no_JSON;
  any_of_PrivateMessage m := AStr (pm_Content m) |}.
#[local] Existing Instance private_JSON.
#[local] Existing Instance sample_ops_inst.
#[local] Existing Instance sample_store_inst.
#[local] Existing Instance some_order.

Definition msg_pin (author id from to text : string) (t : Z) : PinInscription :=
  mkPin id 0 "/protocols/simplemsg" "" "create" (json_Marshal (mkSimpleMsg from to text "" "" "" "" []))
    "" "" "" ("addr-" +:+ author) author author ("g-" +:+ author) "" "mvc" "" 1 t "" false "" "".
Definition send (pin : PinInscription) (s : sample_store) : sample_store :=
  (handlePrivateChat None pin s).2.
Definition pstate1 : sample_store := send (msg_pin "alice" "t1:i0" "" "bob" "hi" 5) empty_store.
Definition pstate2 : sample_store := send (msg_pin "bob" "t2:i0" "" "alice" "hello" 7) pstate1.
Definition always (_ : sample_store) : Prop := True.
Lemma pstate_ready s : kv_ok s privatechat_ns = true -> ready (li := always) s.
Proof. by split. Qed.

Lemma handlePrivateChat_delivers_witness :
  let m := set_pm_Index 1 (private_message (msg_pin "bob" "t2:i0" "" "alice" "hello" 7)
             (mkSimpleMsg "" "alice" "hello" "" "" "" "" [])) in
  exists s', handlePrivateChat None (msg_pin "bob" "t2:i0" "" "alice" "hello" 7) pstate1
    = (Ok (Some (mkEvent "WS_SERVER_NOTIFY_PRIVATE_CHAT" "alice" "" ["alice"] "" (AStr "hello"))), s')
  /\ GetPrivateMessage "alice" "bob" 7 "t2" s' = Ok (Some m).
Proof.
  cbv zeta.
  destruct (handlePrivateChat_delivers (li := always) None (msg_pin "bob" "t2:i0" "" "alice" "hello" 7)
    (mkSimpleMsg "" "alice" "hello" "" "" "" "" []) pstate1)
    as (s' & targets & E & _ & _ & H & _ & _ & Ht);
    [by apply pstate_ready|by vm_compute|done|by vm_compute|by vm_compute| |].
  - refine (fun x Hx => proj1 (Z.ltb_lt _ _)
      (check_all (fun x => pm_Index x <? 2 ^ 63 - 1) _ _ x Hx)). by vm_compute.
  - exists s'. rewrite E, Ht. clear E Ht. split.
    { apply (f_equal (fun t => (Ok (Some (mkEvent _ _ _ t _ _)), s'))). vm_compute. reflexivity. }
    etransitivity; [exact H|clear H; vm_compute; reflexivity].
Defined.
Lemma private_walk_complete_witness :
  let all := (collectPrivateMessages None "bob" "alice" pstate2).1 in
  walk (fun c => let r := (GetPrivateChatList None "bob" "alice" c 1 0 pstate2).1 in
                 (pl_List r, pl_NextCursor r)) (S (length all)) "" = Some (reverse all).
Proof. apply (private_walk_complete None "bob" "alice" 1 pstate2); by vm_compute. Defined.
Lemma GetPrivateChatHomes_exact_witness :
  NoDup (map ph_MetaId (GetPrivateChatHomes "bob" pstate2))
  /\ map (fun h => (ph_MetaId h, pm_Content (ph_LastMessage h))) (GetPrivateChatHomes "bob" pstate2)
     = [("alice", "hello")].
Proof.
  split; [apply (GetPrivateChatHomes_exact "bob" pstate2); by vm_compute|by vm_compute].
Defined.

(** The sender of a message is what its body says: a pin of anyone is stored, and listed,
    as a message from the user it names. *)
Lemma sender_is_claimed :
  let s := send (msg_pin "mallory" "t3:i0" "alice" "bob" "send money" 9) pstate2 in
  option_map (fun m => (pm_From m, pm_Content m)) (last (collectPrivateMessages None "bob" "alice" s).1)
  = Some ("alice", "send money").
Proof. by vm_compute. Qed.
(** A pin that arrives again with the same time (a block after the mempool) overwrites its
    record under a new index: the old index is gone. *)
Lemma private_redelivery_reindexes :
  let s := send (msg_pin "bob" "t2:i0" "" "alice" "hello" 7)
             (send (msg_pin "bob" "t2:i0" "" "alice" "hello" 7) empty_store) in
  map pm_Index (collectPrivateMessages None "bob" "alice" s).1 = [1].
Proof. by vm_compute. Qed.
(** Block pins are acknowledged and have no effect. *)
Lemma block_pin_ignored {St} {KV : KVOps St} {PJ : PrivateChatJSON} pin (s : St) :
  handlePrivateBlock pin s = (Ok None, s).
Proof.
  unfold handlePrivateBlock. destruct (json_Unmarshal _); [|done]. by destruct (is_empty _).
Qed.
