(* ===== verification/PrivateChatApi.v ===== *)
(** * PrivateChatApi: the HTTP endpoints of private chats

    [internal/aggregator/privatechat/api.go] over the queries of [PrivateChat].  An
    endpoint changes no message; the lookups of identities may fill the cache.  The
    two families of paths share their handlers. *)

From S2P Require Import Prelude GoText Json Storage Aggregator HttpApi Paging UserInfo PrivateChat PrivateChatFacts.

Inductive private_body :=
| PrivateChats (result : PrivateChatListResult)
| PrivatePaths (total : Z) (list_ : list PrivateGroupPath)
| PrivateHomes (list_ : list PrivateChatHome).

Section Api.
Context {St : Type} {KV : KVOps St} {PJ : PrivateChatJSON} {MO : MapOrder}.
Variable profileLookup : option (ProfileLookup St).

Definition two_users (q : Values) (k : string -> string -> St -> response private_body * St) (s : St)
    : response private_body * St :=
  let metaId := Query q "metaId" in
  let otherMetaId := Query q "otherMetaId" in
  if is_empty metaId || is_empty otherMetaId then (resp_err 1 "metaId and otherMetaId are required", s)
  else k metaId otherMetaId s.
Definition handlePrivateChatList (q : Values) : St -> response private_body * St :=
  two_users q (fun metaId otherMetaId s =>
    let '(result, s) := GetPrivateChatList profileLookup metaId otherMetaId (Query q "cursor")
                          (page_size q "size" "20") (ParseInt (DefaultQuery q "timestamp" "0")) s in
    (RespSuccess (PrivateChats result), s)).
Definition handlePrivateChatListByIndex (q : Values) : St -> response private_body * St :=
  two_users q (fun metaId otherMetaId s =>
    let '(result, s) := GetPrivateChatListByIndex profileLookup metaId otherMetaId
                          (ParseInt (DefaultQuery q "startIndex" "0")) (page_size q "size" "20") s in
    (RespSuccess (PrivateChats result), s)).
Definition handlePrivateGroupPaths (q : Values) (s : St) : response private_body :=
  let metaId := Query q "metaId" in
  if is_empty metaId then resp_err 1 "metaId is required" else
  let paths := GetPrivateGroupPaths metaId s in RespSuccess (PrivatePaths (Z.of_nat (length paths)) paths).
Definition handleChatHomes (metaid : string) (s : St) : response private_body :=
  if is_empty metaid then resp_err 1 "metaid is required" else
  RespSuccess (PrivateHomes (GetPrivateChatHomes metaid s)).

Inductive private_endpoint := PrivateChatList_ | PrivateChatListByIndex | PrivateGroupPaths | ChatHomes.
(** The routes under the prefix of a router; every one is a GET. *)
Definition private_registerRoutes : list (string * private_endpoint) :=
  map (fun r => ("/group-chat" +:+ r.1, r.2))
    [("/private-chat-list", PrivateChatList_); ("/private-chat-list-by-index", PrivateChatListByIndex);
     ("/private-group-paths", PrivateGroupPaths); ("/chat/homes/:metaid", ChatHomes)]
  ++ map (fun r => ("/private-chat" +:+ r.1, r.2))
    [("/messages", PrivateChatList_); ("/messages/by-index", PrivateChatListByIndex);
     ("/paths", PrivateGroupPaths); ("/homes/:metaid", ChatHomes)].
(** [param] is the value of the path's parameter. *)
Definition private_serve (e : private_endpoint) (param : string) (q : Values) (s : St) : response private_body * St :=
  match e with
  | PrivateChatList_ => handlePrivateChatList q s
  | PrivateChatListByIndex => handlePrivateChatListByIndex q s
  | PrivateGroupPaths => (handlePrivateGroupPaths q s, s)
  | ChatHomes => (handleChatHomes param s, s)
  end.
End Api.
