(* ===== verification/Config.v ===== *)
(** * Config: the configuration and its environment variables

    [internal/config/config.go]: the defaults, the variables that override them and
    the checks a configuration must pass.  The environment is a partial function;
    [time.ParseDuration] is the class [DurationParser]; durations are nanoseconds. *)

From S2P Require Import Prelude GoText.
From coqutil.Datatypes Require Import RecordSetters.
Import TriangleBracketNotations.

Record ServiceConfig := mkServiceConfig { cs_HTTPAddr : string; cs_HealthPath : string;
  cs_ShutdownTimeout : Z }.
Record SocketConfig := mkSocketConfig { so_Enabled : bool; so_PrimaryPath : string;
  so_LegacyPath : string; so_RoomBroadcastEnabled : bool; so_MaxConnections : Z; so_MaxPCPerUser : Z;
  so_MaxAppPerUser : Z; so_PingInterval : Z; so_PingTimeout : Z; so_AllowEIO3 : bool;
  so_ExtraPushAuthKey : string }.
Record ChainZMQConfig := mkChainZMQConfig { cz_Enabled : bool; cz_Endpoint : string; cz_Topic : string;
  cz_RPCHost : string; cz_RPCUser : string; cz_RPCPass : string; cz_RPCHTTPPostMode : bool;
  cz_RPCDisableTLS : bool }.
Record ZMQConfig := mkZMQConfig { zq_Enabled : bool; zq_MempoolPollingEnabled : bool;
  zq_MempoolPollInterval : Z; zq_MempoolDedupeTTL : Z; zq_BTC : ChainZMQConfig; zq_MVC : ChainZMQConfig;
  zq_DOGE : ChainZMQConfig; zq_OPCAT : ChainZMQConfig }.
Record ChainRPCConfig := mkChainRPCConfig { cr_Enabled : bool; cr_RPCHost : string; cr_RPCUser : string;
  cr_RPCPass : string; cr_RPCHTTPPostMode : bool; cr_RPCDisableTLS : bool; cr_InitialHeight : Z }.
Record BlockIndexConfig := mkBlockIndexConfig { cb_Enabled : bool; cb_BTC : ChainRPCConfig;
  cb_MVC : ChainRPCConfig; cb_DOGE : ChainRPCConfig; cb_OPCAT : ChainRPCConfig }.
Record PebbleConfig := mkPebbleConfig { cp_Enabled : bool; cp_DataDir : string }.
Record CacheConfig := mkCacheConfig { cc_MaxEntries : Z; cc_DefaultTTLSeconds : Z }.
Record ProfileConfig := mkProfileConfig { cf_Enabled : bool; cf_Mode : string; cf_RemoteBaseURL : string;
  cf_AllowRemoteFallback : bool }.
Record GroupChatConfig := mkGroupChatConfig { cg_MigrationEnabled : bool; cg_BackupEnabled : bool;
  cg_LuckyBagEnabled : bool; cg_GRPCEnabled : bool; cg_HeavyAPIEnabled : bool }.
Record BotHubConfig := mkBotHubConfig { ch_AssetBaseURL : string }.
Record FederationConfig := mkFederationConfig { fc_Enabled : bool; fc_Network : string;
  fc_NodePrivateKey : string; fc_PublicBaseURL : string; fc_MANAPIBaseURL : string;
  fc_MetaletBaseURL : string; fc_RegistryPath : string; fc_PresencePath : string;
  fc_RegistryRenewInterval : Z; fc_RegistryValidFor : Z; fc_DiscoveryInterval : Z;
  fc_PresencePullInterval : Z; fc_PresenceTTL : Z; fc_RequestTimeout : Z; fc_DefaultScope : string;
  fc_AllowInsecureHTTP : bool; fc_MaxPeers : Z; fc_MaxSnapshotBytes : Z }.
Record BotHomepageV2BackfillConfig := mkBotHomepageV2BackfillConfig { bb_Enabled : bool; bb_Lookback : Z;
  bb_Timeout : Z; bb_PageSize : Z; bb_MANAPIBaseURL : string }.
Record Config := mkConfig { cfg_Service : ServiceConfig; cfg_Socket : SocketConfig; cfg_ZMQ : ZMQConfig;
  cfg_BlockIndex : BlockIndexConfig; cfg_Pebble : PebbleConfig; cfg_Cache : CacheConfig;
  cfg_Profile : ProfileConfig; cfg_GroupChat : GroupChatConfig; cfg_BotHub : BotHubConfig;
  cfg_Federation : FederationConfig; cfg_BotHomepageV2Backfill : BotHomepageV2BackfillConfig }.

Definition second : Z := 10 ^ 9.
Definition minute : Z := 60 * second.
Definition hour : Z := 60 * minute.

Definition Default : Config :=
  let chain_zmq := mkChainZMQConfig false "" "rawtx" "" "" "" true true in
  let chain_rpc := mkChainRPCConfig false "" "" "" true true 0 in
  mkConfig
    (mkServiceConfig ":8080" "/healthz" (10 * second))
    (mkSocketConfig true "/socket/socket.io" "/socket.io" true 10000 3 3 (2 * second) (5 * second) true "")
    (mkZMQConfig false true (10 * second) (30 * minute) chain_zmq chain_zmq chain_zmq chain_zmq)
    (mkBlockIndexConfig false chain_rpc chain_rpc chain_rpc chain_rpc)
    (mkPebbleConfig true "./data/pebble")
    (mkCacheConfig 10000 300)
    (mkProfileConfig true "local-first" "" true)
    (mkGroupChatConfig true false false false false)
    (mkBotHubConfig "https://file.metaid.io/metafile-indexer/content")
    (mkFederationConfig false "mvc-mainnet" "" ""
      "https://manapi.metaid.io/pin/path/list?path={protocol-path}&size={size}"
      "https://www.metalet.space" "/protocols/metaso-p2p-node" "/.well-known/metaso-p2p/presence"
      (6 * hour) (24 * hour) (5 * minute) (20 * second) (90 * second) (3 * second) "global" false 0 0)
    (mkBotHomepageV2BackfillConfig false (1440 * hour) (2 * minute) 100 "https://manapi.metaid.io").

(** ** The environment *)

(** [os.LookupEnv]; [os.Getenv] is empty for a variable that is not set. *)
Definition Environ : Type := string -> option string.
Definition Getenv (env : Environ) (name : string) : string := default "" (env name).
Class DurationParser := ParseDuration : string -> option Z.
(** [strconv.ParseBool] *)
Definition ParseBool (s : string) : option bool :=
  if existsb (String.eqb s) ["1"; "t"; "T"; "TRUE"; "true"; "True"] then Some true
  else if existsb (String.eqb s) ["0"; "f"; "F"; "FALSE"; "false"; "False"] then Some false
  else None.

Section Load.
Context {DP : DurationParser}.

Definition applyStringEnv (env : Environ) (name target : string) : string :=
  let value := TrimSpace (Getenv env name) in if is_empty value then target else value.
(** A variable that is not set or does not parse leaves the target alone. *)
Definition applyParsedEnv {A} (parse : string -> option A) (env : Environ) (name : string) (target : A) : A :=
  match env name with
  | None => target
  | Some value => default target (parse (TrimSpace value))
  end.
Definition applyBoolEnv : Environ -> string -> bool -> bool := applyParsedEnv ParseBool.
Definition applyIntEnv : Environ -> string -> Z -> Z := applyParsedEnv Atoi.
Definition applyInt64Env : Environ -> string -> Z -> Z := applyParsedEnv Atoi.
Definition applyDurationEnv : Environ -> string -> Z -> Z := applyParsedEnv ParseDuration.
Definition applyChainRPCEnv (env : Environ) (prefix : string) (target : ChainRPCConfig) : ChainRPCConfig :=
  target
    <| cr_Enabled ::= applyBoolEnv env (prefix +:+ "_ENABLED") |>
    <| cr_RPCHost ::= applyStringEnv env (prefix +:+ "_RPC_HOST") |>
    <| cr_RPCUser ::= applyStringEnv env (prefix +:+ "_RPC_USER") |>
    <| cr_RPCPass ::= applyStringEnv env (prefix +:+ "_RPC_PASS") |>
    <| cr_RPCHTTPPostMode ::= applyBoolEnv env (prefix +:+ "_RPC_HTTP_POST_MODE") |>
    <| cr_RPCDisableTLS ::= applyBoolEnv env (prefix +:+ "_RPC_DISABLE_TLS") |>
    <| cr_InitialHeight ::= applyInt64Env env (prefix +:+ "_INITIAL_HEIGHT") |>.

Definition loadService (env : Environ) (cfg : Config) : Config :=
  cfg
    <| cfg_Service -> cs_HTTPAddr ::= applyStringEnv env "METASO_P2P_HTTP_ADDR" |>
    <| cfg_Service -> cs_HealthPath ::= applyStringEnv env "METASO_P2P_HEALTH_PATH" |>
    <| cfg_Service -> cs_ShutdownTimeout ::= applyDurationEnv env "METASO_P2P_SHUTDOWN_TIMEOUT" |>.
Definition loadSocket (env : Environ) (cfg : Config) : Config :=
  cfg
    <| cfg_Socket -> so_Enabled ::= applyBoolEnv env "METASO_P2P_SOCKET_ENABLED" |>
    <| cfg_Socket -> so_PrimaryPath ::= applyStringEnv env "METASO_P2P_SOCKET_PATH" |>
    <| cfg_Socket -> so_LegacyPath ::= applyStringEnv env "METASO_P2P_SOCKET_LEGACY_PATH" |>
    <| cfg_Socket -> so_RoomBroadcastEnabled ::= applyBoolEnv env "METASO_P2P_SOCKET_ROOM_BROADCAST_ENABLED" |>
    <| cfg_Socket -> so_MaxConnections ::= applyIntEnv env "METASO_P2P_SOCKET_MAX_CONNECTIONS" |>
    <| cfg_Socket -> so_MaxPCPerUser ::= applyIntEnv env "METASO_P2P_SOCKET_MAX_PC_PER_USER" |>
    <| cfg_Socket -> so_MaxAppPerUser ::= applyIntEnv env "METASO_P2P_SOCKET_MAX_APP_PER_USER" |>
    <| cfg_Socket -> so_PingInterval ::= applyDurationEnv env "METASO_P2P_SOCKET_PING_INTERVAL" |>
    <| cfg_Socket -> so_PingTimeout ::= applyDurationEnv env "METASO_P2P_SOCKET_PING_TIMEOUT" |>
    <| cfg_Socket -> so_AllowEIO3 ::= applyBoolEnv env "METASO_P2P_SOCKET_ALLOW_EIO3" |>
    <| cfg_Socket -> so_ExtraPushAuthKey ::= applyStringEnv env "METASO_P2P_SOCKET_EXTRA_PUSH_AUTH_KEY" |>.
Definition loadZMQ (env : Environ) (cfg : Config) : Config :=
  cfg
    <| cfg_ZMQ -> zq_Enabled ::= applyBoolEnv env "METASO_P2P_ZMQ_ENABLED" |>
    <| cfg_ZMQ -> zq_MempoolPollingEnabled ::= applyBoolEnv env "METASO_P2P_ZMQ_MEMPOOL_POLLING_ENABLED" |>
    <| cfg_ZMQ -> zq_MempoolPollInterval ::= applyDurationEnv env "METASO_P2P_ZMQ_MEMPOOL_POLL_INTERVAL" |>
    <| cfg_ZMQ -> zq_MempoolDedupeTTL ::= applyDurationEnv env "METASO_P2P_ZMQ_MEMPOOL_DEDUPE_TTL" |>
    <| cfg_ZMQ -> zq_BTC -> cz_Enabled ::= applyBoolEnv env "METASO_P2P_ZMQ_BTC_ENABLED" |>
    <| cfg_ZMQ -> zq_BTC -> cz_Endpoint ::= applyStringEnv env "METASO_P2P_ZMQ_BTC_ENDPOINT" |>
    <| cfg_ZMQ -> zq_BTC -> cz_Topic ::= applyStringEnv env "METASO_P2P_ZMQ_BTC_TOPIC" |>
    <| cfg_ZMQ -> zq_BTC -> cz_RPCHost ::= applyStringEnv env "METASO_P2P_ZMQ_BTC_RPC_HOST" |>
    <| cfg_ZMQ -> zq_BTC -> cz_RPCUser ::= applyStringEnv env "METASO_P2P_ZMQ_BTC_RPC_USER" |>
    <| cfg_ZMQ -> zq_BTC -> cz_RPCPass ::= applyStringEnv env "METASO_P2P_ZMQ_BTC_RPC_PASS" |>
    <| cfg_ZMQ -> zq_BTC -> cz_RPCHTTPPostMode ::= applyBoolEnv env "METASO_P2P_ZMQ_BTC_RPC_HTTP_POST_MODE" |>
    <| cfg_ZMQ -> zq_BTC -> cz_RPCDisableTLS ::= applyBoolEnv env "METASO_P2P_ZMQ_BTC_RPC_DISABLE_TLS" |>
    <| cfg_ZMQ -> zq_MVC -> cz_Enabled ::= applyBoolEnv env "METASO_P2P_ZMQ_MVC_ENABLED" |>
    <| cfg_ZMQ -> zq_MVC -> cz_Endpoint ::= applyStringEnv env "METASO_P2P_ZMQ_MVC_ENDPOINT" |>
    <| cfg_ZMQ -> zq_MVC -> cz_Topic ::= applyStringEnv env "METASO_P2P_ZMQ_MVC_TOPIC" |>
    <| cfg_ZMQ -> zq_MVC -> cz_RPCHost ::= applyStringEnv env "METASO_P2P_ZMQ_MVC_RPC_HOST" |>
    <| cfg_ZMQ -> zq_MVC -> cz_RPCUser ::= applyStringEnv env "METASO_P2P_ZMQ_MVC_RPC_USER" |>
    <| cfg_ZMQ -> zq_MVC -> cz_RPCPass ::= applyStringEnv env "METASO_P2P_ZMQ_MVC_RPC_PASS" |>
    <| cfg_ZMQ -> zq_MVC -> cz_RPCHTTPPostMode ::= applyBoolEnv env "METASO_P2P_ZMQ_MVC_RPC_HTTP_POST_MODE" |>
    <| cfg_ZMQ -> zq_MVC -> cz_RPCDisableTLS ::= applyBoolEnv env "METASO_P2P_ZMQ_MVC_RPC_DISABLE_TLS" |>
    <| cfg_ZMQ -> zq_DOGE -> cz_Enabled ::= applyBoolEnv env "METASO_P2P_ZMQ_DOGE_ENABLED" |>
    <| cfg_ZMQ -> zq_DOGE -> cz_Endpoint ::= applyStringEnv env "METASO_P2P_ZMQ_DOGE_ENDPOINT" |>
    <| cfg_ZMQ -> zq_DOGE -> cz_Topic ::= applyStringEnv env "METASO_P2P_ZMQ_DOGE_TOPIC" |>
    <| cfg_ZMQ -> zq_DOGE -> cz_RPCHost ::= applyStringEnv env "METASO_P2P_ZMQ_DOGE_RPC_HOST" |>
    <| cfg_ZMQ -> zq_DOGE -> cz_RPCUser ::= applyStringEnv env "METASO_P2P_ZMQ_DOGE_RPC_USER" |>
    <| cfg_ZMQ -> zq_DOGE -> cz_RPCPass ::= applyStringEnv env "METASO_P2P_ZMQ_DOGE_RPC_PASS" |>
    <| cfg_ZMQ -> zq_DOGE -> cz_RPCHTTPPostMode ::= applyBoolEnv env "METASO_P2P_ZMQ_DOGE_RPC_HTTP_POST_MODE" |>
    <| cfg_ZMQ -> zq_DOGE -> cz_RPCDisableTLS ::= applyBoolEnv env "METASO_P2P_ZMQ_DOGE_RPC_DISABLE_TLS" |>
    <| cfg_ZMQ -> zq_OPCAT -> cz_Enabled ::= applyBoolEnv env "METASO_P2P_ZMQ_OPCAT_ENABLED" |>
    <| cfg_ZMQ -> zq_OPCAT -> cz_Endpoint ::= applyStringEnv env "METASO_P2P_ZMQ_OPCAT_ENDPOINT" |>
    <| cfg_ZMQ -> zq_OPCAT -> cz_Topic ::= applyStringEnv env "METASO_P2P_ZMQ_OPCAT_TOPIC" |>
    <| cfg_ZMQ -> zq_OPCAT -> cz_RPCHost ::= applyStringEnv env "METASO_P2P_ZMQ_OPCAT_RPC_HOST" |>
    <| cfg_ZMQ -> zq_OPCAT -> cz_RPCUser ::= applyStringEnv env "METASO_P2P_ZMQ_OPCAT_RPC_USER" |>
    <| cfg_ZMQ -> zq_OPCAT -> cz_RPCPass ::= applyStringEnv env "METASO_P2P_ZMQ_OPCAT_RPC_PASS" |>
    <| cfg_ZMQ -> zq_OPCAT -> cz_RPCHTTPPostMode ::= applyBoolEnv env "METASO_P2P_ZMQ_OPCAT_RPC_HTTP_POST_MODE" |>
    <| cfg_ZMQ -> zq_OPCAT -> cz_RPCDisableTLS ::= applyBoolEnv env "METASO_P2P_ZMQ_OPCAT_RPC_DISABLE_TLS" |>.
Definition loadBlockIndex (env : Environ) (cfg : Config) : Config :=
  cfg
    <| cfg_BlockIndex -> cb_Enabled ::= applyBoolEnv env "METASO_P2P_BLOCK_INDEX_ENABLED" |>
    <| cfg_BlockIndex -> cb_BTC ::= applyChainRPCEnv env "METASO_P2P_BLOCK_INDEX_BTC" |>
    <| cfg_BlockIndex -> cb_MVC ::= applyChainRPCEnv env "METASO_P2P_BLOCK_INDEX_MVC" |>
    <| cfg_BlockIndex -> cb_DOGE ::= applyChainRPCEnv env "METASO_P2P_BLOCK_INDEX_DOGE" |>
    <| cfg_BlockIndex -> cb_OPCAT ::= applyChainRPCEnv env "METASO_P2P_BLOCK_INDEX_OPCAT" |>.
Definition loadPebble (env : Environ) (cfg : Config) : Config :=
  cfg
    <| cfg_Pebble -> cp_Enabled ::= applyBoolEnv env "METASO_P2P_PEBBLE_ENABLED" |>
    <| cfg_Pebble -> cp_DataDir ::= applyStringEnv env "METASO_P2P_PEBBLE_DATA_DIR" |>.
Definition loadProfile (env : Environ) (cfg : Config) : Config :=
  cfg
    <| cfg_Profile -> cf_Enabled ::= applyBoolEnv env "METASO_P2P_PROFILE_ENABLED" |>
    <| cfg_Profile -> cf_Mode ::= applyStringEnv env "METASO_P2P_PROFILE_MODE" |>
    <| cfg_Profile -> cf_RemoteBaseURL ::= applyStringEnv env "METASO_P2P_PROFILE_REMOTE_BASE_URL" |>
    <| cfg_Profile -> cf_AllowRemoteFallback ::= applyBoolEnv env "METASO_P2P_PROFILE_ALLOW_REMOTE_FALLBACK" |>.
Definition loadGroupChat (env : Environ) (cfg : Config) : Config :=
  cfg
    <| cfg_GroupChat -> cg_MigrationEnabled ::= applyBoolEnv env "METASO_P2P_GROUPCHAT_MIGRATION_ENABLED" |>
    <| cfg_GroupChat -> cg_BackupEnabled ::= applyBoolEnv env "METASO_P2P_GROUPCHAT_BACKUP_ENABLED" |>
    <| cfg_GroupChat -> cg_LuckyBagEnabled ::= applyBoolEnv env "METASO_P2P_GROUPCHAT_LUCKYBAG_ENABLED" |>
    <| cfg_GroupChat -> cg_GRPCEnabled ::= applyBoolEnv env "METASO_P2P_GROUPCHAT_GRPC_ENABLED" |>
    <| cfg_GroupChat -> cg_HeavyAPIEnabled ::= applyBoolEnv env "METASO_P2P_GROUPCHAT_HEAVY_API_ENABLED" |>.
Definition loadBotHub (env : Environ) (cfg : Config) : Config :=
  cfg
    <| cfg_BotHub -> ch_AssetBaseURL ::= applyStringEnv env "METASO_P2P_ASSET_BASE_URL" |>.
Definition loadFederation (env : Environ) (cfg : Config) : Config :=
  cfg
    <| cfg_Federation -> fc_Enabled ::= applyBoolEnv env "METASO_P2P_FEDERATION_ENABLED" |>
    <| cfg_Federation -> fc_Network ::= applyStringEnv env "METASO_P2P_FEDERATION_NETWORK" |>
    <| cfg_Federation -> fc_NodePrivateKey ::= applyStringEnv env "METASO_P2P_FEDERATION_NODE_PRIVATE_KEY" |>
    <| cfg_Federation -> fc_PublicBaseURL ::= applyStringEnv env "METASO_P2P_FEDERATION_PUBLIC_BASE_URL" |>
    <| cfg_Federation -> fc_MANAPIBaseURL ::= applyStringEnv env "METASO_P2P_FEDERATION_MANAPI_BASE_URL" |>
    <| cfg_Federation -> fc_MetaletBaseURL ::= applyStringEnv env "METASO_P2P_FEDERATION_METALET_BASE_URL" |>
    <| cfg_Federation -> fc_RegistryPath ::= applyStringEnv env "METASO_P2P_FEDERATION_REGISTRY_PATH" |>
    <| cfg_Federation -> fc_PresencePath ::= applyStringEnv env "METASO_P2P_FEDERATION_PRESENCE_PATH" |>
    <| cfg_Federation -> fc_RegistryRenewInterval ::= applyDurationEnv env "METASO_P2P_FEDERATION_REGISTRY_RENEW_INTERVAL" |>
    <| cfg_Federation -> fc_RegistryValidFor ::= applyDurationEnv env "METASO_P2P_FEDERATION_REGISTRY_VALID_FOR" |>
    <| cfg_Federation -> fc_DiscoveryInterval ::= applyDurationEnv env "METASO_P2P_FEDERATION_DISCOVERY_INTERVAL" |>
    <| cfg_Federation -> fc_PresencePullInterval ::= applyDurationEnv env "METASO_P2P_FEDERATION_PRESENCE_PULL_INTERVAL" |>
    <| cfg_Federation -> fc_PresenceTTL ::= applyDurationEnv env "METASO_P2P_FEDERATION_PRESENCE_TTL" |>
    <| cfg_Federation -> fc_RequestTimeout ::= applyDurationEnv env "METASO_P2P_FEDERATION_REQUEST_TIMEOUT" |>
    <| cfg_Federation -> fc_DefaultScope ::= applyStringEnv env "METASO_P2P_FEDERATION_DEFAULT_SCOPE" |>
    <| cfg_Federation -> fc_AllowInsecureHTTP ::= applyBoolEnv env "METASO_P2P_FEDERATION_ALLOW_INSECURE_HTTP" |>
    <| cfg_Federation -> fc_MaxPeers ::= applyIntEnv env "METASO_P2P_FEDERATION_MAX_PEERS" |>
    <| cfg_Federation -> fc_MaxSnapshotBytes ::= applyIntEnv env "METASO_P2P_FEDERATION_MAX_SNAPSHOT_BYTES" |>.
Definition loadBotHomepageV2Backfill (env : Environ) (cfg : Config) : Config :=
  cfg
    <| cfg_BotHomepageV2Backfill -> bb_Enabled ::= applyBoolEnv env "METASO_P2P_BOT_HOMEPAGE_V2_BACKFILL_ENABLED" |>
    <| cfg_BotHomepageV2Backfill -> bb_Lookback ::= applyDurationEnv env "METASO_P2P_BOT_HOMEPAGE_V2_BACKFILL_LOOKBACK" |>
    <| cfg_BotHomepageV2Backfill -> bb_Timeout ::= applyDurationEnv env "METASO_P2P_BOT_HOMEPAGE_V2_BACKFILL_TIMEOUT" |>
    <| cfg_BotHomepageV2Backfill -> bb_PageSize ::= applyIntEnv env "METASO_P2P_BOT_HOMEPAGE_V2_BACKFILL_PAGE_SIZE" |>
    <| cfg_BotHomepageV2Backfill -> bb_MANAPIBaseURL ::= applyStringEnv env "METASO_P2P_BOT_HOMEPAGE_V2_BACKFILL_MANAPI_BASE_URL" |>.

(** ** Validation *)

(** [if b { return errors.New(e) }], in turn. *)
Fixpoint first_error (checks : list (bool * error)) : option error :=
  match checks with
  | [] => None
  | (b, e) :: checks => if b then Some e else first_error checks
  end.
Definition validateBotHomepageV2Backfill (c : Config) : option error :=
  let b := cfg_BotHomepageV2Backfill c in
  first_error
    [(bb_Lookback b <=? 0, "botHomepageV2Backfill.lookback must be greater than zero");
     (bb_Timeout b <=? 0, "botHomepageV2Backfill.timeout must be greater than zero");
     (bb_PageSize b <=? 0, "botHomepageV2Backfill.pageSize must be greater than zero");
     (bb_Enabled b && is_empty (TrimSpace (bb_MANAPIBaseURL b)), "botHomepageV2Backfill.manapiBaseUrl is required when backfill is enabled")].
Definition validateFederation (c : Config) : option error :=
  let f := cfg_Federation c in
  if negb (fc_Enabled f) then None else
  first_error
    [(is_empty (TrimSpace (fc_NodePrivateKey f)), "federation.nodePrivateKey is required when federation is enabled");
     (is_empty (TrimSpace (fc_PublicBaseURL f)), "federation.publicBaseUrl is required when federation is enabled");
     (negb (fc_AllowInsecureHTTP f) && HasPrefix (ToLower (fc_PublicBaseURL f)) "http://",
      "federation.publicBaseUrl must use https unless federation.allowInsecureHttp is true");
     (is_empty (TrimSpace (fc_MANAPIBaseURL f)), "federation.manapiBaseUrl is required when federation is enabled");
     (negb (Contains (fc_MANAPIBaseURL f) "{protocol-path}") || negb (Contains (fc_MANAPIBaseURL f) "{size}"),
      "federation.manapiBaseUrl must contain {protocol-path} and {size}");
     (is_empty (TrimSpace (fc_MetaletBaseURL f)), "federation.metaletBaseUrl is required when federation is enabled");
     (negb (HasPrefix (fc_RegistryPath f) "/"), "federation.registryPath must start with '/'");
     (negb (HasPrefix (fc_PresencePath f) "/"), "federation.presencePath must start with '/'");
     (fc_RegistryRenewInterval f <=? 0, "federation.registryRenewInterval must be greater than zero");
     (fc_RegistryValidFor f <=? 0, "federation.registryValidFor must be greater than zero");
     (fc_DiscoveryInterval f <=? 0, "federation.discoveryInterval must be greater than zero");
     (fc_PresencePullInterval f <=? 0, "federation.presencePullInterval must be greater than zero");
     (fc_PresenceTTL f <=? 0, "federation.presenceTTL must be greater than zero");
     (fc_RequestTimeout f <=? 0, "federation.requestTimeout must be greater than zero");
     (negb (String.eqb (fc_DefaultScope f) "local") && negb (String.eqb (fc_DefaultScope f) "global"),
      "federation.defaultScope must be local or global");
     (fc_MaxPeers f <? 0, "federation.maxPeers must be zero or greater");
     (fc_MaxSnapshotBytes f <? 0, "federation.maxSnapshotBytes must be zero or greater")].
Definition Validate (c : Config) : option error :=
  match first_error
    [(is_empty (TrimSpace (cs_HTTPAddr (cfg_Service c))), "service.httpAddr is required");
     (negb (HasPrefix (cs_HealthPath (cfg_Service c)) "/"), "service.healthPath must start with '/'");
     (is_empty (TrimSpace (so_PrimaryPath (cfg_Socket c))), "socket.primaryPath is required");
     (is_empty (TrimSpace (so_LegacyPath (cfg_Socket c))), "socket.legacyPath is required");
     (so_MaxConnections (cfg_Socket c) <=? 0, "socket.maxConnections must be greater than zero");
     (so_MaxPCPerUser (cfg_Socket c) <=? 0, "socket.maxPcPerUser must be greater than zero");
     (so_MaxAppPerUser (cfg_Socket c) <=? 0, "socket.maxAppPerUser must be greater than zero");
     (so_PingInterval (cfg_Socket c) <=? 0, "socket.pingInterval must be greater than zero");
     (so_PingTimeout (cfg_Socket c) <=? 0, "socket.pingTimeout must be greater than zero");
     (cs_ShutdownTimeout (cfg_Service c) <=? 0, "service.shutdownTimeout must be greater than zero")] with
  | Some e => Some e
  | None =>
      match validateFederation c with
      | Some e => Some e
      | None => validateBotHomepageV2Backfill c
      end
  end.
(** The defaults with the variables applied, before they are checked. *)
Definition load_environment (env : Environ) : Config :=
  let cfg := loadService env Default in
  let cfg := loadSocket env cfg in
  let cfg := loadZMQ env cfg in
  let cfg := loadBlockIndex env cfg in
  let cfg := loadPebble env cfg in
  let cfg := loadProfile env cfg in
  let cfg := loadGroupChat env cfg in
  let cfg := loadBotHub env cfg in
  let cfg := loadFederation env cfg in
  loadBotHomepageV2Backfill env cfg.
Definition Load (env : Environ) : res Config :=
  let cfg := load_environment env in
  match Validate cfg with Some err => Err err | None => Ok cfg end.

(** ** What [Load] returns *)

Lemma Load_ok env cfg : Load env = Ok cfg -> cfg = load_environment env /\ Validate cfg = None.
Proof. unfold Load. cbv zeta. destruct (Validate _) eqn:E; [done|]. by intros [= <-]. Qed.
Lemma first_error_none checks : first_error checks = None -> Forall (fun c => c.1 = false) checks.
Proof. induction checks as [|[[] e] checks IH]; cbn; intros H; [constructor|done|]. constructor; [done|by apply IH]. Qed.
Lemma Validate_none c :
  Validate c = None ->
  0 < so_MaxConnections (cfg_Socket c) /\ 0 < so_MaxPCPerUser (cfg_Socket c) /\ 0 < so_MaxAppPerUser (cfg_Socket c)
  /\ validateFederation c = None /\ validateBotHomepageV2Backfill c = None.
Proof.
  unfold Validate. destruct (first_error _) eqn:E; [done|]. destruct (validateFederation c); [done|].
  apply first_error_none in E. forall_all. intros ->. split_and!; try done; by apply Z.leb_gt.
Qed.
(** A string setting is its variable trimmed, or the default. *)
Lemma applyStringEnv_trimmed env name d : TrimSpace d = d -> TrimSpace (applyStringEnv env name d) = applyStringEnv env name d.
Proof. intros Hd. unfold applyStringEnv. cbv zeta. destruct (is_empty _); [done|]. apply TrimSpace_idem. Qed.
(** No variable reaches the cache settings. *)
Lemma cache_has_no_variables env : cfg_Cache (load_environment env) = cfg_Cache Default.
Proof. reflexivity. Qed.
Lemma loaded_federation_urls env :
  let f := cfg_Federation (load_environment env) in
  fc_MANAPIBaseURL f = applyStringEnv env "METASO_P2P_FEDERATION_MANAPI_BASE_URL"
    (fc_MANAPIBaseURL (cfg_Federation Default)).
Proof. reflexivity. Qed.
End Load.

(** A file of the documentation sets the size of the cache. *)
Example cache_variable_ignored :
  let env name := if String.eqb name "METASO_P2P_CACHE_MAX_ENTRIES" then Some "20000" else None in
  match Load (DP := fun _ => None) env with Ok cfg => cc_MaxEntries (cfg_Cache cfg) | Err _ => 0 end = 10000.
Proof. vm_compute. reflexivity. Qed.
Example loaded_sample :
  let env name :=
    if String.eqb name "METASO_P2P_SOCKET_MAX_PC_PER_USER" then Some " 5 "
    else if String.eqb name "METASO_P2P_SOCKET_ENABLED" then Some "maybe"
    else if String.eqb name "METASO_P2P_BLOCK_INDEX_MVC_INITIAL_HEIGHT" then Some "86500" else None in
  match Load (DP := fun _ => None) env with
  | Ok cfg => (so_MaxPCPerUser (cfg_Socket cfg), so_Enabled (cfg_Socket cfg), cr_InitialHeight (cb_MVC (cfg_BlockIndex cfg)))
  | Err _ => (0, false, 0) end = (5, true, 86500).
Proof. vm_compute. reflexivity. Qed.
