(* ===== verification/FedStore.v ===== *)
(** * FedStore: merged presence of this node and its peers

    [internal/presence/types.go] and [internal/federation/store.go].  Times are
    nanoseconds since the epoch.  A nil receiver, which every method of [Store]
    checks for, is not represented: [NewService] always builds the store. *)

From S2P Require Import Prelude GoText Json.

(** ** [internal/presence] *)

Record OnlineEntry := mkEntry {
  oe_MetaId : string;
  oe_Type : string;
  oe_ConnectedAt : Z;
  oe_LastSeenAt : Z;
  oe_SourceNodeIds : list string;
  oe_Sources : Z }.
Record Snapshot := mkSnapshot {
  sn_Protocol : string;
  sn_Version : string;
  sn_NodeID : string;
  sn_GeneratedAt : Z;
  sn_TTLSeconds : Z;
  sn_Sequence : Z;
  sn_Items : list OnlineEntry;
  sn_Signature : string }.
Record GlobalStats := mkStats {
  gs_TotalConnections : Z;
  gs_UniqueMetaIds : Z;
  gs_Nodes : Z }.

(** ** The store *)

Record RegistryNode := mkNode {
  rn_Protocol : string;
  rn_Version : string;
  rn_NodeID : string;
  rn_Network : string;
  rn_PublicBaseURL : string;
  rn_SocketURL : string;
  rn_PresenceURL : string;
  rn_PublicKey : string;
  rn_Capabilities : list string;
  rn_PublishedAt : Z;
  rn_ValidUntil : Z }.

Record Store := mkStore {
  fs_localNodeID : string;
  fs_enabled : bool;
  fs_defaultScope : string;
  fs_peers : gmap string RegistryNode;
  fs_snapshots : gmap string Snapshot }.

Definition defaultLocalNodeID : string := "local".

(** The options of [NewStore] apart from the clock, which every reading takes
    as an argument. *)
Definition StoreOption : Type := Store -> Store.
Definition WithStoreEnabled (enabled : bool) : StoreOption := fun s =>
  mkStore (fs_localNodeID s) enabled (fs_defaultScope s) (fs_peers s) (fs_snapshots s).
Definition WithStoreDefaultScope (scope : string) : StoreOption := fun s =>
  if String.eqb scope "local" || String.eqb scope "global"
  then mkStore (fs_localNodeID s) (fs_enabled s) scope (fs_peers s) (fs_snapshots s) else s.
Definition NewStore (localNodeID : string) (opts : list StoreOption) : Store :=
  let localNodeID := if is_empty localNodeID then defaultLocalNodeID else localNodeID in
  let store := foldl (fun s opt => opt s) (mkStore localNodeID true "global" ∅ ∅) opts in
  if negb (String.eqb (fs_defaultScope store) "local") && negb (String.eqb (fs_defaultScope store) "global")
  then mkStore (fs_localNodeID store) (fs_enabled store) "global" (fs_peers store) (fs_snapshots store)
  else store.

Definition Enabled (s : Store) : bool := fs_enabled s.
Definition DefaultScope (s : Store) : string :=
  if is_empty (fs_defaultScope s) then "local"
  else if negb (String.eqb (fs_defaultScope s) "global") then "local" else "global".

Definition set_peers (m : gmap string RegistryNode) (s : Store) : Store :=
  mkStore (fs_localNodeID s) (fs_enabled s) (fs_defaultScope s) m (fs_snapshots s).
Definition set_snapshots (m : gmap string Snapshot) (s : Store) : Store :=
  mkStore (fs_localNodeID s) (fs_enabled s) (fs_defaultScope s) (fs_peers s) m.

Definition UpsertPeer (peer : RegistryNode) (s : Store) : Store :=
  if is_empty (rn_NodeID peer) then s
  else set_peers (<[rn_NodeID peer := peer]> (fs_peers s)) s.
Definition RemovePeer (nodeID : string) (s : Store) : Store :=
  if is_empty nodeID then s
  else set_snapshots (delete nodeID (fs_snapshots s)) (set_peers (delete nodeID (fs_peers s)) s).
Definition Peer (nodeID : string) (s : Store) : option RegistryNode :=
  if is_empty nodeID then None else fs_peers s !! nodeID.
Definition UpsertSnapshot (snapshot : Snapshot) (s : Store) : Store :=
  if is_empty (sn_NodeID snapshot) then s
  else set_snapshots (<[sn_NodeID snapshot := snapshot]> (fs_snapshots s)) s.
Definition Snapshot_ (nodeID : string) (s : Store) : option Snapshot :=
  if is_empty nodeID then None else fs_snapshots s !! nodeID.

Definition UnixMilli (now : Z) : Z := now / 1000000.
Definition snapshotExpired (snapshot : Snapshot) (now : Z) : bool :=
  let expiresAt := wrap64 (sn_GeneratedAt snapshot + wrap64 (sn_TTLSeconds snapshot * 1000)) in
  expiresAt <? UnixMilli now.
Definition peerExpired (peer : RegistryNode) (now : Z) : bool :=
  (0 <? rn_ValidUntil peer) && (rn_ValidUntil peer <? UnixMilli now).

(** ** Aggregation *)

Record aggregateEntry := mkAgg {
  ag_entry : OnlineEntry;
  ag_sourceSeen : gmap string unit;
  ag_sourceCount : Z }.

Definition NUL : string := String (ascii_of_Z 0) "".
Definition agg_key (item : OnlineEntry) : string := oe_MetaId item +:+ NUL +:+ oe_Type item.

Definition merge_entry (e item : OnlineEntry) : OnlineEntry :=
  let connectedAt :=
    if negb (oe_ConnectedAt item =? 0) &&
       ((oe_ConnectedAt e =? 0) || (oe_ConnectedAt item <? oe_ConnectedAt e))
    then oe_ConnectedAt item else oe_ConnectedAt e in
  let lastSeenAt := if oe_LastSeenAt e <? oe_LastSeenAt item then oe_LastSeenAt item
                    else oe_LastSeenAt e in
  mkEntry (oe_MetaId e) (oe_Type e) connectedAt lastSeenAt (oe_SourceNodeIds e) (oe_Sources e).
Definition addAggregateObservation (entriesByKey : gmap string aggregateEntry) (item : OnlineEntry)
    (nodeID : string) : gmap string aggregateEntry :=
  let nodeID := if is_empty nodeID then defaultLocalNodeID else nodeID in
  let key := agg_key item in
  match entriesByKey !! key with
  | None =>
      <[key := mkAgg (mkEntry (oe_MetaId item) (oe_Type item) (oe_ConnectedAt item)
                        (oe_LastSeenAt item) [] 0) {[nodeID := tt]} 1]> entriesByKey
  | Some a =>
      <[key := mkAgg (merge_entry (ag_entry a) item) (<[nodeID := tt]> (ag_sourceSeen a))
                 (ag_sourceCount a + 1)]> entriesByKey
  end.

Record aggregateResult := mkResult {
  ar_items : list OnlineEntry;
  ar_totalConnections : Z;
  ar_uniqueMetaIds : Z }.

Definition presence_less : OnlineEntry -> OnlineEntry -> bool :=
  on_key Z_gt oe_LastSeenAt (on_key str_lt oe_MetaId (on_key str_lt oe_Type tie)).
Definition node_less : RegistryNode -> RegistryNode -> bool := on_key str_lt rn_NodeID tie.
Definition snapshot_less : Snapshot -> Snapshot -> bool := on_key str_lt sn_NodeID tie.

(** The loops over [local] and over the snapshots, in one: the observations with
    the node each comes from. *)
Definition observations (local : list OnlineEntry) (snapshots : list Snapshot) (localNodeID : string)
    : list (OnlineEntry * string) :=
  map (fun item => (item, localNodeID)) local ++
  mjoin (map (fun s => map (fun item => (item, sn_NodeID s)) (sn_Items s)) snapshots).

Section Store.
Context {MO : MapOrder}.

(** [ActivePeers]; the keys are distinct node ids, so [sort.Slice] has no ties. *)
Definition ActivePeers (now : Z) (s : Store) : list RegistryNode :=
  SliceStable node_less
    (List.filter (fun p => negb (peerExpired p now)) (map_range (fs_peers s)).*2).

Definition sortedSourceNodeIDs (sourceSeen : gmap string unit) : list string :=
  SliceStable str_lt (map_range sourceSeen).*1.

Definition aggregatePresence (local : list OnlineEntry) (snapshots : list Snapshot)
    (localNodeID : string) : aggregateResult :=
  let localNodeID := if is_empty localNodeID then defaultLocalNodeID else localNodeID in
  let obs := observations local snapshots localNodeID in
  let entriesByKey := foldl (fun m o => addAggregateObservation m o.1 o.2) ∅ obs in
  let uniqueMetaIds := foldl (fun m o => {[oe_MetaId o.1]} ∪ m) (∅ : gset string) obs in
  let items := map (fun kv => let a := kv.2 in let e := ag_entry a in
                 mkEntry (oe_MetaId e) (oe_Type e) (oe_ConnectedAt e) (oe_LastSeenAt e)
                   (sortedSourceNodeIDs (ag_sourceSeen a)) (ag_sourceCount a))
               (map_range entriesByKey) in
  mkResult (SliceStable presence_less items) (Z.of_nat (length obs)) (Z.of_nat (size uniqueMetaIds)).

Definition active (s : Store) (now : Z) (kv : string * Snapshot) : bool :=
  let '(nodeID, snapshot) := kv in
  if String.eqb nodeID (fs_localNodeID s) then false else
  match fs_peers s !! nodeID with
  | None => false
  | Some peer => if peerExpired peer now then false else negb (snapshotExpired snapshot now)
  end.
Definition activeSnapshots (now : Z) (s : Store) : list Snapshot :=
  SliceStable snapshot_less (List.filter (active s now) (map_range (fs_snapshots s))).*2.

Definition GlobalOnline (local : list OnlineEntry) (now : Z) (s : Store) : list OnlineEntry :=
  ar_items (aggregatePresence local (activeSnapshots now s) (fs_localNodeID s)).

(** [items[start:end]] panics unless [0 <= start <= end]. *)
Definition paginatePresence (items : list OnlineEntry) (page size : Z) : res (list OnlineEntry) :=
  let page := if page <? 1 then 1 else page in
  let size := if size <? 1 then 20 else size in
  let len := Z.of_nat (length items) in
  let start := wrap64 (wrap64 (page - 1) * size) in
  if len <=? start then Ok [] else
  let end_ := wrap64 (start + size) in
  let end_ := if len <? end_ then len else end_ in
  if (0 <=? start) && (start <=? end_)
  then Ok (take (Z.to_nat (end_ - start)) (drop (Z.to_nat start) items))
  else Err "panic: slice bounds out of range".
Definition OnlineList (local : list OnlineEntry) (page size now : Z) (s : Store)
    : res (list OnlineEntry) :=
  paginatePresence (GlobalOnline local now s) page size.

Definition StatsAt (local : list OnlineEntry) (now : Z) (s : Store) : GlobalStats :=
  let snapshots := activeSnapshots now s in
  let result := aggregatePresence local snapshots (fs_localNodeID s) in
  mkStats (ar_totalConnections result) (ar_uniqueMetaIds result) (1 + Z.of_nat (length snapshots)).
(** [Stats] reads the store's clock. *)
Definition Stats (local : list OnlineEntry) (now : Z) (s : Store) : GlobalStats := StatsAt local now s.
End Store.
