(* ===== verification/FedStoreFacts.v ===== *)
(** * FedStoreFacts: what the merged presence list contains

    The list depends neither on the order of map ranges nor on the order in
    which snapshots arrived, summarises every observation, and pages cover it. *)

From S2P Require Import Prelude GoText Json FedStore.
#[local] Set Warnings "-clear-no-such-hyp".

#[export] Instance presence_less_weak : StrictWeak presence_less.
Proof. unfold presence_less. apply _. Qed.
#[export] Instance snapshot_less_weak : StrictWeak snapshot_less.
Proof. unfold snapshot_less. apply _. Qed.
#[export] Instance node_less_weak : StrictWeak node_less.
Proof. unfold node_less. apply _. Qed.

(** ** Accumulating observations *)

Definition node_of (id : string) : string := if is_empty id then defaultLocalNodeID else id.
(** The observations of one user and device type. *)
Definition group (k : string) (obs : list (OnlineEntry * string)) : list (OnlineEntry * string) :=
  List.filter (fun o => String.eqb (agg_key o.1) k) obs.

Lemma elem_of_group k obs o : o ∈ group k obs <-> o ∈ obs /\ agg_key o.1 = k.
Proof. unfold group. by rewrite !list_elem_of_In, filter_In, String.eqb_eq. Qed.
Lemma group_snoc k obs o :
  group k (obs ++ [o]) = group k obs ++ (if String.eqb (agg_key o.1) k then [o] else []).
Proof. unfold group. rewrite List.filter_app. simpl. by destruct (String.eqb _ k). Qed.

(** [conn] is the earliest known connection time of the group, [last] the latest
    sight of it. *)
Definition earliest (conn : Z) (g : list (OnlineEntry * string)) : Prop :=
  (forall o, o ∈ g -> oe_ConnectedAt o.1 <> 0 -> conn <> 0 /\ conn <= oe_ConnectedAt o.1)
  /\ (conn = 0 \/ exists o, o ∈ g /\ conn = oe_ConnectedAt o.1).
Definition latest (last : Z) (g : list (OnlineEntry * string)) : Prop :=
  (forall o, o ∈ g -> oe_LastSeenAt o.1 <= last) /\ exists o, o ∈ g /\ last = oe_LastSeenAt o.1.

Record accumulated (k : string) (g : list (OnlineEntry * string)) (a : aggregateEntry) : Prop := {
  acc_first : exists o, o ∈ g /\ oe_MetaId (ag_entry a) = oe_MetaId o.1
                        /\ oe_Type (ag_entry a) = oe_Type o.1;
  acc_earliest : earliest (oe_ConnectedAt (ag_entry a)) g;
  acc_latest : latest (oe_LastSeenAt (ag_entry a)) g;
  acc_sources : forall n, is_Some (ag_sourceSeen a !! n) <-> exists o, o ∈ g /\ n = node_of o.2;
  acc_count : ag_sourceCount a = Z.of_nat (length g) }.

Lemma accumulated_first o k :
  accumulated k [o] (mkAgg (mkEntry (oe_MetaId o.1) (oe_Type o.1) (oe_ConnectedAt o.1)
    (oe_LastSeenAt o.1) [] 0) {[node_of o.2 := tt]} 1).
Proof.
  split; cbn [ag_entry ag_sourceSeen ag_sourceCount oe_MetaId oe_Type oe_ConnectedAt oe_LastSeenAt].
  - exists o. by split; [left|].
  - split.
    + intros o' ->%list_elem_of_singleton. lia.
    + right. exists o. by split; [left|].
  - split.
    + intros o' ->%list_elem_of_singleton. lia.
    + exists o. by split; [left|].
  - intros n. rewrite lookup_singleton_is_Some. split.
    + intros <-. exists o. by split; [left|].
    + intros (o' & ->%list_elem_of_singleton & ->). done.
  - done.
Qed.

Lemma earliest_snoc e o g :
  earliest (oe_ConnectedAt e) g -> earliest (oe_ConnectedAt (merge_entry e o.1)) (g ++ [o]).
Proof.
  intros [H1 H2]. unfold merge_entry. cbn [oe_ConnectedAt].
  destruct (Z.eqb_spec (oe_ConnectedAt o.1) 0) as [E|E]; cbn [negb andb].
  - split.
    + intros o' [Ho| ->%list_elem_of_singleton]%elem_of_app; [by apply H1|lia].
    + destruct H2 as [|(o' & Ho & ?)]; [by left|right]. exists o'. split; [|done].
      apply elem_of_app. by left.
  - assert (Ho : o ∈ g ++ [o]) by (apply elem_of_app; right; left).
    destruct (Z.eqb_spec (oe_ConnectedAt e) 0) as [E0|E0]; cbn [orb].
    + split; [|right; by exists o].
      intros o' [Ho'| ->%list_elem_of_singleton]%elem_of_app Hne; [|lia].
      by destruct (H1 o' Ho' Hne).
    + destruct (Z.ltb_spec (oe_ConnectedAt o.1) (oe_ConnectedAt e)) as [Hlt|Hle].
      * split; [|right; by exists o].
        intros o' [Ho'| ->%list_elem_of_singleton]%elem_of_app Hne; [|lia].
        destruct (H1 o' Ho' Hne). lia.
      * split.
        -- intros o' [Ho'| ->%list_elem_of_singleton]%elem_of_app Hne; [by apply H1|lia].
        -- destruct H2 as [|(o' & Ho' & ?)]; [by left|right]. exists o'. split; [|done].
           apply elem_of_app. by left.
Qed.
Lemma latest_snoc e o g :
  latest (oe_LastSeenAt e) g -> latest (oe_LastSeenAt (merge_entry e o.1)) (g ++ [o]).
Proof.
  intros [H1 (o0 & H0 & E0)]. unfold merge_entry. cbn [oe_LastSeenAt].
  destruct (Z.ltb_spec (oe_LastSeenAt e) (oe_LastSeenAt o.1)) as [Hlt|Hle]; split.
  - intros o' [Ho| ->%list_elem_of_singleton]%elem_of_app; [|lia]. specialize (H1 o' Ho). lia.
  - exists o. split; [apply elem_of_app; right; left|done].
  - intros o' [Ho| ->%list_elem_of_singleton]%elem_of_app; [by apply H1|lia].
  - exists o0. split; [apply elem_of_app; by left|done].
Qed.

Lemma accumulated_snoc k g a o :
  accumulated k g a ->
  accumulated k (g ++ [o])
    (mkAgg (merge_entry (ag_entry a) o.1) (<[node_of o.2 := tt]> (ag_sourceSeen a))
       (ag_sourceCount a + 1)).
Proof.
  intros [(o0 & H0 & Hm & Ht) H2 H3 H4 H5]. split; cbn [ag_entry ag_sourceSeen ag_sourceCount].
  - exists o0. split; [apply elem_of_app; by left|by split].
  - by apply earliest_snoc.
  - by apply latest_snoc.
  - intros n. destruct (decide (n = node_of o.2)) as [->|Hne].
    + rewrite lookup_insert_eq. split; [intros _|done].
      exists o. split; [apply elem_of_app; right; left|done].
    + rewrite lookup_insert_ne, H4 by done. split; intros (o' & Ho & ->).
      * exists o'. split; [apply elem_of_app; by left|done].
      * apply elem_of_app in Ho as [Ho| ->%list_elem_of_singleton]; [by exists o'|done].
  - rewrite H5, length_app. simpl. lia.
Qed.

Definition accumulate (obs : list (OnlineEntry * string)) : gmap string aggregateEntry :=
  foldl (fun m o => addAggregateObservation m o.1 o.2) ∅ obs.

Lemma accumulate_ok obs k :
  match accumulate obs !! k with
  | None => group k obs = []
  | Some a => accumulated k (group k obs) a
  end.
Proof.
  revert k. induction obs as [|o obs IH] using rev_ind; intros k; [done|].
  unfold accumulate. rewrite foldl_snoc. fold (accumulate obs). rewrite group_snoc.
  unfold addAggregateObservation. fold (node_of o.2).
  destruct (String.eqb_spec (agg_key o.1) k) as [<-|Hne].
  - specialize (IH (agg_key o.1)). destruct (accumulate obs !! agg_key o.1) as [a|].
    + rewrite lookup_insert_eq. by apply accumulated_snoc.
    + rewrite lookup_insert_eq, IH. apply accumulated_first.
  - rewrite app_nil_r. specialize (IH k).
    destruct (accumulate obs !! agg_key o.1); by rewrite lookup_insert_ne.
Qed.

(** ** The stored keys *)

Record store_ok (s : Store) : Prop := {
  so_peers id p : fs_peers s !! id = Some p -> rn_NodeID p = id;
  so_snapshots id sn : fs_snapshots s !! id = Some sn -> sn_NodeID sn = id;
  so_local : fs_localNodeID s <> "" }.

Section Facts.
Context {MO : MapOrder}.
Implicit Types s : Store.

Definition is_active s now (sn : Snapshot) : Prop :=
  fs_snapshots s !! sn_NodeID sn = Some sn /\ sn_NodeID sn <> fs_localNodeID s
  /\ snapshotExpired sn now = false
  /\ exists p, fs_peers s !! sn_NodeID sn = Some p /\ peerExpired p now = false.

Lemma active_spec s now id sn :
  active s now (id, sn) = true <->
  id <> fs_localNodeID s /\ snapshotExpired sn now = false
  /\ exists p, fs_peers s !! id = Some p /\ peerExpired p now = false.
Proof.
  unfold active. destruct (String.eqb_spec id (fs_localNodeID s)) as [|Hne]; [naive_solver|].
  destruct (fs_peers s !! id) as [p|]; [|naive_solver].
  destruct (peerExpired p now) eqn:E.
  - split; [done|]. intros (_ & _ & p' & [= <-] & ?). congruence.
  - rewrite negb_true_iff. naive_solver.
Qed.

Lemma elem_of_active s now sn :
  store_ok s -> sn ∈ activeSnapshots now s <-> is_active s now sn.
Proof.
  intros Hok. unfold activeSnapshots, is_active. rewrite elem_of_SliceStable, list_elem_of_fmap.
  split.
  - intros ([id sn'] & -> & Hin). apply list_elem_of_In, filter_In in Hin as [Hin Ha].
    apply list_elem_of_In, elem_of_range in Hin. apply active_spec in Ha. simpl.
    rewrite (so_snapshots s Hok id sn' Hin). naive_solver.
  - intros (Hs & Ha). exists (sn_NodeID sn, sn). split; [done|].
    apply list_elem_of_In, filter_In. split; [by apply list_elem_of_In, elem_of_range|].
    apply active_spec. naive_solver.
Qed.
Lemma active_NoDup s now : store_ok s -> NoDup (map sn_NodeID (activeSnapshots now s)).
Proof.
  intros Hok. unfold activeSnapshots.
  rewrite (Permutation_map _ (SliceStable_perm _ _)).
  assert (H : forall l, NoDup l.*1 -> (forall kv, kv ∈ l -> sn_NodeID kv.2 = kv.1) ->
    NoDup (map sn_NodeID (List.filter (active s now) l).*2)).
  { induction l as [|kv l IH]; intros Hnd Hk; [constructor|]. simpl in *.
    apply NoDup_cons in Hnd as [Hn Hnd].
    assert (IH' := IH Hnd (fun kv' Hin => Hk kv' ltac:(by right))).
    destruct (active s now kv); [|done]. simpl. constructor; [|done].
    rewrite (Hk kv) by left. intros Hin. apply Hn.
    apply list_elem_of_In, in_map_iff in Hin as (sn & E & Hin).
    apply in_map_iff in Hin as (kv' & <- & Hin). apply filter_In in Hin as [Hin _].
    apply list_elem_of_In in Hin. rewrite (Hk kv') in E by (by right).
    rewrite <- E. by apply list_elem_of_fmap_2. }
  apply H; [apply range_fst_NoDup|]. intros [id sn] Hin. apply elem_of_range in Hin.
  by apply (so_snapshots s Hok).
Qed.
Lemma snapshot_ties s now a b :
  store_ok s -> a ∈ activeSnapshots now s -> b ∈ activeSnapshots now s ->
  sn_NodeID a = sn_NodeID b -> a = b.
Proof.
  intros Hok Ha Hb E. apply elem_of_active in Ha as [Ha _], Hb as [Hb _]; [|done|done].
  rewrite E in Ha. congruence.
Qed.
End Facts.

(** The active snapshots do not depend on the order of the range. *)
Lemma activeSnapshots_order (MO1 MO2 : MapOrder) s now :
  store_ok s -> activeSnapshots (MO := MO1) now s = activeSnapshots (MO := MO2) now s.
Proof.
  intros Hok. apply SliceStable_perm_eq; [apply _| |].
  - intros a b Ha Hb H1 H2. destruct (on_key_tie _ _ _ _ _ str_lt_total H1 H2) as [E _].
    apply (snapshot_ties (MO := MO1) s now); [done|by apply elem_of_SliceStable..|done].
  - apply fmap_Permutation, filter_bool_perm. by rewrite !map_range_perm.
Qed.

(** ** The merged list *)

(** The observations of the user and device type of [e]. *)
Definition seen_as (e : OnlineEntry) (obs : list (OnlineEntry * string))
    : list (OnlineEntry * string) :=
  List.filter (fun o => String.eqb (oe_MetaId o.1) (oe_MetaId e)
                        && String.eqb (oe_Type o.1) (oe_Type e)) obs.
(** [e] sums up its observations. *)
Record summary (obs : list (OnlineEntry * string)) (e : OnlineEntry) : Prop := {
  su_seen : seen_as e obs <> [];
  su_earliest : earliest (oe_ConnectedAt e) (seen_as e obs);
  su_latest : latest (oe_LastSeenAt e) (seen_as e obs);
  su_count : oe_Sources e = Z.of_nat (length (seen_as e obs));
  su_sorted : StronglySorted (fun a b => str_lt a b = true) (oe_SourceNodeIds e);
  su_nodes n : n ∈ oe_SourceNodeIds e <-> exists o, o ∈ seen_as e obs /\ n = node_of o.2 }.

Lemma earliest_unique c1 c2 g : earliest c1 g -> earliest c2 g -> c1 = c2.
Proof.
  intros [A1 B1] [A2 B2].
  destruct B1 as [->|(o1 & H1 & E1)], B2 as [->|(o2 & H2 & E2)]; [done| | |].
  - destruct (decide (c2 = 0)) as [|Hne]; [done|]. rewrite E2 in Hne. by destruct (A1 o2 H2 Hne).
  - destruct (decide (c1 = 0)) as [|Hne]; [done|]. rewrite E1 in Hne. by destruct (A2 o1 H1 Hne).
  - destruct (decide (c1 = 0)) as [Z1|N1], (decide (c2 = 0)) as [Z2|N2]; [lia| | |].
    + rewrite E2 in N2. destruct (A1 o2 H2 N2). lia.
    + rewrite E1 in N1. destruct (A2 o1 H1 N1). lia.
    + rewrite E2 in N2. rewrite E1 in N1. destruct (A1 o2 H2 N2), (A2 o1 H1 N1). lia.
Qed.
Lemma latest_unique c1 c2 g : latest c1 g -> latest c2 g -> c1 = c2.
Proof.
  intros [A1 (o1 & H1 & E1)] [A2 (o2 & H2 & E2)]. specialize (A1 o2 H2). specialize (A2 o1 H1). lia.
Qed.
Lemma strict_sorted_unique (l1 l2 : list string) :
  StronglySorted (fun a b => str_lt a b = true) l1 -> StronglySorted (fun a b => str_lt a b = true) l2 ->
  (forall x, x ∈ l1 <-> x ∈ l2) -> l1 = l2.
Proof.
  intros S1 S2 E.
  assert (Hnd : forall l, StronglySorted (fun a b => str_lt a b = true) l -> NoDup l).
  { induction 1 as [|x l _ IH Hx]; constructor; [|done]. intros Hin. rewrite Forall_forall in Hx.
    specialize (Hx x Hin). pose proof (sw_asym (less := str_lt) x x Hx). congruence. }
  apply (sorted_by_unique str_lt).
  - intros a b _ _. apply st_tie.
  - eapply StronglySorted_impl; [|exact S1]. simpl. intros a b. apply (sw_asym (less := str_lt)).
  - eapply StronglySorted_impl; [|exact S2]. simpl. intros a b. apply (sw_asym (less := str_lt)).
  - apply NoDup_Permutation; auto.
Qed.

Definition no_nul (s : string) : bool := no_char (ascii_of_Z 0) s.
Lemma agg_key_inj e e' :
  no_nul (oe_MetaId e) = true -> no_nul (oe_MetaId e') = true ->
  agg_key e = agg_key e' <-> oe_MetaId e = oe_MetaId e' /\ oe_Type e = oe_Type e'.
Proof.
  intros H H'. unfold agg_key, NUL. split; [|by intros [-> ->]].
  rewrite !sapp_cons, !sapp_nil_l. intros E. by apply sep_inj in E.
Qed.

Section Merged.
Context {MO : MapOrder}.

Lemma sortedSourceNodeIDs_spec m :
  StronglySorted (fun a b => str_lt a b = true) (sortedSourceNodeIDs m)
  /\ forall n, n ∈ sortedSourceNodeIDs m <-> is_Some (m !! n).
Proof.
  unfold sortedSourceNodeIDs. split.
  - apply sorted_by_strict; [| |apply SliceStable_sorted, _].
    + intros a b _ _. apply st_tie.
    + rewrite SliceStable_perm. apply range_fst_NoDup.
  - intros n. rewrite elem_of_SliceStable, list_elem_of_fmap. split.
    + intros ([k []] & -> & Hin). apply elem_of_range in Hin. by eexists.
    + intros [[] Hn]. exists (n, tt). by rewrite elem_of_range.
Qed.

Definition item_of (kv : string * aggregateEntry) : OnlineEntry :=
  let e := ag_entry kv.2 in
  mkEntry (oe_MetaId e) (oe_Type e) (oe_ConnectedAt e) (oe_LastSeenAt e)
    (sortedSourceNodeIDs (ag_sourceSeen kv.2)) (ag_sourceCount kv.2).
Lemma aggregate_items local snapshots self :
  ar_items (aggregatePresence local snapshots self)
  = SliceStable presence_less
      (map item_of (map_range (accumulate (observations local snapshots (node_of self))))).
Proof. done. Qed.

Lemma item_key obs k a : accumulate obs !! k = Some a -> agg_key (item_of (k, a)) = k.
Proof.
  intros E. pose proof (accumulate_ok obs k) as H. rewrite E in H.
  destruct (acc_first _ _ _ H) as (o & Ho & Em & Et). apply elem_of_group in Ho as [_ <-].
  unfold item_of, agg_key. simpl. by rewrite Em, Et.
Qed.
Lemma items_NoDup obs : NoDup (map agg_key (map item_of (map_range (accumulate obs)))).
Proof.
  rewrite map_map. rewrite (map_ext_in _ fst); [apply range_fst_NoDup|].
  intros [k a] Hin. apply list_elem_of_In, elem_of_range in Hin. by apply (item_key obs).
Qed.
Lemma items_ties obs a b :
  a ∈ map item_of (map_range (accumulate obs)) -> b ∈ map item_of (map_range (accumulate obs)) ->
  presence_less a b = false -> presence_less b a = false -> a = b.
Proof.
  intros Ha Hb H1 H2. destruct (on_key_tie _ _ _ _ _ Z_gt_total H1 H2) as (_ & H3 & H4).
  destruct (on_key_tie _ _ _ _ _ str_lt_total H3 H4) as (E1 & H5 & H6).
  destruct (on_key_tie _ _ _ _ _ str_lt_total H5 H6) as (E2 & _).
  assert (E : agg_key a = agg_key b) by (unfold agg_key; by rewrite E1, E2).
  apply list_elem_of_In, in_map_iff in Ha as ([k1 a1] & <- & Ha).
  apply list_elem_of_In, in_map_iff in Hb as ([k2 a2] & <- & Hb).
  apply list_elem_of_In, elem_of_range in Ha, Hb.
  rewrite (item_key obs k1 a1 Ha), (item_key obs k2 a2 Hb) in E. by simplify_eq.
Qed.

Lemma items_strict obs :
  StronglySorted (fun a b => presence_less a b = true)
    (SliceStable presence_less (map item_of (map_range (accumulate obs)))).
Proof.
  apply sorted_by_strict.
  - intros a b. rewrite !elem_of_SliceStable. apply items_ties.
  - rewrite SliceStable_perm. apply (NoDup_fmap_1 agg_key). apply items_NoDup.
  - apply SliceStable_sorted, _.
Qed.

(** An accumulated entry sums up its group. *)
Lemma item_summary obs k a :
  (forall o, o ∈ obs -> no_nul (oe_MetaId o.1) = true) ->
  accumulate obs !! k = Some a ->
  group k obs = seen_as (item_of (k, a)) obs /\ summary obs (item_of (k, a)).
Proof.
  intros Hnul E. pose proof (accumulate_ok obs k) as H. rewrite E in H.
  assert (Hg : group k obs = seen_as (item_of (k, a)) obs).
  { destruct (acc_first _ _ _ H) as (o & Ho & Em & Et). apply elem_of_group in Ho as [Ho <-].
    unfold group, seen_as. apply filter_ext_in. intros o' Ho'. apply list_elem_of_In in Ho'.
    cbn [item_of oe_MetaId oe_Type snd]. rewrite Em, Et. apply eq_true_iff_eq.
    rewrite andb_true_iff, !String.eqb_eq. apply agg_key_inj; by apply Hnul. }
  split; [done|]. destruct H as [(o & Ho & _) H2 H3 H4 H5]. rewrite Hg in *.
  destruct (sortedSourceNodeIDs_spec (ag_sourceSeen a)) as [S1 S2]. split.
  - intros Hn. rewrite Hn in Ho. by apply not_elem_of_nil in Ho.
  - exact H2.
  - exact H3.
  - exact H5.
  - exact S1.
  - intros n. cbn [item_of oe_SourceNodeIds snd]. rewrite S2. apply H4.
Qed.

Lemma summary_unique obs e e' :
  summary obs e -> summary obs e' -> oe_MetaId e = oe_MetaId e' -> oe_Type e = oe_Type e' -> e = e'.
Proof.
  intros [_ A1 A2 A3 A4 A5] [_ B1 B2 B3 B4 B5] Em Et.
  assert (Eg : seen_as e obs = seen_as e' obs) by (unfold seen_as; by rewrite Em, Et).
  rewrite Eg in *. destruct e as [m t c l n k], e' as [m' t' c' l' n' k']. simpl in *.
  rewrite Em, Et, (earliest_unique _ _ _ A1 B1), (latest_unique _ _ _ A2 B2), A3, B3.
  f_equal. apply strict_sorted_unique; [done..|]. intros x. by rewrite A5, B5.
Qed.

Lemma elem_of_items obs e :
  (forall o, o ∈ obs -> no_nul (oe_MetaId o.1) = true) ->
  e ∈ map item_of (map_range (accumulate obs)) <-> summary obs e.
Proof.
  intros Hnul. split.
  - intros Hin. apply list_elem_of_In, in_map_iff in Hin as ([k a] & <- & Hin).
    apply list_elem_of_In, elem_of_range in Hin. by apply item_summary.
  - intros He. destruct (seen_as e obs) as [|o g] eqn:Eg; [by destruct (su_seen _ _ He)|].
    assert (Ho : o ∈ seen_as e obs) by (rewrite Eg; left).
    apply list_elem_of_In, filter_In in Ho as [Ho Hoe].
    apply andb_true_iff in Hoe as [Em%String.eqb_eq Et%String.eqb_eq]. apply list_elem_of_In in Ho.
    pose proof (accumulate_ok obs (agg_key o.1)) as H.
    destruct (accumulate obs !! agg_key o.1) as [a|] eqn:Ea.
    + destruct (item_summary obs _ a Hnul Ea) as [_ Hs].
      rewrite (summary_unique obs e (item_of (agg_key o.1, a))); [|done|done|..].
      * apply list_elem_of_In, in_map, list_elem_of_In, elem_of_range. done.
      * pose proof (item_key obs _ _ Ea) as Ek. apply agg_key_inj in Ek as [E1 _]; [congruence| |by apply Hnul].
        destruct (acc_first _ _ _ H) as (o' & Ho' & Em' & _). apply elem_of_group in Ho' as [Ho' _].
        cbn [item_of oe_MetaId snd]. rewrite Em'. by apply Hnul.
      * pose proof (item_key obs _ _ Ea) as Ek. apply agg_key_inj in Ek as [_ E2]; [congruence| |by apply Hnul].
        destruct (acc_first _ _ _ H) as (o' & Ho' & Em' & _). apply elem_of_group in Ho' as [Ho' _].
        cbn [item_of oe_MetaId snd]. rewrite Em'. by apply Hnul.
    + exfalso. assert (Hin : o ∈ group (agg_key o.1) obs) by (by apply elem_of_group).
      rewrite H in Hin. by apply not_elem_of_nil in Hin.
Qed.
End Merged.

(** The observations that count at a time: the local connections and the items
    of the active peers. *)
Definition observed {MO : MapOrder} (local : list OnlineEntry) (now : Z) (s : Store) :=
  observations local (activeSnapshots now s) (fs_localNodeID s).

Lemma elem_of_observed {MO : MapOrder} local now s o :
  store_ok s ->
  o ∈ observed local now s <->
  (o.1 ∈ local /\ o.2 = fs_localNodeID s)
  \/ exists sn, is_active s now sn /\ o.1 ∈ sn_Items sn /\ o.2 = sn_NodeID sn.
Proof.
  intros Hok. unfold observed, observations. rewrite elem_of_app. destruct o as [it n]. simpl.
  assert (H1 : forall l id, (it, n) ∈ map (fun item : OnlineEntry => (item, id)) l <-> it ∈ l /\ n = id).
  { intros l id. rewrite list_elem_of_In, in_map_iff. split.
    - intros (x & [= -> ->] & Hx). by rewrite list_elem_of_In.
    - intros [Hx ->]. exists it. by rewrite <- list_elem_of_In. }
  rewrite H1. apply or_iff_compat_l. rewrite list_elem_of_join. split.
  - intros (l & Hin & Hl). apply list_elem_of_In, in_map_iff in Hl as (sn & <- & Hl).
    apply list_elem_of_In, (elem_of_active s now sn Hok) in Hl. exists sn.
    split; [done|]. by apply H1.
  - intros (sn & Ha & Hin). exists (map (fun item => (item, sn_NodeID sn)) (sn_Items sn)).
    split; [by apply H1|]. apply list_elem_of_In.
    apply (in_map (fun s => map (fun item => (item, sn_NodeID s)) (sn_Items s))).
    by apply list_elem_of_In, (elem_of_active s now sn Hok).
Qed.

(** C16: The merged list, strictly ordered by last sight, user and type, holds
    exactly one summary per user and device type of the observations that count:
    earliest connection, latest sight, number of observations, and the sorted set
    of nodes; what counts is exactly the local connections and the items of
    unexpired snapshots of unexpired remote peers. *)
Theorem GlobalOnline_exact {MO : MapOrder} local now s :
  store_ok s ->
  (forall o, o ∈ observed local now s -> no_nul (oe_MetaId o.1) = true) ->
  StronglySorted (fun a b => presence_less a b = true) (GlobalOnline local now s)
  /\ (forall e, e ∈ GlobalOnline local now s <-> summary (observed local now s) e)
  /\ (forall o, o ∈ observed local now s <->
        (o.1 ∈ local /\ o.2 = fs_localNodeID s)
        \/ exists sn, is_active s now sn /\ o.1 ∈ sn_Items sn /\ o.2 = sn_NodeID sn).
Proof.
  intros Hok Hnul.
  assert (El : node_of (fs_localNodeID s) = fs_localNodeID s).
  { unfold node_of. destruct (is_empty _) eqn:E; [|done]. apply is_empty_spec in E.
    by destruct (so_local s Hok). }
  unfold GlobalOnline. rewrite aggregate_items, El. split_and!.
  - apply items_strict.
  - intros e. rewrite elem_of_SliceStable. by apply elem_of_items.
  - intros o. by apply elem_of_observed.
Qed.

(** The merged list does not depend on the order in which the runtime ranges
    over the maps of peers, snapshots, entries and nodes. *)
Theorem GlobalOnline_order_independent (MO1 MO2 : MapOrder) local now s :
  store_ok s -> GlobalOnline (MO := MO1) local now s = GlobalOnline (MO := MO2) local now s.
Proof.
  intros Hok. unfold GlobalOnline. rewrite !aggregate_items, (activeSnapshots_order MO1 MO2) by done.
  set (obs := observations _ _ _). apply SliceStable_perm_eq; [apply _| |].
  - apply (items_ties (MO := MO1)).
  - assert (E : forall kv, item_of (MO := MO1) kv = item_of (MO := MO2) kv).
    { intros kv. unfold item_of. f_equal. unfold sortedSourceNodeIDs.
      apply SliceStable_perm_eq; [apply _|intros a b _ _; apply st_tie|].
      by rewrite !map_range_perm. }
    rewrite (map_ext _ _ E). apply Permutation_map. by rewrite !map_range_perm.
Qed.

(** ** Pages *)

Lemma paginate_ok items page size :
  1 <= page -> 1 <= size -> Z.of_nat (length items) < 2 ^ 62 -> page * size < 2 ^ 62 ->
  paginatePresence items page size
  = Ok (take (Z.to_nat size) (drop (Z.to_nat ((page - 1) * size)) items)).
Proof.
  intros Hp Hs Hl Hps. unfold paginatePresence.
  rewrite (proj2 (Z.ltb_ge page 1)), (proj2 (Z.ltb_ge size 1)) by lia.
  assert (H0 : 0 <= (page - 1) * size < 2 ^ 62) by nia.
  rewrite (wrap64_id (page - 1)) by (unfold in_i64; nia).
  rewrite (wrap64_id ((page - 1) * size)) by (unfold in_i64; lia).
  set (start := (page - 1) * size) in *.
  destruct (Z.leb_spec (Z.of_nat (length items)) start) as [Hge|Hlt].
  { by rewrite drop_ge, take_nil by lia. }
  rewrite wrap64_id by (unfold in_i64, start in *; nia).
  rewrite (proj2 (Z.leb_le 0 start)) by lia.
  destruct (Z.ltb_spec (Z.of_nat (length items)) (start + size)).
  - rewrite (proj2 (Z.leb_le _ _)) by lia. f_equal.
    rewrite !take_ge; [done|rewrite length_drop; lia..].
  - rewrite (proj2 (Z.leb_le _ _)) by lia. do 2 f_equal. lia.
Qed.

(** What a client collects from the pages [1 .. n]. *)
Fixpoint pages (n : nat) (items : list OnlineEntry) (size : Z) : res (list OnlineEntry) :=
  match n with
  | O => Ok []
  | S n => l <-? pages n items size ;;
           p <-? paginatePresence items (Z.of_nat n + 1) size ;; Ok (l ++ p)
  end.
(** The pages of a list, in order, are the list: no entry is lost, none is
    repeated, and every page has at most [size] entries. *)
Theorem pages_cover items size n :
  1 <= size <= 100 -> Z.of_nat n < 2 ^ 54 ->
  Z.of_nat (length items) <= Z.of_nat n * size ->
  pages n items size = Ok items
  /\ forall p l, 1 <= p <= Z.of_nat n -> paginatePresence items p size = Ok l ->
       (length l <= Z.to_nat size)%nat.
Proof.
  intros Hs Hn Hl. assert (Hb : Z.of_nat (length items) < 2 ^ 62) by nia. split.
  - assert (H : forall k, (k <= n)%nat -> pages k items size = Ok (take (k * Z.to_nat size) items)).
    { induction k as [|k IH]; intros Hk; cbn [pages]; [by rewrite take_0|].
      rewrite IH by lia. rewrite paginate_ok by (lia || nia). f_equal.
      replace (Z.to_nat ((Z.of_nat k + 1 - 1) * size)) with (k * Z.to_nat size)%nat by nia.
      replace (S k * Z.to_nat size)%nat with (k * Z.to_nat size + Z.to_nat size)%nat by lia.
      apply take_take_drop. }
    rewrite H by lia. f_equal. apply take_ge. nia.
  - intros p l Hp E. rewrite paginate_ok in E by nia. injection E as <-. rewrite length_take. lia.
Qed.

(** A page number that the HTTP layer lets through ([page >= 1], [size <= 100])
    can overflow [(page-1)*size] and make the handler panic on any non-empty list. *)
Theorem OnlineList_page_overflow_panics {MO : MapOrder} local now s :
  GlobalOnline local now s <> [] ->
  OnlineList local (2 ^ 62) 100 now s = Err "panic: slice bounds out of range".
Proof.
  intros Hne. unfold OnlineList, paginatePresence. set (items := GlobalOnline local now s) in *.
  change (2 ^ 62 <? 1) with false. change (100 <? 1) with false.
  change (wrap64 (wrap64 (2 ^ 62 - 1) * 100)) with (-100). cbv zeta iota.
  rewrite (proj2 (Z.leb_gt _ (-100))) by lia. change (wrap64 (-100 + 100)) with 0.
  by change (0 <=? -100) with false.
Qed.

(** ** Operations keep the store well formed *)

Lemma UpsertPeer_lookup peer s id :
  rn_NodeID peer <> "" ->
  fs_peers (UpsertPeer peer s) !! id = if String.eqb id (rn_NodeID peer) then Some peer
                                       else fs_peers s !! id.
Proof.
  intros Hne. unfold UpsertPeer. destruct (is_empty (rn_NodeID peer)) eqn:E;
    [by apply is_empty_spec in E|]. cbn [fs_peers set_peers].
  destruct (String.eqb_spec id (rn_NodeID peer)) as [->|]; [by rewrite lookup_insert_eq|].
  by rewrite lookup_insert_ne.
Qed.
Lemma UpsertPeer_snapshots peer s : fs_snapshots (UpsertPeer peer s) = fs_snapshots s.
Proof. unfold UpsertPeer. by destruct (is_empty _). Qed.
Lemma UpsertPeer_local peer s : fs_localNodeID (UpsertPeer peer s) = fs_localNodeID s.
Proof. unfold UpsertPeer. by destruct (is_empty _). Qed.
Lemma RemovePeer_peers id s id' :
  id <> "" ->
  fs_peers (RemovePeer id s) !! id' = if String.eqb id' id then None else fs_peers s !! id'.
Proof.
  intros Hne. unfold RemovePeer. destruct (is_empty id) eqn:E; [by apply is_empty_spec in E|].
  simpl. destruct (String.eqb_spec id' id) as [->|]; [by rewrite lookup_delete_eq|].
  by rewrite lookup_delete_ne.
Qed.
Lemma RemovePeer_snapshots id s id' :
  id <> "" ->
  fs_snapshots (RemovePeer id s) !! id' = if String.eqb id' id then None else fs_snapshots s !! id'.
Proof.
  intros Hne. unfold RemovePeer. destruct (is_empty id) eqn:E; [by apply is_empty_spec in E|].
  simpl. destruct (String.eqb_spec id' id) as [->|]; [by rewrite lookup_delete_eq|].
  by rewrite lookup_delete_ne.
Qed.
Lemma RemovePeer_local id s : fs_localNodeID (RemovePeer id s) = fs_localNodeID s.
Proof. unfold RemovePeer. by destruct (is_empty _). Qed.
Lemma UpsertSnapshot_lookup sn s id :
  sn_NodeID sn <> "" ->
  fs_snapshots (UpsertSnapshot sn s) !! id = if String.eqb id (sn_NodeID sn) then Some sn
                                             else fs_snapshots s !! id.
Proof.
  intros Hne. unfold UpsertSnapshot. destruct (is_empty (sn_NodeID sn)) eqn:E;
    [by apply is_empty_spec in E|]. simpl.
  destruct (String.eqb_spec id (sn_NodeID sn)) as [->|]; [by rewrite lookup_insert_eq|].
  by rewrite lookup_insert_ne.
Qed.
Lemma UpsertSnapshot_peers sn s : fs_peers (UpsertSnapshot sn s) = fs_peers s.
Proof. unfold UpsertSnapshot. by destruct (is_empty _). Qed.
Lemma UpsertSnapshot_local sn s : fs_localNodeID (UpsertSnapshot sn s) = fs_localNodeID s.
Proof. unfold UpsertSnapshot. by destruct (is_empty _). Qed.

Lemma UpsertPeer_empty peer s : rn_NodeID peer = "" -> UpsertPeer peer s = s.
Proof. unfold UpsertPeer. by intros ->. Qed.
Lemma UpsertSnapshot_empty sn s : sn_NodeID sn = "" -> UpsertSnapshot sn s = s.
Proof. unfold UpsertSnapshot. by intros ->. Qed.
Lemma RemovePeer_empty s : RemovePeer "" s = s.
Proof. done. Qed.

Lemma UpsertPeer_ok peer s : store_ok s -> store_ok (UpsertPeer peer s).
Proof.
  intros [H1 H2 H3]. destruct (decide (rn_NodeID peer = "")) as [E|Hne];
    [by rewrite UpsertPeer_empty|]. split.
  - intros id p. rewrite UpsertPeer_lookup by done.
    destruct (String.eqb_spec id (rn_NodeID peer)) as [->|]; [by intros [= <-]|apply H1].
  - rewrite UpsertPeer_snapshots. apply H2.
  - by rewrite UpsertPeer_local.
Qed.
Lemma RemovePeer_ok id s : store_ok s -> store_ok (RemovePeer id s).
Proof.
  intros [H1 H2 H3]. destruct (decide (id = "")) as [->|Hne]; [done|]. split.
  - intros id' p. rewrite RemovePeer_peers by done. destruct (String.eqb id' id); [done|apply H1].
  - intros id' p. rewrite RemovePeer_snapshots by done. destruct (String.eqb id' id); [done|apply H2].
  - by rewrite RemovePeer_local.
Qed.
Lemma UpsertSnapshot_ok sn s : store_ok s -> store_ok (UpsertSnapshot sn s).
Proof.
  intros [H1 H2 H3]. destruct (decide (sn_NodeID sn = "")) as [E|Hne];
    [by rewrite UpsertSnapshot_empty|]. split.
  - rewrite UpsertSnapshot_peers. apply H1.
  - intros id p. rewrite UpsertSnapshot_lookup by done.
    destruct (String.eqb_spec id (sn_NodeID sn)) as [->|]; [by intros [= <-]|apply H2].
  - by rewrite UpsertSnapshot_local.
Qed.
Lemma NewStore_ok id opts :
  (forall o s, o ∈ opts -> store_ok s -> store_ok (o s)) -> store_ok (NewStore id opts).
Proof.
  intros Hopts. unfold NewStore. set (id' := if is_empty id then _ else _).
  assert (H0 : store_ok (mkStore id' true "global" ∅ ∅)).
  { split; simpl; [by intros ? ? ?%lookup_empty_Some..|].
    subst id'. destruct (is_empty id) eqn:E; [done|]. intros ->. done. }
  revert H0. generalize (mkStore id' true "global" ∅ ∅). clear id'.
  assert (Hf : forall l s, (forall o, o ∈ l -> o ∈ opts) -> store_ok s -> store_ok (foldl (fun s opt => opt s) s l)).
  { induction l as [|o l IH]; intros s Hin Hs; [done|]. cbn [foldl]. apply IH.
    - intros o' Ho'. apply Hin. by right.
    - apply Hopts; [apply Hin; left|done]. }
  intros s Hs. specialize (Hf opts s (fun o H => H) Hs). cbv zeta.
  destruct (_ && _); [|done]. destruct Hf as [A B C]. by split.
Qed.
