(* ===== verification/Federation.v ===== *)
(** * Federation: discovery of peers, signed snapshots, and their exchange

    [internal/federation]: signature.go, snapshot.go, puller.go, discovery.go,
    and the payload half of publisher.go and mvc_tx.go.  secp256k1, SHA-256 and
    address derivation are the class [Secp256k1] with their documented laws,
    [net/url] and [net.ParseIP] the class [NetURL].  Every reading of a clock is
    an argument of its own. *)

From S2P Require Import Prelude GoText Json FedStore.

(** Keys, signatures, hashes (btcec, bsvec, bsvutil, crypto/sha256). *)
Class Secp256k1 := {
  PublicKey : Type;
  PrivateKey : Type;
  Signature : Type;
  group_order : Z;
  PrivKeyFromBytes : list Z -> PrivateKey;
  PubKey : PrivateKey -> PublicKey;
  ParsePubKey : list Z -> res PublicKey;
  SerializeCompressed : PublicKey -> list Z;
  ecdsa_Sign : PrivateKey -> list Z -> Signature;
  sig_Serialize : Signature -> list Z;
  ParseDERSignature : list Z -> res Signature;
  sig_Verify : Signature -> list Z -> PublicKey -> bool;
  Sum256 : string -> list Z;
  (** [NewLegacyAddressPubKeyHash(Hash160(key), params)], by network *)
  LegacyAddress : list Z -> string -> string;
  sign_verify k h : sig_Verify (ecdsa_Sign k h) h (PubKey k) = true;
  der_roundtrip s : ParseDERSignature (sig_Serialize s) = Ok s;
  der_bytes s : bytes_ok (sig_Serialize s) /\ sig_Serialize s <> [];
  pub_roundtrip p : ParsePubKey (SerializeCompressed p) = Ok p;
  pub_bytes p : bytes_ok (SerializeCompressed p) /\ length (SerializeCompressed p) = 33%nat
                /\ (head (SerializeCompressed p) = Some 2 \/ head (SerializeCompressed p) = Some 3) }.

Record URL := mkURL { u_Scheme : string; u_Host : string; u_Hostname : string }.
Class NetURL := {
  url_Parse : string -> res URL;
  url_String : URL -> string;
  QueryEscape : string -> string;
  (** [net.ParseIP(s)] is an address and a loopback one *)
  IsLoopbackIP : string -> bool }.

Definition ProtocolNode : string := "metaso-p2p-node".
Definition ProtocolPresence : string := "metaso-p2p-presence".
Definition RegistryPath : string := "/protocols/metaso-p2p-node".
Definition PresencePath : string := "/.well-known/metaso-p2p/presence".
Definition Version : string := "1.0.0".
Definition publisherPresenceCapability : string := "presence-v1".

Record RegistryPayload := mkPayload {
  rp_Protocol : string;
  rp_Version : string;
  rp_NodeID : string;
  rp_Network : string;
  rp_PublicBaseURL : string;
  rp_SocketURL : string;
  rp_PresenceURL : string;
  rp_PublicKey : string;
  rp_Capabilities : list string;
  rp_PublishedAt : Z;
  rp_ValidUntil : Z }.

Record signableSnapshot := mkSignable {
  ss_Protocol : string;
  ss_Version : string;
  ss_NodeID : string;
  ss_GeneratedAt : Z;
  ss_TTLSeconds : Z;
  ss_Sequence : Z;
  ss_Items : list OnlineEntry }.

(** [manapiPathListResponse] before [manapiContentBytes.UnmarshalJSON]: the
    content body is the raw JSON text of the member, if it is there. *)
Record manapiPin := mkManapiPin {
  mp_ID : string;
  mp_Operation : string;
  mp_ChainName : string;
  mp_Timestamp : Z;
  mp_ContentBody : option string;
  mp_ContentSummary : string }.
Record manapiPathListResponse := mkPathList {
  mr_Code : Z;
  mr_Message : string;
  mr_List : list manapiPin }.

Class FedJSON := {
  json_signable :: JSON signableSnapshot;
  json_Snapshot :: JSON Snapshot;
  json_payload :: JSON RegistryPayload;
  json_manapi :: JSON manapiPathListResponse;
  json_text :: JSON string }.

(** What an HTTP client answers to a GET: an error, or a status and a body. *)
Record HTTPClient := mkClient {
  hc_NewRequest : string -> option error;
  hc_Do : string -> res (Z * string) }.

Section Federation.
Context {EC : Secp256k1} {NU : NetURL} {FJ : FedJSON} {MO : MapOrder}.

(** ** signature.go *)

Definition CanonicalSnapshotPayload (snapshot : Snapshot) : string :=
  json_Marshal (mkSignable (sn_Protocol snapshot) (sn_Version snapshot) (sn_NodeID snapshot)
    (sn_GeneratedAt snapshot) (sn_TTLSeconds snapshot) (sn_Sequence snapshot) (sn_Items snapshot)).

Definition decodeHexField (value : string) : res (list Z) :=
  let trimmed := TrimSpace value in
  if is_empty trimmed then Err "%s is required" else hex_DecodeString trimmed.

(** [new(big.Int).SetBytes(b)] *)
Definition big_SetBytes (l : list Z) : Z := foldl (fun n b => n * 256 + b) 0 l.
Definition parsePrivateKeyHex (privateKeyHex : string) : res PrivateKey :=
  decoded <-? decodeHexField privateKeyHex ;;
  if negb (Nat.eqb (length decoded) 32) then Err "private key must be %d bytes, got %d" else
  let keyValue := big_SetBytes decoded in
  if keyValue <=? 0 then Err "private key must be greater than zero"
  else if group_order <=? keyValue
  then Err "private key must be less than the secp256k1 group order"
  else Ok (PrivKeyFromBytes decoded).
Definition parsePublicKeyHex (publicKeyHex : string) : res PublicKey :=
  decoded <-? decodeHexField publicKeyHex ;;
  if negb (Nat.eqb (length decoded) 33) then Err "public key must be compressed %d bytes, got %d" else
  let first := default 0 (head decoded) in
  if negb (first =? 2) && negb (first =? 3)
  then Err "public key must use compressed secp256k1 prefix 0x02 or 0x03"
  else ParsePubKey decoded.
Definition parseDERSignatureHex (signatureHex : string) : res Signature :=
  decoded <-? decodeHexField signatureHex ;; ParseDERSignature decoded.

Definition SignSnapshot (snapshot : Snapshot) (privateKeyHex : string) : res string :=
  let payload := CanonicalSnapshotPayload snapshot in
  privateKey <-? parsePrivateKeyHex privateKeyHex ;;
  let signature := ecdsa_Sign privateKey (Sum256 payload) in
  Ok (hex_EncodeToString (sig_Serialize signature)).
Definition VerifySnapshot (snapshot : Snapshot) (expectedNodeID publicKeyHex : string) : res unit :=
  if negb (String.eqb (sn_NodeID snapshot) expectedNodeID)
  then Err "snapshot nodeId %q does not match expected node %q" else
  signature <-? parseDERSignatureHex (sn_Signature snapshot) ;;
  publicKey <-? parsePublicKeyHex publicKeyHex ;;
  let payload := CanonicalSnapshotPayload snapshot in
  if sig_Verify signature (Sum256 payload) publicKey then Ok tt
  else Err "snapshot signature verification failed".

(** ** snapshot.go *)

Record SnapshotBuilder := mkBuilder {
  sb_nodeID : string;
  sb_ttlSeconds : Z;
  sb_privateKey : string;
  sb_nextSeq : Z }.
Definition NewSnapshotBuilder (nodeID : string) (ttlSeconds : Z) (privateKey : string)
    : SnapshotBuilder := mkBuilder nodeID ttlSeconds privateKey 0.
Definition nextSequence (b : SnapshotBuilder) : Z * SnapshotBuilder :=
  let seq := u64 (sb_nextSeq b + 1) in
  (seq, mkBuilder (sb_nodeID b) (sb_ttlSeconds b) (sb_privateKey b) seq).

Definition item_less : OnlineEntry -> OnlineEntry -> bool :=
  on_key str_lt oe_MetaId (on_key str_lt oe_Type
    (on_key Z.ltb oe_ConnectedAt (on_key Z.ltb oe_LastSeenAt tie))).
(** [items] are [b.local.OnlineEntries()]; a sequence number is used up even
    when signing fails. *)
Definition BuildSnapshot (items : list OnlineEntry) (now : Z) (b : SnapshotBuilder)
    : res Snapshot * SnapshotBuilder :=
  let items := SliceStable item_less items in
  let '(seq, b) := nextSequence b in
  let snapshot := mkSnapshot ProtocolPresence Version (sb_nodeID b) (UnixMilli now)
                    (sb_ttlSeconds b) seq items "" in
  if is_empty (sb_privateKey b) then (Ok snapshot, b) else
  (signature <-? SignSnapshot snapshot (sb_privateKey b) ;;
   Ok (mkSnapshot ProtocolPresence Version (sb_nodeID b) (UnixMilli now) (sb_ttlSeconds b) seq
         items signature), b).

(** ** puller.go *)

Record pullerPeerFailure := mkFailure { pf_count : Z; pf_nextEligiblePullAt : Z }.
Record Puller := mkPuller {
  pl_selfNodeID : string;
  pl_requestTimeout : Z;
  pl_maxSnapshotBytes : Z;
  pl_interval : Z;
  pl_backoffBase : Z;
  pl_backoffMax : Z;
  pl_failures : gmap string pullerPeerFailure }.

Definition fed_second : Z := 1000000000.
Definition or_default (x d : Z) : Z := if x <=? 0 then d else x.
(** [opts.Store] is not nil; only its local id is used here. *)
Definition NewPuller (store : Store) (selfNodeID : string)
    (requestTimeout maxSnapshotBytes interval backoffBase backoffMax : Z) : Puller :=
  let self := TrimSpace selfNodeID in
  let self := if is_empty self then fs_localNodeID store else self in
  let self := if is_empty self then defaultLocalNodeID else self in
  let base := or_default backoffBase fed_second in
  let max := or_default backoffMax (60 * fed_second) in
  mkPuller self (or_default requestTimeout (3 * fed_second)) (or_default maxSnapshotBytes 1048576)
    (or_default interval (20 * fed_second)) base (if max <? base then base else max) ∅.

Definition peerEligible (nodeID : string) (now : Z) (p : Puller) : bool :=
  match pl_failures p !! nodeID with
  | None => true
  | Some failure => pf_nextEligiblePullAt failure <=? now
  end.

(** The loop body of [backoffDelay], [n] more times at most. *)
Fixpoint backoff_loop (n : nat) (delay max : Z) : Z :=
  match n with
  | O => delay
  | S n => if delay <? max then
             if max / 2 <? delay then max else backoff_loop n (wrap64 (delay * 2)) max
           else delay
  end.
Definition backoffDelay (failureCount : Z) (p : Puller) : Z :=
  let delay := backoff_loop (Z.to_nat (failureCount - 1)) (pl_backoffBase p) (pl_backoffMax p) in
  if pl_backoffMax p <? delay then pl_backoffMax p else delay.

Definition set_failures (m : gmap string pullerPeerFailure) (p : Puller) : Puller :=
  mkPuller (pl_selfNodeID p) (pl_requestTimeout p) (pl_maxSnapshotBytes p) (pl_interval p)
    (pl_backoffBase p) (pl_backoffMax p) m.
Definition recordFailure (nodeID : string) (now : Z) (p : Puller) : Puller :=
  let count := match pl_failures p !! nodeID with Some f => pf_count f | None => 0 end + 1 in
  set_failures (<[nodeID := mkFailure count (now + backoffDelay count p)]> (pl_failures p)) p.
Definition clearFailure (nodeID : string) (p : Puller) : Puller :=
  set_failures (delete nodeID (pl_failures p)) p.

Definition decodeSnapshot (body : string) (p : Puller) : res Snapshot :=
  let raw := stake (Z.to_nat (pl_maxSnapshotBytes p + 1)) body in
  if pl_maxSnapshotBytes p <? slen raw then Err "presence snapshot body exceeds %d bytes"
  else json_Unmarshal raw.

Definition validateSnapshot (snapshot : Snapshot) (peer : RegistryNode) (now : Z) (store : Store)
    : res unit :=
  if negb (String.eqb (sn_Protocol snapshot) ProtocolPresence)
  then Err "unsupported presence snapshot protocol %q" else
  if negb (String.eqb (TrimSpace (sn_Version snapshot)) Version)
  then Err "unsupported presence snapshot version %q" else
  if sn_GeneratedAt snapshot <=? 0 then Err "presence snapshot generatedAt is required" else
  if sn_TTLSeconds snapshot <=? 0 then Err "presence snapshot ttlSeconds must be positive" else
  if snapshotExpired snapshot now then Err "stale presence snapshot generatedAt=%d ttlSeconds=%d" else
  _ <-? VerifySnapshot snapshot (rn_NodeID peer) (rn_PublicKey peer) ;;
  match Snapshot_ (rn_NodeID peer) store with
  | Some last =>
      if negb (snapshotExpired last now) && (sn_Sequence snapshot <=? sn_Sequence last)
      then Err "presence snapshot sequence %d is not greater than last accepted %d" else Ok tt
  | None => Ok tt
  end.

(** The clock readings of one peer's turn in [PullOnce]. *)
Record PeerClock := mkPeerClock { pc_check : Z; pc_validate : Z; pc_fail : Z }.

Definition pullPeer (client : HTTPClient) (peer : RegistryNode) (now : Z) (p : Puller) (store : Store)
    : res unit * Store :=
  let presenceURL := TrimSpace (rn_PresenceURL peer) in
  if is_empty presenceURL then (Err "peer presenceUrl is required", store) else
  match hc_NewRequest client presenceURL with
  | Some err => (Err err, store)
  | None =>
      match hc_Do client presenceURL with
      | Err err => (Err err, store)
      | Ok (status, body) =>
          if (status <? 200) || (300 <=? status) then (Err "presence snapshot returned HTTP %d", store)
          else match decodeSnapshot body p with
               | Err err => (Err err, store)
               | Ok snapshot =>
                   match validateSnapshot snapshot peer now store with
                   | Err err => (Err err, store)
                   | Ok _ => (Ok tt, UpsertSnapshot snapshot store)
                   end
               end
      end
  end.

(** One turn of the loop of [PullOnce]; the errors are joined. *)
Definition pull_turn (client : HTTPClient) (clocks : string -> PeerClock) (peer : RegistryNode)
    (st : list (string * error) * Puller * Store) : list (string * error) * Puller * Store :=
  let '(errs, p, store) := st in
  let id := rn_NodeID peer in
  if is_empty id || String.eqb id (pl_selfNodeID p) then st else
  let peerNow := pc_check (clocks id) in
  if peerExpired peer peerNow || negb (peerEligible id peerNow p) then st else
  match pullPeer client peer (pc_validate (clocks id)) p store with
  | (Err err, store) => (errs ++ [(id, err)], recordFailure id (pc_fail (clocks id)) p, store)
  | (Ok _, store) => (errs, clearFailure id p, store)
  end.
Definition PullOnce (client : HTTPClient) (now : Z) (clocks : string -> PeerClock) (p : Puller)
    (store : Store) : list (string * error) * Puller * Store :=
  foldl (fun st peer => pull_turn client clocks peer st) ([], p, store) (ActivePeers now store).

(** ** mvc_tx.go and publisher.go: identity and registry payload *)

Definition one_of (s : string) (l : list string) : bool := existsb (String.eqb s) l.
(** The network parameters are named by the label of the network. *)
Definition mvcRegistryNetParams (net : string) : res string :=
  let n := ToLower (TrimSpace net) in
  if one_of n [""; "mvc-mainnet"; "mainnet"; "mvc"; "0"] then Ok "mainnet"
  else if one_of n ["mvc-testnet"; "testnet"; "testnet3"; "1"] then Ok "testnet3"
  else if one_of n ["mvc-regtest"; "regtest"; "regression"; "2"] then Ok "regtest"
  else Err "unsupported MVC network %q".
Definition normalizePublisherNetwork (network : string) : res string :=
  let n := ToLower (TrimSpace network) in
  if one_of n [""; "mvc-mainnet"; "mainnet"; "mvc"; "livenet"; "0"] then Ok "mvc-mainnet"
  else if one_of n ["mvc-testnet"; "testnet"; "testnet3"; "1"] then Ok "mvc-testnet"
  else if one_of n ["mvc-regtest"; "regtest"; "regression"; "2"] then Ok "mvc-regtest"
  else Err "unsupported publisher network %q".
Definition normalizedPublisherPath (pathValue defaultPath : string) : string :=
  let pathValue := TrimSpace pathValue in
  if is_empty pathValue then defaultPath
  else if negb (HasPrefix pathValue "/") then "/" +:+ pathValue else pathValue.
Definition publisherJoinURL (baseURL pathValue : string) : string :=
  TrimRightChar "/" baseURL +:+ "/" +:+ TrimLeftChar "/" pathValue.

(** The same checks as [parsePrivateKeyHex], with the bsv library. *)
Definition mvcRegistryPrivateKeyFromHex (privateKeyHex : string) : res PrivateKey :=
  parsePrivateKeyHex privateKeyHex.
Definition mvcRegistryIdentity (privateKey : PrivateKey) (params : string) : string * string :=
  let publicKey := SerializeCompressed (PubKey privateKey) in
  (LegacyAddress publicKey params, hex_EncodeToString publicKey).
Definition MVCIdentityFromPrivateKey (privateKeyHex net : string) : res (string * string) :=
  params <-? mvcRegistryNetParams net ;;
  privateKey <-? mvcRegistryPrivateKeyFromHex privateKeyHex ;;
  Ok (mvcRegistryIdentity privateKey params).

(** [p.registryPayload(now)] for the fields of [Publisher] it reads; [validFor]
    in nanoseconds. *)
Definition registryPayload (address network publicBaseURL presencePath publicKey : string)
    (validFor now : Z) : RegistryPayload :=
  mkPayload ProtocolNode Version ("mvc:" +:+ address) network publicBaseURL
    (publisherJoinURL publicBaseURL "/socket/socket.io") (publisherJoinURL publicBaseURL presencePath)
    publicKey [publisherPresenceCapability] (UnixMilli now) (UnixMilli (now + validFor)).

(** ** discovery.go *)

Record RegistryPin := mkRegistryPin {
  gp_ID : string;
  gp_Operation : string;
  gp_ChainName : string;
  gp_Timestamp : Z;
  gp_ContentBody : string;
  gp_ContentSummary : string }.
#[export] Instance RegistryPin_eq_dec : EqDecision RegistryPin.
Proof. solve_decision. Defined.
Record Discovery := mkDiscovery {
  dc_manapiBaseURL : string;
  dc_registryPath : string;
  dc_size : Z;
  dc_selfNodeID : string;
  dc_network : string;
  dc_allowInsecureHTTP : bool;
  dc_maxPeers : Z }.
Record registryDiscoveryCandidate := mkCandidate {
  cd_pin : RegistryPin;
  cd_node : RegistryNode;
  cd_remove : bool }.

Definition NewDiscovery (manapiBaseURL registryPath : string) (size : Z)
    (selfNodeID network : string) (allowInsecureHTTP : bool) (maxPeers : Z) : res Discovery :=
  let manapiBaseURL := TrimSpace manapiBaseURL in
  if is_empty manapiBaseURL then Err "federation discovery requires MANAPI base URL" else
  if negb (Contains manapiBaseURL "{protocol-path}") || negb (Contains manapiBaseURL "{size}")
  then Err "MANAPI base URL requires {protocol-path} and {size} placeholders" else
  network <-? normalizePublisherNetwork network ;;
  Ok (mkDiscovery manapiBaseURL (normalizedPublisherPath registryPath RegistryPath)
        (or_default size 100) (TrimSpace selfNodeID) network allowInsecureHTTP maxPeers).

(** [manapiContentBytes.UnmarshalJSON] *)
Definition manapiContentBytes (data : option string) : string :=
  match data with
  | None => ""
  | Some data =>
      let trimmed := TrimSpace data in
      if is_empty trimmed || String.eqb trimmed "null" then "" else
      match json_Unmarshal (A := string) data with
      | Ok text => TrimSpace text
      | Err _ => trimmed
      end
  end.
Definition registry_pin (pin : manapiPin) : RegistryPin :=
  mkRegistryPin (TrimSpace (mp_ID pin)) (TrimSpace (mp_Operation pin)) (TrimSpace (mp_ChainName pin))
    (mp_Timestamp pin) (manapiContentBytes (mp_ContentBody pin)) (TrimSpace (mp_ContentSummary pin)).

(** [strings.ReplaceAll(s, old, new)] for a non-empty [old]; [fuel] is at least
    the length of [s]. *)
Fixpoint ReplaceAll (fuel : nat) (s old new : string) : string :=
  match fuel with
  | O => s
  | S fuel =>
      match s with
      | "" => ""
      | String c r =>
          if HasPrefix s old then new +:+ ReplaceAll fuel (sdrop (String.length old) s) old new
          else String c (ReplaceAll fuel r old new)
      end
  end.
Definition expandMANAPIURL (template registryPath : string) (size : Z) : res string :=
  let raw := TrimSpace template in
  if is_empty raw then Err "MANAPI URL template is required" else
  let expanded := ReplaceAll (String.length raw) raw "{protocol-path}" (QueryEscape registryPath) in
  let expanded := ReplaceAll (String.length expanded) expanded "{size}" (fmt_d size) in
  parsed <-? url_Parse expanded ;;
  if is_empty (u_Scheme parsed) || is_empty (u_Host parsed)
  then Err "MANAPI discovery URL requires scheme and host" else Ok (url_String parsed).
Definition fetchRegistryPins (client : HTTPClient) (d : Discovery) : res (list RegistryPin) :=
  requestURL <-? expandMANAPIURL (dc_manapiBaseURL d) (dc_registryPath d) (dc_size d) ;;
  match hc_NewRequest client requestURL with
  | Some err => Err err
  | None =>
      resp <-? hc_Do client requestURL ;;
      let '(status, body) := resp in
      if (status <? 200) || (300 <=? status) then Err "MANAPI registry discovery returned HTTP %d" else
      envelope <-? json_Unmarshal (A := manapiPathListResponse) body ;;
      if negb (mr_Code envelope =? 1)
      then Err "MANAPI registry discovery failed: code=%d message=%s"
      else Ok (map registry_pin (mr_List envelope))
  end.

Definition discoveryPinContent (pin : RegistryPin) : string :=
  let content := TrimSpace (gp_ContentBody pin) in
  if negb (is_empty content) then content else TrimSpace (gp_ContentSummary pin).
Definition registryNodeFromPin (pin : RegistryPin) : option RegistryNode :=
  let content := discoveryPinContent pin in
  if is_empty content then None else
  match json_Unmarshal (A := RegistryPayload) content with
  | Err _ => None
  | Ok p =>
      Some (mkNode (TrimSpace (rp_Protocol p)) (TrimSpace (rp_Version p)) (TrimSpace (rp_NodeID p))
              (TrimSpace (rp_Network p)) (TrimSpace (rp_PublicBaseURL p)) (TrimSpace (rp_SocketURL p))
              (TrimSpace (rp_PresenceURL p)) (TrimSpace (rp_PublicKey p)) (rp_Capabilities p)
              (rp_PublishedAt p) (rp_ValidUntil p))
  end.

Definition mvcAddressFromPublicKey (publicKeyHex network : string) : res string :=
  publicKey <-? parsePublicKeyHex publicKeyHex ;;
  params <-? mvcRegistryNetParams network ;;
  Ok (LegacyAddress (SerializeCompressed publicKey) params).
Definition registryCapabilitiesInclude (capabilities : list string) (capability : string) : bool :=
  existsb (fun item => EqualFold (TrimSpace item) capability) capabilities.
(** [strings.Trim(s, "[]")] *)
Definition is_bracket (c : ascii) : bool := Ascii.eqb c "[" || Ascii.eqb c "]".
Fixpoint trim_left_brackets (s : string) : string :=
  match s with "" => "" | String c r => if is_bracket c then trim_left_brackets r else s end.
Definition discoveryIsLoopbackHost (host : string) : bool :=
  let host := srev (trim_left_brackets (srev (trim_left_brackets (ToLower (TrimSpace host))))) in
  String.eqb host "localhost" || IsLoopbackIP host.
Definition discoveryPresenceURLAllowed (raw : string) (allowInsecureHTTP : bool) : bool :=
  match url_Parse (TrimSpace raw) with
  | Err _ => false
  | Ok parsed =>
      if is_empty (u_Scheme parsed) || is_empty (u_Host parsed) then false else
      let scheme := ToLower (u_Scheme parsed) in
      if String.eqb scheme "https" then true
      else if String.eqb scheme "http"
      then allowInsecureHTTP || discoveryIsLoopbackHost (u_Hostname parsed) else false
  end.
Definition acceptRegistryNode (node : RegistryNode) (d : Discovery) : bool :=
  if negb (String.eqb (rn_Protocol node) ProtocolNode) then false
  else if is_empty (TrimSpace (rn_Version node)) then false
  else if is_empty (TrimSpace (rn_Network node)) then false
  else if is_empty (TrimSpace (rn_PresenceURL node)) then false
  else if is_empty (TrimSpace (rn_PublicKey node)) then false
  else match mvcAddressFromPublicKey (rn_PublicKey node) (dc_network d) with
       | Err _ => false
       | Ok expectedAddress =>
           if negb (String.eqb (TrimSpace (rn_NodeID node)) ("mvc:" +:+ expectedAddress)) then false
           else if negb (registryCapabilitiesInclude (rn_Capabilities node) publisherPresenceCapability)
           then false
           else discoveryPresenceURLAllowed (rn_PresenceURL node) (dc_allowInsecureHTTP d)
       end.

Definition set_NodeID (id : string) (n : RegistryNode) : RegistryNode :=
  mkNode (rn_Protocol n) (rn_Version n) id (rn_Network n) (rn_PublicBaseURL n) (rn_SocketURL n)
    (rn_PresenceURL n) (rn_PublicKey n) (rn_Capabilities n) (rn_PublishedAt n) (rn_ValidUntil n).
Definition candidateFromPin (pin : RegistryPin) (now : Z) (d : Discovery)
    : option registryDiscoveryCandidate :=
  let operation := ToLower (TrimSpace (gp_Operation pin)) in
  if negb (EqualFold (TrimSpace (gp_ChainName pin)) "mvc") then None else
  if negb (one_of operation ["create"; "modify"; "revoke"]) then None else
  match registryNodeFromPin pin with
  | None => None
  | Some node =>
      if is_empty (TrimSpace (rn_NodeID node)) then None else
      let node := set_NodeID (TrimSpace (rn_NodeID node)) node in
      if negb (is_empty (dc_selfNodeID d)) && String.eqb (rn_NodeID node) (dc_selfNodeID d) then None else
      if negb (is_empty (dc_network d)) && negb (EqualFold (TrimSpace (rn_Network node)) (dc_network d))
      then None else
      if negb (acceptRegistryNode node d) then None else
      Some (mkCandidate pin node (String.eqb operation "revoke" || peerExpired node now))
  end.
Definition discoveryCandidateNewer (candidate existing : registryDiscoveryCandidate) : bool :=
  on_key Z_gt (fun c => gp_Timestamp (cd_pin c))
    (on_key Z_gt (fun c => rn_PublishedAt (cd_node c))
       (on_key str_gt (fun c => gp_ID (cd_pin c)) tie)) candidate existing.

(** The first loop of [DiscoverOnce]. *)
Definition add_candidate (d : Discovery) (now : Z) (m : gmap string registryDiscoveryCandidate)
    (pin : RegistryPin) : gmap string registryDiscoveryCandidate :=
  match candidateFromPin pin now d with
  | None => m
  | Some candidate =>
      let id := rn_NodeID (cd_node candidate) in
      match m !! id with
      | None => <[id := candidate]> m
      | Some existing =>
          if discoveryCandidateNewer candidate existing then <[id := candidate]> m else m
      end
  end.
(** The second loop, over the sorted node ids. *)
Fixpoint apply_candidates (nodeIDs : list string) (m : gmap string registryDiscoveryCandidate)
    (store : Store) : list RegistryNode * Store :=
  match nodeIDs with
  | [] => ([], store)
  | id :: nodeIDs =>
      match m !! id with
      | None => apply_candidates nodeIDs m store
      | Some c =>
          if cd_remove c then apply_candidates nodeIDs m (RemovePeer id store)
          else let '(accepted, store) := apply_candidates nodeIDs m store in
               (cd_node c :: accepted, store)
      end
  end.
Definition DiscoverOnce (client : HTTPClient) (now : Z) (d : Discovery) (store : Store)
    : res (list RegistryNode) * Store :=
  match fetchRegistryPins client d with
  | Err err => (Err err, store)
  | Ok pins =>
      let candidates := foldl (add_candidate d now) ∅ pins in
      let nodeIDs := SliceStable str_lt (map_range candidates).*1 in
      let '(accepted, store) := apply_candidates nodeIDs candidates store in
      let accepted := if (0 <? dc_maxPeers d) && (dc_maxPeers d <? Z.of_nat (length accepted))
                      then take (Z.to_nat (dc_maxPeers d)) accepted else accepted in
      (Ok accepted, foldl (fun s peer => UpsertPeer peer s) store accepted)
  end.
End Federation.
