(* ===== verification/FederationSample.v ===== *)
(** * FederationSample: instances on which the federation witnesses evaluate

    A signature scheme with two keys that satisfies the laws of [Secp256k1], a
    URL parser for https URLs, token codecs for JSON. *)

From S2P Require Import Prelude GoText Json FedStore Federation.

Definition toy_key (b : bool) : list Z := (if b then 2 else 3) :: repeat 0 32.
#[refine] Definition toy_crypto : Secp256k1 := {|
  PublicKey := bool; PrivateKey := bool; Signature := bool * string;
  group_order := 2 ^ 256 - 1;
  PrivKeyFromBytes l := Z.even (big_SetBytes l);
  PubKey k := k;
  ParsePubKey l := Ok (default 0 (head l) =? 2);
  SerializeCompressed := toy_key;
  ecdsa_Sign k h := (k, string_of_bytes h);
  sig_Serialize s := (if s.1 then 1 else 0) :: bytes_of_string s.2;
  ParseDERSignature l := match l with
    | [] => Err "malformed signature" | b :: l => Ok (b =? 1, string_of_bytes l) end;
  sig_Verify s h p := Bool.eqb s.1 p && String.eqb s.2 (string_of_bytes h);
  Sum256 s := bytes_of_string s;
  LegacyAddress l net := "1Node" +:+ (if default 0 (head l) =? 2 then "A" else "B") |}.
Proof.
  - intros k h. simpl. by rewrite eqb_reflx, String.eqb_refl.
  - intros [[] s]; simpl; by rewrite string_of_bytes_of_string.
  - intros [b s]. split; [|done]. constructor; [destruct b; unfold byte_ok; simpl; lia|].
    apply bytes_of_string_ok.
  - by intros [].
  - intros b. split_and!; [|by destruct b|destruct b; [by left|by right]].
    unfold toy_key. constructor; [destruct b; unfold byte_ok; lia|].
    apply Forall_forall. intros x Hx. apply list_elem_of_In, repeat_spec in Hx as ->.
    unfold byte_ok. lia.
Defined.

Definition toy_url : NetURL := {|
  url_Parse s := if HasPrefix s "https://" then Ok (mkURL "https" (sdrop 8 s) (sdrop 8 s))
                 else Err "parse error";
  url_String u := u_Scheme u +:+ "://" +:+ u_Host u;
  QueryEscape s := s;
  IsLoopbackIP s := String.eqb s "127.0.0.1" |}.

Definition entry_toks (e : OnlineEntry) : list tok :=
  [TS (oe_MetaId e); TS (oe_Type e); TZ (oe_ConnectedAt e); TZ (oe_LastSeenAt e)].
Fixpoint toks_entries (l : list tok) : option (list OnlineEntry) :=
  match l with
  | [] => Some []
  | TS m :: TS t :: TZ c :: TZ s :: l => cons (mkEntry m t c s [] 0) <$> toks_entries l
  | _ => None
  end.
Definition pin_toks (p : manapiPin) : list tok :=
  [TS (mp_ID p); TS (mp_Operation p); TS (mp_ChainName p); TZ (mp_Timestamp p);
   TS (default "" (mp_ContentBody p)); TS (mp_ContentSummary p)].
Fixpoint toks_pins (l : list tok) : option (list manapiPin) :=
  match l with
  | [] => Some []
  | TS i :: TS o :: TS c :: TZ t :: TS b :: TS s :: l =>
      cons (mkManapiPin i o c t (Some b) s) <$> toks_pins l
  | _ => None
  end.
Definition toy_json : FedJSON := {|
  json_signable := via_JSON
    (fun s => TS (ss_Protocol s) :: TS (ss_Version s) :: TS (ss_NodeID s) :: TZ (ss_GeneratedAt s)
              :: TZ (ss_TTLSeconds s) :: TZ (ss_Sequence s) :: mjoin (map entry_toks (ss_Items s)))
    (fun _ => None);
  json_Snapshot := via_JSON
    (fun s => TS (sn_Protocol s) :: TS (sn_Version s) :: TS (sn_NodeID s) :: TZ (sn_GeneratedAt s)
              :: TZ (sn_TTLSeconds s) :: TZ (sn_Sequence s) :: TS (sn_Signature s)
              :: mjoin (map entry_toks (sn_Items s)))
    (fun l => match l with
       | TS p :: TS v :: TS n :: TZ g :: TZ t :: TZ q :: TS sg :: l =>
           (fun items => mkSnapshot p v n g t q items sg) <$> toks_entries l
       | _ => None end);
  json_payload := via_JSON
    (fun p => [TS (rp_Protocol p); TS (rp_Version p); TS (rp_NodeID p); TS (rp_Network p);
               TS (rp_PublicBaseURL p); TS (rp_SocketURL p); TS (rp_PresenceURL p);
               TS (rp_PublicKey p); TZ (rp_PublishedAt p); TZ (rp_ValidUntil p)]
              ++ map TS (rp_Capabilities p))
    (fun l => match l with
       | [TS a; TS b; TS c; TS d; TS e; TS f; TS g; TS h; TZ i; TZ j; TS k] =>
           Some (mkPayload a b c d e f g h [k] i j)
       | _ => None end);
  json_manapi := via_JSON
    (fun r => TZ (mr_Code r) :: TS (mr_Message r) :: mjoin (map pin_toks (mr_List r)))
    (fun l => match l with TZ c :: TS m :: l => mkPathList c m <$> toks_pins l | _ => None end);
  json_text := via_JSON (fun s => [TS s]) (fun l => match l with [TS s] => Some s | _ => None end) |}.

(** ** Two nodes *)

Definition secret_a : string := hex_EncodeToString (repeat 0 31 ++ [2]).
Definition secret_b : string := hex_EncodeToString (repeat 0 31 ++ [1]).
Definition conn (m t : string) (c l : Z) : OnlineEntry := mkEntry m t c l [] 0.
Definition local_b : list OnlineEntry := [conn "bob" "pc" 1000 9000].
Definition items_a : list OnlineEntry := [conn "carol" "pc" 3000 8000; conn "bob" "pc" 500 7000].
(** Milliseconds to the nanoseconds of the clocks. *)
Definition ms (t : Z) : Z := t * 1000000.

#[local] Existing Instance toy_crypto.
#[local] Existing Instance toy_url.
#[local] Existing Instance toy_json.
#[local] Existing Instance some_order.

Definition payload_a : RegistryPayload :=
  registryPayload "1NodeA" "mvc-mainnet" "https://a.example" PresencePath
    (hex_EncodeToString (toy_key true)) (ms 100000) (ms 1000).
Definition reg_pin (id op : string) (t : Z) : manapiPin :=
  mkManapiPin id op "mvc" t (Some (json_Marshal (json_Marshal payload_a))) "".
Definition envelope (l : list manapiPin) : manapiPathListResponse := mkPathList 1 "ok" l.
Definition builder_a : SnapshotBuilder := NewSnapshotBuilder "mvc:1NodeA" 30 secret_a.
Definition snapshot_a : Snapshot :=
  match (BuildSnapshot items_a (ms 9000) builder_a).1 with
  | Ok sn => sn
  | Err _ => mkSnapshot "" "" "" 0 0 0 [] ""
  end.
(** Serves the given registry pins and node A's snapshot. *)
Definition sample_client (pins : list manapiPin) : HTTPClient :=
  mkClient (fun _ => None)
    (fun url => if HasPrefix url "https://a.example" then Ok (200, json_Marshal snapshot_a)
                else Ok (200, json_Marshal (envelope pins))).
Definition discovery_b : Discovery :=
  mkDiscovery "https://manapi.example/list?path={protocol-path}&size={size}" RegistryPath 100
    "mvc:1NodeB" "mvc-mainnet" false 10.
Definition store_b : Store := NewStore "mvc:1NodeB" [WithStoreEnabled true; WithStoreDefaultScope "global"].
Definition pins_a : list manapiPin := [reg_pin "p1" "create" 5].
Definition store_found : Store := (DiscoverOnce (sample_client pins_a) (ms 8000) discovery_b store_b).2.
Definition puller_b : Puller := NewPuller store_b "mvc:1NodeB" 0 0 0 0 0.
Definition clock_b (_ : string) : PeerClock := mkPeerClock (ms 9500) (ms 9500) (ms 9600).
Definition store_pulled : Store :=
  (PullOnce (sample_client pins_a) (ms 9400) clock_b puller_b store_found).2.

Example sample_online :
  GlobalOnline local_b (ms 10000) store_pulled
  = [mkEntry "bob" "pc" 500 9000 ["mvc:1NodeA"; "mvc:1NodeB"] 2;
     mkEntry "carol" "pc" 3000 8000 ["mvc:1NodeA"] 1].
Proof. vm_compute. reflexivity. Qed.
