(* ===== verification/FederationFacts.v ===== *)
(** * FederationFacts: whom the merged presence comes from

    A signed snapshot is accepted by the peers; every stored snapshot was signed
    with the key its node id is derived from; sequence numbers do not go back;
    peers do not affect each other; the newest registry entry decides. *)

From S2P Require Import Prelude GoText Json FedStore FedStoreFacts Federation FederationSample.
#[local] Set Warnings "-clear-no-such-hyp".

Section Facts.
Context {EC : Secp256k1} {NU : NetURL} {FJ : FedJSON} {MO : MapOrder}.

(** ** Signatures *)

Definition is_hex (c : ascii) : bool :=
  let z := Z_of_ascii c in ((48 <=? z) && (z <=? 57)) || ((97 <=? z) && (z <=? 102)).
Fixpoint all_hex (s : string) : bool :=
  match s with "" => true | String c s => is_hex c && all_hex s end.

Lemma is_hex_char v : 0 <= v < 16 -> is_hex (hex_char v) = true.
Proof.
  intros Hv. assert (H : In v (map Z.of_nat (List.seq 0 16))).
  { apply in_map_iff. exists (Z.to_nat v). split; [lia|]. apply in_seq. lia. }
  revert H. apply (proj1 (List.Forall_forall (fun v => is_hex (hex_char v) = true) _)).
  repeat constructor.
Qed.
Lemma hex_all_hex l : bytes_ok l -> all_hex (hex_EncodeToString l) = true.
Proof.
  induction 1 as [|b l Hb _ IH]; [done|]. unfold byte_ok in Hb. cbn [hex_EncodeToString all_hex].
  pose proof (Z.div_mod b 16 ltac:(lia)). pose proof (Z.mod_pos_bound b 16 ltac:(lia)).
  by rewrite !is_hex_char, IH by lia.
Qed.
Lemma is_hex_plain c d e :
  is_hex c = true -> space1 c = false /\ space2 c d = false /\ space3 c d e = false
  /\ space2 d c = false /\ space3 d e c = false.
Proof.
  unfold is_hex, space1, space2, space3. intros H.
  assert (Hc : 48 <= Z_of_ascii c <= 57 \/ 97 <= Z_of_ascii c <= 102).
  { rewrite orb_true_iff, !andb_true_iff, !Z.leb_le in H. lia. }
  assert (Hne : forall k, (0x80 <= k \/ k <= 32) -> (Z_of_ascii c =? k) = false)
    by (intros; apply Z.eqb_neq; lia).
  rewrite !Hne by lia.
  rewrite (proj2 (Z.leb_gt 0x80 (Z_of_ascii c))) by lia.
  rewrite (proj2 (Z.leb_gt (Z_of_ascii c) 13)) by lia.
  rewrite ?andb_false_r, ?andb_false_l, ?orb_false_r. done.
Qed.
(** Hexadecimal text has nothing to trim. *)
Lemma leading_hex s2 s3 s :
  (forall c d e, is_hex c = true -> s2 c d = false /\ s3 c d e = false) ->
  all_hex s = true -> leading s2 s3 s = false.
Proof.
  intros H. destruct s as [|c [|d [|e r]]]; simpl; [done| | |]; intros [Hc _]%andb_true_iff.
  - by destruct (is_hex_plain c c c Hc) as [-> _].
  - destruct (is_hex_plain c d d Hc) as [-> _]. by destruct (H c d d Hc) as [-> _].
  - destruct (is_hex_plain c d e Hc) as [-> _]. by destruct (H c d e Hc) as [-> ->].
Qed.
Lemma all_hex_app a b : all_hex (a +:+ b) = all_hex a && all_hex b.
Proof. induction a as [|c a IH]; [done|]. rewrite sapp_cons. simpl. by rewrite IH, andb_assoc. Qed.
Lemma all_hex_srev s : all_hex (srev s) = all_hex s.
Proof.
  induction s as [|c s IH]; [done|]. unfold srev. simpl. rewrite srev_app_eq, all_hex_app, IH. simpl.
  by rewrite andb_true_r, andb_comm.
Qed.
Lemma TrimSpace_hex s : all_hex s = true -> TrimSpace s = s.
Proof.
  intros H. unfold TrimSpace. rewrite (trim_left_id space2 space3 s).
  - rewrite trim_left_id; [apply srev_srev|]. apply leading_hex; [|by rewrite all_hex_srev].
    intros c d e Hc. destruct (is_hex_plain c d e Hc) as (_ & _ & _ & H2 & _).
    destruct (is_hex_plain c e d Hc) as (_ & _ & _ & _ & H3). by split.
  - apply leading_hex; [|done]. intros c d e Hc. by destruct (is_hex_plain c d e Hc) as (_ & ? & ? & _).
Qed.
Lemma decodeHexField_encode l :
  bytes_ok l -> l <> [] -> decodeHexField (hex_EncodeToString l) = Ok l.
Proof.
  intros Hl Hne. unfold decodeHexField. rewrite TrimSpace_hex by by apply hex_all_hex.
  destruct l as [|b l]; [done|]. cbn [hex_EncodeToString is_empty].
  by rewrite <- hex_roundtrip by done.
Qed.

Definition public_hex (k : PrivateKey) : string := hex_EncodeToString (SerializeCompressed (PubKey k)).
Lemma parsePublicKeyHex_encode k : parsePublicKeyHex (public_hex k) = Ok (PubKey k).
Proof.
  destruct (pub_bytes (PubKey k)) as (Hb & Hl & Hh). unfold parsePublicKeyHex, public_hex.
  rewrite decodeHexField_encode; [|done|by intros E; rewrite E in Hl]. rewrite Hl. simpl.
  destruct Hh as [-> | ->]; simpl; apply pub_roundtrip.
Qed.

Lemma verify_signed snapshot key k sig :
  parsePrivateKeyHex key = Ok k -> SignSnapshot snapshot key = Ok sig ->
  VerifySnapshot (mkSnapshot (sn_Protocol snapshot) (sn_Version snapshot) (sn_NodeID snapshot)
      (sn_GeneratedAt snapshot) (sn_TTLSeconds snapshot) (sn_Sequence snapshot) (sn_Items snapshot) sig)
    (sn_NodeID snapshot) (public_hex k) = Ok tt.
Proof.
  intros Hk. unfold SignSnapshot. rewrite Hk. intros [= <-].
  unfold VerifySnapshot, parseDERSignatureHex. cbn [sn_NodeID sn_Signature].
  rewrite String.eqb_refl. cbn [negb].
  destruct (der_bytes (ecdsa_Sign k (Sum256 (CanonicalSnapshotPayload snapshot)))) as [Hb Hne].
  rewrite decodeHexField_encode, der_roundtrip, parsePublicKeyHex_encode by done.
  unfold CanonicalSnapshotPayload. cbn. by rewrite sign_verify.
Qed.

(** ** One snapshot from node to peer *)

Lemma stake_all n s : (String.length s <= n)%nat -> stake n s = s.
Proof.
  revert n. induction s as [|c s IH]; intros n Hn; [by destruct n|].
  destruct n as [|n]; simpl in *; [lia|]. by rewrite IH by lia.
Qed.
Lemma decodeSnapshot_marshal sn p :
  json_faithful sn -> slen (json_Marshal sn) <= pl_maxSnapshotBytes p ->
  decodeSnapshot (json_Marshal sn) p = Ok sn.
Proof.
  intros Hf Hl. unfold decodeSnapshot. rewrite stake_all by (unfold slen in Hl; lia).
  rewrite (proj2 (Z.ltb_ge _ _)) by lia. by apply json_roundtrip.
Qed.

(** The snapshot a node with key [k] builds. *)
Definition signed_snapshot (items : list OnlineEntry) (now : Z) (b : SnapshotBuilder) (sig : string)
    : Snapshot :=
  mkSnapshot ProtocolPresence Version (sb_nodeID b) (UnixMilli now) (sb_ttlSeconds b)
    (u64 (sb_nextSeq b + 1)) (SliceStable item_less items) sig.
Lemma parsePrivateKeyHex_nonempty key k : parsePrivateKeyHex key = Ok k -> is_empty key = false.
Proof. by destruct key. Qed.
Lemma BuildSnapshot_ok items now b k :
  parsePrivateKeyHex (sb_privateKey b) = Ok k ->
  exists sig, SignSnapshot (signed_snapshot items now b "") (sb_privateKey b) = Ok sig
    /\ BuildSnapshot items now b
       = (Ok (signed_snapshot items now b sig), (nextSequence b).2).
Proof.
  intros Hk. unfold BuildSnapshot, nextSequence. cbn [sb_privateKey snd sb_nodeID sb_ttlSeconds].
  rewrite (parsePrivateKeyHex_nonempty _ _ Hk). fold (signed_snapshot items now b "").
  unfold SignSnapshot. rewrite Hk. by eexists.
Qed.

(** C27: A snapshot built and signed by a node is accepted by a peer that fetches
    it from the node's presence URL within the TTL, provided its sequence number is
    above that of an unexpired snapshot the peer already has: the pull succeeds and
    the peer's store then holds exactly that snapshot, with the node's connections. *)
Theorem snapshot_exchange items now b k peer client p store t :
  parsePrivateKeyHex (sb_privateKey b) = Ok k -> sb_nodeID b <> "" ->
  rn_NodeID peer = sb_nodeID b -> rn_PublicKey peer = public_hex k ->
  0 < UnixMilli now -> 0 < sb_ttlSeconds b -> UnixMilli now + sb_ttlSeconds b * 1000 < 2 ^ 63 ->
  UnixMilli t <= UnixMilli now + sb_ttlSeconds b * 1000 ->
  (forall last, fs_snapshots store !! sb_nodeID b = Some last -> snapshotExpired last t = false ->
     sn_Sequence last < u64 (sb_nextSeq b + 1)) ->
  exists sn, BuildSnapshot items now b = (Ok sn, (nextSequence b).2)
  /\ sn_Items sn ≡ₚ items
  /\ (json_faithful sn -> slen (json_Marshal sn) <= pl_maxSnapshotBytes p ->
      let url := TrimSpace (rn_PresenceURL peer) in
      url <> "" -> hc_NewRequest client url = None -> hc_Do client url = Ok (200, json_Marshal sn) ->
      exists store', pullPeer client peer t p store = (Ok tt, store')
        /\ fs_snapshots store' = <[sb_nodeID b := sn]> (fs_snapshots store)
        /\ fs_peers store' = fs_peers store).
Proof.
  intros Hk Hid Hpid Hpk Hnow Httl Hov Ht Hseq.
  destruct (BuildSnapshot_ok items now b k Hk) as (sig & Hsig & Hb).
  exists (signed_snapshot items now b sig). split; [done|]. split; [apply SliceStable_perm|].
  intros Hf Hl url Hurl Hreq Hdo. unfold pullPeer. fold url.
  destruct (is_empty url) eqn:E; [by apply is_empty_spec in E|]. rewrite Hreq, Hdo.
  change ((200 <? 200) || (300 <=? 200)) with false. cbn iota.
  rewrite decodeSnapshot_marshal by done.
  assert (Hv : validateSnapshot (signed_snapshot items now b sig) peer t store = Ok tt).
  { unfold validateSnapshot, signed_snapshot.
    cbn [sn_Protocol sn_Version sn_GeneratedAt sn_TTLSeconds sn_Sequence].
    rewrite String.eqb_refl. change (String.eqb (TrimSpace Version) Version) with true. cbn [negb].
    rewrite (proj2 (Z.leb_gt (UnixMilli now) 0)), (proj2 (Z.leb_gt (sb_ttlSeconds b) 0)) by lia.
    unfold snapshotExpired at 1. cbn [sn_GeneratedAt sn_TTLSeconds].
    rewrite (wrap64_id (sb_ttlSeconds b * 1000)), wrap64_id by (unfold in_i64; lia).
    rewrite (proj2 (Z.ltb_ge _ _)) by lia.
    pose proof (verify_signed _ _ _ _ Hk Hsig) as Hver. cbn in Hver.
    rewrite Hpid, Hpk, Hver. unfold Snapshot_.
    destruct (is_empty (sb_nodeID b)) eqn:Ei; [by apply is_empty_spec in Ei|].
    destruct (fs_snapshots store !! sb_nodeID b) as [last|] eqn:El; [|done].
    destruct (snapshotExpired last t) eqn:Ee; [done|]. cbn [negb andb].
    specialize (Hseq last eq_refl Ee). by rewrite (proj2 (Z.leb_gt _ _)) by lia. }
  rewrite Hv. eexists. split; [reflexivity|]. unfold UpsertSnapshot, signed_snapshot. cbn [sn_NodeID].
  destruct (is_empty (sb_nodeID b)) eqn:Ei; [by apply is_empty_spec in Ei|]. done.
Qed.

(** ** Backoff *)

Lemma backoff_loop_closed n delay max :
  0 < delay <= max -> max < 2 ^ 62 ->
  backoff_loop n delay max = Z.min max (delay * 2 ^ Z.of_nat n).
Proof.
  revert delay. induction n as [|n IH]; intros delay Hd Hm; cbn [backoff_loop].
  { change (2 ^ Z.of_nat 0) with 1. lia. }
  rewrite Nat2Z.inj_succ, Z.pow_succ_r by lia.
  assert (Hp : 1 <= 2 ^ Z.of_nat n) by (pose proof (Z.pow_pos_nonneg 2 (Z.of_nat n)); lia).
  destruct (Z.ltb_spec delay max) as [Hlt|Hge]; [|nia].
  pose proof (Z.div_mod max 2 ltac:(lia)). pose proof (Z.mod_pos_bound max 2 ltac:(lia)).
  destruct (Z.ltb_spec (max / 2) delay) as [Hh|Hh]; [nia|].
  rewrite wrap64_id by (unfold in_i64; lia). rewrite IH by lia. f_equal. lia.
Qed.

Lemma NewPuller_backoff store self rt msb iv base max :
  let p := NewPuller store self rt msb iv base max in 0 < pl_backoffBase p <= pl_backoffMax p.
Proof.
  cbv zeta. unfold NewPuller, or_default, fed_second. cbn [pl_backoffBase pl_backoffMax].
  destruct (Z.leb_spec base 0), (Z.leb_spec max 0); cbn; case_match; rewrite ?Z.ltb_lt, ?Z.ltb_ge in *; lia.
Qed.

(** The delay after the n-th failure in a row is [base * 2^(n-1)], capped at the
    maximum; it never overflows, never shrinks and stays between the two. *)
Theorem backoffDelay_exact p n :
  0 < pl_backoffBase p <= pl_backoffMax p -> pl_backoffMax p < 2 ^ 62 -> 1 <= n ->
  backoffDelay n p = Z.min (pl_backoffMax p) (pl_backoffBase p * 2 ^ (n - 1))
  /\ pl_backoffBase p <= backoffDelay n p <= pl_backoffMax p
  /\ backoffDelay n p <= backoffDelay (n + 1) p.
Proof.
  intros Hb Hm Hn.
  assert (H : forall n, 1 <= n ->
    backoffDelay n p = Z.min (pl_backoffMax p) (pl_backoffBase p * 2 ^ (n - 1))).
  { intros m Hm'. unfold backoffDelay. rewrite backoff_loop_closed by done.
    rewrite Z2Nat.id by lia. by rewrite (proj2 (Z.ltb_ge _ _)) by lia. }
  rewrite !H by lia. split; [done|].
  replace (n + 1 - 1) with (Z.succ (n - 1)) by lia. rewrite Z.pow_succ_r by lia.
  assert (Hp : 1 <= 2 ^ (n - 1)) by (pose proof (Z.pow_pos_nonneg 2 (n - 1)); lia). nia.
Qed.

(** ** Pulling: peers do not affect each other *)

(** What the puller and the store keep about one peer, and the rest. *)
Definition slice (id : string) (st : list (string * error) * Puller * Store)
    : option pullerPeerFailure * option Snapshot :=
  (pl_failures st.1.2 !! id, fs_snapshots st.2 !! id).
Definition same_rest (st st' : list (string * error) * Puller * Store) : Prop :=
  set_failures ∅ st.1.2 = set_failures ∅ st'.1.2 /\ set_snapshots ∅ st.2 = set_snapshots ∅ st'.2.

Lemma same_rest_fields st st' :
  same_rest st st' ->
  pl_selfNodeID st.1.2 = pl_selfNodeID st'.1.2 /\ pl_maxSnapshotBytes st.1.2 = pl_maxSnapshotBytes st'.1.2
  /\ pl_backoffBase st.1.2 = pl_backoffBase st'.1.2 /\ pl_backoffMax st.1.2 = pl_backoffMax st'.1.2
  /\ fs_peers st.2 = fs_peers st'.2 /\ fs_localNodeID st.2 = fs_localNodeID st'.2.
Proof. unfold same_rest, set_failures, set_snapshots. intros [[= ] [= ]]. done. Qed.

Lemma validate_local sn peer t s1 s2 :
  fs_snapshots s1 !! rn_NodeID peer = fs_snapshots s2 !! rn_NodeID peer ->
  validateSnapshot sn peer t s1 = validateSnapshot sn peer t s2.
Proof. intros E. unfold validateSnapshot, Snapshot_. by rewrite E. Qed.
Lemma validate_id sn peer t s :
  validateSnapshot sn peer t s = Ok tt -> sn_NodeID sn = rn_NodeID peer.
Proof.
  intros H. assert (Hv : VerifySnapshot sn (rn_NodeID peer) (rn_PublicKey peer) = Ok tt).
  { revert H. unfold validateSnapshot. do 5 (case_match; [done|]).
    by destruct (VerifySnapshot _ _ _) as [[]|]. }
  revert Hv. unfold VerifySnapshot. destruct (String.eqb_spec (sn_NodeID sn) (rn_NodeID peer)); done.
Qed.

Lemma pullPeer_snapshot client peer t p s r s' :
  pullPeer client peer t p s = (r, s') ->
  (s' = s /\ exists e, r = Err e)
  \/ exists sn, validateSnapshot sn peer t s = Ok tt /\ s' = UpsertSnapshot sn s /\ r = Ok tt.
Proof.
  unfold pullPeer. intros H.
  repeat (case_match; try (injection H as <- <-; left; split; [done|by eexists])).
  injection H as <- <-. right. match goal with u : unit |- _ => destruct u end. by eexists.
Qed.

Lemma pull_turn_other client clocks peer st id :
  id <> rn_NodeID peer -> slice id (pull_turn client clocks peer st) = slice id st.
Proof.
  intros Hne. destruct st as [[errs p] s]. unfold pull_turn. cbv zeta.
  destruct (_ || _); [done|]. destruct (_ || _); [done|].
  destruct (pullPeer _ _ _ _ _) as [r s'] eqn:E.
  assert (Hs : fs_snapshots s' !! id = fs_snapshots s !! id).
  { apply pullPeer_snapshot in E as [[-> _]|(sn & Hv & -> & _)]; [done|].
    apply validate_id in Hv. destruct (decide (sn_NodeID sn = "")) as [E0|Hn].
    - by rewrite UpsertSnapshot_empty.
    - rewrite UpsertSnapshot_lookup by done. rewrite Hv.
      by destruct (String.eqb_spec id (rn_NodeID peer)). }
  destruct r; unfold slice; simpl; rewrite Hs; [by rewrite lookup_delete_ne|by rewrite lookup_insert_ne].
Qed.
Lemma pull_turn_rest client clocks peer st : same_rest st (pull_turn client clocks peer st).
Proof.
  destruct st as [[errs p] s]. unfold pull_turn. cbv zeta.
  destruct (_ || _); [done|]. destruct (_ || _); [done|].
  destruct (pullPeer _ _ _ _ _) as [r s'] eqn:E.
  assert (Hs : set_snapshots ∅ s = set_snapshots ∅ s').
  { apply pullPeer_snapshot in E as [[-> _]|(sn & Hv & -> & _)]; [done|].
    unfold UpsertSnapshot. by destruct (is_empty _). }
  destruct r; by split.
Qed.
Lemma pullPeer_local client peer t p1 p2 s1 s2 :
  pl_maxSnapshotBytes p1 = pl_maxSnapshotBytes p2 ->
  fs_snapshots s1 !! rn_NodeID peer = fs_snapshots s2 !! rn_NodeID peer ->
  (pullPeer client peer t p1 s1).1 = (pullPeer client peer t p2 s2).1
  /\ fs_snapshots (pullPeer client peer t p1 s1).2 !! rn_NodeID peer
     = fs_snapshots (pullPeer client peer t p2 s2).2 !! rn_NodeID peer.
Proof.
  intros Hm Hs. unfold pullPeer, decodeSnapshot. rewrite Hm.
  destruct (is_empty (TrimSpace (rn_PresenceURL peer))); [done|].
  destruct (hc_NewRequest _ _); [done|]. destruct (hc_Do _ _) as [[status body]|]; [|done].
  destruct (_ || _); [done|]. destruct (if _ <? _ then _ else _) as [sn|]; [|done].
  rewrite (validate_local sn peer t s1 s2 Hs).
  destruct (validateSnapshot sn peer t s2) as [[]|] eqn:Hv; [|done]. split; [done|].
  simpl. apply validate_id in Hv. unfold UpsertSnapshot. destruct (is_empty _); [done|]. simpl.
  by rewrite Hv, !lookup_insert_eq.
Qed.
Lemma pull_turn_slice client clocks peer st1 st2 :
  same_rest st1 st2 -> slice (rn_NodeID peer) st1 = slice (rn_NodeID peer) st2 ->
  slice (rn_NodeID peer) (pull_turn client clocks peer st1)
  = slice (rn_NodeID peer) (pull_turn client clocks peer st2).
Proof.
  intros Hr Hs. pose proof (same_rest_fields _ _ Hr) as (R1 & R2 & R3 & R4 & R5 & R6).
  destruct st1 as [[errs1 p1] s1], st2 as [[errs2 p2] s2]. unfold slice in Hs. simpl in *.
  injection Hs as Hf Hsn. unfold pull_turn. cbv zeta. rewrite R1.
  destruct (_ || _); [by unfold slice; simpl; rewrite Hf, Hsn|].
  unfold peerEligible. rewrite Hf.
  destruct (_ || _); [by unfold slice; simpl; rewrite Hf, Hsn|].
  set (t := pc_validate _).
  destruct (pullPeer_local client peer t p1 p2 s1 s2 R2 Hsn) as [E1 E2].
  destruct (pullPeer client peer t p1 s1) as [r1 s1'], (pullPeer client peer t p2 s2) as [r2 s2'].
  simpl in E1, E2. subst r2. destruct r1; unfold slice; simpl; rewrite E2.
  - by rewrite !lookup_delete_eq.
  - unfold recordFailure, backoffDelay. simpl. by rewrite !lookup_insert_eq, Hf, R3, R4.
Qed.

Lemma pull_fold client clocks peers st id :
  NoDup (map rn_NodeID peers) ->
  slice id (foldl (fun st peer => pull_turn client clocks peer st) st peers)
  = match List.find (fun peer => String.eqb (rn_NodeID peer) id) peers with
    | Some peer => slice id (pull_turn client clocks peer st)
    | None => slice id st
    end
  /\ same_rest st (foldl (fun st peer => pull_turn client clocks peer st) st peers).
Proof.
  assert (Htrans : forall a b c, same_rest a b -> same_rest b c -> same_rest a c).
  { intros a b c [H1 H2] [H3 H4]. split; congruence. }
  revert st. induction peers as [|peer peers IH]; intros st Hnd; [done|]. cbn [foldl List.find].
  simpl in Hnd. apply NoDup_cons in Hnd as [Hnin Hnd].
  destruct (IH (pull_turn client clocks peer st) Hnd) as [E R].
  split; [|eapply Htrans; [apply pull_turn_rest|exact R]]. rewrite E.
  destruct (String.eqb_spec (rn_NodeID peer) id) as [<-|Hne].
  - destruct (List.find _ peers) as [peer'|] eqn:Ef; [|done]. exfalso. apply Hnin.
    apply List.find_some in Ef as [Hin Hid]. apply String.eqb_eq in Hid. rewrite <- Hid.
    by apply list_elem_of_In, in_map.
  - destruct (List.find _ peers) as [peer'|] eqn:Ef; [|by apply pull_turn_other].
    apply List.find_some in Ef as [_ Hid]. apply String.eqb_eq in Hid. subst id.
    apply pull_turn_slice; [|by apply pull_turn_other].
    destruct (pull_turn_rest client clocks peer st) as [A B]. by split.
Qed.

Lemma elem_of_ActivePeers s now peer :
  store_ok s -> peer ∈ ActivePeers now s <->
  fs_peers s !! rn_NodeID peer = Some peer /\ peerExpired peer now = false.
Proof.
  intros Hok. unfold ActivePeers. rewrite elem_of_SliceStable, list_elem_of_In, filter_In, negb_true_iff.
  rewrite <- list_elem_of_In, list_elem_of_fmap. apply and_iff_compat_r. split.
  - intros ([id p] & -> & Hin). apply elem_of_range in Hin. simpl. by rewrite (so_peers s Hok id p Hin).
  - intros H. exists (rn_NodeID peer, peer). by rewrite elem_of_range.
Qed.
Lemma ActivePeers_NoDup s now : store_ok s -> NoDup (map rn_NodeID (ActivePeers now s)).
Proof.
  intros Hok. unfold ActivePeers. rewrite (Permutation_map _ (SliceStable_perm _ _)).
  assert (Hall : NoDup (map rn_NodeID (map_range (fs_peers s)).*2)).
  { change (map rn_NodeID (map_range (fs_peers s)).*2) with (map rn_NodeID (map snd (map_range (fs_peers s)))).
    rewrite map_map. rewrite (map_ext_in _ fst); [apply range_fst_NoDup|].
    intros [id p] Hin. apply list_elem_of_In, elem_of_range in Hin. by apply (so_peers s Hok). }
  revert Hall. generalize (map_range (fs_peers s)).*2. induction l as [|x l IH]; [done|]. simpl.
  intros [Hn Hnd]%NoDup_cons. destruct (negb _); [|by apply IH]. simpl. constructor; [|by apply IH].
  intros Hin. apply Hn. apply list_elem_of_In, in_map_iff in Hin as (y & <- & Hy).
  apply filter_In in Hy as [Hy _]. by apply list_elem_of_In, in_map.
Qed.

(** Peers are isolated in a pull: what the round does to a node's snapshot and
    backoff is what its own turn would do alone, whatever the other peers answer
    and in whatever order they are visited; nodes that are not unexpired peers are
    left alone. *)
Theorem PullOnce_isolated client now clocks p s id :
  store_ok s ->
  slice id (PullOnce client now clocks p s)
  = match fs_peers s !! id with
    | Some peer => if peerExpired peer now then slice id ([], p, s)
                   else slice id (pull_turn client clocks peer ([], p, s))
    | None => slice id ([], p, s)
    end.
Proof.
  intros Hok. unfold PullOnce.
  destruct (pull_fold client clocks (ActivePeers now s) ([], p, s) id (ActivePeers_NoDup s now Hok)) as [-> _].
  destruct (List.find _ _) as [peer|] eqn:Ef.
  - apply List.find_some in Ef as [Hin Hid]. apply String.eqb_eq in Hid. subst id.
    apply list_elem_of_In, elem_of_ActivePeers in Hin as [-> ->]; done.
  - destruct (fs_peers s !! id) as [peer|] eqn:Ep; [|done].
    destruct (peerExpired peer now) eqn:Ee; [done|]. exfalso.
    assert (Hid := so_peers s Hok id peer Ep). subst id.
    assert (Hin : peer ∈ ActivePeers now s) by (by apply elem_of_ActivePeers).
    apply list_elem_of_In in Hin. apply (List.find_none _ _ Ef) in Hin. by rewrite String.eqb_refl in Hin.
Qed.

(** ** What a pull may store *)

Lemma Snapshot_lookup id s : id <> "" -> Snapshot_ id s = fs_snapshots s !! id.
Proof. unfold Snapshot_. destruct (is_empty id) eqn:E; [by apply is_empty_spec in E|done]. Qed.
Lemma validate_verify sn peer t s :
  validateSnapshot sn peer t s = Ok tt ->
  VerifySnapshot sn (rn_NodeID peer) (rn_PublicKey peer) = Ok tt
  /\ forall last, Snapshot_ (rn_NodeID peer) s = Some last -> snapshotExpired last t = false ->
       sn_Sequence last < sn_Sequence sn.
Proof.
  unfold validateSnapshot. do 5 (case_match; [done|]).
  destruct (VerifySnapshot _ _ _) as [[]|]; [|done]. intros Hlast. split; [done|].
  intros last El He. rewrite El, He in Hlast. cbn [negb andb] in Hlast.
  destruct (Z.leb_spec (sn_Sequence sn) (sn_Sequence last)); [done|lia].
Qed.

(** A turn leaves the peer's snapshot alone or stores one that passed the checks. *)
Lemma pull_turn_snapshot client clocks peer st :
  let id := rn_NodeID peer in
  fs_snapshots (pull_turn client clocks peer st).2 !! id = fs_snapshots st.2 !! id
  \/ exists sn, fs_snapshots (pull_turn client clocks peer st).2 !! id = Some sn
       /\ id <> "" /\ sn_NodeID sn = id
       /\ validateSnapshot sn peer (pc_validate (clocks id)) st.2 = Ok tt.
Proof.
  destruct st as [[errs p] s]. unfold pull_turn. cbv zeta.
  destruct (is_empty (rn_NodeID peer)) eqn:Ei; [by left|].
  assert (Hne : rn_NodeID peer <> "") by (intros E; by rewrite E in Ei).
  destruct (_ || _); [by left|]. destruct (_ || _); [by left|].
  destruct (pullPeer _ _ _ _ _) as [r s'] eqn:E.
  assert (H : fs_snapshots s' !! rn_NodeID peer = fs_snapshots s !! rn_NodeID peer
    \/ exists sn, fs_snapshots s' !! rn_NodeID peer = Some sn /\ rn_NodeID peer <> ""
         /\ sn_NodeID sn = rn_NodeID peer
         /\ validateSnapshot sn peer (pc_validate (clocks (rn_NodeID peer))) s = Ok tt).
  { apply pullPeer_snapshot in E as [[-> _]|(sn & Hv & -> & _)]; [by left|right]. exists sn.
    pose proof (validate_id _ _ _ _ Hv) as Hid. split_and!; [|done..].
    rewrite UpsertSnapshot_lookup by congruence. by rewrite Hid, String.eqb_refl. }
  destruct r; exact H.
Qed.

Lemma PullOnce_snapshot client now clocks p s id :
  store_ok s ->
  let s' := (PullOnce client now clocks p s).2 in
  fs_snapshots s' !! id = fs_snapshots s !! id
  \/ exists sn peer, fs_snapshots s' !! id = Some sn /\ fs_peers s !! id = Some peer
       /\ sn_NodeID sn = id /\ validateSnapshot sn peer (pc_validate (clocks id)) s = Ok tt.
Proof.
  intros Hok. cbv zeta. pose proof (PullOnce_isolated client now clocks p s id Hok) as H.
  unfold slice in H. apply (f_equal snd) in H. cbn [snd] in H.
  destruct (fs_peers s !! id) as [peer|] eqn:Ep; [|left; exact H].
  destruct (peerExpired peer now); [left; exact H|]. cbn [snd fst] in H.
  assert (Hid := so_peers s Hok id peer Ep).
  destruct (pull_turn_snapshot client clocks peer ([], p, s)) as [E|(sn & E & Hne & Hsn & Hv)];
    rewrite Hid in *.
  - left. by rewrite H, E.
  - right. exists sn, peer. split_and!; [by rewrite H|done..].
Qed.

(** A replayed or stale snapshot is never stored over a live one: while a
    node's last accepted snapshot is unexpired, a pull leaves it or replaces it by
    one with a larger sequence number. *)
Theorem sequence_never_goes_back client now clocks p s id last :
  store_ok s -> id <> "" -> fs_snapshots s !! id = Some last ->
  snapshotExpired last (pc_validate (clocks id)) = false ->
  exists sn, fs_snapshots (PullOnce client now clocks p s).2 !! id = Some sn
    /\ (sn = last \/ sn_Sequence last < sn_Sequence sn).
Proof.
  intros Hok Hne Hl He.
  destruct (PullOnce_snapshot client now clocks p s id Hok) as [E|(sn & peer & E & Ep & Hid & Hv)].
  - exists last. rewrite E. by split; [|left].
  - exists sn. split; [done|right]. apply validate_verify in Hv as [_ Hv].
    pose proof (so_peers s Hok id peer Ep) as Epid. rewrite Epid in Hv. apply Hv; [|done].
    by rewrite Snapshot_lookup.
Qed.

(** ** Discovery: what a pin can put into the store *)

Lemma candidate_spec pin now d c :
  candidateFromPin pin now d = Some c ->
  cd_pin c = pin /\ rn_NodeID (cd_node c) <> "" /\ acceptRegistryNode (cd_node c) d = true
  /\ exists addr, mvcAddressFromPublicKey (rn_PublicKey (cd_node c)) (dc_network d) = Ok addr
       /\ rn_NodeID (cd_node c) = "mvc:" +:+ addr.
Proof.
  unfold candidateFromPin. cbv zeta. destruct (negb (EqualFold _ _)); [done|].
  destruct (negb (one_of _ _)); [done|]. destruct (registryNodeFromPin pin) as [node|]; [|done].
  destruct (is_empty (TrimSpace (rn_NodeID node))) eqn:Ei; [done|].
  destruct (negb (is_empty _) && _); [done|]. destruct (negb (is_empty _) && _); [done|].
  destruct (acceptRegistryNode _ d) eqn:Ha; [|done]. intros [= <-]. cbn [cd_pin cd_node].
  split_and!; [done| |done|].
  - simpl. intros E. by rewrite E in Ei.
  - revert Ha. unfold acceptRegistryNode.
    do 5 (case_match; [done|]). destruct (mvcAddressFromPublicKey _ _) as [addr|]; [|done].
    cbn [rn_NodeID set_NodeID]. rewrite TrimSpace_idem.
    destruct (String.eqb_spec (TrimSpace (rn_NodeID node)) ("mvc:" +:+ addr)); [|done].
    intros _. by exists addr.
Qed.

Definition candidates (d : Discovery) (now : Z) (pins : list RegistryPin)
    : gmap string registryDiscoveryCandidate := foldl (add_candidate d now) ∅ pins.
(** The valid candidates of node [id], in order. *)
Definition candidates_for (d : Discovery) (now : Z) (id : string) (pins : list RegistryPin)
    : list registryDiscoveryCandidate :=
  List.filter (fun c => String.eqb (rn_NodeID (cd_node c)) id)
    (omap (fun pin => candidateFromPin pin now d) pins).
Lemma candidates_for_snoc d now id pins pin :
  candidates_for d now id (pins ++ [pin]) = candidates_for d now id pins ++
    match candidateFromPin pin now d with
    | Some c => if String.eqb (rn_NodeID (cd_node c)) id then [c] else []
    | None => []
    end.
Proof.
  unfold candidates_for. rewrite omap_app, List.filter_app. f_equal. simpl.
  destruct (candidateFromPin pin now d) as [c|]; [|done]. simpl. by destruct (String.eqb _ _).
Qed.

#[local] Instance newer_weak : StrictWeak discoveryCandidateNewer.
Proof. unfold discoveryCandidateNewer. apply (on_key_weak Z_gt); apply _. Qed.

(** [c] is a newest candidate of the list. *)
Definition newest (c : registryDiscoveryCandidate) (l : list registryDiscoveryCandidate) : Prop :=
  c ∈ l /\ forall c', c' ∈ l -> discoveryCandidateNewer c' c = false.

Lemma candidates_newest d now pins id :
  match candidates d now pins !! id with
  | None => candidates_for d now id pins = []
  | Some c => newest c (candidates_for d now id pins)
  end.
Proof.
  induction pins as [|pin pins IH] using rev_ind; [done|].
  unfold candidates. rewrite foldl_snoc, candidates_for_snoc. fold (candidates d now pins).
  unfold add_candidate. destruct (candidateFromPin pin now d) as [c|]; [|by rewrite app_nil_r].
  destruct (String.eqb_spec (rn_NodeID (cd_node c)) id) as [<-|Hne].
  2: { rewrite app_nil_r. destruct (candidates d now pins !! rn_NodeID (cd_node c)) as [c0|];
         [destruct (discoveryCandidateNewer c c0)|]; rewrite ?lookup_insert_ne by done; exact IH. }
  assert (Hirr : forall x, discoveryCandidateNewer x x = false).
  { intros x. destruct (discoveryCandidateNewer x x) eqn:E; [|done].
    pose proof (sw_asym (less := discoveryCandidateNewer) _ _ E). congruence. }
  destruct (candidates d now pins !! rn_NodeID (cd_node c)) as [c0|] eqn:E0.
  - destruct IH as [Hin Hmax]. destruct (discoveryCandidateNewer c c0) eqn:En.
    + rewrite lookup_insert_eq. split; [apply elem_of_app; right; left|].
      intros c' [Hc'|Hc']%elem_of_app; [|by apply list_elem_of_singleton in Hc' as ->].
      apply (sw_negtrans (less := discoveryCandidateNewer) c' c0 c); [by apply Hmax|].
      by apply (sw_asym (less := discoveryCandidateNewer)).
    + rewrite E0. split; [apply elem_of_app; by left|].
      intros c' [Hc'|Hc']%elem_of_app; [by apply Hmax|by apply list_elem_of_singleton in Hc' as ->].
  - rewrite lookup_insert_eq, IH. split; [left|]. intros c' ->%list_elem_of_singleton. apply Hirr.
Qed.
Lemma candidates_spec d now pins id c :
  candidates d now pins !! id = Some c ->
  rn_NodeID (cd_node c) = id
  /\ exists pin, pin ∈ pins /\ candidateFromPin pin now d = Some c.
Proof.
  intros E. pose proof (candidates_newest d now pins id) as H. rewrite E in H.
  destruct H as [Hin _]. apply list_elem_of_In, filter_In in Hin as [Hin Hid].
  apply String.eqb_eq in Hid. split; [done|].
  by apply list_elem_of_In, list_elem_of_omap in Hin.
Qed.

(** ** Discovery: what a round does to the store *)

(** The candidate that removes, or keeps, a node. *)
Definition removed (m : gmap string registryDiscoveryCandidate) (id : string) : bool :=
  match m !! id with Some c => cd_remove c | None => false end.
Definition kept (m : gmap string registryDiscoveryCandidate) (id : string) : option RegistryNode :=
  match m !! id with Some c => if cd_remove c then None else Some (cd_node c) | None => None end.
Lemma apply_candidates_spec ids m s accepted s' :
  (forall id c, m !! id = Some c -> rn_NodeID (cd_node c) = id /\ id <> "") ->
  NoDup ids -> apply_candidates ids m s = (accepted, s') ->
  accepted = omap (kept m) ids
  /\ (forall id, fs_peers s' !! id = if bool_decide (id ∈ ids) && removed m id then None
                                     else fs_peers s !! id)
  /\ (forall id, fs_snapshots s' !! id = if bool_decide (id ∈ ids) && removed m id then None
                                         else fs_snapshots s !! id)
  /\ fs_localNodeID s' = fs_localNodeID s /\ (store_ok s -> store_ok s').
Proof.
  intros Hm. revert s accepted s'. induction ids as [|id ids IH]; intros s accepted s' Hnd;
    cbn [apply_candidates].
  { intros [= <- <-]. split_and!; [done|intros id; by rewrite bool_decide_eq_false_2 by apply not_elem_of_nil..|done|done]. }
  apply NoDup_cons in Hnd as [Hnin Hnd].
  assert (Hb : forall id', id' <> id -> bool_decide (id' ∈ id :: ids) = bool_decide (id' ∈ ids)).
  { intros id' Hne. apply bool_decide_ext. rewrite elem_of_cons. naive_solver. }
  assert (Hself : bool_decide (id ∈ id :: ids) = true) by (apply bool_decide_eq_true_2; left).
  assert (Hrest : bool_decide (id ∈ ids) = false) by by apply bool_decide_eq_false_2.
  destruct (m !! id) as [c|] eqn:Em.
  - destruct (Hm _ _ Em) as [Hid Hne]. destruct (cd_remove c) eqn:Er.
    + intros E. destruct (IH (RemovePeer id s) _ _ Hnd E) as (A & B & C & D & F). split_and!.
      * simpl. unfold kept at 1. by rewrite Em, Er.
      * intros id'. rewrite B, RemovePeer_peers by done.
        destruct (String.eqb_spec id' id) as [->|Hn]; [|by rewrite Hb].
        rewrite Hself. unfold removed. rewrite Em, Er. by destruct (_ && _).
      * intros id'. rewrite C, RemovePeer_snapshots by done.
        destruct (String.eqb_spec id' id) as [->|Hn]; [|by rewrite Hb].
        rewrite Hself. unfold removed. rewrite Em, Er. by destruct (_ && _).
      * by rewrite D, RemovePeer_local.
      * intros Hs. by apply F, RemovePeer_ok.
    + destruct (apply_candidates ids m s) as [acc s1] eqn:E. intros [= <- <-].
      destruct (IH s _ _ Hnd E) as (A & B & C & D & F). split_and!; [|..|done|done].
      * simpl. unfold kept at 1. by rewrite Em, Er, A.
      * intros id'. rewrite B. destruct (decide (id' = id)) as [->|Hn]; [|by rewrite Hb].
        rewrite Hself, Hrest. unfold removed. by rewrite Em, Er.
      * intros id'. rewrite C. destruct (decide (id' = id)) as [->|Hn]; [|by rewrite Hb].
        rewrite Hself, Hrest. unfold removed. by rewrite Em, Er.
  - intros E. destruct (IH s _ _ Hnd E) as (A & B & C & D & F). split_and!; [|..|done|done].
    + simpl. unfold kept at 1. by rewrite Em, A.
    + intros id'. rewrite B. destruct (decide (id' = id)) as [->|Hn]; [|by rewrite Hb].
      rewrite Hself, Hrest. unfold removed. by rewrite Em.
    + intros id'. rewrite C. destruct (decide (id' = id)) as [->|Hn]; [|by rewrite Hb].
      rewrite Hself, Hrest. unfold removed. by rewrite Em.
Qed.

Lemma upsert_all_spec l s :
  (forall n, n ∈ l -> rn_NodeID n <> "") -> NoDup (map rn_NodeID l) ->
  let s' := foldl (fun s peer => UpsertPeer peer s) s l in
  (forall id, fs_peers s' !! id = match List.find (fun n => String.eqb (rn_NodeID n) id) l with
                                  | Some n => Some n | None => fs_peers s !! id end)
  /\ fs_snapshots s' = fs_snapshots s /\ fs_localNodeID s' = fs_localNodeID s
  /\ (store_ok s -> store_ok s').
Proof.
  revert s. induction l as [|n l IH]; intros s Hne Hnd; [done|]. cbn [foldl List.find].
  simpl in Hnd. apply NoDup_cons in Hnd as [Hnin Hnd].
  destruct (IH (UpsertPeer n s)) as (A & B & C & D); [intros; apply Hne; by right|done|].
  split_and!.
  - intros id. rewrite A. destruct (String.eqb_spec (rn_NodeID n) id) as [<-|Hn].
    + destruct (List.find _ l) as [n'|] eqn:Ef.
      * exfalso. apply Hnin. apply List.find_some in Ef as [Hin Hid]. apply String.eqb_eq in Hid.
        rewrite <- Hid. by apply list_elem_of_In, in_map.
      * rewrite UpsertPeer_lookup by (apply Hne; left). by rewrite String.eqb_refl.
    + destruct (List.find _ l); [done|]. rewrite UpsertPeer_lookup by (apply Hne; left).
      destruct (String.eqb_spec id (rn_NodeID n)); [congruence|done].
  - by rewrite B, UpsertPeer_snapshots.
  - by rewrite C, UpsertPeer_local.
  - intros Hs. by apply D, UpsertPeer_ok.
Qed.

Definition cut_peers (d : Discovery) (accepted : list RegistryNode) : list RegistryNode :=
  if (0 <? dc_maxPeers d) && (dc_maxPeers d <? Z.of_nat (length accepted))
  then take (Z.to_nat (dc_maxPeers d)) accepted else accepted.
Definition accepted_nodes (m : gmap string registryDiscoveryCandidate) : list RegistryNode :=
  omap (kept m) (SliceStable str_lt (map_range m).*1).

Lemma accepted_sorted m :
  (forall id c, m !! id = Some c -> rn_NodeID (cd_node c) = id) ->
  StronglySorted (fun a b => str_lt (rn_NodeID a) (rn_NodeID b) = true) (accepted_nodes m).
Proof.
  intros Hm. unfold accepted_nodes.
  apply (StronglySorted_omap (fun a b => str_lt a b = true)).
  - intros x y x' y' _ _ Ex Ey Hlt.
    assert (Hid : forall z z', kept m z = Some z' -> rn_NodeID z' = z).
    { intros z z'. unfold kept. destruct (m !! z) as [c|] eqn:E; [|done]. destruct (cd_remove c); [done|].
      intros [= <-]. by apply (Hm z c). }
    by rewrite (Hid _ _ Ex), (Hid _ _ Ey).
  - apply sorted_by_strict; [intros a b _ _; apply st_tie| |apply SliceStable_sorted, _].
    rewrite SliceStable_perm. apply range_fst_NoDup.
Qed.
Lemma elem_of_accepted m n :
  n ∈ accepted_nodes m <-> exists id c, m !! id = Some c /\ cd_remove c = false /\ n = cd_node c.
Proof.
  unfold accepted_nodes. rewrite list_elem_of_omap. split.
  - intros (id & _ & E). unfold kept in E. destruct (m !! id) as [c|] eqn:Em; [|done].
    destruct (cd_remove c) eqn:Er; [done|]. injection E as <-. by exists id, c.
  - intros (id & c & Em & Er & ->). exists id. split; [|unfold kept; by rewrite Em, Er].
    apply elem_of_SliceStable, list_elem_of_fmap. exists (id, c). by rewrite elem_of_range.
Qed.

Lemma sorted_NoDup l :
  StronglySorted (fun a b => str_lt (rn_NodeID a) (rn_NodeID b) = true) l -> NoDup (map rn_NodeID l).
Proof.
  induction 1 as [|n l _ IH Hn]; simpl; constructor; [|done]. intros Hin.
  apply list_elem_of_In, in_map_iff in Hin as (n' & E & Hin). rewrite Forall_forall in Hn.
  specialize (Hn n' ltac:(by apply list_elem_of_In)). rewrite E in Hn.
  pose proof (sw_asym (less := str_lt) _ _ Hn). congruence.
Qed.
Lemma StronglySorted_take {A} (R : A -> A -> Prop) n l : StronglySorted R l -> StronglySorted R (take n l).
Proof.
  intros Hs. revert n. induction Hs as [|x l _ IH Hx]; intros [|n]; simpl; constructor; [apply IH|].
  by apply Forall_take.
Qed.
Lemma cut_peers_sub d l : cut_peers d l `sublist_of` l.
Proof. unfold cut_peers. destruct (_ && _); [apply sublist_take|done]. Qed.

Lemma candidates_ids d now pins id c :
  candidates d now pins !! id = Some c -> rn_NodeID (cd_node c) = id /\ id <> "".
Proof.
  intros E. apply candidates_spec in E as [Hid (pin & _ & Hc)]. apply candidate_spec in Hc as (_ & Hne & _).
  by rewrite <- Hid at 2.
Qed.

(** The store after a round, entry by entry. *)
Lemma DiscoverOnce_spec client now d s pins :
  fetchRegistryPins client d = Ok pins ->
  let m := candidates d now pins in
  let accepted := cut_peers d (accepted_nodes m) in
  exists s', DiscoverOnce client now d s = (Ok accepted, s')
  /\ StronglySorted (fun a b => str_lt (rn_NodeID a) (rn_NodeID b) = true) accepted
  /\ (forall id, fs_peers s' !! id = match List.find (fun n => String.eqb (rn_NodeID n) id) accepted with
       | Some n => Some n
       | None => if removed m id then None else fs_peers s !! id end)
  /\ (forall id, fs_snapshots s' !! id = if removed m id then None else fs_snapshots s !! id)
  /\ (store_ok s -> store_ok s').
Proof.
  intros Hf m accepted. unfold DiscoverOnce. rewrite Hf. fold (candidates d now pins). fold m.
  destruct (apply_candidates _ m s) as [acc s1] eqn:E.
  assert (Hids : forall id c, m !! id = Some c -> rn_NodeID (cd_node c) = id /\ id <> "")
    by (intros id c; apply candidates_ids).
  apply apply_candidates_spec in E as (-> & B & C & D & F); [|done|rewrite SliceStable_perm; apply range_fst_NoDup].
  fold (accepted_nodes m). fold (cut_peers d (accepted_nodes m)). fold accepted.
  assert (Hin : forall id, bool_decide (id ∈ SliceStable str_lt (map_range m).*1) && removed m id = removed m id).
  { intros id. unfold removed. destruct (m !! id) as [c|] eqn:Em; [|by rewrite andb_false_r].
    rewrite bool_decide_eq_true_2; [done|]. apply elem_of_SliceStable, list_elem_of_fmap.
    exists (id, c). by rewrite elem_of_range. }
  assert (Hs : StronglySorted (fun a b => str_lt (rn_NodeID a) (rn_NodeID b) = true) accepted).
  { assert (H0 : StronglySorted (fun a b => str_lt (rn_NodeID a) (rn_NodeID b) = true) (accepted_nodes m))
      by (apply accepted_sorted; intros id c Hc; by apply Hids).
    unfold accepted, cut_peers. destruct (_ && _); [by apply StronglySorted_take|done]. }
  assert (Hacc : forall n, n ∈ accepted -> rn_NodeID n <> "").
  { intros n Hn. apply (elem_of_sublist _ (accepted_nodes m)) in Hn; [|apply cut_peers_sub].
    apply elem_of_accepted in Hn as (id & c & Em & _ & ->). destruct (Hids _ _ Em) as [Hid Hne].
    by rewrite Hid. }
  destruct (upsert_all_spec accepted s1) as (U1 & U2 & U3 & U4); [done|by apply sorted_NoDup|].
  eexists. split; [reflexivity|]. split_and!; [done| | |auto].
  - intros id. rewrite U1, B, Hin. done.
  - intros id. by rewrite U2, C, Hin.
Qed.

Lemma newest_unique d now pins id c c' :
  NoDup (map gp_ID pins) -> newest c (candidates_for d now id pins) ->
  newest c' (candidates_for d now id pins) -> c = c'.
Proof.
  intros Hnd [Hin Hmax] [Hin' Hmax'].
  destruct (on_key_tie _ _ _ c c' Z_gt_total (Hmax' c Hin) (Hmax c' Hin')) as (_ & H1 & H2).
  destruct (on_key_tie _ _ _ c c' Z_gt_total H1 H2) as (_ & H3 & H4).
  destruct (on_key_tie _ _ _ c c' str_gt_total H3 H4) as (Eid & _).
  assert (Hpin : forall x, x ∈ candidates_for d now id pins ->
    cd_pin x ∈ pins /\ candidateFromPin (cd_pin x) now d = Some x).
  { intros x Hx. apply list_elem_of_In, filter_In in Hx as [Hx _].
    apply list_elem_of_In, list_elem_of_omap in Hx as (pin & Hpin & Hc).
    by destruct (candidate_spec _ _ _ _ Hc) as [-> _]. }
  destruct (Hpin c Hin) as [Hp Hc], (Hpin c' Hin') as [Hp' Hc'].
  assert (E : cd_pin c = cd_pin c'); [|rewrite E in Hc; congruence].
  clear -Hnd Hp Hp' Eid. induction pins as [|x pins IH]; [by apply not_elem_of_nil in Hp|].
  simpl in Hnd. apply NoDup_cons in Hnd as [Hn Hnd].
  assert (Hmap : forall y, y ∈ pins -> gp_ID y ∈ map gp_ID pins)
    by (intros y Hy; by apply list_elem_of_In, in_map, list_elem_of_In).
  apply elem_of_cons in Hp as [Hp|Hp], Hp' as [Hp'|Hp'].
  - congruence.
  - destruct Hn. rewrite <- Hp, Eid. by apply Hmap.
  - destruct Hn. rewrite <- Hp', <- Eid. by apply Hmap.
  - by apply IH.
Qed.

(** A discovery round acts on the newest valid registry pin of each node, in
    whatever order pins are listed: a revoked or expired entry removes the node and
    its snapshot, any other becomes the peer (unless the round is over its limit);
    nodes without a valid pin in the list, and all other snapshots, are untouched;
    the accepted nodes are sorted and within the limit of the round. *)
Theorem discovery_newest_wins client now d s pins :
  fetchRegistryPins client d = Ok pins -> NoDup (map gp_ID pins) ->
  exists accepted s', DiscoverOnce client now d s = (Ok accepted, s')
  /\ StronglySorted (fun a b => str_lt (rn_NodeID a) (rn_NodeID b) = true) accepted
  /\ (0 < dc_maxPeers d -> Z.of_nat (length accepted) <= dc_maxPeers d)
  /\ (forall id, candidates_for d now id pins = [] ->
        fs_peers s' !! id = fs_peers s !! id /\ fs_snapshots s' !! id = fs_snapshots s !! id)
  /\ (forall id c, newest c (candidates_for d now id pins) ->
        if cd_remove c
        then fs_peers s' !! id = None /\ fs_snapshots s' !! id = None
        else fs_snapshots s' !! id = fs_snapshots s !! id
             /\ (fs_peers s' !! id = Some (cd_node c)
                 \/ (0 < dc_maxPeers d /\ (cd_node c ∉ accepted)
                    /\ fs_peers s' !! id = fs_peers s !! id))).
Proof.
  intros Hf Hnd. destruct (DiscoverOnce_spec client now d s pins Hf) as (s' & E & Hs & Hp & Hsn & _).
  eexists _, s'. split; [exact E|]. split; [exact Hs|]. set (accepted := cut_peers d _) in *.
  assert (Hm : forall id c, newest c (candidates_for d now id pins) -> candidates d now pins !! id = Some c).
  { intros id c Hc. pose proof (candidates_newest d now pins id) as H.
    destruct (candidates d now pins !! id) as [c'|].
    - f_equal. by apply (newest_unique d now pins id).
    - destruct Hc as [Hc _]. rewrite H in Hc. by apply not_elem_of_nil in Hc. }
  assert (Hfind : forall id n, List.find (fun n => String.eqb (rn_NodeID n) id) accepted = Some n ->
    exists c, candidates d now pins !! id = Some c /\ cd_remove c = false /\ n = cd_node c).
  { intros id n Ef. apply List.find_some in Ef as [Hin Hid]. apply String.eqb_eq in Hid.
    apply list_elem_of_In, (elem_of_sublist _ (accepted_nodes (candidates d now pins))) in Hin;
      [|apply cut_peers_sub].
    apply elem_of_accepted in Hin as (id' & c & Em & Er & ->).
    destruct (candidates_ids _ _ _ _ _ Em) as [Hid' _]. assert (id' = id) as -> by congruence.
    by exists c. }
  split_and!.
  - intros Hmax. unfold accepted, cut_peers. rewrite (proj2 (Z.ltb_lt _ _) Hmax). cbn [andb].
    destruct (Z.ltb_spec (dc_maxPeers d) (Z.of_nat (length (accepted_nodes (candidates d now pins)))));
      [rewrite length_take; lia|lia].
  - intros id Hno. pose proof (candidates_newest d now pins id) as H.
    assert (Hn : candidates d now pins !! id = None).
    { destruct (candidates d now pins !! id) as [c|]; [|done]. destruct H as [H _].
      rewrite Hno in H. by apply not_elem_of_nil in H. }
    rewrite Hp, Hsn. unfold removed. rewrite Hn.
    destruct (List.find _ accepted) as [n|] eqn:Ef; [|done].
    apply Hfind in Ef as (c & Ec & _). congruence.
  - intros id c Hc. apply Hm in Hc. rewrite Hp, Hsn. unfold removed. rewrite Hc.
    destruct (cd_remove c) eqn:Er.
    + split; [|done]. destruct (List.find _ accepted) as [n|] eqn:Ef; [|done].
      apply Hfind in Ef as (c' & Ec & Er' & _). congruence.
    + split; [done|]. destruct (List.find _ accepted) as [n|] eqn:Ef.
      * left. apply Hfind in Ef as (c' & Ec & _ & ->). congruence.
      * right. assert (Hnin : cd_node c ∉ accepted).
        { intros Hin. apply list_elem_of_In in Hin. apply (List.find_none _ _ Ef) in Hin.
          destruct (candidates_ids _ _ _ _ _ Hc) as [Hid _]. by rewrite Hid, String.eqb_refl in Hin. }
        split_and!; [|done|done]. unfold accepted, cut_peers in Hnin.
        destruct (Z.ltb_spec 0 (dc_maxPeers d)) as [|Hle]; [done|]. exfalso. apply Hnin.
        cbn [andb]. apply elem_of_accepted. by exists id, c.
Qed.

(** ** Authenticity *)

Inductive fed_step (d : Discovery) : Store -> Store -> Prop :=
  | step_discover client now s : fed_step d s (DiscoverOnce client now d s).2
  | step_pull client now clocks p s : fed_step d s (PullOnce client now clocks p s).2.

(** [id] is derived from the key [pk] under which [sn] is signed. *)
Definition authentic (network id : string) (sn : Snapshot) : Prop :=
  exists pk addr, mvcAddressFromPublicKey pk network = Ok addr /\ id = "mvc:" +:+ addr
    /\ sn_NodeID sn = id /\ VerifySnapshot sn id pk = Ok tt.
Record fed_ok (network : string) (s : Store) : Prop := {
  fo_store : store_ok s;
  fo_peers id p : fs_peers s !! id = Some p ->
    exists addr, mvcAddressFromPublicKey (rn_PublicKey p) network = Ok addr /\ id = "mvc:" +:+ addr;
  fo_snapshots id sn : fs_snapshots s !! id = Some sn -> authentic network id sn }.

Lemma PullOnce_store client now clocks p s :
  store_ok s ->
  let s' := (PullOnce client now clocks p s).2 in
  store_ok s' /\ fs_peers s' = fs_peers s.
Proof.
  intros Hok. cbv zeta.
  destruct (pull_fold client clocks (ActivePeers now s) ([], p, s) "" (ActivePeers_NoDup s now Hok)) as [_ R].
  fold (PullOnce client now clocks p s) in R.
  destruct (same_rest_fields _ _ R) as (_ & _ & _ & _ & Ep & El). cbn [snd fst] in *.
  split; [|done]. split.
  - intros id q. rewrite <- Ep. apply (so_peers s Hok).
  - intros id sn Esn.
    destruct (PullOnce_snapshot client now clocks p s id Hok) as [E|(sn' & peer & E & _ & Hid & _)].
    + rewrite E in Esn. by apply (so_snapshots s Hok).
    + rewrite E in Esn. by injection Esn as <-.
  - rewrite <- El. apply (so_local s Hok).
Qed.

Lemma fed_step_ok d s s' : fed_step d s s' -> fed_ok (dc_network d) s -> fed_ok (dc_network d) s'.
Proof.
  intros [client now s0|client now clocks p s0] [H1 H2 H3].
  - destruct (fetchRegistryPins client d) as [pins|e] eqn:Ef.
    2: { unfold DiscoverOnce. rewrite Ef. by split. }
    destruct (DiscoverOnce_spec client now d s0 pins Ef) as (s1 & E & _ & Hp & Hsn & Hok).
    rewrite E. cbn [snd]. split; [by apply Hok| |].
    + intros id p. rewrite Hp. destruct (List.find _ _) as [n|] eqn:Efind.
      * intros [= <-]. apply List.find_some in Efind as [Hin Hid]. apply String.eqb_eq in Hid.
        apply list_elem_of_In, (elem_of_sublist _ (accepted_nodes (candidates d now pins))) in Hin;
          [|apply cut_peers_sub].
        apply elem_of_accepted in Hin as (id' & c & Em & _ & ->).
        apply candidates_spec in Em as [_ (pin & _ & Hc)].
        apply candidate_spec in Hc as (_ & _ & _ & addr & Ha & Hn). exists addr. by rewrite <- Hid.
      * destruct (removed _ id); [done|apply H2].
    + intros id sn. rewrite Hsn. destruct (removed _ id); [done|apply H3].
  - destruct (PullOnce_store client now clocks p s0 H1) as [Hok Ep]. split; [done| |].
    + intros id q. rewrite Ep. apply H2.
    + intros id sn Esn.
      destruct (PullOnce_snapshot client now clocks p s0 id H1) as [E|(sn' & peer & E & Epeer & Hid & Hv)].
      * rewrite E in Esn. by apply H3.
      * rewrite E in Esn. injection Esn as <-. destruct (H2 id peer Epeer) as (addr & Ha & Hid').
        apply validate_verify in Hv as [Hv _]. rewrite (so_peers s0 H1 id peer Epeer) in Hv.
        by exists (rn_PublicKey peer), addr.
Qed.

(** C15: Whatever registry pins and snapshots other parties serve, every connection
    counted in the merged presence is a local one or comes from a snapshot signed
    with the very key its node id is derived from. *)
Theorem federation_authentic d localNodeID enabled scope s local now o :
  rtc (fed_step d) (NewStore localNodeID [WithStoreEnabled enabled; WithStoreDefaultScope scope]) s ->
  o ∈ observed local now s ->
  (o.1 ∈ local /\ o.2 = fs_localNodeID s)
  \/ exists sn, o.1 ∈ sn_Items sn /\ o.2 = sn_NodeID sn /\ authentic (dc_network d) (sn_NodeID sn) sn.
Proof.
  intros Hsteps Ho.
  assert (Hok : fed_ok (dc_network d) s).
  { set (s0 := NewStore _ _) in Hsteps. assert (H0 : fed_ok (dc_network d) s0).
    { assert (Hst : store_ok s0).
      { apply NewStore_ok. intros f t Hf [A B C]. apply elem_of_cons in Hf as [->|Hf].
        - by split.
        - apply list_elem_of_singleton in Hf as ->. unfold WithStoreDefaultScope.
          destruct (_ || _); by split. }
      assert (Hempty : fs_peers s0 = ∅ /\ fs_snapshots s0 = ∅).
      { unfold s0, NewStore, WithStoreDefaultScope. cbn [foldl].
        destruct (_ || _); cbv zeta; destruct (_ && _); done. }
      destruct Hempty as [Ep Es]. split; [done| |].
      - intros id p. rewrite Ep. by intros ?%lookup_empty_Some.
      - intros id sn. rewrite Es. by intros ?%lookup_empty_Some. }
    clear Ho. induction Hsteps as [|a b c Hab _ IH]; [done|]. apply IH. by eapply fed_step_ok. }
  apply elem_of_observed in Ho; [|apply Hok]. destruct Ho as [Ho|(sn & (Hs & _) & Hin & Hn)]; [by left|right].
  exists sn. split_and!; [done|done|]. by apply (fo_snapshots _ _ Hok).
Qed.

(** ** From publisher to discovery *)

Lemma candidate_of_payload pin now d payload addr k :
  EqualFold (TrimSpace (gp_ChainName pin)) "mvc" = true ->
  one_of (ToLower (TrimSpace (gp_Operation pin))) ["create"; "modify"; "revoke"] = true ->
  let content := json_Marshal payload in
  TrimSpace (gp_ContentBody pin) = content -> content <> "" -> json_faithful payload ->
  rp_Protocol payload = ProtocolNode -> rp_Version payload = Version ->
  TrimSpace (rp_NodeID payload) = "mvc:" +:+ addr -> TrimSpace (rp_Network payload) = dc_network d ->
  rp_PublicKey payload = public_hex k -> rp_Capabilities payload = [publisherPresenceCapability] ->
  mvcAddressFromPublicKey (public_hex k) (dc_network d) = Ok addr ->
  TrimSpace (dc_network d) = dc_network d -> dc_network d <> "" ->
  dc_selfNodeID d <> "mvc:" +:+ addr ->
  discoveryPresenceURLAllowed (TrimSpace (rp_PresenceURL payload)) (dc_allowInsecureHTTP d) = true ->
  TrimSpace (rp_PresenceURL payload) <> "" ->
  exists node, rn_NodeID node = "mvc:" +:+ addr /\ rn_PublicKey node = public_hex k
  /\ rn_PresenceURL node = TrimSpace (rp_PresenceURL payload)
  /\ rn_ValidUntil node = rp_ValidUntil payload
  /\ candidateFromPin pin now d
     = Some (mkCandidate pin node
               (String.eqb (ToLower (TrimSpace (gp_Operation pin))) "revoke" || peerExpired node now)).
Proof.
  intros Hchain Hop content Hbody Hne Hf Hproto Hver Hid Hnet Hpk Hcap Haddr Htn Hnn Hself Hurl Hune.
  assert (Hpub : TrimSpace (public_hex k) = public_hex k).
  { apply TrimSpace_hex, hex_all_hex. apply pub_bytes. }
  assert (Hpubne : is_empty (public_hex k) = false).
  { unfold public_hex. destruct (pub_bytes (PubKey k)) as (_ & Hl & _).
    by destruct (SerializeCompressed (PubKey k)). }
  assert (Hnempty : forall x, x <> "" -> is_empty x = false) by (by intros []).
  eexists (mkNode _ _ _ _ _ _ _ _ _ _ _). split_and!; cycle -1.
  - unfold candidateFromPin, registryNodeFromPin, discoveryPinContent.
    rewrite Hchain, Hop, Hbody. fold content. rewrite (Hnempty content Hne). cbn [negb].
    rewrite (Hnempty content Hne). unfold content. rewrite json_roundtrip by done.
    cbn [rn_NodeID rn_Network]. rewrite Hproto, Hver, Hid, Hnet, Hpk, Hpub, Hcap.
    rewrite <- Hid, TrimSpace_idem, Hid. cbn [is_empty]. cbn [set_NodeID rn_NodeID rn_Network].
    assert (Hs : String.eqb ("mvc:" +:+ addr) (dc_selfNodeID d) = false).
    { apply String.eqb_neq. congruence. }
    rewrite Hs, andb_false_r. rewrite Htn. unfold EqualFold. rewrite String.eqb_refl, andb_false_r.
    assert (Hacc : acceptRegistryNode (set_NodeID ("mvc:" +:+ addr)
      (mkNode (TrimSpace ProtocolNode) (TrimSpace Version) ("mvc:" +:+ addr) (dc_network d)
        (TrimSpace (rp_PublicBaseURL payload)) (TrimSpace (rp_SocketURL payload))
        (TrimSpace (rp_PresenceURL payload)) (public_hex k) [publisherPresenceCapability]
        (rp_PublishedAt payload) (rp_ValidUntil payload))) d = true).
    { unfold acceptRegistryNode, set_NodeID.
      cbn [rn_Protocol rn_Version rn_Network rn_PresenceURL rn_PublicKey rn_NodeID rn_Capabilities].
      change (String.eqb (TrimSpace ProtocolNode) ProtocolNode) with true.
      change (is_empty (TrimSpace (TrimSpace Version))) with false. cbn [negb].
      rewrite Htn, (Hnempty _ Hnn), TrimSpace_idem, (Hnempty _ Hune), Hpub, Hpubne, Haddr.
      rewrite <- Hid, TrimSpace_idem, String.eqb_refl. cbn [negb].
      change (registryCapabilitiesInclude [publisherPresenceCapability] publisherPresenceCapability) with true.
      cbn [negb]. done. }
    rewrite Hacc. cbn [negb]. reflexivity.
  - done.
  - done.
  - done.
  - done.
Qed.

(** The payload that a publisher broadcasts for its key makes the node a peer of
    every other node on the same network: its pin is a valid candidate that carries
    the node's id, key and presence URL, and is not to be removed before
    [validUntil]. *)
Theorem published_node_is_accepted key k network params baseURL path validFor t0 pin now d payload addr :
  parsePrivateKeyHex key = Ok k ->
  dc_network d = network -> mvcRegistryNetParams network = Ok params ->
  TrimSpace network = network -> network <> "" ->
  MVCIdentityFromPrivateKey key network = Ok (addr, public_hex k) ->
  payload = registryPayload addr network baseURL path (public_hex k) validFor t0 ->
  json_faithful payload -> json_Marshal payload <> "" ->
  TrimSpace (gp_ContentBody pin) = json_Marshal payload ->
  EqualFold (TrimSpace (gp_ChainName pin)) "mvc" = true ->
  ToLower (TrimSpace (gp_Operation pin)) = "create" \/ ToLower (TrimSpace (gp_Operation pin)) = "modify" ->
  TrimSpace ("mvc:" +:+ addr) = "mvc:" +:+ addr -> dc_selfNodeID d <> "mvc:" +:+ addr ->
  let url := TrimSpace (publisherJoinURL baseURL path) in
  url <> "" -> discoveryPresenceURLAllowed url (dc_allowInsecureHTTP d) = true ->
  UnixMilli now <= UnixMilli (t0 + validFor) ->
  exists node, candidateFromPin pin now d = Some (mkCandidate pin node false)
    /\ rn_NodeID node = "mvc:" +:+ addr /\ rn_PublicKey node = public_hex k
    /\ rn_PresenceURL node = url.
Proof.
  intros Hk Hd Hparams Htn Hnn Hident -> Hf Hne Hbody Hchain Hop Htid Hself url Hune Hurl Hnow.
  subst network.
  assert (Haddr : mvcAddressFromPublicKey (public_hex k) (dc_network d) = Ok addr).
  { unfold mvcAddressFromPublicKey. rewrite parsePublicKeyHex_encode, Hparams.
    unfold MVCIdentityFromPrivateKey, mvcRegistryPrivateKeyFromHex in Hident.
    rewrite Hparams, Hk in Hident. unfold mvcRegistryIdentity in Hident. congruence. }
  destruct (candidate_of_payload pin now d (registryPayload addr (dc_network d) baseURL path (public_hex k) validFor t0)
    addr k) as (node & H1 & H2 & H3 & H4 & H5); try done.
  { by destruct Hop as [-> | ->]. }
  exists node. rewrite H5. split_and!; [|done..]. f_equal. f_equal.
  assert (Hr : String.eqb (ToLower (TrimSpace (gp_Operation pin))) "revoke" = false)
    by (by destruct Hop as [-> | ->]).
  rewrite Hr. unfold peerExpired. rewrite H4. cbn [registryPayload rp_ValidUntil orb].
  rewrite (proj2 (Z.ltb_ge (UnixMilli (t0 + validFor)) (UnixMilli now))) by lia. apply andb_false_r.
Qed.

Lemma revoke_copy_candidate q r now d c :
  candidateFromPin q now d = Some c ->
  gp_ContentBody r = gp_ContentBody q -> gp_ContentSummary r = gp_ContentSummary q ->
  EqualFold (TrimSpace (gp_ChainName r)) "mvc" = true ->
  ToLower (TrimSpace (gp_Operation r)) = "revoke" ->
  candidateFromPin r now d = Some (mkCandidate r (cd_node c) true).
Proof.
  intros Hq Hb Hs Hc Ho. revert Hq. unfold candidateFromPin, registryNodeFromPin, discoveryPinContent.
  rewrite Hb, Hs, Hc, Ho. cbn [negb].
  change (one_of "revoke" ["create"; "modify"; "revoke"]) with true. cbn [negb].
  change (String.eqb "revoke" "revoke") with true. cbn [orb].
  destruct (negb (EqualFold _ _)); [done|]. destruct (negb (one_of _ _)); [done|].
  destruct (is_empty _); [done|].
  match goal with |- context [json_Unmarshal ?x] => destruct (json_Unmarshal x) as [p|]; [|done] end.
  cbn [rn_NodeID]. destruct (is_empty _); [done|]. destruct (_ && _); [done|].
  destruct (_ && _); [done|]. destruct (negb (acceptRegistryNode _ _)); [done|]. by intros [= <-].
Qed.

(** A revocation needs no key: anyone who copies a node's public registry entry
    into a newer pin with operation "revoke" removes that node and its snapshot from
    every store that discovers it. *)
Theorem revoke_needs_no_key client now d s pins q r c :
  fetchRegistryPins client d = Ok pins -> NoDup (map gp_ID pins) ->
  q ∈ pins -> candidateFromPin q now d = Some c ->
  r ∈ pins -> gp_ContentBody r = gp_ContentBody q -> gp_ContentSummary r = gp_ContentSummary q ->
  EqualFold (TrimSpace (gp_ChainName r)) "mvc" = true ->
  ToLower (TrimSpace (gp_Operation r)) = "revoke" ->
  (forall p, p ∈ pins -> p <> r -> gp_Timestamp p < gp_Timestamp r) ->
  exists accepted s', DiscoverOnce client now d s = (Ok accepted, s')
    /\ fs_peers s' !! rn_NodeID (cd_node c) = None
    /\ fs_snapshots s' !! rn_NodeID (cd_node c) = None.
Proof.
  intros Hf Hnd Hq Hcq Hr Hb Hs Hc Ho Hts. set (id := rn_NodeID (cd_node c)).
  pose proof (revoke_copy_candidate q r now d c Hcq Hb Hs Hc Ho) as Hcr.
  set (cr := mkCandidate r (cd_node c) true) in *.
  assert (Hin : cr ∈ candidates_for d now id pins).
  { apply list_elem_of_In, filter_In. split; [|apply String.eqb_refl].
    apply list_elem_of_In, list_elem_of_omap. by exists r. }
  destruct (DiscoverOnce_spec client now d s pins Hf) as (s' & E & _ & Hp & Hsn & _).
  eexists _, s'. split; [exact E|].
  assert (Hm : candidates d now pins !! id = Some cr).
  { pose proof (candidates_newest d now pins id) as H.
    destruct (candidates d now pins !! id) as [c'|]; [|by rewrite H in Hin; apply not_elem_of_nil in Hin].
    f_equal. apply (newest_unique d now pins id); [done|done|]. split; [done|].
    intros c2 Hc2. apply list_elem_of_In, filter_In in Hc2 as [Hc2 _].
    apply list_elem_of_In, list_elem_of_omap in Hc2 as (p & Hpin & Hcp).
    destruct (candidate_spec _ _ _ _ Hcp) as [Epin _].
    destruct (decide (p = r)) as [->|Hne].
    - assert (c2 = cr) as -> by congruence.
      destruct (discoveryCandidateNewer cr cr) eqn:En; [|done].
      pose proof (sw_asym (less := discoveryCandidateNewer) _ _ En). congruence.
    - specialize (Hts p Hpin Hne). unfold discoveryCandidateNewer, on_key at 1. rewrite Epin.
      cbn [cd_pin cr]. rewrite decide_False by lia. unfold Z_gt. apply Z.ltb_ge. lia. }
  rewrite Hp, Hsn. unfold removed. rewrite Hm. cbn [cd_remove cr]. split; [|done].
  destruct (List.find _ _) as [n|] eqn:Ef; [|done].
  apply List.find_some in Ef as [Hn Hid]. apply String.eqb_eq in Hid.
  apply list_elem_of_In, (elem_of_sublist _ (accepted_nodes (candidates d now pins))) in Hn;
    [|apply cut_peers_sub].
  apply elem_of_accepted in Hn as (id' & c' & Em & Er & ->).
  destruct (candidates_ids _ _ _ _ _ Em) as [Hid' _]. assert (id' = id) as -> by congruence.
  rewrite Hm in Em. by injection Em as <-.
Qed.

(** The limit bounds a round, not the store: a peer that the list no longer names
    stays beside all the accepted ones. *)
Lemma max_peers_per_round_only client now d s pins id p :
  fetchRegistryPins client d = Ok pins -> candidates_for d now id pins = [] ->
  fs_peers s !! id = Some p ->
  exists accepted s', DiscoverOnce client now d s = (Ok accepted, s')
    /\ fs_peers s' !! id = Some p
    /\ forall n, n ∈ accepted -> rn_NodeID n <> id /\ is_Some (fs_peers s' !! rn_NodeID n).
Proof.
  intros Hf Hno Hp. destruct (DiscoverOnce_spec client now d s pins Hf) as (s' & E & _ & Hps & _ & _).
  eexists _, s'. split; [exact E|]. set (accepted := cut_peers _ _) in *.
  pose proof (candidates_newest d now pins id) as Hm.
  assert (Hn : candidates d now pins !! id = None).
  { destruct (candidates d now pins !! id) as [c|]; [|done]. destruct Hm as [Hm _].
    rewrite Hno in Hm. by apply not_elem_of_nil in Hm. }
  assert (Hid : forall n, n ∈ accepted -> rn_NodeID n <> id).
  { intros n Hin. apply (elem_of_sublist _ (accepted_nodes (candidates d now pins))) in Hin;
      [|apply cut_peers_sub].
    apply elem_of_accepted in Hin as (id' & c & Em & _ & ->).
    destruct (candidates_ids _ _ _ _ _ Em) as [-> _]. congruence. }
  split.
  - rewrite Hps. unfold removed. rewrite Hn. destruct (List.find _ accepted) as [n|] eqn:Ef; [|done].
    apply List.find_some in Ef as [Hin He]. apply String.eqb_eq in He.
    by destruct (Hid n (proj2 (list_elem_of_In _ _) Hin)).
  - intros n Hin. split; [by apply Hid|]. rewrite Hps.
    destruct (List.find _ accepted) as [m|] eqn:Ef; [done|].
    apply list_elem_of_In in Hin. apply (List.find_none _ _ Ef) in Hin. by rewrite String.eqb_refl in Hin.
Qed.
End Facts.

(** ** Witnesses *)

#[local] Existing Instance toy_crypto.
#[local] Existing Instance toy_url.
#[local] Existing Instance toy_json.
#[local] Existing Instance some_order.

Lemma store_b_empty : fs_peers store_b = ∅ /\ fs_snapshots store_b = ∅.
Proof. done. Qed.
Lemma store_b_ok : store_ok store_b.
Proof.
  destruct store_b_empty as [Ep Es]. split.
  - intros id p. rewrite Ep. by intros ?%lookup_empty_Some.
  - intros id p. rewrite Es. by intros ?%lookup_empty_Some.
  - done.
Qed.
Lemma store_steps : rtc (fed_step discovery_b) store_b store_pulled.
Proof.
  eapply rtc_l; [apply (step_discover discovery_b (sample_client pins_a) (ms 8000))|].
  eapply rtc_l; [apply (step_pull discovery_b (sample_client pins_a) (ms 9400) clock_b puller_b)|].
  apply rtc_refl.
Qed.
Lemma store_found_ok : store_ok store_found.
Proof.
  unfold store_found. destruct (fetchRegistryPins (sample_client pins_a) discovery_b) as [pins|e] eqn:E.
  - destruct (DiscoverOnce_spec (sample_client pins_a) (ms 8000) discovery_b store_b pins E)
      as (s' & Es & _ & _ & _ & Hok). rewrite Es. apply Hok, store_b_ok.
  - unfold DiscoverOnce. rewrite E. apply store_b_ok.
Qed.
Lemma store_pulled_ok : store_ok store_pulled.
Proof. apply PullOnce_store, store_found_ok. Qed.

Lemma snapshot_exchange_witness :
  exists sn, BuildSnapshot items_a (ms 9000) builder_a = (Ok sn, (nextSequence builder_a).2)
  /\ sn_Items sn ≡ₚ items_a
  /\ exists peer store', fs_peers store_found !! "mvc:1NodeA" = Some peer
     /\ pullPeer (sample_client pins_a) peer (ms 9500) puller_b store_found = (Ok tt, store')
     /\ fs_snapshots store' = <["mvc:1NodeA" := sn]> (fs_snapshots store_found).
Proof.
  set (peer := default (set_NodeID "" (mkNode "" "" "" "" "" "" "" "" [] 0 0))
                 (fs_peers store_found !! "mvc:1NodeA")).
  assert (Ep : fs_peers store_found !! "mvc:1NodeA" = Some peer) by (vm_compute; reflexivity).
  destruct (snapshot_exchange items_a (ms 9000) builder_a (true : @PrivateKey toy_crypto) peer (sample_client pins_a) puller_b
    store_found (ms 9500)) as (sn & Hb & Hperm & H);
    [vm_compute; reflexivity|discriminate|vm_compute; reflexivity..|vm_compute; discriminate| |].
  { intros last Hl. assert (Hn : fs_snapshots store_found !! sb_nodeID builder_a = None)
      by (vm_compute; reflexivity). congruence. }
  exists sn. split; [done|]. split; [done|].
  assert (E : sn = snapshot_a) by (unfold snapshot_a; by rewrite Hb).
  exists peer. destruct H as (store' & H1 & H2 & _);
    [rewrite E; vm_compute; reflexivity|rewrite E; vm_compute; discriminate|vm_compute; discriminate
    |done|rewrite E; vm_compute; reflexivity|].
  exists store'. split_and!; [exact Ep|exact H1|exact H2].
Defined.

Lemma backoffDelay_exact_witness :
  backoffDelay 4 puller_b = Z.min (60 * fed_second) (fed_second * 2 ^ 3)
  /\ fed_second <= backoffDelay 4 puller_b <= 60 * fed_second
  /\ backoffDelay 4 puller_b <= backoffDelay 5 puller_b.
Proof. apply (backoffDelay_exact puller_b 4); vm_compute; (done || split; discriminate || reflexivity). Defined.

Lemma PullOnce_isolated_witness :
  slice "mvc:1NodeA" (PullOnce (sample_client pins_a) (ms 9400) clock_b puller_b store_found)
  = (None, Some snapshot_a).
Proof.
  etransitivity; [apply (PullOnce_isolated (sample_client pins_a) (ms 9400) clock_b puller_b store_found
    "mvc:1NodeA"), store_found_ok|vm_compute; reflexivity].
Defined.

Lemma sequence_never_goes_back_witness :
  exists sn, fs_snapshots (PullOnce (sample_client pins_a) (ms 9700) clock_b puller_b store_pulled).2
      !! "mvc:1NodeA" = Some sn
    /\ (sn = snapshot_a \/ sn_Sequence snapshot_a < sn_Sequence sn).
Proof.
  apply (sequence_never_goes_back (sample_client pins_a) (ms 9700) clock_b puller_b store_pulled
    "mvc:1NodeA" snapshot_a); [apply store_pulled_ok|done|vm_compute; reflexivity..].
Defined.

Definition pins_read : list RegistryPin := map registry_pin pins_a.
Lemma discovery_newest_wins_witness :
  exists accepted s', DiscoverOnce (sample_client pins_a) (ms 8000) discovery_b store_b = (Ok accepted, s')
  /\ is_Some (fs_peers s' !! "mvc:1NodeA") /\ fs_peers s' !! "mvc:1NodeC" = fs_peers store_b !! "mvc:1NodeC".
Proof.
  destruct (discovery_newest_wins (sample_client pins_a) (ms 8000) discovery_b store_b pins_read)
    as (accepted & s' & E & _ & _ & Hno & _); [vm_compute; reflexivity|apply NoDup_singleton|].
  exists accepted, s'. split; [done|]. split.
  - assert (Es : s' = store_found) by (unfold store_found; by rewrite E).
    rewrite Es. eexists. vm_compute. reflexivity.
  - apply Hno. vm_compute. reflexivity.
Defined.

Lemma federation_authentic_witness :
  let o := (conn "carol" "pc" 3000 8000, "mvc:1NodeA") in
  (o.1 ∈ local_b /\ o.2 = fs_localNodeID store_pulled)
  \/ exists sn, o.1 ∈ sn_Items sn /\ o.2 = sn_NodeID sn
       /\ authentic "mvc-mainnet" (sn_NodeID sn) sn.
Proof.
  apply (federation_authentic discovery_b "mvc:1NodeB" true "global" store_pulled local_b (ms 10000)).
  - apply store_steps.
  - assert (E : observed local_b (ms 10000) store_pulled
      = [(conn "bob" "pc" 1000 9000, "mvc:1NodeB"); (conn "bob" "pc" 500 7000, "mvc:1NodeA");
         (conn "carol" "pc" 3000 8000, "mvc:1NodeA")]) by (vm_compute; reflexivity).
    rewrite E. right. right. left.
Defined.

Lemma published_node_is_accepted_witness :
  exists node, candidateFromPin (registry_pin (reg_pin "p1" "create" 5)) (ms 8000) discovery_b
      = Some (mkCandidate (registry_pin (reg_pin "p1" "create" 5)) node false)
    /\ rn_NodeID node = "mvc:1NodeA" /\ rn_PublicKey node = public_hex (true : @PrivateKey toy_crypto)
    /\ rn_PresenceURL node = "https://a.example/.well-known/metaso-p2p/presence".
Proof.
  apply (published_node_is_accepted secret_a (true : @PrivateKey toy_crypto) "mvc-mainnet" "mainnet" "https://a.example" PresencePath
    (ms 100000) (ms 1000) (registry_pin (reg_pin "p1" "create" 5)) (ms 8000) discovery_b payload_a "1NodeA");
    [vm_compute; reflexivity|done|done|done|discriminate|vm_compute; reflexivity|reflexivity
    |vm_compute; reflexivity|vm_compute; discriminate|vm_compute; reflexivity|vm_compute; reflexivity
    |left; vm_compute; reflexivity|vm_compute; reflexivity|discriminate|vm_compute; discriminate
    |vm_compute; reflexivity|vm_compute; discriminate].
Defined.

Lemma revoke_needs_no_key_witness :
  let pins := [reg_pin "p1" "create" 5; reg_pin "p2" "revoke" 6] in
  exists accepted s', DiscoverOnce (sample_client pins) (ms 8000) discovery_b store_pulled = (Ok accepted, s')
    /\ fs_peers s' !! "mvc:1NodeA" = None /\ fs_snapshots s' !! "mvc:1NodeA" = None.
Proof.
  set (q := registry_pin (reg_pin "p1" "create" 5)). set (r := registry_pin (reg_pin "p2" "revoke" 6)).
  set (c := default (mkCandidate q (mkNode "" "" "" "" "" "" "" "" [] 0 0) false)
              (candidateFromPin q (ms 8000) discovery_b)).
  assert (Ec : rn_NodeID (cd_node c) = "mvc:1NodeA") by (vm_compute; reflexivity).
  rewrite <- Ec.
  apply (revoke_needs_no_key (sample_client [reg_pin "p1" "create" 5; reg_pin "p2" "revoke" 6]) (ms 8000)
    discovery_b store_pulled [q; r] q r c); try (vm_compute; reflexivity).
  - apply (bool_decide_unpack _). vm_compute. exact I.
  - left.
  - right. left.
  - intros p Hp Hne. apply elem_of_cons in Hp as [->|Hp]; [vm_compute; reflexivity|].
    apply list_elem_of_singleton in Hp. by destruct Hne.
Defined.

Lemma GlobalOnline_exact_witness :
  StronglySorted (fun a b => presence_less a b = true) (GlobalOnline local_b (ms 10000) store_pulled)
  /\ (forall e, e ∈ GlobalOnline local_b (ms 10000) store_pulled
        <-> summary (observed local_b (ms 10000) store_pulled) e)
  /\ (forall o, o ∈ observed local_b (ms 10000) store_pulled <->
        (o.1 ∈ local_b /\ o.2 = fs_localNodeID store_pulled)
        \/ exists sn, is_active store_pulled (ms 10000) sn /\ o.1 ∈ sn_Items sn /\ o.2 = sn_NodeID sn).
Proof.
  apply (GlobalOnline_exact local_b (ms 10000) store_pulled store_pulled_ok).
  apply (check_all (fun o => no_nul (oe_MetaId o.1))). vm_compute. reflexivity.
Defined.
Lemma GlobalOnline_order_independent_witness :
  GlobalOnline (MO := some_order) local_b (ms 10000) store_pulled
  = GlobalOnline (MO := reverse_order) local_b (ms 10000) store_pulled.
Proof. apply (GlobalOnline_order_independent some_order reverse_order local_b (ms 10000) store_pulled store_pulled_ok). Defined.
Lemma pages_cover_witness :
  pages 3 (items_a ++ local_b) 1 = Ok (items_a ++ local_b)
  /\ forall p l, 1 <= p <= 3 -> paginatePresence (items_a ++ local_b) p 1 = Ok l -> (length l <= 1)%nat.
Proof. apply (pages_cover (items_a ++ local_b) 1 3); vm_compute; (reflexivity || (split; discriminate) || discriminate). Defined.
Lemma OnlineList_page_overflow_panics_witness :
  OnlineList local_b (2 ^ 62) 100 (ms 10000) store_pulled = Err "panic: slice bounds out of range".
Proof. apply OnlineList_page_overflow_panics. vm_compute. discriminate. Defined.
