(* ===== verification/Socket.v ===== *)
(** * Socket: connections and pushes ([internal/socket])

    manager.go, the push routing of server.go and the presence handlers of
    presence.go.  The Socket.IO library is not modelled: a socket is a number; what
    the code relies on is that [Disconnect] runs the "disconnect" handler before it
    returns (the comment on [Add] says so).  A [*TrackedConnection] is a record with
    its address [tc_ptr]; what a pointer reaches outside the manager is never read. *)

From S2P Require Import Prelude GoText Json Aggregator Aliases FedStore.

Inductive ConnType := ConnTypePC | ConnTypeApp.
#[export] Instance ConnType_eq_dec : EqDecision ConnType.
Proof. solve_decision. Defined.
Definition conn_string (t : ConnType) : string :=
  match t with ConnTypePC => "pc" | ConnTypeApp => "app" end.

(** Times in nanoseconds since the epoch, never the zero time. *)
Record TrackedConnection := mkConn {
  tc_ptr : nat;
  tc_MetaId : string;
  tc_ConnType : ConnType;
  tc_Socket : Z;
  tc_ConnectedAt : Z;
  tc_LastPing : Z }.
Record ConnectionManager := mkManager {
  cm_connections : gmap string (list TrackedConnection);
  cm_maxPC : Z;
  cm_maxApp : Z;
  (** the next address to be allocated *)
  cm_next : nat }.
Definition NewConnectionManager (maxPC maxApp : Z) : ConnectionManager := mkManager ∅ maxPC maxApp 0.

Definition set_connections (c : gmap string (list TrackedConnection)) (m : ConnectionManager)
    : ConnectionManager := mkManager c (cm_maxPC m) (cm_maxApp m) (cm_next m).
(** [m.connections[metaId]]; a missing key reads as nil. *)
Definition conns_of (metaId : string) (m : ConnectionManager) : list TrackedConnection :=
  default [] (cm_connections m !! metaId).
(** The loop of [removeLocked]: the first element equal to [tc] is cut out. *)
Fixpoint remove_ptr (p : nat) (l : list TrackedConnection) : list TrackedConnection :=
  match l with
  | [] => []
  | c :: l => if Nat.eqb (tc_ptr c) p then l else c :: remove_ptr p l
  end.
Definition removeLocked (metaId : string) (tc : TrackedConnection) (m : ConnectionManager)
    : ConnectionManager :=
  let l := remove_ptr (tc_ptr tc) (conns_of metaId m) in
  match l with
  | [] => set_connections (delete metaId (cm_connections m)) m
  | _ => set_connections (<[metaId := l]> (cm_connections m)) m
  end.
Definition Remove := removeLocked.

Definition same_type (t : ConnType) (c : TrackedConnection) : bool := bool_decide (tc_ConnType c = t).
Definition limit_of (t : ConnType) (m : ConnectionManager) : Z :=
  match t with ConnTypeApp => cm_maxApp m | ConnTypePC => cm_maxPC m end.
(** [for _, c := range sameType { if c.ConnectedAt.Before(oldest.ConnectedAt) }] *)
Definition oldest_of (first : TrackedConnection) (l : list TrackedConnection) : TrackedConnection :=
  foldl (fun oldest c => if tc_ConnectedAt c <? tc_ConnectedAt oldest then c else oldest) first l.

(** [Add] up to [Unlock]: the new connection, the one to disconnect.  With a limit
    of 0 [sameType[0]] panics. *)
Definition Add (metaId : string) (connType : ConnType) (sock : Z) (connectedAt lastPing : Z)
    (m : ConnectionManager) : res (TrackedConnection * option TrackedConnection) * ConnectionManager :=
  let tc := mkConn (cm_next m) metaId connType sock connectedAt lastPing in
  let m := mkManager (cm_connections m) (cm_maxPC m) (cm_maxApp m) (S (cm_next m)) in
  let sameType := List.filter (same_type connType) (conns_of metaId m) in
  let finish m := set_connections (<[metaId := conns_of metaId m ++ [tc]]> (cm_connections m)) m in
  if limit_of connType m <=? Z.of_nat (length sameType) then
    match sameType with
    | [] => (Err "panic: index out of range", m)
    | first :: _ =>
        let oldest := oldest_of first sameType in
        (Ok (tc, Some oldest), finish (removeLocked metaId oldest m))
    end
  else (Ok (tc, None), finish m).

Definition CountByType (metaId : string) (connType : ConnType) (m : ConnectionManager) : Z :=
  Z.of_nat (length (List.filter (same_type connType) (conns_of metaId m))).
Definition UpdatePing (tc : TrackedConnection) (now : Z) (m : ConnectionManager) : ConnectionManager :=
  set_connections
    (fmap (map (fun c => if Nat.eqb (tc_ptr c) (tc_ptr tc)
                         then mkConn (tc_ptr c) (tc_MetaId c) (tc_ConnType c) (tc_Socket c)
                                (tc_ConnectedAt c) now
                         else c)) (cm_connections m)) m.

Section Manager.
Context {MO : MapOrder}.

(** The connections in the order of a range over the map. *)
Definition all_conns (m : ConnectionManager) : list TrackedConnection :=
  mjoin (map_range (cm_connections m)).*2.
Definition FindBySocket (sock : Z) (m : ConnectionManager) : option TrackedConnection :=
  List.find (fun c => tc_Socket c =? sock) (all_conns m).
Definition TotalConnections (m : ConnectionManager) : Z :=
  foldl (fun total kv => total + Z.of_nat (length kv.2)) 0 (map_range (cm_connections m)).
Definition FindStaleConnections (timeout now : Z) (m : ConnectionManager) : list TrackedConnection :=
  List.filter (fun c => timeout <? now - tc_LastPing c) (all_conns m).

(** [onlineListEntriesLocked] and [onlineEntriesLocked]. *)
Definition list_entry (c : TrackedConnection) : OnlineEntry :=
  mkEntry (tc_MetaId c) (conn_string (tc_ConnType c)) (UnixMilli (tc_ConnectedAt c)) 0 [] 0.
Definition presence_entry (c : TrackedConnection) : OnlineEntry :=
  mkEntry (tc_MetaId c) (conn_string (tc_ConnType c)) (UnixMilli (tc_ConnectedAt c))
    (UnixMilli (tc_LastPing c)) [] 0.
Definition OnlineEntries (m : ConnectionManager) : list OnlineEntry := map presence_entry (all_conns m).
Definition OnlineList_local (page size : Z) (m : ConnectionManager) : res (list OnlineEntry) :=
  let entries := map list_entry (all_conns m) in
  let len := Z.of_nat (length entries) in
  let start := wrap64 (wrap64 (page - 1) * size) in
  let start := if start <? 0 then 0 else start in
  if len <=? start then Ok [] else
  let end_ := wrap64 (start + size) in
  let end_ := if len <? end_ then len else end_ in
  if start <=? end_ then Ok (take (Z.to_nat (end_ - start)) (drop (Z.to_nat start) entries))
  else Err "panic: slice bounds out of range".
End Manager.

(** ** The lock

    The manager with its mutex: [Remove], called from the "disconnect" handler,
    blocks for ever when the calling goroutine holds the lock. *)
Definition locked (held : bool) (f : ConnectionManager -> ConnectionManager) (m : ConnectionManager)
    : res ConnectionManager := if held then Err "deadlock" else Ok (f m).
(** [Socket.Disconnect(true)]: the handler registered by [onConnection] runs. *)
Definition Disconnect (held : bool) (tc : TrackedConnection) : ConnectionManager -> res ConnectionManager :=
  locked held (Remove (tc_MetaId tc) tc).
(** All of [Add]: the disconnection follows [Unlock]. *)
Definition AddAndEvict (metaId : string) (connType : ConnType) (sock connectedAt lastPing : Z)
    (m : ConnectionManager) : res ConnectionManager :=
  match Add metaId connType sock connectedAt lastPing m with
  | (Err e, _) => Err e
  | (Ok (_, None), m) => Ok m
  | (Ok (_, Some old), m) => Disconnect false old m
  end.
(** [DisconnectAll] holds the lock all along. *)
Fixpoint disconnect_list (l : list TrackedConnection) (m : ConnectionManager) : res ConnectionManager :=
  match l with
  | [] => Ok m
  | c :: l => m <-? Disconnect true c m ;; disconnect_list l m
  end.
Fixpoint disconnect_all (l : list (string * list TrackedConnection)) (m : ConnectionManager)
    : res ConnectionManager :=
  match l with
  | [] => Ok m
  | (metaId, conns) :: l =>
      m <-? disconnect_list conns m ;;
      disconnect_all l (set_connections (delete metaId (cm_connections m)) m)
  end.
Definition DisconnectAll {MO : MapOrder} (m : ConnectionManager) : res ConnectionManager :=
  disconnect_all (map_range (cm_connections m)) m.

(** One tick of [StartTimeoutCleanup]: the stale connections are looked up under the
    read lock, then disconnected one by one without it. *)
Definition heartbeatTimeout : Z := 35 * 1000000000.
Fixpoint disconnect_stale (l : list TrackedConnection) (m : ConnectionManager) : res ConnectionManager :=
  match l with
  | [] => Ok m
  | tc :: l => m <-? Disconnect false tc m ;; disconnect_stale l m
  end.
Definition timeoutCleanup {MO : MapOrder} (now : Z) (m : ConnectionManager) : res ConnectionManager :=
  disconnect_stale (FindStaleConnections heartbeatTimeout now m) m.

(** ** Connections over time ([onConnection] and its handlers) *)

Definition conn_type_of (query : option string) : ConnType :=
  match query with
  | Some t => if String.eqb t "app" then ConnTypeApp else ConnTypePC
  | None => ConnTypePC
  end.
Inductive socket_event :=
  | EvConnect (metaid type : option string) (sock connectedAt lastPing : Z)
  | EvPing (tc : TrackedConnection) (now : Z)
  | EvDisconnect (tc : TrackedConnection).
Definition handle_event (e : socket_event) (m : ConnectionManager) : res ConnectionManager :=
  match e with
  | EvConnect metaid type sock connectedAt lastPing =>
      let metaId := default "" metaid in
      if is_empty metaId then Ok m
      else AddAndEvict metaId (conn_type_of type) sock connectedAt lastPing m
  | EvPing tc now => Ok (UpdatePing tc now m)
  | EvDisconnect tc => Ok (Remove (tc_MetaId tc) tc m)
  end.
Fixpoint handle_events (l : list socket_event) (m : ConnectionManager) : res ConnectionManager :=
  match l with
  | [] => Ok m
  | e :: l => m <-? handle_event e m ;; handle_events l m
  end.

(** ** Pushing notifications (server.go) *)

Record PushEnvelope := mkEnvelope { pe_M : string; pe_C : Z; pe_D : any }.
Inductive push := SendToUser (metaId : string) (msg : PushEnvelope)
                | BroadcastToRoom (room : string) (msg : PushEnvelope).

(** The closure [add] of [notifyEventTargetIds]. *)
Definition add_target : list string * gset string -> string -> list string * gset string := add_alias.
Definition notifyEventTargetIds (evt : NotifyEvent) : list string :=
  let st := foldl add_target ([], ∅) (ev_TargetIds evt) in
  (match st.1 with
   | [] => add_target (add_target st (ev_MetaId evt)) (ev_GlobalMetaId evt)
   | _ => st
   end).1.
Definition routeNotifyEvent (roomBroadcastEnabled : bool) (evt : option NotifyEvent) : list push :=
  match evt with
  | None => []
  | Some evt =>
      let envelope := mkEnvelope (ev_Type evt) 0 (ev_Payload evt) in
      let users := map (fun id => SendToUser id envelope) (notifyEventTargetIds evt) in
      let room := if negb (is_empty (ev_GroupId evt)) && roomBroadcastEnabled
                  then [BroadcastToRoom ("group:" +:+ ev_GroupId evt) envelope] else [] in
      if String.eqb (ev_Type evt) "WS_SERVER_NOTIFY_GROUP_CHAT" then users ++ room
      else if String.eqb (ev_Type evt) "WS_SERVER_NOTIFY_PRIVATE_CHAT" then users
      else if String.eqb (ev_Type evt) "WS_SERVER_NOTIFY_GROUP_ROLE" then users ++ room
      else []
  end.

(** ** Presence handlers (presence.go)

    The global reader is the federation store at a time, or nil; query parameters
    are given as [strconv.Atoi] returns them. *)

Section Handlers.
Context {MO : MapOrder}.

Definition global_reader (reader : option Store) : bool :=
  match reader with
  | Some s => Enabled s && String.eqb (ToLower (TrimSpace (DefaultScope s))) "global"
  | None => false
  end.
Definition resolvePresenceScope (scope : string) (reader : option Store) : string :=
  let requested := ToLower (TrimSpace scope) in
  if String.eqb requested "local" || String.eqb requested "global" then requested
  else if is_empty requested && global_reader reader then "global" else "local".
Definition page_param (v : option Z) : Z :=
  match v with Some p => if p <? 1 then 1 else p | None => 1 end.
Definition size_param (v : option Z) : Z :=
  let size := match v with Some s => if s <? 1 then 20 else s | None => 20 end in
  if 100 <? size then 100 else size.
Definition HandleOnlineList (page size : option Z) (scope : string) (reader : option Store) (now : Z)
    (m : ConnectionManager) : res (list OnlineEntry) :=
  let page := page_param page in
  let size := size_param size in
  match reader with
  | Some s =>
      if String.eqb (resolvePresenceScope scope reader) "global" && Enabled s
      then OnlineList (OnlineEntries m) page size now s
      else OnlineList_local page size m
  | None => OnlineList_local page size m
  end.
Definition HandleOnlineStats (scope : string) (reader : option Store) (now : Z)
    (m : ConnectionManager) : GlobalStats + Z :=
  match reader with
  | Some s =>
      if String.eqb (resolvePresenceScope scope reader) "global" && Enabled s
      then inl (Stats (OnlineEntries m) now s) else inr (TotalConnections m)
  | None => inr (TotalConnections m)
  end.
Definition HandleIdchatUserOnline (metaId globalMetaId : string) (m : ConnectionManager) : bool :=
  let id := if is_empty (TrimSpace metaId) then TrimSpace globalMetaId else TrimSpace metaId in
  negb (is_empty id) && existsb (fun e => String.eqb (oe_MetaId e) id) (OnlineEntries m).
Definition onlineItemsForIDChat (size : Z) (reader : option Store) (now : Z) (m : ConnectionManager)
    : res (list OnlineEntry) :=
  match reader with
  | Some s => if global_reader reader then OnlineList (OnlineEntries m) 1 size now s
              else OnlineList_local 1 size m
  | None => OnlineList_local 1 size m
  end.
End Handlers.
