(* ===== verification/SocketFacts.v ===== *)
(** * SocketFacts: device limits, eviction, targets, and what locking costs *)

From S2P Require Import Prelude GoText Json Aggregator Aliases FedStore FedStoreFacts Socket.
#[local] Set Warnings "-clear-no-such-hyp".

(** ** The manager's invariant *)

Definition count (t : ConnType) (l : list TrackedConnection) : nat :=
  length (List.filter (same_type t) l).
Lemma count_app t l1 l2 : count t (l1 ++ l2) = (count t l1 + count t l2)%nat.
Proof. unfold count. by rewrite List.filter_app, length_app. Qed.

Record manager_ok (m : ConnectionManager) : Prop := {
  mo_key id l c : cm_connections m !! id = Some l -> c ∈ l -> tc_MetaId c = id;
  mo_nonempty id l : cm_connections m !! id = Some l -> l <> [];
  mo_fresh id l c : cm_connections m !! id = Some l -> c ∈ l -> (tc_ptr c < cm_next m)%nat;
  mo_NoDup id l : cm_connections m !! id = Some l -> NoDup (map tc_ptr l);
  mo_limit id t : Z.of_nat (count t (conns_of id m)) <= limit_of t m }.

Lemma remove_ptr_sublist p l : remove_ptr p l `sublist_of` l.
Proof.
  induction l as [|c l IH]; [done|]. simpl. destruct (Nat.eqb _ _); [by constructor|by constructor].
Qed.
Lemma remove_ptr_count t c l :
  c ∈ l -> NoDup (map tc_ptr l) ->
  count t l = (count t (remove_ptr (tc_ptr c) l) + if same_type t c then 1 else 0)%nat.
Proof.
  induction l as [|x l IH]; intros Hin Hnd; [by apply not_elem_of_nil in Hin|]. simpl in *.
  apply NoDup_cons in Hnd as [Hx Hnd]. unfold count in *. simpl.
  destruct (Nat.eqb_spec (tc_ptr x) (tc_ptr c)) as [E|E].
  - assert (x = c) as ->.
    { apply elem_of_cons in Hin as [|Hin]; [done|]. destruct Hx. rewrite E.
      by apply list_elem_of_In, in_map, list_elem_of_In. }
    destruct (same_type t c); simpl; lia.
  - apply elem_of_cons in Hin as [->|Hin]; [done|]. simpl.
    destruct (same_type t x); simpl; rewrite IH by done; lia.
Qed.
Lemma remove_ptr_elem p l c : c ∈ remove_ptr p l -> c ∈ l.
Proof. intros H. by eapply elem_of_sublist, remove_ptr_sublist. Qed.
Lemma remove_ptr_NoDup p l : NoDup (map tc_ptr l) -> NoDup (map tc_ptr (remove_ptr p l)).
Proof.
  induction l as [|c l IH]; [done|]. simpl. intros [Hn Hnd]%NoDup_cons.
  destruct (Nat.eqb _ _); [done|]. simpl. constructor; [|by apply IH].
  intros Hin. apply Hn. apply list_elem_of_In, in_map_iff in Hin as (c' & <- & Hin).
  by apply list_elem_of_In, in_map, list_elem_of_In, (remove_ptr_elem p), list_elem_of_In.
Qed.
Lemma remove_ptr_count_le t p l : (count t (remove_ptr p l) <= count t l)%nat.
Proof.
  unfold count. induction l as [|c l IH]; [done|]. simpl.
  destruct (Nat.eqb _ _); simpl; destruct (same_type t c); simpl; lia.
Qed.
Lemma remove_ptr_keeps p l c : c ∈ l -> tc_ptr c <> p -> c ∈ remove_ptr p l.
Proof.
  induction l as [|x l IH]; intros Hin Hne; [by apply not_elem_of_nil in Hin|]. simpl.
  apply elem_of_cons in Hin as [->|Hin].
  - destruct (Nat.eqb_spec (tc_ptr x) p); [done|left].
  - destruct (Nat.eqb _ _); [done|right]. by apply IH.
Qed.

Lemma remove_ptr_gone c p l : NoDup (map tc_ptr l) -> c ∈ remove_ptr p l -> tc_ptr c <> p.
Proof.
  induction l as [|x l IH]; simpl; intros Hnd Hc; [by apply not_elem_of_nil in Hc|].
  apply NoDup_cons in Hnd as [Hx Hnd]. destruct (Nat.eqb_spec (tc_ptr x) p) as [<-|Hne].
  - intros E. apply Hx. rewrite <- E. by apply list_elem_of_In, in_map, list_elem_of_In.
  - apply elem_of_cons in Hc as [->|Hc]; [done|by apply IH].
Qed.
Lemma conns_removeLocked id tc m id' :
  conns_of id' (removeLocked id tc m)
  = if String.eqb id' id then remove_ptr (tc_ptr tc) (conns_of id m) else conns_of id' m.
Proof.
  unfold removeLocked. set (l := remove_ptr _ _). unfold conns_of at 1.
  destruct (String.eqb_spec id' id) as [->|Hne].
  - destruct l eqn:E; simpl; [by rewrite lookup_delete_eq|by rewrite lookup_insert_eq].
  - destruct l; simpl; [by rewrite lookup_delete_ne|by rewrite lookup_insert_ne].
Qed.
Lemma removeLocked_rest id tc m :
  cm_maxPC (removeLocked id tc m) = cm_maxPC m /\ cm_maxApp (removeLocked id tc m) = cm_maxApp m
  /\ cm_next (removeLocked id tc m) = cm_next m.
Proof. unfold removeLocked. by destruct (remove_ptr _ _). Qed.
Lemma limit_of_rest t m m' :
  cm_maxPC m = cm_maxPC m' -> cm_maxApp m = cm_maxApp m' -> limit_of t m = limit_of t m'.
Proof. by destruct t. Qed.

(** The invariant in terms of [conns_of]. *)
Lemma manager_ok_alt m :
  (forall id, cm_connections m !! id <> Some []) ->
  (forall id c, c ∈ conns_of id m -> tc_MetaId c = id /\ (tc_ptr c < cm_next m)%nat) ->
  (forall id, NoDup (map tc_ptr (conns_of id m))) ->
  (forall id t, Z.of_nat (count t (conns_of id m)) <= limit_of t m) -> manager_ok m.
Proof.
  intros H1 H2 H3 H4. unfold conns_of in *. split; [| | | |done]; intros id l.
  - intros c E Hc. specialize (H2 id c). rewrite E in H2. by apply H2.
  - intros E ->. by apply (H1 id).
  - intros c E Hc. specialize (H2 id c). rewrite E in H2. by apply H2.
  - intros E. specialize (H3 id). by rewrite E in H3.
Qed.
Lemma manager_ok_conns m id c :
  manager_ok m -> c ∈ conns_of id m -> tc_MetaId c = id /\ (tc_ptr c < cm_next m)%nat.
Proof.
  intros H. unfold conns_of. destruct (cm_connections m !! id) as [l|] eqn:E;
    [|intros Hc; by apply not_elem_of_nil in Hc]. simpl. intros Hc.
  split; [by apply (mo_key m H id l)|by apply (mo_fresh m H id l)].
Qed.
Lemma manager_ok_NoDup m id : manager_ok m -> NoDup (map tc_ptr (conns_of id m)).
Proof.
  intros H. unfold conns_of. destruct (cm_connections m !! id) as [l|] eqn:E; [|constructor].
  by apply (mo_NoDup m H id).
Qed.

Lemma conns_ptr_inj m id c c' :
  manager_ok m -> c ∈ conns_of id m -> c' ∈ conns_of id m -> tc_ptr c = tc_ptr c' -> c = c'.
Proof.
  intros Hok. pose proof (manager_ok_NoDup m id Hok) as Hnd. revert Hnd.
  induction (conns_of id m) as [|x l IH]; intros Hnd Hc Hc' E; [by apply not_elem_of_nil in Hc|].
  simpl in Hnd. apply NoDup_cons in Hnd as [Hx Hnd].
  apply elem_of_cons in Hc as [->|Hc]; apply elem_of_cons in Hc' as [->|Hc'];
    [done| | |by apply IH]; destruct Hx; [rewrite E|rewrite <- E];
    by apply list_elem_of_In, in_map, list_elem_of_In.
Qed.
Lemma removeLocked_ok id tc m : manager_ok m -> manager_ok (removeLocked id tc m).
Proof.
  intros Hok. destruct (removeLocked_rest id tc m) as (E1 & E2 & E3). apply manager_ok_alt.
  - intros id'. unfold removeLocked. destruct (remove_ptr _ _) as [|c l] eqn:E; simpl.
    + destruct (decide (id' = id)) as [->|]; [by rewrite lookup_delete_eq|].
      rewrite lookup_delete_ne by done. intros H. by apply (mo_nonempty m Hok) in H.
    + destruct (decide (id' = id)) as [->|]; [by rewrite lookup_insert_eq|].
      rewrite lookup_insert_ne by done. intros H. by apply (mo_nonempty m Hok) in H.
  - intros id' c. rewrite conns_removeLocked, E3. destruct (String.eqb_spec id' id) as [->|];
      [|by apply manager_ok_conns]. intros Hc%remove_ptr_elem. by apply manager_ok_conns.
  - intros id'. rewrite conns_removeLocked. destruct (String.eqb_spec id' id) as [->|];
      [|by apply manager_ok_NoDup].
    by apply remove_ptr_NoDup, manager_ok_NoDup.
  - intros id' t. rewrite conns_removeLocked, (limit_of_rest t _ m) by done.
    destruct (String.eqb_spec id' id) as [->|]; [|by apply mo_limit].
    etransitivity; [|by apply (mo_limit m Hok id)]. apply inj_le, remove_ptr_count_le.
Qed.

(** ** Adding a connection *)

Lemma oldest_of_spec first l :
  oldest_of first l ∈ first :: l
  /\ forall c, c ∈ first :: l -> tc_ConnectedAt (oldest_of first l) <= tc_ConnectedAt c.
Proof.
  unfold oldest_of. revert first. induction l as [|x l IH]; intros first; cbn [foldl].
  { split; [left|]. intros c ->%list_elem_of_singleton. lia. }
  destruct (Z.ltb_spec (tc_ConnectedAt x) (tc_ConnectedAt first)).
  - destruct (IH x) as [Hin Hle]. split; [by right|].
    intros c [->|Hc]%elem_of_cons; [|by apply Hle]. specialize (Hle x ltac:(left)). lia.
  - destruct (IH first) as [Hin Hle]. split.
    + apply elem_of_cons in Hin as [->|Hin]; [left|by right; right].
    + intros c [->|[->|Hc]%elem_of_cons]%elem_of_cons; [apply Hle; left| |apply Hle; by right].
      specialize (Hle first ltac:(left)). lia.
Qed.

(** The manager after a connection is appended. *)
Definition append_conn (tc : TrackedConnection) (m : ConnectionManager) : ConnectionManager :=
  set_connections (<[tc_MetaId tc := conns_of (tc_MetaId tc) m ++ [tc]]> (cm_connections m)) m.
Lemma conns_append tc m id :
  conns_of id (append_conn tc m)
  = if String.eqb id (tc_MetaId tc) then conns_of (tc_MetaId tc) m ++ [tc] else conns_of id m.
Proof.
  unfold append_conn, conns_of at 1. simpl. destruct (String.eqb_spec id (tc_MetaId tc)) as [->|];
    [by rewrite lookup_insert_eq|by rewrite lookup_insert_ne].
Qed.

Definition bump (m : ConnectionManager) : ConnectionManager :=
  mkManager (cm_connections m) (cm_maxPC m) (cm_maxApp m) (S (cm_next m)).
Definition new_conn (metaId : string) (t : ConnType) (sock c l : Z) (m : ConnectionManager) :=
  mkConn (cm_next m) metaId t sock c l.

Lemma append_ok tc m :
  manager_ok m -> tc_ptr tc = cm_next m ->
  Z.of_nat (count (tc_ConnType tc) (conns_of (tc_MetaId tc) m)) < limit_of (tc_ConnType tc) m ->
  manager_ok (append_conn tc (bump m)).
Proof.
  intros Hok Hp Hlim. apply manager_ok_alt.
  - intros id H. unfold append_conn in H. simpl in H.
    destruct (decide (id = tc_MetaId tc)) as [->|].
    + rewrite lookup_insert_eq in H. by destruct (conns_of _ _).
    + rewrite lookup_insert_ne in H by done. by apply (mo_nonempty m Hok) in H.
  - intros id c. rewrite conns_append. change (conns_of ?i (bump m)) with (conns_of i m).
    change (cm_next (append_conn tc (bump m))) with (S (cm_next m)).
    destruct (String.eqb_spec id (tc_MetaId tc)) as [->|].
    + intros [Hc| ->%list_elem_of_singleton]%elem_of_app; [|split; [done|lia]].
      destruct (manager_ok_conns m _ c Hok Hc). split; [done|lia].
    + intros Hc. destruct (manager_ok_conns m _ c Hok Hc). split; [done|lia].
  - intros id. rewrite conns_append. change (conns_of ?i (bump m)) with (conns_of i m).
    destruct (String.eqb_spec id (tc_MetaId tc)) as [->|]; [|by apply manager_ok_NoDup].
    rewrite map_app. apply NoDup_app. split_and!; [by apply manager_ok_NoDup| |apply NoDup_singleton].
    intros p Hin Hin'. apply list_elem_of_singleton in Hin'. subst p.
    apply list_elem_of_In, in_map_iff in Hin as (c & E & Hc). apply list_elem_of_In in Hc.
    destruct (manager_ok_conns m _ c Hok Hc). lia.
  - intros id t. rewrite conns_append. change (conns_of ?i (bump m)) with (conns_of i m).
    change (limit_of t (append_conn tc (bump m))) with (limit_of t m).
    destruct (String.eqb_spec id (tc_MetaId tc)) as [->|]; [|by apply mo_limit].
    rewrite count_app. unfold count at 2. simpl. unfold same_type at 1.
    case_bool_decide as E; simpl; [subst t; lia|].
    pose proof (mo_limit m Hok (tc_MetaId tc) t). lia.
Qed.

(** [Add] on a manager that satisfies the invariant, with its whole effect. *)
Lemma Add_spec metaId t sock c l m :
  manager_ok m -> 1 <= limit_of t m ->
  exists evicted m', Add metaId t sock c l m = (Ok (new_conn metaId t sock c l m, evicted), m')
  /\ manager_ok m'
  /\ cm_maxPC m' = cm_maxPC m /\ cm_maxApp m' = cm_maxApp m
  /\ (forall id, id <> metaId -> conns_of id m' = conns_of id m)
  /\ match evicted with
     | None => CountByType metaId t m < limit_of t m
               /\ conns_of metaId m' = conns_of metaId m ++ [new_conn metaId t sock c l m]
     | Some old => CountByType metaId t m = limit_of t m
               /\ old ∈ conns_of metaId m /\ tc_ConnType old = t
               /\ (forall x, x ∈ conns_of metaId m -> tc_ConnType x = t ->
                     tc_ConnectedAt old <= tc_ConnectedAt x)
               /\ conns_of metaId m'
                  = remove_ptr (tc_ptr old) (conns_of metaId m) ++ [new_conn metaId t sock c l m]
     end.
Proof.
  intros Hok Hlim. unfold Add. fold (bump m). fold (new_conn metaId t sock c l m).
  change (conns_of metaId (bump m)) with (conns_of metaId m).
  change (limit_of t (bump m)) with (limit_of t m). cbv zeta.
  pose proof (mo_limit m Hok metaId t) as Hmax. unfold count in Hmax.
  set (same := List.filter (same_type t) (conns_of metaId m)) in *.
  assert (Hsame : forall x, x ∈ same <-> x ∈ conns_of metaId m /\ tc_ConnType x = t).
  { intros x. unfold same. rewrite !list_elem_of_In, filter_In. unfold same_type.
    by rewrite bool_decide_eq_true. }
  destruct (Z.leb_spec (limit_of t m) (Z.of_nat (length same))) as [Hge|Hlt].
  - destruct same as [|first rest] eqn:Es; [simpl in Hge; lia|]. rewrite <- Es in *.
    set (old := oldest_of first same).
    destruct (oldest_of_spec first same) as [Hin Hold]. fold old in Hin, Hold.
    assert (Hin' : old ∈ same).
    { apply elem_of_cons in Hin as [Ho|]; [|done]. rewrite Ho, Es. left. }
    apply Hsame in Hin' as [Hoc Hot].
    exists (Some old). eexists. split; [reflexivity|].
    change (set_connections _ _) with
      (append_conn (new_conn metaId t sock c l m) (removeLocked metaId old (bump m))).
    assert (Hcomm : removeLocked metaId old (bump m) = bump (removeLocked metaId old m)).
    { unfold removeLocked. change (conns_of metaId (bump m)) with (conns_of metaId m).
      by destruct (remove_ptr _ _). }
    rewrite Hcomm.
    assert (Hcount : Z.of_nat (count t (remove_ptr (tc_ptr old) (conns_of metaId m))) < limit_of t m).
    { pose proof (remove_ptr_count t old _ Hoc (manager_ok_NoDup m metaId Hok)) as Hc.
      unfold same_type in Hc. rewrite bool_decide_eq_true_2 in Hc by done.
      unfold count at 1 in Hc. fold same in Hc. lia. }
    destruct (removeLocked_rest metaId old m) as (R1 & R2 & R3).
    split_and!.
    + apply append_ok; [by apply removeLocked_ok|by rewrite R3|].
      cbn [new_conn tc_ConnType tc_MetaId]. rewrite conns_removeLocked, String.eqb_refl.
      by rewrite (limit_of_rest t _ m).
    + done.
    + done.
    + intros id Hne. rewrite conns_append. cbn [new_conn tc_MetaId].
      destruct (String.eqb_spec id metaId); [done|].
      change (conns_of id (bump (removeLocked metaId old m))) with (conns_of id (removeLocked metaId old m)).
      rewrite conns_removeLocked. by destruct (String.eqb_spec id metaId).
    + unfold CountByType. fold same. lia.
    + done.
    + done.
    + intros x Hx Ht. apply Hold. right. by apply Hsame.
    + rewrite conns_append. cbn [new_conn tc_MetaId]. rewrite String.eqb_refl.
      change (conns_of metaId (bump (removeLocked metaId old m))) with (conns_of metaId (removeLocked metaId old m)).
      by rewrite conns_removeLocked, String.eqb_refl.
  - exists None. eexists. split; [reflexivity|].
    change (set_connections _ _) with (append_conn (new_conn metaId t sock c l m) (bump m)).
    split_and!.
    + by apply append_ok.
    + done.
    + done.
    + intros id Hne. rewrite conns_append. cbn [new_conn tc_MetaId].
      by destruct (String.eqb_spec id metaId).
    + done.
    + rewrite conns_append. cbn [new_conn tc_MetaId]. by rewrite String.eqb_refl.
Qed.

(** Adding a connection never fails when the limits are positive: it is appended
    to the user's connections; when the user already has the maximum of its type,
    exactly one connection goes, of that type and connected no later than any other;
    all other connections, of this user and of the others, stay. *)
Theorem Add_evicts_oldest metaId t sock c l m :
  manager_ok m -> 1 <= limit_of t m ->
  exists evicted m', Add metaId t sock c l m = (Ok (new_conn metaId t sock c l m, evicted), m')
  /\ manager_ok m'
  /\ (forall id, id <> metaId -> conns_of id m' = conns_of id m)
  /\ match evicted with
     | None => CountByType metaId t m < limit_of t m
               /\ conns_of metaId m' = conns_of metaId m ++ [new_conn metaId t sock c l m]
     | Some old => CountByType metaId t m = limit_of t m
               /\ old ∈ conns_of metaId m /\ tc_ConnType old = t
               /\ (forall x, x ∈ conns_of metaId m -> tc_ConnType x = t ->
                     tc_ConnectedAt old <= tc_ConnectedAt x)
               /\ conns_of metaId m'
                  = remove_ptr (tc_ptr old) (conns_of metaId m) ++ [new_conn metaId t sock c l m]
     end.
Proof.
  intros Hok Hlim. destruct (Add_spec metaId t sock c l m Hok Hlim) as (ev & m' & E & Hok' & _ & _ & Hr).
  by exists ev, m'.
Qed.

(** ** Every history of connections *)

Lemma remove_ptr_absent p l : (forall c, c ∈ l -> tc_ptr c <> p) -> remove_ptr p l = l.
Proof.
  induction l as [|c l IH]; intros H; [done|]. simpl.
  destruct (Nat.eqb_spec (tc_ptr c) p) as [E|]; [destruct (H c); [left|done]|].
  f_equal. apply IH. intros c' Hc. apply H. by right.
Qed.
Lemma UpdatePing_conns tc now m id :
  exists f, (forall c, tc_ptr (f c) = tc_ptr c /\ tc_MetaId (f c) = tc_MetaId c
                       /\ tc_ConnType (f c) = tc_ConnType c /\ tc_Socket (f c) = tc_Socket c)
            /\ conns_of id (UpdatePing tc now m) = map f (conns_of id m).
Proof.
  exists (fun c => if Nat.eqb (tc_ptr c) (tc_ptr tc)
    then mkConn (tc_ptr c) (tc_MetaId c) (tc_ConnType c) (tc_Socket c) (tc_ConnectedAt c) now else c).
  split.
  - intros c. by destruct (Nat.eqb _ _).
  - unfold conns_of, UpdatePing. simpl. rewrite lookup_fmap. by destruct (cm_connections m !! id).
Qed.
Lemma count_map t f l :
  (forall c, tc_ConnType (f c) = tc_ConnType c) -> count t (map f l) = count t l.
Proof.
  intros H. unfold count. induction l as [|c l IH]; [done|]. simpl. unfold same_type in *.
  rewrite H. destruct (bool_decide _); simpl; by rewrite IH.
Qed.
Lemma UpdatePing_ok tc now m : manager_ok m -> manager_ok (UpdatePing tc now m).
Proof.
  intros Hok. apply manager_ok_alt.
  - intros id H. unfold UpdatePing in H. simpl in H. rewrite lookup_fmap in H.
    destruct (cm_connections m !! id) as [[|c l]|] eqn:E; simplify_eq/=.
    by apply (mo_nonempty m Hok) in E.
  - intros id c. destruct (UpdatePing_conns tc now m id) as (f & Hf & ->).
    intros (c' & <- & Hc)%list_elem_of_In%in_map_iff. destruct (Hf c') as (-> & -> & _).
    by apply (manager_ok_conns m), list_elem_of_In.
  - intros id. destruct (UpdatePing_conns tc now m id) as (f & Hf & ->). rewrite map_map.
    erewrite map_ext; [by apply manager_ok_NoDup|]. intros c. apply Hf.
  - intros id t. destruct (UpdatePing_conns tc now m id) as (f & Hf & ->).
    rewrite count_map by (intros; apply Hf). by apply (mo_limit m Hok).
Qed.

Definition limits_ok (m : ConnectionManager) : Prop := 1 <= cm_maxPC m /\ 1 <= cm_maxApp m.
Lemma limits_ok_of t m : limits_ok m -> 1 <= limit_of t m.
Proof. intros [? ?]. by destruct t. Qed.
Lemma limit_of_set t c m : limit_of t (set_connections c m) = limit_of t m.
Proof. by destruct t. Qed.
Lemma new_manager_ok maxPC maxApp :
  1 <= maxPC -> 1 <= maxApp -> manager_ok (NewConnectionManager maxPC maxApp).
Proof.
  intros ? ?. apply manager_ok_alt; unfold conns_of; simpl.
  - intros id. by rewrite lookup_empty.
  - intros id c. rewrite lookup_empty. intros Hc. by apply not_elem_of_nil in Hc.
  - intros id. rewrite lookup_empty. constructor.
  - intros id t. rewrite lookup_empty. unfold count. destruct t; simpl; lia.
Qed.

(** One event keeps the invariant and never fails: the eviction runs without the lock. *)
Lemma handle_event_ok e m :
  manager_ok m -> limits_ok m ->
  exists m', handle_event e m = Ok m' /\ manager_ok m'
             /\ cm_maxPC m' = cm_maxPC m /\ cm_maxApp m' = cm_maxApp m.
Proof.
  intros Hok Hlim. destruct e as [metaid type sock c l|tc now|tc]; cbn [handle_event].
  - cbv zeta. destruct (is_empty _); [by eauto|]. unfold AddAndEvict.
    set (metaId := default "" metaid). set (t := conn_type_of type).
    destruct (Add_spec metaId t sock c l m Hok (limits_ok_of t m Hlim))
      as (ev & m' & -> & Hok' & Hl1 & Hl2 & _).
    destruct ev as [old|]; [|by eauto 10].
    destruct (removeLocked_rest (tc_MetaId old) old m') as (R1 & R2 & _).
    eexists. split; [reflexivity|]. unfold Remove.
    split_and!; [by apply removeLocked_ok|by rewrite R1|by rewrite R2].
  - eexists. split; [reflexivity|]. split; [by apply UpdatePing_ok|done].
  - eexists. split; [reflexivity|]. destruct (removeLocked_rest (tc_MetaId tc) tc m) as (R1 & R2 & _).
    split_and!; [by apply removeLocked_ok|done|done].
Qed.
Lemma handle_events_ok l m :
  manager_ok m -> limits_ok m ->
  exists m', handle_events l m = Ok m' /\ manager_ok m'
             /\ cm_maxPC m' = cm_maxPC m /\ cm_maxApp m' = cm_maxApp m.
Proof.
  revert m. induction l as [|e l IH]; intros m Hok Hlim; cbn [handle_events]; [by eauto|].
  destruct (handle_event_ok e m Hok Hlim) as (m1 & -> & Hok1 & E1 & E2).
  destruct (IH m1 Hok1) as (m' & -> & Hok' & E3 & E4); [by unfold limits_ok; rewrite E1, E2|].
  exists m'. split_and!; [done|done|by rewrite E3|by rewrite E4].
Qed.

(** C21: Whatever connections, pings and disconnections arrive, in whatever order and
    number, with positive limits the manager handles all of them (no panic, no
    deadlock on its lock) and no user ever holds more connections of a type than the
    limit of that type. *)
Theorem device_limit maxPC maxApp events :
  1 <= maxPC -> 1 <= maxApp ->
  exists m, handle_events events (NewConnectionManager maxPC maxApp) = Ok m
  /\ forall id, CountByType id ConnTypePC m <= maxPC /\ CountByType id ConnTypeApp m <= maxApp.
Proof.
  intros H1 H2. destruct (handle_events_ok events (NewConnectionManager maxPC maxApp))
    as (m & E & Hok & E1 & E2); [by apply new_manager_ok|done|].
  exists m. split; [done|]. intros id.
  pose proof (mo_limit m Hok id ConnTypePC) as HP. pose proof (mo_limit m Hok id ConnTypeApp) as HA.
  simpl in E1, E2. unfold limit_of in HP, HA. rewrite E1 in HP. rewrite E2 in HA. done.
Qed.

(** Everything a range over the manager sees is the connections of some user. *)
Lemma elem_of_all_conns {MO : MapOrder} m c :
  c ∈ all_conns m <-> exists id, c ∈ conns_of id m.
Proof.
  unfold all_conns. rewrite list_elem_of_join. split.
  - intros (l & Hc & Hl). apply list_elem_of_fmap in Hl as ((id & l') & -> & Hl).
    apply elem_of_range in Hl. exists id. unfold conns_of. by rewrite Hl.
  - intros (id & Hc). unfold conns_of in Hc. destruct (cm_connections m !! id) as [l|] eqn:E;
      [|by apply not_elem_of_nil in Hc]. exists l. split; [done|].
    apply list_elem_of_fmap. exists (id, l). split; [done|by apply elem_of_range].
Qed.
Lemma TotalConnections_entries {MO : MapOrder} m :
  TotalConnections m = Z.of_nat (length (OnlineEntries m)).
Proof.
  unfold TotalConnections, OnlineEntries, all_conns. rewrite length_map.
  enough (forall l (z : Z), foldl (fun total (kv : string * list TrackedConnection) =>
      total + Z.of_nat (length kv.2)) z l = z + Z.of_nat (length (mjoin l.*2))) as -> by lia.
  induction l as [|[id cs] l IH]; intros z; [by rewrite Z.add_0_r|].
  change (mjoin ((id, cs) :: l).*2) with (cs ++ mjoin l.*2). cbn [foldl snd].
  rewrite IH, length_app. lia.
Qed.

(** ** The heartbeat *)

Lemma disconnect_stale_spec l m :
  exists m', disconnect_stale l m = Ok m'
  /\ forall id, conns_of id m'
     = foldl (fun cs c => if String.eqb id (tc_MetaId c) then remove_ptr (tc_ptr c) cs else cs)
         (conns_of id m) l.
Proof.
  revert m. induction l as [|c l IH]; intros m; cbn [disconnect_stale Disconnect locked foldl]; [by eauto|].
  destruct (IH (Remove (tc_MetaId c) c m)) as (m' & E & Hm). exists m'. split; [exact E|].
  intros id. rewrite Hm. f_equal. unfold Remove. rewrite conns_removeLocked.
  by destruct (String.eqb_spec id (tc_MetaId c)) as [->|].
Qed.
Lemma fold_remove_elem (l cs : list TrackedConnection) id c :
  (forall x, x ∈ cs -> tc_MetaId x = id) -> NoDup (map tc_ptr cs) ->
  c ∈ foldl (fun cs x => if String.eqb id (tc_MetaId x) then remove_ptr (tc_ptr x) cs else cs) cs l
  <-> c ∈ cs /\ forall x, x ∈ l -> tc_MetaId x = id -> tc_ptr x <> tc_ptr c.
Proof.
  revert cs. induction l as [|x l IH]; intros cs Hid Hnd; cbn [foldl].
  { split; [|by intros [? _]]. intros Hc. split; [done|]. intros x Hx. by apply not_elem_of_nil in Hx. }
  destruct (String.eqb_spec id (tc_MetaId x)) as [E|E].
  - rewrite IH; [|intros y Hy; by apply Hid, (remove_ptr_elem (tc_ptr x))|by apply remove_ptr_NoDup].
    split.
    + intros [Hc Hl]. split; [by apply (remove_ptr_elem (tc_ptr x))|].
      intros y [->|Hy]%elem_of_cons Hy'; [|by apply Hl]. intros Ep. rewrite Ep in Hc.
      by apply remove_ptr_gone in Hc.
    + intros [Hc Hl]. split; [|intros y Hy; apply Hl; by right].
      apply remove_ptr_keeps; [done|]. intros Ep. apply (Hl x); [left|done|done].
  - rewrite IH by done. split; intros [Hc Hl]; (split; [done|]).
    + intros y [->|Hy]%elem_of_cons Hy'; [by destruct E|by apply Hl].
    + intros y Hy. apply Hl. by right.
Qed.

(** C23: A tick of the heartbeat cleanup always completes, drops every connection whose
    last ping is more than 35 seconds old, and no other. *)
Theorem timeoutCleanup_exact {MO : MapOrder} now m :
  manager_ok m ->
  exists m', timeoutCleanup now m = Ok m'
  /\ forall id c, c ∈ conns_of id m'
     <-> c ∈ conns_of id m /\ now - tc_LastPing c <= heartbeatTimeout.
Proof.
  intros Hok. unfold timeoutCleanup.
  destruct (disconnect_stale_spec (FindStaleConnections heartbeatTimeout now m) m) as (m' & E & Hm).
  exists m'. split; [exact E|]. intros id c. rewrite Hm, fold_remove_elem;
    [|intros x Hx; by apply (manager_ok_conns m)|by apply manager_ok_NoDup].
  assert (Hstale : forall x, x ∈ FindStaleConnections heartbeatTimeout now m
    <-> (exists id, x ∈ conns_of id m) /\ heartbeatTimeout < now - tc_LastPing x).
  { intros x. unfold FindStaleConnections. rewrite list_elem_of_In, filter_In, <- list_elem_of_In.
    by rewrite elem_of_all_conns, Z.ltb_lt. }
  split; intros [Hc Hl]; (split; [done|]).
  - destruct (Z.le_gt_cases (now - tc_LastPing c) heartbeatTimeout) as [|Hgt]; [done|].
    destruct (Hl c); [apply Hstale; eauto|by apply (manager_ok_conns m)|done].
  - intros x [[id' Hx] Hold]%Hstale Hid Hp.
    destruct (manager_ok_conns m id' x Hok Hx) as [Hi _]. rewrite Hid in Hi. subst id'.
    assert (x = c) as ->; [|lia]. by apply (conns_ptr_inj m id).
Qed.

(** ** Closing the manager *)

(** [DisconnectAll] never returns when a connection is open: it disconnects the
    socket while it holds the manager's lock, and the "disconnect" handler waits for
    that lock in [Remove] (the deadlock that the comment on [Add] describes). *)
Theorem DisconnectAll_deadlocks {MO : MapOrder} m id :
  manager_ok m -> conns_of id m <> [] -> DisconnectAll m = Err "deadlock".
Proof.
  intros Hok Hne. unfold DisconnectAll.
  assert (Hr : map_range (cm_connections m) <> []).
  { unfold conns_of in Hne. destruct (cm_connections m !! id) as [l|] eqn:E; [|done].
    apply elem_of_range in E. intros Hn. rewrite Hn in E. by apply not_elem_of_nil in E. }
  destruct (map_range (cm_connections m)) as [|[id' l] rest] eqn:E; [done|].
  assert (Hl : cm_connections m !! id' = Some l) by (apply elem_of_range; rewrite E; left).
  apply (mo_nonempty m Hok) in Hl. by destruct l.
Qed.

(** ** Whom a notification reaches *)

(** The ids that are tried: the event's targets, or its own user when none is given. *)
Definition event_ids (evt : NotifyEvent) : list string :=
  if forallb (fun id => is_empty (TrimSpace id)) (ev_TargetIds evt)
  then [ev_MetaId evt; ev_GlobalMetaId evt] else ev_TargetIds evt.

(** The recipients of a notification are exactly the event's target ids (its own
    user's ids when no target is given): blanks are trimmed, blank ids dropped, and an
    id that differs from an earlier one only by letter case is not sent twice; so every
    user who is a target gets the message, and once. *)
Theorem notifyEventTargetIds_exact evt :
  let out := notifyEventTargetIds evt in
  NoDup (map ToLower out)
  /\ (forall x, x ∈ out -> x <> "" /\ exists id, id ∈ event_ids evt /\ TrimSpace id = x)
  /\ (forall id, id ∈ event_ids evt -> TrimSpace id <> "" ->
        ToLower (TrimSpace id) ∈ map ToLower out).
Proof.
  cbv zeta. unfold notifyEventTargetIds, event_ids, add_target.
  pose proof (fold_alias_inv (ev_TargetIds evt) [] _ aliases_inv_nil) as Hinv.
  pose proof (fold_alias_blank (ev_TargetIds evt)) as Hblank.
  assert (Hout : forall l st, aliases_inv l st -> NoDup (map ToLower st.1)
    /\ (forall x, x ∈ st.1 -> x <> "" /\ exists id, id ∈ l /\ TrimSpace id = x)
    /\ (forall id, id ∈ l -> TrimSpace id <> "" -> ToLower (TrimSpace id) ∈ map ToLower st.1)).
  { intros l st (H1 & H2 & H3 & H4). split_and!; [done..|]. intros id Hid Hne.
    apply (elem_of_list_to_set (C := gset string)). rewrite H2. by apply H4. }
  destruct (forallb _ _).
  - rewrite (proj1 Hblank eq_refl). apply Hout.
    assert (Hst : foldl add_alias ([], ∅) (ev_TargetIds evt) = ([], ∅)).
    { destruct Hinv as (_ & Hset & _). rewrite (proj1 Hblank eq_refl) in Hset. simpl in Hset.
      pose proof (proj1 Hblank eq_refl). destruct (foldl _ _ _). simpl in *. congruence. }
    rewrite Hst. apply (fold_alias_inv [ev_MetaId evt; ev_GlobalMetaId evt] [] _ aliases_inv_nil).
  - apply Hout in Hinv. destruct (foldl add_alias _ _) as [[|x t] s]; [|done].
    destruct Hblank as [_ Hb]. by specialize (Hb eq_refl).
Qed.

Lemma target_ids_NoDup evt : NoDup (map ToLower (notifyEventTargetIds evt)).
Proof. apply notifyEventTargetIds_exact. Qed.

(** ** Concrete managers *)

Definition sample_manager : ConnectionManager :=
  match handle_events
    [EvConnect (Some "alice") None 1 100 100; EvConnect (Some "alice") (Some "app") 2 200 200;
     EvConnect (Some "bob") (Some "tv") 3 150 150] (NewConnectionManager 1 1) with
  | Ok m => m
  | Err _ => NewConnectionManager 0 0
  end.
Lemma sample_manager_ok : manager_ok sample_manager.
Proof.
  destruct (handle_events_ok
    [EvConnect (Some "alice") None 1 100 100; EvConnect (Some "alice") (Some "app") 2 200 200;
     EvConnect (Some "bob") (Some "tv") 3 150 150] (NewConnectionManager 1 1))
    as (m & E & Hok & _); [by apply new_manager_ok|done|].
  unfold sample_manager. by rewrite E.
Qed.
Lemma Add_evicts_oldest_witness :
  exists evicted m',
    Add "alice" ConnTypePC 4 300 300 sample_manager
    = (Ok (new_conn "alice" ConnTypePC 4 300 300 sample_manager, evicted), m')
    /\ option_map tc_Socket evicted = Some 1
    /\ map tc_Socket (conns_of "alice" m') = [2; 4] /\ map tc_Socket (conns_of "bob" m') = [3].
Proof.
  destruct (Add_evicts_oldest "alice" ConnTypePC 4 300 300 sample_manager)
    as (ev & m' & E & _); [exact sample_manager_ok|by vm_compute|].
  exists ev, m'. split; [exact E|].
  apply (f_equal (fun r => (match r.1 with Ok (_, e) => option_map tc_Socket e | Err _ => None end,
    map tc_Socket (conns_of "alice" r.2), map tc_Socket (conns_of "bob" r.2)))) in E.
  vm_compute in E. by simplify_eq/=.
Defined.
Lemma device_limit_witness :
  exists m, handle_events (replicate 5 (EvConnect (Some "alice") None 1 100 100))
              (NewConnectionManager 2 1) = Ok m
  /\ CountByType "alice" ConnTypePC m = 2.
Proof.
  destruct (device_limit 2 1 (replicate 5 (EvConnect (Some "alice") None 1 100 100)))
    as (m & E & _); [lia|lia|].
  exists m. split; [exact E|].
  vm_compute in E. apply (f_equal (fun r => match r with Ok m => m | Err _ => m end)) in E.
  subst m. by vm_compute.
Defined.
Lemma timeoutCleanup_exact_witness :
  exists m', timeoutCleanup (MO := some_order) (heartbeatTimeout + 180) sample_manager = Ok m'
  /\ map tc_Socket (conns_of "alice" m') = [2] /\ conns_of "bob" m' = [].
Proof.
  destruct (timeoutCleanup_exact (MO := some_order) (heartbeatTimeout + 180) sample_manager)
    as (m' & E & _); [exact sample_manager_ok|].
  exists m'. split; [exact E|].
  apply (f_equal (fun r => match r with
    | Ok m => (map tc_Socket (conns_of "alice" m), conns_of "bob" m) | Err _ => ([], []) end)) in E.
  vm_compute in E. by simplify_eq/=.
Defined.
Lemma DisconnectAll_deadlocks_witness :
  DisconnectAll (MO := some_order) sample_manager = Err "deadlock".
Proof.
  apply (DisconnectAll_deadlocks (MO := some_order) sample_manager "bob");
    [exact sample_manager_ok|by vm_compute].
Defined.

(** A limit of zero devices makes the first connection panic ([sameType[0]]). *)
Lemma zero_limit_panics :
  handle_events [EvConnect (Some "alice") None 1 100 100] (NewConnectionManager 0 1)
  = Err "panic: index out of range".
Proof. by vm_compute. Qed.
(** Pages of the local online list are cut out of a fresh range over the map: two
    requests for successive pages can both show the same user and never show another. *)
Lemma OnlineList_local_pages_unstable :
  match handle_events [EvConnect (Some "alice") None 1 100 100; EvConnect (Some "bob") None 2 200 200]
          (NewConnectionManager 1 1) with
  | Ok m => OnlineList_local (MO := some_order) 1 1 m = OnlineList_local (MO := reverse_order) 2 1 m
            /\ match OnlineList_local (MO := some_order) 1 1 m with Ok [_] => True | _ => False end
  | Err _ => False
  end.
Proof. by split; vm_compute. Qed.
