(* ===== verification/SocketProfile.v ===== *)
(** * SocketProfile: the presence endpoints with the profiles they show

    [internal/socket/profile.go] and the endpoints of presence.go around the lists of
    [Socket]: the rows of connected applications carry the profile of their user.  The
    lookups run on a state [W]; [socketUserInfoLookupAdapter] of cmd/metaso-p2p/main.go
    makes them the ones of the user info aggregator, and then the profile shown is
    exact. *)

From S2P Require Import Prelude GoText Json Storage Aggregator IdAddress IdAddressFacts Cache HttpApi UserInfo UserInfoFacts FedStore Socket.
Open Scope handler_scope.
#[local] Set Warnings "-clear-no-such-hyp".

Record ProfileSnapshot := mkSnapshot {
  GlobalMetaId : string; MetaId : string; Address : string; Name : string; Avatar : string; AvatarId : string;
  AvatarUrl : string; ChatPublicKey : string; Bio : any }.
Record ProfileLookup (W : Type) := mkLookup {
  LookupByMetaId : string -> M W (option ProfileSnapshot);
  LookupByGlobalMetaId : string -> M W (option ProfileSnapshot);
  LookupByAddress : string -> M W (option ProfileSnapshot) }.
Arguments mkLookup {W}. Arguments LookupByMetaId {W}. Arguments LookupByGlobalMetaId {W}.
Arguments LookupByAddress {W}.

(** ** Avatars *)

Definition isHTTPURL (raw : string) : bool :=
  let lower := ToLower (TrimSpace raw) in HasPrefix lower "http://" || HasPrefix lower "https://".
Definition avatarIDFromReference {UP : URLParse} (avatar : string) : string :=
  let avatar := TrimSpace avatar in
  if is_empty avatar || String.eqb avatar "/content/" then "" else
  let lower := ToLower avatar in
  if HasPrefix avatar "/content/" then TrimChar "/" (TrimPrefix avatar "/content/")
  else if HasPrefix lower "metafile://" then TrimChar "/" (TrimPrefix avatar "metafile://")
  else if HasPrefix lower "metafile:" then TrimChar "/" (TrimPrefix avatar "metafile:")
  else if isHTTPURL avatar then
    match url_HostPath avatar with
    | Some (_, path) => TrimSpace (UserInfo.last_part (TrimChar "/" path))
    | None => ""
    end
  else "".
(** [SetProfileAssetBaseURL]. *)
Definition asset_base (baseURL : string) : string := TrimRightChar "/" (TrimSpace baseURL).
Definition resolveProfileAvatarURL {UP : URLParse} (profileAssetBaseURL avatar avatarID : string) : string :=
  let avatar := TrimSpace avatar in
  let avatarID := firstNonEmptyString [avatarID; avatarIDFromReference avatar] in
  if negb (is_empty avatarID) && negb (is_empty profileAssetBaseURL)
  then profileAssetBaseURL +:+ "/" +:+ TrimLeftChar "/" avatarID
  else if isHTTPURL avatar then avatar else "".

(** ** Profiles of rows *)

Section Hydrate.
Context {UP : URLParse} {W : Type}.

(** The three lookups with the key that [seen] remembers. *)
Definition presence_lookups (pl : ProfileLookup W) (id : string)
    : list (string * (string -> M W (option ProfileSnapshot))) :=
  let by_metaid := ("metaid:" +:+ id, LookupByMetaId pl) in
  let by_global := ("globalmetaid:" +:+ id, LookupByGlobalMetaId pl) in
  let by_address := ("address:" +:+ id, LookupByAddress pl) in
  if HasPrefix (ToLower id) "idq" then [by_global; by_metaid; by_address] else [by_metaid; by_global; by_address].
Fixpoint try_lookups (lookups : list (string * (string -> M W (option ProfileSnapshot)))) (id : string)
    (seen : gset string) (w : W) : option ProfileSnapshot * W :=
  match lookups with
  | [] => (None, w)
  | (key, fn) :: lookups =>
      if bool_decide (key ∈ seen) then try_lookups lookups id seen w else
      match fn id w with
      | (Ok (Some profile), w) => (Some profile, w)
      | (_, w) => try_lookups lookups id ({[key]} ∪ seen) w
      end
  end.
Definition lookupPresenceProfile (pl : option (ProfileLookup W)) (id : string) (w : W) : option ProfileSnapshot * W :=
  let id := TrimSpace id in
  match pl with
  | Some pl => if is_empty id then (None, w) else try_lookups (presence_lookups pl id) id ∅ w
  | None => (None, w)
  end.

(** An entry with its [UserInfo]. *)
Abbreviation row := (OnlineEntry * option ProfileSnapshot)%type.
Definition with_AvatarUrl (base : string) (p : ProfileSnapshot) : ProfileSnapshot :=
  mkSnapshot (GlobalMetaId p) (MetaId p) (Address p) (Name p) (Avatar p) (AvatarId p)
    (resolveProfileAvatarURL base (Avatar p) (AvatarId p)) (ChatPublicKey p) (Bio p).
Definition hydrate_entry (pl : option (ProfileLookup W)) (base : string) (item : OnlineEntry) (w : W) : row * W :=
  if negb (String.eqb (oe_Type item) (conn_string ConnTypeApp)) then ((item, None), w) else
  let '(profile, w) := lookupPresenceProfile pl (oe_MetaId item) w in
  ((item, with_AvatarUrl base <$> profile), w).
Fixpoint hydrateOnlineEntries (pl : option (ProfileLookup W)) (base : string) (items : list OnlineEntry) (w : W)
    : list row * W :=
  match items with
  | [] => ([], w)
  | item :: items =>
      let '(r, w) := hydrate_entry pl base item w in
      let '(rows, w) := hydrateOnlineEntries pl base items w in (r :: rows, w)
  end.

(** ** Endpoints *)

Context {MO : MapOrder}.
Variables (pl : option (ProfileLookup W)) (base : string).

(** The [res] is a panic of the list. *)
Definition serve_online_list (q : Values) (reader : option Store) (now : Z) (m : ConnectionManager) (w : W)
    : res (list row * W) :=
  items <-? HandleOnlineList (Atoi (DefaultQuery q "page" "1")) (Atoi (DefaultQuery q "size" "20"))
              (Query q "scope") reader now m ;;
  Ok (hydrateOnlineEntries pl base items w).

Record idchat_user := mkIdchatUser {
  iu_globalMetaId : string; iu_lastSeenAt : Z; iu_lastSeenAgoSeconds : Z; iu_deviceCount : Z;
  iu_userInfo : option ProfileSnapshot }.
(** [now] in milliseconds. *)
Definition idchat_row (now : Z) (r : row) : idchat_user :=
  let '(item, info) := r in
  let lastSeenAt := if oe_LastSeenAt item =? 0 then oe_ConnectedAt item else oe_LastSeenAt item in
  let agoSeconds := if (0 <? lastSeenAt) && (lastSeenAt <? now) then (now - lastSeenAt) / 1000 else 0 in
  let globalMetaId := match info with
                      | Some p => if is_empty (GlobalMetaId p) then oe_MetaId item else GlobalMetaId p
                      | None => oe_MetaId item
                      end in
  mkIdchatUser globalMetaId lastSeenAt agoSeconds 1 info.
Record idchat_users := mkIdchatUsers {
  ius_total : Z; ius_cursor : string; ius_size : Z; ius_onlineWindowSeconds : Z; ius_list : list idchat_user }.
Definition HandleIdchatOnlineUsers (q : Values) (reader : option Store) (now : Z) (m : ConnectionManager) (w : W)
    : res (idchat_users * W) :=
  let size := size_param (Atoi (DefaultQuery q "size" "20")) in
  items <-? onlineItemsForIDChat size reader now m ;;
  let '(rows, w) := hydrateOnlineEntries pl base items w in
  Ok (mkIdchatUsers (Z.of_nat (length rows)) (Query q "cursor") size 35 (map (idchat_row now) rows), w).

Inductive snapshot_response := StatusNotFound | StatusServiceUnavailable | StatusOK (s : Snapshot).
Definition HandlePresenceSnapshot (provider : option (W -> res (option Snapshot))) (w : W) : snapshot_response :=
  match provider with
  | None => StatusNotFound
  | Some provider => match provider w with Ok (Some s) => StatusOK s | _ => StatusServiceUnavailable end
  end.
Definition presence_routes (snapshotPath : string) : list string :=
  ["/socket/online/stats"; "/socket/online/list";
   if is_empty snapshotPath then "/.well-known/metaso-p2p/presence" else snapshotPath].

(** ** Facts *)

Lemma hydrate_length items w : length (hydrateOnlineEntries pl base items w).1 = length items.
Proof.
  revert w. induction items as [|item items IH]; intros w; [done|]. cbn [hydrateOnlineEntries].
  destruct (hydrate_entry pl base item w) as [r w1]. specialize (IH w1).
  destruct (hydrateOnlineEntries pl base items w1). simpl in *. lia.
Qed.
(** When the lookups leave the state alone, a row is its entry with the profile found
    for it, if it is the row of an application. *)
Lemma hydrate_readonly items w :
  (forall id, (lookupPresenceProfile pl id w).2 = w) ->
  hydrateOnlineEntries pl base items w
  = (map (fun item => (item, if String.eqb (oe_Type item) "app"
                             then with_AvatarUrl base <$> (lookupPresenceProfile pl (oe_MetaId item) w).1
                             else None)) items, w).
Proof.
  intros Hw. induction items as [|item items IH]; [done|]. cbn [hydrateOnlineEntries map]. unfold hydrate_entry.
  cbn [conn_string]. destruct (String.eqb_spec (oe_Type item) "app"); cbn [negb].
  - specialize (Hw (oe_MetaId item)). destruct (lookupPresenceProfile pl _ w) as [p w'].
    cbn [snd] in Hw. subst w'. by rewrite IH.
  - by rewrite IH.
Qed.
End Hydrate.

(** ** With the user info aggregator *)

Definition socketProfileFromUserInfo (p : UserProfile) : ProfileSnapshot :=
  mkSnapshot (UserInfo.GlobalMetaID p) (UserInfo.MetaID p) (UserInfo.Address p) (UserInfo.Name p)
    (UserInfo.Avatar p) (UserInfo.AvatarId p) "" (UserInfo.ChatPublicKey p) (AStr (UserInfo.Bio p)).
(** A profile next to an error is not looked at. *)
Definition socket_adapt {W} (lookup : string -> M W (option UserProfile)) (id : string)
    : M W (option ProfileSnapshot) :=
  hbind (lookup id) (fun p => hret (socketProfileFromUserInfo <$> p)).
Definition socketUserInfoLookupAdapter {L : LRU} {St} {KV : KVOps St} {UP : URLParse} {J : JSON UserProfile}
    (ui : Aggregator) : ProfileLookup (CacheProvider St) :=
  mkLookup (socket_adapt (lookupByMetaId ui)) (socket_adapt (lookupByGlobalMetaId ui))
    (socket_adapt (lookupByAddress ui)).

Section Adapter.
Context {L : LRU} {St : Type} {KV : KVOps St} {KVS : KVStore St} {UP : URLParse} {J : JSON UserProfile} {MO : MapOrder}.
#[local] Abbreviation W := (CacheProvider St).
Variables (ui : Aggregator) (base : string).
Hypothesis no_remote : remoteLookup ui = None.

(** [p] is a stored profile that goes by [id]: it is kept under it, or has it as its
    global id or its address, whatever the case of the letters. *)
Definition goes_by (w : W) (id : string) (p : UserProfile) : Prop :=
  stored_profile id w = Some p \/ stored w p /\ (has_global id p = true \/ has_address id p = true).

Lemma complete_local local queries aliasKey (w : W) : completeProfile ui local queries aliasKey w = (Ok local, w).
Proof. unfold completeProfile, shouldFetchRemote. by rewrite no_remote. Qed.
(** Each of the three lookups leaves the state alone. *)
Lemma lookup_steps id (w : W) :
  kv_ok w userinfo_ns = true -> TrimSpace id = id ->
  (exists r, socket_adapt (lookupByMetaId ui) id w = (r, w)
     /\ match r with Ok (Some p) => exists q, stored_profile id w = Some q /\ p = socketProfileFromUserInfo q
        | _ => stored_profile id w = None end)
  /\ (exists r, socket_adapt (lookupByGlobalMetaId ui) id w = (Ok r, w)
     /\ match r with Some p => exists q, stored w q /\ has_global id q = true /\ p = socketProfileFromUserInfo q
        | None => forall q, stored w q -> has_global id q = false end)
  /\ (exists r, socket_adapt (lookupByAddress ui) id w = (Ok r, w)
     /\ match r with Some p => exists q, stored w q /\ has_address id q = true /\ p = socketProfileFromUserInfo q
        | None => forall q, stored w q -> has_address id q = false end).
Proof.
  intros Hok Ht. unfold socket_adapt, lookupByMetaId, lookupByGlobalMetaId, lookupByAddress, hbind, hres, stored_profile,
    findProfileByGlobalMetaId, findProfileByAddress. rewrite Ht. split; [|split].
  - destruct (getProfile id w) as [o|e]; [|by eexists]. rewrite complete_local. eexists. split; [reflexivity|].
    destruct o as [q|]; [by exists q|done].
  - destruct (findProfile_exact (globalMetaIdKey id) (has_global id) w Hok) as (o & -> & Ho).
    rewrite complete_local. eexists. split; [reflexivity|]. destruct o as [q|]; [|done]. exists q. tauto.
  - destruct (findProfile_exact (addressKey id) (has_address id) w Hok) as (o & -> & Ho).
    rewrite complete_local. eexists. split; [reflexivity|]. destruct o as [q|]; [|done]. exists q. tauto.
Qed.

Lemma presence_profile_exact id (w : W) :
  kv_ok w userinfo_ns = true ->
  exists r, lookupPresenceProfile (Some (socketUserInfoLookupAdapter ui)) id w = (r, w)
  /\ match r with
     | Some p => exists q, goes_by w (TrimSpace id) q /\ p = socketProfileFromUserInfo q
     | None => TrimSpace id <> "" -> forall q, ~ goes_by w (TrimSpace id) q
     end.
Proof.
  intros Hok. unfold lookupPresenceProfile. set (i := TrimSpace id).
  destruct (is_empty i) eqn:Ei; [exists None; split; [done|]; by apply is_empty_spec in Ei|].
  assert (Ht : TrimSpace i = i) by apply TrimSpace_idem.
  destruct (lookup_steps i w Hok Ht) as ((r1 & E1 & H1) & (r2 & E2 & H2) & (r3 & E3 & H3)).
  unfold presence_lookups, goes_by.
  destruct (HasPrefix (ToLower i) "idq"); cbn [try_lookups LookupByMetaId LookupByGlobalMetaId LookupByAddress
    socketUserInfoLookupAdapter].
  all: rewrite !bool_decide_eq_false_2 by set_solver.
  all: repeat match goal with
    | E : socket_adapt _ _ _ = (?r, _) |- _ => rewrite E; clear E
    | |- context [match ?r with Ok _ => _ | Err _ => _ end] => is_var r; destruct r as [[?|]|?]
    | |- context [match ?r with Some _ => _ | None => _ end] => is_var r; destruct r as [?|]
    end; eexists; (split; [reflexivity|]); cbn beta iota.
  all: try (naive_solver).
  all: intros _ q [Hq|[Hs [Hq|Hq]]]; simplify_eq; try congruence;
    try (by rewrite H2 in Hq); by rewrite H3 in Hq.
Qed.

(** C38: The rows of the online list, with the profiles of a local user info aggregator on
    a healthy store: serving them changes nothing; they are the entries of the list, in its order; an
    application whose id a stored profile goes by shows such a profile, with its avatar
    resolved, and no other row shows a profile. *)
Theorem online_rows_exact q reader now m (w : W) items :
  kv_ok w userinfo_ns = true ->
  HandleOnlineList (Atoi (DefaultQuery q "page" "1")) (Atoi (DefaultQuery q "size" "20")) (Query q "scope")
    reader now m = Ok items ->
  exists rows, serve_online_list (Some (socketUserInfoLookupAdapter ui)) base q reader now m w = Ok (rows, w)
  /\ map fst rows = items
  /\ (forall e p, (e, Some p) ∈ rows ->
        oe_Type e = "app" /\ exists u, goes_by w (TrimSpace (oe_MetaId e)) u
                                       /\ p = with_AvatarUrl base (socketProfileFromUserInfo u))
  /\ (forall e, (e, None) ∈ rows -> oe_Type e = "app" -> TrimSpace (oe_MetaId e) <> "" ->
        forall u, ~ goes_by w (TrimSpace (oe_MetaId e)) u).
Proof.
  intros Hok Hitems. unfold serve_online_list. rewrite Hitems. cbn beta iota.
  rewrite hydrate_readonly by (intros id; by destruct (presence_profile_exact id w Hok) as (r & -> & _)).
  eexists. split; [reflexivity|]. split; [|split].
  - rewrite map_map. apply map_id.
  - intros e p Hin. apply list_elem_of_In, in_map_iff in Hin as (item & E & _). apply pair_equal_spec in E as [-> E].
    destruct (String.eqb_spec (oe_Type e) "app") as [Ht|]; [|done]. split; [done|].
    destruct (presence_profile_exact (oe_MetaId e) w Hok) as (r & Er & Hr). rewrite Er in E.
    destruct r as [p'|]; [|done]. injection E as <-. destruct Hr as (u & Hu & ->). by exists u.
  - intros e Hin Ht Hne. apply list_elem_of_In, in_map_iff in Hin as (item & E & _). apply pair_equal_spec in E as [-> E].
    rewrite Ht in E. cbn [String.eqb Ascii.eqb Bool.eqb] in E.
    destruct (presence_profile_exact (oe_MetaId e) w Hok) as (r & Er & Hr). rewrite Er in E.
    destruct r as [p'|]; [done|]. by apply Hr.
Qed.
End Adapter.

(** Every avatar of a foreign site is looked for under the asset base; the scheme of a
    reference is recognised in any case but cut off in lower case only. *)
Lemma avatar_rewrites {UP : URLParse} :
  url_HostPath "https://example.org/pics/me.png" = Some ("example.org", "/pics/me.png") ->
  resolveProfileAvatarURL "https://base" "https://example.org/pics/me.png" "" = "https://base/me.png"
  /\ resolveProfileAvatarURL "https://base" "MetaFile://abci0" "" = "https://base/MetaFile://abci0".
Proof. intros H. unfold resolveProfileAvatarURL, avatarIDFromReference. split; [|by vm_compute].
  change (TrimSpace "https://example.org/pics/me.png") with "https://example.org/pics/me.png".
  change (TrimSpace "https://example.org/pics/me.png") with "https://example.org/pics/me.png".
  change (isHTTPURL "https://example.org/pics/me.png") with true. cbv zeta. rewrite H. by vm_compute.
Qed.

#[local] Existing Instance profile_JSON.
#[local] Existing Instance list_LRU.
#[local] Existing Instance sample_ops_inst.
#[local] Existing Instance sample_store_inst.
#[local] Existing Instance no_urls.
#[local] Existing Instance some_order.

(** Ann is online with an application and a browser, an unknown user with an application. *)
Definition ann_online : ConnectionManager :=
  match handle_events [EvConnect (Some "idq-u1") (Some "app") 1 5000000 5000000;
                       EvConnect (Some "idq-u1") None 2 6000000 6000000;
                       EvConnect (Some "u2") (Some "app") 3 7000000 7000000] (NewConnectionManager 3 3) with
  | Ok m => m
  | Err _ => NewConnectionManager 3 3
  end.
Definition ann_known : CacheProvider sample_store :=
  let w := (HandleBlockPin (B58 := toy_Base58) (info_pin "u1" "/info/name" "Ann" "t1i0") start).2 in
  (HandleBlockPin (B58 := toy_Base58) (info_pin "u1" "/info/avatar" "" "t2i0") w).2.
Definition ann_rows : res (list (OnlineEntry * option ProfileSnapshot)) :=
  served <-? serve_online_list (Some (socketUserInfoLookupAdapter local_only)) "https://base" ∅ None 0
               ann_online ann_known ;;
  Ok (fst served).
Lemma online_rows_exact_witness :
  match ann_rows with
  | Ok rows => (forall e p, (e, Some p) ∈ rows -> oe_Type e = "app")
      /\ map (fun r => (oe_MetaId r.1, oe_Type r.1, (fun p => (Name p, AvatarUrl p)) <$> r.2)) rows
         = [("u2", "app", None); ("idq-u1", "app", Some ("Ann", "https://base/t2i0")); ("idq-u1", "pc", None)]
  | Err _ => False
  end.
Proof.
  unfold ann_rows.
  destruct (online_rows_exact local_only "https://base" eq_refl ∅ None 0 ann_online ann_known
    (match OnlineList_local 1 20 ann_online with Ok l => l | Err _ => [] end))
    as (rows & E & _ & H & _); [by vm_compute|by vm_compute|].
  rewrite E. split; [intros e p Hin; by apply (H e p Hin)|].
  apply (f_equal (fun r => match r with Ok x => x.1 | Err _ => [] end)) in E. cbn [fst] in E. subst rows.
  vm_compute. reflexivity.
Defined.
