(* ===== verification/SocketServer.v ===== *)
(** * SocketServer: the Socket.IO server around its manager ([internal/socket/server.go])

    The sockets that are connected to the default namespace, with the handlers that
    [onConnection] registers on them, the cleanup of silent ones, and the messages that a
    notification puts on the wire.  Socket.IO itself is third-party: of a socket the model
    has its id, its handshake and the rooms that the library put it in; the server joins no
    socket to a room. *)

From S2P Require Import Prelude GoText Json Storage Aggregator Aliases Config FedStore Federation Socket SocketFacts SocketProfile.
#[local] Set Warnings "-clear-no-such-hyp".

(** A connected socket and the connection that its handlers hold on to; of the latter
    they use the address and the user only, which never change. *)
Record Client := mkClient { ck_Id : Z; ck_metaid : string; ck_tc : TrackedConnection; ck_rooms : list string }.
(** The lookups run on a state [W].  [sv_stopped] tells whether [stopCh] is closed. *)
Record Server (W : Type) := mkServer {
  sv_cfg : SocketConfig; sv_manager : ConnectionManager; sv_clients : list Client;
  sv_profileLookup : option (ProfileLookup W); sv_profileAssetBaseURL : string;
  sv_snapshotProvider : option SnapshotBuilder; sv_globalReader : option Store; sv_stopped : bool }.
Arguments mkServer {W}. Arguments sv_cfg {W}. Arguments sv_manager {W}. Arguments sv_clients {W}.
Arguments sv_profileLookup {W}. Arguments sv_profileAssetBaseURL {W}. Arguments sv_snapshotProvider {W}.
Arguments sv_globalReader {W}. Arguments sv_stopped {W}.

Section Server.
Context {W : Type}.
#[local] Abbreviation Srv := (Server W).

Definition NewServer (cfg : SocketConfig) : Srv :=
  mkServer cfg (NewConnectionManager (so_MaxPCPerUser cfg) (so_MaxAppPerUser cfg)) [] None "" None None false.
Definition SetSnapshotProvider (provider : option SnapshotBuilder) (sv : Srv) : Srv :=
  mkServer (sv_cfg sv) (sv_manager sv) (sv_clients sv) (sv_profileLookup sv) (sv_profileAssetBaseURL sv) provider
    (sv_globalReader sv) (sv_stopped sv).
Definition SetGlobalReader (reader : option Store) (sv : Srv) : Srv :=
  mkServer (sv_cfg sv) (sv_manager sv) (sv_clients sv) (sv_profileLookup sv) (sv_profileAssetBaseURL sv)
    (sv_snapshotProvider sv) reader (sv_stopped sv).
Definition SetProfileLookup (lookup : option (ProfileLookup W)) (sv : Srv) : Srv :=
  mkServer (sv_cfg sv) (sv_manager sv) (sv_clients sv) lookup (sv_profileAssetBaseURL sv) (sv_snapshotProvider sv)
    (sv_globalReader sv) (sv_stopped sv).
Definition SetProfileAssetBaseURL (baseURL : string) (sv : Srv) : Srv :=
  mkServer (sv_cfg sv) (sv_manager sv) (sv_clients sv) (sv_profileLookup sv) (asset_base baseURL)
    (sv_snapshotProvider sv) (sv_globalReader sv) (sv_stopped sv).
Definition with_sockets (m : ConnectionManager) (clients : list Client) (sv : Srv) : Srv :=
  mkServer (sv_cfg sv) m clients (sv_profileLookup sv) (sv_profileAssetBaseURL sv) (sv_snapshotProvider sv)
    (sv_globalReader sv) (sv_stopped sv).

(** ** Connections *)

Definition others (id : Z) (clients : list Client) : list Client := List.filter (fun k => negb (ck_Id k =? id)) clients.
(** [tc.Socket.Disconnect(true)] without the manager's lock: the socket is gone and its
    "disconnect" handler has run. *)
Definition drop_conn (tc : TrackedConnection) (sv : Srv) : res Srv :=
  m <-? Disconnect false tc (sv_manager sv) ;; Ok (with_sockets m (others (tc_Socket tc) (sv_clients sv)) sv).
(** A socket without a [metaid] is turned away. *)
Definition onConnection (id : Z) (metaid type : option string) (rooms : list string) (connectedAt lastPing : Z) (sv : Srv)
    : res Srv :=
  let metaId := default "" metaid in
  if is_empty metaId then Ok sv else
  match Add metaId (conn_type_of type) id connectedAt lastPing (sv_manager sv) with
  | (Err e, _) => Err e
  | (Ok (tc, evicted), m) =>
      let sv := with_sockets m (sv_clients sv) sv in
      sv <-? match evicted with None => Ok sv | Some old => drop_conn old sv end ;;
      Ok (with_sockets (sv_manager sv) (sv_clients sv ++ [mkClient id metaId tc rooms]) sv)
  end.
Definition client (id : Z) (sv : Srv) : option Client := List.find (fun k => ck_Id k =? id) (sv_clients sv).
Definition on_ping (id now : Z) (sv : Srv) : Srv :=
  match client id sv with
  | Some k => with_sockets (UpdatePing (ck_tc k) now (sv_manager sv)) (sv_clients sv) sv
  | None => sv
  end.
Definition on_disconnect (id : Z) (sv : Srv) : Srv :=
  match client id sv with
  | Some k => with_sockets (Remove (ck_metaid k) (ck_tc k) (sv_manager sv)) (others id (sv_clients sv)) sv
  | None => sv
  end.
Fixpoint drop_all (l : list TrackedConnection) (sv : Srv) : res Srv :=
  match l with
  | [] => Ok sv
  | tc :: l => sv <-? drop_conn tc sv ;; drop_all l sv
  end.
(** A tick of [StartTimeoutCleanup]. *)
Definition cleanup_tick {MO : MapOrder} (now : Z) (sv : Srv) : res Srv :=
  drop_all (FindStaleConnections heartbeatTimeout now (sv_manager sv)) sv.

Inductive server_event :=
  | Connect (id : Z) (metaid type : option string) (rooms : list string) (connectedAt lastPing : Z)
  | Ping (id now : Z)
  | Gone (id : Z)
  | Cleanup (now : Z).
Definition serve_event {MO : MapOrder} (e : server_event) (sv : Srv) : res Srv :=
  match e with
  | Connect id metaid type rooms connectedAt lastPing => onConnection id metaid type rooms connectedAt lastPing sv
  | Ping id now => Ok (on_ping id now sv)
  | Gone id => Ok (on_disconnect id sv)
  | Cleanup now => cleanup_tick now sv
  end.
Fixpoint serve_events {MO : MapOrder} (l : list server_event) (sv : Srv) : res Srv :=
  match l with
  | [] => Ok sv
  | e :: l => sv <-? serve_event e sv ;; serve_events l sv
  end.

(** ** Messages on the wire: the socket that gets each *)

Abbreviation delivery := (Z * PushEnvelope)%type.
Definition emit (chosen : Client -> bool) (msg : PushEnvelope) (sv : Srv) : list delivery :=
  map (fun k => (ck_Id k, msg)) (List.filter chosen (sv_clients sv)).
Definition SendToUser (metaId : string) (msg : PushEnvelope) : Srv -> list delivery :=
  emit (fun k => String.eqb (ck_metaid k) metaId) msg.
Definition SendToUsers (metaIds : list string) (msg : PushEnvelope) (sv : Srv) : list delivery :=
  concat (map (fun metaId => SendToUser metaId msg sv) metaIds).
Definition BroadcastToRoom (room : string) (msg : PushEnvelope) (sv : Srv) : list delivery :=
  if so_RoomBroadcastEnabled (sv_cfg sv) then emit (fun k => bool_decide (room ∈ ck_rooms k)) msg sv else [].
Definition perform (p : push) (sv : Srv) : list delivery :=
  match p with
  | Socket.SendToUser metaId msg => SendToUser metaId msg sv
  | Socket.BroadcastToRoom room msg => BroadcastToRoom room msg sv
  end.
(** [routeNotifyEvent], down to the sockets. *)
Definition push_event (evt : option NotifyEvent) (sv : Srv) : list delivery :=
  concat (map (fun p => perform p sv) (routeNotifyEvent (so_RoomBroadcastEnabled (sv_cfg sv)) evt)).
(** [consumeNotifyEvents] over what a channel holds. *)
Definition consume (events : list NotifyEvent) (sv : Srv) : list delivery :=
  concat (map (fun evt => push_event (Some evt) sv) events).
Definition Shutdown {MO : MapOrder} (sv : Srv) : res Srv :=
  m <-? DisconnectAll (sv_manager sv) ;;
  Ok (mkServer (sv_cfg sv) m [] (sv_profileLookup sv) (sv_profileAssetBaseURL sv) (sv_snapshotProvider sv)
        (sv_globalReader sv) true).
End Server.

(** ** Sockets and tracked connections *)

(** The addresses and sockets of the connections of a user, in the manager and as the
    sockets' handlers hold them. *)
Definition tracked (id : string) (m : ConnectionManager) : list (nat * Z) :=
  map (fun c => (tc_ptr c, tc_Socket c)) (conns_of id m).
Definition held (k : Client) : nat * Z := (tc_ptr (ck_tc k), ck_Id k).

Section Facts.
Context {W : Type} {MO : MapOrder}.
#[local] Abbreviation Srv := (Server W).

Record server_ok (sv : Srv) : Prop := {
  so_manager : manager_ok (sv_manager sv);
  so_limits : limits_ok (sv_manager sv);
  so_ids : NoDup (map ck_Id (sv_clients sv));
  so_key k : k ∈ sv_clients sv -> tc_MetaId (ck_tc k) = ck_metaid k;
  so_tracked id x : x ∈ tracked id (sv_manager sv) <-> exists k, k ∈ sv_clients sv /\ ck_metaid k = id /\ held k = x }.

Lemma elem_others k id l : k ∈ others id l <-> k ∈ l /\ ck_Id k <> id.
Proof. unfold others. rewrite !list_elem_of_In, filter_In. by rewrite negb_true_iff, Z.eqb_neq. Qed.
Lemma others_NoDup id l : NoDup (map ck_Id l) -> NoDup (map ck_Id (others id l)).
Proof.
  unfold others. induction l as [|k l IH]; [done|]. cbn [map List.filter]. intros [Hk Hnd]%NoDup_cons.
  destruct (negb _); [|by apply IH]. cbn [map]. apply NoDup_cons. split; [|by apply IH].
  intros Hin. apply Hk. apply list_elem_of_In, in_map_iff in Hin as (k' & E & Hin).
  apply filter_In in Hin as [Hin _]. apply list_elem_of_In, in_map_iff. by exists k'.
Qed.
Lemma client_inj (l : list Client) k k' : NoDup (map ck_Id l) -> k ∈ l -> k' ∈ l -> ck_Id k = ck_Id k' -> k = k'.
Proof.
  induction l as [|x l IH]; intros Hnd Hk Hk' E; [by apply not_elem_of_nil in Hk|]. cbn [map] in Hnd.
  apply NoDup_cons in Hnd as [Hx Hnd].
  apply elem_of_cons in Hk as [->|Hk]; apply elem_of_cons in Hk' as [->|Hk']; [done| | |by apply IH];
    destruct Hx; [rewrite E|rewrite <- E]; by apply list_elem_of_In, in_map, list_elem_of_In.
Qed.
Lemma elem_tracked id m x : x ∈ tracked id m <-> exists c, c ∈ conns_of id m /\ (tc_ptr c, tc_Socket c) = x.
Proof.
  unfold tracked. rewrite list_elem_of_In, in_map_iff. split; intros (c & H1 & H2); exists c;
    [rewrite list_elem_of_In|rewrite <- list_elem_of_In]; by split.
Qed.
(** The pair of a socket determines it. *)
Lemma held_inj sv k k' :
  server_ok sv -> k ∈ sv_clients sv -> k' ∈ sv_clients sv -> ck_metaid k = ck_metaid k' ->
  tc_ptr (ck_tc k) = tc_ptr (ck_tc k') -> k = k'.
Proof.
  intros [Hm _ Hnd _ Ht] Hk Hk' Eid Ep. apply (client_inj _ _ _ Hnd Hk Hk').
  assert (H1 : held k ∈ tracked (ck_metaid k) (sv_manager sv)) by (apply Ht; by exists k).
  assert (H2 : held k' ∈ tracked (ck_metaid k) (sv_manager sv)) by (apply Ht; by exists k').
  apply elem_tracked in H1 as (c & Hc & [= E1 E2]). apply elem_tracked in H2 as (c' & Hc' & [= E3 E4]).
  assert (c = c') as -> by (apply (conns_ptr_inj (sv_manager sv) (ck_metaid k)); [done..|congruence]). congruence.
Qed.
Lemma elem_remove_ptr c p l : NoDup (map tc_ptr l) -> c ∈ remove_ptr p l <-> c ∈ l /\ tc_ptr c <> p.
Proof.
  intros Hnd. split; [|intros [? ?]; by apply remove_ptr_keeps]. intros Hc. split; [by apply (remove_ptr_elem p)|].
  by apply (remove_ptr_gone c p l).
Qed.
(** Dropping one socket of a user, with its connection. *)
Lemma removed_ok sv k m :
  server_ok sv -> k ∈ sv_clients sv -> manager_ok m -> limits_ok m ->
  (forall id, id <> ck_metaid k -> conns_of id m = conns_of id (sv_manager sv)) ->
  conns_of (ck_metaid k) m = remove_ptr (tc_ptr (ck_tc k)) (conns_of (ck_metaid k) (sv_manager sv)) ->
  server_ok (with_sockets m (others (ck_Id k) (sv_clients sv)) sv).
Proof.
  intros Hok Hk Hm Hl Ho Hk'. pose proof Hok as [Hm0 _ Hnd Hkey Ht]. split; cbn [with_sockets sv_manager sv_clients].
  - done.
  - done.
  - by apply others_NoDup.
  - intros k' [Hin _]%elem_others. by apply Hkey.
  - intros id x. destruct (decide (id = ck_metaid k)) as [->|Hne].
    + rewrite elem_tracked, Hk'. split.
      * intros (c & Hc' & <-). apply elem_remove_ptr in Hc' as [Hc Hp]; [|by apply manager_ok_NoDup].
        destruct (proj1 (Ht (ck_metaid k) (tc_ptr c, tc_Socket c))) as (k' & Hin & Eid & [= Ep Es]);
          [apply elem_tracked; by exists c|].
        exists k'. split_and!; [|done|unfold held; congruence]. apply elem_others. split; [done|].
        intros E. apply Hp. assert (k' = k) as -> by by apply (client_inj (sv_clients sv)). congruence.
      * intros (k' & [Hin Hne']%elem_others & Eid & <-).
        assert (Hc : held k' ∈ tracked (ck_metaid k) (sv_manager sv)) by (apply Ht; by exists k').
        apply elem_tracked in Hc as (c & Hc & [= Ep Es]). exists c. split; [|unfold held; congruence].
        apply elem_remove_ptr; [by apply manager_ok_NoDup|]. split; [done|]. intros E. apply Hne'.
        assert (k' = k) as -> by (apply (held_inj sv); [done..|congruence]). done.
    + unfold tracked. rewrite Ho by done. fold (tracked id (sv_manager sv)). rewrite Ht.
      split; intros (k' & Hin & Eid & Eh); exists k'; (split; [|done]).
      * apply elem_others. split; [done|]. intros E.
        assert (k' = k) as -> by by apply (client_inj (sv_clients sv)). done.
      * by apply elem_others in Hin as [? _].
Qed.
(** A connection that a user has belongs to one of the sockets. *)
Lemma tracked_client sv c :
  server_ok sv -> c ∈ conns_of (tc_MetaId c) (sv_manager sv) ->
  exists k, k ∈ sv_clients sv /\ ck_metaid k = tc_MetaId c /\ tc_ptr (ck_tc k) = tc_ptr c /\ ck_Id k = tc_Socket c.
Proof.
  intros [_ _ _ _ Ht] Hc. destruct (proj1 (Ht (tc_MetaId c) (tc_ptr c, tc_Socket c))) as (k & Hk & Eid & [= Ep Es]);
    [apply elem_tracked; by exists c|]. by exists k.
Qed.
Lemma added_ok sv c rooms m :
  server_ok sv -> manager_ok m -> limits_ok m ->
  (forall id, id <> tc_MetaId c -> conns_of id m = conns_of id (sv_manager sv)) ->
  conns_of (tc_MetaId c) m = conns_of (tc_MetaId c) (sv_manager sv) ++ [c] ->
  (forall k, k ∈ sv_clients sv -> ck_Id k <> tc_Socket c) ->
  server_ok (with_sockets m (sv_clients sv ++ [mkClient (tc_Socket c) (tc_MetaId c) c rooms]) sv).
Proof.
  intros [Hm0 _ Hnd Hkey Ht] Hm Hl Ho Hc Hfresh. split; cbn [with_sockets sv_manager sv_clients]; [done|done| | |].
  - rewrite map_app. apply NoDup_app. split_and!; [done| |apply NoDup_singleton].
    intros i (k & <- & Hk)%list_elem_of_In%in_map_iff Hi. apply list_elem_of_singleton in Hi.
    apply (Hfresh k); [by apply list_elem_of_In|exact Hi].
  - intros k [Hk| ->%list_elem_of_singleton]%elem_of_app; [by apply Hkey|done].
  - intros id x. assert (E : tracked id m = tracked id (sv_manager sv)
      ++ (if String.eqb id (tc_MetaId c) then [(tc_ptr c, tc_Socket c)] else [])).
    { unfold tracked. destruct (String.eqb_spec id (tc_MetaId c)) as [->|Hne].
      - by rewrite Hc, map_app.
      - by rewrite Ho, app_nil_r. }
    rewrite E, elem_of_app, Ht. setoid_rewrite elem_of_app. split.
    + intros [(k & Hk & Hx)|Hx]; [exists k; auto|]. destruct (String.eqb_spec id (tc_MetaId c)) as [->|];
        [|by apply not_elem_of_nil in Hx].
      apply list_elem_of_singleton in Hx as ->. eexists. split; [right; left|done].
    + intros (k & [Hk| ->%list_elem_of_singleton] & Eid & Eh); [left; by exists k|]. cbn in Eid, Eh. subst id x.
      right. rewrite String.eqb_refl. left.
Qed.

(** A stale connection while the cleanup goes through its list: still there, or gone
    with its socket. *)
Definition pending (sv : Srv) (c : TrackedConnection) : Prop :=
  c ∈ conns_of (tc_MetaId c) (sv_manager sv)
  \/ (forall x, x ∈ conns_of (tc_MetaId c) (sv_manager sv) -> tc_ptr x <> tc_ptr c)
     /\ forall k, k ∈ sv_clients sv -> ck_Id k <> tc_Socket c.
Lemma removeLocked_limits id tc m : limits_ok m -> limits_ok (removeLocked id tc m).
Proof. unfold limits_ok. destruct (removeLocked_rest id tc m) as (-> & -> & _). done. Qed.
Lemma drop_conn_ok c sv :
  server_ok sv -> pending sv c ->
  exists sv', drop_conn c sv = Ok sv' /\ server_ok sv' /\ sv_cfg sv' = sv_cfg sv /\ (forall c', pending sv c' -> pending sv' c')
  /\ (forall id x, x ∈ conns_of id (sv_manager sv') -> x ∈ conns_of id (sv_manager sv))
  /\ forall k, k ∈ sv_clients sv' -> k ∈ sv_clients sv.
Proof.
  intros Hok Hc. unfold drop_conn. cbn [Disconnect locked]. eexists. split; [reflexivity|].
  set (m := sv_manager sv) in *. set (m' := Remove (tc_MetaId c) c m).
  assert (Hconns : forall id, conns_of id m' = if String.eqb id (tc_MetaId c) then remove_ptr (tc_ptr c) (conns_of (tc_MetaId c) m)
                                               else conns_of id m) by (intros id; apply conns_removeLocked).
  pose proof Hok as [Hm Hl Hnd Hkey Ht]. fold m in Hm, Hl, Ht.
  assert (Hsub : forall id x, x ∈ conns_of id m' -> x ∈ conns_of id m).
  { intros id x. rewrite Hconns. destruct (String.eqb_spec id (tc_MetaId c)) as [->|]; [apply remove_ptr_elem|done]. }
  split; [|split; [done|split; [|split; [exact Hsub|by intros k [? _]%elem_others]]]].
  - destruct Hc as [Hc|[Hp Hk]].
    + destruct (tracked_client sv c Hok Hc) as (k & Hk & Eid & Ep & Es). rewrite <- Es.
      apply removed_ok; [done..|by apply removeLocked_ok|by apply removeLocked_limits| |].
      * intros id Hne. rewrite Hconns. destruct (String.eqb_spec id (tc_MetaId c)); [congruence|done].
      * rewrite Hconns, Eid, String.eqb_refl, Ep. done.
    + assert (Hsame : forall id, conns_of id m' = conns_of id m).
      { intros id. rewrite Hconns. destruct (String.eqb_spec id (tc_MetaId c)) as [->|]; [|done].
        by apply remove_ptr_absent. }
      split; cbn [with_sockets sv_manager sv_clients];
        [by apply removeLocked_ok|by apply removeLocked_limits|by apply others_NoDup|by intros k [? _]%elem_others; apply Hkey|].
      intros id x. unfold tracked. rewrite Hsame. fold (tracked id m). rewrite Ht.
      split; intros (k & Hin & Hx); exists k; (split; [|done]); [|by apply elem_others in Hin as [? _]].
      apply elem_others. split; [done|]. by apply Hk.
  - intros c' [Hc'|[Hp Hk]]; unfold pending; cbn [with_sockets sv_manager sv_clients].
    + destruct (decide (tc_MetaId c' = tc_MetaId c /\ tc_ptr c' = tc_ptr c)) as [[Eid Ep]|Hne].
      * right. rewrite Hconns, Eid, String.eqb_refl. split.
        -- intros x Hx. rewrite Ep. apply elem_remove_ptr in Hx as [_ ?]; [done|by apply manager_ok_NoDup].
        -- intros k [Hk Hne]%elem_others. destruct Hc as [Hc|[Hp _]].
           ++ assert (c' = c) as -> by (apply (conns_ptr_inj m (tc_MetaId c)); [done|by rewrite <- Eid|done..]). done.
           ++ rewrite Eid in Hc'. by apply Hp in Hc'.
      * left. rewrite Hconns. destruct (String.eqb_spec (tc_MetaId c') (tc_MetaId c)) as [E|]; [|done].
        rewrite <- E. apply elem_remove_ptr; [by apply manager_ok_NoDup|]. split; [done|]. intros Ep. by apply Hne.
    + right. split; [intros x Hx; by apply Hp, Hsub|]. intros k [Hin _]%elem_others. by apply Hk.
Qed.
Lemma drop_all_ok l sv :
  server_ok sv -> (forall c, c ∈ l -> pending sv c) ->
  exists sv', drop_all l sv = Ok sv' /\ server_ok sv' /\ sv_cfg sv' = sv_cfg sv
  /\ forall k, k ∈ sv_clients sv' -> k ∈ sv_clients sv.
Proof.
  revert sv. induction l as [|c l IH]; intros sv Hok Hl; cbn [drop_all]; [by exists sv|].
  destruct (drop_conn_ok c sv Hok) as (sv1 & -> & Hok1 & Ec1 & Hp & _ & Hk1); [apply Hl; left|].
  destruct (IH sv1 Hok1) as (sv' & E & Hok' & Ec & Hk); [intros c' Hc'; apply Hp, Hl; by right|].
  exists sv'. split_and!; [done|done|congruence|]. intros k Hin. by apply Hk1, Hk.
Qed.
Lemma onConnection_ok id metaid type rooms c l sv :
  server_ok sv -> (forall k, k ∈ sv_clients sv -> ck_Id k <> id) ->
  exists sv', onConnection id metaid type rooms c l sv = Ok sv' /\ server_ok sv' /\ sv_cfg sv' = sv_cfg sv
  /\ forall k, k ∈ sv_clients sv' -> k ∈ sv_clients sv \/ ck_Id k = id /\ ck_rooms k = rooms.
Proof.
  intros Hok Hfresh. unfold onConnection. cbv zeta. set (metaId := default "" metaid).
  destruct (is_empty metaId); [exists sv; auto|]. pose proof Hok as [Hm Hl _ _ _].
  destruct (Add_spec metaId (conn_type_of type) id c l (sv_manager sv) Hm (limits_ok_of _ _ Hl))
    as (ev & m' & -> & Hm' & El1 & El2 & Ho & Hev).
  set (tc := new_conn metaId (conn_type_of type) id c l (sv_manager sv)) in *.
  assert (Hl' : limits_ok m') by (unfold limits_ok in *; by rewrite El1, El2).
  destruct ev as [old|].
  - destruct Hev as (_ & Hold & _ & _ & Hc). destruct (manager_ok_conns _ _ _ Hm Hold) as [Eold _].
    destruct (tracked_client sv old Hok) as (k & Hk & Eid & Ep & Es); [by rewrite Eold|].
    pose proof (removed_ok sv k (removeLocked metaId old (sv_manager sv)) Hok Hk (removeLocked_ok _ _ _ Hm)
      (removeLocked_limits _ _ _ Hl)) as H1.
    assert (H1' : server_ok (with_sockets (removeLocked metaId old (sv_manager sv)) (others (ck_Id k) (sv_clients sv)) sv)).
    { apply H1; intros; rewrite conns_removeLocked.
      - destruct (String.eqb_spec id0 metaId); [congruence|done].
      - by rewrite Eid, Eold, String.eqb_refl, Ep. }
    clear H1. unfold drop_conn. cbn [Disconnect locked with_sockets sv_manager sv_clients sv_cfg].
    eexists. split; [reflexivity|]. split; [|split; [done|]].
    + rewrite <- Es. unfold Remove.
      assert (Hgone : removeLocked (tc_MetaId old) old m' = removeLocked metaId old m') by by rewrite Eold.
      assert (Hsame : forall id', conns_of id' (removeLocked (tc_MetaId old) old m') = conns_of id' m').
      { intros id'. rewrite Hgone, conns_removeLocked. destruct (String.eqb_spec id' metaId) as [->|]; [|done].
        apply remove_ptr_absent. rewrite Hc. intros x [Hx| ->%list_elem_of_singleton]%elem_of_app.
        - apply elem_remove_ptr in Hx as [_ ?]; [done|by apply manager_ok_NoDup].
        - destruct (manager_ok_conns _ _ _ Hm Hold) as [_ Hlt]. cbn. lia. }
      apply (added_ok _ tc rooms (removeLocked (tc_MetaId old) old m')) in H1'; [exact H1'| | | | |].
      * by apply removeLocked_ok.
      * by apply removeLocked_limits.
      * intros id' Hne. rewrite Hsame. cbn [with_sockets sv_manager]. rewrite conns_removeLocked.
        change (tc_MetaId tc) with metaId in Hne. destruct (String.eqb_spec id' metaId); [done|]. by apply Ho.
      * rewrite Hsame. change (tc_MetaId tc) with metaId. cbn [with_sockets sv_manager].
        by rewrite Hc, conns_removeLocked, String.eqb_refl.
      * cbn [with_sockets sv_clients]. intros k' [Hk' _]%elem_others. by apply Hfresh.
    + cbn [with_sockets sv_clients]. intros k' [[Hk' _]%elem_others| ->%list_elem_of_singleton]%elem_of_app; auto.
  - destruct Hev as [_ Hc]. eexists. split; [reflexivity|]. cbn [with_sockets sv_manager sv_clients sv_cfg].
    split; [by apply (added_ok sv tc rooms m')|split; [done|]].
    intros k' [Hk'| ->%list_elem_of_singleton]%elem_of_app; auto.
Qed.
Lemma find_client id (sv : Srv) k : client id sv = Some k -> k ∈ sv_clients sv /\ ck_Id k = id.
Proof. intros [H E%Z.eqb_eq]%List.find_some. by apply list_elem_of_In in H. Qed.
Lemma on_ping_ok id now (sv : Srv) : server_ok sv -> server_ok (on_ping id now sv).
Proof.
  intros [Hm Hl Hnd Hkey Ht]. unfold on_ping. destruct (client id sv) as [k|]; [|done].
  split; cbn [with_sockets sv_manager sv_clients]; [by apply UpdatePing_ok|done|done|done|].
  intros id' x. rewrite <- Ht. unfold tracked.
  destruct (UpdatePing_conns (ck_tc k) now (sv_manager sv) id') as (f & Hf & ->). rewrite map_map.
  erewrite map_ext; [done|]. intros c. cbn. destruct (Hf c) as (-> & _ & _ & ->). done.
Qed.
Lemma on_disconnect_ok id (sv : Srv) : server_ok sv -> server_ok (on_disconnect id sv).
Proof.
  intros Hok. unfold on_disconnect. destruct (client id sv) as [k|] eqn:E; [|done].
  apply find_client in E as [Hk <-]. pose proof Hok as [Hm Hl _ Hkey _].
  apply removed_ok; [done..|by apply removeLocked_ok|by apply removeLocked_limits| |]; intros; unfold Remove;
    rewrite conns_removeLocked; [|by rewrite String.eqb_refl].
  destruct (String.eqb_spec id (ck_metaid k)); [congruence|done].
Qed.

(** ** Every history of sockets *)

Definition connect_ids (l : list server_event) : list Z :=
  omap (fun e => match e with Connect id _ _ _ _ _ => Some id | _ => None end) l.
Definition event_rooms (e : server_event) : list string := match e with Connect _ _ _ rooms _ _ => rooms | _ => [] end.
Lemma serve_event_ok e (sv : Srv) :
  server_ok sv -> (forall id, id ∈ connect_ids [e] -> forall k, k ∈ sv_clients sv -> ck_Id k <> id) ->
  exists sv', serve_event e sv = Ok sv' /\ server_ok sv' /\ sv_cfg sv' = sv_cfg sv
  /\ forall k, k ∈ sv_clients sv' -> k ∈ sv_clients sv \/ ck_Id k ∈ connect_ids [e] /\ ck_rooms k = event_rooms e.
Proof.
  intros Hok Hfresh. destruct e as [id metaid type rooms c l|id now|id|now]; cbn [serve_event].
  - destruct (onConnection_ok id metaid type rooms c l sv Hok) as (sv' & E & Hok' & Ec & Hk); [by apply Hfresh, list_elem_of_singleton|].
    exists sv'. split_and!; [done..|]. intros k [?|[-> ?]]%Hk; [auto|]. right. split; [by apply list_elem_of_singleton|done].
  - eexists. split; [done|]. split; [by apply on_ping_ok|]. unfold on_ping.
    destruct (client id sv); cbn [with_sockets sv_cfg sv_clients]; auto.
  - eexists. split; [done|]. split; [by apply on_disconnect_ok|]. unfold on_disconnect.
    destruct (client id sv); cbn [with_sockets sv_cfg sv_clients]; [|auto].
    split; [done|]. intros k [? _]%elem_others. auto.
  - unfold cleanup_tick. destruct (drop_all_ok (FindStaleConnections heartbeatTimeout now (sv_manager sv)) sv Hok)
      as (sv' & -> & Hok' & Ec & Hk); [|exists sv'; split_and!; [done..|]; intros k Hin; left; by apply Hk].
    intros c Hc. unfold FindStaleConnections in Hc. apply list_elem_of_In, filter_In in Hc as [Hc _].
    apply list_elem_of_In, elem_of_all_conns in Hc as [id Hc].
    left. destruct (manager_ok_conns _ _ _ (so_manager _ Hok) Hc) as [-> _]. done.
Qed.
(** The library's own rooms: none is a group's. *)
Definition plain_rooms (rooms : list string) : Prop := forall r, r ∈ rooms -> HasPrefix r "group:" = false.
Lemma serve_events_ok l (sv : Srv) :
  server_ok sv -> NoDup (connect_ids l) -> (forall k, k ∈ sv_clients sv -> ck_Id k ∉ connect_ids l) ->
  (forall k, k ∈ sv_clients sv -> plain_rooms (ck_rooms k)) -> Forall (fun e => plain_rooms (event_rooms e)) l ->
  exists sv', serve_events l sv = Ok sv' /\ server_ok sv' /\ sv_cfg sv' = sv_cfg sv
  /\ forall k, k ∈ sv_clients sv' -> plain_rooms (ck_rooms k).
Proof.
  revert sv. induction l as [|e l IH]; intros sv Hok Hnd Hfresh Hrooms Hl; cbn [serve_events]; [by exists sv|].
  change (e :: l) with ([e] ++ l) in Hnd, Hfresh. unfold connect_ids in Hnd, Hfresh. rewrite omap_app in Hnd, Hfresh.
  fold (connect_ids [e]) (connect_ids l) in Hnd, Hfresh. apply NoDup_app in Hnd as (_ & Hdis & Hnd).
  inversion Hl as [|? ? He Hl']; subst.
  destruct (serve_event_ok e sv Hok) as (sv1 & -> & Hok1 & Ec & Hk).
  { intros id Hid k Hin <-. apply (Hfresh k Hin), elem_of_app. by left. }
  destruct (IH sv1) as (sv' & E & Hok' & Ec' & Hr); [done|done| | |done|exists sv'; split_and!; [done|done|congruence|done]].
  - intros k [Hin|[Hin _]]%Hk; [|by apply Hdis]. intros Hi. apply (Hfresh k Hin), elem_of_app. by right.
  - intros k [Hin|[_ ->]]%Hk; [by apply Hrooms|done].
Qed.
Lemma NewServer_ok cfg : 1 <= so_MaxPCPerUser cfg -> 1 <= so_MaxAppPerUser cfg -> server_ok (NewServer (W := W) cfg).
Proof.
  intros H1 H2. split; cbn [NewServer sv_manager sv_clients]; [by apply new_manager_ok|done|constructor| |].
  - intros k Hk. by apply not_elem_of_nil in Hk.
  - intros id x. unfold tracked, conns_of. cbn. rewrite lookup_empty. split; [intros Hx; by apply not_elem_of_nil in Hx|].
    intros (k & Hk & _). by apply not_elem_of_nil in Hk.
Qed.

(** ** Who gets a notification *)

Definition known_type (evt : NotifyEvent) : Prop :=
  ev_Type evt ∈ ["WS_SERVER_NOTIFY_GROUP_CHAT"; "WS_SERVER_NOTIFY_PRIVATE_CHAT"; "WS_SERVER_NOTIFY_GROUP_ROLE"].
Lemma elem_SendToUser id msg (sv : Srv) x :
  x ∈ SendToUser id msg sv <-> x.2 = msg /\ exists k, k ∈ sv_clients sv /\ ck_metaid k = id /\ ck_Id k = x.1.
Proof.
  unfold SendToUser, emit. rewrite list_elem_of_In, in_map_iff. setoid_rewrite filter_In. setoid_rewrite String.eqb_eq.
  split.
  - intros (k & <- & Hk & E). split; [done|]. exists k. rewrite list_elem_of_In. auto.
  - intros (E & k & Hk & Eid & Es). exists k. rewrite list_elem_of_In in Hk. destruct x. cbn in *. subst. auto.
Qed.
Lemma SendToUsers_NoDup ids msg (sv : Srv) : server_ok sv -> NoDup ids -> NoDup (map fst (SendToUsers ids msg sv)).
Proof.
  intros Hok. induction 1 as [|id ids Hid Hnd IH]; [constructor|]. unfold SendToUsers in *. cbn [map concat].
  rewrite map_app. apply NoDup_app. split_and!; [| |done].
  - unfold SendToUser, emit. rewrite map_map. cbn [fst]. pose proof (so_ids _ Hok) as Hnd'.
    induction (sv_clients sv) as [|k l IHl]; [constructor|]. cbn [map List.filter] in *. apply NoDup_cons in Hnd' as [Hk Hnd'].
    destruct (String.eqb (ck_metaid k) id); [|by apply IHl]. cbn [map]. apply NoDup_cons. split; [|by apply IHl].
    intros Hin. apply Hk. apply list_elem_of_In, in_map_iff in Hin as (k' & E & [Hin _]%filter_In).
    apply list_elem_of_In, in_map_iff. by exists k'.
  - intros i (x & <- & Hx)%list_elem_of_In%in_map_iff Hi. apply list_elem_of_In in Hx.
    apply elem_SendToUser in Hx as (_ & k & Hk & Eid & Es).
    apply list_elem_of_In, in_map_iff in Hi as (y & Ey & Hy). apply in_concat in Hy as (ys & Hys & Hy).
    apply in_map_iff in Hys as (id' & <- & Hid'). apply list_elem_of_In, elem_SendToUser in Hy as (_ & k' & Hk' & Eid' & Es').
    assert (k = k') as <- by (apply (client_inj _ _ _ (so_ids _ Hok)); [done..|congruence]).
    apply Hid. rewrite <- Eid, Eid'. by apply list_elem_of_In.
Qed.
Lemma push_event_users evt (sv : Srv) :
  known_type evt -> (forall k, k ∈ sv_clients sv -> plain_rooms (ck_rooms k)) ->
  push_event (Some evt) sv = SendToUsers (notifyEventTargetIds evt) (mkEnvelope (ev_Type evt) 0 (ev_Payload evt)) sv.
Proof.
  intros Ht Hr. unfold push_event, routeNotifyEvent, SendToUsers. set (msg := mkEnvelope _ _ _).
  assert (Hroom : concat (map (fun p => perform p sv)
      (if negb (is_empty (ev_GroupId evt)) && so_RoomBroadcastEnabled (sv_cfg sv)
       then [Socket.BroadcastToRoom ("group:" +:+ ev_GroupId evt) msg] else [])) = []).
  { destruct (negb _ && _); [|done]. cbn [map concat perform]. rewrite app_nil_r. unfold BroadcastToRoom.
    destruct (so_RoomBroadcastEnabled _); [|done]. unfold emit.
    assert (Hn : forall l, (forall k, k ∈ l -> plain_rooms (ck_rooms k)) ->
      List.filter (fun k => bool_decide ("group:" +:+ ev_GroupId evt ∈ ck_rooms k)) l = []).
    { induction l as [|k l IH]; intros H; [done|]. cbn [List.filter]. rewrite bool_decide_eq_false_2.
      - apply IH. intros k' Hk'. apply H. by right.
      - intros Hin. specialize (H k ltac:(left) _ Hin). by rewrite HasPrefix_app in H. }
    by rewrite Hn. }
  assert (Hu : concat (map (fun p => perform p sv) (map (fun id => Socket.SendToUser id msg) (notifyEventTargetIds evt)))
    = concat (map (fun metaId => SendToUser metaId msg sv) (notifyEventTargetIds evt))) by by rewrite map_map.
  unfold known_type in Ht. rewrite !elem_of_cons in Ht.
  destruct Ht as [->|[->|[->|Ht]]]; [| | |by apply not_elem_of_nil in Ht]; cbn [String.eqb Ascii.eqb Bool.eqb];
    rewrite ?map_app, ?concat_app, ?Hroom, ?app_nil_r; exact Hu.
Qed.

(** C22: Whatever sockets connect (each id once), ping, leave or fall silent, in any order,
    a server with positive limits handles all of it, and then a chat or role notification
    goes out once, to exactly the sockets of the connections that the manager counts for
    the users it is meant for: the devices shown online are the devices reached. *)
Theorem notification_reaches_devices cfg events evt :
  1 <= so_MaxPCPerUser cfg -> 1 <= so_MaxAppPerUser cfg ->
  NoDup (connect_ids events) -> Forall (fun e => plain_rooms (event_rooms e)) events -> known_type evt ->
  exists sv, serve_events events (NewServer (W := W) cfg) = Ok sv
  /\ let out := push_event (Some evt) sv in
     NoDup (map fst out)
     /\ forall i msg, (i, msg) ∈ out
        <-> msg = mkEnvelope (ev_Type evt) 0 (ev_Payload evt)
            /\ exists id c, id ∈ notifyEventTargetIds evt /\ c ∈ conns_of id (sv_manager sv) /\ tc_Socket c = i.
Proof.
  intros H1 H2 Hnd Hrooms Ht.
  destruct (serve_events_ok events (NewServer cfg) (NewServer_ok cfg H1 H2) Hnd) as (sv & E & Hok & _ & Hr); [| |done|].
  1, 2: intros k Hk; by apply not_elem_of_nil in Hk.
  exists sv. split; [exact E|]. cbv zeta. rewrite push_event_users by done. split.
  - apply SendToUsers_NoDup; [done|]. apply (NoDup_fmap_1 ToLower). apply target_ids_NoDup.
  - intros i msg. unfold SendToUsers. rewrite list_elem_of_In, in_concat. split.
    + intros (ys & (id & <- & Hid)%in_map_iff & Hin). apply list_elem_of_In, elem_SendToUser in Hin as [Em (k & Hk & Eid & Es)].
      split; [exact Em|]. cbn [fst] in Es. apply list_elem_of_In in Hid.
      destruct (proj1 (elem_tracked id (sv_manager sv) (held k))) as (c & Hc & [= _ Ec]); [by apply (so_tracked _ Hok); exists k|].
      exists id, c. split_and!; [done..|congruence].
    + intros (-> & id & c & Hid & Hc & Es). eexists. split; [apply in_map_iff; exists id; split; [reflexivity|by apply list_elem_of_In]|].
      apply list_elem_of_In, elem_SendToUser. split; [done|].
      destruct (proj1 (so_tracked _ Hok id (tc_ptr c, tc_Socket c))) as (k & Hk & Eid & [= _ Ek]); [apply elem_tracked; by exists c|].
      exists k. split_and!; [done..|]. cbn [fst]. congruence.
Qed.
End Facts.

(** ** Two users, one of them on two devices *)

#[local] Existing Instance some_order.
Definition sample_socket_cfg : SocketConfig := cfg_Socket Default.
Definition sample_events : list server_event :=
  [Connect 1 (Some "ann") None ["1"] 100 100; Connect 2 (Some "ann") (Some "app") ["2"] 200 200;
   Connect 3 None None ["3"] 250 250; Connect 4 (Some "bob") None ["4"] 300 300; Ping 1 400; Gone 4;
   Connect 5 (Some "bob") (Some "pc") ["5"] 500 500].
Definition sample_group_event : NotifyEvent :=
  mkEvent "WS_SERVER_NOTIFY_GROUP_CHAT" "" "" ["ann"; "cy"; "ANN"] "G" (AStr "hi").
Definition sample_server : Server unit :=
  match serve_events sample_events (NewServer sample_socket_cfg) with Ok sv => sv | Err _ => NewServer sample_socket_cfg end.
Example sample_push : map fst (push_event (Some sample_group_event) sample_server) = [1; 2].
Proof. vm_compute. reflexivity. Qed.
Lemma notification_reaches_devices_witness :
  exists sv, serve_events sample_events (NewServer (W := unit) sample_socket_cfg) = Ok sv
  /\ NoDup (map fst (push_event (Some sample_group_event) sv)).
Proof.
  destruct (notification_reaches_devices (W := unit) sample_socket_cfg sample_events sample_group_event)
    as (sv & E & Hnd & _).
  - vm_compute. done.
  - vm_compute. done.
  - apply (bool_decide_unpack _). vm_compute. exact I.
  - repeat constructor; intros r Hr; apply list_elem_of_In in Hr; cbn in Hr; by repeat destruct Hr as [<-|Hr].
  - left.
  - by exists sv.
Defined.
