(* ===== verification/Wire.v ===== *)
(** * Wire: Bitcoin transactions as the chain packages read them

    The fields of [wire.MsgTx] and [wire.MsgBlock] the code reads, the btcd
    routines it calls as the class [Btcd] (script classification, the script
    tokenizer, hashes, serialisation), Go's slice expressions and
    [encoding/binary]'s little-endian integers, and the Bitcoin base encoding
    against which the hand-written parsers are proved. *)

From S2P Require Import Prelude GoText.

Definition zlen {A} (l : list A) : Z := Z.of_nat (length l).
Lemma zlen_nonneg {A} (l : list A) : 0 <= zlen l.
Proof. unfold zlen. lia. Qed.
Lemma zlen_app {A} (l k : list A) : zlen (l ++ k) = zlen l + zlen k.
Proof. unfold zlen. rewrite length_app. lia. Qed.
Lemma zlen_cons {A} (x : A) l : zlen (x :: l) = 1 + zlen l.
Proof. unfold zlen. simpl. lia. Qed.
Lemma zlen_nil {A} : zlen (@nil A) = 0.
Proof. done. Qed.

(** Sizes of concatenations: normalise and conclude by [lia]. *)
Ltac zlen_lia :=
  rewrite ?zlen_app, ?zlen_cons, ?zlen_nil in *;
  repeat match goal with
  | |- context [zlen ?l] => lazymatch goal with
      | _ : 0 <= zlen l |- _ => fail | _ => pose proof (zlen_nonneg l) end
  | _ : context [zlen ?l] |- _ => lazymatch goal with
      | _ : 0 <= zlen l |- _ => fail | _ => pose proof (zlen_nonneg l) end
  end; lia.

(** ** Slices

    [l[a:b]] with the run-time check.  The code tests [b] against [len(l)]
    before every slice expression, so that the capacity plays no part; the
    cases in which its test is wrong have a negative bound. *)
Definition slice {A} (l : list A) (a b : Z) : res (list A) :=
  if (0 <=? a) && (a <=? b) && (b <=? zlen l) then Ok (take (Z.to_nat (b - a)) (drop (Z.to_nat a) l))
  else Err "panic: slice bounds out of range".
Definition is_panic (e : error) : bool := HasPrefix e "panic:".

Lemma slice_mid {A} (pre x post : list A) a b :
  a = zlen pre -> b = zlen pre + zlen x -> slice (pre ++ x ++ post) a b = Ok x.
Proof.
  intros -> ->. unfold slice. rewrite !zlen_app.
  rewrite !(proj2 (Z.leb_le _ _)) by zlen_lia. simpl. f_equal.
  replace (Z.to_nat (zlen pre)) with (length pre) by (unfold zlen; lia).
  rewrite drop_app_length. replace (Z.to_nat _) with (length x) by (unfold zlen; lia).
  apply take_app_length.
Qed.
Lemma slice_to_end {A} (pre x : list A) a b :
  a = zlen pre -> b = zlen (pre ++ x) -> slice (pre ++ x) a b = Ok x.
Proof.
  intros Ha Hb. rewrite <- (app_nil_r x) at 1. apply slice_mid; [done|]. by rewrite Hb, zlen_app.
Qed.
Lemma slice_ok {A} (l : list A) a b :
  0 <= a -> a <= b -> b <= zlen l ->
  exists x, slice l a b = Ok x /\ zlen x = b - a /\ forall P, Forall P l -> Forall P x.
Proof.
  intros. unfold slice. rewrite !(proj2 (Z.leb_le _ _)) by done. simpl. eexists. split; [done|].
  unfold zlen in *. rewrite length_take, length_drop. split; [lia|].
  intros P HP. by apply Forall_take, Forall_drop.
Qed.
Lemma slice_inv {A} (l x : list A) a b :
  slice l a b = Ok x -> 0 <= a /\ a <= b /\ b <= zlen l.
Proof. unfold slice. repeat case_match; intros; simplify_eq; lia. Qed.
Lemma slice_err {A} (l : list A) a b e :
  slice l a b = Err e -> a < 0 \/ b < a \/ zlen l < b.
Proof. unfold slice. repeat case_match; intros; simplify_eq; lia. Qed.

(** ** Little-endian integers *)

Fixpoint le_bytes (n : nat) (v : Z) : list Z :=
  match n with O => [] | S n => v mod 256 :: le_bytes n (v / 256) end.
Fixpoint le_val (l : list Z) : Z :=
  match l with [] => 0 | b :: l => b + 256 * le_val l end.

Lemma le_bytes_length n v : length (le_bytes n v) = n.
Proof. revert v. induction n as [|n IH]; intros v; [done|]. simpl. by rewrite IH. Qed.
Lemma zlen_le_bytes n v : zlen (le_bytes n v) = Z.of_nat n.
Proof. unfold zlen. by rewrite le_bytes_length. Qed.
Lemma le_bytes_ok n v : bytes_ok (le_bytes n v).
Proof.
  revert v. induction n as [|n IH]; intros v; constructor; [|apply IH].
  apply Z.mod_pos_bound. lia.
Qed.
Lemma le_val_bytes n v : 0 <= v < 256 ^ Z.of_nat n -> le_val (le_bytes n v) = v.
Proof.
  revert v. induction n as [|n IH]; intros v Hv; [simpl in *; lia|].
  rewrite Nat2Z.inj_succ, Z.pow_succ_r in Hv by lia. cbn [le_bytes le_val].
  rewrite IH by (split; [apply Z.div_pos|apply Z.div_lt_upper_bound]; lia).
  pose proof (Z.div_mod v 256 ltac:(lia)). lia.
Qed.
Lemma le_bytes_inj n v w :
  0 <= v < 256 ^ Z.of_nat n -> 0 <= w < 256 ^ Z.of_nat n -> le_bytes n v = le_bytes n w -> v = w.
Proof. intros Hv Hw H. by rewrite <- (le_val_bytes n v), <- (le_val_bytes n w), H. Qed.
Lemma le_bytes_mod n v : le_bytes n v = le_bytes n (v mod 256 ^ Z.of_nat n).
Proof.
  revert v. induction n as [|n IH]; intros v; [done|]. cbn [le_bytes].
  rewrite Nat2Z.inj_succ, Z.pow_succ_r by lia.
  assert (Hp : 0 < 256 ^ Z.of_nat n) by (apply Z.pow_pos_nonneg; lia).
  f_equal.
  - rewrite Z.rem_mul_r, (Z.mul_comm 256), Z.mod_add, Z.mod_mod by lia. done.
  - rewrite IH. f_equal. rewrite Z.rem_mul_r by lia.
    rewrite (Z.add_comm (v mod 256)), (Z.mul_comm 256), Z.div_add_l by lia.
    rewrite (Z.div_small (v mod 256)) by (apply Z.mod_pos_bound; lia). by rewrite Z.add_0_r.
Qed.
(** Two's complement: the bytes determine a signed value of the width. *)
Lemma le_bytes_signed n v w :
  - 256 ^ Z.of_nat n <= 2 * v < 256 ^ Z.of_nat n -> - 256 ^ Z.of_nat n <= 2 * w < 256 ^ Z.of_nat n ->
  le_bytes n v = le_bytes n w -> v = w.
Proof.
  intros Hv Hw H. assert (Hp : 0 < 256 ^ Z.of_nat n) by (apply Z.pow_pos_nonneg; lia).
  rewrite (le_bytes_mod n v), (le_bytes_mod n w) in H.
  apply le_bytes_inj in H; [|by apply Z.mod_pos_bound..].
  pose proof (Z.div_mod v (256 ^ Z.of_nat n) ltac:(lia)) as Ev.
  pose proof (Z.div_mod w (256 ^ Z.of_nat n) ltac:(lia)) as Ew. rewrite H in Ev.
  set (B := 256 ^ Z.of_nat n) in *. set (q := v / B) in *. set (k := w / B) in *.
  destruct (Z.lt_trichotomy q k) as [?|[->|?]]; [|congruence|].
  - assert (B * (q + 1) <= B * k) by (apply Z.mul_le_mono_nonneg_l; lia). lia.
  - assert (B * (k + 1) <= B * q) by (apply Z.mul_le_mono_nonneg_l; lia). lia.
Qed.
Lemma le_val_range l : bytes_ok l -> 0 <= le_val l < 256 ^ zlen l.
Proof.
  induction 1 as [|b l Hb _ IH]; [done|]. rewrite zlen_cons, Z.pow_add_r by zlen_lia.
  unfold byte_ok in Hb. cbn [le_val]. lia.
Qed.

(** ** Counted sequences

    [for i := 0; i < count; i++], where one round reads an item at [index] and
    moves [index] on.  Every round of the parsers consumes input, so [fuel]
    rounds, one more than there are bytes, are enough. *)
Fixpoint count_loop {A} (fuel : nat) (step : Z -> res (A * Z)) (count index : Z)
    : res (list A * Z) :=
  if 0 <? count then
    match fuel with
    | O => Err "out of fuel"
    | S fuel =>
        p <-? step index ;;
        q <-? count_loop fuel step (count - 1) p.2 ;;
        Ok (p.1 :: q.1, q.2)
    end
  else Ok ([], index).

(** The class of items a reader understands: [encode], and a reader of a
    buffer at an offset that is its inverse whatever follows. *)
Class Reads {A B : Type} (read : list Z -> Z -> res (B * Z)) (encode : A -> list Z)
    (view : A -> B) (valid : A -> Prop) : Prop := {
  reads_encode pre a rest :
    valid a -> zlen (pre ++ encode a ++ rest) < 2 ^ 62 ->
    read (pre ++ encode a ++ rest) (zlen pre) = Ok (view a, zlen (pre ++ encode a));
  reads_progress a : valid a -> 1 <= zlen (encode a) }.

(** Readers that move forward within the buffer and do not run out of fuel. *)
Definition fuelled {A} (r : res A) : Prop := r <> Err "out of fuel".
Definition advances {A} (read : list Z -> Z -> res (A * Z)) (raw : list Z) : Prop :=
  forall i, 0 <= i <= zlen raw ->
  fuelled (read raw i) /\ forall a j, read raw i = Ok (a, j) -> i < j <= zlen raw.

Lemma fuelled_bind {A B} (r : res A) (k : A -> res B) :
  fuelled r -> (forall a, r = Ok a -> fuelled (k a)) -> fuelled (x <-? r ;; k x).
Proof. intros Hr Hk. destruct r as [a|e]; [by apply Hk|]. intros E. apply Hr. congruence. Qed.
Lemma fuelled_ok {A} (a : A) : fuelled (Ok a).
Proof. done. Qed.
Lemma fuelled_slice {A} (l : list A) a b : fuelled (slice l a b).
Proof. unfold slice. by case_match. Qed.
Lemma fuelled_if {A} (b : bool) (r s : res A) : fuelled r -> fuelled s -> fuelled (if b then r else s).
Proof. by destruct b. Qed.

(** Every error of a computation satisfies [P]. *)
Definition errors {A} (P : error -> Prop) (r : res A) : Prop := forall e, r = Err e -> P e.
Lemma errors_ok {A} P (a : A) : errors P (Ok a).
Proof. done. Qed.
Lemma errors_err {A} (P : error -> Prop) e : P e -> errors P (@Err A e).
Proof. intros H e' E. by injection E as <-. Qed.
Lemma errors_bind {A B} P (r : res A) (k : A -> res B) :
  errors P r -> (forall a, r = Ok a -> errors P (k a)) -> errors P (x <-? r ;; k x).
Proof. intros Hr Hk. destruct r as [a|e]; [by apply Hk|]. intros e' E. apply Hr. congruence. Qed.
Lemma errors_if {A} P (b : bool) (r s : res A) :
  (b = true -> errors P r) -> (b = false -> errors P s) -> errors P (if b then r else s).
Proof. destruct b; auto. Qed.
Lemma errors_slice {A} P (l : list A) a b : 0 <= a -> a <= b -> b <= zlen l -> errors P (slice l a b).
Proof. intros. destruct (slice_ok l a b) as (x & -> & _); done. Qed.

Section Loop.
Context {A B : Type} (read : list Z -> Z -> res (B * Z)) (encode : A -> list Z) (view : A -> B)
  (valid : A -> Prop) {R : Reads read encode view valid}.

Lemma count_loop_encode pre l rest :
  Forall valid l -> zlen (pre ++ concat (map encode l) ++ rest) < 2 ^ 62 ->
  forall fuel, (length l <= fuel)%nat ->
  count_loop fuel (read (pre ++ concat (map encode l) ++ rest)) (zlen l) (zlen pre)
  = Ok (map view l, zlen (pre ++ concat (map encode l))).
Proof.
  intros Hl. revert pre. induction Hl as [|a l Ha Hl IH]; intros pre Hsz fuel Hf.
  { destruct fuel; simpl; by rewrite app_nil_r. }
  destruct fuel as [|fuel]; [simpl in Hf; lia|]. cbn [count_loop].
  rewrite (proj2 (Z.ltb_lt _ _)) by zlen_lia. cbn [map concat] in *.
  rewrite <- !app_assoc in *. rewrite (reads_encode (Reads := R)) by done. cbn [fst snd].
  rewrite zlen_cons. replace (1 + zlen l - 1) with (zlen l) by lia.
  specialize (IH (pre ++ encode a)). rewrite <- !app_assoc in IH.
  rewrite IH; [done|done|simpl in Hf; lia].
Qed.
Lemma encode_length l : Forall valid l -> zlen l <= zlen (concat (map encode l)).
Proof using R.
  induction 1 as [|a l Ha Hl IH]; [done|]. cbn [map concat].
  pose proof (reads_progress (Reads := R) a Ha). zlen_lia.
Qed.
End Loop.

(** A loop whose reader advances never runs out of fuel and ends in the buffer. *)
Lemma count_loop_advances {A} (read : list Z -> Z -> res (A * Z)) raw fuel count i :
  advances read raw -> 0 <= i <= zlen raw -> zlen raw - i < Z.of_nat fuel ->
  fuelled (count_loop fuel (read raw) count i)
  /\ forall l j, count_loop fuel (read raw) count i = Ok (l, j) -> i <= j <= zlen raw.
Proof.
  intros Hadv. revert count i. induction fuel as [|fuel IH]; intros count i Hi Hf; [lia|].
  cbn [count_loop]. destruct (0 <? count); [|split; [done|intros; simplify_eq; lia]].
  destruct (Hadv i Hi) as [Hr Hj]. destruct (read raw i) as [[a j]|e] eqn:E; [|split; [|done]].
  2: { intros H. apply Hr. congruence. }
  specialize (Hj a j eq_refl). cbn [fst snd].
  destruct (IH (count - 1) j ltac:(lia) ltac:(lia)) as [H1 H2].
  destruct (count_loop fuel (read raw) (count - 1) j) as [[l k]|e]; cbn [fst snd].
  - split; [done|]. intros ?? [= <- <-]. specialize (H2 l k eq_refl). lia.
  - split; [|done]. intros H. apply H1. congruence.
Qed.

(** ** Transactions and blocks *)

Record OutPoint := mkOutPoint { op_Hash : list Z; op_Index : Z }.
Record TxIn := mkTxIn {
  in_PreviousOutPoint : OutPoint;
  in_SignatureScript : list Z;
  in_Witness : list string;
  in_Sequence : Z }.
Record TxOut := mkTxOut { out_Value : Z; out_PkScript : list Z }.
Record MsgTx := mkTx {
  tx_Version : Z; tx_TxIn : list TxIn; tx_TxOut : list TxOut; tx_LockTime : Z }.
Record MsgBlock := mkBlock {
  blk_Timestamp : Z; blk_MerkleRoot : list Z; blk_Transactions : list MsgTx }.

(** ** The base encoding *)

Definition varint (v : Z) : list Z :=
  if v <? 0xfd then [v]
  else if v <? 2 ^ 16 then 0xfd :: le_bytes 2 v
  else if v <? 2 ^ 32 then 0xfe :: le_bytes 4 v
  else 0xff :: le_bytes 8 v.
Definition var_bytes (s : list Z) : list Z := varint (zlen s) ++ s.
Definition enc_in (i : TxIn) : list Z :=
  op_Hash (in_PreviousOutPoint i) ++ le_bytes 4 (op_Index (in_PreviousOutPoint i))
  ++ var_bytes (in_SignatureScript i) ++ le_bytes 4 (in_Sequence i).
Definition enc_out (o : TxOut) : list Z := le_bytes 8 (out_Value o) ++ var_bytes (out_PkScript o).
Definition base_encoding (tx : MsgTx) : list Z :=
  le_bytes 4 (tx_Version tx)
  ++ varint (zlen (tx_TxIn tx)) ++ concat (map enc_in (tx_TxIn tx))
  ++ varint (zlen (tx_TxOut tx)) ++ concat (map enc_out (tx_TxOut tx))
  ++ le_bytes 4 (tx_LockTime tx).

(** The values of the Go types: an [int32] version, 32-byte hashes, [uint32]
    indices, [int64] amounts, byte slices; all of it fits in memory. *)
Definition wf_in (i : TxIn) : Prop :=
  length (op_Hash (in_PreviousOutPoint i)) = 32%nat /\ bytes_ok (op_Hash (in_PreviousOutPoint i))
  /\ bytes_ok (in_SignatureScript i)
  /\ 0 <= op_Index (in_PreviousOutPoint i) < 2 ^ 32 /\ 0 <= in_Sequence i < 2 ^ 32.
Definition wf_out (o : TxOut) : Prop :=
  - 2 ^ 63 <= out_Value o < 2 ^ 63 /\ bytes_ok (out_PkScript o).
Definition wf_tx (tx : MsgTx) : Prop :=
  - 2 ^ 31 <= tx_Version tx < 2 ^ 31 /\ 0 <= tx_LockTime tx < 2 ^ 32
  /\ Forall wf_in (tx_TxIn tx) /\ Forall wf_out (tx_TxOut tx)
  /\ zlen (base_encoding tx) < 2 ^ 62.

Lemma varint_size v : 1 <= zlen (varint v) <= 9.
Proof. unfold varint. repeat case_match; rewrite ?zlen_cons, ?zlen_nil, ?zlen_le_bytes; lia. Qed.

(** ** The libraries *)

(** btcd's [txscript], [wire] and [chainhash] and [crypto/sha256], for the
    network the indexer was built with.  [ExtractPkScriptAddrs] gives the name
    of the script class and the addresses; [MakeScriptTokenizer] the opcodes it
    steps through with the data each pushes ([nil] is [None]), and whether it
    stopped at an error.  A transaction "has a witness" when one of its inputs
    has a witness stack; without one [Serialize] writes the base encoding, and
    [BtcDecode] reads it back (up to the 32 MB of a message), leaving what follows
    unread; no transaction takes fewer than ten bytes.  With a witness the
    version is followed by the marker and flag of BIP 144; the witness decoder
    reads a transaction with inputs and no witness as well. *)
Class Btcd := {
  ExtractPkScriptAddrs : list Z -> string * list string;
  MakeScriptTokenizer : list Z -> list (Z * option string) * bool;
  Hash_String : list Z -> string;
  TxHash : MsgTx -> string;
  BlockHash : MsgBlock -> string;
  HasWitness : MsgTx -> bool;
  Serialize : MsgTx -> res (list Z);
  BtcDecode_base : list Z -> res (MsgTx * list Z);
  BtcDecode_witness : list Z -> res (MsgTx * list Z);
  Sum256 : list Z -> list Z;
  HasWitness_spec tx : HasWitness tx = true <-> Exists (fun i => in_Witness i <> []) (tx_TxIn tx);
  Serialize_base tx : wf_tx tx -> HasWitness tx = false -> Serialize tx = Ok (base_encoding tx);
  Serialize_witness tx :
    wf_tx tx -> HasWitness tx = true ->
    exists rest, Serialize tx = Ok (le_bytes 4 (tx_Version tx) ++ 0 :: 1 :: rest)
      /\ 10 <= zlen rest;
  Decode_base tx rest :
    wf_tx tx -> HasWitness tx = false -> zlen (base_encoding tx) <= 2 ^ 25 -> zlen rest < 2 ^ 61 ->
    BtcDecode_base (base_encoding tx ++ rest) = Ok (tx, rest);
  Decode_witness tx rest :
    wf_tx tx -> HasWitness tx = false -> tx_TxIn tx <> [] -> zlen (base_encoding tx) <= 2 ^ 25 ->
    zlen rest < 2 ^ 61 -> BtcDecode_witness (base_encoding tx ++ rest) = Ok (tx, rest);
  Decode_suffix data tx rest :
    BtcDecode_base data = Ok (tx, rest) \/ BtcDecode_witness data = Ok (tx, rest) ->
    exists used, data = used ++ rest /\ 10 <= zlen used;
  Sum256_length l : length (Sum256 l) = 32%nat;
  Sum256_bytes l : bytes_ok (Sum256 l) }.

(** The opcode [txscript.OP_RETURN]. *)
Definition OP_RETURN : Z := 0x6a.
