(* ===== verification/Chain.v ===== *)
(** * Chain: what the four indexers of [internal/chain] have in common

    The packages bitcoin, mvc, dogecoin and opcat each carry their own copy of
    the routines below; the copies of a routine have the same text up to the
    name of the chain, which is a parameter here.  [ChainBitcoin], [ChainMvc],
    [ChainDoge] and [ChainOpcat] assemble each package's indexer from them. *)

From S2P Require Import Prelude GoText Aggregator Wire.
From coqutil.Datatypes Require Import RecordSetters.
Import TriangleBracketNotations.

Definition blank_pin : PinInscription :=
  mkPin "" 0 "" "" "" "" "" "" "" "" "" "" "" "" "" "" 0 0 "" false "" "".

(** The state of an indexer: the block it read last, for [CatchTransfer]. *)
Record Indexer := mkIndexer { ix_block : option MsgBlock }.
Definition NewIndexer : Indexer := mkIndexer None.

(** The entries of the map [CatchTransfer] returns. *)
Record TransferInfo := mkTransfer {
  ti_location : string; ti_address : string; ti_fromAddress : string }.

(** [chain.Indexer]: what a package offers to the engine.  [CatchPins] is given
    the block source of its chain. *)
Record IndexerOps := mkIndexerOps {
  io_Name : string;
  io_Init : option error;
  io_CatchPins : (Z -> res MsgBlock) -> Z -> Indexer -> res (list PinInscription * list string) * Indexer;
  io_CatchMempoolPins : Z -> list (option MsgTx) -> res (list PinInscription * list string);
  io_CatchTransfer : gmap string string -> Indexer -> option (gmap string TransferInfo);
  io_GetAddress : list Z -> string;
  io_ZmqTopics : list string }.

Section Chain.
Context {BT : Btcd}.

(** ** Outputs and addresses *)

Definition class_of (script : list Z) : string := (ExtractPkScriptAddrs script).1.
Definition addrs_of (script : list Z) : list string := (ExtractPkScriptAddrs script).2.
(** [class.String() == "nonstandard" || class.String() == "nulldata"] *)
Definition is_data (script : list Z) : bool :=
  String.eqb (class_of script) "nonstandard" || String.eqb (class_of script) "nulldata".

Definition GetAddress (pkScript : list Z) : string :=
  match addrs_of pkScript with a :: _ => a | [] => "" end.

(** The outpoints [txid:vout] a transaction spends. *)
Definition outpoint (o : OutPoint) : string :=
  Hash_String (op_Hash o) +:+ ":" +:+ fmt_d (op_Index o).
Definition spent (tx : MsgTx) : list string :=
  map (fun i => outpoint (in_PreviousOutPoint i)) (tx_TxIn tx).

(** [address, outIdx, locationIdx] of the first output that is not data. *)
Fixpoint owner_loop (i : Z) (outs : list TxOut) : string * Z * Z :=
  match outs with
  | [] => ("", 0, 0)
  | out :: outs =>
      let class := class_of (out_PkScript out) in
      let addresses := addrs_of (out_PkScript out) in
      if negb (String.eqb class "nulldata") && negb (String.eqb class "nonstandard") then
        match addresses with
        | a :: _ => (a, i, 0)
        | [] => owner_loop (i + 1) outs
        end
      else owner_loop (i + 1) outs
  end.
Definition getPinOwner (tx : MsgTx) : string * Z * Z := owner_loop 0 (tx_TxOut tx).

Fixpoint first_address (outs : list TxOut) : string :=
  match outs with
  | [] => ""
  | out :: outs =>
      match addrs_of (out_PkScript out) with a :: _ => a | [] => first_address outs end
  end.
Definition extractCreatorAddress (tx : MsgTx) : string := first_address (tx_TxOut tx).

Fixpoint owner_address_loop (txid : string) (i : Z) (outs : list TxOut) : option (string * string) :=
  match outs with
  | [] => None
  | out :: outs =>
      match addrs_of (out_PkScript out) with
      | a :: _ => Some (txid +:+ ":" +:+ fmt_d i, a)
      | [] => owner_address_loop txid (i + 1) outs
      end
  end.
Definition getOwnerAddress (tx : MsgTx) : option (string * string) :=
  owner_address_loop (TxHash tx) 0 (tx_TxOut tx).

(** ** OP_RETURN pins *)

Definition data_string (d : option string) : string := default "" d.

(** The fields that follow the marker; [err] is the tokenizer's error. *)
Definition parseOpReturnFields (infoList : list (option string)) (err : bool)
    : option PinInscription :=
  if err then None else
  match infoList with
  | [] => None
  | op :: _ =>
      let operation := ToLower (data_string op) in
      if String.eqb operation "init"
      then Some (blank_pin <| pin_Path := "/" |> <| pin_Operation := "init" |>)
      else if (zlen infoList <? 6) && negb (String.eqb operation "revoke") then None
      else if String.eqb operation "revoke" && (zlen infoList <? 5) then None
      else
        let contentType :=
          match infoList !! 4%nat with
          | Some (Some c) => ToLower c
          | _ => "application/json"
          end in
        let body := foldl (fun b d => b +:+ data_string d) "" (drop 5 infoList) in
        Some (blank_pin <| pin_Path := ToLower (data_string (default None (infoList !! 1%nat))) |>
                        <| pin_Operation := operation |>
                        <| pin_ContentType := contentType |>
                        <| pin_ContentBody := body |>)
  end.

(** The first OP_RETURN decides. *)
Fixpoint find_op_return (toks : list (Z * option string)) (err : bool) : option PinInscription :=
  match toks with
  | [] => None
  | (op, _) :: toks =>
      if op =? OP_RETURN then
        match toks with
        | [] => None
        | (_, d) :: toks =>
            if String.eqb (hex_EncodeToString (bytes_of_string (data_string d))) "6d6574616964"
            then parseOpReturnFields toks.*2 err
            else None
        end
      else find_op_return toks err
  end.
Definition parseOpReturnPin (pkScript : list Z) : option PinInscription :=
  let '(toks, err) := MakeScriptTokenizer pkScript in find_op_return toks err.

(** What [catchPinsByTx] fills in. *)
Definition attribute_pin (chain hash : string) (height timestamp : Z) (tx : MsgTx)
    (pin : PinInscription) : PinInscription :=
  let '(address, ownerOutIdx, _) := getPinOwner tx in
  pin <| pin_Id := hash +:+ "i" +:+ fmt_d ownerOutIdx |>
      <| pin_ChainName := chain |>
      <| pin_GenesisTransaction := hash |>
      <| pin_GenesisHeight := height |>
      <| pin_Timestamp := timestamp |>
      <| pin_Address := address |>
      <| pin_CreateAddress := address |>
      <| pin_MetaId := address |>
      <| pin_GlobalMetaId := address |>
      <| pin_Output := hash +:+ ":" +:+ fmt_d ownerOutIdx |>.

(** The loop over the data outputs; [hash] computes the id part of each pin. *)
Fixpoint opreturn_loop (chain : string) (hash : res string) (height timestamp : Z) (tx : MsgTx)
    (outs : list TxOut) : res (list PinInscription) :=
  match outs with
  | [] => Ok []
  | out :: outs =>
      if is_data (out_PkScript out) then
        match parseOpReturnPin (out_PkScript out) with
        | None => opreturn_loop chain hash height timestamp tx outs
        | Some pin =>
            h <-? hash ;;
            pins <-? opreturn_loop chain hash height timestamp tx outs ;;
            Ok (attribute_pin chain h height timestamp tx pin :: pins)
        end
      else opreturn_loop chain hash height timestamp tx outs
  end.

(** ** Witness pins *)

Fixpoint find_marker (i : nat) (witness : list string) : option nat :=
  match witness with
  | [] => None
  | w :: witness =>
      if (6 <=? slen w) && String.eqb (stake 6 w) "metaid" then Some i
      else find_marker (S i) witness
  end.
(** An [Err] is the panic of [tx.TxIn[0]]; the function itself has no error. *)
Definition parseMetaIDWitness (chain : string) (tx : MsgTx) (outIdx height timestamp : Z)
    (txHash : string) : res (option PinInscription) :=
  match tx_TxIn tx with
  | [] => Err "panic: index out of range"
  | in0 :: _ =>
      let witness := in_Witness in0 in
      if zlen witness <? 4 then Ok None else
      match find_marker 0 witness with
      | None => Ok None
      | Some dataStart =>
          if zlen witness <=? Z.of_nat dataStart + 2 then Ok None else
          let item k := default "" (witness !! (dataStart + k)%nat) in
          let creatorAddr := extractCreatorAddress tx in
          let pin := blank_pin
            <| pin_Id := txHash +:+ ":i" +:+ fmt_d outIdx |>
            <| pin_Path := item 2%nat |>
            <| pin_Operation := item 1%nat |>
            <| pin_ChainName := chain |>
            <| pin_GenesisTransaction := txHash |>
            <| pin_GenesisHeight := height |>
            <| pin_Timestamp := timestamp |>
            <| pin_Address := creatorAddr |>
            <| pin_CreateAddress := creatorAddr |>
            <| pin_MetaId := creatorAddr |>
            <| pin_GlobalMetaId := creatorAddr |>
            <| pin_Output := txHash +:+ ":" +:+ fmt_d outIdx |> in
          let pin := if Z.of_nat dataStart + 5 <? zlen witness
                     then pin <| pin_ContentType := item 5%nat |> else pin in
          let pin := if Z.of_nat dataStart + 6 <? zlen witness
                     then pin <| pin_ContentBody := item 6%nat |> else pin in
          Ok (Some pin)
      end
  end.

(** The loop over the outputs that [considered] does not skip. *)
Fixpoint witness_loop (considered : list Z -> bool) (chain : string) (tx : MsgTx)
    (height timestamp : Z) (outIdx : Z) (outs : list TxOut) : res (list PinInscription) :=
  match outs with
  | [] => Ok []
  | out :: outs =>
      if considered (out_PkScript out) then
        pin <-? parseMetaIDWitness chain tx outIdx height timestamp (TxHash tx) ;;
        pins <-? witness_loop considered chain tx height timestamp (outIdx + 1) outs ;;
        Ok (option_list pin ++ pins)
      else witness_loop considered chain tx height timestamp (outIdx + 1) outs
  end.
Definition nonempty_script (script : list Z) : bool := 0 <? zlen script.

(** ** Blocks and the mempool *)

(** The loop of [CatchPins] and [CatchMempoolPins] over the transactions. *)
Fixpoint catch_txs (catch : MsgTx -> res (list PinInscription)) (txs : list MsgTx)
    : res (list PinInscription * list string) :=
  match txs with
  | [] => Ok ([], [])
  | tx :: txs =>
      txPins <-? catch tx ;;
      r <-? catch_txs catch txs ;;
      Ok (txPins ++ r.1, spent tx ++ r.2)
  end.
(** [catch height timestamp tx] is the package's [catchPinsByTx]. *)
Definition CatchPins_with (catch : Z -> Z -> MsgTx -> res (list PinInscription))
    (GetBlock : Z -> res MsgBlock) (height : Z) (idx : Indexer)
    : res (list PinInscription * list string) * Indexer :=
  match GetBlock height with
  | Err e => (Err e, idx)
  | Ok block =>
      (catch_txs (catch height (blk_Timestamp block)) (blk_Transactions block),
       mkIndexer (Some block))
  end.
(** An item that is not a [*wire.MsgTx] ([None]) is skipped. *)
Definition CatchMempoolPins_with (catch : Z -> Z -> MsgTx -> res (list PinInscription)) (now : Z)
    (txList : list (option MsgTx)) : res (list PinInscription * list string) :=
  catch_txs (catch (-1) now) (omap id txList).

(** ** Transfers *)

Definition transfer_step (idMap : gmap string string) (tx : MsgTx)
    (result : gmap string TransferInfo) (id : string) : gmap string TransferInfo :=
  match idMap !! id with
  | None => result
  | Some fromAddr =>
      match getOwnerAddress tx with
      | None => result
      | Some (location, address) => <[id := mkTransfer location address fromAddr]> result
      end
  end.
Definition CatchTransfer (idMap : gmap string string) (idx : Indexer)
    : option (gmap string TransferInfo) :=
  block ← ix_block idx;
  Some (foldl (fun result tx => foldl (transfer_step idMap tx) result (spent tx)) ∅
          (blk_Transactions block)).

Definition ZmqTopics : list string := ["rawtx"; "hashblock"].
End Chain.
