(* ===== verification/ChainRpc.v ===== *)
(** * ChainRpc: the four chain adapters over the RPC of their nodes
    ([bitcoin.go], [mvc.go], [opcat.go], [dogecoin.go] of [internal/chain])

    The packages bitcoin, mvc and opcat have the same text up to the name of the
    chain; dogecoin fetches a block in two requests and parses it itself ([ChainDoge]).
    Each package's adapter is put together in [ChainBitcoin], [ChainMvc], [ChainOpcat]
    and [ChainDoge].  The RPC client is btcd's: what it answers while a call runs is an
    argument. *)

From S2P Require Import Prelude GoText Aggregator Config Engine Wire Chain.

(** ** The client *)

Record ConnConfig := mkConnConfig {
  cn_Host : string; cn_User : string; cn_Pass : string; cn_HTTPPostMode : bool; cn_DisableTLS : bool;
  cn_DisableAutoReconnect : bool; cn_DisableConnectOnNew : bool }.
(** The fields of btcjson.GetBlockVerboseResult that are read. *)
Record GetBlockVerboseResult := mkVerbose {
  bv_Version : Z; bv_PreviousHash : string; bv_MerkleRoot : string; bv_Time : Z; bv_Bits : string; bv_Nonce : Z;
  bv_Tx : list string }.
(** A hash is its 32 bytes, a transaction of the mempool comes without its wrapper,
    and of the chain's info there is the number of blocks. *)
Record RPC := mkRPC {
  rpc_GetBlockHash : Z -> res (list Z);
  rpc_GetBlock : list Z -> res MsgBlock;
  rpc_GetBlockVerbose : list Z -> res GetBlockVerboseResult;
  rpc_RawRequest : string -> list string -> res string;
  rpc_GetRawTransaction : list Z -> res MsgTx;
  rpc_GetBlockChainInfo : res Z;
  rpc_GetBlockCount : res Z;
  rpc_GetRawMempool : res (list (list Z));
  rpc_SendRawTransaction : MsgTx -> bool -> res (list Z) }.
(** [chainhash.NewHashFromStr] reads what [Hash.String] prints, 64 digits. *)
Class HashText {BT : Btcd} := {
  NewHashFromStr : string -> res (list Z);
  Hash_String_length h : zlen h = 32 -> String.length (Hash_String h) = 64%nat;
  NewHashFromStr_String h : zlen h = 32 -> bytes_ok h -> NewHashFromStr (Hash_String h) = Ok h }.
Arguments HashText : clear implicits.

Section Adapter.
Context {BT : Btcd} {HT : HashText BT}.

(** ** What the four have in common *)

(** A chain before [Init] is its configuration; the client that [Init] makes is handed
    to the operations below.  [rpcclient.New] is [dial]. *)
Definition NewChain (cfg : ChainRPCConfig) : ChainRPCConfig := cfg.
Definition Init (name : string) (dial : ConnConfig -> res RPC) (cfg : ChainRPCConfig) : res RPC :=
  match dial (mkConnConfig (cr_RPCHost cfg) (cr_RPCUser cfg) (cr_RPCPass cfg) (cr_RPCHTTPPostMode cfg)
                (cr_RPCDisableTLS cfg) true true) with
  | Ok client => Ok client
  | Err e => Err (name +:+ " rpc connect: " +:+ e)
  end.
(** A panic is no error that is wrapped. *)
Definition wrap_err {A} (what : string) (r : res A) : res A :=
  match r with Ok a => Ok a | Err e => if is_panic e then Err e else Err what end.
Definition GetBlockTime (GetBlock : Z -> res MsgBlock) (height : Z) : res Z :=
  block <-? GetBlock height ;; Ok (blk_Timestamp block).
Definition GetTransaction (client : RPC) (txID : string) : res MsgTx :=
  hash <-? NewHashFromStr txID ;; rpc_GetRawTransaction client hash.
Definition GetBestHeight (client : RPC) : Z :=
  match rpc_GetBlockChainInfo client with
  | Ok blocks => blocks
  | Err _ => match rpc_GetBlockCount client with Ok count => count | Err _ => 0 end
  end.
(** A transaction that is gone by now is passed over. *)
Definition GetMempoolTransactionList (client : RPC) : res (list (option MsgTx)) :=
  txIDs <-? rpc_GetRawMempool client ;;
  Ok (omap (fun hash => match rpc_GetRawTransaction client hash with Ok tx => Some (Some tx) | Err _ => None end) txIDs).
(** [tx.Deserialize] reads with witnesses and leaves what follows the transaction. *)
Definition BroadcastTx (client : RPC) (txRaw : string) : res string :=
  match hex_DecodeString txRaw with
  | Err _ => Err "decode tx"
  | Ok txBytes =>
      match BtcDecode_witness txBytes with
      | Err _ => Err "deserialize tx"
      | Ok (tx, _) => hash <-? rpc_SendRawTransaction client tx true ;; Ok (Hash_String hash)
      end
  end.

(** ** A block in one request: bitcoin, mvc and opcat *)

Definition GetBlock (client : RPC) (height : Z) : res MsgBlock :=
  hash <-? wrap_err "get block hash" (rpc_GetBlockHash client height) ;;
  wrap_err "get block" (rpc_GetBlock client hash).
(** The networks of btcd's chaincfg. *)
Inductive Params := MainNetParams | TestNet3Params | RegressionNetParams.
Definition NetParams (testNet : string) : Params :=
  if String.eqb testNet "1" then TestNet3Params else if String.eqb testNet "2" then RegressionNetParams
  else MainNetParams.

End Adapter.

(** ** The adapters under the engine *)

(** [chain.Chain] as the engine uses it, and the environment that the engine meets
    when the node of the chain answers as [client] at time [now]; a chain whose [Init]
    failed is not registered. *)
Section Env.
Context {BT : Btcd} {HT : HashText BT}.
Record ChainOps := mkChainOps { co_Name : string; co_GetBlock : RPC -> Z -> res MsgBlock }.
Definition res_error {A} (r : res A) : option error := match r with Ok _ => None | Err e => Some e end.
Definition adapter_env (chain : ChainOps) (ops : IndexerOps) (dialed : res RPC) (client : RPC) (now : Z)
    : ChainEnv (option MsgTx) :=
  mkEnv (res_error dialed) (io_Init ops) (GetBestHeight client) (GetMempoolTransactionList client)
    (fun h => (io_CatchPins ops (co_GetBlock chain client) h NewIndexer).1)
    (fun txList => r <-? io_CatchMempoolPins ops now txList ;; Ok (map Some r.1, r.2)).
End Env.
