(* ===== verification/ChainBitcoin.v ===== *)
(** * ChainBitcoin: the Bitcoin indexer ([internal/chain/bitcoin/indexer.go]) *)

From S2P Require Import Prelude GoText Aggregator Wire Chain ChainRpc.
From coqutil.Datatypes Require Import RecordSetters.
Import TriangleBracketNotations.

Section Bitcoin.
Context {BT : Btcd}.

(** The marker is not looked for: any script of six bytes passes. *)
Definition isMetaIDOutput (pkScript : list Z) : bool := negb (zlen pkScript <? 6).

(** Bitcoin's copy returns early without inputs and sets the identity by
    functions that return the address. *)
Definition extractCreatorAddress (tx : MsgTx) : string :=
  match tx_TxIn tx with [] => "" | _ => first_address (tx_TxOut tx) end.
Definition extractMetaID (tx : MsgTx) : string :=
  let addr := extractCreatorAddress tx in if is_empty addr then "" else addr.
Definition extractGlobalMetaID (metaid : string) : string := metaid.

Definition parseMetaIDWitness (tx : MsgTx) (outIdx height timestamp : Z) (txHash : string)
    : res (option PinInscription) :=
  match tx_TxIn tx with
  | [] => Err "panic: index out of range"
  | in0 :: _ =>
      let witness := in_Witness in0 in
      if zlen witness <? 4 then Ok None else
      match find_marker 0 witness with
      | None => Ok None
      | Some dataStart =>
          if zlen witness <=? Z.of_nat dataStart + 2 then Ok None else
          let item k := default "" (witness !! (dataStart + k)%nat) in
          let creatorAddr := extractCreatorAddress tx in
          let metaid := extractMetaID tx in
          let globalMetaID := extractGlobalMetaID metaid in
          let pin := blank_pin
            <| pin_Id := txHash +:+ ":i" +:+ fmt_d outIdx |>
            <| pin_Path := item 2%nat |>
            <| pin_Operation := item 1%nat |>
            <| pin_ChainName := "btc" |>
            <| pin_GenesisTransaction := txHash |>
            <| pin_GenesisHeight := height |>
            <| pin_Timestamp := timestamp |>
            <| pin_Address := creatorAddr |>
            <| pin_CreateAddress := creatorAddr |>
            <| pin_MetaId := metaid |>
            <| pin_GlobalMetaId := globalMetaID |>
            <| pin_Output := txHash +:+ ":" +:+ fmt_d outIdx |> in
          let pin := if Z.of_nat dataStart + 5 <? zlen witness
                     then pin <| pin_ContentType := item 5%nat |> else pin in
          let pin := if Z.of_nat dataStart + 6 <? zlen witness
                     then pin <| pin_ContentBody := item 6%nat |> else pin in
          Ok (Some pin)
      end
  end.

Fixpoint btc_loop (tx : MsgTx) (height timestamp outIdx : Z) (outs : list TxOut)
    : res (list PinInscription) :=
  match outs with
  | [] => Ok []
  | out :: outs =>
      if zlen (out_PkScript out) =? 0 then btc_loop tx height timestamp (outIdx + 1) outs
      else if negb (isMetaIDOutput (out_PkScript out))
      then btc_loop tx height timestamp (outIdx + 1) outs
      else
        pin <-? parseMetaIDWitness tx outIdx height timestamp (TxHash tx) ;;
        pins <-? btc_loop tx height timestamp (outIdx + 1) outs ;;
        Ok (option_list pin ++ pins)
  end.
Definition catchPinsByTx (height timestamp : Z) (tx : MsgTx) : res (list PinInscription) :=
  btc_loop tx height timestamp 0 (tx_TxOut tx).

(** Only transactions with a witness are examined. *)
Definition catch_segwit (height timestamp : Z) (tx : MsgTx) : res (list PinInscription) :=
  if negb (HasWitness tx) then Ok [] else catchPinsByTx height timestamp tx.
Definition CatchPins := CatchPins_with catch_segwit.
Definition CatchMempoolPins := CatchMempoolPins_with catch_segwit.

(** The package's copies of the shared routines. *)
Definition CatchTransfer := Chain.CatchTransfer.
Definition GetAddress := Chain.GetAddress.
Definition getOwnerAddress := Chain.getOwnerAddress.
Definition ZmqTopics := Chain.ZmqTopics.

Definition ops : IndexerOps :=
  mkIndexerOps "btc" None CatchPins CatchMempoolPins CatchTransfer GetAddress ZmqTopics.
End Bitcoin.

(** ** The adapter: a block in one request *)

Section BitcoinChain.
Context {BT : Btcd} {HT : HashText BT}.
Definition Name : string := "btc".
Definition NewChain := ChainRpc.NewChain.
Definition Init := ChainRpc.Init Name.
Definition GetBlock := ChainRpc.GetBlock.
Definition GetBlockTime (client : RPC) := ChainRpc.GetBlockTime (GetBlock client).
Definition GetTransaction := ChainRpc.GetTransaction.
Definition GetBestHeight := ChainRpc.GetBestHeight.
Definition GetMempoolTransactionList := ChainRpc.GetMempoolTransactionList.
Definition BroadcastTx := ChainRpc.BroadcastTx.
Definition NetParams := ChainRpc.NetParams.
Definition chain : ChainOps := mkChainOps Name GetBlock.
End BitcoinChain.
