(* ===== verification/ChainOpcat.v ===== *)
(** * ChainOpcat: the OPCAT indexer ([internal/chain/opcat/indexer.go]) *)

From S2P Require Import Prelude GoText Aggregator Wire Chain ChainRpc.

Section Opcat.
Context {BT : Btcd}.

(** OP_RETURN outputs only. *)
Definition catchPinsByTx (height timestamp : Z) (tx : MsgTx) : res (list PinInscription) :=
  opreturn_loop "opcat" (Ok (TxHash tx)) height timestamp tx (tx_TxOut tx).
Definition CatchPins := CatchPins_with catchPinsByTx.
Definition CatchMempoolPins := CatchMempoolPins_with catchPinsByTx.

(** The package's copies of the shared routines. *)
Definition parseOpReturnPin := Chain.parseOpReturnPin.
Definition parseOpReturnFields := Chain.parseOpReturnFields.
Definition getPinOwner := Chain.getPinOwner.
Definition CatchTransfer := Chain.CatchTransfer.
Definition GetAddress := Chain.GetAddress.
Definition getOwnerAddress := Chain.getOwnerAddress.
Definition ZmqTopics := Chain.ZmqTopics.

Definition ops : IndexerOps :=
  mkIndexerOps "opcat" None CatchPins CatchMempoolPins CatchTransfer GetAddress ZmqTopics.
End Opcat.

(** ** The adapter: a block in one request *)

Section OpcatChain.
Context {BT : Btcd} {HT : HashText BT}.
Definition Name : string := "opcat".
Definition NewChain := ChainRpc.NewChain.
Definition Init := ChainRpc.Init Name.
Definition GetBlock := ChainRpc.GetBlock.
Definition GetBlockTime (client : RPC) := ChainRpc.GetBlockTime (GetBlock client).
Definition GetTransaction := ChainRpc.GetTransaction.
Definition GetBestHeight := ChainRpc.GetBestHeight.
Definition GetMempoolTransactionList := ChainRpc.GetMempoolTransactionList.
Definition BroadcastTx := ChainRpc.BroadcastTx.
Definition NetParams := ChainRpc.NetParams.
Definition chain : ChainOps := mkChainOps Name GetBlock.
End OpcatChain.
