(* ===== verification/ChainMvc.v ===== *)
(** * ChainMvc: the MVC indexer ([internal/chain/mvc/indexer.go])

    OP_RETURN pins, else witness pins; for transactions of version 10 and above
    the MetaID transaction id, computed by parsing the serialised transaction.
    Offsets are Go [int]s: a sum that may exceed the range wraps. *)

From S2P Require Import Prelude GoText Aggregator Wire Chain ChainRpc.

Record mvcRawTxIn := mkRawIn {
  ri_txid : list Z; ri_vout : list Z; ri_scriptSig : list Z; ri_sequence : list Z }.
Record mvcRawTxOut := mkRawOut { ro_amount : list Z; ro_script : list Z }.
Record mvcRawTx := mkRawTx {
  rt_version : list Z;
  rt_inputs : list mvcRawTxIn;
  rt_outputs : list mvcRawTxOut;
  rt_lockTime : list Z }.

Definition bad_length : error := "invalid transaction data length".

(** The value and the number of bytes read. *)
Definition decodeMVCVarInt (buf : list Z) : res (Z * Z) :=
  match buf with
  | [] => Err bad_length
  | b0 :: _ =>
      if b0 =? 0xfd then
        if zlen buf <? 3 then Err bad_length
        else v <-? slice buf 1 3 ;; Ok (le_val v, 3)
      else if b0 =? 0xfe then
        if zlen buf <? 5 then Err bad_length
        else v <-? slice buf 1 5 ;; Ok (le_val v, 5)
      else if b0 =? 0xff then
        if zlen buf <? 9 then Err bad_length
        else
          v <-? slice buf 1 9 ;;
          let value := le_val v in
          if 2 ^ 63 - 1 <? value then Err "varint too large" else Ok (value, 9)
      else Ok (b0, 1)
  end.

(** One round of the input loop. *)
Definition parse_in (raw : list Z) (index : Z) : res (mvcRawTxIn * Z) :=
  if zlen raw <? index + 36 then Err bad_length else
  txid <-? slice raw index (index + 32) ;;
  vout <-? slice raw (index + 32) (index + 36) ;;
  let index := index + 36 in
  buf <-? slice raw index (zlen raw) ;;
  p <-? decodeMVCVarInt buf ;;
  let '(scriptLen, size) := p in
  let index := index + size in
  if zlen raw <? wrap64 (index + scriptLen + 4) then Err bad_length else
  scriptSig <-? slice raw index (wrap64 (index + scriptLen)) ;;
  let index := wrap64 (index + scriptLen) in
  sequence <-? slice raw index (index + 4) ;;
  Ok (mkRawIn txid vout scriptSig sequence, index + 4).

(** One round of the output loop. *)
Definition parse_out (raw : list Z) (index : Z) : res (mvcRawTxOut * Z) :=
  if zlen raw <? index + 8 then Err bad_length else
  amount <-? slice raw index (index + 8) ;;
  let index := index + 8 in
  buf <-? slice raw index (zlen raw) ;;
  p <-? decodeMVCVarInt buf ;;
  let '(scriptLen, size) := p in
  let index := index + size in
  if zlen raw <? wrap64 (index + scriptLen) then Err bad_length else
  script <-? slice raw index (wrap64 (index + scriptLen)) ;;
  Ok (mkRawOut amount script, wrap64 (index + scriptLen)).

(** The count of a sequence and the sequence; [fuel] is one more than there are
    bytes. *)
Definition parse_counted {A} (read : list Z -> Z -> res (A * Z)) (raw : list Z) (index : Z)
    : res (list A * Z) :=
  buf <-? slice raw index (zlen raw) ;;
  p <-? decodeMVCVarInt buf ;;
  let '(count, n) := p in
  if count =? 0 then Err "invalid transaction data"
  else count_loop (S (length raw)) (read raw) count (index + n).

Definition parseMVCMetaIDRawTx (raw : list Z) : res mvcRawTx :=
  if zlen raw <? 10 then Err "invalid transaction data" else
  version <-? slice raw 0 4 ;;
  ins <-? parse_counted parse_in raw 4 ;;
  outs <-? parse_counted parse_out raw ins.2 ;;
  let index := outs.2 in
  if negb (index + 4 =? zlen raw) then Err bad_length else
  lockTime <-? slice raw index (index + 4) ;;
  Ok (mkRawTx version ins.1 outs.1 lockTime).

Section Mvc.
Context {BT : Btcd}.

Definition uint32LittleEndian (v : Z) : list Z := le_bytes 4 v.
Definition sha256Bytes (data : list Z) : list Z := Sum256 data.
Definition doubleSHA256ReversedHex (data : list Z) : string :=
  hex_EncodeToString (rev (Sum256 (Sum256 data))).

(** The bytes that are hashed into the id. *)
Definition manRaw (parsed : mvcRawTx) : list Z :=
  let inputBytes :=
    concat (map (fun i => ri_txid i ++ ri_vout i ++ ri_sequence i) (rt_inputs parsed)) in
  let inputScriptHashes := concat (map (fun i => sha256Bytes (ri_scriptSig i)) (rt_inputs parsed)) in
  let outputBytes :=
    concat (map (fun o => ro_amount o ++ sha256Bytes (ro_script o)) (rt_outputs parsed)) in
  rt_version parsed ++ rt_lockTime parsed
  ++ uint32LittleEndian (u32 (zlen (rt_inputs parsed)))
  ++ uint32LittleEndian (u32 (zlen (rt_outputs parsed)))
  ++ sha256Bytes inputBytes ++ sha256Bytes inputScriptHashes ++ sha256Bytes outputBytes.
Definition mvcMetaIDTxHash (tx : MsgTx) : res string :=
  if tx_Version tx <? 10 then Ok (TxHash tx) else
  buf <-? Serialize tx ;;
  parsed <-? parseMVCMetaIDRawTx buf ;;
  Ok (doubleSHA256ReversedHex (manRaw parsed)).

(** The id of the transaction's pins: the hash when the id has an error. *)
Definition pin_hash (tx : MsgTx) : res string :=
  match mvcMetaIDTxHash tx with
  | Ok h => Ok h
  | Err e => if is_panic e then Err e else Ok (TxHash tx)
  end.

Definition catchPinsByTx (height timestamp : Z) (tx : MsgTx) : res (list PinInscription) :=
  pins <-? opreturn_loop "mvc" (pin_hash tx) height timestamp tx (tx_TxOut tx) ;;
  if (0 <? length pins)%nat then Ok pins
  else if negb (HasWitness tx) then Ok []
  else witness_loop nonempty_script "mvc" tx height timestamp 0 (tx_TxOut tx).
Definition CatchPins := CatchPins_with catchPinsByTx.
Definition CatchMempoolPins := CatchMempoolPins_with catchPinsByTx.

Definition ops : IndexerOps :=
  mkIndexerOps "mvc" None CatchPins CatchMempoolPins CatchTransfer GetAddress ZmqTopics.
End Mvc.

(** ** The adapter: a block in one request *)

Section MvcChain.
Context {BT : Btcd} {HT : HashText BT}.
Definition Name : string := "mvc".
Definition NewChain := ChainRpc.NewChain.
Definition Init := ChainRpc.Init Name.
Definition GetBlock := ChainRpc.GetBlock.
Definition GetBlockTime (client : RPC) := ChainRpc.GetBlockTime (GetBlock client).
Definition GetTransaction := ChainRpc.GetTransaction.
Definition GetBestHeight := ChainRpc.GetBestHeight.
Definition GetMempoolTransactionList := ChainRpc.GetMempoolTransactionList.
Definition BroadcastTx := ChainRpc.BroadcastTx.
Definition NetParams := ChainRpc.NetParams.
Definition chain : ChainOps := mkChainOps Name GetBlock.
End MvcChain.
