(* ===== verification/ChainDoge.v ===== *)
(** * ChainDoge: the Dogecoin indexer and block parser
    ([internal/chain/dogecoin/indexer.go], [dogecoin.go])

    A raw Dogecoin block may carry a merged-mining proof (AuxPoW) between its
    header and its transactions, which the parser skips. *)

From S2P Require Import Prelude GoText Json Aggregator Wire Chain ChainRpc.

(** [uint64] value and the number of bytes read. *)
Definition readDogeVarInt (data : list Z) : res (Z * Z) :=
  match data with
  | [] => Err "empty varint"
  | b0 :: _ =>
      if b0 =? 0xff then
        if zlen data <? 9 then Err "short uint64 varint"
        else v <-? slice data 1 9 ;; Ok (le_val v, 9)
      else if b0 =? 0xfe then
        if zlen data <? 5 then Err "short uint32 varint"
        else v <-? slice data 1 5 ;; Ok (le_val v, 5)
      else if b0 =? 0xfd then
        if zlen data <? 3 then Err "short uint16 varint"
        else v <-? slice data 1 3 ;; Ok (le_val v, 3)
      else Ok (b0, 1)
  end.

Definition skipDogeHashBranch (blockBytes : list Z) (offset : Z) : res Z :=
  buf <-? slice blockBytes offset (zlen blockBytes) ;;
  match readDogeVarInt buf with
  | Err e => if is_panic e then Err e else Err "read branch count"
  | Ok (count, n) =>
      if 256 <? count then Err "branch count implausibly large" else
      let offset := offset + n in
      let bytesToSkip := count * 32 in
      if zlen blockBytes <? offset + bytesToSkip then Err "auxpow block too short for branch"
      else Ok (offset + bytesToSkip)
  end.

(** Go's allocator serves at most 2^48 bytes, and a pointer has eight:
    [make([]*T, 0, cap)] panics on a larger capacity. *)
Definition max_pointers : Z := 2 ^ 45.
Definition make_ok (cap : Z) : bool := cap <=? max_pointers.

Section Doge.
Context {BT : Btcd}.

Definition skipDogeAuxPoW (blockBytes : list Z) (offset : Z) : res Z :=
  buf <-? slice blockBytes offset (zlen blockBytes) ;;
  let decoded :=
    match BtcDecode_witness buf with
    | Ok (_, rest) => Ok rest
    | Err _ =>
        match BtcDecode_base buf with
        | Ok (_, rest) => Ok rest
        | Err _ => Err "parse auxpow coinbase"
        end
    end in
  rest <-? decoded ;;
  let offset := offset + (zlen buf - zlen rest) in
  if zlen blockBytes <? offset + 32 then Err "auxpow block too short for block hash" else
  let offset := offset + 32 in
  offset <-? skipDogeHashBranch blockBytes offset ;;
  if zlen blockBytes <? offset + 4 then Err "auxpow block too short for merkle index" else
  let offset := offset + 4 in
  offset <-? skipDogeHashBranch blockBytes offset ;;
  if zlen blockBytes <? offset + 4 then Err "auxpow block too short for aux merkle index" else
  let offset := offset + 4 in
  if zlen blockBytes <? offset + 80 then Err "auxpow block too short for parent header" else
  Ok (offset + 80).

(** The reader is what is left of the block.  A transaction takes at least one
    byte, so a round per byte is enough. *)
Fixpoint decode_txs (fuel : nat) (count : Z) (reader : list Z) : res (list MsgTx) :=
  if 0 <? count then
    match fuel with
    | O => Err "out of fuel"
    | S fuel =>
        match BtcDecode_base reader with
        | Err _ => Err "parse tx"
        | Ok (tx, reader) => txs <-? decode_txs fuel (count - 1) reader ;; Ok (tx :: txs)
        end
    end
  else Ok [].

(** The expected count is only compared for a log line. *)
Definition parseDogeBlockTransactions (blockBytes : list Z) (expectedTxCount : Z)
    : res (list MsgTx) :=
  if zlen blockBytes <? 80 then Err "block too short" else
  v <-? slice blockBytes 0 4 ;;
  let version := le_val v in
  offset <-? (if negb (Z.land version 0x100 =? 0) then skipDogeAuxPoW blockBytes 80 else Ok 80) ;;
  buf <-? slice blockBytes offset (zlen blockBytes) ;;
  match readDogeVarInt buf with
  | Err e => if is_panic e then Err e else Err "read tx count"
  | Ok (txCount, n) =>
      let offset := offset + n in
      if negb (make_ok txCount) then Err "panic: makeslice: cap out of range" else
      reader <-? slice blockBytes offset (zlen blockBytes) ;;
      decode_txs (S (length reader)) txCount reader
  end.

Definition catchPinsByTx (height timestamp : Z) (tx : MsgTx) : res (list PinInscription) :=
  pins <-? opreturn_loop "doge" (Ok (TxHash tx)) height timestamp tx (tx_TxOut tx) ;;
  if (0 <? length pins)%nat then Ok pins
  else if negb (HasWitness tx) then Ok []
  else witness_loop nonempty_script "doge" tx height timestamp 0 (tx_TxOut tx).
Definition CatchPins := CatchPins_with catchPinsByTx.
Definition CatchMempoolPins := CatchMempoolPins_with catchPinsByTx.

(** The package's copies of the shared routines. *)
Definition parseOpReturnPin := Chain.parseOpReturnPin.
Definition parseOpReturnFields := Chain.parseOpReturnFields.
Definition getPinOwner := Chain.getPinOwner.
Definition extractCreatorAddress := Chain.extractCreatorAddress.
Definition CatchTransfer := Chain.CatchTransfer.
Definition GetAddress := Chain.GetAddress.
Definition getOwnerAddress := Chain.getOwnerAddress.
Definition ZmqTopics := Chain.ZmqTopics.
Definition parseMetaIDWitness := Chain.parseMetaIDWitness "doge".

Definition ops : IndexerOps :=
  mkIndexerOps "doge" None CatchPins CatchMempoolPins CatchTransfer GetAddress ZmqTopics.
End Doge.

(** ** The adapter: a block in two requests *)

Record Params := mkParams {
  np_Name : string; np_Net : Z; np_DefaultPort : string; np_PubKeyHashAddrID : Z; np_ScriptHashAddrID : Z;
  np_PrivateKeyID : Z; np_Bech32HRPSegwit : string; np_HDCoinType : Z }.
Definition dogeMainNetParams := mkParams "dogecoin-mainnet" 0xc0c0c0c0 "22556" 0x1e 0x16 0x9e "doge" 3.
Definition dogeTestNetParams := mkParams "dogecoin-testnet" 0xfcc1b7dc "44556" 0x71 0xc4 0xf1 "tdoge" 1.
Definition dogeRegTestParams := mkParams "dogecoin-regtest" 0xfabfb5da "18444" 0x6f 0xc4 0xef "rdoge" 1.
Definition NetParams (testNet : string) : Params :=
  if String.eqb testNet "1" then dogeTestNetParams else if String.eqb testNet "2" then dogeRegTestParams
  else dogeMainNetParams.

Section DogeChain.
Context {BT : Btcd} {HT : HashText BT} {JS : JSON string}.

(** [strconv.ParseUint(bits, 16, 32)]; every error is one. *)
Fixpoint parse_hex (s : string) (acc : Z) : option Z :=
  match s with
  | "" => Some acc
  | String c s => d ← hex_val c; if acc * 16 + d <? 2 ^ 32 then parse_hex s (acc * 16 + d) else None
  end.
Definition parseDogeBits (bits : string) : res Z :=
  match (if is_empty bits then None else parse_hex bits 0) with Some v => Ok v | None => Err "parse bits" end.
Definition parseDogeHash (value : string) : res (list Z) :=
  if is_empty value then Ok (replicate 32 0) else NewHashFromStr value.

(** [strconv.Quote] of hexadecimal digits. *)
Definition quote (s : string) : string := String "034" (s +:+ String "034" "").
Definition rawBlockHex (client : RPC) (hash : list Z) : res string :=
  result <-? wrap_err "get raw block" (rpc_RawRequest client "getblock" [quote (Hash_String hash); "0"]) ;;
  wrap_err "decode raw block response" (json_Unmarshal result).

(** The header has the fields that no indexer reads, which [MsgBlock] leaves out. *)
Record Header := mkHeader { hd_Version : Z; hd_PrevBlock : list Z; hd_Bits : Z; hd_Nonce : Z }.
Definition getBlockByRPC (client : RPC) (hash : list Z) : res (Header * MsgBlock) :=
  blockVerbose <-? wrap_err "get block verbose" (rpc_GetBlockVerbose client hash) ;;
  bits <-? parseDogeBits (bv_Bits blockVerbose) ;;
  prevHash <-? wrap_err "parse previous hash" (parseDogeHash (bv_PreviousHash blockVerbose)) ;;
  merkleRoot <-? wrap_err "parse merkle root" (parseDogeHash (bv_MerkleRoot blockVerbose)) ;;
  rawBlock <-? rawBlockHex client hash ;;
  blockBytes <-? wrap_err "decode raw block" (hex_DecodeString rawBlock) ;;
  txs <-? parseDogeBlockTransactions blockBytes (Z.of_nat (length (bv_Tx blockVerbose))) ;;
  Ok (mkHeader (bv_Version blockVerbose) prevHash bits (bv_Nonce blockVerbose),
      mkBlock (bv_Time blockVerbose) merkleRoot txs).
Definition Name : string := "doge".
Definition NewChain := ChainRpc.NewChain.
Definition Init := ChainRpc.Init Name.
Definition GetBlock (client : RPC) (height : Z) : res MsgBlock :=
  hash <-? wrap_err "get block hash" (rpc_GetBlockHash client height) ;;
  block <-? wrap_err "get block" (getBlockByRPC client hash) ;; Ok block.2.
Definition GetBlockTime (client : RPC) := ChainRpc.GetBlockTime (GetBlock client).
Definition GetTransaction := ChainRpc.GetTransaction.
Definition GetBestHeight := ChainRpc.GetBestHeight.
Definition GetMempoolTransactionList := ChainRpc.GetMempoolTransactionList.
Definition BroadcastTx := ChainRpc.BroadcastTx.
Definition chain : ChainOps := mkChainOps Name GetBlock.
End DogeChain.
