(* ===== verification/ChainFacts.v ===== *)
(** * ChainFacts: what the four indexers share

    Which outputs carry a pin and with which fields, what every pin of a
    transaction has in common, who a pin is attributed to, the closed forms of
    the loops over outputs and transactions, and transfers. *)

From S2P Require Import Prelude GoText Aggregator Wire Chain.
From coqutil.Datatypes Require Import RecordSetters.
Import TriangleBracketNotations.

Section ChainFacts.
Context {BT : Btcd}.

(** ** OP_RETURN *)

Lemma metaid_marker d :
  String.eqb (hex_EncodeToString (bytes_of_string d)) "6d6574616964" = true <-> d = "metaid".
Proof.
  rewrite String.eqb_eq. split; [|by intros ->]. intros H.
  apply (f_equal hex_DecodeString) in H. rewrite hex_roundtrip in H by apply bytes_of_string_ok.
  assert (E : hex_DecodeString "6d6574616964" = Ok (bytes_of_string "metaid")) by reflexivity.
  rewrite E in H. injection H as H. apply (f_equal string_of_bytes) in H.
  by rewrite !string_of_bytes_of_string in H.
Qed.

(** The pin a well-formed field list stands for. *)
Definition inscribed (fields : list (option string)) (p : PinInscription) : Prop :=
  exists op rest, fields = op :: rest /\
  (ToLower (data_string op) = "init" /\ p = blank_pin <| pin_Path := "/" |> <| pin_Operation := "init" |>
   \/ ToLower (data_string op) <> "init"
      /\ (5 <= length rest \/ ToLower (data_string op) = "revoke" /\ 4 <= length rest)%nat
      /\ exists path enc ver ctype body, rest = path :: enc :: ver :: ctype :: body
         /\ p = blank_pin <| pin_Path := ToLower (data_string path) |>
              <| pin_Operation := ToLower (data_string op) |>
              <| pin_ContentType := match ctype with Some c => ToLower c | None => "application/json" end |>
              <| pin_ContentBody := String.concat "" (map data_string body) |>).

Lemma body_concat acc body :
  foldl (fun b d => b +:+ data_string d) acc body = acc +:+ String.concat "" (map data_string body).
Proof.
  revert acc. induction body as [|d body IH]; intros acc; simpl; [by rewrite sapp_nil_r|].
  rewrite IH, sapp_assoc. f_equal. destruct body; simpl; [by rewrite sapp_nil_r|done].
Qed.

Lemma parseOpReturnFields_exact fields err p :
  parseOpReturnFields fields err = Some p <-> err = false /\ inscribed fields p.
Proof.
  unfold parseOpReturnFields, inscribed. destruct err; [split; [done|by intros [? _]]|].
  destruct fields as [|op rest]; [split; [done|by intros (_ & ? & ? & ? & _)]|].
  destruct (String.eqb_spec (ToLower (data_string op)) "init") as [Ei|Ei].
  { split.
    - intros [= <-]. split; [done|]. exists op, rest. split; [done|]. by left.
    - intros (_ & ? & ? & [= <- <-] & [[_ ->]|[? _]]); done. }
  rewrite zlen_cons. split.
  - intros H. split; [done|]. exists op, rest. split; [done|]. right.
    assert (Hl : (5 <= length rest \/ ToLower (data_string op) = "revoke" /\ 4 <= length rest)%nat).
    { unfold zlen in H. destruct (String.eqb_spec (ToLower (data_string op)) "revoke") as [Er|Er].
      - rewrite andb_false_r in H. cbn [andb] in H. case_match eqn:E; [done|].
        apply Z.ltb_ge in E. right. split; [done|]. lia.
      - rewrite andb_true_r in H. case_match eqn:E; [done|]. apply Z.ltb_ge in E. left. lia. }
    split; [done|]. split; [done|].
    do 2 (case_match; [done|]).
    destruct rest as [|path [|enc [|ver [|ctype body]]]]; cbn [length] in Hl; try lia.
    exists path, enc, ver, ctype, body. split; [done|].
    cbn [drop lookup list_lookup default] in H. rewrite body_concat, sapp_nil_l in H.
    destruct ctype; by injection H as <-.
  - intros (_ & op' & rest' & [= <- <-] & [[? _]|(_ & Hl & path & enc & ver & ctype & body & -> & ->)]);
      [done|].
    cbn [length] in Hl. unfold zlen. cbn [length].
    replace ((_ <? 6) && _) with false.
    2: { symmetry. destruct (String.eqb_spec (ToLower (data_string op)) "revoke").
         - by rewrite andb_false_r.
         - rewrite andb_true_r. apply Z.ltb_ge. destruct Hl as [|[? _]]; [lia|done]. }
    replace (_ && _) with false.
    2: { symmetry. apply andb_false_iff. right. apply Z.ltb_ge. lia. }
    cbn [drop lookup list_lookup default]. rewrite body_concat, sapp_nil_l.
    by destruct ctype.
Qed.

Lemma find_op_return_exact toks err p :
  find_op_return toks err = Some p <->
  exists pre d o fields,
    toks = pre ++ (OP_RETURN, d) :: (o, Some "metaid") :: fields
    /\ Forall (fun t => t.1 <> OP_RETURN) pre /\ err = false /\ inscribed fields.*2 p.
Proof.
  split.
  - induction toks as [|[op d] toks IH]; [done|]. cbn [find_op_return].
    destruct (Z.eqb_spec op OP_RETURN) as [->|Hop].
    + destruct toks as [|[o d'] fields]; [done|]. case_match eqn:E; [|done].
      apply metaid_marker in E. rewrite parseOpReturnFields_exact. intros [-> Hi].
      destruct d' as [s|]; [|done]. cbn in E. subst s. exists [], d, o, fields. split; [done|].
      split; [constructor|]. done.
    + intros H. destruct (IH H) as (pre & d0 & o & fields & -> & Hpre & Hr).
      exists ((op, d) :: pre), d0, o, fields. split; [done|]. split; [by constructor|done].
  - intros (pre & d & o & fields & -> & Hpre & -> & Hi).
    induction Hpre as [|[op d'] pre Hop Hpre IH]; cbn [app find_op_return].
    + rewrite Z.eqb_refl. rewrite (proj2 (metaid_marker (data_string (Some "metaid")))) by done.
      by apply parseOpReturnFields_exact.
    + cbn in Hop. by rewrite (proj2 (Z.eqb_neq _ _)) by done.
Qed.

(** C10: an output script carries a pin exactly when its first OP_RETURN is
    followed by a push of "metaid" and then by "init", by "revoke" and at least
    four more pushes, or by any other operation and at least five; path,
    operation and content type are lower-cased, an absent content type is
    "application/json", and the content is the concatenation of the pushes from
    the sixth on.  A script the tokenizer cannot read to its end has no pin. *)
Theorem parseOpReturnPin_exact script p :
  parseOpReturnPin script = Some p <->
  exists pre d o fields,
    MakeScriptTokenizer script
      = (pre ++ (OP_RETURN, d) :: (o, Some "metaid") :: fields, false)
    /\ Forall (fun t => t.1 <> OP_RETURN) pre /\ inscribed fields.*2 p.
Proof.
  unfold parseOpReturnPin. destruct (MakeScriptTokenizer script) as [toks err].
  rewrite find_op_return_exact. split.
  - intros (pre & d & o & fields & -> & ? & -> & ?). eauto 10.
  - intros (pre & d & o & fields & [= -> ->] & ? & ?). eauto 10.
Qed.

(** ** The pins of a transaction *)

(** The OP_RETURN pins before they are attributed. *)
Definition opreturn_pins (outs : list TxOut) : list PinInscription :=
  omap (fun out => if is_data (out_PkScript out) then parseOpReturnPin (out_PkScript out) else None) outs.

Lemma opreturn_loop_ok chain h height timestamp tx outs :
  opreturn_loop chain (Ok h) height timestamp tx outs
  = Ok (map (attribute_pin chain h height timestamp tx) (opreturn_pins outs)).
Proof.
  induction outs as [|out outs IH]; [done|]. unfold opreturn_pins in *. cbn [opreturn_loop omap list_omap].
  destruct (is_data (out_PkScript out)); [|done].
  destruct (parseOpReturnPin (out_PkScript out)); [|done]. by rewrite IH.
Qed.

Lemma attribute_pin_fields chain h height timestamp tx pin :
  let p := attribute_pin chain h height timestamp tx pin in
  let '(address, outIdx, _) := getPinOwner tx in
  pin_Path p = pin_Path pin /\ pin_Operation p = pin_Operation pin
  /\ pin_ContentType p = pin_ContentType pin /\ pin_ContentBody p = pin_ContentBody pin
  /\ pin_Id p = h +:+ "i" +:+ fmt_d outIdx /\ pin_GenesisTransaction p = h
  /\ pin_GenesisHeight p = height /\ pin_Timestamp p = timestamp /\ pin_ChainName p = chain
  /\ pin_CreateAddress p = address /\ pin_Address p = address
  /\ pin_MetaId p = address /\ pin_GlobalMetaId p = address.
Proof. unfold attribute_pin. destruct (getPinOwner tx) as [[address outIdx] l]. done. Qed.

Definition set_content (ctype body : option string) (p : PinInscription) : PinInscription :=
  let p := match ctype with Some c => p <| pin_ContentType := c |> | None => p end in
  match body with Some b => p <| pin_ContentBody := b |> | None => p end.

(** The fields of a witness inscription: operation, path, content type, body. *)
Definition witness_fields (witness : list string)
    : option (string * string * option string * option string) :=
  if zlen witness <? 4 then None else
  n ← find_marker 0 witness;
  op ← witness !! (n + 1)%nat;
  path ← witness !! (n + 2)%nat;
  Some (op, path, witness !! (n + 5)%nat, witness !! (n + 6)%nat).
Definition witness_pin (chain creator hash : string) (height timestamp outIdx : Z)
    (f : string * string * option string * option string) : PinInscription :=
  let '(op, path, ctype, body) := f in
  set_content ctype body (blank_pin
    <| pin_Id := hash +:+ ":i" +:+ fmt_d outIdx |> <| pin_Path := path |> <| pin_Operation := op |>
    <| pin_ChainName := chain |> <| pin_GenesisTransaction := hash |>
    <| pin_GenesisHeight := height |> <| pin_Timestamp := timestamp |>
    <| pin_Address := creator |> <| pin_CreateAddress := creator |>
    <| pin_MetaId := creator |> <| pin_GlobalMetaId := creator |>
    <| pin_Output := hash +:+ ":" +:+ fmt_d outIdx |>).

Lemma tested_item (l : list string) n k :
  (Z.of_nat n + Z.of_nat k <? zlen l) = bool_decide (is_Some (l !! (n + k)%nat)).
Proof.
  unfold zlen. destruct (Z.ltb_spec (Z.of_nat n + Z.of_nat k) (Z.of_nat (length l))).
  - rewrite bool_decide_eq_true_2; [done|]. apply lookup_lt_is_Some. lia.
  - rewrite bool_decide_eq_false_2; [done|]. rewrite lookup_lt_is_Some. lia.
Qed.
(** Every copy of [parseMetaIDWitness] computes this. *)
Lemma parseMetaIDWitness_exact chain tx outIdx height timestamp hash :
  parseMetaIDWitness chain tx outIdx height timestamp hash =
  match tx_TxIn tx with
  | [] => Err "panic: index out of range"
  | in0 :: _ => Ok (witness_pin chain (extractCreatorAddress tx) hash height timestamp outIdx
                      <$> witness_fields (in_Witness in0))
  end.
Proof.
  unfold parseMetaIDWitness, witness_fields. destruct (tx_TxIn tx) as [|in0 ins]; [done|].
  destruct (zlen (in_Witness in0) <? 4); [done|]. destruct (find_marker 0 (in_Witness in0)) as [n|]; [|done].
  cbn [mbind option_bind]. destruct (in_Witness in0 !! (n + 2)%nat) as [path|] eqn:E2.
  2: { apply lookup_ge_None in E2. rewrite (proj2 (Z.leb_le _ _)) by (unfold zlen; lia).
       by destruct (in_Witness in0 !! (n + 1)%nat). }
  pose proof (lookup_lt_Some _ _ _ E2) as Hlt. rewrite (proj2 (Z.leb_gt _ _)) by (unfold zlen; lia).
  destruct (lookup_lt_is_Some_2 (in_Witness in0) (n + 1)) as [op E1]; [lia|]. rewrite E1.
  cbn [mbind option_bind fmap option_fmap option_map default].
  rewrite (tested_item (in_Witness in0) n 5 : (Z.of_nat n + 5 <? _) = _).
  rewrite (tested_item (in_Witness in0) n 6 : (Z.of_nat n + 6 <? _) = _).
  do 2 f_equal. unfold witness_pin, set_content.
  destruct (in_Witness in0 !! (n + 5)%nat), (in_Witness in0 !! (n + 6)%nat); reflexivity.
Qed.

(** The indices of the outputs a witness pin is emitted for. *)
Fixpoint considered_at (considered : list Z -> bool) (i : Z) (outs : list TxOut) : list Z :=
  match outs with
  | [] => []
  | out :: outs =>
      if considered (out_PkScript out) then i :: considered_at considered (i + 1) outs
      else considered_at considered (i + 1) outs
  end.
Definition witness_pins (considered : list Z -> bool) (chain : string) (height timestamp : Z)
    (tx : MsgTx) : list PinInscription :=
  match head (tx_TxIn tx) ≫= fun in0 => witness_fields (in_Witness in0) with
  | None => []
  | Some f => map (fun i => witness_pin chain (extractCreatorAddress tx) (TxHash tx) height timestamp i f)
                (considered_at considered 0 (tx_TxOut tx))
  end.
Lemma witness_loop_ok considered chain tx height timestamp i outs :
  tx_TxIn tx <> [] ->
  witness_loop considered chain tx height timestamp i outs =
  Ok (match head (tx_TxIn tx) ≫= fun in0 => witness_fields (in_Witness in0) with
      | None => []
      | Some f => map (fun i => witness_pin chain (extractCreatorAddress tx) (TxHash tx) height timestamp i f)
                    (considered_at considered i outs)
      end).
Proof.
  intros Hin. revert i. induction outs as [|out outs IH]; intros i; cbn [witness_loop considered_at map].
  { by destruct (_ ≫= _). }
  destruct (considered (out_PkScript out)); [|apply IH].
  rewrite parseMetaIDWitness_exact, IH. destruct (tx_TxIn tx) as [|in0 ins]; [done|].
  cbn [head mbind option_bind]. by destruct (witness_fields (in_Witness in0)).
Qed.

(** ** Who a pin is attributed to *)

Lemma owner_first out outs a l :
  is_data (out_PkScript out) = false -> addrs_of (out_PkScript out) = a :: l ->
  owner_loop 0 (out :: outs) = (a, 0, 0).
Proof.
  unfold is_data. rewrite orb_false_iff. intros [H1 H2] Ha. cbn [owner_loop].
  rewrite H1, H2, Ha. done.
Qed.
Lemma creator_first out outs a l :
  addrs_of (out_PkScript out) = a :: l -> first_address (out :: outs) = a.
Proof. intros Ha. cbn [first_address]. by rewrite Ha. Qed.

(** [p] is attributed to [a]. *)
Definition attributed (a : string) (p : PinInscription) : Prop :=
  pin_CreateAddress p = a /\ pin_Address p = a /\ pin_MetaId p = a /\ pin_GlobalMetaId p = a.
Lemma opreturn_attributed chain h height timestamp tx outs a i l :
  getPinOwner tx = (a, i, l) ->
  Forall (attributed a) (map (attribute_pin chain h height timestamp tx) (opreturn_pins outs)).
Proof.
  intros Ho. apply Forall_map, Forall_true. intros p. unfold compose.
  pose proof (attribute_pin_fields chain h height timestamp tx p) as H. rewrite Ho in H.
  cbv beta iota zeta in H. unfold attributed. tauto.
Qed.
Lemma witness_attributed considered chain height timestamp tx :
  Forall (attributed (extractCreatorAddress tx)) (witness_pins considered chain height timestamp tx).
Proof.
  unfold witness_pins. destruct (_ ≫= _) as [[[[op path] ctype] body]|]; [|constructor].
  apply Forall_map, Forall_true. intros i. unfold compose, witness_pin, set_content.
  by destruct ctype, body.
Qed.

(** ** Blocks *)

Lemma catch_txs_ok catch f txs :
  Forall (fun tx => catch tx = Ok (f tx)) txs ->
  catch_txs catch txs = Ok (concat (map f txs), concat (map spent txs)).
Proof.
  induction 1 as [|tx txs H _ IH]; [done|]. cbn [catch_txs map concat]. by rewrite H, IH.
Qed.

(** ** Transfers *)

Lemma transfer_step_lookup idMap tx result id key :
  transfer_step idMap tx result id !! key =
  if bool_decide (id = key) then
    match idMap !! key, getOwnerAddress tx with
    | Some from, Some (location, address) => Some (mkTransfer location address from)
    | _, _ => result !! key
    end
  else result !! key.
Proof.
  unfold transfer_step. case_bool_decide as E.
  - subst id. destruct (idMap !! key); [|done]. destruct (getOwnerAddress tx) as [[location address]|]; [|done].
    by rewrite lookup_insert_eq.
  - destruct (idMap !! id); [|done]. destruct (getOwnerAddress tx) as [[location address]|]; [|done].
    by rewrite lookup_insert_ne.
Qed.

(** What one transaction contributes at [key]. *)
Definition transferred (idMap : gmap string string) (tx : MsgTx) (key : string) : option TransferInfo :=
  if bool_decide (key ∈ spent tx) then
    match idMap !! key, getOwnerAddress tx with
    | Some from, Some (location, address) => Some (mkTransfer location address from)
    | _, _ => None
    end
  else None.
Lemma transfer_tx idMap tx result key :
  foldl (transfer_step idMap tx) result (spent tx) !! key
  = match transferred idMap tx key with Some i => Some i | None => result !! key end.
Proof.
  unfold transferred. generalize (spent tx) as ids. intros ids. induction ids as [|id ids IH] using rev_ind.
  { by rewrite bool_decide_eq_false_2 by apply not_elem_of_nil. }
  rewrite foldl_snoc, transfer_step_lookup, IH. clear IH.
  destruct (decide (id = key)) as [->|Hne].
  - rewrite (bool_decide_eq_true_2 (key = key)) by done.
    rewrite (bool_decide_eq_true_2 (key ∈ ids ++ [key])) by set_solver.
    destruct (idMap !! key); [|by destruct (bool_decide (key ∈ ids))].
    destruct (getOwnerAddress tx) as [[location address]|]; [done|].
    by destruct (bool_decide (key ∈ ids)).
  - rewrite (bool_decide_eq_false_2 _ Hne).
    rewrite (bool_decide_ext (key ∈ ids ++ [id]) (key ∈ ids)); [done|].
    rewrite elem_of_app, list_elem_of_singleton. naive_solver.
Qed.
Lemma CatchTransfer_lookup idMap txs result key :
  foldl (fun result tx => foldl (transfer_step idMap tx) result (spent tx)) result txs !! key
  = match omap (fun tx => transferred idMap tx key) (reverse txs) with i :: _ => Some i | [] => result !! key end.
Proof.
  revert result. induction txs as [|tx txs IH] using rev_ind; intros result; [done|].
  rewrite foldl_snoc, reverse_snoc, transfer_tx, IH. cbn [omap list_omap].
  by destruct (transferred idMap tx key).
Qed.

(** [CatchTransfer] reports, for each watched outpoint that the block last
    read spends, the first output with an address of the transaction that spends
    it, together with the previous owner; and reports nothing else.  (In a valid
    block no outpoint is spent twice.) *)
Theorem CatchTransfer_exact idMap block idx key info :
  ix_block idx = Some block -> NoDup (concat (map spent (blk_Transactions block))) ->
  (exists m, CatchTransfer idMap idx = Some m /\ m !! key = Some info) <->
  exists tx from location address,
    tx ∈ blk_Transactions block /\ key ∈ spent tx /\ idMap !! key = Some from
    /\ getOwnerAddress tx = Some (location, address) /\ info = mkTransfer location address from.
Proof.
  intros Hb Hnd. unfold CatchTransfer. rewrite Hb. cbn [mbind option_bind].
  set (m := foldl _ _ _). transitivity (m !! key = Some info).
  { split; [by intros (? & [= <-] & ?)|eauto]. }
  unfold m. rewrite CatchTransfer_lookup, lookup_empty.
  assert (Hu : forall tx tx', tx ∈ blk_Transactions block -> tx' ∈ blk_Transactions block ->
            key ∈ spent tx -> key ∈ spent tx' -> tx = tx').
  { clear -Hnd. induction (blk_Transactions block) as [|t txs IH]; [intros ??; set_solver|].
    cbn [map concat] in Hnd. apply NoDup_app in Hnd as (_ & Hd & Hnd).
    assert (Hx : forall t', t' ∈ txs -> key ∈ spent t -> key ∈ spent t' -> False).
    { intros t' Ht Hk Hk'. apply (Hd key Hk). apply list_elem_of_In, in_concat.
      exists (spent t'). split; [by apply in_map, list_elem_of_In|by apply list_elem_of_In]. }
    intros tx tx' [->|Htx]%elem_of_cons [->|Htx']%elem_of_cons Hk Hk'; [done|..]; [| |by apply IH].
    - by destruct (Hx tx').
    - by destruct (Hx tx). }
  split.
  - destruct (omap _ _) as [|i l] eqn:E; [done|]. intros [= ->].
    assert (Hin : info ∈ omap (fun tx => transferred idMap tx key) (reverse (blk_Transactions block)))
      by (rewrite E; left).
    apply list_elem_of_omap in Hin as (tx & Htx & Ht).
    rewrite elem_of_reverse in Htx. unfold transferred in Ht.
    case_bool_decide as Hk; [|done]. destruct (idMap !! key) as [from|] eqn:Ef; [|done].
    destruct (getOwnerAddress tx) as [[location address]|] eqn:Eo; [|done]. injection Ht as <-.
    by exists tx, from, location, address.
  - intros (tx & from & location & address & Htx & Hk & Hf & Ho & ->).
    assert (Ht : transferred idMap tx key = Some (mkTransfer location address from)).
    { unfold transferred. rewrite bool_decide_eq_true_2 by done. by rewrite Hf, Ho. }
    destruct (omap _ _) as [|i l] eqn:E.
    + exfalso. assert (H : mkTransfer location address from ∈ omap (fun tx => transferred idMap tx key) (reverse (blk_Transactions block))).
      { apply list_elem_of_omap. exists tx. split; [|done]. by rewrite elem_of_reverse. }
      rewrite E in H. by apply not_elem_of_nil in H.
    + assert (Hin : i ∈ omap (fun tx => transferred idMap tx key) (reverse (blk_Transactions block)))
        by (rewrite E; left).
      apply list_elem_of_omap in Hin as (tx' & Htx' & Ht').
      rewrite elem_of_reverse in Htx'.
      assert (Hk' : key ∈ spent tx') by (unfold transferred in Ht'; by case_bool_decide).
      rewrite (Hu tx' tx) in Ht' by done. congruence.
Qed.
End ChainFacts.
