(* ===== verification/ChainMvcFacts.v ===== *)
(** * ChainMvcFacts: the MetaID transaction id of MVC

    The hand-written parser inverts the wire encoding, terminates on any bytes,
    and panics only on lengths near the end of the range of [int]; the id is
    that of the fields of the transaction, and two transactions with one id are
    the same transaction or exhibit a SHA-256 collision. *)

From S2P Require Import Prelude GoText Aggregator Wire Chain ChainFacts ChainMvc.
From coqutil.Datatypes Require Import RecordSetters.
Import TriangleBracketNotations.

(** ** Variable-length integers *)

Lemma decode_varint v rest :
  0 <= v < 2 ^ 63 -> decodeMVCVarInt (varint v ++ rest) = Ok (v, zlen (varint v)).
Proof.
  intros Hv. unfold varint.
  assert (Hs : forall b n, zlen (b :: le_bytes n v) = 1 + Z.of_nat n) by
    (intros; by rewrite zlen_cons, zlen_le_bytes).
  assert (Hsl : forall b n, slice (b :: le_bytes n v ++ rest) 1 (1 + Z.of_nat n) = Ok (le_bytes n v)).
  { intros. apply (slice_mid [b] (le_bytes n v) rest); [done|]. rewrite zlen_le_bytes, zlen_cons. done. }
  assert (Hl : forall b n, (zlen (b :: le_bytes n v ++ rest) <? 1 + Z.of_nat n) = false).
  { intros. apply Z.ltb_ge. rewrite zlen_cons, zlen_app, zlen_le_bytes. pose proof (zlen_nonneg rest). lia. }
  repeat case_match; cbn [app]; unfold decodeMVCVarInt.
  - do 3 (rewrite (proj2 (Z.eqb_neq _ _)) by lia). done.
  - cbn [Z.eqb Pos.eqb]. rewrite (Hl 253 2%nat : (_ <? 3) = _), (Hsl 253 2%nat : slice _ 1 3 = _).
    rewrite le_val_bytes by lia. by rewrite Hs.
  - cbn [Z.eqb Pos.eqb]. rewrite (Hl 254 4%nat : (_ <? 5) = _), (Hsl 254 4%nat : slice _ 1 5 = _).
    rewrite le_val_bytes by lia. by rewrite Hs.
  - cbn [Z.eqb Pos.eqb]. rewrite (Hl 255 8%nat : (_ <? 9) = _), (Hsl 255 8%nat : slice _ 1 9 = _).
    rewrite le_val_bytes by lia. rewrite (proj2 (Z.ltb_ge _ _)) by lia. by rewrite Hs.
Qed.

Lemma decode_varint_range buf v n :
  bytes_ok buf -> decodeMVCVarInt buf = Ok (v, n) -> 0 <= v < 2 ^ 63 /\ 1 <= n <= zlen buf.
Proof.
  intros Hb. unfold decodeMVCVarInt. destruct buf as [|b0 buf]; [done|].
  pose proof (Forall_inv Hb) as Hb0. unfold byte_ok in Hb0.
  assert (Hv : forall k v, slice (b0 :: buf) 1 (1 + Z.of_nat k) = Ok v -> (k <= 8)%nat ->
            0 <= le_val v < 2 ^ 64 /\ ((k <= 4)%nat -> le_val v < 2 ^ 32)).
  { intros k w Hw Hk. pose proof (slice_inv _ _ _ _ Hw) as Hi.
    destruct (slice_ok (b0 :: buf) 1 (1 + Z.of_nat k) ltac:(lia) ltac:(lia) ltac:(lia))
      as (w' & Hw' & Hl & HP). rewrite Hw in Hw'. injection Hw' as <-.
    pose proof (le_val_range w (HP _ Hb)) as Hr. rewrite Hl in Hr.
    split; [|intros Hk4].
    - assert (256 ^ (1 + Z.of_nat k - 1) <= 256 ^ 8) by (apply Z.pow_le_mono_r; lia). lia.
    - assert (256 ^ (1 + Z.of_nat k - 1) <= 256 ^ 4) by (apply Z.pow_le_mono_r; lia). lia. }
  pose proof (zlen_nonneg buf).
  repeat (case_match; try done); intros [= <- <-]; rewrite ?Z.ltb_ge in *; subst.
  - destruct (Hv 2%nat _ ltac:(eassumption) ltac:(lia)). lia.
  - destruct (Hv 4%nat _ ltac:(eassumption) ltac:(lia)). lia.
  - destruct (Hv 8%nat _ ltac:(eassumption) ltac:(lia)). lia.
  - rewrite zlen_cons. lia.
Qed.
Lemma decode_fuelled buf : fuelled (decodeMVCVarInt buf).
Proof.
  unfold decodeMVCVarInt. destruct buf as [|b0 buf]; [done|].
  repeat (apply fuelled_if; [|]); try done; apply fuelled_bind; try apply fuelled_slice; try done.
  intros v _. cbv zeta. by apply fuelled_if.
Qed.

(** ** The readers *)

Definition raw_in (i : TxIn) : mvcRawTxIn :=
  mkRawIn (op_Hash (in_PreviousOutPoint i)) (le_bytes 4 (op_Index (in_PreviousOutPoint i)))
    (in_SignatureScript i) (le_bytes 4 (in_Sequence i)).
Definition raw_out (o : TxOut) : mvcRawTxOut := mkRawOut (le_bytes 8 (out_Value o)) (out_PkScript o).
Definition raw_tx (tx : MsgTx) : mvcRawTx :=
  mkRawTx (le_bytes 4 (tx_Version tx)) (map raw_in (tx_TxIn tx)) (map raw_out (tx_TxOut tx))
    (le_bytes 4 (tx_LockTime tx)).

(** Cut a concatenation at a given offset. *)
Ltac at_offset pre x post :=
  match goal with |- context [slice ?l ?a ?b] =>
    replace (slice l a b) with (Ok x) by
      (symmetry; replace l with (pre ++ x ++ post) by (by rewrite ?app_nil_r, <- ?app_assoc);
       apply slice_mid; rewrite ?zlen_app, ?zlen_le_bytes, ?zlen_nil; lia)
  end.

#[export] Instance in_reads : Reads parse_in enc_in raw_in wf_in.
Proof.
  split.
  - intros pre [[h ix] script wit sq] rest (Hh & _ & _ & Hix & Hsq) Hsz.
    unfold enc_in, var_bytes, raw_in in *.
    cbn [in_PreviousOutPoint op_Hash op_Index in_SignatureScript in_Sequence] in *.
    assert (Hh' : zlen h = 32) by (unfold zlen; lia).
    pose proof (varint_size (zlen script)) as Hvs.
    assert (Hsum : zlen (pre ++ (h ++ le_bytes 4 ix ++ (varint (zlen script) ++ script) ++ le_bytes 4 sq) ++ rest)
              = zlen pre + 40 + zlen (varint (zlen script)) + zlen script + zlen rest).
    { rewrite !zlen_app, !zlen_le_bytes, Hh'. lia. }
    set (raw := pre ++ _ ++ rest) in *.
    pose proof (zlen_nonneg pre). pose proof (zlen_nonneg rest). pose proof (zlen_nonneg script).
    assert (Hraw : raw = pre ++ h ++ le_bytes 4 ix ++ varint (zlen script) ++ script ++ le_bytes 4 sq ++ rest)
      by (subst raw; by rewrite <- !app_assoc).
    unfold parse_in. rewrite (proj2 (Z.ltb_ge _ _)) by lia. rewrite Hraw.
    at_offset pre h (le_bytes 4 ix ++ varint (zlen script) ++ script ++ le_bytes 4 sq ++ rest).
    at_offset (pre ++ h) (le_bytes 4 ix) (varint (zlen script) ++ script ++ le_bytes 4 sq ++ rest).
    at_offset (pre ++ h ++ le_bytes 4 ix) (varint (zlen script) ++ script ++ le_bytes 4 sq ++ rest) (@nil Z).
    rewrite decode_varint by lia. cbv zeta. rewrite <- Hraw.
    rewrite !wrap64_id by (unfold in_i64; lia). rewrite (proj2 (Z.ltb_ge _ _)) by lia. rewrite Hraw.
    at_offset (pre ++ h ++ le_bytes 4 ix ++ varint (zlen script)) script (le_bytes 4 sq ++ rest).
    at_offset (pre ++ h ++ le_bytes 4 ix ++ varint (zlen script) ++ script) (le_bytes 4 sq) rest.
    do 2 f_equal. rewrite !zlen_app, !zlen_le_bytes. lia.
  - intros i (Hh & _). unfold enc_in. rewrite zlen_app. unfold zlen at 1. rewrite Hh.
    pose proof (zlen_nonneg (le_bytes 4 (op_Index (in_PreviousOutPoint i)) ++
      var_bytes (in_SignatureScript i) ++ le_bytes 4 (in_Sequence i))). lia.
Qed.
#[export] Instance out_reads : Reads parse_out enc_out raw_out wf_out.
Proof.
  split.
  - intros pre [v script] rest _ Hsz. unfold enc_out, var_bytes, raw_out in *.
    cbn [out_Value out_PkScript] in *.
    pose proof (varint_size (zlen script)) as Hvs.
    assert (Hsum : zlen (pre ++ (le_bytes 8 v ++ varint (zlen script) ++ script) ++ rest)
              = zlen pre + 8 + zlen (varint (zlen script)) + zlen script + zlen rest).
    { rewrite !zlen_app, !zlen_le_bytes. lia. }
    set (raw := pre ++ _ ++ rest) in *.
    pose proof (zlen_nonneg pre). pose proof (zlen_nonneg rest). pose proof (zlen_nonneg script).
    assert (Hraw : raw = pre ++ le_bytes 8 v ++ varint (zlen script) ++ script ++ rest)
      by (subst raw; by rewrite <- !app_assoc).
    unfold parse_out. rewrite (proj2 (Z.ltb_ge _ _)) by lia. rewrite Hraw.
    at_offset pre (le_bytes 8 v) (varint (zlen script) ++ script ++ rest).
    at_offset (pre ++ le_bytes 8 v) (varint (zlen script) ++ script ++ rest) (@nil Z).
    rewrite decode_varint by lia. cbv zeta. rewrite <- Hraw.
    rewrite !wrap64_id by (unfold in_i64; lia). rewrite (proj2 (Z.ltb_ge _ _)) by lia. rewrite Hraw.
    at_offset (pre ++ le_bytes 8 v ++ varint (zlen script)) script rest.
    do 2 f_equal. rewrite !zlen_app, !zlen_le_bytes. lia.
  - intros o _. unfold enc_out. rewrite zlen_app, zlen_le_bytes.
    pose proof (zlen_nonneg (var_bytes (out_PkScript o))). lia.
Qed.

(** ** The parser inverts the encoding *)

Lemma parse_counted_encode {A B} (read : list Z -> Z -> res (B * Z)) (enc : A -> list Z) view valid
    {R : Reads read enc view valid} pre l rest raw i :
  raw = pre ++ varint (zlen l) ++ concat (map enc l) ++ rest -> i = zlen pre -> zlen raw < 2 ^ 62 ->
  l <> [] -> Forall valid l ->
  parse_counted read raw i = Ok (map view l, zlen (pre ++ varint (zlen l) ++ concat (map enc l))).
Proof.
  intros Hraw Hi Hsz Hne Hl. pose proof (encode_length read enc view valid l Hl) as Hlen.
  assert (Htot : zlen raw = zlen pre + zlen (varint (zlen l)) + zlen (concat (map enc l)) + zlen rest)
    by (rewrite Hraw, !zlen_app; lia).
  pose proof (zlen_nonneg pre). pose proof (zlen_nonneg rest). pose proof (varint_size (zlen l)).
  pose proof (zlen_nonneg l).
  unfold parse_counted. rewrite Hraw at 1.
  rewrite (slice_to_end pre) by (done || by rewrite Hraw).
  rewrite decode_varint by lia. cbv beta iota zeta.
  rewrite (proj2 (Z.eqb_neq _ _)).
  2: { destruct l; [done|]. rewrite zlen_cons. pose proof (zlen_nonneg l). lia. }
  replace (i + _) with (zlen (pre ++ varint (zlen l))) by (rewrite zlen_app; lia).
  pose proof (count_loop_encode read enc view valid (pre ++ varint (zlen l)) l rest Hl) as Hc.
  rewrite <- !app_assoc in Hc. rewrite <- Hraw in Hc.
  apply Hc; [done|]. unfold zlen in *. lia.
Qed.

(** The parser recovers from the wire form of any transaction with inputs
    and outputs its version, lock time, outpoints, scripts, sequence numbers and
    amounts. *)
Theorem parse_base_encoding tx :
  wf_tx tx -> tx_TxIn tx <> [] -> tx_TxOut tx <> [] ->
  parseMVCMetaIDRawTx (base_encoding tx) = Ok (raw_tx tx).
Proof.
  intros (_ & _ & Hin & Hout & Hsz) Hni Hno. unfold parseMVCMetaIDRawTx.
  set (raw := base_encoding tx) in *.
  set (ver := le_bytes 4 (tx_Version tx)). set (lock := le_bytes 4 (tx_LockTime tx)).
  set (ins := varint (zlen (tx_TxIn tx)) ++ concat (map enc_in (tx_TxIn tx))).
  set (outs := varint (zlen (tx_TxOut tx)) ++ concat (map enc_out (tx_TxOut tx))).
  assert (Hraw : raw = ver ++ ins ++ outs ++ lock).
  { unfold raw, base_encoding, ins, outs. by rewrite <- !app_assoc. }
  assert (Hv : zlen ver = 4) by apply zlen_le_bytes. assert (Hk : zlen lock = 4) by apply zlen_le_bytes.
  assert (Htot : zlen raw = 4 + zlen ins + zlen outs + 4) by (rewrite Hraw, !zlen_app; lia).
  assert (Hlong : 1 <= zlen ins /\ 1 <= zlen outs).
  { unfold ins, outs. rewrite !zlen_app. pose proof (varint_size (zlen (tx_TxIn tx))).
    pose proof (varint_size (zlen (tx_TxOut tx))).
    pose proof (zlen_nonneg (concat (map enc_in (tx_TxIn tx)))).
    pose proof (zlen_nonneg (concat (map enc_out (tx_TxOut tx)))). lia. }
  rewrite (proj2 (Z.ltb_ge _ _)) by lia.
  rewrite Hraw at 1.
  rewrite (slice_mid [] ver (ins ++ outs ++ lock) 0 4 ltac:(done) ltac:(by rewrite Hv)
    : slice (ver ++ ins ++ outs ++ lock) 0 4 = _).
  rewrite (parse_counted_encode parse_in enc_in raw_in wf_in ver (tx_TxIn tx) (outs ++ lock));
    [|by unfold raw, base_encoding, ins, outs; rewrite <- ?app_assoc|done..].
  cbn [fst snd]. fold ins.
  rewrite (parse_counted_encode parse_out enc_out raw_out wf_out (ver ++ ins) (tx_TxOut tx) lock);
    [|by rewrite Hraw; unfold outs; rewrite <- ?app_assoc|done..].
  cbn [fst snd]. fold outs. rewrite <- app_assoc.
  rewrite (proj2 (Z.eqb_eq _ _)) by (rewrite !zlen_app; lia). cbn [negb].
  rewrite Hraw. rewrite !app_assoc. rewrite (slice_to_end ((ver ++ ins) ++ outs)); [done|done|].
  rewrite !zlen_app. lia.
Qed.

(** ** The parser terminates *)

Lemma in_advances raw : bytes_ok raw -> zlen raw < 2 ^ 62 -> advances parse_in raw.
Proof.
  intros Hb Hsz i Hi. unfold parse_in. split.
  - apply fuelled_if; [done|]. do 3 (apply fuelled_bind; [apply fuelled_slice|intros ? _]).
    cbv zeta. apply fuelled_bind; [apply decode_fuelled|]. intros [scriptLen size] _.
    apply fuelled_if; [done|]. do 2 (apply fuelled_bind; [apply fuelled_slice|intros ? _]). done.
  - intros a j. destruct (Z.ltb_spec (zlen raw) (i + 36)); [done|].
    destruct (slice_ok raw (i + 36) (zlen raw)) as (buf & Hbuf & Hl & HP); [lia..|].
    destruct (slice raw i (i + 32)); [|done]. destruct (slice raw (i + 32) (i + 36)); [|done].
    cbv zeta. rewrite Hbuf. destruct (decodeMVCVarInt buf) as [[v n]|] eqn:Ed; [|done].
    destruct (decode_varint_range buf v n (HP _ Hb) Ed) as [Hv Hn].
    case_match; [done|]. destruct (slice raw _ (wrap64 _)) eqn:E1; [|done].
    destruct (slice raw (wrap64 _) _) eqn:E2; [|done]. intros [= <- <-].
    apply slice_inv in E1, E2. lia.
Qed.
Lemma out_advances raw : bytes_ok raw -> zlen raw < 2 ^ 62 -> advances parse_out raw.
Proof.
  intros Hb Hsz i Hi. unfold parse_out. split.
  - apply fuelled_if; [done|]. do 2 (apply fuelled_bind; [apply fuelled_slice|intros ? _]).
    cbv zeta. apply fuelled_bind; [apply decode_fuelled|]. intros [scriptLen size] _.
    apply fuelled_if; [done|]. apply fuelled_bind; [apply fuelled_slice|by intros ? _].
  - intros a j. destruct (Z.ltb_spec (zlen raw) (i + 8)); [done|].
    destruct (slice_ok raw (i + 8) (zlen raw)) as (buf & Hbuf & Hl & HP); [lia..|].
    destruct (slice raw i (i + 8)); [|done]. cbv zeta. rewrite Hbuf.
    destruct (decodeMVCVarInt buf) as [[v n]|] eqn:Ed; [|done].
    destruct (decode_varint_range buf v n (HP _ Hb) Ed) as [Hv Hn].
    case_match; [done|]. destruct (slice raw _ (wrap64 _)) eqn:E1; [|done]. intros [= <- <-].
    apply slice_inv in E1. lia.
Qed.
Lemma parse_counted_advances {A} (read : list Z -> Z -> res (A * Z)) raw i :
  advances read raw -> bytes_ok raw -> 0 <= i <= zlen raw ->
  fuelled (parse_counted read raw i)
  /\ forall l j, parse_counted read raw i = Ok (l, j) -> i < j <= zlen raw.
Proof.
  intros Hadv Hb Hi. unfold parse_counted.
  destruct (slice_ok raw i (zlen raw)) as (buf & Hbuf & Hl & HP); [lia..|]. rewrite Hbuf.
  pose proof (decode_fuelled buf) as Hfd.
  destruct (decodeMVCVarInt buf) as [[count n]|e] eqn:Ed; [|split; [intros E; apply Hfd; congruence|done]].
  destruct (decode_varint_range buf count n (HP _ Hb) Ed) as [_ Hn].
  cbv beta iota zeta. case_match; [done|].
  destruct (count_loop_advances read raw (S (length raw)) count (i + n)) as [H1 H2];
    [done|lia|unfold zlen; lia|].
  split; [done|]. intros l j E. specialize (H2 l j E). lia.
Qed.

(** Parsing ends on every byte string: a count that promises more items than
    there are bytes, up to 2^63 - 1, fails after at most one round per byte. *)
Theorem parse_terminates raw :
  bytes_ok raw -> zlen raw < 2 ^ 62 -> parseMVCMetaIDRawTx raw <> Err "out of fuel".
Proof.
  intros Hb Hsz. unfold parseMVCMetaIDRawTx. case_match eqn:E; [done|]. apply Z.ltb_ge in E.
  apply fuelled_bind; [apply fuelled_slice|]. intros version _.
  destruct (parse_counted_advances parse_in raw 4) as [H1 H2];
    [by apply in_advances|done|lia|].
  apply fuelled_bind; [done|]. intros [ins i] E1. specialize (H2 ins i E1).
  destruct (parse_counted_advances parse_out raw i) as [H3 H4]; [by apply out_advances|done|lia|].
  apply fuelled_bind; [done|]. intros [outs j] E2. cbn [fst snd].
  apply fuelled_if; [done|]. by apply fuelled_bind; [apply fuelled_slice|].
Qed.

(** A script length of 2^63 - 1 wraps the bound that is tested, and the slice
    expression panics: the length check does not protect the parser. *)
Lemma script_length_overflow_panics :
  parseMVCMetaIDRawTx (replicate 4 0 ++ [1] ++ replicate 36 0 ++ 0xff :: replicate 7 0xff ++ [0x7f])
  = Err "panic: slice bounds out of range".
Proof. reflexivity. Qed.

(** ** The id *)

Section MvcId.
Context {BT : Btcd}.

(** Whether the id is computed from the fields. *)
Definition has_mvc_id (tx : MsgTx) : bool :=
  negb (tx_Version tx <? 10) && negb (HasWitness tx)
  && negb (bool_decide (tx_TxIn tx = [])) && negb (bool_decide (tx_TxOut tx = [])).

Lemma parse_no_inputs ver rest :
  zlen ver = 4 -> 5 <= zlen rest ->
  parseMVCMetaIDRawTx (ver ++ 0 :: rest) = Err "invalid transaction data".
Proof.
  intros Hv Hr. unfold parseMVCMetaIDRawTx.
  rewrite (proj2 (Z.ltb_ge _ _)) by (rewrite zlen_app, zlen_cons; lia).
  rewrite (slice_mid [] ver (0 :: rest) 0 4 ltac:(done) ltac:(by rewrite Hv)
    : slice (ver ++ 0 :: rest) 0 4 = _).
  unfold parse_counted. rewrite (slice_to_end ver (0 :: rest)) by (done || by rewrite Hv). done.
Qed.
Lemma parse_no_outputs tx :
  wf_tx tx -> tx_TxIn tx <> [] -> tx_TxOut tx = [] ->
  parseMVCMetaIDRawTx (base_encoding tx) = Err "invalid transaction data".
Proof.
  intros (_ & _ & Hin & _ & Hsz) Hni Hno. unfold parseMVCMetaIDRawTx, base_encoding in *. rewrite Hno in *.
  cbn [map concat app] in *. change (varint (zlen [])) with [0] in *. cbn [app] in *.
  set (ver := le_bytes 4 (tx_Version tx)) in *. set (lock := le_bytes 4 (tx_LockTime tx)) in *.
  set (ins := varint (zlen (tx_TxIn tx)) ++ concat (map enc_in (tx_TxIn tx))).
  rewrite (app_assoc (varint _)) in *. fold ins in Hsz |- *.
  assert (Hv : zlen ver = 4) by apply zlen_le_bytes. assert (Hk : zlen lock = 4) by apply zlen_le_bytes.
  assert (Hi : 1 <= zlen ins).
  { unfold ins. rewrite zlen_app. pose proof (varint_size (zlen (tx_TxIn tx))).
    pose proof (zlen_nonneg (concat (map enc_in (tx_TxIn tx)))). lia. }
  rewrite (proj2 (Z.ltb_ge _ _)) by (rewrite !zlen_app, zlen_cons; lia).
  rewrite (slice_mid [] ver (ins ++ 0 :: lock) 0 4 ltac:(done) ltac:(by rewrite Hv)
    : slice (ver ++ ins ++ 0 :: lock) 0 4 = _).
  rewrite (parse_counted_encode parse_in enc_in raw_in wf_in ver (tx_TxIn tx) (0 :: lock));
    [|by unfold ins; rewrite <- ?app_assoc|done..].
  cbn [fst snd]. fold ins. unfold parse_counted. rewrite app_assoc.
  by rewrite (slice_to_end (ver ++ ins) (0 :: lock)).
Qed.

(** C12: the id under which an OP_RETURN pin is published: below version 10 the
    transaction hash; from version 10 on the double SHA-256 of the version, lock
    time, counts and the hashes of the inputs, the input scripts and the
    outputs; except that a transaction with a witness, or without inputs or
    outputs, falls back to the transaction hash.  Computing it never panics. *)
Theorem pin_hash_exact tx :
  wf_tx tx ->
  pin_hash tx = Ok (if has_mvc_id tx then doubleSHA256ReversedHex (manRaw (raw_tx tx)) else TxHash tx).
Proof.
  intros Hwf. unfold pin_hash, mvcMetaIDTxHash, has_mvc_id.
  destruct (tx_Version tx <? 10); [done|]. cbn [negb andb].
  destruct (HasWitness tx) eqn:Hw.
  - destruct (Serialize_witness tx Hwf Hw) as (rest & -> & Hr). cbn [negb andb].
    by rewrite parse_no_inputs by (rewrite ?zlen_le_bytes, ?zlen_cons; lia).
  - rewrite Serialize_base by done. cbn [negb andb]. case_bool_decide as Hi; cbn [negb andb].
    { assert (Hr : 5 <= zlen (varint (zlen (tx_TxOut tx)) ++ concat (map enc_out (tx_TxOut tx))
                              ++ le_bytes 4 (tx_LockTime tx))
                   \/ tx_TxOut tx = []).
      { destruct (tx_TxOut tx) as [|o outs]; [by right|left]. rewrite !zlen_app, zlen_le_bytes.
        pose proof (varint_size (zlen (o :: outs))). cbn [map concat]. unfold enc_out at 1.
        rewrite !zlen_app, zlen_le_bytes. pose proof (zlen_nonneg (var_bytes (out_PkScript o))).
        pose proof (zlen_nonneg (concat (map enc_out outs))). lia. }
      unfold base_encoding. rewrite Hi. cbn [map concat app]. change (varint (zlen [])) with [0].
      destruct Hr as [Hr|Ho].
      - cbn [app]. by rewrite parse_no_inputs by (done || apply zlen_le_bytes).
      - rewrite Ho. cbn [map concat app]. change (varint (zlen [])) with [0]. cbn [app].
        by rewrite parse_no_inputs by (rewrite ?zlen_cons, ?zlen_le_bytes; lia). }
    case_bool_decide as Ho; cbn [negb].
    { by rewrite parse_no_outputs. }
    by rewrite parse_base_encoding.
Qed.

(** *** The id binds the transaction *)

(** The byte strings that are hashed on the way to the id. *)
Definition hashed (tx : MsgTx) : list (list Z) :=
  let r := raw_tx tx in
  [manRaw r; Sum256 (manRaw r);
   concat (map (fun i => ri_txid i ++ ri_vout i ++ ri_sequence i) (rt_inputs r));
   concat (map (fun i => Sum256 (ri_scriptSig i)) (rt_inputs r));
   concat (map (fun o => ro_amount o ++ Sum256 (ro_script o)) (rt_outputs r))]
  ++ map ri_scriptSig (rt_inputs r) ++ map ro_script (rt_outputs r).
Definition collides (tx tx' : MsgTx) : Prop :=
  Exists (fun a => Exists (fun b => a <> b /\ Sum256 a = Sum256 b) (hashed tx')) (hashed tx).

Lemma concat_chunks {A} (f : A -> list Z) n l l' :
  (0 < n)%nat -> Forall (fun a => length (f a) = n) l -> Forall (fun a => length (f a) = n) l' ->
  concat (map f l) = concat (map f l') -> map f l = map f l'.
Proof.
  intros Hn Hl. revert l'. induction Hl as [|a l Ha Hl IH]; intros [|b l'] Hl' H; [done| | |].
  - cbn in H. symmetry in H. apply app_eq_nil in H as [H _]. apply Forall_inv in Hl'. cbn in Hl'.
    rewrite H in Hl'. simpl in Hl'. lia.
  - cbn in H. apply app_eq_nil in H as [H _]. rewrite H in Ha. simpl in Ha. lia.
  - cbn in H |- *. inversion Hl'; subst. apply app_inj_1 in H as [-> H]; [|lia]. f_equal. by apply IH.
Qed.

Lemma raw_in_inj l l' :
  map (fun i => ri_txid i ++ ri_vout i ++ ri_sequence i) (map raw_in l)
    = map (fun i => ri_txid i ++ ri_vout i ++ ri_sequence i) (map raw_in l') ->
  map (fun i => Sum256 (ri_scriptSig i)) (map raw_in l)
    = map (fun i => Sum256 (ri_scriptSig i)) (map raw_in l') ->
  (forall i i', i ∈ l -> i' ∈ l' -> Sum256 (in_SignatureScript i) = Sum256 (in_SignatureScript i') ->
    in_SignatureScript i = in_SignatureScript i') ->
  Forall wf_in l -> Forall wf_in l' ->
  Forall (fun i => in_Witness i = []) l -> Forall (fun i => in_Witness i = []) l' -> l = l'.
Proof.
  revert l'. induction l as [|[[h ix] s w q] l IH]; intros [|[[h' ix'] s' w' q'] l']; try done.
  cbn. intros [= H1 H2] [= H3 H4] Hs Hwf Hwf' Hw Hw'.
  inversion Hwf as [|?? (Hh & _ & _ & Hix & Hq) Hwfl]; subst.
  inversion Hwf' as [|?? (Hh' & _ & _ & Hix' & Hq') Hwfl']; subst. cbn in *.
  inversion Hw; inversion Hw'; subst. cbn in *. subst.
  apply app_inj_1 in H1 as [-> H1]; [|lia].
  change (le_bytes 4 ix ++ le_bytes 4 q = le_bytes 4 ix' ++ le_bytes 4 q') in H1.
  apply app_inj_1 in H1 as [H1 H5]; [|by rewrite !le_bytes_length].
  apply (le_bytes_inj 4) in H1 as ->; [|lia..]. apply (le_bytes_inj 4) in H5 as ->; [|lia..].
  assert (s = s') as -> by (eapply (Hs (mkTxIn _ s _ _) (mkTxIn _ s' _ _)); [left|left|done]).
  f_equal. apply IH; try done. intros i i' Hi Hi'. by apply Hs; right.
Qed.
Lemma raw_out_inj l l' :
  map (fun o => ro_amount o ++ Sum256 (ro_script o)) (map raw_out l)
    = map (fun o => ro_amount o ++ Sum256 (ro_script o)) (map raw_out l') ->
  (forall o o', o ∈ l -> o' ∈ l' -> Sum256 (out_PkScript o) = Sum256 (out_PkScript o') ->
    out_PkScript o = out_PkScript o') ->
  Forall wf_out l -> Forall wf_out l' -> l = l'.
Proof.
  revert l'. induction l as [|[v s] l IH]; intros [|[v' s'] l']; try done.
  intros H Hs Hwf Hwf'. cbn [map raw_out ro_amount ro_script out_Value out_PkScript] in H.
  apply (inj2 cons) in H as [H1 H2].
  inversion Hwf as [|?? [Hv _] Hwfl]; subst. inversion Hwf' as [|?? [Hv' _] Hwfl']; subst. cbn in Hv, Hv'.
  change (le_bytes 8 v ++ Sum256 s = le_bytes 8 v' ++ Sum256 s') in H1.
  apply app_inj_1 in H1 as [H1 H3]; [|by rewrite !le_bytes_length].
  assert (s = s') as -> by (eapply (Hs (mkTxOut v s) (mkTxOut v' s')); [left|left|done]).
  apply (le_bytes_signed 8) in H1 as ->; [|lia..].
  f_equal. apply IH; try done. intros o o' Ho Ho'. by apply Hs; right.
Qed.

Lemma doubleSHA256_inj a b :
  doubleSHA256ReversedHex a = doubleSHA256ReversedHex b -> Sum256 (Sum256 a) = Sum256 (Sum256 b).
Proof.
  unfold doubleSHA256ReversedHex. intros H. apply (f_equal hex_DecodeString) in H.
  rewrite !hex_roundtrip in H by (apply Forall_rev, Sum256_bytes). injection H as H.
  by rewrite <- (rev_involutive (Sum256 (Sum256 a))), H, rev_involutive.
Qed.
Lemma sum_length l : length (Sum256 l) = 32%nat.
Proof. apply Sum256_length. Qed.

Lemma in_chunk l :
  Forall wf_in l ->
  Forall (fun i => length (ri_txid i ++ ri_vout i ++ ri_sequence i) = 40%nat) (map raw_in l).
Proof.
  intros H. apply Forall_map. eapply Forall_impl; [exact H|]. intros [[h ix] s w q] [Hh _].
  unfold compose. cbn [raw_in ri_txid ri_vout ri_sequence in_PreviousOutPoint op_Hash op_Index in_Sequence] in *.
  by rewrite !length_app, !le_bytes_length, Hh.
Qed.
Lemma out_chunk l : Forall (fun o => length (ro_amount o ++ Sum256 (ro_script o)) = 40%nat) (map raw_out l).
Proof.
  apply Forall_map, Forall_true. intros [v s]. unfold compose.
  cbn [raw_out ro_amount ro_script out_Value out_PkScript].
  by rewrite length_app, le_bytes_length, sum_length.
Qed.
Lemma script_hashed tx i : i ∈ tx_TxIn tx -> in_SignatureScript i ∈ hashed tx.
Proof.
  intros H. apply elem_of_app. right. apply elem_of_app. left. cbn [raw_tx rt_inputs]. rewrite map_map.
  by apply list_elem_of_In, (in_map (fun i => in_SignatureScript i)), list_elem_of_In.
Qed.
Lemma output_hashed tx o : o ∈ tx_TxOut tx -> out_PkScript o ∈ hashed tx.
Proof.
  intros H. apply elem_of_app. right. apply elem_of_app. right. cbn [raw_tx rt_outputs]. rewrite map_map.
  by apply list_elem_of_In, (in_map (fun o => out_PkScript o)), list_elem_of_In.
Qed.
Ltac in_hashed :=
  unfold hashed; cbv zeta; apply elem_of_app; left;
  repeat (apply elem_of_cons; first [left; reflexivity | right]).

(** What [manRaw] determines when no two of the hashed strings collide. *)
Lemma manRaw_inj tx tx' :
  wf_tx tx -> wf_tx tx' ->
  (forall a b, a ∈ hashed tx -> b ∈ hashed tx' -> Sum256 a = Sum256 b -> a = b) ->
  Forall (fun i => in_Witness i = []) (tx_TxIn tx) -> Forall (fun i => in_Witness i = []) (tx_TxIn tx') ->
  manRaw (raw_tx tx) = manRaw (raw_tx tx') -> tx = tx'.
Proof.
  intros (Hv & Hk & Hi & Ho & _) (Hv' & Hk' & Hi' & Ho' & _) Hinj Hw Hw' H.
  unfold manRaw, uint32LittleEndian, sha256Bytes in H. cbv zeta in H.
  cbn [raw_tx rt_version rt_lockTime] in H.
  apply app_inj_1 in H as [E1 H]; [|by rewrite !le_bytes_length].
  apply app_inj_1 in H as [E2 H]; [|by rewrite !le_bytes_length].
  apply app_inj_1 in H as [_ H]; [|by rewrite !le_bytes_length].
  apply app_inj_1 in H as [_ H]; [|by rewrite !le_bytes_length].
  apply app_inj_1 in H as [E3 H]; [|by rewrite !sum_length].
  apply app_inj_1 in H as [E4 E5]; [|by rewrite !sum_length].
  apply (le_bytes_signed 4) in E1; [|lia..]. apply (le_bytes_inj 4) in E2; [|lia..].
  apply Hinj in E3; [|in_hashed..]. apply Hinj in E4; [|in_hashed..].
  apply Hinj in E5; [|in_hashed..].
  apply (concat_chunks _ 40) in E3; [|lia|by apply in_chunk..].
  apply (concat_chunks _ 32) in E4; [|lia|by apply Forall_true; intros; apply sum_length..].
  apply (concat_chunks _ 40) in E5; [|lia|by apply out_chunk..].
  assert (tx_TxIn tx = tx_TxIn tx').
  { apply raw_in_inj; try done. intros. apply Hinj; [by apply script_hashed..|done]. }
  assert (tx_TxOut tx = tx_TxOut tx').
  { apply raw_out_inj; try done. intros. apply Hinj; [by apply output_hashed..|done]. }
  destruct tx, tx'; cbn in *; congruence.
Qed.

(** The MetaID transaction id binds the transaction: two transactions with
    the same id are equal, or two different byte strings hashed on the way to it
    have the same SHA-256. *)
Theorem mvc_id_binding tx tx' id :
  wf_tx tx -> wf_tx tx' -> has_mvc_id tx = true -> has_mvc_id tx' = true ->
  mvcMetaIDTxHash tx = Ok id -> mvcMetaIDTxHash tx' = Ok id -> tx = tx' \/ collides tx tx'.
Proof.
  intros Hwf Hwf' Hid Hid' H H'.
  assert (Hx : forall t, wf_tx t -> has_mvc_id t = true -> mvcMetaIDTxHash t = Ok id ->
            doubleSHA256ReversedHex (manRaw (raw_tx t)) = id /\ Forall (fun i => in_Witness i = []) (tx_TxIn t)).
  { clear. unfold has_mvc_id. intros t Hwf Hid H. rewrite !andb_true_iff, !negb_true_iff in Hid.
    destruct Hid as [[[Hv Hw] Hi] Ho]. rewrite bool_decide_eq_false in Hi, Ho.
    unfold mvcMetaIDTxHash in H. rewrite Hv, Serialize_base, parse_base_encoding in H by done.
    split; [congruence|]. apply Forall_forall. intros i Hin.
    destruct (in_Witness i) eqn:E; [done|]. exfalso.
    assert (HasWitness t = true); [|congruence]. apply HasWitness_spec, Exists_exists.
    exists i. split; [done|]. by rewrite E. }
  destruct (Hx tx) as [E1 W1]; [done..|]. destruct (Hx tx') as [E2 W2]; [done..|].
  destruct (decide (collides tx tx')) as [|Hn]; [by right|left].
  assert (Hinj : forall a b, a ∈ hashed tx -> b ∈ hashed tx' -> Sum256 a = Sum256 b -> a = b).
  { intros a b Ha Hb E. destruct (decide (a = b)); [done|]. exfalso. apply Hn, Exists_exists.
    exists a. split; [done|]. apply Exists_exists. by exists b. }
  rewrite <- E2 in E1. apply doubleSHA256_inj in E1.
  apply Hinj in E1; [|in_hashed..]. apply Hinj in E1; [|in_hashed..].
  by apply manRaw_inj.
Qed.
End MvcId.
