(* ===== verification/ChainSample.v ===== *)
(** * ChainSample: an instance of [Btcd]

    A small [Btcd] on which the witnesses of the chain theorems evaluate: it
    classifies a script by its first byte, tokenizes pushes of up to 75 bytes,
    writes and reads the base encoding, and has a constant-time stand-in for
    SHA-256.  It shows that the laws of the class can hold together. *)

From S2P Require Import Prelude GoText Wire Chain ChainMvc ChainMvcFacts.

(** ** A reader of the base encoding *)

Definition signed (bits v : Z) : Z := if v <? 2 ^ (bits - 1) then v else v - 2 ^ bits.
Lemma signed_le n v :
  (0 < n)%nat -> - 256 ^ Z.of_nat n <= 2 * v < 256 ^ Z.of_nat n ->
  signed (8 * Z.of_nat n) (le_val (le_bytes n v)) = v.
Proof.
  intros Hn Hv. assert (E : 256 ^ Z.of_nat n = 2 ^ (8 * Z.of_nat n)) by (by rewrite Z.pow_mul_r by lia).
  assert (E2 : 2 ^ (8 * Z.of_nat n) = 2 * 2 ^ (8 * Z.of_nat n - 1))
    by (rewrite <- Z.pow_succ_r by lia; f_equal; lia).
  rewrite le_bytes_mod, le_val_bytes by (apply Z.mod_pos_bound; lia).
  rewrite E in *. unfold signed. set (B := 2 ^ (8 * Z.of_nat n)) in *.
  destruct (Z.lt_ge_cases v 0).
  - replace (v mod B) with (v + B).
    + rewrite (proj2 (Z.ltb_ge _ _)) by lia. lia.
    + symmetry. rewrite <- (Z_mod_plus_full v 1 B), Z.mul_1_l. apply Z.mod_small. lia.
  - rewrite Z.mod_small by lia. rewrite (proj2 (Z.ltb_lt _ _)) by lia. done.
Qed.

Definition sample_in (r : mvcRawTxIn) : TxIn :=
  mkTxIn (mkOutPoint (ri_txid r) (le_val (ri_vout r))) (ri_scriptSig r) [] (le_val (ri_sequence r)).
Definition sample_out (r : mvcRawTxOut) : TxOut := mkTxOut (signed 64 (le_val (ro_amount r))) (ro_script r).
Definition read_counted {A} (read : list Z -> Z -> res (A * Z)) (raw : list Z) (i : Z) : res (list A * Z) :=
  buf <-? slice raw i (zlen raw) ;;
  p <-? decodeMVCVarInt buf ;;
  count_loop (S (length raw)) (read raw) p.1 (i + p.2).
Definition sample_decode (data : list Z) : res (MsgTx * list Z) :=
  version <-? slice data 0 4 ;;
  ins <-? read_counted parse_in data 4 ;;
  outs <-? read_counted parse_out data ins.2 ;;
  lock <-? slice data outs.2 (outs.2 + 4) ;;
  let j := outs.2 + 4 in
  if j <? 10 then Err "short transaction" else
  rest <-? slice data j (zlen data) ;;
  Ok (mkTx (signed 32 (le_val version)) (map sample_in ins.1) (map sample_out outs.1) (le_val lock), rest).

Lemma sample_suffix data tx rest :
  sample_decode data = Ok (tx, rest) -> exists used, data = used ++ rest /\ 10 <= zlen used.
Proof.
  unfold sample_decode. destruct (slice data 0 4); [|done].
  destruct (read_counted parse_in data 4) as [ins|]; [|done].
  destruct (read_counted parse_out data ins.2) as [outs|]; [|done].
  destruct (slice data outs.2 _); [|done]. cbv zeta. destruct (Z.ltb_spec (outs.2 + 4) 10); [done|].
  destruct (slice data (outs.2 + 4) (zlen data)) as [r|] eqn:E; [|done]. intros [= _ <-].
  exists (take (Z.to_nat (outs.2 + 4)) data). pose proof (slice_inv _ _ _ _ E) as Hi.
  unfold slice in E. rewrite !(proj2 (Z.leb_le _ _)) in E by lia. cbn in E. injection E as <-.
  unfold zlen in *. split.
  - rewrite (take_ge (drop _ _)) by (rewrite length_drop; lia). by rewrite take_drop.
  - rewrite length_take. lia.
Qed.

Lemma read_counted_encode {A B} (read : list Z -> Z -> res (B * Z)) (enc : A -> list Z) view valid
    {R : Reads read enc view valid} pre l rest raw i :
  raw = pre ++ varint (zlen l) ++ concat (map enc l) ++ rest -> i = zlen pre -> zlen raw < 2 ^ 62 ->
  Forall valid l ->
  read_counted read raw i = Ok (map view l, zlen (pre ++ varint (zlen l) ++ concat (map enc l))).
Proof.
  intros Hraw Hi Hsz Hl. destruct l as [|a l].
  - unfold read_counted. cbn [map concat] in *. change (varint (zlen [])) with [0] in *.
    rewrite Hraw at 1. rewrite (slice_to_end pre) by (done || by rewrite Hraw). cbn [app decodeMVCVarInt].
    change (count_loop (S (length raw)) (read raw) 0 (i + 1)) with (@Ok (list B * Z) ([], i + 1)).
    rewrite zlen_app, Hi. done.
  - pose proof (parse_counted_encode read enc view valid pre (a :: l) rest raw i Hraw Hi Hsz ltac:(done) Hl) as H.
    unfold parse_counted in H. unfold read_counted.
    destruct (slice raw i (zlen raw)); [|done]. destruct (decodeMVCVarInt _) as [[c n]|]; [|done].
    cbv beta iota zeta in H. cbn [fst snd]. by destruct (c =? 0).
Qed.

Lemma sample_decode_encode tx rest :
  wf_tx tx -> Forall (fun i => in_Witness i = []) (tx_TxIn tx) ->
  zlen (base_encoding tx) <= 2 ^ 25 -> zlen rest < 2 ^ 61 ->
  sample_decode (base_encoding tx ++ rest) = Ok (tx, rest).
Proof.
  intros (Hver & Hlock & Hin & Hout & _) Hw Hs1 Hs2. unfold sample_decode.
  set (raw := base_encoding tx ++ rest) in *.
  set (ver := le_bytes 4 (tx_Version tx)). set (lock := le_bytes 4 (tx_LockTime tx)).
  set (ins := varint (zlen (tx_TxIn tx)) ++ concat (map enc_in (tx_TxIn tx))).
  set (outs := varint (zlen (tx_TxOut tx)) ++ concat (map enc_out (tx_TxOut tx))).
  assert (Hraw : raw = ver ++ ins ++ outs ++ lock ++ rest).
  { unfold raw, base_encoding, ins, outs. by rewrite <- !app_assoc. }
  assert (Hv : zlen ver = 4) by apply zlen_le_bytes. assert (Hk : zlen lock = 4) by apply zlen_le_bytes.
  assert (Hsz : zlen raw < 2 ^ 62) by (unfold raw; rewrite zlen_app; lia).
  assert (Hlong : 1 <= zlen ins /\ 1 <= zlen outs).
  { unfold ins, outs. rewrite !zlen_app. pose proof (varint_size (zlen (tx_TxIn tx))).
    pose proof (varint_size (zlen (tx_TxOut tx))).
    pose proof (zlen_nonneg (concat (map enc_in (tx_TxIn tx)))).
    pose proof (zlen_nonneg (concat (map enc_out (tx_TxOut tx)))). lia. }
  rewrite Hraw at 1.
  rewrite (slice_mid [] ver (ins ++ outs ++ lock ++ rest) 0 4 ltac:(done) ltac:(by rewrite Hv)
    : slice (ver ++ ins ++ outs ++ lock ++ rest) 0 4 = _).
  rewrite (read_counted_encode parse_in enc_in raw_in wf_in ver (tx_TxIn tx) (outs ++ lock ++ rest));
    [|by rewrite Hraw; unfold ins; rewrite <- ?app_assoc|done..].
  cbn [fst snd]. fold ins.
  rewrite (read_counted_encode parse_out enc_out raw_out wf_out (ver ++ ins) (tx_TxOut tx) (lock ++ rest));
    [|by rewrite Hraw; unfold outs; rewrite <- ?app_assoc|by rewrite zlen_app|done..].
  cbn [fst snd]. fold outs. rewrite Hraw.
  replace (ver ++ ins ++ outs ++ lock ++ rest) with (((ver ++ ins) ++ outs) ++ lock ++ rest)
    by (by rewrite <- !app_assoc).
  rewrite (slice_mid ((ver ++ ins) ++ outs) lock rest) by (done || by rewrite Hk).
  cbv zeta. rewrite (proj2 (Z.ltb_ge _ _)) by (rewrite !zlen_app; lia).
  rewrite (app_assoc _ lock rest).
  rewrite (slice_to_end (((ver ++ ins) ++ outs) ++ lock) rest) by (done || by rewrite (zlen_app _ lock), Hk).
  do 2 f_equal. unfold ver, lock.
  rewrite (signed_le 4 (tx_Version tx) ltac:(lia) ltac:(lia) : signed 32 _ = _). rewrite le_val_bytes by lia.
  rewrite !map_map. destruct tx as [v ti to lk]; cbn in *. f_equal.
  - clear -Hin Hw. induction Hin as [|[[h ix] s w q] l (_ & _ & _ & Hix & Hq) Hl IH]; [done|].
    inversion Hw; subst. cbn [map]. rewrite IH by done. cbn in *. subst. f_equal.
    unfold sample_in. cbn [raw_in ri_txid ri_vout ri_scriptSig ri_sequence in_PreviousOutPoint op_Hash op_Index in_SignatureScript in_Sequence].
    by rewrite !le_val_bytes by lia.
  - clear -Hout. induction Hout as [|[v s] l [Hv _] Hl IH]; [done|]. cbn [map]. rewrite IH. f_equal.
    unfold sample_out. cbn [raw_out ro_amount ro_script out_Value out_PkScript] in *.
    by rewrite (signed_le 8 v ltac:(lia) ltac:(lia) : signed 64 _ = _).
Qed.

(** ** The instance *)

(** Opcodes up to 75 push that many bytes, 76 and 77 are followed by the number in
    one and two bytes; fuel is the number of bytes. *)
Definition sample_push (op : Z) (script : list Z) : option (Z * list Z) :=
  if (1 <=? op) && (op <=? 75) then Some (op, script)
  else match script with
       | n :: script' => if op =? 76 then Some (n, script')
           else match script' with
                | m :: script'' => if op =? 77 then Some (n + 256 * m, script'') else None
                | [] => None end
       | [] => None end.
Fixpoint sample_tokens (fuel : nat) (script : list Z) : list (Z * option string) * bool :=
  match fuel, script with
  | S fuel, op :: script =>
      match sample_push op script with
      | Some (n, script) =>
          if zlen script <? n then ([], true)
          else let r := sample_tokens fuel (drop (Z.to_nat n) script) in
               ((op, Some (string_of_bytes (take (Z.to_nat n) script))) :: r.1, r.2)
      | None => let r := sample_tokens fuel script in ((op, None) :: r.1, r.2)
      end
  | _, _ => ([], false)
  end.
Definition has_witness (tx : MsgTx) : bool :=
  existsb (fun i => negb (Nat.eqb (length (in_Witness i)) 0)) (tx_TxIn tx).
Lemma has_witness_spec tx :
  has_witness tx = true <-> Exists (fun i => in_Witness i <> []) (tx_TxIn tx).
Proof.
  unfold has_witness. rewrite existsb_exists, Exists_exists.
  split; intros (i & Hi & H); exists i; rewrite <- list_elem_of_In in *; (split; [done|]);
    destruct (in_Witness i); done.
Qed.

Lemma no_witness tx : has_witness tx = false -> Forall (fun i => in_Witness i = []) (tx_TxIn tx).
Proof.
  intros Hw. apply Forall_forall. intros i Hi. destruct (in_Witness i) eqn:E; [done|]. exfalso.
  assert (has_witness tx = true); [|congruence]. apply has_witness_spec, Exists_exists.
  exists i. split; [done|]. by rewrite E.
Qed.

#[export] Instance sample_Btcd : Btcd.
Proof.
  refine {|
    ExtractPkScriptAddrs script :=
      match script with
      | [] => ("nonstandard", [])
      | b :: rest => if b =? OP_RETURN then ("nulldata", [])
                     else if b =? 0 then ("nonstandard", [])
                     else if b =? 0xa9 then ("pubkeyhash", [string_of_bytes rest])
                     else ("pubkeyhash", [hex_EncodeToString script])
      end;
    MakeScriptTokenizer script := sample_tokens (length script) script;
    Hash_String := hex_EncodeToString;
    TxHash tx := "tx" +:+ fmt_d (tx_LockTime tx);
    BlockHash b := "block" +:+ fmt_d (blk_Timestamp b);
    HasWitness := has_witness;
    Serialize tx := if has_witness tx then Ok (le_bytes 4 (tx_Version tx) ++ 0 :: 1 :: replicate 10 0)
                    else Ok (base_encoding tx);
    BtcDecode_base := sample_decode;
    BtcDecode_witness := sample_decode;
    Sum256 l := replicate 32 (foldr Z.add 0 l mod 256);
    HasWitness_spec := has_witness_spec |}.
  - by intros tx _ ->.
  - intros tx _ ->. by exists (replicate 10 0).
  - intros tx rest Hwf Hw. apply sample_decode_encode; [done|by apply no_witness].
  - intros tx rest Hwf Hw _. apply sample_decode_encode; [done|by apply no_witness].
  - intros data tx rest [H|H]; by apply sample_suffix in H.
  - intros l. apply length_replicate.
  - intros l. apply Forall_replicate, Z.mod_pos_bound. lia.
Defined.
