(* ===== verification/ChainDogeFacts.v ===== *)
(** * ChainDogeFacts: Dogecoin blocks

    The block parser inverts the encoding, with and without a merged-mining
    proof; on any other bytes it stops with an error, and the only panic is the
    allocation for the transaction count a block announces. *)

From S2P Require Import Prelude GoText Bits Aggregator Wire Chain ChainMvc ChainMvcFacts ChainDoge ChainSample.

Lemma readDogeVarInt_varint v rest :
  0 <= v < 2 ^ 64 -> readDogeVarInt (varint v ++ rest) = Ok (v, zlen (varint v)).
Proof.
  intros Hv. unfold varint.
  assert (Hs : forall b n, zlen (b :: le_bytes n v) = 1 + Z.of_nat n) by
    (intros; by rewrite zlen_cons, zlen_le_bytes).
  assert (Hsl : forall b n, slice (b :: le_bytes n v ++ rest) 1 (1 + Z.of_nat n) = Ok (le_bytes n v)).
  { intros. apply (slice_mid [b] (le_bytes n v) rest); [done|]. rewrite zlen_le_bytes, zlen_cons. done. }
  assert (Hl : forall b n, (zlen (b :: le_bytes n v ++ rest) <? 1 + Z.of_nat n) = false).
  { intros. apply Z.ltb_ge. rewrite zlen_cons, zlen_app, zlen_le_bytes. pose proof (zlen_nonneg rest). lia. }
  repeat case_match; cbn [app]; unfold readDogeVarInt.
  - do 3 (rewrite (proj2 (Z.eqb_neq _ _)) by lia). done.
  - cbn [Z.eqb Pos.eqb]. rewrite (Hl 253 2%nat : (_ <? 3) = _), (Hsl 253 2%nat : slice _ 1 3 = _).
    rewrite le_val_bytes by lia. by rewrite Hs.
  - cbn [Z.eqb Pos.eqb]. rewrite (Hl 254 4%nat : (_ <? 5) = _), (Hsl 254 4%nat : slice _ 1 5 = _).
    rewrite le_val_bytes by lia. by rewrite Hs.
  - cbn [Z.eqb Pos.eqb]. rewrite (Hl 255 8%nat : (_ <? 9) = _), (Hsl 255 8%nat : slice _ 1 9 = _).
    rewrite le_val_bytes by lia. by rewrite Hs.
Qed.
Lemma readDogeVarInt_range data v n :
  bytes_ok data -> readDogeVarInt data = Ok (v, n) -> 0 <= v < 2 ^ 64 /\ 1 <= n <= zlen data.
Proof.
  intros Hb. unfold readDogeVarInt. destruct data as [|b0 data]; [done|].
  pose proof (Forall_inv Hb) as Hb0. unfold byte_ok in Hb0.
  assert (Hv : forall k w, slice (b0 :: data) 1 (1 + Z.of_nat k) = Ok w -> (k <= 8)%nat ->
            0 <= le_val w < 2 ^ 64).
  { intros k w Hw Hk. pose proof (slice_inv _ _ _ _ Hw) as Hi.
    destruct (slice_ok (b0 :: data) 1 (1 + Z.of_nat k) ltac:(lia) ltac:(lia) ltac:(lia))
      as (w' & Hw' & Hl & HP). rewrite Hw in Hw'. injection Hw' as <-.
    pose proof (le_val_range w (HP _ Hb)) as Hr. rewrite Hl in Hr.
    assert (256 ^ (1 + Z.of_nat k - 1) <= 256 ^ 8) by (apply Z.pow_le_mono_r; lia). lia. }
  pose proof (zlen_nonneg data).
  repeat (case_match; try done); intros [= <- <-]; rewrite ?Z.ltb_ge in *; subst.
  - split; [by apply (Hv 8%nat); [eassumption|lia]|lia].
  - split; [by apply (Hv 4%nat); [eassumption|lia]|lia].
  - split; [by apply (Hv 2%nat); [eassumption|lia]|lia].
  - rewrite zlen_cons. lia.
Qed.
(** Its errors are never panics. *)
Lemma readDogeVarInt_errors data : errors (fun e => is_panic e = false) (readDogeVarInt data).
Proof.
  unfold readDogeVarInt. destruct data as [|b0 data]; [by apply errors_err|].
  do 3 (apply errors_if; intros ?; [apply errors_if; intros Hl; [by apply errors_err|];
    apply Z.ltb_ge in Hl; apply errors_bind; [apply errors_slice; lia|intros; apply errors_ok]|]).
  apply errors_ok.
Qed.

(** ** The encoding *)

(** A merged-mining proof: the coinbase of the parent block, its hash, the
    branches with their indices, the parent header. *)
Record AuxPoW := mkAuxPoW {
  ap_coinbase : MsgTx;
  ap_hash : list Z;
  ap_branch : list (list Z); ap_index : list Z;
  ap_aux_branch : list (list Z); ap_aux_index : list Z;
  ap_parent : list Z }.
Definition enc_branch (b : list (list Z)) : list Z := varint (zlen b) ++ concat b.
Definition enc_auxpow (a : AuxPoW) : list Z :=
  base_encoding (ap_coinbase a) ++ ap_hash a ++ enc_branch (ap_branch a) ++ ap_index a
  ++ enc_branch (ap_aux_branch a) ++ ap_aux_index a ++ ap_parent a.
Definition enc_block (header : list Z) (aux : option AuxPoW) (txs : list MsgTx) : list Z :=
  header ++ match aux with Some a => enc_auxpow a | None => [] end
  ++ varint (zlen txs) ++ concat (map base_encoding txs).
Definition wf_branch (b : list (list Z)) : Prop :=
  zlen b <= 256 /\ Forall (fun h : list Z => zlen h = 32) b.

Lemma branch_size b : Forall (fun h : list Z => zlen h = 32) b -> zlen (concat b) = zlen b * 32.
Proof.
  induction 1 as [|h b Hh _ IH]; [done|]. cbn [concat]. rewrite zlen_app, zlen_cons. lia.
Qed.
Lemma skip_branch pre b rest raw i :
  raw = pre ++ enc_branch b ++ rest -> i = zlen pre -> wf_branch b ->
  skipDogeHashBranch raw i = Ok (zlen (pre ++ enc_branch b)).
Proof.
  intros Hraw Hi [Hn Hb]. unfold skipDogeHashBranch. pose proof (zlen_nonneg b).
  assert (Hsz : zlen raw = zlen pre + (zlen (varint (zlen b)) + zlen b * 32) + zlen rest).
  { rewrite Hraw. unfold enc_branch. rewrite !zlen_app, branch_size by done. lia. }
  rewrite Hraw at 1. rewrite (slice_to_end pre) by (done || by rewrite Hraw).
  unfold enc_branch at 1. rewrite <- app_assoc. rewrite readDogeVarInt_varint by lia.
  rewrite (proj2 (Z.ltb_ge _ _)) by lia. cbv zeta. pose proof (zlen_nonneg rest).
  rewrite (proj2 (Z.ltb_ge _ _)) by lia.
  unfold enc_branch. rewrite !zlen_app, branch_size by done. f_equal. lia.
Qed.

Section DogeFacts.
Context {BT : Btcd}.

(** A transaction the parser is given: valid, without a witness, of a size
    btcd accepts. *)
Definition doge_tx (tx : MsgTx) : Prop :=
  wf_tx tx /\ HasWitness tx = false /\ zlen (base_encoding tx) <= 2 ^ 25.
Definition wf_auxpow (a : AuxPoW) : Prop :=
  doge_tx (ap_coinbase a) /\ tx_TxIn (ap_coinbase a) <> [] /\ zlen (ap_hash a) = 32
  /\ wf_branch (ap_branch a) /\ zlen (ap_index a) = 4
  /\ wf_branch (ap_aux_branch a) /\ zlen (ap_aux_index a) = 4 /\ zlen (ap_parent a) = 80.

Lemma skip_auxpow pre a rest raw i :
  raw = pre ++ enc_auxpow a ++ rest -> i = zlen pre -> zlen raw < 2 ^ 60 -> wf_auxpow a ->
  skipDogeAuxPoW raw i = Ok (zlen (pre ++ enc_auxpow a)).
Proof.
  intros Hraw Hi Hsz ((Hwf & Hw & Hcb) & Hin & Hh & Hb & Hx & Hab & Hax & Hp).
  unfold skipDogeAuxPoW. rewrite Hraw at 1.
  rewrite (slice_to_end pre) by (done || by rewrite Hraw).
  unfold enc_auxpow in Hraw |- *. set (cb := base_encoding (ap_coinbase a)) in *.
  set (tail := ap_hash a ++ enc_branch (ap_branch a) ++ ap_index a ++ enc_branch (ap_aux_branch a)
                 ++ ap_aux_index a ++ ap_parent a) in *.
  rewrite <- (app_assoc cb). unfold cb at 1.
  rewrite Decode_witness; [|done..|]. 2: { rewrite Hraw in Hsz. zlen_lia. }
  cbv zeta. rewrite <- !app_assoc in Hraw.
  assert (Hlen : zlen raw = zlen pre + zlen cb + 32 + zlen (enc_branch (ap_branch a)) + 4
            + zlen (enc_branch (ap_aux_branch a)) + 4 + 80 + zlen rest).
  { rewrite Hraw. unfold tail. rewrite !zlen_app. lia. }
  pose proof (zlen_nonneg rest). pose proof (zlen_nonneg (enc_branch (ap_branch a))).
  pose proof (zlen_nonneg (enc_branch (ap_aux_branch a))).
  replace (i + _) with (zlen (pre ++ cb)) by (rewrite !zlen_app; lia).
  rewrite (proj2 (Z.ltb_ge _ _)) by (rewrite zlen_app; lia).
  rewrite (skip_branch (pre ++ cb ++ ap_hash a) (ap_branch a)
    (ap_index a ++ enc_branch (ap_aux_branch a) ++ ap_aux_index a ++ ap_parent a ++ rest));
    [|by rewrite Hraw; unfold tail; rewrite <- !app_assoc|rewrite !zlen_app; lia|done].
  rewrite (proj2 (Z.ltb_ge _ _)) by (rewrite !zlen_app; lia).
  rewrite (skip_branch (pre ++ cb ++ ap_hash a ++ enc_branch (ap_branch a) ++ ap_index a)
    (ap_aux_branch a) (ap_aux_index a ++ ap_parent a ++ rest));
    [|by rewrite Hraw; unfold tail; rewrite <- !app_assoc|rewrite !zlen_app; lia|done].
  rewrite !(proj2 (Z.ltb_ge _ _)) by (rewrite !zlen_app; lia).
  f_equal. unfold tail. rewrite !zlen_app. lia.
Qed.

Lemma decode_txs_encode txs :
  Forall doge_tx txs -> zlen (concat (map base_encoding txs)) < 2 ^ 60 ->
  forall fuel, (length txs <= fuel)%nat ->
  decode_txs fuel (zlen txs) (concat (map base_encoding txs)) = Ok txs.
Proof.
  induction 1 as [|tx txs (Hwf & Hw & Hs) _ IH]; intros Hsz fuel Hf; [by destruct fuel|].
  destruct fuel as [|fuel]; [simpl in Hf; lia|]. cbn [decode_txs map concat] in *.
  rewrite zlen_app in Hsz. pose proof (zlen_nonneg (base_encoding tx)).
  rewrite zlen_cons. pose proof (zlen_nonneg txs). rewrite (proj2 (Z.ltb_lt _ _)) by lia.
  rewrite Decode_base by (done || lia). replace (1 + zlen txs - 1) with (zlen txs) by lia.
  rewrite IH; [done|lia|simpl in Hf; lia].
Qed.
Lemma base_encoding_size tx : 10 <= zlen (base_encoding tx).
Proof.
  unfold base_encoding. rewrite !zlen_app, !zlen_le_bytes.
  pose proof (varint_size (zlen (tx_TxIn tx))). pose proof (varint_size (zlen (tx_TxOut tx))).
  pose proof (zlen_nonneg (concat (map enc_in (tx_TxIn tx)))).
  pose proof (zlen_nonneg (concat (map enc_out (tx_TxOut tx)))). lia.
Qed.
Lemma txs_size txs : 10 * zlen txs <= zlen (concat (map base_encoding txs)).
Proof.
  induction txs as [|tx txs IH]; [done|]. cbn [map concat]. rewrite zlen_app, zlen_cons.
  pose proof (base_encoding_size tx). lia.
Qed.

(** Parsing a block gives back its transactions, in order: a block whose
    version has the AuxPoW bit carries a merged-mining proof, which is skipped;
    one without the bit does not.  The count the node reported is irrelevant. *)
Theorem doge_block_roundtrip header aux txs expected :
  zlen header = 80 -> zlen (enc_block header aux txs) < 2 ^ 45 ->
  Z.testbit (le_val (take 4 header)) 8 = bool_decide (is_Some aux) ->
  (forall a, aux = Some a -> wf_auxpow a) -> Forall doge_tx txs ->
  parseDogeBlockTransactions (enc_block header aux txs) expected = Ok txs.
Proof.
  intros Hh Hsz Hbit Haux Htxs. unfold parseDogeBlockTransactions.
  set (raw := enc_block header aux txs) in *.
  set (ap := match aux with Some a => enc_auxpow a | None => [] end).
  set (body := concat (map base_encoding txs)).
  assert (Hraw : raw = header ++ ap ++ varint (zlen txs) ++ body) by done.
  pose proof (txs_size txs) as Hbody. fold body in Hbody. pose proof (zlen_nonneg txs).
  pose proof (zlen_nonneg ap). pose proof (varint_size (zlen txs)).
  assert (Hlen : zlen raw = 80 + zlen ap + zlen (varint (zlen txs)) + zlen body)
    by (rewrite Hraw, !zlen_app; lia).
  rewrite (proj2 (Z.ltb_ge _ _)) by lia.
  assert (Hver : slice raw 0 4 = Ok (take 4 header)).
  { rewrite Hraw. rewrite <- (take_drop 4 header) at 1. rewrite <- app_assoc.
    apply (slice_mid [] (take 4 header)); [done|]. unfold zlen in *. rewrite length_take. cbn [length]. lia. }
  rewrite Hver. cbv zeta.
  assert (Hland : negb (Z.land (le_val (take 4 header)) 0x100 =? 0) = bool_decide (is_Some aux)).
  { rewrite <- Hbit. change 0x100 with (2 ^ 8). rewrite land_pow2 by lia. by destruct (Z.testbit _ 8). }
  rewrite Hland.
  assert (Hoff : (if bool_decide (is_Some aux) then skipDogeAuxPoW raw 80 else Ok 80)
                 = Ok (zlen (header ++ ap))).
  { destruct aux as [a|]; [rewrite bool_decide_eq_true_2 by done|rewrite bool_decide_eq_false_2 by (by intros [? ?])].
    - apply (skip_auxpow header a (varint (zlen txs) ++ body)); [done|done|lia|by apply Haux].
    - unfold ap. rewrite app_nil_r. by rewrite Hh. }
  rewrite Hoff. rewrite Hraw at 1. rewrite (app_assoc header).
  rewrite (slice_to_end (header ++ ap)) by (done || by rewrite Hraw, (app_assoc header)).
  rewrite readDogeVarInt_varint by lia. cbv beta iota zeta.
  unfold make_ok, max_pointers. rewrite (proj2 (Z.leb_le _ _)) by lia. cbn [negb].
  rewrite Hraw. rewrite (app_assoc header), (app_assoc (header ++ ap)).
  rewrite (slice_to_end ((header ++ ap) ++ varint (zlen txs)) body) by (done || by rewrite (zlen_app (header ++ ap))).
  apply decode_txs_encode; [done|fold body; lia|]. unfold zlen in *. lia.
Qed.

(** ** Any bytes *)

(** The errors of the parser: none is a slice out of range. *)
Definition tolerated (e : error) : Prop :=
  e <> "out of fuel" /\ (is_panic e = true -> e = "panic: makeslice: cap out of range").

Lemma skip_branch_safe raw i :
  bytes_ok raw -> 0 <= i <= zlen raw ->
  errors tolerated (skipDogeHashBranch raw i)
  /\ forall j, skipDogeHashBranch raw i = Ok j -> i <= j <= zlen raw.
Proof.
  intros Hb Hi. unfold skipDogeHashBranch.
  destruct (slice_ok raw i (zlen raw)) as (buf & -> & Hl & HP); [lia..|].
  pose proof (readDogeVarInt_errors buf) as He.
  destruct (readDogeVarInt buf) as [[c n]|e] eqn:E.
  - destruct (readDogeVarInt_range buf c n (HP _ Hb) E) as [Hc Hn]. split.
    + apply errors_if; intros _; [by apply errors_err|].
      apply errors_if; intros _; [by apply errors_err|apply errors_ok].
    + intros j. case_match; [done|]. cbv zeta. destruct (Z.ltb_spec (zlen raw) (i + n + c * 32)); [done|].
      intros [= <-]. lia.
  - rewrite (He e eq_refl). split; [by apply errors_err|done].
Qed.
Lemma skip_auxpow_safe raw i :
  bytes_ok raw -> 0 <= i <= zlen raw ->
  errors tolerated (skipDogeAuxPoW raw i)
  /\ forall j, skipDogeAuxPoW raw i = Ok j -> i <= j <= zlen raw.
Proof.
  intros Hb Hi. unfold skipDogeAuxPoW.
  destruct (slice_ok raw i (zlen raw)) as (buf & -> & Hl & _); [lia..|].
  set (decoded := match BtcDecode_witness buf with Ok _ => _ | Err _ => _ end).
  assert (Hd : errors tolerated decoded /\ forall rest, decoded = Ok rest -> 0 <= zlen rest <= zlen buf).
  { assert (Hsuf : forall tx rest, BtcDecode_base buf = Ok (tx, rest) \/ BtcDecode_witness buf = Ok (tx, rest) ->
              0 <= zlen rest <= zlen buf).
    { intros tx rest H. destruct (Decode_suffix buf tx rest H) as (used & -> & Hu).
      rewrite zlen_app. pose proof (zlen_nonneg rest). lia. }
    unfold decoded. destruct (BtcDecode_witness buf) as [[tx rest]|].
    { split; [apply errors_ok|]. intros ? [= <-]. eapply Hsuf. by right. }
    destruct (BtcDecode_base buf) as [[tx rest]|]; (split; [by (apply errors_ok || apply errors_err)|]); [|done].
    intros ? [= <-]. eapply Hsuf. by left. }
  destruct Hd as [Hde Hdr]. destruct decoded as [rest|e]; [|by split; [intros ? [= <-]; apply Hde|]].
  specialize (Hdr rest eq_refl). cbv zeta.
  destruct (Z.ltb_spec (zlen raw) (i + (zlen buf - zlen rest) + 32)); [split; [by apply errors_err|done]|].
  destruct (skip_branch_safe raw (i + (zlen buf - zlen rest) + 32) Hb ltac:(lia)) as [He1 Hj1].
  destruct (skipDogeHashBranch raw _) as [j1|e1]; [|by split; [intros ? [= <-]; apply He1|]].
  specialize (Hj1 j1 eq_refl). destruct (Z.ltb_spec (zlen raw) (j1 + 4)); [split; [by apply errors_err|done]|].
  destruct (skip_branch_safe raw (j1 + 4) Hb ltac:(lia)) as [He2 Hj2].
  destruct (skipDogeHashBranch raw (j1 + 4)) as [j2|e2]; [|by split; [intros ? [= <-]; apply He2|]].
  specialize (Hj2 j2 eq_refl). destruct (Z.ltb_spec (zlen raw) (j2 + 4)); [split; [by apply errors_err|done]|].
  destruct (Z.ltb_spec (zlen raw) (j2 + 4 + 80)); [split; [by apply errors_err|done]|].
  split; [apply errors_ok|]. intros j [= <-]. lia.
Qed.
Lemma decode_txs_safe fuel count reader :
  zlen reader < Z.of_nat fuel -> errors tolerated (decode_txs fuel count reader).
Proof.
  revert count reader. induction fuel as [|fuel IH]; intros count reader Hf; cbn [decode_txs].
  { pose proof (zlen_nonneg reader). lia. }
  apply errors_if; intros _; [|apply errors_ok].
  destruct (BtcDecode_base reader) as [[tx rest]|] eqn:E; [|by apply errors_err].
  destruct (Decode_suffix reader tx rest (or_introl E)) as (used & -> & Hu).
  rewrite zlen_app in Hf. apply errors_bind; [apply IH; lia|intros; apply errors_ok].
Qed.

(** C13: on any bytes the block parser ends, and no slice expression in it is out
    of range: every failure is one of its own errors, but for the panic of the
    allocation sized by the count the block announces. *)
Theorem doge_parser_safe raw expected e :
  bytes_ok raw -> parseDogeBlockTransactions raw expected = Err e ->
  e <> "out of fuel" /\ (is_panic e = true -> e = "panic: makeslice: cap out of range").
Proof.
  intros Hb.
  cut (errors tolerated (parseDogeBlockTransactions raw expected)); [intros H; apply H|].
  unfold parseDogeBlockTransactions. apply errors_if; intros Hlen; [by apply errors_err|].
  apply Z.ltb_ge in Hlen. apply errors_bind; [apply errors_slice; lia|]. intros v _. cbv zeta.
  destruct (skip_auxpow_safe raw 80 Hb ltac:(lia)) as [He Hj].
  apply errors_bind; [apply errors_if; [done|intros; apply errors_ok]|]. intros offset Hoff.
  assert (80 <= offset <= zlen raw).
  { destruct (negb _) in Hoff; [by apply Hj|]. injection Hoff as <-. lia. }
  destruct (slice_ok raw offset (zlen raw)) as (buf & -> & Hl & HP); [lia..|].
  pose proof (readDogeVarInt_errors buf) as Hre.
  destruct (readDogeVarInt buf) as [[c n]|e'] eqn:E; [|rewrite (Hre e' eq_refl); by apply errors_err].
  destruct (readDogeVarInt_range buf c n (HP _ Hb) E) as [Hc Hn].
  apply errors_if; intros _; [by apply errors_err|].
  destruct (slice_ok raw (offset + n) (zlen raw)) as (reader & -> & _); [lia..|].
  apply decode_txs_safe. unfold zlen. lia.
Qed.

(** Eighty bytes of header and a count of 2^64 - 1 are enough for that panic,
    whatever the node said the number of transactions was. *)
Lemma announced_count_panics expected :
  parseDogeBlockTransactions (replicate 80 0 ++ replicate 9 0xff) expected
  = Err "panic: makeslice: cap out of range".
Proof. reflexivity. Qed.
End DogeFacts.

(** ** Witnesses *)

Definition sample_pay : TxOut := mkTxOut 5 [0x76; 1; 2].
Definition sample_doge_tx (lock : Z) : MsgTx :=
  mkTx 1 [mkTxIn (mkOutPoint (replicate 32 7) 0) [1; 2; 3] [] 4294967295] [sample_pay] lock.
Lemma sample_doge_tx_ok lock : 0 <= lock < 2 ^ 32 -> doge_tx (sample_doge_tx lock).
Proof.
  intros Hl. assert (Hsz : zlen (base_encoding (sample_doge_tx lock)) = 66).
  { unfold base_encoding. cbn [sample_doge_tx tx_Version tx_TxIn tx_TxOut tx_LockTime].
    by rewrite !zlen_app, !zlen_le_bytes. }
  split; [|split; [done|lia]]. unfold wf_tx. rewrite Hsz. cbn [sample_doge_tx tx_Version tx_TxIn tx_TxOut tx_LockTime].
  split; [lia|]. split; [lia|]. split; [|split; [|lia]].
  - constructor; [|constructor]. split; [done|]. split; [by apply Forall_replicate|].
    split; [by repeat constructor|]. cbn. lia.
  - constructor; [|constructor]. split; [cbn; lia|by repeat constructor].
Qed.
Definition sample_auxpow : AuxPoW :=
  mkAuxPoW (sample_doge_tx 9) (replicate 32 1) [replicate 32 2; replicate 32 3] (replicate 4 0)
    [replicate 32 4] (replicate 4 1) (replicate 80 5).
Definition sample_header : list Z := [2; 1] ++ replicate 78 0.
Lemma doge_block_roundtrip_witness :
  parseDogeBlockTransactions
    (enc_block sample_header (Some sample_auxpow) [sample_doge_tx 1; sample_doge_tx 2]) 7
  = Ok [sample_doge_tx 1; sample_doge_tx 2].
Proof.
  apply doge_block_roundtrip.
  - reflexivity.
  - reflexivity.
  - reflexivity.
  - intros a [= <-]. split; [by apply sample_doge_tx_ok|]. split; [done|]. split; [done|].
    split; [by repeat constructor|]. split; [done|]. split; [by repeat constructor|done].
  - constructor; [apply sample_doge_tx_ok; lia|]. constructor; [apply sample_doge_tx_ok; lia|constructor].
Defined.
Lemma doge_parser_safe_witness :
  "panic: makeslice: cap out of range" <> "out of fuel"
  /\ (is_panic "panic: makeslice: cap out of range" = true ->
     "panic: makeslice: cap out of range" = "panic: makeslice: cap out of range").
Proof.
  apply (doge_parser_safe (replicate 80 0 ++ replicate 9 0xff) 0); [|reflexivity].
  apply Forall_app. split; apply Forall_replicate; unfold byte_ok; lia.
Defined.
