(* ===== verification/ChainIndexers.v ===== *)
(** * ChainIndexers: the four indexers behind one interface

    [IndexerLaws] states what an indexer promises to the engine: which pins a
    transaction carries, and that reading a block or the mempool gives exactly
    the pins of its transactions, in order, together with the outpoints they
    spend.  The packages discharge it, and the engine's scan is proved against
    it.  The last part shows what the choice of identifiers and addresses
    costs. *)

From S2P Require Import Prelude GoText Storage Aggregator Engine EngineFacts ChainBitcoin ChainOpcat ChainMvc ChainMvcFacts ChainDoge ChainSample Wire Chain ChainFacts.

Section Indexers.
Context {BT : Btcd}.

(** ** The interface *)

Class IndexerLaws (ops : IndexerOps) (pins : Z -> Z -> MsgTx -> list PinInscription) : Prop := {
  law_block GetBlock height idx block :
    GetBlock height = Ok block -> Forall wf_tx (blk_Transactions block) ->
    io_CatchPins ops GetBlock height idx =
    (Ok (concat (map (pins height (blk_Timestamp block)) (blk_Transactions block)),
         concat (map spent (blk_Transactions block))), mkIndexer (Some block));
  law_no_block GetBlock height idx e :
    GetBlock height = Err e -> io_CatchPins ops GetBlock height idx = (Err e, idx);
  law_mempool now txList :
    Forall wf_tx (omap id txList) ->
    io_CatchMempoolPins ops now txList =
    Ok (concat (map (pins (-1) now) (omap id txList)), concat (map spent (omap id txList)));
  law_first_payee height timestamp version ins out outs lock a l :
    is_data (out_PkScript out) = false -> addrs_of (out_PkScript out) = a :: l ->
    Forall (attributed a) (pins height timestamp (mkTx version ins (out :: outs) lock)) }.

(** An indexer whose [catchPinsByTx] computes [pins] has the laws. *)
Lemma with_laws name init transfer address topics catch pins :
  (forall height timestamp tx, wf_tx tx -> catch height timestamp tx = Ok (pins height timestamp tx)) ->
  (forall height timestamp version ins out outs lock a l,
    is_data (out_PkScript out) = false -> addrs_of (out_PkScript out) = a :: l ->
    Forall (attributed a) (pins height timestamp (mkTx version ins (out :: outs) lock))) ->
  IndexerLaws (mkIndexerOps name init (CatchPins_with catch) (CatchMempoolPins_with catch) transfer
                 address topics) pins.
Proof.
  intros Hc Ha. split.
  - intros GetBlock height idx block Hb Hwf. cbn. unfold CatchPins_with. rewrite Hb.
    rewrite (catch_txs_ok _ (pins height (blk_Timestamp block))); [done|].
    eapply Forall_impl; [exact Hwf|]. intros tx. apply Hc.
  - intros GetBlock height idx e Hb. cbn. unfold CatchPins_with. by rewrite Hb.
  - intros now txList Hwf. cbn. unfold CatchMempoolPins_with. apply catch_txs_ok.
    eapply Forall_impl; [exact Hwf|]. intros tx. apply Hc.
  - apply Ha.
Qed.

(** ** The packages *)

Lemma witness_inputs tx : HasWitness tx = true -> tx_TxIn tx <> [].
Proof. intros H%HasWitness_spec ?. rewrite H0 in H. by apply Exists_nil in H. Qed.

(** An OP_RETURN pin excludes the witness pins. *)
Definition either_pins (chain hash : string) (height timestamp : Z) (tx : MsgTx) : list PinInscription :=
  match opreturn_pins (tx_TxOut tx) with
  | [] => if HasWitness tx then witness_pins nonempty_script chain height timestamp tx else []
  | ps => map (attribute_pin chain hash height timestamp tx) ps
  end.
Lemma either_ok chain hash height timestamp tx :
  (pins <-? opreturn_loop chain (Ok hash) height timestamp tx (tx_TxOut tx) ;;
   if (0 <? length pins)%nat then Ok pins
   else if negb (HasWitness tx) then Ok []
   else witness_loop nonempty_script chain tx height timestamp 0 (tx_TxOut tx))
  = Ok (either_pins chain hash height timestamp tx).
Proof.
  rewrite opreturn_loop_ok. unfold either_pins. rewrite length_map.
  destruct (opreturn_pins (tx_TxOut tx)); [|done]. cbn.
  destruct (HasWitness tx) eqn:Hw; [|done]. apply witness_loop_ok. by apply witness_inputs.
Qed.
Lemma either_attributed chain hash height timestamp version ins out outs lock a l :
  is_data (out_PkScript out) = false -> addrs_of (out_PkScript out) = a :: l ->
  Forall (attributed a) (either_pins chain hash height timestamp (mkTx version ins (out :: outs) lock)).
Proof.
  intros Hd Ha. unfold either_pins. set (tx := mkTx version ins (out :: outs) lock).
  assert (Ho : getPinOwner tx = (a, 0, 0)) by (by eapply owner_first).
  assert (Hc : extractCreatorAddress tx = a) by (by eapply creator_first).
  destruct (opreturn_pins (tx_TxOut tx)) as [|p ps] eqn:E.
  - destruct (HasWitness tx); [|constructor]. rewrite <- Hc at 1. apply witness_attributed.
  - rewrite <- E. by eapply opreturn_attributed.
Qed.

Definition mvc_pins (height timestamp : Z) (tx : MsgTx) : list PinInscription :=
  either_pins "mvc" (if has_mvc_id tx then doubleSHA256ReversedHex (manRaw (raw_tx tx)) else TxHash tx)
    height timestamp tx.
#[export] Instance mvc_laws : IndexerLaws ChainMvc.ops mvc_pins.
Proof.
  apply with_laws; [|intros; by eapply either_attributed]. intros height timestamp tx Hwf.
  unfold ChainMvc.catchPinsByTx. rewrite pin_hash_exact by done. apply either_ok.
Qed.

Definition doge_pins (height timestamp : Z) (tx : MsgTx) : list PinInscription :=
  either_pins "doge" (TxHash tx) height timestamp tx.
#[export] Instance doge_laws : IndexerLaws ChainDoge.ops doge_pins.
Proof.
  apply with_laws; [|intros; by eapply either_attributed]. intros. apply either_ok.
Qed.

Definition opcat_pins (height timestamp : Z) (tx : MsgTx) : list PinInscription :=
  map (attribute_pin "opcat" (TxHash tx) height timestamp tx) (opreturn_pins (tx_TxOut tx)).
#[export] Instance opcat_laws : IndexerLaws ChainOpcat.ops opcat_pins.
Proof.
  apply with_laws.
  - intros. apply opreturn_loop_ok.
  - intros. eapply opreturn_attributed, owner_first; eassumption.
Qed.

(** Bitcoin: a witness pin for every output script of six bytes or more. *)
Definition btc_considered (script : list Z) : bool :=
  negb (zlen script =? 0) && ChainBitcoin.isMetaIDOutput script.
Definition btc_pins (height timestamp : Z) (tx : MsgTx) : list PinInscription :=
  if HasWitness tx then witness_pins btc_considered "btc" height timestamp tx else [].
Lemma btc_parse tx outIdx height timestamp hash :
  ChainBitcoin.parseMetaIDWitness tx outIdx height timestamp hash
  = Chain.parseMetaIDWitness "btc" tx outIdx height timestamp hash.
Proof.
  unfold ChainBitcoin.parseMetaIDWitness, Chain.parseMetaIDWitness, extractMetaID, extractGlobalMetaID,
    ChainBitcoin.extractCreatorAddress, Chain.extractCreatorAddress.
  destruct (tx_TxIn tx); [done|]. by destruct (first_address (tx_TxOut tx)).
Qed.
Lemma btc_loop_witness tx height timestamp i outs :
  btc_loop tx height timestamp i outs = witness_loop btc_considered "btc" tx height timestamp i outs.
Proof.
  revert i. induction outs as [|out outs IH]; intros i; [done|]. cbn [btc_loop witness_loop].
  unfold btc_considered at 1. destruct (zlen (out_PkScript out) =? 0); cbn [negb andb]; [apply IH|].
  destruct (isMetaIDOutput (out_PkScript out)); cbn [negb]; [|apply IH]. by rewrite btc_parse, IH.
Qed.
#[export] Instance btc_laws : IndexerLaws ChainBitcoin.ops btc_pins.
Proof.
  apply with_laws.
  - intros height timestamp tx _. unfold catch_segwit, btc_pins, ChainBitcoin.catchPinsByTx.
    destruct (HasWitness tx) eqn:Hw; [|done]. cbn [negb]. rewrite btc_loop_witness.
    apply witness_loop_ok. by apply witness_inputs.
  - intros height timestamp version ins out outs lock a l Hd Ha. unfold btc_pins.
    destruct (HasWitness _); [|constructor].
    rewrite <- (creator_first out outs a l Ha) at 1.
    apply (witness_attributed _ _ _ _ (mkTx version ins (out :: outs) lock)).
Qed.

(** C11: none of the four indexers fails or panics on a block of valid
    transactions: [CatchPins] answers with the pins of its transactions in order
    and with every outpoint they spend, and keeps the block for
    [CatchTransfer]. *)
Theorem CatchPins_exact GetBlock height idx block :
  GetBlock height = Ok block -> Forall wf_tx (blk_Transactions block) ->
  let txs := blk_Transactions block in
  let caught (pins : Z -> Z -> MsgTx -> list PinInscription) :=
    (Ok (concat (map (pins height (blk_Timestamp block)) txs), concat (map spent txs)),
     mkIndexer (Some block)) in
  ChainBitcoin.CatchPins GetBlock height idx = caught btc_pins
  /\ ChainMvc.CatchPins GetBlock height idx = caught mvc_pins
  /\ ChainDoge.CatchPins GetBlock height idx = caught doge_pins
  /\ ChainOpcat.CatchPins GetBlock height idx = caught opcat_pins.
Proof.
  intros Hb Hwf. split_and!.
  - by apply (law_block (IndexerLaws := btc_laws)).
  - by apply (law_block (IndexerLaws := mvc_laws)).
  - by apply (law_block (IndexerLaws := doge_laws)).
  - by apply (law_block (IndexerLaws := opcat_laws)).
Qed.

(** An address is no proof of authorship: put an output that pays [a] first,
    and every pin of the transaction, on any of the four chains and whoever
    signed the inputs, is created by [a] under [a]'s MetaID. *)
Theorem pins_follow_first_payee height timestamp version ins out outs lock a l :
  is_data (out_PkScript out) = false -> addrs_of (out_PkScript out) = a :: l ->
  let tx := mkTx version ins (out :: outs) lock in
  Forall (attributed a)
    (btc_pins height timestamp tx ++ mvc_pins height timestamp tx
     ++ doge_pins height timestamp tx ++ opcat_pins height timestamp tx).
Proof.
  intros Hd Ha. cbv zeta. rewrite !Forall_app. split_and!.
  - by apply (law_first_payee (IndexerLaws := btc_laws)) with l.
  - by apply (law_first_payee (IndexerLaws := mvc_laws)) with l.
  - by apply (law_first_payee (IndexerLaws := doge_laws)) with l.
  - by apply (law_first_payee (IndexerLaws := opcat_laws)) with l.
Qed.

(** ** Under the engine *)

Section Pipeline.
Context (ops : IndexerOps) (pins : Z -> Z -> MsgTx -> list PinInscription) {L : IndexerLaws ops pins}.
Context {St X : Type} {KV : KVOps St} {MO : MapOrder}.

(** An engine that meets the indexer over a block source. *)
Definition block_source (env : ChainEnv (option MsgTx)) (GetBlock : Z -> res MsgBlock) : Prop :=
  forall h, ce_CatchPins env h = (io_CatchPins ops GetBlock h NewIndexer).1.
Definition block_pins (GetBlock : Z -> res MsgBlock) (h : Z) : list PinInscription :=
  match GetBlock h with
  | Ok b => concat (map (pins h (blk_Timestamp b)) (blk_Transactions b))
  | Err _ => []
  end.

Lemma scan_block_node env GetBlock h b (e : Engine St X) w :
  block_source env GetBlock -> GetBlock h = Ok b -> Forall wf_tx (blk_Transactions b) ->
  (scan_block (io_Name ops) env h e w).1.1 = LogBlock h (block_pins GetBlock h).
Proof.
  intros Henv Hb Hwf. unfold scan_block, block_pins. rewrite Henv.
  rewrite (law_block (IndexerLaws := L) GetBlock h NewIndexer b Hb Hwf), Hb. cbn [fst].
  destruct (concat _) as [|p ps]; [done|]. by destruct (route_pins _ _ _).
Qed.

(** A scan of a range of available blocks routes, height by height, exactly the pins
    inscribed in each block, in the order of its transactions and outputs, and leaves the
    last height of the range recorded. *)
Lemma scan_routes_inscriptions env GetBlock from to (e : Engine St X) w ls e' w' :
  block_source env GetBlock -> from <= to ->
  (forall h, from <= h <= to -> exists b, GetBlock h = Ok b /\ Forall wf_tx (blk_Transactions b)) ->
  scanRange (io_Name ops) env from to e w = (ls, e', w') ->
  ls = map (fun h => LogBlock h (block_pins GetBlock h)) (seqZ from (to - from + 1))
  /\ lastHeight (io_Name ops) e' = to.
Proof.
  intros Henv Hft Hb E. unfold scanRange in E.
  assert (Hls : ls = map (fun h => LogBlock h (block_pins GetBlock h)) (seqZ from (to - from + 1))).
  { clear -Henv E Hb L Hft. assert (Hn0 : to - from + 1 = Z.of_nat (Z.to_nat (to - from + 1))) by lia.
    rewrite Hn0. set (n := Z.to_nat (to - from + 1)) in *. clearbody n.
    assert (Hn : forall h, from <= h < from + Z.of_nat n -> exists b, GetBlock h = Ok b /\ Forall wf_tx (blk_Transactions b))
      by (intros h Hh; apply Hb; lia). clear Hb Hft Hn0.
    revert from e w ls e' w' E Hn.
    induction n as [|n IH]; intros from e w ls e' w' E Hn; cbn [scan_loop] in E; [by injection E as <-|].
    destruct (Hn from ltac:(lia)) as (b & Hb & Hwf).
    pose proof (scan_block_node env GetBlock from b e w Henv Hb Hwf) as Hl.
    destruct (scan_block _ _ from e w) as [[l e1] w1]. cbn [fst] in Hl. subst l.
    destruct (scan_loop n _ _ (from + 1) e1 w1) as [[ls' e2] w2] eqn:E2. injection E as <- _ _.
    rewrite Nat2Z.inj_succ, seqZ_cons by lia. cbn [map]. rewrite Z.pred_succ. f_equal.
    replace (Z.succ from) with (from + 1) by lia. apply (IH _ _ _ _ _ _ E2). intros h Hh. apply Hn. lia. }
  split; [done|]. apply scan_loop_spec in E as (_ & _ & ->).
  assert (Hp : processed ls = seqZ from (to - from + 1)).
  { rewrite Hls. clear. induction (seqZ from (to - from + 1)) as [|h hs IH]; [done|].
    cbn. f_equal. exact IH. }
  rewrite Hp. replace (to - from + 1) with (Z.of_nat (S (Z.to_nat (to - from)))) by lia.
  rewrite seqZ_S, last_snoc. cbn. lia.
Qed.
End Pipeline.

(** ** Identifiers *)

(** The OP_RETURN pins of one transaction all get the same id, so the
    mempool delivers only the first of them, and the records of the others
    overwrite each other when the block arrives. *)
Theorem opreturn_pins_collide height timestamp tx p q rest ttl now :
  opcat_pins height timestamp tx = p :: q :: rest -> TrimSpace (TxHash tx) <> "" ->
  pin_Id p = pin_Id q
  /\ (filterSeenMempoolPins "opcat" [Some p; Some q] (spent tx) ttl now ∅).1 = [p].
Proof.
  intros E Hne. unfold opcat_pins in E.
  destruct (opreturn_pins (tx_TxOut tx)) as [|p0 [|q0 ps]]; [done..|].
  cbn [map] in E. injection E as <- <- _.
  pose proof (attribute_pin_fields "opcat" (TxHash tx) height timestamp tx p0) as Hp.
  pose proof (attribute_pin_fields "opcat" (TxHash tx) height timestamp tx q0) as Hq.
  destruct (getPinOwner tx) as [[address outIdx] l]. cbv beta iota zeta in Hp, Hq.
  destruct Hp as (_ & _ & _ & _ & Hp1 & Hp2 & _). destruct Hq as (_ & _ & _ & _ & Hq1 & Hq2 & _).
  split; [congruence|]. apply same_tx_pins_dropped; [by rewrite Hp2|by rewrite Hp2, Hq2].
Qed.

(** On MVC, Dogecoin and Bitcoin a single witness inscription is published
    once per output: as many pins, with the same content, as the transaction has
    outputs that are not skipped. *)
Theorem witness_pin_per_output considered chain height timestamp tx in0 ins f :
  tx_TxIn tx = in0 :: ins -> witness_fields (in_Witness in0) = Some f ->
  length (witness_pins considered chain height timestamp tx)
  = length (List.filter (fun out => considered (out_PkScript out)) (tx_TxOut tx))
  /\ Forall (fun p => pin_Operation p = f.1.1.1 /\ pin_Path p = f.1.1.2)
       (witness_pins considered chain height timestamp tx).
Proof.
  intros Hi Hf. unfold witness_pins. rewrite Hi. cbn [head mbind option_bind]. rewrite Hf. split.
  - rewrite length_map. generalize 0 as i. induction (tx_TxOut tx) as [|out outs IH]; intros i; [done|].
    cbn [considered_at List.filter]. destruct (considered (out_PkScript out)); cbn [length]; by rewrite IH.
  - apply Forall_map, Forall_true. intros i. unfold compose, witness_pin, set_content.
    destruct f as [[[op path] ctype] body]. by destruct ctype, body.
Qed.
End Indexers.

(** ** Witnesses *)

Definition push (s : string) : list Z := slen s :: bytes_of_string s.
Definition pin_script (fields : list string) : list Z := OP_RETURN :: concat (map push ("metaid" :: fields)).
Definition sample_payee : TxOut := mkTxOut 5 [0x76; 1; 2].
Definition sample_inscription : TxOut :=
  mkTxOut 0 (pin_script ["Create"; "/info/Name"; "0"; "1"; "Text/Plain"; "bo"; "b"]).
Definition sample_init : TxOut := mkTxOut 0 (pin_script ["init"]).
Definition sample_input (witness : list string) : TxIn :=
  mkTxIn (mkOutPoint (replicate 32 7) 1) [1; 2; 3] witness 4294967295.
Definition sample_tx (version : Z) (outs : list TxOut) : MsgTx :=
  mkTx version [sample_input []] outs 17.

Lemma wf_tx_check tx :
  forallb (fun i => (zlen (op_Hash (in_PreviousOutPoint i)) =? 32)
    && forallb (fun b => (0 <=? b) && (b <? 256)) (op_Hash (in_PreviousOutPoint i) ++ in_SignatureScript i)
    && (0 <=? op_Index (in_PreviousOutPoint i)) && (op_Index (in_PreviousOutPoint i) <? 2 ^ 32)
    && (0 <=? in_Sequence i) && (in_Sequence i <? 2 ^ 32)) (tx_TxIn tx)
  && forallb (fun o => (- 2 ^ 63 <=? out_Value o) && (out_Value o <? 2 ^ 63)
       && forallb (fun b => (0 <=? b) && (b <? 256)) (out_PkScript o)) (tx_TxOut tx)
  && (- 2 ^ 31 <=? tx_Version tx) && (tx_Version tx <? 2 ^ 31)
  && (0 <=? tx_LockTime tx) && (tx_LockTime tx <? 2 ^ 32) && (zlen (base_encoding tx) <? 2 ^ 62) = true ->
  wf_tx tx.
Proof.
  assert (Hb : forall l, forallb (fun b => (0 <=? b) && (b <? 256)) l = true -> bytes_ok l).
  { intros l H. rewrite forallb_forall in H. apply Forall_forall. intros b Hin.
    apply list_elem_of_In in Hin. specialize (H b Hin). unfold byte_ok. lia. }
  rewrite !andb_true_iff, !forallb_forall. intros [[[[[[Hi Ho] ?] ?] ?] ?] ?].
  split; [lia|]. split; [lia|]. split; [|split; [|lia]]; apply Forall_forall.
  - intros i Hin. apply list_elem_of_In, Hi in Hin. rewrite !andb_true_iff, forallb_app, andb_true_iff in Hin.
    destruct Hin as [[[[[L1 [L2 L3]] ?] ?] ?] ?]. unfold wf_in, zlen in *.
    split; [lia|]. split; [by apply Hb|]. split; [by apply Hb|]. lia.
  - intros o Hin. apply list_elem_of_In, Ho in Hin. rewrite !andb_true_iff in Hin.
    destruct Hin as [[? ?] Hbs]. split; [lia|]. by apply Hb.
Qed.

Definition sample_block : MsgBlock :=
  mkBlock 1700 (replicate 32 0)
    [sample_tx 10 [sample_payee; sample_inscription]; sample_tx 1 [sample_payee; sample_init; sample_inscription]].
Lemma sample_block_ok : Forall wf_tx (blk_Transactions sample_block).
Proof. repeat (constructor; [apply wf_tx_check; reflexivity|]). constructor. Qed.

Lemma parse_base_encoding_witness :
  parseMVCMetaIDRawTx (base_encoding (sample_tx 10 [sample_payee])) = Ok (raw_tx (sample_tx 10 [sample_payee])).
Proof. apply parse_base_encoding; [apply wf_tx_check; reflexivity|done|done]. Defined.
Lemma parse_terminates_witness :
  parseMVCMetaIDRawTx (replicate 4 0 ++ 0xff :: replicate 8 0x7f) <> Err "out of fuel".
Proof.
  apply parse_terminates; [|reflexivity].
  apply Forall_app; split; [|constructor]; try apply Forall_replicate; unfold byte_ok; lia.
Defined.
Lemma pin_hash_exact_witness :
  pin_hash (sample_tx 10 [sample_payee])
  = Ok (doubleSHA256ReversedHex (manRaw (raw_tx (sample_tx 10 [sample_payee])))).
Proof.
  refine (eq_trans (pin_hash_exact (sample_tx 10 [sample_payee]) _) _);
    [apply wf_tx_check; reflexivity|vm_compute; reflexivity].
Defined.
Lemma mvc_id_binding_witness :
  sample_tx 10 [sample_payee] = sample_tx 10 [sample_payee]
  \/ collides (sample_tx 10 [sample_payee]) (sample_tx 10 [sample_payee]).
Proof.
  apply (mvc_id_binding (sample_tx 10 [sample_payee]) (sample_tx 10 [sample_payee])
    (doubleSHA256ReversedHex (manRaw (raw_tx (sample_tx 10 [sample_payee])))));
    try (apply wf_tx_check); reflexivity.
Defined.
Lemma CatchPins_exact_witness :
  let caught pins :=
    (Ok (concat (map (pins 4 1700) (blk_Transactions sample_block)),
         concat (map spent (blk_Transactions sample_block))), mkIndexer (Some sample_block)) in
  ChainBitcoin.CatchPins (fun _ => Ok sample_block) 4 NewIndexer = caught btc_pins
  /\ ChainMvc.CatchPins (fun _ => Ok sample_block) 4 NewIndexer = caught mvc_pins
  /\ ChainDoge.CatchPins (fun _ => Ok sample_block) 4 NewIndexer = caught doge_pins
  /\ ChainOpcat.CatchPins (fun _ => Ok sample_block) 4 NewIndexer = caught opcat_pins.
Proof.
  apply (CatchPins_exact (fun _ => Ok sample_block) 4 NewIndexer sample_block); [done|].
  apply sample_block_ok.
Defined.
Lemma pins_follow_first_payee_witness :
  let tx := mkTx 1 [sample_input []] [sample_payee; sample_inscription] 17 in
  Forall (attributed "760102") (btc_pins 4 1700 tx ++ mvc_pins 4 1700 tx ++ doge_pins 4 1700 tx ++ opcat_pins 4 1700 tx).
Proof. apply (pins_follow_first_payee 4 1700 1 [sample_input []] sample_payee _ 17 "760102" []); done. Defined.
Lemma opreturn_pins_collide_witness :
  let tx := sample_tx 1 [sample_payee; sample_init; sample_inscription] in
  let ps := opcat_pins (-1) 1700 tx in
  match ps with
  | p :: q :: _ => pin_Id p = pin_Id q
      /\ (filterSeenMempoolPins "opcat" [Some p; Some q] (spent tx) 5 10 ∅).1 = [p]
  | _ => False
  end.
Proof.
  apply (opreturn_pins_collide (-1) 1700 (sample_tx 1 [sample_payee; sample_init; sample_inscription]) _ _ []
    5 10); [reflexivity|vm_compute; discriminate].
Defined.
Lemma witness_pin_per_output_witness :
  let tx := mkTx 1 [sample_input ["sig"; "key"; "metaid"; "create"; "/p"]] [sample_payee; sample_payee] 17 in
  length (witness_pins nonempty_script "doge" 4 1700 tx) = 2%nat
  /\ Forall (fun p => pin_Operation p = "create" /\ pin_Path p = "/p") (witness_pins nonempty_script "doge" 4 1700 tx).
Proof.
  apply (witness_pin_per_output nonempty_script "doge" 4 1700
    (mkTx 1 [sample_input ["sig"; "key"; "metaid"; "create"; "/p"]] [sample_payee; sample_payee] 17)
    (sample_input ["sig"; "key"; "metaid"; "create"; "/p"]) [] ("create", "/p", None, None)); reflexivity.
Defined.
Lemma CatchTransfer_exact_witness :
  let idMap := {[ outpoint (mkOutPoint (replicate 32 7) 1) := "old" ]} in
  let block := mkBlock 1 [] [sample_tx 1 [sample_payee]] in
  (exists m, Chain.CatchTransfer idMap (mkIndexer (Some block)) = Some m
     /\ m !! outpoint (mkOutPoint (replicate 32 7) 1) = Some (mkTransfer "tx17:0" "760102" "old")) <->
  exists tx from location address,
    tx ∈ blk_Transactions block /\ outpoint (mkOutPoint (replicate 32 7) 1) ∈ spent tx
    /\ (idMap : gmap string string) !! outpoint (mkOutPoint (replicate 32 7) 1) = Some from
    /\ Chain.getOwnerAddress tx = Some (location, address)
    /\ mkTransfer "tx17:0" "760102" "old" = mkTransfer location address from.
Proof.
  apply (CatchTransfer_exact {[ outpoint (mkOutPoint (replicate 32 7) 1) := "old" ]}
    (mkBlock 1 [] [sample_tx 1 [sample_payee]])); [reflexivity|].
  apply NoDup_singleton.
Defined.
