(* ===== verification/ChainRpcFacts.v ===== *)
(** * ChainRpcFacts: what the adapters fetch, and what a scan makes of it

    A Dogecoin block comes back from the two requests as the node holds it; a scan over
    any of the four adapters routes the pins of the blocks that the node serves. *)

From S2P Require Import Prelude GoText Json Storage Aggregator Config Engine EngineFacts Wire Chain ChainBitcoin ChainMvc ChainOpcat ChainDoge ChainSample ChainDogeFacts ChainIndexers ChainRpc.

(** ** Numbers in hexadecimal *)

(** What a run of bytes adds to a number read so far. *)
Definition be_val (l : list Z) (acc : Z) : Z := foldl (fun a b => a * 256 + b) acc l.
Lemma be_val_mono l acc : bytes_ok l -> 0 <= acc -> acc <= be_val l acc.
Proof.
  intros Hl. revert acc. induction Hl as [|b l Hb _ IH]; intros acc Ha; [done|]. unfold byte_ok in Hb. cbn.
  etransitivity; [|apply IH]; lia.
Qed.
Lemma parse_hex_digit d s acc :
  0 <= d < 16 -> acc * 16 + d < 2 ^ 32 -> parse_hex (String (hex_char d) s) acc = parse_hex s (acc * 16 + d).
Proof. intros Hd Hlt. cbn [parse_hex]. rewrite hex_val_char by done. cbn. by rewrite (proj2 (Z.ltb_lt _ _)). Qed.
Lemma parse_hex_bytes l acc :
  bytes_ok l -> 0 <= acc -> be_val l acc < 2 ^ 32 -> parse_hex (hex_EncodeToString l) acc = Some (be_val l acc).
Proof.
  intros Hl. revert acc. induction Hl as [|b l Hb Hl IH]; intros acc Ha Hlt; [done|].
  pose proof Hb as Hb'. unfold byte_ok in Hb'. pose proof (Z.div_mod b 256 ltac:(lia)).
  pose proof (Z.div_mod b 16 ltac:(lia)). pose proof (Z.mod_pos_bound b 16 ltac:(lia)).
  assert (0 <= b / 16 < 16) by (split; [apply Z.div_pos; lia|apply Z.div_lt_upper_bound; lia]).
  cbn [be_val foldl] in Hlt |- *. pose proof (be_val_mono l (acc * 256 + b) Hl ltac:(lia)) as Hm. unfold be_val in Hm.
  cbn [hex_EncodeToString]. rewrite !parse_hex_digit by lia.
  replace ((acc * 16 + b / 16) * 16 + b mod 16) with (acc * 256 + b) by lia. apply IH; [lia|exact Hlt].
Qed.
Lemma be_val_bound l acc : bytes_ok l -> 0 <= acc -> be_val l acc < (acc + 1) * 256 ^ Z.of_nat (length l).
Proof.
  intros Hl. revert acc. induction Hl as [|b l Hb _ IH]; intros acc Ha; [cbn; lia|]. unfold byte_ok in Hb.
  cbn [be_val foldl length]. rewrite Nat2Z.inj_succ, Z.pow_succ_r by lia.
  specialize (IH (acc * 256 + b) ltac:(lia)). unfold be_val in IH.
  eapply Z.lt_le_trans; [exact IH|]. rewrite Z.mul_assoc. apply Z.mul_le_mono_nonneg_r; lia.
Qed.
(** The compact target, as a node prints it: four bytes, the highest first. *)
Lemma parseDogeBits_bytes bits :
  length bits = 4%nat -> bytes_ok bits -> parseDogeBits (hex_EncodeToString bits) = Ok (be_val bits 0).
Proof.
  intros Hn Hb. pose proof (be_val_bound bits 0 Hb ltac:(lia)) as Hlt. rewrite Hn in Hlt.
  unfold parseDogeBits. rewrite parse_hex_bytes by (done || lia). by destruct bits.
Qed.

Section Facts.
Context {BT : Btcd} {HT : HashText BT} {JS : JSON string}.

(** ** Dogecoin blocks *)

(** A block of a Dogecoin node: the fields of its header, the header as it is stored,
    the merged-mining proof and the transactions. *)
Record doge_block := mkDogeBlock {
  db_version : Z; db_prev : option (list Z); db_root : list Z; db_time : Z; db_bits : list Z; db_nonce : Z;
  db_header : list Z; db_aux : option AuxPoW; db_txs : list MsgTx }.
Definition doge_raw (b : doge_block) : list Z := enc_block (db_header b) (db_aux b) (db_txs b).
Definition hash_ok (h : list Z) : Prop := zlen h = 32 /\ bytes_ok h.
Record doge_block_ok (b : doge_block) : Prop := {
  do_header : zlen (db_header b) = 80; do_size : zlen (doge_raw b) < 2 ^ 45; do_bytes : bytes_ok (doge_raw b);
  do_aux_bit : Z.testbit (le_val (take 4 (db_header b))) 8 = bool_decide (is_Some (db_aux b));
  do_aux : forall a, db_aux b = Some a -> wf_auxpow a; do_txs : Forall doge_tx (db_txs b);
  do_root : hash_ok (db_root b); do_prev : forall p, db_prev b = Some p -> hash_ok p;
  do_bits : length (db_bits b) = 4%nat /\ bytes_ok (db_bits b) }.
(** What the node of the chain answers about it; [ids] are the transaction ids of the
    verbose form, of which only the number is used, and only in the log. *)
Record doge_answers (client : RPC) (hash : list Z) (b : doge_block) (ids : list string) : Prop := {
  da_verbose : rpc_GetBlockVerbose client hash
    = Ok (mkVerbose (db_version b) (default "" (Hash_String <$> db_prev b)) (Hash_String (db_root b)) (db_time b)
            (hex_EncodeToString (db_bits b)) (db_nonce b) ids);
  da_raw : rpc_RawRequest client "getblock" [quote (Hash_String hash); "0"]
    = Ok (json_Marshal (hex_EncodeToString (doge_raw b)));
  da_text : json_faithful (hex_EncodeToString (doge_raw b)) }.

Lemma parseDogeHash_String h : hash_ok h -> parseDogeHash (Hash_String h) = Ok h.
Proof.
  intros [Hl Hb]. unfold parseDogeHash. pose proof (Hash_String_length h Hl) as Hn.
  rewrite nonempty; [by apply NewHashFromStr_String|]. intros E. by rewrite E in Hn.
Qed.
(** The two answers are put together to the block that the node holds. *)
Lemma getBlockByRPC_exact client hash b ids :
  doge_block_ok b -> doge_answers client hash b ids ->
  ChainDoge.getBlockByRPC client hash
  = Ok (ChainDoge.mkHeader (db_version b) (default (replicate 32 0) (db_prev b)) (be_val (db_bits b) 0) (db_nonce b),
        mkBlock (db_time b) (db_root b) (db_txs b)).
Proof.
  intros [O1 O2 O3 O4 O5 O6 O7 O8 [O9 O10]] [A1 A2 A3]. unfold ChainDoge.getBlockByRPC. rewrite A1. cbn [wrap_err bv_Bits].
  rewrite parseDogeBits_bytes by done. cbn [bv_PreviousHash bv_MerkleRoot].
  assert (Hp : parseDogeHash (default "" (Hash_String <$> db_prev b)) = Ok (default (replicate 32 0) (db_prev b))).
  { destruct (db_prev b) as [p|]; [|done]. by apply parseDogeHash_String, O8. }
  rewrite Hp. cbn [wrap_err]. rewrite (parseDogeHash_String (db_root b)) by done. cbn [wrap_err].
  unfold ChainDoge.rawBlockHex. rewrite A2. cbn [wrap_err]. rewrite json_roundtrip by done. cbn [wrap_err].
  rewrite hex_roundtrip by done. cbn [wrap_err]. unfold doge_raw in *. by rewrite doge_block_roundtrip.
Qed.

(** ** Blocks that a node serves *)

Inductive served : ChainOps -> RPC -> Z -> MsgBlock -> Prop :=
  | served_plain name client h hash b :
      rpc_GetBlockHash client h = Ok hash -> rpc_GetBlock client hash = Ok b ->
      served (mkChainOps name ChainRpc.GetBlock) client h b
  | served_doge client h hash b ids :
      rpc_GetBlockHash client h = Ok hash -> doge_block_ok b -> doge_answers client hash b ids ->
      served ChainDoge.chain client h (mkBlock (db_time b) (db_root b) (db_txs b)).
Lemma served_GetBlock chain client h b : served chain client h b -> co_GetBlock chain client h = Ok b.
Proof.
  destruct 1 as [name client h hash b H1 H2|client h hash b ids H1 Hok Ha]; cbn.
  - unfold ChainRpc.GetBlock. rewrite H1. cbn [wrap_err]. by rewrite H2.
  - unfold ChainDoge.GetBlock. rewrite H1. cbn [wrap_err]. by rewrite (getBlockByRPC_exact client hash b ids Hok Ha).
Qed.
(** The adapter, the indexer and the pins of a transaction, for each chain. *)
Inductive supported : ChainOps -> IndexerOps -> (Z -> Z -> MsgTx -> list PinInscription) -> Prop :=
  | supported_btc : supported ChainBitcoin.chain ChainBitcoin.ops btc_pins
  | supported_mvc : supported ChainMvc.chain ChainMvc.ops mvc_pins
  | supported_doge : supported ChainDoge.chain ChainDoge.ops doge_pins
  | supported_opcat : supported ChainOpcat.chain ChainOpcat.ops opcat_pins.
Lemma supported_laws chain ops pins :
  supported chain ops pins -> IndexerLaws ops pins /\ co_Name chain = io_Name ops /\ io_Init ops = None.
Proof. destruct 1; (split; [apply _|done]). Qed.

Section Scan.
Context {St X : Type} {KV : KVOps St} {MO : MapOrder}.
Definition pins_of (pins : Z -> Z -> MsgTx -> list PinInscription) (h : Z) (b : MsgBlock) : list PinInscription :=
  concat (map (pins h (blk_Timestamp b)) (blk_Transactions b)).

(** C5: On each of the four chains, an engine that scans a range of heights whose blocks
    the node of the chain serves - a Dogecoin node in two requests, of which one is the
    raw block, with or without a merged-mining proof - routes, height by height, exactly
    the pins inscribed in those blocks, in the order of transactions and outputs, and
    leaves the last height of the range recorded. *)
Theorem node_scan_exact chain ops pins client dialed now (blocks : Z -> MsgBlock) from to (e : Engine St X) w ls e' w' :
  supported chain ops pins -> from <= to ->
  (forall h, from <= h <= to -> served chain client h (blocks h) /\ Forall wf_tx (blk_Transactions (blocks h))) ->
  scanRange (co_Name chain) (adapter_env chain ops dialed client now) from to e w = (ls, e', w') ->
  ls = map (fun h => LogBlock h (pins_of pins h (blocks h))) (seqZ from (to - from + 1))
  /\ lastHeight (co_Name chain) e' = to.
Proof.
  intros Hc Hft Hb E. destruct (supported_laws _ _ _ Hc) as (HL & Hn & _). rewrite Hn in E |- *.
  apply (scan_routes_inscriptions ops pins _ (co_GetBlock chain client)) in E as [-> El]; [|by intros h|done|].
  - split; [|done]. apply map_ext_in. intros h Hh. apply list_elem_of_In, elem_of_seqZ in Hh.
    unfold block_pins, pins_of. destruct (Hb h ltac:(lia)) as [Hs _]. by rewrite (served_GetBlock _ _ _ _ Hs).
  - intros h Hh. destruct (Hb h Hh) as [Hs Hwf]. exists (blocks h). split; [by apply served_GetBlock|done].
Qed.

(** ** The mempool *)

(** The transactions that the node still has. *)
Definition mempool_txs (client : RPC) : list MsgTx :=
  match rpc_GetRawMempool client with
  | Ok ids => omap (fun hash => match rpc_GetRawTransaction client hash with Ok tx => Some tx | Err _ => None end) ids
  | Err _ => []
  end.
Lemma GetMempoolTransactionList_txs client ids :
  rpc_GetRawMempool client = Ok ids -> ChainRpc.GetMempoolTransactionList client = Ok (map Some (mempool_txs client)).
Proof.
  intros E. unfold ChainRpc.GetMempoolTransactionList, mempool_txs. rewrite E. f_equal. clear E.
  induction ids as [|hash ids IH]; [done|]. cbn. destruct (rpc_GetRawTransaction client hash); cbn; by rewrite IH.
Qed.
(** A poll routes the mempool's pins that the filter lets through. *)
Theorem node_poll_exact chain ops pins client dialed now (e : Engine St X) w :
  supported chain ops pins -> Forall wf_tx (mempool_txs client) ->
  let found := concat (map (pins (-1) now) (mempool_txs client)) in
  let spends := concat (map spent (mempool_txs client)) in
  let '(kept, seen) := filterSeenMempoolPins (co_Name chain) (map Some found) spends (en_mempoolDedupeTTL e) now
                         (en_mempoolSeen e) in
  let '(e', w') := poll_chain (co_Name chain) (adapter_env chain ops dialed client now) now e w in
  w' = route_mempool (en_registry e) kept w
  /\ (mempool_txs client <> [] -> e' = set_seen seen e).
Proof.
  intros Hc Hwf. cbv zeta. destruct (supported_laws _ _ _ Hc) as (HL & Hn & _). unfold poll_chain.
  cbn [adapter_env ce_GetMempoolTransactionList ce_CatchMempoolPins].
  destruct (rpc_GetRawMempool client) as [ids|err] eqn:E.
  - rewrite (GetMempoolTransactionList_txs client ids E). destruct (mempool_txs client) as [|tx txs] eqn:Et.
    + cbn. done.
    + assert (Hid : omap id (map Some (tx :: txs)) = tx :: txs).
      { clear. generalize (tx :: txs). intros l. induction l as [|t l IH]; [done|]. cbn. by rewrite IH. }
      cbn [map]. change (Some tx :: map Some txs) with (map Some (tx :: txs)).
      rewrite (law_mempool (IndexerLaws := HL) now (map Some (tx :: txs))) by (by rewrite Hid). rewrite Hid. cbn [fst snd].
      destruct (filterSeenMempoolPins _ _ _ _ _ _) as [kept seen]. done.
  - unfold ChainRpc.GetMempoolTransactionList, mempool_txs. rewrite E. cbn. done.
Qed.
End Scan.
End Facts.

(** ** Witness: a merged-mined Dogecoin block of two transactions *)

Lemma hex_length l : String.length (hex_EncodeToString l) = (2 * length l)%nat.
Proof. induction l as [|b l IH]; [done|]. cbn. rewrite IH. lia. Qed.
Section Witness.
#[local] Existing Instance sample_ops_inst.
#[local] Existing Instance some_order.
#[local] Instance sample_HashText : HashText sample_Btcd.
Proof.
  refine {| NewHashFromStr := hex_DecodeString |}.
  - intros h Hl. unfold zlen in Hl. cbn. rewrite hex_length. lia.
  - intros h _ Hb. by apply hex_roundtrip.
Defined.
#[local] Instance plain_text : JSON string.
Proof. refine {| json_Marshal s := s; json_Unmarshal := Ok; json_faithful _ := True |}. done. Defined.

Definition sample_doge_block : doge_block :=
  mkDogeBlock 258 None (replicate 32 6) 1700000000 [0x1a; 0x05; 0xb1; 0xf2] 7 sample_header (Some sample_auxpow)
    [sample_doge_tx 1; sample_doge_tx 2].
Definition sample_hash : list Z := replicate 32 9.
Definition doge_node : RPC :=
  mkRPC (fun _ => Ok sample_hash) (fun _ => Err "method not found")
    (fun _ => Ok (mkVerbose 258 "" (Hash_String (replicate 32 6)) 1700000000 "1a05b1f2" 7 ["t1"; "t2"]))
    (fun _ _ => Ok (hex_EncodeToString (doge_raw sample_doge_block)))
    (fun _ => Err "no such transaction") (Ok 6) (Ok 6) (Ok []) (fun _ _ => Err "unused").
Example doge_bits : parseDogeBits "1a05b1f2" = Ok 0x1a05b1f2.
Proof. reflexivity. Qed.
Lemma sample_doge_block_ok : doge_block_ok sample_doge_block.
Proof.
  assert (Hb : forall l, forallb (fun b => (0 <=? b) && (b <? 256)) l = true -> bytes_ok l).
  { intros l H. apply Forall_forall. intros b Hb. rewrite forallb_forall in H. apply list_elem_of_In, H in Hb.
    unfold byte_ok. lia. }
  split; try done.
  - apply Hb. reflexivity.
  - intros a [= <-]. split; [by apply sample_doge_tx_ok|]. split; [done|]. split; [done|].
    split; [by repeat constructor|]. split; [done|]. split; [by repeat constructor|done].
  - constructor; [apply sample_doge_tx_ok; lia|]. constructor; [apply sample_doge_tx_ok; lia|constructor].
  - split; [done|]. by apply Hb.
  - split; [done|]. by apply Hb.
Qed.
Definition doge_scan :=
  scanRange "doge" (adapter_env ChainDoge.chain ChainDoge.ops (Ok doge_node) doge_node 0) 6 6 engine5 (empty_store, tt).
Lemma node_scan_exact_witness :
  doge_scan.1.1 = map (fun h => LogBlock h (pins_of doge_pins h (mkBlock 1700000000 (replicate 32 6)
    [sample_doge_tx 1; sample_doge_tx 2]))) (seqZ 6 (6 - 6 + 1))
  /\ lastHeight "doge" doge_scan.1.2 = 6.
Proof.
  apply (node_scan_exact ChainDoge.chain ChainDoge.ops doge_pins doge_node (Ok doge_node) 0
    (fun _ => mkBlock 1700000000 (replicate 32 6) [sample_doge_tx 1; sample_doge_tx 2]) 6 6 engine5 (empty_store, tt)
    doge_scan.1.1 doge_scan.1.2 doge_scan.2); [constructor|lia| |].
  - intros h _. split.
    + apply (served_doge doge_node h sample_hash sample_doge_block ["t1"; "t2"]); [done|apply sample_doge_block_ok|done].
    + constructor; [apply sample_doge_tx_ok; lia|]. constructor; [apply sample_doge_tx_ok; lia|constructor].
  - by rewrite <- !surjective_pairing.
Defined.
End Witness.
