(* ===== verification/Publisher.v ===== *)
(** * Publisher: the registry transactions of a federation node

    publisher.go and mvc_tx.go of [internal/federation]: the publisher fetches the
    coins of the node, builds and signs a transaction that carries the registry
    payload behind an OP_RETURN, and broadcasts it.  The bsv libraries (script
    builder, addresses, signatures, serialisation) are the class [Bsv], the wallet
    service is an argument. *)

From S2P Require Import Prelude GoText Json FedStore Wire Federation.
From coqutil.Datatypes Require Import RecordSetters.
Import TriangleBracketNotations.

Inductive script_item :=
| AddOp (op : Z)
| AddData (data : list Z).

Class Bsv `{EC : Secp256k1} := {
  Address : Type;
  DecodeAddress : string -> string -> res Address;
  IsForNet : Address -> string -> bool;
  PayToAddrScript : Address -> res (list Z);
  NewHashFromStr : string -> res (list Z);
  (** [txscript.SignatureScript(tx, i, value, pkScript, SigHashAll, key, true)] *)
  SignatureScript : MsgTx -> nat -> Z -> list Z -> PrivateKey -> res (list Z);
  (** [NewScriptBuilder], the items in turn, and [Script] *)
  ScriptBuilder : list script_item -> res (list Z);
  SerializeSize : MsgTx -> Z;
  tx_Serialize : MsgTx -> res (list Z) }.

Definition OP_0 : Z := 0.
Definition MaxTxInSequenceNum : Z := 2 ^ 32 - 1.
Definition MaxUint32 : Z := 2 ^ 32 - 1.
Definition mvcRegistryTxVersion : Z := 10.
Definition mvcRegistryContentType : string := "application/json".
Definition mvcRegistryEncryption : string := "0".
Definition mvcRegistryMaxPushSize : nat := 520.
Definition mvcRegistryDefaultDust : Z := 1.
Definition defaultPublisherRenewInterval : Z := 6 * 3600 * 10 ^ 9.
Definition defaultPublisherValidFor : Z := 24 * 3600 * 10 ^ 9.
Definition defaultPublisherFeeRate : Z := 1.
Definition defaultPublisherDustAmount : Z := 1.
Definition defaultPublisherUTXOFlag : string := "".

Record MVCRegistryUTXO := mkUTXO {
  ut_TxID : string; ut_OutIndex : Z; ut_Value : Z; ut_Address : string; ut_PkScript : string }.
Record MVCRegistryTxRequest := mkTxRequest {
  rq_Net : string; rq_PrivateKeyHex : string; rq_UTXOs : list MVCRegistryUTXO; rq_Operation : string;
  rq_Path : string; rq_Version : string; rq_Content : string; rq_FeeRate : Z; rq_DustAmount : Z }.
Record MVCRegistryTxResult := mkTxResult {
  rs_RawTx : string; rs_Tx : MsgTx; rs_Address : string; rs_PublicKey : string;
  rs_OwnerOutputIndex : Z; rs_ChangeOutputIndex : Z; rs_ChangeAmount : Z; rs_Fee : Z }.
(** What the wallet service returns and takes. *)
Record MVCUTXO := mkMVCUTXO {
  mu_TxID : string; mu_OutIndex : Z; mu_Value : Z; mu_Address : string; mu_Height : Z; mu_Flag : string }.
Record MVCBroadcastRequest := mkBroadcast {
  br_Chain : string; br_Net : string; br_PublicKey : string; br_RawTx : string }.
Record PublisherClient := mkPublisherClient {
  MVCAddressUTXOs : string -> string -> string -> res (list MVCUTXO);
  BroadcastMVC : MVCBroadcastRequest -> res string }.

Section Transactions.
Context {EC : Secp256k1} {BS : Bsv}.

(** ** mvc_tx.go *)

Definition mvcRegistryOperation (operation : string) : res string :=
  let normalized := ToLower (TrimSpace operation) in
  if one_of normalized ["create"; "modify"; "revoke"] then Ok normalized
  else Err "unsupported registry operation %q".
Definition mvcRegistryAddressScript (address params : string) : res (list Z) :=
  decoded <-? DecodeAddress (TrimSpace address) params ;;
  if negb (IsForNet decoded params) then Err "address %q is not for selected MVC network"
  else PayToAddrScript decoded.
Definition mvcRegistryUTXOPkScript (utxo : MVCRegistryUTXO) (derivedAddress params : string) : res (list Z) :=
  let scriptHex := TrimSpace (ut_PkScript utxo) in
  if negb (is_empty scriptHex) then
    script <-? hex_DecodeString scriptHex ;;
    if zlen script =? 0 then Err "decoded pkScript is empty" else Ok script
  else
    let address := TrimSpace (ut_Address utxo) in
    mvcRegistryAddressScript (if is_empty address then derivedAddress else address) params.
(** The pushes of the content, [mvcRegistryMaxPushSize] bytes each. *)
Fixpoint content_chunks (fuel : nat) (content : list Z) : list (list Z) :=
  match fuel, content with
  | O, _ | _, [] => []
  | S fuel, _ => take mvcRegistryMaxPushSize content :: content_chunks fuel (drop mvcRegistryMaxPushSize content)
  end.
Definition registry_items (operation path version content : string) : list script_item :=
  let data s := AddData (bytes_of_string s) in
  [AddOp OP_0; AddOp OP_RETURN; data "metaid"; data operation; data path; data mvcRegistryEncryption;
   data version; data mvcRegistryContentType]
  ++ map AddData (content_chunks (String.length content) (bytes_of_string content)).
Definition mvcRegistryOPReturnScript (operation path version content : string) : res (list Z) :=
  ScriptBuilder (registry_items operation path version content).

(** The inputs with their scripts and values; [i] counts them. *)
Fixpoint add_inputs (address params : string) (utxos : list MVCRegistryUTXO)
    : res (list (TxIn * list Z * Z)) :=
  match utxos with
  | [] => Ok []
  | utxo :: utxos =>
      if ut_Value utxo <=? 0 then Err "utxo %d value must be positive" else
      hash <-? NewHashFromStr (TrimSpace (ut_TxID utxo)) ;;
      pkScript <-? mvcRegistryUTXOPkScript utxo address params ;;
      rest <-? add_inputs address params utxos ;;
      Ok ((mkTxIn (mkOutPoint hash (ut_OutIndex utxo)) [] [] MaxTxInSequenceNum, pkScript, ut_Value utxo) :: rest)
  end.
Definition with_script (script : list Z) (i : TxIn) : TxIn :=
  mkTxIn (in_PreviousOutPoint i) script (in_Witness i) (in_Sequence i).
Definition with_inputs (ins : list TxIn) (tx : MsgTx) : MsgTx :=
  mkTx (tx_Version tx) ins (tx_TxOut tx) (tx_LockTime tx).
(** Signs input [i] and those after it; the signatures made so far are in place. *)
Fixpoint sign_inputs (i : nat) (scripts : list (list Z * Z)) (privateKey : PrivateKey) (tx : MsgTx) : res MsgTx :=
  match scripts with
  | [] => Ok tx
  | (pkScript, value) :: scripts =>
      signatureScript <-? SignatureScript tx i value pkScript privateKey ;;
      sign_inputs (S i) scripts privateKey
        (with_inputs (alter (with_script signatureScript) i (tx_TxIn tx)) tx)
  end.
Definition mvcRegistrySign (tx : MsgTx) (scripts : list (list Z * Z)) (privateKey : PrivateKey) : res MsgTx :=
  sign_inputs 0 scripts privateKey (with_inputs (map (with_script []) (tx_TxIn tx)) tx).
Definition mvcRegistryRawTx (tx : MsgTx) : res string :=
  buf <-? tx_Serialize tx ;; Ok (hex_EncodeToString buf).

(** The transaction before it is signed. *)
Definition registry_tx (ins : list TxIn) (ownerScript registryScript : list Z) (dustAmount changeAmount : Z) : MsgTx :=
  mkTx mvcRegistryTxVersion ins
    [mkTxOut dustAmount ownerScript; mkTxOut 0 registryScript; mkTxOut changeAmount ownerScript] 0.
(** The fee loop, at most [attempts] rounds; [mk] makes the transaction with a
    given change.  The signatures of a round stay in [tx] and are replaced. *)
Fixpoint fee_loop (attempts : nat) (mk : Z -> MsgTx) (scripts : list (list Z * Z)) (privateKey : PrivateKey)
    (inputValue dustAmount feeRate requiredFee : Z) : res (MsgTx * Z * Z) :=
  match attempts with
  | O => Err "could not satisfy requested fee rate"
  | S attempts =>
      let changeAmount := wrap64 (wrap64 (inputValue - dustAmount) - requiredFee) in
      if changeAmount <? dustAmount
      then Err "insufficient UTXO value for owner output, change output, and fee" else
      tx <-? mvcRegistrySign (mk changeAmount) scripts privateKey ;;
      let fee := wrap64 (wrap64 (inputValue - dustAmount) - changeAmount) in
      let minFee := wrap64 (SerializeSize tx * feeRate) in
      if minFee <=? fee then Ok (tx, changeAmount, fee)
      else fee_loop attempts mk scripts privateKey inputValue dustAmount feeRate
             (wrap64 (requiredFee + wrap64 (minFee - fee)))
  end.
Definition sum64 (l : list Z) : Z := foldl (fun a v => wrap64 (a + v)) 0 l.
(** The path, version and dust of a request, or their defaults. *)
Definition request_path (req : MVCRegistryTxRequest) : string :=
  let path := TrimSpace (rq_Path req) in if is_empty path then RegistryPath else path.
Definition request_version (req : MVCRegistryTxRequest) : string :=
  let version := TrimSpace (rq_Version req) in if is_empty version then Version else version.
Definition request_dust (req : MVCRegistryTxRequest) : Z :=
  if rq_DustAmount req <=? 0 then mvcRegistryDefaultDust else rq_DustAmount req.
Definition BuildMVCRegistryTx (req : MVCRegistryTxRequest) : res MVCRegistryTxResult :=
  params <-? mvcRegistryNetParams (rq_Net req) ;;
  privateKey <-? mvcRegistryPrivateKeyFromHex (rq_PrivateKeyHex req) ;;
  let '(address, publicKeyHex) := mvcRegistryIdentity privateKey params in
  operation <-? mvcRegistryOperation (rq_Operation req) ;;
  if one_of operation ["create"; "modify"] && is_empty (rq_Content req) then Err "%s registry content is required" else
  if rq_FeeRate req <=? 0 then Err "fee rate must be positive" else
  let dustAmount := request_dust req in
  if zlen (rq_UTXOs req) =? 0 then Err "at least one UTXO is required" else
  inputs <-? add_inputs address params (rq_UTXOs req) ;;
  let inputValue := sum64 (map snd inputs) in
  ownerScript <-? mvcRegistryAddressScript address params ;;
  registryScript <-? mvcRegistryOPReturnScript operation (request_path req) (request_version req) (rq_Content req) ;;
  let mk := registry_tx (map (fun i => i.1.1) inputs) ownerScript registryScript dustAmount in
  let scripts := map (fun i => (i.1.2, i.2)) inputs in
  r <-? fee_loop 20 mk scripts privateKey inputValue dustAmount (rq_FeeRate req) 0 ;;
  let '(tx, changeAmount, fee) := r in
  rawTx <-? mvcRegistryRawTx tx ;;
  Ok (mkTxResult rawTx tx address publicKeyHex 0 2 changeAmount fee).
End Transactions.

(** ** publisher.go *)

(** The parts of a URL the base URLs are normalised with ([net/url]). *)
Class NetURLParts `{NU : NetURL} := {
  url_Path : URL -> string;
  url_RawQuery : URL -> string;
  url_Fragment : URL -> string;
  url_SetPath : string -> URL -> URL;
  url_SetRawQuery : string -> URL -> URL;
  url_SetFragment : string -> URL -> URL }.

(** [None] is a nil client.  The clock is an argument of the operations, the
    ticker factory decides only when [run] publishes again. *)
Record PublisherOptions := mkPublisherOptions {
  po_Enabled : bool; po_Network : string; po_NodePrivateKey : string; po_PublicBaseURL : string;
  po_RegistryPath : string; po_PresencePath : string; po_ValidFor : Z; po_RenewInterval : Z;
  po_FeeRate : Z; po_DustAmount : Z; po_UTXOFlag : string; po_Client : option PublisherClient }.
Record PublisherLatest := mkLatest {
  lt_TxID : string; lt_Operation : string; lt_Payload : option RegistryPayload; lt_Error : string }.
Record Publisher := mkPublisher {
  pb_enabled : bool; pb_network : string; pb_metaletNet : string; pb_nodePrivateKey : string;
  pb_publicBaseURL : string; pb_registryPath : string; pb_presencePath : string;
  pb_validFor : Z; pb_renewInterval : Z; pb_feeRate : Z; pb_dustAmount : Z; pb_utxoFlag : string;
  pb_client : option PublisherClient; pb_address : string; pb_publicKey : string;
  pb_latest : PublisherLatest }.
(** The zero [PublisherLatest]; its zero payload is [None]. *)
Definition no_latest : PublisherLatest := mkLatest "" "" None "".
Definition ErrPublisherDisabled : error := "federation publisher is disabled".

Section Publishing.
Context {EC : Secp256k1} {BS : Bsv} {NU : NetURL} {UP : NetURLParts} {FJ : FedJSON}.

Definition publisherMetaletNet (network : string) : string :=
  if String.eqb network "mvc-mainnet" then "livenet" else "testnet".
Definition normalizePublisherBaseURL (baseURL : string) : res string :=
  let raw := TrimSpace baseURL in
  if is_empty raw then Err "federation publisher requires public base URL" else
  parsed <-? url_Parse raw ;;
  if is_empty (u_Scheme parsed) || is_empty (u_Host parsed)
  then Err "public base URL requires scheme and host" else
  if negb (is_empty (url_RawQuery parsed)) || negb (is_empty (url_Fragment parsed))
  then Err "public base URL must not include query or fragment" else
  let parsed := url_SetPath (TrimRightChar "/" (url_Path parsed)) parsed in
  Ok (TrimRightChar "/" (url_String parsed)).
Definition NewPublisher (opts : PublisherOptions) : res Publisher :=
  network <-? normalizePublisherNetwork (po_Network opts) ;;
  let positive v d := if v <=? 0 then d else v in
  let publisher := mkPublisher (po_Enabled opts) network (publisherMetaletNet network)
    (TrimSpace (po_NodePrivateKey opts)) ""
    (normalizedPublisherPath (po_RegistryPath opts) RegistryPath)
    (normalizedPublisherPath (po_PresencePath opts) PresencePath)
    (positive (po_ValidFor opts) defaultPublisherValidFor)
    (positive (po_RenewInterval opts) defaultPublisherRenewInterval)
    (positive (po_FeeRate opts) defaultPublisherFeeRate)
    (positive (po_DustAmount opts) defaultPublisherDustAmount)
    (if is_empty (TrimSpace (po_UTXOFlag opts)) then defaultPublisherUTXOFlag else po_UTXOFlag opts)
    (po_Client opts) "" "" no_latest in
  if negb (pb_enabled publisher) then Ok publisher else
  match po_Client opts with
  | None => Err "federation publisher requires a client"
  | Some _ =>
      publicBaseURL <-? normalizePublisherBaseURL (po_PublicBaseURL opts) ;;
      let publisher := publisher <| pb_publicBaseURL := publicBaseURL |> in
      if is_empty (pb_nodePrivateKey publisher) then Err "federation publisher requires node private key" else
      identity <-? MVCIdentityFromPrivateKey (pb_nodePrivateKey publisher) (pb_network publisher) ;;
      Ok (publisher <| pb_address := identity.1 |> <| pb_publicKey := identity.2 |>)
  end.

Fixpoint publisherRegistryUTXOs_loop (utxos : list MVCUTXO) : res (list MVCRegistryUTXO) :=
  match utxos with
  | [] => Ok []
  | utxo :: utxos =>
      if is_empty (TrimSpace (mu_TxID utxo)) then Err "utxo %d txid is required" else
      if mu_OutIndex utxo <? 0 then Err "utxo %d outIndex must be non-negative" else
      if MaxUint32 <? mu_OutIndex utxo then Err "utxo %d outIndex exceeds uint32" else
      rest <-? publisherRegistryUTXOs_loop utxos ;;
      Ok (mkUTXO (TrimSpace (mu_TxID utxo)) (mu_OutIndex utxo) (mu_Value utxo)
            (TrimSpace (mu_Address utxo)) "" :: rest)
  end.
Definition publisherRegistryUTXOs (utxos : list MVCUTXO) : res (list MVCRegistryUTXO) :=
  if zlen utxos =? 0 then Err "insufficient UTXO value: no MVC UTXOs available"
  else publisherRegistryUTXOs_loop utxos.

Definition payload_of (now : Z) (p : Publisher) : RegistryPayload :=
  registryPayload (pb_address p) (pb_network p) (pb_publicBaseURL p) (pb_presencePath p)
    (pb_publicKey p) (pb_validFor p) now.
(** The id of the last successful broadcast is kept. *)
Definition storePublishError (operation : string) (payload : RegistryPayload) (err : error) (p : Publisher)
    : option error * Publisher :=
  (Some err, p <| pb_latest := mkLatest (lt_TxID (pb_latest p)) (TrimSpace operation) (Some payload) err |>).
(** The request [PublishOnce] builds its transaction from, and the steps up to
    the id of the broadcast transaction. *)
Definition registry_request (operation : string) (now : Z) (utxos : list MVCRegistryUTXO) (p : Publisher)
    : MVCRegistryTxRequest :=
  mkTxRequest (pb_network p) (pb_nodePrivateKey p) utxos operation (pb_registryPath p) Version
    (json_Marshal (payload_of now p)) (pb_feeRate p) (pb_dustAmount p).
Definition broadcast_of (result : MVCRegistryTxResult) (p : Publisher) : MVCBroadcastRequest :=
  mkBroadcast "mvc" (pb_metaletNet p) (pb_publicKey p) (rs_RawTx result).
Definition publish_steps (client : PublisherClient) (operation : string) (now : Z) (p : Publisher) : res string :=
  utxos <-? MVCAddressUTXOs client (pb_metaletNet p) (pb_address p) (pb_utxoFlag p) ;;
  registryUTXOs <-? publisherRegistryUTXOs utxos ;;
  result <-? BuildMVCRegistryTx (registry_request operation now registryUTXOs p) ;;
  BroadcastMVC client (broadcast_of result p).
(** Every step that fails stores its error; an enabled publisher has a client. *)
Definition PublishOnce (operation : string) (now : Z) (p : Publisher) : option error * Publisher :=
  if negb (pb_enabled p) then (Some ErrPublisherDisabled, p) else
  match pb_client p with
  | None => (Some "panic: nil client", p)
  | Some client =>
      match publish_steps client operation now p with
      | Err err => storePublishError operation (payload_of now p) err p
      | Ok txid =>
          (None, p <| pb_latest := mkLatest (TrimSpace txid) (TrimSpace operation) (Some (payload_of now p)) "" |>)
      end
  end.
Definition Latest (p : Publisher) : PublisherLatest := pb_latest p.
(** [run] until its context ends: the times at which it publishes, of which the
    first is its start and the others are ticks. *)
Definition run (times : list Z) (p : Publisher) : Publisher :=
  match times with
  | [] => p
  | start :: ticks =>
      foldl (fun p now => (PublishOnce "modify" now p).2) (PublishOnce "create" start p).2 ticks
  end.
End Publishing.
