(* ===== verification/Metalet.v ===== *)
(** * Metalet: the client of the wallet service

    metalet_client.go of [internal/federation]: the base URL and its end points, the
    two requests, and the envelope the service may put around its answers.  The HTTP
    client is an argument that answers a method, a URL and a body; [url.Values] is
    encoded in the order of the keys, which are the three the code sets. *)

From S2P Require Import Prelude GoText Json FedStore Wire Federation Publisher.

Definition defaultMetaletTimeout : Z := 10 * 10 ^ 9.
Definition metaletWalletAPIPath : string := "/wallet-api".

(** What an HTTP client does with a request: an error, or a status with the body or
    the error of reading it. *)
Record HTTPTransport := mkTransport {
  ht_NewRequest : string -> string -> string -> option error;
  ht_Do : string -> string -> string -> res (Z * res string) }.
Record http_Client := mkHTTPClient { hc_transport : HTTPTransport; hc_Timeout : Z }.

Record metaletClientOptions := mkMetaletOptions {
  mo_httpClient : option http_Client; mo_timeout : Z; mo_timeoutSet : bool }.
Definition WithMetaletHTTPClient (client : option http_Client) (opts : metaletClientOptions) : metaletClientOptions :=
  match client with
  | Some c => mkMetaletOptions (Some c) (mo_timeout opts) (mo_timeoutSet opts)
  | None => opts
  end.
Definition WithMetaletTimeout (timeout : Z) (opts : metaletClientOptions) : metaletClientOptions :=
  if 0 <? timeout then mkMetaletOptions (mo_httpClient opts) timeout true else opts.

Record MetaletError := mkMetaletError {
  me_StatusCode : Z; me_Code : Z; me_Message : string; me_Body : string }.
Definition MetaletError_Error (e : MetaletError) : error :=
  if negb (me_Code e =? 0) || negb (is_empty (me_Message e))
  then "metalet API returned status " +:+ fmt_d (me_StatusCode e) +:+ " code " +:+ fmt_d (me_Code e)
       +:+ ": " +:+ me_Message e
  else "metalet API returned status " +:+ fmt_d (me_StatusCode e) +:+ ": " +:+ me_Body e.

(** [Data] is the raw text of the member, if it is there; so is the list. *)
Record metaletEnvelope := mkMetaletEnvelope {
  en_Code : Z; en_Message : string; en_ProcessingTime : Z; en_Data : option string }.
Record metaletUTXOList := mkUTXOList { ul_List : option (list MVCUTXO) }.
Class MetaletJSON := {
  json_probe :: JSON (gmap string string);
  json_envelope :: JSON metaletEnvelope;
  json_utxos :: JSON metaletUTXOList;
  json_result :: JSON string;
  json_broadcast :: JSON MVCBroadcastRequest }.

Section Metalet.
Context {NU : NetURL} {UP : NetURLParts} {MJ : MetaletJSON}.

Record MetaletClient := mkMetaletClient { mc_baseURL : URL; mc_httpClient : http_Client }.

Definition normalizeMetaletBaseURL (baseURL : string) : res URL :=
  parsed <-? url_Parse (TrimSpace baseURL) ;;
  if is_empty (u_Scheme parsed) || is_empty (u_Host parsed)
  then Err "metalet base URL requires scheme and host" else
  let path := TrimRightChar "/" (url_Path parsed) in
  let path := if is_empty path then metaletWalletAPIPath
              else if negb (HasSuffix path metaletWalletAPIPath) then path +:+ metaletWalletAPIPath
              else path in
  Ok (url_SetFragment "" (url_SetRawQuery "" (url_SetPath path parsed))).
(** [fresh] is the client made when none is given. *)
Definition NewMetaletClient (fresh : HTTPTransport) (baseURL : string)
    (opts : list (option (metaletClientOptions -> metaletClientOptions))) : res MetaletClient :=
  normalizedBaseURL <-? normalizeMetaletBaseURL baseURL ;;
  let options := foldl (fun o opt => match opt with Some f => f o | None => o end)
    (mkMetaletOptions None 0 false) opts in
  let httpClient := match mo_httpClient options with
    | None => mkHTTPClient fresh defaultMetaletTimeout
    | Some c => c end in
  let httpClient := if mo_timeoutSet options
    then mkHTTPClient (hc_transport httpClient) (mo_timeout options) else httpClient in
  Ok (mkMetaletClient normalizedBaseURL httpClient).

Definition endpoint (path : string) (c : MetaletClient) : URL :=
  url_SetPath (TrimRightChar "/" (url_Path (mc_baseURL c)) +:+ path) (mc_baseURL c).
(** The body of a 2xx answer and its status. *)
Definition metalet_do (method url body : string) (c : MetaletClient) : res (string * Z) :=
  resp <-? ht_Do (hc_transport (mc_httpClient c)) method url body ;;
  body <-? resp.2 ;;
  if (resp.1 <? 200) || (300 <=? resp.1)
  then Err (MetaletError_Error (mkMetaletError resp.1 0 "" body))
  else Ok (body, resp.1).
(** A body that is no object, or an object with neither member, is the data. *)
Definition metaletResponseData (body : string) (statusCode : Z) : res string :=
  match json_Unmarshal (A := gmap string string) body with
  | Err _ => Ok body
  | Ok probe =>
      if negb (bool_decide (is_Some (probe !! "code"))) && negb (bool_decide (is_Some (probe !! "data")))
      then Ok body else
      envelope <-? json_Unmarshal (A := metaletEnvelope) body ;;
      if negb (en_Code envelope =? 0)
      then Err (MetaletError_Error (mkMetaletError statusCode (en_Code envelope) (en_Message envelope) body))
      else Ok (default "null" (en_Data envelope))
  end.
Definition request (method : string) (url : URL) (body : string) (c : MetaletClient) : res string :=
  match ht_NewRequest (hc_transport (mc_httpClient c)) method (url_String url) body with
  | Some err => Err err
  | None =>
      r <-? metalet_do method (url_String url) body c ;;
      metaletResponseData r.1 r.2
  end.
(** [url.Values.Encode]: the keys in order. *)
Definition utxo_query (net address flag : string) : string :=
  "address=" +:+ QueryEscape address
  +:+ (if is_empty flag then "" else "&flag=" +:+ QueryEscape flag) +:+ "&net=" +:+ QueryEscape net.
Definition metalet_MVCAddressUTXOs (c : MetaletClient) (net address flag : string) : res (list MVCUTXO) :=
  let endpoint := url_SetRawQuery (utxo_query net address flag) (endpoint "/v4/mvc/address/utxo-list" c) in
  body <-? request "GET" endpoint "" c ;;
  response <-? json_Unmarshal (A := metaletUTXOList) body ;;
  Ok (default [] (ul_List response)).
Definition metalet_BroadcastMVC (c : MetaletClient) (broadcast : MVCBroadcastRequest) : res string :=
  body <-? request "POST" (endpoint "/v4/mvc/tx/broadcast" c) (json_Marshal broadcast) c ;;
  match json_Unmarshal (A := string) body with
  | Ok result => Ok result
  | Err _ => Ok (TrimSpace body)
  end.
(** The client as the publisher uses it. *)
Definition metalet_client (c : MetaletClient) : PublisherClient :=
  mkPublisherClient (metalet_MVCAddressUTXOs c) (metalet_BroadcastMVC c).

(** ** Answers with and without the envelope *)

Lemma metalet_plain body status :
  (forall probe, json_Unmarshal (A := gmap string string) body = Ok probe ->
     probe !! "code" = None /\ probe !! "data" = None) ->
  metaletResponseData body status = Ok body.
Proof.
  intros H. unfold metaletResponseData. destruct (json_Unmarshal body) as [probe|]; [|done].
  by destruct (H probe eq_refl) as [-> ->].
Qed.
Lemma metalet_enveloped body status probe e :
  json_Unmarshal body = Ok probe -> is_Some (probe !! "code") \/ is_Some (probe !! "data") ->
  json_Unmarshal body = Ok e -> en_Code e = 0 ->
  metaletResponseData body status = Ok (default "null" (en_Data e)).
Proof.
  intros Hp Hm He Hc. unfold metaletResponseData. rewrite Hp, He, Hc.
  rewrite (proj2 (andb_false_iff _ _)); [done|].
  destruct Hm; [left|right]; by rewrite bool_decide_eq_true_2.
Qed.
(** A code other than 0 is an error, whatever the status and the data. *)
Lemma metalet_code_fails body status probe e :
  json_Unmarshal body = Ok probe -> is_Some (probe !! "code") ->
  json_Unmarshal body = Ok e -> en_Code e <> 0 ->
  is_ok (metaletResponseData body status) = false.
Proof.
  intros Hp Hm He Hc. unfold metaletResponseData. rewrite Hp, He, bool_decide_eq_true_2 by done.
  cbn [negb andb]. by rewrite (proj2 (Z.eqb_neq _ _)).
Qed.
(** The wallet service can only be reached under its API path. *)
Lemma metalet_base_path baseURL u :
  (forall p u, url_Path (url_SetPath p u) = p) ->
  (forall q u, url_Path (url_SetRawQuery q u) = url_Path u) ->
  (forall f u, url_Path (url_SetFragment f u) = url_Path u) ->
  normalizeMetaletBaseURL baseURL = Ok u -> HasSuffix (url_Path u) metaletWalletAPIPath = true.
Proof.
  intros H1 H2 H3 H. unfold normalizeMetaletBaseURL in H. destruct (url_Parse _) as [parsed|]; [|done].
  destruct (_ || _); [done|]. cbv zeta in H. injection H as <-. rewrite H3, H2, H1.
  destruct (is_empty _); [done|]. destruct (HasSuffix (TrimRightChar _ _) _) eqn:E; cbn [negb]; [done|]. unfold HasSuffix, srev.
  rewrite srev_app_app, (srev_app_eq metaletWalletAPIPath (srev_app _ "")). apply HasPrefix_app.
Qed.
End Metalet.
