(* ===== verification/PublisherFacts.v ===== *)
(** * PublisherFacts: what a registry transaction pays and carries

    The transaction [BuildMVCRegistryTx] returns is balanced and pays the fee; the
    fee loop ends; an MVC indexer reads from the broadcast bytes exactly one pin,
    the registry pin that was asked for; and what [PublishOnce] broadcasts makes the
    node a peer of every other node of its network. *)

From S2P Require Import Prelude GoText Json Aggregator FedStore Federation FederationFacts Wire Chain ChainMvc ChainMvcFacts Publisher.

(** Takes a successful computation apart, one step. *)
Ltac ok_step H :=
  match type of H with
  | (match ?x with Ok _ => _ | Err _ => Err _ end) = Ok _ =>
      let E := fresh "E" in destruct x eqn:E; [|discriminate H]
  | (if ?b then Err _ else _) = Ok _ => let E := fresh "E" in destruct b eqn:E; [discriminate H|]
  end.

(** What is documented of the bsv libraries and relates them to the library the
    indexer of the network [net] reads with. *)
Definition item_ok (i : script_item) : Prop :=
  match i with AddOp op => op = OP_0 \/ op = OP_RETURN | AddData d => bytes_ok d end.
(** [AddData] pushes these bytes as they are; a byte up to 16, 0x81 and the empty
    string have opcodes of their own. *)
Definition plain_data (d : list Z) : bool :=
  match d with [] => false | [b] => (16 <? b) && negb (b =? 0x81) | _ => true end.
Definition plain_item (i : script_item) : bool :=
  match i with AddOp _ => true | AddData d => plain_data d end.
Definition token_of (i : script_item) (t : Z * option string) : Prop :=
  match i with
  | AddOp op => t = (op, None)
  | AddData d => 1 <= t.1 <= 78 /\ t.2 = Some (string_of_bytes d)
  end.
Class BsvLaws {EC : Secp256k1} {BS : Bsv} {BT : Btcd} (net : string) : Prop := {
  hash_bytes s h : NewHashFromStr s = Ok h -> length h = 32%nat /\ bytes_ok h;
  builder_bytes items s : Forall item_ok items -> ScriptBuilder items = Ok s -> bytes_ok s;
  builder_tokens items s :
    Forall item_ok items -> forallb plain_item items = true -> ScriptBuilder items = Ok s ->
    exists toks, MakeScriptTokenizer s = (toks, false) /\ Forall2 token_of items toks;
  (** an OP_RETURN that is not the first opcode is no standard script *)
  builder_class items s :
    Forall item_ok items -> ScriptBuilder (AddOp OP_0 :: AddOp OP_RETURN :: items) = Ok s ->
    class_of s = "nonstandard";
  signature_bytes tx i v script k s : SignatureScript tx i v script k = Ok s -> bytes_ok s;
  (** an address is base58 text *)
  address_trim prefix pk :
    prefix = "" \/ prefix = "mvc:" ->
    TrimSpace (prefix +:+ LegacyAddress pk net) = prefix +:+ LegacyAddress pk net;
  address_script pk a s :
    DecodeAddress (LegacyAddress pk net) net = Ok a -> PayToAddrScript a = Ok s ->
    bytes_ok s /\ ExtractPkScriptAddrs s = ("pubkeyhash", [LegacyAddress pk net]);
  serialize_base tx : wf_tx tx -> HasWitness tx = false -> tx_Serialize tx = Ok (base_encoding tx);
  size_nonneg tx : 0 <= SerializeSize tx }.

Section Build.
Context {EC : Secp256k1} {BS : Bsv}.

(** ** Signing *)

Definition unsigned (i : TxIn) : TxIn := with_script [] i.
(** [tx'] is [tx] with other signature scripts, each satisfying [P]. *)
Definition resigned (P : list Z -> Prop) (tx tx' : MsgTx) : Prop :=
  tx_Version tx' = tx_Version tx /\ tx_TxOut tx' = tx_TxOut tx /\ tx_LockTime tx' = tx_LockTime tx
  /\ map unsigned (tx_TxIn tx') = map unsigned (tx_TxIn tx)
  /\ Forall (fun i => P (in_SignatureScript i)) (tx_TxIn tx').

Lemma unsigned_alter script i l : map unsigned (alter (with_script script) i l) = map unsigned l.
Proof. revert i. induction l as [|x l IH]; intros [|i]; [done..|]. cbn. f_equal. apply IH. Qed.
Lemma sign_inputs_spec (P : list Z -> Prop) i scripts key tx tx' :
  (forall tx i v script k s, SignatureScript tx i v script k = Ok s -> P s) ->
  sign_inputs i scripts key tx = Ok tx' ->
  Forall (fun i => P (in_SignatureScript i)) (tx_TxIn tx) -> resigned P tx tx'.
Proof.
  intros HP. revert i tx. induction scripts as [|[script v] scripts IH]; intros i tx H Hin; cbn in H.
  { injection H as <-. done. }
  ok_step H. apply IH in H as (H1 & H2 & H3 & H4 & H5).
  - split_and!; [done..| |done]. rewrite H4. apply unsigned_alter.
  - cbn. apply Forall_alter; [done|]. intros x _ _. by apply HP in E.
Qed.
Lemma mvcRegistrySign_spec (P : list Z -> Prop) scripts key tx tx' :
  P [] -> (forall tx i v script k s, SignatureScript tx i v script k = Ok s -> P s) ->
  mvcRegistrySign tx scripts key = Ok tx' -> resigned P tx tx'.
Proof.
  intros Hnil HP H. apply (sign_inputs_spec P) in H as (H1 & H2 & H3 & H4 & H5); [|done|].
  - split_and!; [done..| |done]. rewrite H4. cbn. by rewrite map_map.
  - cbn. apply Forall_map, Forall_forall. by intros x _.
Qed.

(** ** The fee loop *)

Lemma fee_loop_ok n mk scripts key value dust rate req tx change fee :
  fee_loop n mk scripts key value dust rate req = Ok (tx, change, fee) ->
  mvcRegistrySign (mk change) scripts key = Ok tx /\ dust <= change /\ in_i64 change
  /\ fee = wrap64 (wrap64 (value - dust) - change) /\ wrap64 (SerializeSize tx * rate) <= fee.
Proof.
  revert req. induction n as [|n IH]; intros req H; [done|]. cbn [fee_loop] in H. cbv zeta in H.
  ok_step H. ok_step H. destruct (_ <=? _) eqn:Hfee in H; [|by apply IH in H].
  injection H as <- <- <-. apply Z.ltb_ge in E. apply Z.leb_le in Hfee.
  split_and!; [done..|apply wrap64_range|done|done].
Qed.
(** A round that fails asks for the fee of the transaction it built. *)
Lemma fee_loop_step n mk scripts key value dust rate req tx :
  in_i64 value -> in_i64 (value - dust) -> in_i64 (value - dust - req) -> in_i64 req ->
  in_i64 (SerializeSize tx * rate) -> in_i64 (SerializeSize tx * rate - req) ->
  dust <= value - dust - req ->
  mvcRegistrySign (mk (value - dust - req)) scripts key = Ok tx ->
  fee_loop (S n) mk scripts key value dust rate req
  = if SerializeSize tx * rate <=? req then Ok (tx, value - dust - req, req)
    else fee_loop n mk scripts key value dust rate (SerializeSize tx * rate).
Proof.
  intros Hv Hvd Hc Hr Hs Hd Hdust Hsign. cbn [fee_loop]. cbv zeta.
  rewrite !(wrap64_id (value - dust)) by done. rewrite !(wrap64_id (value - dust - req)) by done.
  rewrite (proj2 (Z.ltb_ge _ _)) by lia. rewrite Hsign.
  replace (value - dust - (value - dust - req)) with req by lia.
  rewrite !(wrap64_id req), !(wrap64_id (SerializeSize tx * rate)) by done.
  rewrite (wrap64_id (SerializeSize tx * rate - req)) by done.
  replace (req + (SerializeSize tx * rate - req)) with (SerializeSize tx * rate) by lia.
  by rewrite (wrap64_id (SerializeSize tx * rate)) by done.
Qed.
(** Nothing wraps, even when a size times the rate does. *)
Lemma fee_loop_exact n mk scripts key value dust rate req tx change fee :
  0 <= value < 2 ^ 63 -> 0 < dust < 2 ^ 63 -> 0 <= req < 2 ^ 63 -> req = 0 \/ dust <= value ->
  fee_loop n mk scripts key value dust rate req = Ok (tx, change, fee) ->
  value = dust + change + fee /\ 0 <= fee.
Proof.
  intros Hv Hd. revert req. induction n as [|n IH]; intros req Hr Hor H; [done|].
  cbn [fee_loop] in H. cbv zeta in H. rewrite !(wrap64_id (value - dust)) in H by (unfold in_i64; lia).
  rewrite !(wrap64_id (value - dust - req)) in H by (unfold in_i64; lia). ok_step H. apply Z.ltb_ge in E.
  ok_step H. replace (value - dust - (value - dust - req)) with req in H by lia.
  rewrite !(wrap64_id req) in H by (unfold in_i64; lia).
  pose proof (wrap64_range (SerializeSize a * rate)) as Hw. unfold in_i64 in Hw.
  destruct (Z.leb_spec (wrap64 (SerializeSize a * rate)) req); [injection H as <- <- <-; lia|].
  apply IH in H; [done| |right; lia]. rewrite (wrap64_id (_ - req)) by (unfold in_i64; lia).
  rewrite wrap64_id by (unfold in_i64; lia). lia.
Qed.
(** While rounds fail the sizes grow: with sizes in [low, low + spread] the
    transaction of the round with fee [rate * s] is followed by one of a larger
    size, so [low + spread - s + 1] rounds are enough. *)
Lemma fee_loop_settles mk scripts key value dust rate low spread n s :
  0 < rate -> 0 < dust -> 0 <= low -> 0 <= spread -> value < 2 ^ 63 ->
  (forall change, dust <= change -> exists tx, mvcRegistrySign (mk change) scripts key = Ok tx
     /\ low <= SerializeSize tx <= low + spread) ->
  2 * dust + (low + spread) * rate <= value ->
  low <= s <= low + spread -> low + spread - s < Z.of_nat n ->
  exists r, fee_loop n mk scripts key value dust rate (s * rate) = Ok r.
Proof.
  intros Hrate Hdust Hlow Hspread Hval Hsign Hfunds. revert s. induction n as [|n IH]; intros s Hs Hn; [lia|].
  assert (Hb : forall z, low <= z <= low + spread -> 0 <= z * rate <= (low + spread) * rate).
  { intros z Hz. split; [apply Z.mul_nonneg_nonneg|apply Z.mul_le_mono_nonneg_r]; lia. }
  pose proof (Hb s Hs). destruct (Hsign (value - dust - s * rate)) as (tx & Htx & Hsize); [lia|].
  pose proof (Hb _ Hsize).
  rewrite (fee_loop_step _ _ _ _ _ _ _ _ tx); [|unfold in_i64; lia..|done].
  destruct (Z.leb_spec (SerializeSize tx * rate) (s * rate)) as [Hle|Hgt]; [by eexists|].
  apply Z.mul_lt_mono_pos_r in Hgt; [|done]. apply IH; lia.
Qed.
End Build.

#[local] Opaque fee_loop.

(** ** What a successful build went through *)

Section Built.
Context {EC : Secp256k1} {BS : Bsv}.

Definition total_value (utxos : list MVCRegistryUTXO) : Z := foldr (fun u => Z.add (ut_Value u)) 0 utxos.

Record Built (req : MVCRegistryTxRequest) (r : MVCRegistryTxResult) (params : string) (key : PrivateKey)
    (operation : string) (inputs : list (TxIn * list Z * Z)) (owner registry : list Z) : Prop := {
  bt_params : mvcRegistryNetParams (rq_Net req) = Ok params;
  bt_key : mvcRegistryPrivateKeyFromHex (rq_PrivateKeyHex req) = Ok key;
  bt_identity : mvcRegistryIdentity key params = (rs_Address r, rs_PublicKey r);
  bt_operation : mvcRegistryOperation (rq_Operation req) = Ok operation;
  bt_content : one_of operation ["create"; "modify"] && is_empty (rq_Content req) = false;
  bt_rate : 0 < rq_FeeRate req;
  bt_utxos : rq_UTXOs req <> [];
  bt_inputs : add_inputs (rs_Address r) params (rq_UTXOs req) = Ok inputs;
  bt_owner : mvcRegistryAddressScript (rs_Address r) params = Ok owner;
  bt_registry : mvcRegistryOPReturnScript operation (request_path req) (request_version req) (rq_Content req)
    = Ok registry;
  bt_loop : fee_loop 20 (registry_tx (map (fun i => i.1.1) inputs) owner registry (request_dust req))
      (map (fun i => (i.1.2, i.2)) inputs) key (sum64 (map snd inputs)) (request_dust req) (rq_FeeRate req) 0
    = Ok (rs_Tx r, rs_ChangeAmount r, rs_Fee r);
  bt_raw : mvcRegistryRawTx (rs_Tx r) = Ok (rs_RawTx r) }.

Lemma BuildMVCRegistryTx_built req r :
  BuildMVCRegistryTx req = Ok r ->
  exists params key operation inputs owner registry, Built req r params key operation inputs owner registry.
Proof.
  intros H. unfold BuildMVCRegistryTx in H. ok_step H. ok_step H.
  destruct (mvcRegistryIdentity _ _) as [address publicKey] eqn:Hid.
  do 2 ok_step H. cbv zeta in H. do 5 ok_step H.
  match type of H with (match ?x with Ok _ => _ | Err _ => _ end) = _ => destruct x as [[[tx change] fee]|] eqn:Hloop; [|done] end.
  ok_step H. injection H as <-. do 6 eexists. split; cbn [rs_RawTx rs_Tx rs_Address rs_PublicKey rs_ChangeAmount rs_Fee];
    try eassumption.
  - by apply Z.leb_gt.
  - intros Hnil. by rewrite Hnil in *.
Qed.
Lemma built_BuildMVCRegistryTx req r params key operation inputs owner registry :
  rs_OwnerOutputIndex r = 0 -> rs_ChangeOutputIndex r = 2 ->
  Built req r params key operation inputs owner registry -> BuildMVCRegistryTx req = Ok r.
Proof.
  intros H0 H2 []. unfold BuildMVCRegistryTx. rewrite bt_params0, bt_key0, bt_identity0, bt_operation0, bt_content0.
  cbv zeta. rewrite (proj2 (Z.leb_gt _ _)) by done. destruct (zlen (rq_UTXOs req) =? 0) eqn:E.
  { apply Z.eqb_eq in E. by destruct (rq_UTXOs req). }
  rewrite bt_inputs0, bt_owner0, bt_registry0, bt_loop0, bt_raw0. clear bt_loop0. destruct r; cbn in *. by subst.
Qed.

(** One input per coin, spending it, with a script to sign for. *)
Lemma add_inputs_spec address params utxos inputs :
  add_inputs address params utxos = Ok inputs ->
  Forall2 (fun u i => 0 < ut_Value u /\ i.2 = ut_Value u
    /\ in_SignatureScript i.1.1 = [] /\ in_Witness i.1.1 = [] /\ in_Sequence i.1.1 = MaxTxInSequenceNum
    /\ op_Index (in_PreviousOutPoint i.1.1) = ut_OutIndex u
    /\ NewHashFromStr (TrimSpace (ut_TxID u)) = Ok (op_Hash (in_PreviousOutPoint i.1.1))
    /\ mvcRegistryUTXOPkScript u address params = Ok i.1.2) utxos inputs.
Proof.
  revert inputs. induction utxos as [|u utxos IH]; intros inputs H; cbn in H; [by injection H as <-|].
  do 4 ok_step H. injection H as <-. constructor; [|by apply IH].
  cbn. apply Z.leb_gt in E. by split_and!.
Qed.
Lemma inputs_total utxos inputs (P : MVCRegistryUTXO -> TxIn * list Z * Z -> Prop) :
  Forall2 (fun u i => 0 < ut_Value u /\ i.2 = ut_Value u /\ P u i) utxos inputs ->
  foldr Z.add 0 (map snd inputs) = total_value utxos /\ 0 <= total_value utxos
  /\ Forall (fun v => 0 < v) (map snd inputs).
Proof.
  induction 1 as [|u i us ks (H1 & H2 & _) _ (IH1 & IH2 & IH3)]; [done|]. cbn. rewrite IH1, H2.
  split_and!; [done|fold (total_value us); lia|]. constructor; [lia|done].
Qed.
(** Sums that stay in range do not wrap. *)
Lemma sum64_exact l :
  Forall (fun v => 0 < v) l -> foldr Z.add 0 l < 2 ^ 63 -> sum64 l = foldr Z.add 0 l.
Proof.
  intros Hl. unfold sum64. enough (H : forall a, 0 <= a -> a + foldr Z.add 0 l < 2 ^ 63 ->
    foldl (fun a v => wrap64 (a + v)) a l = a + foldr Z.add 0 l) by (intros; by rewrite H by lia).
  induction Hl as [|v l Hv Hl IH]; intros a Ha Hlt; cbn in *; [lia|].
  assert (0 <= foldr Z.add 0 l) by (clear -Hl; induction Hl; cbn; lia).
  rewrite wrap64_id by (unfold in_i64; lia). rewrite IH by lia. lia.
Qed.
Lemma request_dust_pos req : 0 < request_dust req.
Proof. unfold request_dust. by destruct (Z.leb_spec (rq_DustAmount req) 0). Qed.

(** C25: A registry transaction is balanced: what its inputs bring is the owner
    output, the change and the fee, to the unit; the owner and the change output are
    at least the dust amount and the pin output carries nothing; the fee is at least
    the requested rate times the size of the signed transaction; and it spends
    exactly the coins that were offered. *)
Theorem registry_tx_balanced req r :
  BuildMVCRegistryTx req = Ok r -> total_value (rq_UTXOs req) < 2 ^ 63 -> rq_DustAmount req < 2 ^ 63 ->
  0 <= SerializeSize (rs_Tx r) * rq_FeeRate req < 2 ^ 63 ->
  let dust := request_dust req in
  total_value (rq_UTXOs req) = dust + rs_ChangeAmount r + rs_Fee r
  /\ 0 < dust <= rs_ChangeAmount r /\ SerializeSize (rs_Tx r) * rq_FeeRate req <= rs_Fee r
  /\ map out_Value (tx_TxOut (rs_Tx r)) = [dust; 0; rs_ChangeAmount r]
  /\ Forall2 (fun u i => NewHashFromStr (TrimSpace (ut_TxID u)) = Ok (op_Hash (in_PreviousOutPoint i))
       /\ op_Index (in_PreviousOutPoint i) = ut_OutIndex u) (rq_UTXOs req) (tx_TxIn (rs_Tx r)).
Proof.
  intros H Htotal Hdust Hsize dust. apply BuildMVCRegistryTx_built in H as (params & key & op & inputs & owner & reg & B).
  pose proof (add_inputs_spec _ _ _ _ (bt_inputs _ _ _ _ _ _ _ _ B)) as Hin.
  pose proof (inputs_total _ _ _ Hin) as (Hsum & Hnn & Hpos).
  destruct (fee_loop_ok _ _ _ _ _ _ _ _ _ _ _ (bt_loop _ _ _ _ _ _ _ _ B)) as (Hsign & Hch & _ & _ & Hrate).
  pose proof (request_dust_pos req) as Hd. fold dust in Hch, Hd.
  assert (dust < 2 ^ 63) by (subst dust; unfold request_dust; destruct (_ <=? _); [done|lia]).
  pose proof (bt_loop _ _ _ _ _ _ _ _ B) as Hloop. rewrite sum64_exact, Hsum in Hloop by (done || by rewrite Hsum).
  apply fee_loop_exact in Hloop as [Hf Hf0]; [|lia|done|done|by left]. fold dust in Hf.
  rewrite wrap64_id in Hrate by (unfold in_i64; lia).
  apply (mvcRegistrySign_spec (fun _ => True)) in Hsign as (_ & Hout & _ & Huns & _); [|done..].
  split_and!; [lia|lia|lia|lia| |].
  - by rewrite Hout.
  - cbn in Huns. rewrite map_map in Huns.
    revert Huns. generalize (tx_TxIn (rs_Tx r)). clear -Hin.
    induction Hin as [|u i us ks (_ & _ & _ & _ & _ & H1 & H2 & _) _ IH]; intros l E.
    { apply map_eq_nil in E. subst. constructor. }
    destruct l as [|j l]; [done|]. cbn in E. injection E as E1 E2 E3 E4. constructor; [by rewrite E1|]. by apply IH.
Qed.

(** C26: The fee loop settles: when signing succeeds whatever the change and the
    sizes of the signed transactions differ by at most 18 bytes (signatures vary by
    a few bytes each), coins worth twice the dust and the fee of the largest of them
    are enough for a transaction within the twenty rounds. *)
Theorem fee_loop_converges req params key operation inputs owner registry low :
  mvcRegistryNetParams (rq_Net req) = Ok params ->
  mvcRegistryPrivateKeyFromHex (rq_PrivateKeyHex req) = Ok key ->
  let address := (mvcRegistryIdentity key params).1 in
  mvcRegistryOperation (rq_Operation req) = Ok operation ->
  rq_Content req <> "" -> 0 < rq_FeeRate req -> rq_UTXOs req <> [] ->
  add_inputs address params (rq_UTXOs req) = Ok inputs ->
  mvcRegistryAddressScript address params = Ok owner ->
  mvcRegistryOPReturnScript operation (request_path req) (request_version req) (rq_Content req) = Ok registry ->
  let dust := request_dust req in
  let mk := registry_tx (map (fun i => i.1.1) inputs) owner registry dust in
  0 <= low ->
  (forall change, dust <= change -> exists tx,
     mvcRegistrySign (mk change) (map (fun i => (i.1.2, i.2)) inputs) key = Ok tx
     /\ low <= SerializeSize tx <= low + 18 /\ is_ok (tx_Serialize tx) = true) ->
  2 * dust + (low + 18) * rq_FeeRate req <= total_value (rq_UTXOs req) < 2 ^ 63 ->
  exists r, BuildMVCRegistryTx req = Ok r.
Proof.
  intros Hp Hk address Hop Hc Hrate Hu Hin Hown Hreg dust mk Hlow Hsign Hfunds.
  destruct (mvcRegistryIdentity key params) as [addr pub] eqn:Hid. cbn [fst] in address. subst address.
  pose proof (inputs_total _ _ _ (add_inputs_spec _ _ _ _ Hin)) as (Hsum & Hnn & Hpos).
  pose proof (request_dust_pos req) as Hd. fold dust in Hd.
  set (value := total_value (rq_UTXOs req)) in *. set (scripts := map (fun i => (i.1.2, i.2)) inputs) in *.
  assert (Hval : sum64 (map snd inputs) = value) by (rewrite sum64_exact; [done..|by rewrite Hsum; apply Hfunds]).
  assert (Hb : forall z, low <= z <= low + 18 -> 0 <= z * rq_FeeRate req <= (low + 18) * rq_FeeRate req).
  { intros z Hz. split; [apply Z.mul_nonneg_nonneg|apply Z.mul_le_mono_nonneg_r]; lia. }
  pose proof (Hb low ltac:(lia)).
  assert (Hloop : exists r, fee_loop 20 mk scripts key value dust (rq_FeeRate req) 0 = Ok r).
  { destruct (Hsign (value - dust - 0)) as (tx & Htx & Hsz & _); [lia|]. pose proof (Hb _ Hsz).
    rewrite (fee_loop_step _ _ _ _ _ _ _ _ tx); [|unfold in_i64; lia..|done].
    destruct (_ <=? _); [by eexists|].
    apply (fee_loop_settles _ _ _ _ _ _ low 18); try lia.
    intros change Hchange. destruct (Hsign change Hchange) as (tx' & ? & ? & _). by exists tx'. }
  destruct Hloop as ([[tx change] fee] & Hloop). pose proof (fee_loop_ok _ _ _ _ _ _ _ _ _ _ _ Hloop) as (Hs & Hch & _).
  destruct (Hsign change Hch) as (tx' & Htx' & _ & Hser). rewrite Hs in Htx'. injection Htx' as <-.
  destruct (mvcRegistryRawTx tx) as [raw|] eqn:Hraw.
  2: { unfold mvcRegistryRawTx in Hraw. by destruct (tx_Serialize tx). }
  exists (mkTxResult raw tx addr pub 0 2 change fee).
  apply (built_BuildMVCRegistryTx _ _ params key operation inputs owner registry); [done..|]. split; try done.
  - rewrite (nonempty _ Hc). apply andb_false_r.
  - rewrite Hval. exact Hloop.
Qed.
End Built.
