(* ===== verification/PublisherPin.v ===== *)
(** * PublisherPin: from the publisher to the indexer and to other nodes

    An MVC indexer reads from a registry transaction exactly one pin, with the
    operation, path and content that were asked for and the publisher's address; a
    publication makes the node a candidate of every node of its network. *)

From S2P Require Import Prelude GoText Json Aggregator FedStore Federation FederationFacts Wire Chain ChainMvc ChainMvcFacts Publisher PublisherFacts.
From coqutil.Datatypes Require Import RecordSetters.
Import TriangleBracketNotations.

#[local] Opaque fee_loop.

Section Pin.
Context {EC : Secp256k1} {BS : Bsv} {BT : Btcd}.

(** ** The registry script *)

Lemma content_chunks_concat fuel content :
  (length content <= fuel)%nat -> concat (content_chunks fuel content) = content.
Proof.
  revert content. induction fuel as [|fuel IH]; intros [|b content] Hl; cbn [length] in *; [done|lia|done|].
  cbn [content_chunks concat]. rewrite IH; [apply take_drop|].
  rewrite length_drop. cbn [length]. unfold mvcRegistryMaxPushSize. lia.
Qed.
Lemma content_chunks_ok fuel content : bytes_ok content -> Forall bytes_ok (content_chunks fuel content).
Proof.
  revert content. induction fuel as [|fuel IH]; intros [|b content] Hb; [constructor..|].
  cbn [content_chunks]. constructor; [by apply Forall_take|]. by apply IH, Forall_drop.
Qed.
Lemma registry_items_ok operation path version content :
  Forall item_ok (registry_items operation path version content).
Proof.
  unfold registry_items. apply Forall_app. split.
  - repeat (apply Forall_cons; split; [try apply bytes_of_string_ok|]); [by left|by right|done].
  - apply Forall_map. eapply Forall_impl; [apply content_chunks_ok, bytes_of_string_ok|done].
Qed.

(** What a request may ask for so that its fields are pushed as data: no field
    and no chunk of the content is empty or a single control byte. *)
Definition plain_request (req : MVCRegistryTxRequest) : bool :=
  plain_data (bytes_of_string (request_path req)) && plain_data (bytes_of_string (request_version req))
  && forallb plain_data (content_chunks (String.length (rq_Content req)) (bytes_of_string (rq_Content req))).

Lemma data_tokens chunks toks :
  Forall2 token_of (map AddData chunks) toks -> toks.*2 = map (fun d => Some (string_of_bytes d)) chunks.
Proof.
  revert toks. induction chunks as [|d chunks IH]; intros toks H; cbn in H.
  { by apply Forall2_nil_inv_l in H as ->. }
  apply Forall2_cons_inv_l in H as (t & toks' & [_ Ht] & H & ->). cbn. rewrite Ht. f_equal. by apply IH.
Qed.
Lemma string_of_bytes_app l k : string_of_bytes (l ++ k) = string_of_bytes l +:+ string_of_bytes k.
Proof. induction l as [|b l IH]; [done|]. cbn. by rewrite IH. Qed.
Lemma body_of_chunks chunks s :
  foldl (fun b d => b +:+ data_string d) s (map (fun d => Some (string_of_bytes d)) chunks)
  = s +:+ string_of_bytes (concat chunks).
Proof.
  revert s. induction chunks as [|d chunks IH]; intros s; cbn; [by rewrite sapp_nil_r|].
  rewrite IH, string_of_bytes_app. by rewrite sapp_assoc.
Qed.

(** The pin that the registry output of a request is read as. *)
Definition registry_pin_of (operation : string) (req : MVCRegistryTxRequest) : PinInscription :=
  blank_pin <| pin_Path := ToLower (request_path req) |> <| pin_Operation := operation |>
    <| pin_ContentType := mvcRegistryContentType |> <| pin_ContentBody := rq_Content req |>.

Lemma mvcRegistryOperation_one operation op :
  mvcRegistryOperation operation = Ok op -> op = "create" \/ op = "modify" \/ op = "revoke".
Proof.
  unfold mvcRegistryOperation. cbv zeta. destruct (one_of _ _) eqn:E; [|done]. intros [= <-].
  unfold one_of in E. apply existsb_exists in E as (x & Hx & E). apply String.eqb_eq in E. rewrite E.
  cbn in Hx. intuition.
Qed.
Ltac token_item H d E := let o := fresh "o" in apply Forall2_cons_inv_l in H as ([o d] & ? & [_ E] & H & ->).
Lemma registry_tokens net {BL : BsvLaws net} operation path version content script :
  let chunks := content_chunks (String.length content) (bytes_of_string content) in
  plain_data (bytes_of_string operation) && plain_data (bytes_of_string path)
    && plain_data (bytes_of_string version) && forallb plain_data chunks = true ->
  ScriptBuilder (registry_items operation path version content) = Ok script ->
  exists op toks, MakeScriptTokenizer script
      = ((OP_0, None) :: (OP_RETURN, None) :: (op, Some "metaid") :: toks, false)
    /\ toks.*2 = [Some operation; Some path; Some mvcRegistryEncryption; Some version; Some mvcRegistryContentType]
                 ++ map (fun d => Some (string_of_bytes d)) chunks.
Proof.
  intros chunks Hplain Hscript. pose proof (registry_items_ok operation path version content) as Hok.
  edestruct builder_tokens as (toks & Htoks & Hf); [exact Hok| |exact Hscript|].
  { unfold registry_items. fold chunks. cbn [app forallb plain_item].
    assert (forallb plain_item (map AddData chunks) = forallb plain_data chunks) as ->
      by (clear; induction chunks as [|d l IH]; [done|]; cbn; by rewrite IH).
    do 3 (apply andb_prop in Hplain as [Hplain ->]). by rewrite Hplain. }
  unfold registry_items in Hf. fold chunks in Hf. cbn [app] in Hf.
  apply Forall2_cons_inv_l in Hf as (t1 & ? & -> & Hf & ->). apply Forall2_cons_inv_l in Hf as (t2 & ? & -> & Hf & ->).
  token_item Hf d1 H1. token_item Hf d2 H2. token_item Hf d3 H3. token_item Hf d4 H4.
  token_item Hf d5 H5. token_item Hf d6 H6.
  apply data_tokens in Hf. rewrite string_of_bytes_of_string in *. cbn [snd] in *. subst.
  do 2 eexists. split; [exact Htoks|]. cbn. by rewrite Hf.
Qed.
Lemma parse_registry_fields operation req :
  operation = "create" \/ operation = "modify" \/ operation = "revoke" ->
  one_of operation ["create"; "modify"] && is_empty (rq_Content req) = false ->
  parseOpReturnFields
    ([Some operation; Some (request_path req); Some mvcRegistryEncryption; Some (request_version req);
      Some mvcRegistryContentType]
     ++ map (fun d => Some (string_of_bytes d))
          (content_chunks (String.length (rq_Content req)) (bytes_of_string (rq_Content req)))) false
  = Some (registry_pin_of operation req).
Proof.
  intros Hop Hcontent. set (chunks := content_chunks _ _).
  assert (Hbody : string_of_bytes (concat chunks) = rq_Content req).
  { unfold chunks. rewrite content_chunks_concat; [apply string_of_bytes_of_string|]. by rewrite bytes_of_string_length. }
  assert (Hlen : String.eqb operation "revoke" = false -> chunks <> []).
  { intros Hr Hnil. rewrite Hnil in Hbody. cbn in Hbody. rewrite <- Hbody, andb_true_r in Hcontent.
    by destruct Hop as [-> | [-> | ->]]. }
  cbn [app]. unfold parseOpReturnFields. change (data_string (Some operation)) with operation.
  assert (Hl : ToLower operation = operation) by (by destruct Hop as [-> | [-> | ->]]). rewrite Hl. clear Hl.
  assert (Hi : String.eqb operation "init" = false) by (by destruct Hop as [-> | [-> | ->]]). rewrite Hi.
  rewrite (proj2 (andb_false_iff _ _)).
  2: { destruct (String.eqb operation "revoke"); [by right|left].
       specialize (Hlen eq_refl). destruct chunks; [done|]. cbn [map]. rewrite !zlen_cons. apply Z.ltb_ge. zlen_lia. }
  rewrite (proj2 (andb_false_iff _ _)) by (right; rewrite !zlen_cons; apply Z.ltb_ge; zlen_lia).
  cbn [drop]. by rewrite drop_0, body_of_chunks, Hbody.
Qed.
Lemma parse_registry_script net {BL : BsvLaws net} operation req script :
  mvcRegistryOperation (rq_Operation req) = Ok operation ->
  one_of operation ["create"; "modify"] && is_empty (rq_Content req) = false ->
  plain_request req = true ->
  mvcRegistryOPReturnScript operation (request_path req) (request_version req) (rq_Content req) = Ok script ->
  bytes_ok script /\ is_data script = true /\ parseOpReturnPin script = Some (registry_pin_of operation req).
Proof.
  intros Hop Hcontent Hplain Hscript. unfold mvcRegistryOPReturnScript in Hscript.
  pose proof (registry_items_ok operation (request_path req) (request_version req) (rq_Content req)) as Hok.
  apply mvcRegistryOperation_one in Hop.
  split_and!; [by eapply builder_bytes| |].
  - unfold is_data. assert (class_of script = "nonstandard") as ->; [|done].
    eapply builder_class; [|exact Hscript]. by do 2 apply Forall_cons in Hok as [_ Hok].
  - edestruct registry_tokens as (op & toks & Htoks & Hf); [| |exact Hscript|]; [exact BL| |].
    { rewrite <- !andb_assoc. apply andb_true_intro. split; [by destruct Hop as [-> | [-> | ->]]|].
      unfold plain_request in Hplain. by rewrite <- andb_assoc in Hplain. }
    unfold parseOpReturnPin. rewrite Htoks. cbn [find_op_return].
    change (OP_0 =? OP_RETURN) with false. change (OP_RETURN =? OP_RETURN) with true. cbv iota.
    change (String.eqb (hex_EncodeToString (bytes_of_string (data_string (Some "metaid")))) "6d6574616964") with true.
    cbv iota. rewrite Hf. by apply parse_registry_fields.
Qed.

(** ** The transaction *)

Lemma varint_bytes v : 0 <= v -> bytes_ok (varint v).
Proof.
  intros Hv. unfold varint. repeat case_match; (apply Forall_cons; split; [unfold byte_ok; lia|]);
    [constructor|apply le_bytes_ok..].
Qed.
Lemma base_encoding_bytes tx : wf_tx tx -> bytes_ok (base_encoding tx).
Proof.
  intros (_ & _ & Hin & Hout & _). unfold base_encoding, bytes_ok.
  repeat (apply Forall_app; split); try apply le_bytes_ok; try apply varint_bytes, zlen_nonneg.
  - apply Forall_concat, Forall_map. eapply Forall_impl; [exact Hin|]. intros i (_ & Hh & Hs & _).
    unfold enc_in, var_bytes. repeat (apply Forall_app; split); try apply le_bytes_ok; try done.
    apply varint_bytes, zlen_nonneg.
  - apply Forall_concat, Forall_map. eapply Forall_impl; [exact Hout|]. intros o [_ Ho].
    unfold enc_out, var_bytes. repeat (apply Forall_app; split); try apply le_bytes_ok; try done.
    apply varint_bytes, zlen_nonneg.
Qed.

(** The ranges of the Go types and a size the indexer's decoder takes. *)
Definition request_ok (req : MVCRegistryTxRequest) : Prop :=
  Forall (fun u => 0 <= ut_OutIndex u < 2 ^ 32) (rq_UTXOs req) /\ rq_DustAmount req < 2 ^ 63.

Lemma mvcRegistryAddressScript_own net {BL : BsvLaws net} pk script :
  mvcRegistryAddressScript (LegacyAddress pk net) net = Ok script ->
  bytes_ok script /\ ExtractPkScriptAddrs script = ("pubkeyhash", [LegacyAddress pk net]).
Proof.
  unfold mvcRegistryAddressScript.
  rewrite (address_trim "" pk (or_introl eq_refl) : TrimSpace (LegacyAddress pk net) = LegacyAddress pk net). intros H. do 2 ok_step H. by eapply address_script.
Qed.
Lemma built_owner net {BL : BsvLaws net} req r key operation inputs owner registry :
  Built req r net key operation inputs owner registry ->
  bytes_ok owner /\ ExtractPkScriptAddrs owner = ("pubkeyhash", [rs_Address r]).
Proof.
  intros B. pose proof (bt_owner _ _ _ _ _ _ _ _ B) as Hown. pose proof (bt_identity _ _ _ _ _ _ _ _ B) as Hid.
  injection Hid as Hid _. rewrite <- Hid in *. by apply mvcRegistryAddressScript_own in Hown.
Qed.
Lemma built_wf net {BL : BsvLaws net} req r key operation inputs owner registry :
  Built req r net key operation inputs owner registry -> request_ok req -> plain_request req = true ->
  zlen (base_encoding (rs_Tx r)) < 2 ^ 62 ->
  wf_tx (rs_Tx r) /\ HasWitness (rs_Tx r) = false /\ tx_TxIn (rs_Tx r) <> []
  /\ tx_Version (rs_Tx r) = mvcRegistryTxVersion
  /\ tx_TxOut (rs_Tx r) = [mkTxOut (request_dust req) owner; mkTxOut 0 registry; mkTxOut (rs_ChangeAmount r) owner].
Proof.
  intros B [Hidx Hdust] Hplain Hsize.
  destruct (fee_loop_ok _ _ _ _ _ _ _ _ _ _ _ (bt_loop _ _ _ _ _ _ _ _ B)) as (Hsign & _ & Hch & _ & _).
  apply (mvcRegistrySign_spec bytes_ok) in Hsign as (Hver & Hout & Hlock & Hin & Hsigs);
    [|constructor|intros; by eapply signature_bytes].
  destruct (parse_registry_script net _ _ _ (bt_operation _ _ _ _ _ _ _ _ B) (bt_content _ _ _ _ _ _ _ _ B) Hplain
    (bt_registry _ _ _ _ _ _ _ _ B)) as (Hreg & _ & _).
  destruct (built_owner net _ _ _ _ _ _ _ B) as [Hown _].
  pose proof (add_inputs_spec _ _ _ _ (bt_inputs _ _ _ _ _ _ _ _ B)) as Hins.
  pose proof (request_dust_pos req). pose proof (bt_utxos _ _ _ _ _ _ _ _ B) as Hne.
  assert (request_dust req < 2 ^ 63) by (unfold request_dust; destruct (_ <=? _); [done|lia]).
  cbn in Hver, Hout, Hlock. unfold in_i64 in Hch.
  assert (Hall : Forall (fun i => wf_in i /\ in_Witness i = []) (tx_TxIn (rs_Tx r)) /\ tx_TxIn (rs_Tx r) <> []).
  { cbn in Hin. rewrite map_map in Hin. revert Hin Hsigs. generalize (tx_TxIn (rs_Tx r)). clear -Hins Hidx Hne BL.
    intros l E Hsigs. split.
    2: { intros ->. cbn in E. symmetry in E. apply map_eq_nil in E. subst. apply Forall2_nil_inv_r in Hins. done. }
    clear Hne. revert l E Hsigs. induction Hins as [|u i us ks (_ & _ & _ & Hw & Hs & Hx & Hh & _) _ IH]; intros l E Hsigs.
    { apply map_eq_nil in E. subst. constructor. }
    destruct l as [|j l]; [done|]. cbn in E. injection E as E1 E2 E3 E4.
    apply Forall_cons in Hsigs as [Hj Hsigs]. apply Forall_cons in Hidx as [Hu Hidx].
    constructor; [|by apply IH]. unfold wf_in. rewrite E1, E2, E3, Hw, Hs, Hx.
    apply hash_bytes in Hh as [? ?]. unfold MaxTxInSequenceNum. split_and!; (done || lia). }
  destruct Hall as [Hall Hnil]. apply Forall_and in Hall as [Hwf Hwit].
  split_and!; [|apply not_true_is_false; rewrite HasWitness_spec, Exists_exists|done|exact Hver|exact Hout].
  - unfold wf_tx. rewrite Hver, Hlock, Hout. split_and!; try done.
    repeat (apply Forall_cons; split); try done; (split; [cbn; lia|done]).
  - intros (i & Hi & Hne'). rewrite Forall_forall in Hwit. by apply Hne', Hwit.
Qed.
Lemma pin_hash_signed tx :
  wf_tx tx -> HasWitness tx = false -> tx_TxIn tx <> [] -> tx_TxOut tx <> [] -> 10 <= tx_Version tx ->
  pin_hash tx = Ok (doubleSHA256ReversedHex (manRaw (raw_tx tx))).
Proof.
  intros Hwf Hw Hi Ho Hv. unfold pin_hash, mvcMetaIDTxHash. rewrite (proj2 (Z.ltb_ge _ _)) by done.
  by rewrite Serialize_base, parse_base_encoding by done.
Qed.

(** What an MVC indexer reads: the broadcast hex decodes to the transaction,
    and the transaction carries exactly one pin, with the operation, the lower-cased
    path and the content that were asked for, however the content was cut into
    pushes, attributed to the address of the publisher's key. *)
Theorem registry_tx_publishes net {BL : BsvLaws net} req r height time :
  BuildMVCRegistryTx req = Ok r -> mvcRegistryNetParams (rq_Net req) = Ok net ->
  request_ok req -> plain_request req = true -> zlen (base_encoding (rs_Tx r)) <= 2 ^ 25 ->
  exists data pin,
    hex_DecodeString (rs_RawTx r) = Ok data /\ BtcDecode_base data = Ok (rs_Tx r, [])
    /\ catchPinsByTx height time (rs_Tx r) = Ok [pin]
    /\ mvcRegistryOperation (rq_Operation req) = Ok (pin_Operation pin)
    /\ pin_Path pin = ToLower (request_path req) /\ pin_ContentBody pin = rq_Content req
    /\ pin_ContentType pin = mvcRegistryContentType /\ pin_ChainName pin = "mvc"
    /\ pin_Address pin = rs_Address r
    /\ pin_Id pin = doubleSHA256ReversedHex (manRaw (raw_tx (rs_Tx r))) +:+ "i0".
Proof.
  intros H Hnet Hok Hplain Hsize. apply BuildMVCRegistryTx_built in H as (params & key & op & inputs & owner & reg & B).
  pose proof (bt_params _ _ _ _ _ _ _ _ B) as Hp. rewrite Hnet in Hp. injection Hp as <-.
  destruct (built_wf net _ _ _ _ _ _ _ B Hok Hplain ltac:(lia)) as (Hwf & Hw & Hi & Hv & Hout).
  destruct (parse_registry_script net _ _ _ (bt_operation _ _ _ _ _ _ _ _ B) (bt_content _ _ _ _ _ _ _ _ B) Hplain
    (bt_registry _ _ _ _ _ _ _ _ B)) as (_ & Hdata & Hparse).
  destruct (built_owner net _ _ _ _ _ _ _ B) as [_ Hown].
  assert (Howner : is_data owner = false) by (unfold is_data, class_of; by rewrite Hown).
  pose proof (bt_raw _ _ _ _ _ _ _ _ B) as Hraw. unfold mvcRegistryRawTx in Hraw.
  rewrite serialize_base in Hraw by done.
  assert (Hhex : hex_EncodeToString (base_encoding (rs_Tx r)) = rs_RawTx r) by congruence. clear Hraw.
  exists (base_encoding (rs_Tx r)), (attribute_pin "mvc" (doubleSHA256ReversedHex (manRaw (raw_tx (rs_Tx r)))) height time
    (rs_Tx r) (registry_pin_of op req)).
  assert (Hpin : getPinOwner (rs_Tx r) = (rs_Address r, 0, 0)).
  { unfold getPinOwner. rewrite Hout. cbn [owner_loop out_PkScript]. unfold class_of, addrs_of. by rewrite Hown. }
  split_and!.
  - rewrite <- Hhex. apply hex_roundtrip. by apply base_encoding_bytes.
  - rewrite <- (app_nil_r (base_encoding _)). by apply Decode_base.
  - unfold catchPinsByTx. rewrite (pin_hash_signed (rs_Tx r)); [|done..|by rewrite Hout|by rewrite Hv].
    rewrite Hout at 1. cbn [opreturn_loop out_PkScript]. by rewrite Howner, Hdata, Hparse.
  - unfold attribute_pin. rewrite Hpin. apply (bt_operation _ _ _ _ _ _ _ _ B).
  - unfold attribute_pin. by rewrite Hpin.
  - unfold attribute_pin. by rewrite Hpin.
  - unfold attribute_pin. by rewrite Hpin.
  - unfold attribute_pin. by rewrite Hpin.
  - unfold attribute_pin. by rewrite Hpin.
  - unfold attribute_pin. by rewrite Hpin.
Qed.

(** ** Publications *)

Context {NU : NetURL} {UP : NetURLParts} {FJ : FedJSON}.

Lemma NewPublisher_enabled opts p :
  NewPublisher opts = Ok p -> pb_enabled p = true ->
  one_of (pb_network p) ["mvc-mainnet"; "mvc-testnet"; "mvc-regtest"] = true
  /\ MVCIdentityFromPrivateKey (pb_nodePrivateKey p) (pb_network p) = Ok (pb_address p, pb_publicKey p).
Proof.
  unfold NewPublisher. intros H Hen. destruct (normalizePublisherNetwork _) as [network|] eqn:Hn; [|done].
  cbv zeta in H. cbn [pb_enabled] in H. destruct (po_Enabled opts) eqn:He; cbn [negb] in H; [|by injection H as <-].
  destruct (po_Client opts); [|done]. ok_step H. ok_step H. ok_step H. injection H as <-.
  split; [|cbn in *; by destruct (MVCIdentityFromPrivateKey _ _) as [[]|]; simplify_eq].
  unfold normalizePublisherNetwork in Hn. repeat case_match; by simplify_eq.
Qed.
Lemma publisherRegistryUTXOs_range utxos rs :
  publisherRegistryUTXOs utxos = Ok rs -> Forall (fun u => 0 <= ut_OutIndex u < 2 ^ 32) rs.
Proof.
  unfold publisherRegistryUTXOs. intros H. ok_step H. revert rs H. clear E.
  induction utxos as [|u utxos IH]; intros rs H; cbn in H; [by injection H as <-|].
  do 4 ok_step H. injection H as <-. apply Z.ltb_ge in E0, E1. unfold MaxUint32 in E1.
  constructor; [cbn; lia|by apply IH].
Qed.
Lemma network_params network :
  one_of network ["mvc-mainnet"; "mvc-testnet"; "mvc-regtest"] = true ->
  TrimSpace network = network /\ network <> "".
Proof.
  unfold one_of. intros H. apply existsb_exists in H as (x & Hx & E). apply String.eqb_eq in E as ->.
  cbn in Hx. by destruct Hx as [<- | [<- | [<- | []]]].
Qed.

(** From the publisher of one node to the peers of another: when [PublishOnce]
    succeeds, the transaction it handed to the wallet service is one from which the
    MVC indexer reads a single pin, and any node of the same network that is served
    this pin accepts it as a candidate with the publisher's id, public key and
    presence URL until the payload expires. *)
Theorem publication_accepted net {BL : BsvLaws net} opts p operation now p' :
  NewPublisher opts = Ok p -> pb_enabled p = true -> PublishOnce operation now p = (None, p') ->
  ToLower (TrimSpace operation) = "create" \/ ToLower (TrimSpace operation) = "modify" ->
  mvcRegistryNetParams (pb_network p) = Ok net -> pb_dustAmount p < 2 ^ 63 ->
  let payload := payload_of now p in let content := json_Marshal payload in
  json_faithful payload -> TrimSpace content = content -> content <> "" ->
  plain_request (registry_request operation now [] p) = true ->
  exists client utxos result txid,
    pb_client p = Some client
    /\ BuildMVCRegistryTx (registry_request operation now utxos p) = Ok result
    /\ BroadcastMVC client (broadcast_of result p) = Ok txid /\ lt_TxID (Latest p') = TrimSpace txid
    /\ (zlen (base_encoding (rs_Tx result)) <= 2 ^ 25 -> forall height time, exists pin,
         catchPinsByTx height time (rs_Tx result) = Ok [pin]
         /\ forall q d later,
              gp_Operation q = pin_Operation pin -> gp_ChainName q = pin_ChainName pin ->
              gp_ContentBody q = pin_ContentBody pin ->
              dc_network d = pb_network p -> dc_selfNodeID d <> "mvc:" +:+ pb_address p ->
              let url := TrimSpace (rp_PresenceURL payload) in
              url <> "" -> discoveryPresenceURLAllowed url (dc_allowInsecureHTTP d) = true ->
              UnixMilli later <= UnixMilli (now + pb_validFor p) ->
              exists node, candidateFromPin q later d = Some (mkCandidate q node false)
                /\ rn_NodeID node = "mvc:" +:+ pb_address p /\ rn_PublicKey node = pb_publicKey p
                /\ rn_PresenceURL node = url).
Proof.
  intros Hnew Hen Hpub Hop Hnet Hdust payload content Hfaith Htrim Hne Hplain.
  destruct (NewPublisher_enabled _ _ Hnew Hen) as [Hlabel Hid]. destruct (network_params _ Hlabel) as [Htn Hnn].
  unfold PublishOnce in Hpub. rewrite Hen in Hpub. cbn [negb] in Hpub.
  destruct (pb_client p) as [client|]; [|done]. destruct (publish_steps _ _ _ _) as [txid|] eqn:Hsteps; [|done].
  injection Hpub as <-. unfold publish_steps in Hsteps. do 3 ok_step Hsteps. rename a1 into result, a0 into utxos.
  exists client, utxos, result, txid. split_and!; [done..|]. intros Hsize height time.
  pose proof (publisherRegistryUTXOs_range _ _ E0) as Hrange.
  destruct (registry_tx_publishes net _ result height time E1 Hnet (conj Hrange Hdust) Hplain Hsize)
    as (data & pin & _ & _ & Hcatch & Hpop & _ & Hbody & _ & Hchain & _).
  exists pin. split; [done|]. intros q d later Hq1 Hq2 Hq3 Hd Hself url Hune Hurl Hlater.
  pose proof Hid as Hk. unfold MVCIdentityFromPrivateKey in Hk. rewrite Hnet in Hk. ok_step Hk. injection Hk as Ha Hpk.
  destruct (published_node_is_accepted (pb_nodePrivateKey p) a0 (pb_network p) net (pb_publicBaseURL p)
    (pb_presencePath p) (pb_validFor p) now q later d payload (pb_address p)) as (node & Hn); try done.
  - rewrite Hid. unfold public_hex. by rewrite Hpk.
  - unfold payload, payload_of. unfold public_hex. by rewrite Hpk.
  - rewrite Hq3, Hbody. exact Htrim.
  - rewrite Hq2, Hchain. done.
  - rewrite Hq1. unfold mvcRegistryOperation in Hpop. cbn [rq_Operation registry_request] in Hpop.
    cbv zeta in Hpop. destruct (one_of (ToLower (TrimSpace operation)) _) in Hpop; [|done]. assert (pin_Operation pin = ToLower (TrimSpace operation)) as -> by congruence. destruct Hop as [-> | ->]; [by left|by right].
  - rewrite <- Ha. apply (address_trim "mvc:"). by right.
  - exists node. unfold public_hex in Hn. rewrite Hpk in Hn. exact Hn.
Qed.
End Pin.
