(* ===== verification/PublisherSample.v ===== *)
(** * PublisherSample: instances on which the publisher's witnesses evaluate

    A script builder with the opcodes of real pushes, signatures whose length
    depends on the change, addresses that are their own text; and the witnesses of
    the theorems on registry transactions and publications. *)

From S2P Require Import Prelude GoText Json Aggregator FedStore Federation FederationSample FederationFacts Wire Chain ChainMvc ChainMvcFacts ChainSample Publisher PublisherFacts PublisherPin.
From coqutil.Datatypes Require Import RecordSetters.
Import TriangleBracketNotations.

#[local] Existing Instance toy_crypto.
#[local] Existing Instance toy_url.
#[local] Existing Instance toy_json.

(** ** Script building *)

Definition build_push (d : list Z) : list Z :=
  match d with
  | [] => [0]
  | [b] => if plain_data [b] then [1; b] else [80 + b]
  | _ => if zlen d <=? 75 then zlen d :: d
         else if zlen d <=? 255 then 76 :: zlen d :: d
         else 77 :: zlen d mod 256 :: zlen d / 256 :: d
  end.
Definition build_item (i : script_item) : list Z :=
  match i with AddOp op => [op] | AddData d => build_push d end.
Definition item_fits (i : script_item) : bool :=
  match i with AddOp _ => true | AddData d => zlen d <=? 520 end.
Definition toy_build (items : list script_item) : res (list Z) :=
  if forallb item_fits items then Ok (concat (map build_item items))
  else Err "adding a data element would exceed the maximum allowed script element size".

Definition toy_push_tail (op : Z) (d rest : list Z) : list Z :=
  if op =? 76 then zlen d :: d ++ rest
  else if op =? 77 then zlen d mod 256 :: zlen d / 256 :: d ++ rest
  else d ++ rest.
Lemma build_push_shape d rest :
  plain_data d = true -> zlen d <= 520 ->
  exists op, 1 <= op <= 77 /\ build_push d ++ rest = op :: toy_push_tail op d rest
    /\ sample_push op (toy_push_tail op d rest) = Some (zlen d, d ++ rest).
Proof.
  intros Hp Hl. destruct d as [|b d]; [done|].
  assert (Hb : build_push (b :: d) = if zlen (b :: d) <=? 75 then zlen (b :: d) :: b :: d
    else if zlen (b :: d) <=? 255 then 76 :: zlen (b :: d) :: b :: d
    else 77 :: zlen (b :: d) mod 256 :: zlen (b :: d) / 256 :: b :: d).
  { destruct d; [|done]. cbn [build_push]. by rewrite Hp. }
  rewrite Hb. clear Hb Hp. set (l := b :: d) in *. assert (1 <= zlen l) by (subst l; zlen_lia).
  unfold toy_push_tail, sample_push.
  destruct (Z.leb_spec (zlen l) 75); [exists (zlen l)|destruct (Z.leb_spec (zlen l) 255); [exists 76|exists 77]].
  - rewrite !(proj2 (Z.eqb_neq _ _)) by lia. rewrite !(proj2 (Z.leb_le _ _)) by lia. split_and!; (done || lia).
  - cbn. split_and!; (done || lia).
  - cbn. pose proof (Z.div_mod (zlen l) 256). split_and!; try (done || lia). do 2 f_equal. lia.
Qed.
Lemma sample_tokens_build items fuel :
  Forall item_ok items -> forallb plain_item items = true -> forallb item_fits items = true ->
  (length (concat (map build_item items)) <= fuel)%nat ->
  exists toks, sample_tokens fuel (concat (map build_item items)) = (toks, false) /\ Forall2 token_of items toks.
Proof.
  revert fuel. induction items as [|i items IH]; intros fuel Hok Hp Hf Hfuel.
  { exists []. by destruct fuel. }
  apply Forall_cons in Hok as [Hi Hok]. cbn [forallb] in Hp, Hf.
  apply andb_prop in Hp as [Hpi Hp], Hf as [Hfi Hf]. cbn [map concat] in *. set (rest := concat _) in *.
  rewrite length_app in Hfuel. destruct i as [op|d]; cbn [build_item] in *.
  - destruct fuel as [|fuel]; cbn [length] in Hfuel; [lia|].
    destruct (IH fuel Hok Hp Hf ltac:(lia)) as (toks & Ht & Ht2). exists ((op, None) :: toks).
    split; [|by constructor]. cbn [app sample_tokens]. unfold sample_push. fold rest.
    assert (Hop : sample_push op rest = None) by (destruct Hi as [-> | ->]; by destruct rest as [|? []]).
    unfold sample_push in Hop. by rewrite Hop, Ht.
  - apply Z.leb_le in Hfi. destruct (build_push_shape d rest Hpi Hfi) as (op & Hop & Hb & Hs).
    rewrite Hb. destruct fuel as [|fuel].
    { assert (length (build_push d) + length rest = length (build_push d ++ rest))%nat by (by rewrite length_app).
      rewrite Hb in *. cbn [length] in *. lia. }
    assert (Hlen : (length rest <= fuel)%nat).
    { assert (Hl : (length (build_push d ++ rest) <= S fuel)%nat) by (rewrite length_app; lia).
      rewrite Hb in Hl. cbn [length] in Hl. unfold toy_push_tail in Hl.
      repeat case_match; cbn [length] in Hl; rewrite length_app in Hl; lia. }
    destruct (IH fuel Hok Hp Hf Hlen) as (toks & Ht & Ht2).
    exists ((op, Some (string_of_bytes d)) :: toks). cbn [sample_tokens]. rewrite Hs.
    rewrite (proj2 (Z.ltb_ge _ _)) by zlen_lia. unfold zlen. rewrite Nat2Z.id, drop_app_length, take_app_length, Ht.
    split; [done|]. constructor; [|done]. cbn. split; [lia|done].
Qed.

(** ** The instance *)

(** A signature whose length depends on the change. *)
Definition toy_signature (tx : MsgTx) : list Z :=
  replicate (Z.to_nat (70 + default 0 (out_Value <$> tx_TxOut tx !! 2%nat) mod 3)) 7.
Definition toy_bsv : Bsv := {|
  Address := string;
  DecodeAddress a _ := Ok a;
  IsForNet _ _ := true;
  PayToAddrScript a := Ok (0xa9 :: bytes_of_string a);
  NewHashFromStr s := if (String.length s =? 32)%nat then Ok (bytes_of_string s) else Err "invalid hash";
  SignatureScript tx _ _ _ _ := Ok (toy_signature tx);
  ScriptBuilder := toy_build;
  SerializeSize tx := zlen (base_encoding tx);
  tx_Serialize tx := Ok (base_encoding tx) |}.
#[local] Existing Instance toy_bsv.

Lemma build_item_bytes i : item_ok i -> item_fits i = true -> bytes_ok (build_item i).
Proof.
  destruct i as [op|d]; cbn; [intros [-> | ->] _; by repeat constructor|]. intros Hd Hl. apply Z.leb_le in Hl.
  pose proof (zlen_nonneg d). pose proof (Z.mod_pos_bound (zlen d) 256).
  assert (0 <= zlen d / 256 < 256) by (split; [apply Z.div_pos|apply Z.div_lt_upper_bound]; lia).
  assert (Hpre : forall l, Forall byte_ok l -> bytes_ok (l ++ d)) by (intros; by apply Forall_app).
  destruct d as [|b [|c d]]; cbn [build_push]; [by repeat constructor| |].
  - apply Forall_cons in Hd as [Hb _]. unfold byte_ok in Hb. cbn [plain_data].
    repeat case_match; repeat (apply Forall_cons; split); try constructor; unfold byte_ok; try lia.
    all: destruct (Z.ltb_spec 16 b), (Z.eqb_spec b 0x81); cbn in *; try discriminate; lia.
  - set (k := b :: c :: d) in *. repeat case_match.
    + apply (Hpre [zlen k]). constructor; [unfold byte_ok; lia|constructor].
    + apply (Hpre [76; zlen k]). repeat (apply Forall_cons; split); [unfold byte_ok; lia..|constructor].
    + apply (Hpre [77; zlen k mod 256; zlen k / 256]).
      repeat (apply Forall_cons; split); [unfold byte_ok; lia..|constructor].
Qed.
Lemma toy_build_ok items s :
  toy_build items = Ok s -> forallb item_fits items = true /\ s = concat (map build_item items).
Proof. unfold toy_build. destruct (forallb _ _); [|done]. by intros [= <-]. Qed.
#[export] Instance toy_bsv_laws : BsvLaws "mainnet".
Proof.
  split.
  - intros s h H. cbn in H. destruct (Nat.eqb_spec (String.length s) 32); [|done]. injection H as <-.
    split; [by rewrite bytes_of_string_length|apply bytes_of_string_ok].
  - intros items s Hok H. apply toy_build_ok in H as [Hf ->]. apply Forall_concat, Forall_map.
    apply Forall_forall. intros i Hi. rewrite Forall_forall in Hok.
    apply build_item_bytes; [by apply Hok|]. rewrite forallb_forall in Hf. by apply Hf, list_elem_of_In.
  - intros items s Hok Hp H. apply toy_build_ok in H as [Hf ->]. by apply sample_tokens_build.
  - intros items s Hok H. by apply toy_build_ok in H as [_ ->].
  - intros tx i v script k s [= <-]. apply Forall_replicate. unfold byte_ok. lia.
  - intros prefix pk [-> | ->]; cbn; by destruct (default 0 (head pk) =? 2).
  - intros pk a s. generalize (LegacyAddress pk "mainnet"). intros t [= <-] [= <-]. split; [|cbn; by rewrite string_of_bytes_of_string].
    apply Forall_cons. split; [unfold byte_ok; lia|]. apply bytes_of_string_ok.
  - done.
  - intros tx. apply zlen_nonneg.
Qed.

(** ** A publication *)

Definition toy_parts : NetURLParts := {|
  url_Path u := ""; url_RawQuery u := ""; url_Fragment u := "";
  url_SetPath _ u := u; url_SetRawQuery _ u := u; url_SetFragment _ u := u |}.
#[local] Existing Instance toy_parts.

Definition coin (value : Z) : MVCUTXO :=
  mkMVCUTXO "0123456789abcdef0123456789abcdef" 1 value "" 10 "".
Definition client_a : PublisherClient := mkPublisherClient
  (fun net address flag => if String.eqb address "1NodeA" then Ok [coin 900; coin 600] else Ok [])
  (fun req => if String.eqb (br_Chain req) "mvc" then Ok " txid " else Err "unknown chain").
Definition options_a : PublisherOptions :=
  mkPublisherOptions true "livenet" secret_a "https://a.example" "" "" (ms 100000) 0 0 0 "" (Some client_a).
Definition publisher_a : Publisher :=
  match NewPublisher options_a with Ok p => p | Err _ => mkPublisher false "" "" "" "" "" "" 0 0 0 0 "" None "" "" no_latest end.
Definition sample_coins : list MVCRegistryUTXO :=
  match publisherRegistryUTXOs [coin 900; coin 600] with Ok l => l | Err _ => [] end.
Definition sample_request : MVCRegistryTxRequest := registry_request "create" (ms 1000) sample_coins publisher_a.
Definition no_result : MVCRegistryTxResult := mkTxResult "" (mkTx 0 [] [] 0) "" "" 0 0 0 0.
Definition sample_result : MVCRegistryTxResult :=
  match BuildMVCRegistryTx sample_request with Ok r => r | Err _ => no_result end.

(** The fee is that of the transaction of the round before; coins that do
    not cover it are refused. *)
Example sample_fee :
  (rs_Fee sample_result, zlen (base_encoding (rs_Tx sample_result)), rs_ChangeAmount sample_result)
  = (869, 865, 630).
Proof. vm_compute. reflexivity. Qed.
Example not_enough :
  BuildMVCRegistryTx (registry_request "create" (ms 1000) (take 1 sample_coins)
    (publisher_a <| pb_feeRate := 2 |>)) = Err "insufficient UTXO value for owner output, change output, and fee".
Proof. vm_compute. reflexivity. Qed.

Lemma sample_built : BuildMVCRegistryTx sample_request = Ok sample_result.
Proof. vm_compute. reflexivity. Qed.
Lemma registry_tx_balanced_witness :
  1500 = 1 + rs_ChangeAmount sample_result + rs_Fee sample_result
  /\ 0 < 1 <= rs_ChangeAmount sample_result /\ SerializeSize (rs_Tx sample_result) * 1 <= rs_Fee sample_result
  /\ map out_Value (tx_TxOut (rs_Tx sample_result)) = [1; 0; rs_ChangeAmount sample_result]
  /\ Forall2 (fun u i => NewHashFromStr (TrimSpace (ut_TxID u)) = Ok (op_Hash (in_PreviousOutPoint i))
       /\ op_Index (in_PreviousOutPoint i) = ut_OutIndex u) sample_coins (tx_TxIn (rs_Tx sample_result)).
Proof.
  apply (registry_tx_balanced sample_request sample_result);
    [apply sample_built|vm_compute; reflexivity|vm_compute; reflexivity|].
  split; [vm_compute; discriminate|vm_compute; reflexivity].
Defined.

Definition ok_or {A} (d : A) (r : res A) : A := match r with Ok a => a | Err _ => d end.
Definition sample_inputs := Eval vm_compute in ok_or [] (add_inputs "1NodeA" "mainnet" sample_coins).
Definition sample_owner := Eval vm_compute in ok_or [] (mvcRegistryAddressScript "1NodeA" "mainnet").
Definition sample_registry := Eval vm_compute in ok_or []
  (mvcRegistryOPReturnScript "create" (request_path sample_request) (request_version sample_request) (rq_Content sample_request)).
(** The signed transactions by the length of a signature. *)
Definition sample_signed (change : Z) (k : Z) : MsgTx :=
  with_inputs (map (fun i => with_script (replicate (Z.to_nat (70 + k)) 7) i.1.1) sample_inputs)
    (registry_tx [] sample_owner sample_registry 1 change).
Lemma sample_sign change :
  mvcRegistrySign (registry_tx (map (fun i => i.1.1) sample_inputs) sample_owner sample_registry 1 change)
    (map (fun i => (i.1.2, i.2)) sample_inputs) (true : @PrivateKey toy_crypto)
  = Ok (sample_signed change (change mod 3)).
Proof. reflexivity. Qed.
Lemma sample_size change k :
  k = 0 \/ k = 1 \/ k = 2 -> zlen (base_encoding (sample_signed change k)) = 865 + 2 * k.
Proof.
  intros Hk. assert (E : zlen (base_encoding (sample_signed change k)) = zlen (base_encoding (sample_signed 0 k))).
  { unfold base_encoding, sample_signed. rewrite !zlen_app. cbn [with_inputs registry_tx tx_TxOut map concat].
    unfold enc_out at 3 6. cbn [out_Value out_PkScript]. by rewrite !zlen_app, !zlen_le_bytes. }
  rewrite E. destruct Hk as [-> | [-> | ->]]; vm_compute; reflexivity.
Qed.
Lemma fee_loop_converges_witness : exists r, BuildMVCRegistryTx sample_request = Ok r.
Proof.
  apply (fee_loop_converges sample_request "mainnet" (true : @PrivateKey toy_crypto) "create" sample_inputs
    sample_owner sample_registry 865);
    [vm_compute; reflexivity|vm_compute; reflexivity|vm_compute; reflexivity|vm_compute; discriminate
    |vm_compute; reflexivity|vm_compute; discriminate|vm_compute; reflexivity|vm_compute; reflexivity
    |vm_compute; reflexivity|lia| |].
  - intros change _. exists (sample_signed change (change mod 3)).
    split; [apply sample_sign|]. pose proof (Z.mod_pos_bound change 3 ltac:(lia)).
    split; [|reflexivity].
    change (SerializeSize ?tx) with (zlen (base_encoding tx)). rewrite sample_size by lia. lia.
  - split; [vm_compute; discriminate|vm_compute; reflexivity].
Defined.

Lemma registry_tx_publishes_witness :
  exists data pin,
    hex_DecodeString (rs_RawTx sample_result) = Ok data /\ BtcDecode_base data = Ok (rs_Tx sample_result, [])
    /\ catchPinsByTx 7 1700 (rs_Tx sample_result) = Ok [pin]
    /\ mvcRegistryOperation (rq_Operation sample_request) = Ok (pin_Operation pin)
    /\ pin_Path pin = ToLower (request_path sample_request)
    /\ pin_ContentBody pin = rq_Content sample_request
    /\ pin_ContentType pin = mvcRegistryContentType /\ pin_ChainName pin = "mvc"
    /\ pin_Address pin = rs_Address sample_result
    /\ pin_Id pin = doubleSHA256ReversedHex (manRaw (raw_tx (rs_Tx sample_result))) +:+ "i0".
Proof.
  apply (registry_tx_publishes "mainnet" sample_request sample_result 7 1700);
    [apply sample_built|vm_compute; reflexivity| |vm_compute; reflexivity|vm_compute; discriminate].
  split; [|vm_compute; reflexivity].
  repeat (apply Forall_cons; split); try constructor; vm_compute; (discriminate || reflexivity).
Defined.

Lemma publication_accepted_witness :
  exists client utxos result txid,
    pb_client publisher_a = Some client
    /\ BuildMVCRegistryTx (registry_request "create" (ms 1000) utxos publisher_a) = Ok result
    /\ BroadcastMVC client (broadcast_of result publisher_a) = Ok txid
    /\ lt_TxID (Latest (PublishOnce "create" (ms 1000) publisher_a).2) = TrimSpace txid
    /\ (zlen (base_encoding (rs_Tx result)) <= 2 ^ 25 -> forall height time, exists pin,
         catchPinsByTx height time (rs_Tx result) = Ok [pin]
         /\ forall q d later,
              gp_Operation q = pin_Operation pin -> gp_ChainName q = pin_ChainName pin ->
              gp_ContentBody q = pin_ContentBody pin ->
              dc_network d = pb_network publisher_a -> dc_selfNodeID d <> "mvc:" +:+ pb_address publisher_a ->
              let url := TrimSpace (rp_PresenceURL (payload_of (ms 1000) publisher_a)) in
              url <> "" -> discoveryPresenceURLAllowed url (dc_allowInsecureHTTP d) = true ->
              UnixMilli later <= UnixMilli (ms 1000 + pb_validFor publisher_a) ->
              exists node, candidateFromPin q later d = Some (mkCandidate q node false)
                /\ rn_NodeID node = "mvc:" +:+ pb_address publisher_a
                /\ rn_PublicKey node = pb_publicKey publisher_a /\ rn_PresenceURL node = url).
Proof.
  apply (publication_accepted "mainnet" options_a publisher_a "create" (ms 1000));
    [vm_compute; reflexivity|vm_compute; reflexivity|vm_compute; reflexivity|left; vm_compute; reflexivity
    |vm_compute; reflexivity|vm_compute; reflexivity|vm_compute; reflexivity|vm_compute; reflexivity
    |vm_compute; discriminate|vm_compute; reflexivity].
Defined.
