(* ===== verification/FederationService.v ===== *)
(** * FederationService: the parts of federation put together

    service.go of [internal/federation]: [NewService] builds store, snapshot
    builder, publisher, discovery and puller from a configuration, [Start] and
    [Stop] switch their loops.  Clocks, tickers and HTTP clients are arguments of
    the operations of the parts. *)

From S2P Require Import Prelude GoText Json Config FedStore Wire Federation Publisher Metalet.

Record serviceOptions := mkServiceOptions { op_publisherClient : option PublisherClient }.
Definition ServiceOption : Type := serviceOptions -> serviceOptions.
(** A nil client is taken over as well. *)
Definition WithServicePublisherClient (client : option PublisherClient) : ServiceOption :=
  fun _ => mkServiceOptions client.

(** [Some] parts are those of an enabled service; [sv_running] is [cancel != nil]. *)
Record ServiceParts := mkParts {
  sp_store : Store; sp_builder : SnapshotBuilder; sp_publisher : Publisher;
  sp_discovery : Discovery; sp_puller : Puller }.
Record Service := mkService {
  sv_enabled : bool; sv_nodeID : string; sv_parts : option ServiceParts; sv_running : bool }.

(** Whole seconds, rounded up. *)
Definition servicePresenceTTLSeconds (ttl : Z) : Z :=
  if ttl <=? 0 then 0 else
  let seconds := Z.quot ttl second in
  let seconds := if negb (Z.rem ttl second =? 0) then wrap64 (seconds + 1) else seconds in
  if seconds <=? 0 then 1 else seconds.

Section Service.
Context {EC : Secp256k1} {BS : Bsv} {NU : NetURL} {UP : NetURLParts} {FJ : FedJSON} {MJ : MetaletJSON}.

(** [local] tells whether there is a local presence reader; [fresh] is the transport
    of a new HTTP client. *)
Definition NewService (fresh : HTTPTransport) (cfg : FederationConfig) (local : bool) (opts : list ServiceOption)
    : res Service :=
  let options := foldl (fun o opt => opt o) (mkServiceOptions None) opts in
  if negb (fc_Enabled cfg) then Ok (mkService false "" None false) else
  if negb local then Err "federation service requires a local presence reader when enabled" else
  network <-? normalizePublisherNetwork (fc_Network cfg) ;;
  identity <-? MVCIdentityFromPrivateKey (fc_NodePrivateKey cfg) network ;;
  let nodeID := "mvc:" +:+ identity.1 in
  let store := NewStore nodeID [WithStoreEnabled true; WithStoreDefaultScope (fc_DefaultScope cfg)] in
  let builder := NewSnapshotBuilder nodeID (servicePresenceTTLSeconds (fc_PresenceTTL cfg)) (fc_NodePrivateKey cfg) in
  publisherClient <-? match op_publisherClient options with
    | Some client => Ok client
    | None =>
        metaletClient <-? NewMetaletClient fresh (fc_MetaletBaseURL cfg) [Some (WithMetaletTimeout (fc_RequestTimeout cfg))] ;;
        Ok (metalet_client metaletClient)
    end ;;
  publisher <-? NewPublisher (mkPublisherOptions true network (fc_NodePrivateKey cfg) (fc_PublicBaseURL cfg)
    (fc_RegistryPath cfg) (fc_PresencePath cfg) (fc_RegistryValidFor cfg) (fc_RegistryRenewInterval cfg)
    0 0 "" (Some publisherClient)) ;;
  discovery <-? NewDiscovery (fc_MANAPIBaseURL cfg) (fc_RegistryPath cfg) 0 nodeID network
    (fc_AllowInsecureHTTP cfg) (fc_MaxPeers cfg) ;;
  let puller := NewPuller store nodeID (fc_RequestTimeout cfg) (fc_MaxSnapshotBytes cfg)
    (fc_PresencePullInterval cfg) 0 0 in
  Ok (mkService true nodeID (Some (mkParts store builder publisher discovery puller)) false).

Definition service_Enabled (s : Service) : bool := sv_enabled s.
Definition service_NodeID (s : Service) : string := sv_nodeID s.
Definition SnapshotProvider (s : Service) : option SnapshotBuilder :=
  if negb (sv_enabled s) then None else sp_builder <$> sv_parts s.
Definition GlobalReader (s : Service) : option Store :=
  if negb (sv_enabled s) then None else sp_store <$> sv_parts s.
(** The new state, and whether the loops of the parts were launched or cancelled. *)
Definition service_Start (s : Service) : Service * bool :=
  if negb (sv_enabled s) || sv_running s then (s, false)
  else (mkService (sv_enabled s) (sv_nodeID s) (sv_parts s) true, true).
Definition service_Stop (s : Service) : Service * bool :=
  (mkService (sv_enabled s) (sv_nodeID s) (sv_parts s) false, sv_running s).
End Service.
