(* ===== verification/FederationServiceFacts.v ===== *)
(** * FederationServiceFacts: services that start and find each other

    A configuration that [Load] returns starts unless its key, network or one of two
    URLs is bad; the parts of a service agree on who the node is; and a node that
    publishes is accepted by the discovery of every other service of its network. *)

From S2P Require Import Prelude GoText Json Aggregator Config FedStore Federation FederationFacts FederationSample Wire Chain ChainMvc ChainMvcFacts ChainSample Publisher Metalet PublisherFacts PublisherPin PublisherSample FederationService.

Lemma servicePresenceTTLSeconds_ceil ttl :
  0 < ttl < 2 ^ 63 ->
  let s := servicePresenceTTLSeconds ttl in (s - 1) * second < ttl <= s * second /\ 1 <= s.
Proof.
  intros Ht. unfold servicePresenceTTLSeconds. rewrite (proj2 (Z.leb_gt _ _)) by lia. cbv zeta.
  unfold second. pose proof (Z.quot_rem' ttl (10 ^ 9)) as E.
  pose proof (Z.rem_bound_pos ttl (10 ^ 9) ltac:(lia) ltac:(lia)) as Hr.
  assert (0 <= Z.quot ttl (10 ^ 9) <= 2 ^ 63 / 10 ^ 9).
  { split; [apply Z.quot_pos; lia|]. rewrite Z.quot_div_nonneg by lia. apply Z.div_le_mono; lia. }
  change (2 ^ 63 / 10 ^ 9) with 9223372036 in *.
  rewrite wrap64_id by (unfold in_i64; lia).
  destruct (Z.eqb_spec (Z.rem ttl (10 ^ 9)) 0) as [H0|H0]; cbn [negb]; rewrite (proj2 (Z.leb_gt _ _)) by lia; lia.
Qed.

Section Facts.
Context {EC : Secp256k1} {BS : Bsv} {NU : NetURL} {UP : NetURLParts} {FJ : FedJSON} {MJ : MetaletJSON}.

(** ** Starting *)

Definition chosen_client (opts : list ServiceOption) : option PublisherClient :=
  op_publisherClient (foldl (fun o opt => opt o) (mkServiceOptions None) opts).

Lemma is_ok_bind {A B} (r : res A) (f : A -> res B) (b : bool) :
  (forall a, r = Ok a -> is_ok (f a) = b) -> is_ok (match r with Ok a => f a | Err e => Err e end) = is_ok r && b.
Proof. destruct r as [a|]; cbn; [intros H; by apply H|done]. Qed.
Lemma NewPublisher_is_ok opts network client :
  po_Enabled opts = true -> po_Client opts = Some client -> normalizePublisherNetwork (po_Network opts) = Ok network ->
  is_ok (NewPublisher opts)
  = is_ok (normalizePublisherBaseURL (po_PublicBaseURL opts)) && negb (is_empty (TrimSpace (po_NodePrivateKey opts)))
    && is_ok (MVCIdentityFromPrivateKey (TrimSpace (po_NodePrivateKey opts)) network).
Proof.
  intros He Hc Hn. unfold NewPublisher. rewrite Hn. cbv zeta. cbn [pb_enabled]. rewrite He, Hc. cbn [negb].
  rewrite <- andb_assoc. apply is_ok_bind. intros url _. cbn [pb_nodePrivateKey].
  match goal with |- context [pb_nodePrivateKey ?p] => change (pb_nodePrivateKey p) with (TrimSpace (po_NodePrivateKey opts));
    change (pb_network p) with network end.
  destruct (is_empty _); [done|]. cbn [negb andb]. by destruct (MVCIdentityFromPrivateKey _ _).
Qed.
(** Labels are normalised once. *)
Lemma normalized_network n network :
  normalizePublisherNetwork n = Ok network -> normalizePublisherNetwork network = Ok network.
Proof. unfold normalizePublisherNetwork. repeat case_match; intros [= <-]; done. Qed.
Lemma identity_trim key network :
  MVCIdentityFromPrivateKey (TrimSpace key) network = MVCIdentityFromPrivateKey key network.
Proof.
  unfold MVCIdentityFromPrivateKey, mvcRegistryPrivateKeyFromHex, parsePrivateKeyHex, decodeHexField.
  cbv zeta. by rewrite TrimSpace_idem.
Qed.
Lemma identity_key_nonempty key network i :
  MVCIdentityFromPrivateKey key network = Ok i -> is_empty (TrimSpace key) = false.
Proof.
  unfold MVCIdentityFromPrivateKey, mvcRegistryPrivateKeyFromHex, parsePrivateKeyHex, decodeHexField. cbv zeta.
  destruct (mvcRegistryNetParams network); [|done]. by destruct (is_empty (TrimSpace key)).
Qed.
Lemma loaded_federation {DP : DurationParser} env cfg :
  Load env = Ok cfg -> fc_Enabled (cfg_Federation cfg) = true ->
  let f := cfg_Federation cfg in
  TrimSpace (fc_MANAPIBaseURL f) = fc_MANAPIBaseURL f /\ fc_MANAPIBaseURL f <> ""
  /\ Contains (fc_MANAPIBaseURL f) "{protocol-path}" = true /\ Contains (fc_MANAPIBaseURL f) "{size}" = true.
Proof.
  intros H Hen f. apply Load_ok in H as [Hc Hv]. apply Validate_none in Hv as (_ & _ & _ & Hf & _).
  assert (Ht : TrimSpace (fc_MANAPIBaseURL f) = fc_MANAPIBaseURL f).
  { subst f. rewrite Hc, loaded_federation_urls. by apply applyStringEnv_trimmed. }
  unfold validateFederation in Hf. fold f in Hf, Hen. rewrite Hen in Hf. cbn [negb] in Hf. cbv zeta in Hf.
  apply first_error_none in Hf. forall_all; rewrite Ht in *;
  repeat match goal with H : (_ || _) = false |- _ => apply orb_false_iff in H as [] end;
  repeat match goal with H : negb _ = false |- _ => apply negb_false_iff in H end.
  - intros E. by rewrite E in *.
  - done.
  - done.
Qed.

(** A configuration that [Load] returns with federation enabled has a service,
    unless the network is unknown, the key is no private key, the public base URL is
    unusable, or no client is given and the wallet URL is unusable: everything else
    that the parts can object to is excluded by [Validate]. *)
Theorem loaded_service_starts {DP : DurationParser} env cfg fresh opts :
  Load env = Ok cfg -> let f := cfg_Federation cfg in fc_Enabled f = true ->
  is_ok (NewService fresh f true opts)
  = match normalizePublisherNetwork (fc_Network f) with
    | Err _ => false
    | Ok network =>
        is_ok (MVCIdentityFromPrivateKey (fc_NodePrivateKey f) network)
        && (bool_decide (is_Some (chosen_client opts)) || is_ok (normalizeMetaletBaseURL (fc_MetaletBaseURL f)))
        && is_ok (normalizePublisherBaseURL (fc_PublicBaseURL f))
    end.
Proof.
  intros H f Hen. destruct (loaded_federation env cfg H Hen) as (Ht & Hne & Hp & Hs). fold f in Ht, Hne, Hp, Hs.
  unfold NewService. cbv zeta. rewrite Hen. cbn [negb]. fold (chosen_client opts).
  destruct (normalizePublisherNetwork (fc_Network f)) as [network|] eqn:Hn; [|done].
  apply normalized_network in Hn.
  rewrite <- andb_assoc. apply is_ok_bind. intros identity Hid.
  match goal with |- is_ok (match ?r with Ok _ => _ | Err _ => _ end) = ?b && _ =>
    assert (Hr : is_ok r = b) end.
  { destruct (chosen_client opts); [done|]. cbn. unfold NewMetaletClient.
    by destruct (normalizeMetaletBaseURL _). }
  rewrite <- Hr. clear Hr. apply is_ok_bind. intros client _.
  match goal with |- is_ok (match NewPublisher ?o with Ok _ => _ | Err _ => _ end) = _ =>
    pose proof (NewPublisher_is_ok o network client eq_refl eq_refl Hn) as Hpub end.
  cbn [po_PublicBaseURL po_NodePrivateKey] in Hpub.
  rewrite identity_trim, Hid, (identity_key_nonempty _ _ _ Hid), !andb_true_r in Hpub. rewrite <- Hpub.
  destruct (NewPublisher _); [|done]. unfold NewDiscovery. by rewrite Ht, (nonempty _ Hne), Hp, Hs, Hn.
Qed.

(** ** The parts of a service *)

(** Everything that names the node and the network is the same everywhere; the
    publisher pays the default dust. *)
Record parts_agree (f : FederationConfig) (nodeID : string) (a : ServiceParts) : Prop := {
  pa_network : normalizePublisherNetwork (fc_Network f) = Ok (pb_network (sp_publisher a));
  pa_publisher : nodeID = "mvc:" +:+ pb_address (sp_publisher a);
  pa_made : exists opts, NewPublisher opts = Ok (sp_publisher a);
  pa_enabled : pb_enabled (sp_publisher a) = true;
  pa_dust : pb_dustAmount (sp_publisher a) = defaultPublisherDustAmount;
  pa_store : fs_localNodeID (sp_store a) = nodeID;
  pa_builder : sb_nodeID (sp_builder a) = nodeID
    /\ sb_ttlSeconds (sp_builder a) = servicePresenceTTLSeconds (fc_PresenceTTL f);
  pa_discovery_network : dc_network (sp_discovery a) = pb_network (sp_publisher a);
  pa_discovery : dc_selfNodeID (sp_discovery a) = nodeID;
  pa_insecure : dc_allowInsecureHTTP (sp_discovery a) = fc_AllowInsecureHTTP f;
  pa_puller : pl_selfNodeID (sp_puller a) = nodeID }.

Lemma NewPublisher_fields opts p :
  NewPublisher opts = Ok p -> pb_enabled p = po_Enabled opts
  /\ normalizePublisherNetwork (po_Network opts) = Ok (pb_network p)
  /\ pb_nodePrivateKey p = TrimSpace (po_NodePrivateKey opts)
  /\ pb_dustAmount p = (if po_DustAmount opts <=? 0 then defaultPublisherDustAmount else po_DustAmount opts).
Proof.
  unfold NewPublisher. destruct (normalizePublisherNetwork _) as [network|]; [|done]. cbv zeta.
  cbn [pb_enabled]. intros H. destruct (negb (po_Enabled opts)) eqn:He.
  { injection H as <-. done. }
  destruct (po_Client opts); [|done]. do 3 ok_step H. by injection H as <-.
Qed.
Lemma NewStore_id id scope :
  id <> "" -> fs_localNodeID (NewStore id [WithStoreEnabled true; WithStoreDefaultScope scope]) = id.
Proof.
  intros H. unfold NewStore. rewrite (nonempty _ H). cbn [foldl]. unfold WithStoreDefaultScope, WithStoreEnabled.
  destruct (String.eqb scope "local") eqn:E1, (String.eqb scope "global") eqn:E2; cbn; rewrite ?E1, ?E2; done.
Qed.
Lemma MVCIdentity_address {BT : Btcd} net {BL : BsvLaws net} key network i :
  mvcRegistryNetParams network = Ok net -> MVCIdentityFromPrivateKey key network = Ok i ->
  TrimSpace ("mvc:" +:+ i.1) = "mvc:" +:+ i.1.
Proof.
  intros Hnet H. unfold MVCIdentityFromPrivateKey in H. rewrite Hnet in H. ok_step H. injection H as <-.
  apply (address_trim "mvc:"). by right.
Qed.
Lemma service_parts {BT : Btcd} net {BL : BsvLaws net} fresh f opts s network :
  NewService fresh f true opts = Ok s -> fc_Enabled f = true ->
  normalizePublisherNetwork (fc_Network f) = Ok network -> mvcRegistryNetParams network = Ok net ->
  exists a, sv_parts s = Some a /\ parts_agree f (sv_nodeID s) a.
Proof.
  intros H Hen Hn Hnet. unfold NewService in H. cbv zeta in H. rewrite Hen, Hn in H. cbn [negb] in H.
  destruct (MVCIdentityFromPrivateKey _ _) as [identity|] eqn:Hid; [|done].
  ok_step H. rename a into client. ok_step H. rename a into publisher. ok_step H. rename a into discovery.
  injection H as <-. eexists. split; [done|].
  destruct (NewPublisher_fields _ _ E0) as (Hpe & Hpn & Hpk & Hpd).
  cbn [po_Enabled po_Network po_NodePrivateKey po_DustAmount] in *.
  rewrite (normalized_network _ _ Hn) in Hpn. injection Hpn as Hpn.
  destruct (NewPublisher_enabled _ _ E0 Hpe) as [_ Hpid]. rewrite Hpk, identity_trim, <- Hpn, Hid in Hpid.
  injection Hpid as ->. unfold NewDiscovery in E1. cbv zeta in E1. do 2 ok_step E1.
  rewrite (normalized_network _ _ Hn) in E1. injection E1 as <-.
  pose proof (MVCIdentity_address net _ _ _ Hnet Hid) as Htrim. cbn [fst] in Htrim.
  split; cbn [sp_publisher sp_store sp_builder sp_discovery sp_puller sv_nodeID dc_network dc_selfNodeID
    dc_allowInsecureHTTP fst]; try done.
  - by rewrite <- Hpn.
  - by eexists.
  - by apply NewStore_id.
  - unfold NewPuller. cbn [pl_selfNodeID]. cbv zeta. rewrite Htrim. done.
Qed.

(** C24: Services find each other: when the publisher of a running configuration
    publishes with success, the transaction it broadcast carries a pin that the
    discovery of every other service on the same network accepts, as the node the
    first service is, whatever the two configurations say otherwise, as long as the
    payload has not expired and the presence URL is one the second may fetch. *)
Theorem services_find_each_other {BT : Btcd} net {BL : BsvLaws net} fresh f1 f2 opts1 opts2 s1 s2 network
    a1 a2 operation now p' :
  NewService fresh f1 true opts1 = Ok s1 -> fc_Enabled f1 = true ->
  NewService fresh f2 true opts2 = Ok s2 -> fc_Enabled f2 = true ->
  normalizePublisherNetwork (fc_Network f1) = Ok network -> normalizePublisherNetwork (fc_Network f2) = Ok network ->
  mvcRegistryNetParams network = Ok net -> sv_nodeID s1 <> sv_nodeID s2 ->
  sv_parts s1 = Some a1 -> sv_parts s2 = Some a2 ->
  PublishOnce operation now (sp_publisher a1) = (None, p') ->
  ToLower (TrimSpace operation) = "create" \/ ToLower (TrimSpace operation) = "modify" ->
  let payload := payload_of now (sp_publisher a1) in let content := json_Marshal payload in
  json_faithful payload -> TrimSpace content = content -> content <> "" ->
  plain_request (registry_request operation now [] (sp_publisher a1)) = true ->
  let url := TrimSpace (rp_PresenceURL payload) in
  url <> "" -> discoveryPresenceURLAllowed url (fc_AllowInsecureHTTP f2) = true ->
  exists client result txid,
    pb_client (sp_publisher a1) = Some client
    /\ BroadcastMVC client (broadcast_of result (sp_publisher a1)) = Ok txid
    /\ mvcRegistryRawTx (rs_Tx result) = Ok (rs_RawTx result)
    /\ (zlen (base_encoding (rs_Tx result)) <= 2 ^ 25 -> forall height time, exists pin,
         catchPinsByTx height time (rs_Tx result) = Ok [pin]
         /\ forall q later, gp_Operation q = pin_Operation pin -> gp_ChainName q = pin_ChainName pin ->
              gp_ContentBody q = pin_ContentBody pin ->
              UnixMilli later <= UnixMilli (now + pb_validFor (sp_publisher a1)) ->
              exists node, candidateFromPin q later (sp_discovery a2) = Some (mkCandidate q node false)
                /\ rn_NodeID node = sv_nodeID s1 /\ rn_PublicKey node = pb_publicKey (sp_publisher a1)
                /\ rn_PresenceURL node = url).
Proof.
  intros H1 He1 H2 He2 Hn1 Hn2 Hnet Hdiff Ha1 Ha2 Hpub Hop payload content Hf Ht Hne Hplain url Hune Hurl.
  destruct (service_parts net _ _ _ _ _ H1 He1 Hn1 Hnet) as (b1 & Hb1 & A1). rewrite Ha1 in Hb1. injection Hb1 as <-.
  destruct (service_parts net _ _ _ _ _ H2 He2 Hn2 Hnet) as (b2 & Hb2 & A2). rewrite Ha2 in Hb2. injection Hb2 as <-.
  pose proof (pa_network _ _ _ A1) as Hl1. rewrite Hn1 in Hl1. injection Hl1 as Hl1.
  pose proof (pa_network _ _ _ A2) as Hl2. rewrite Hn2 in Hl2. injection Hl2 as Hl2.
  destruct (pa_made _ _ _ A1) as [opts Hmade].
  destruct (publication_accepted net opts _ operation now p' Hmade (pa_enabled _ _ _ A1) Hpub Hop) as
    (client & utxos & result & txid & Hc & Hbuild & Hbroad & _ & Hpin); try done.
  - by rewrite <- Hl1.
  - by rewrite (pa_dust _ _ _ A1).
  - exists client, result, txid. split_and!; [done|done| |].
    { apply BuildMVCRegistryTx_built in Hbuild as (? & ? & ? & ? & ? & ? & B). by destruct B. }
    intros Hsize height time. destruct (Hpin Hsize height time) as (pin & Hcatch & Hq). exists pin. split; [done|].
    intros q later Q1 Q2 Q3 Hlater. rewrite (pa_publisher _ _ _ A1). apply Hq; try done.
    + by rewrite (pa_discovery_network _ _ _ A2), <- Hl1, <- Hl2.
    + rewrite (pa_discovery _ _ _ A2). rewrite <- (pa_publisher _ _ _ A1). congruence.
    + by rewrite (pa_insecure _ _ _ A2).
Qed.
End Facts.

(** ** Two services *)

#[local] Existing Instance toy_crypto.
#[local] Existing Instance toy_url.
#[local] Existing Instance toy_json.
#[local] Existing Instance toy_bsv.
#[local] Existing Instance toy_parts.

Definition toy_metalet : MetaletJSON := {|
  json_probe := via_JSON (fun _ => []) (fun _ => None);
  json_envelope := via_JSON (fun e => [TZ (en_Code e)]) (fun _ => None);
  json_utxos := via_JSON (fun _ => []) (fun _ => None);
  json_result := via_JSON (fun s => [TS s]) (fun l => match l with [TS s] => Some s | _ => None end);
  json_broadcast := via_JSON (fun b => [TS (br_RawTx b)]) (fun _ => None) |}.
#[local] Existing Instance toy_metalet.
Definition no_transport : HTTPTransport := mkTransport (fun _ _ _ => None) (fun _ _ _ => Err "connection refused").
Definition env_of (key url : string) : Environ := fun name =>
  if String.eqb name "METASO_P2P_FEDERATION_ENABLED" then Some "true"
  else if String.eqb name "METASO_P2P_FEDERATION_NODE_PRIVATE_KEY" then Some key
  else if String.eqb name "METASO_P2P_FEDERATION_PUBLIC_BASE_URL" then Some url else None.
#[local] Instance no_durations : DurationParser := fun _ => None.
Definition sample_config (key url : string) : Config :=
  match Load (env_of key url) with Ok cfg => cfg | Err _ => Default end.
Definition with_client : list ServiceOption := [WithServicePublisherClient (Some client_a)].
Definition sample_service (key url : string) : Service :=
  match NewService no_transport (cfg_Federation (sample_config key url)) true with_client with
  | Ok s => s | Err _ => mkService false "" None false end.
Definition service_a : Service := sample_service secret_a "https://a.example".
Definition service_b : Service := sample_service secret_b "https://b.example/".
Definition parts_of (s : Service) : ServiceParts :=
  match sv_parts s with
  | Some a => a
  | None => mkParts (NewStore "" []) (NewSnapshotBuilder "" 0 "") publisher_a discovery_b (NewPuller (NewStore "" []) "" 0 0 0 0 0)
  end.

Example service_ids : (service_NodeID service_a, service_NodeID service_b) = ("mvc:1NodeA", "mvc:1NodeB").
Proof. vm_compute. reflexivity. Qed.
(** Starting twice launches the loops once. *)
Example service_start_once :
  ((service_Start service_a).2, (service_Start (service_Start service_a).1).2,
   (service_Stop (service_Start service_a).1).2, (service_Stop service_a).2) = (true, false, true, false).
Proof. vm_compute. reflexivity. Qed.

Lemma loaded_service_starts_witness :
  is_ok (NewService no_transport (cfg_Federation (sample_config secret_b "https://b.example/")) true []) = true.
Proof.
  assert (H := loaded_service_starts (env_of secret_b "https://b.example/")
    (sample_config secret_b "https://b.example/") no_transport []).
  rewrite H; vm_compute; reflexivity.
Defined.

Lemma services_find_each_other_witness :
  exists client result txid,
    pb_client (sp_publisher (parts_of service_a)) = Some client
    /\ BroadcastMVC client (broadcast_of result (sp_publisher (parts_of service_a))) = Ok txid
    /\ mvcRegistryRawTx (rs_Tx result) = Ok (rs_RawTx result)
    /\ (zlen (base_encoding (rs_Tx result)) <= 2 ^ 25 -> forall height time, exists pin,
         catchPinsByTx height time (rs_Tx result) = Ok [pin]
         /\ forall q later, gp_Operation q = pin_Operation pin -> gp_ChainName q = pin_ChainName pin ->
              gp_ContentBody q = pin_ContentBody pin ->
              UnixMilli later <= UnixMilli (ms 1000 + pb_validFor (sp_publisher (parts_of service_a))) ->
              exists node, candidateFromPin q later (sp_discovery (parts_of service_b)) = Some (mkCandidate q node false)
                /\ rn_NodeID node = sv_nodeID service_a
                /\ rn_PublicKey node = pb_publicKey (sp_publisher (parts_of service_a))
                /\ rn_PresenceURL node
                   = TrimSpace (rp_PresenceURL (payload_of (ms 1000) (sp_publisher (parts_of service_a))))).
Proof.
  apply (services_find_each_other "mainnet" no_transport (cfg_Federation (sample_config secret_a "https://a.example"))
    (cfg_Federation (sample_config secret_b "https://b.example/")) with_client with_client service_a service_b
    "mvc-mainnet" (parts_of service_a) (parts_of service_b) "create" (ms 1000)
    (PublishOnce "create" (ms 1000) (sp_publisher (parts_of service_a))).2);
    try (vm_compute; reflexivity); try (vm_compute; discriminate). left. vm_compute. reflexivity.
Defined.
