(* ===== verification/SkillService.v ===== *)
(** * SkillService: services, their versions and ratings ([internal/aggregator/skillservice])

    types.go, db.go, process.go, rating.go, provider.go, userinfo_adapter.go and
    module.go: one record per service, kept under the pin that created it; pins
    that modify or revoke the current version fold into it; ratings are stored
    once each and summed per service; index entries lead from a provider to its
    services, newest first. *)

From S2P Require Import Prelude GoText Json Storage Aggregator Effects UserInfo.
From coqutil.Datatypes Require Import RecordSetters.
Import TriangleBracketNotations.

Definition PathSkillService : string := "/protocols/skill-service".
Definition PathSkillServiceRate : string := "/protocols/skill-service-rate".
Definition NamespaceService : string := "skillservice".
Definition NamespaceRate : string := "skillservice_rate".
Definition OperationCreate : string := "create".
Definition OperationModify : string := "modify".
Definition OperationRevoke : string := "revoke".
Definition StatusConfirmed : Z := 0.
Definition StatusPending : Z := 1.

Record ServiceContentSummary := mkSummary {
  su_ServiceName : string; su_DisplayName : string; su_Description : string; su_ServiceIcon : string;
  su_ProviderMetaBot : string; su_ProviderSkill : string; su_Price : string; su_Currency : string;
  su_PaymentChain : string; su_SettlementKind : string; su_MRC20Ticker : string; su_MRC20Id : string;
  su_OutputType : string; su_PaymentAddress : string; su_Disabled : bool }.
Record RatingContentSummary := mkRatingSummary {
  ra_ServiceID : string; ra_ServicePaidTx : string; ra_Rate : Z; ra_Comment : string }.

Record ServiceRecord := mkService {
  SourceServicePinId : string; CurrentPinId : string; ChainName : string;
  ProviderMetaId : string; ProviderGlobalMetaId : string; ProviderAddress : string;
  ServiceName : string; DisplayName : string; Description : string; ServiceIcon : string;
  ProviderMetaBot : string; ProviderSkill : string; Price : string; Currency : string;
  PaymentChain : string; SettlementKind : string; MRC20Ticker : string; MRC20Id : string;
  OutputType : string; PaymentAddress : string;
  Status : Z; Operation : string; Disabled : bool; CreatedAt : Z; UpdatedAt : Z }.
Record RatingPin := mkRatingPin {
  rp_PinId : string; rp_ChainName : string; rp_RaterMetaId : string; rp_RaterGlobalMetaId : string;
  rp_RaterAddress : string; rp_ServiceID : string; rp_SourceServicePinId : string;
  rp_ServicePaidTx : string; rp_Rate : Z; rp_Comment : string; rp_Timestamp : Z }.
Record RatingAggregate := mkAggregate {
  ag_ChainName : string; ag_SourceServicePinId : string; ag_Sum : Z; ag_Count : Z }.

Definition IsVisibleDefault (r : ServiceRecord) : bool :=
  negb (String.eqb (Operation r) OperationRevoke) && negb (Disabled r)
  && ((Status r =? StatusConfirmed) || (Status r =? StatusPending)).

(** [json.Marshal] of the stored records, and [json.Unmarshal] of what the pins hold. *)
Definition service_texts (r : ServiceRecord) : list string :=
  [SourceServicePinId r; CurrentPinId r; ChainName r; ProviderMetaId r; ProviderGlobalMetaId r;
   ProviderAddress r; ServiceName r; DisplayName r; Description r; ServiceIcon r; ProviderMetaBot r;
   ProviderSkill r; Price r; Currency r; PaymentChain r; SettlementKind r; MRC20Ticker r; MRC20Id r;
   OutputType r; PaymentAddress r; Operation r].
Definition service_ints (r : ServiceRecord) : list Z := [Status r; CreatedAt r; UpdatedAt r].
Definition rating_texts (r : RatingPin) : list string :=
  [rp_PinId r; rp_ChainName r; rp_RaterMetaId r; rp_RaterGlobalMetaId r; rp_RaterAddress r;
   rp_ServiceID r; rp_SourceServicePinId r; rp_ServicePaidTx r; rp_Comment r].
Definition rating_ints (r : RatingPin) : list Z := [rp_Rate r; rp_Timestamp r].
Definition summary_texts (s : ServiceContentSummary) : list string :=
  [su_ServiceName s; su_DisplayName s; su_Description s; su_ServiceIcon s; su_ProviderMetaBot s;
   su_ProviderSkill s; su_Price s; su_Currency s; su_PaymentChain s; su_SettlementKind s;
   su_MRC20Ticker s; su_MRC20Id s; su_OutputType s; su_PaymentAddress s].
Class SkillJSON := {
  json_Service :: JSON ServiceRecord;
  json_RatingPin :: JSON RatingPin;
  json_Aggregate :: JSON RatingAggregate;
  unmarshal_summary : string -> res ServiceContentSummary;
  unmarshal_rating : string -> res RatingContentSummary;
  (** Valid UTF-8, which a decoded string always is, and a record of it survives
      the round trip when its numbers are in range. *)
  text_ok : string -> Prop;
  text_ok_ascii s : ascii_bytes (bytes_of_string s) -> text_ok s;
  summary_text_ok raw s : unmarshal_summary raw = Ok s -> Forall text_ok (summary_texts s);
  rating_text_ok raw s : unmarshal_rating raw = Ok s ->
    Forall text_ok [ra_ServiceID s; ra_ServicePaidTx s; ra_Comment s];
  Service_faithful r : Forall text_ok (service_texts r) -> Forall in_i64 (service_ints r) -> json_faithful r;
  RatingPin_faithful r : Forall text_ok (rating_texts r) -> Forall in_i64 (rating_ints r) -> json_faithful r;
  Aggregate_faithful r : Forall text_ok [ag_ChainName r; ag_SourceServicePinId r] ->
    Forall in_i64 [ag_Sum r; ag_Count r] -> json_faithful r }.

(** ** Keys ([db.go], [rating.go]) *)

Definition keyService : string := "service:".
Definition keyPinToSource : string := "pin_to_source:".
Definition keyServiceByProvider : string := "service_by_provider:".
Definition keyServiceByProviderMeta : string := "service_by_provider_meta:".
Definition keyServiceByProviderGlobal : string := "service_by_provider_global:".
Definition keyServiceByProviderGlobalChain : string := "service_by_provider_global_chain:".
Definition keyServiceByUpdated : string := "service_by_updated:".
Definition keyRatingPin : string := "rating_pin:".
Definition keyRatingAgg : string := "rating_agg:".

Definition serviceKey (chainName sourcePinId : string) : string :=
  keyService +:+ chainName +:+ ":" +:+ sourcePinId.
Definition pinToSourceKey (chainName pinId : string) : string :=
  keyPinToSource +:+ chainName +:+ ":" +:+ pinId.
Definition invertedTimestampHex (updatedAt : Z) : string := fmt_016x (u64 (Z.lnot updatedAt)).
Definition providerIndexPrefix (chainName providerMetaId : string) : string :=
  if is_empty chainName then keyServiceByProvider
  else keyServiceByProvider +:+ chainName +:+ ":" +:+ providerMetaId +:+ ":".
Definition providerIndexKey (chainName providerMetaId sourcePinId : string) : string :=
  keyServiceByProvider +:+ chainName +:+ ":" +:+ providerMetaId +:+ ":" +:+ sourcePinId.
Definition homepageProviderMetaIndexPrefix (providerMetaId : string) : string :=
  keyServiceByProviderMeta +:+ providerMetaId +:+ ":".
Definition homepageProviderMetaIndexKey (providerMetaId : string) (updatedAt : Z)
    (chainName sourcePinId : string) : string :=
  keyServiceByProviderMeta +:+ providerMetaId +:+ ":" +:+ invertedTimestampHex updatedAt +:+ ":"
  +:+ chainName +:+ ":" +:+ sourcePinId.
Definition providerGlobalIndexPrefix (providerGlobalMetaId : string) : string :=
  keyServiceByProviderGlobal +:+ providerGlobalMetaId +:+ ":".
Definition providerGlobalIndexKey (providerGlobalMetaId : string) (updatedAt : Z)
    (chainName sourcePinId : string) : string :=
  keyServiceByProviderGlobal +:+ providerGlobalMetaId +:+ ":" +:+ invertedTimestampHex updatedAt +:+ ":"
  +:+ chainName +:+ ":" +:+ sourcePinId.
Definition providerGlobalChainIndexPrefix (providerGlobalMetaId chainName : string) : string :=
  keyServiceByProviderGlobalChain +:+ providerGlobalMetaId +:+ ":" +:+ chainName +:+ ":".
Definition providerGlobalChainIndexKey (providerGlobalMetaId chainName : string) (updatedAt : Z)
    (sourcePinId : string) : string :=
  keyServiceByProviderGlobalChain +:+ providerGlobalMetaId +:+ ":" +:+ chainName +:+ ":"
  +:+ invertedTimestampHex updatedAt +:+ ":" +:+ sourcePinId.
Definition updatedIndexKey (chainName : string) (updatedAt : Z) (sourcePinId : string) : string :=
  keyServiceByUpdated +:+ chainName +:+ ":" +:+ invertedTimestampHex updatedAt +:+ ":" +:+ sourcePinId.
Definition ratingPinKey (chainName ratingPinId : string) : string :=
  keyRatingPin +:+ chainName +:+ ":" +:+ ratingPinId.
Definition ratingAggKey (chainName sourceServicePinId : string) : string :=
  keyRatingAgg +:+ chainName +:+ ":" +:+ sourceServicePinId.
Definition parseServiceID (key : string) : option (string * string) :=
  if HasPrefix key keyService then cut_char ":" (TrimPrefix key keyService) else None.

(** ** Providers ([provider.go], [userinfo_adapter.go]) *)

Record ProfileSnapshot := mkSnapshot {
  ps_MetaId : string; ps_GlobalMetaId : string; ps_Address : string; ps_Name : string;
  ps_Avatar : string; ps_AvatarId : string; ps_ChatPublicKey : string }.
Definition no_snapshot : ProfileSnapshot := mkSnapshot "" "" "" "" "" "" "".
(** The answers of the user info aggregator at the time of a call; [None] is a nil profile. *)
Record ProfileLookup := mkLookup {
  LookupByMetaId : string -> res (option ProfileSnapshot);
  LookupByGlobalMetaId : string -> res (option ProfileSnapshot);
  LookupByAddress : string -> res (option ProfileSnapshot) }.
Definition snapshotFromUserInfo (p : UserProfile) : ProfileSnapshot :=
  mkSnapshot (UserInfo.MetaID p) (UserInfo.GlobalMetaID p) (UserInfo.Address p) (UserInfo.Name p)
    (UserInfo.Avatar p) (UserInfo.AvatarId p) (UserInfo.ChatPublicKey p).
(** The first of the three lookups that has a value to look for and finds a profile. *)
Definition try_lookup (look : string -> res (option ProfileSnapshot)) (value : string) : option ProfileSnapshot :=
  let value := TrimSpace value in
  if is_empty value then None else match look value with Ok p => p | Err _ => None end.
Definition ResolveProvider (lookup : option ProfileLookup) (rec : ServiceRecord) : ProfileSnapshot :=
  match lookup with
  | None => no_snapshot
  | Some l =>
      match try_lookup (LookupByMetaId l) (ProviderMetaId rec) with
      | Some p => p
      | None =>
          match try_lookup (LookupByGlobalMetaId l) (ProviderGlobalMetaId rec) with
          | Some p => p
          | None => default no_snapshot (try_lookup (LookupByAddress l) (ProviderAddress rec))
          end
      end
  end.
(** [uniqueNonEmptyStrings]; [seen] holds the lower-case values kept. *)
Fixpoint unique_loop (values : list string) (seen : list string) : list string :=
  match values with
  | [] => []
  | value :: values =>
      let value := TrimSpace value in
      if is_empty value || bool_decide (ToLower value ∈ seen) then unique_loop values seen
      else value :: unique_loop values (ToLower value :: seen)
  end.
Definition uniqueNonEmptyStrings (values : list string) : list string := unique_loop values [].
Definition homepageProviderGlobalMetaIds (lookup : option ProfileLookup) (rec : ServiceRecord) : list string :=
  uniqueNonEmptyStrings [ProviderGlobalMetaId rec; ps_GlobalMetaId (ResolveProvider lookup rec)].

(** ** Pins ([process.go], [rating.go]) *)

Definition protocolPathFromPinPath (path : string) : string :=
  let base := ToLower (TrimRightChar "/" (TrimSpace path)) in
  match Index base "@" with Some (S at_) => stake (S at_) base | _ => base end.
Definition isVersionOperation (operation : string) : bool :=
  let op := ToLower (TrimSpace operation) in
  String.eqb op OperationModify || String.eqb op OperationRevoke.
Definition pinTargetFromPath (path : string) : string :=
  match Index path "@" with
  | None => ""
  | Some at_ => TrimChar "/" (TrimSpace (sdrop (at_ + 1) path))
  end.
Definition resolveTargetPinId (pin : PinInscription) : option string :=
  let candidate := pinTargetFromPath (pin_Path pin) in
  if negb (is_empty candidate) && negb (String.eqb candidate (pin_Id pin)) then Some candidate else
  let candidate := TrimPrefix (TrimSpace (pin_OriginalId pin)) "@" in
  if negb (is_empty candidate) && negb (String.eqb candidate (pin_Id pin)) then Some candidate else None.
Definition isCurrentVersionTarget (rec : ServiceRecord) (targetPinId : string) : bool :=
  String.eqb targetPinId (CurrentPinId rec).
(** The value itself, not its trimmed form. *)
Fixpoint firstNonEmpty (values : list string) : string :=
  match values with
  | [] => ""
  | v :: values => if is_empty (TrimSpace v) then firstNonEmpty values else v
  end.
Definition statusFromPin (_ : PinInscription) : Z := StatusConfirmed.

Definition newServiceRecord (pin : PinInscription) (summary : ServiceContentSummary) (sourcePinId : string)
    : ServiceRecord :=
  {| SourceServicePinId := sourcePinId; CurrentPinId := pin_Id pin; ChainName := pin_ChainName pin;
     ProviderMetaId := firstNonEmpty [pin_MetaId pin; pin_CreateMetaId pin];
     ProviderGlobalMetaId := pin_GlobalMetaId pin;
     ProviderAddress := firstNonEmpty [pin_Address pin; pin_CreateAddress pin];
     ServiceName := su_ServiceName summary; DisplayName := su_DisplayName summary;
     Description := su_Description summary; ServiceIcon := su_ServiceIcon summary;
     ProviderMetaBot := su_ProviderMetaBot summary; ProviderSkill := su_ProviderSkill summary;
     Price := su_Price summary; Currency := su_Currency summary; PaymentChain := su_PaymentChain summary;
     SettlementKind := su_SettlementKind summary; MRC20Ticker := su_MRC20Ticker summary;
     MRC20Id := su_MRC20Id summary; OutputType := su_OutputType summary;
     PaymentAddress := su_PaymentAddress summary;
     Status := statusFromPin pin; Operation := ToLower (TrimSpace (pin_Operation pin));
     Disabled := su_Disabled summary; CreatedAt := pin_Timestamp pin; UpdatedAt := pin_Timestamp pin |}.
Definition newRatingPin (pin : PinInscription) (summary : RatingContentSummary) (normalisedSource : string)
    : RatingPin :=
  {| rp_PinId := pin_Id pin; rp_ChainName := pin_ChainName pin;
     rp_RaterMetaId := firstNonEmpty [pin_MetaId pin; pin_CreateMetaId pin];
     rp_RaterGlobalMetaId := pin_GlobalMetaId pin;
     rp_RaterAddress := firstNonEmpty [pin_Address pin; pin_CreateAddress pin];
     rp_ServiceID := ra_ServiceID summary; rp_SourceServicePinId := normalisedSource;
     rp_ServicePaidTx := ra_ServicePaidTx summary; rp_Rate := ra_Rate summary;
     rp_Comment := ra_Comment summary; rp_Timestamp := pin_Timestamp pin |}.

(** The record a modify pin leaves, and the one a revoke pin leaves. *)
Definition modified_service (pin : PinInscription) (summary : ServiceContentSummary) (previous : ServiceRecord)
    : ServiceRecord :=
  let updated := newServiceRecord pin summary (SourceServicePinId previous) in
  let updated := updated <| CreatedAt := CreatedAt previous |> in
  let updated := if is_empty (ProviderMetaId updated)
    then updated <| ProviderMetaId := ProviderMetaId previous |> else updated in
  let updated := if is_empty (ProviderGlobalMetaId updated)
    then updated <| ProviderGlobalMetaId := ProviderGlobalMetaId previous |> else updated in
  let updated := if is_empty (ProviderAddress updated)
    then updated <| ProviderAddress := ProviderAddress previous |> else updated in
  if String.eqb (Operation previous) OperationRevoke
  then updated <| Operation := OperationRevoke |> else updated.
Definition revoked_service (pin : PinInscription) (previous : ServiceRecord) : ServiceRecord :=
  let updated := previous <| Operation := OperationRevoke |> in
  let updated := updated <| CurrentPinId := pin_Id pin |> in
  if 0 <? pin_Timestamp pin then updated <| UpdatedAt := pin_Timestamp pin |> else updated.

Section SkillService.
Context {St : Type} {KV : KVOps St} {SJ : SkillJSON}.
(** [a.profileLookup]. *)
Variable lookup : option ProfileLookup.
Open Scope handler_scope.

Definition decodeServiceSummary (pin : PinInscription) : option ServiceContentSummary :=
  if is_empty (pin_ContentBody pin) then None else
  match unmarshal_summary (pin_ContentBody pin) with
  | Err _ => None
  | Ok s => if is_empty (TrimSpace (su_ServiceName s)) && is_empty (TrimSpace (su_DisplayName s))
            then None else Some s
  end.
Definition decodeRatingSummary (pin : PinInscription) : option RatingContentSummary :=
  if is_empty (pin_ContentBody pin) then None else
  match unmarshal_rating (pin_ContentBody pin) with
  | Err _ => None
  | Ok s => if (ra_Rate s <? 1) || (5 <? ra_Rate s) then None
            else if is_empty (TrimSpace (ra_ServiceID s)) then None else Some s
  end.

(** *** Services *)

Definition loadService (chainName sourcePinId : string) : M St (option ServiceRecord) :=
  if is_empty chainName || is_empty sourcePinId
  then hfail "loadService: chainName and sourcePinId required"
  else
    raw <- fetch NamespaceService (serviceKey chainName sourcePinId) ;;
    match raw with
    | None => hret None
    | Some raw => match json_Unmarshal raw with
                  | Ok rec => hret (Some rec)
                  | Err _ => hfail "loadService: corrupt record"
                  end
    end.
Definition loadServiceByAnyPinId (chainName anyPinId : string) : M St (option ServiceRecord) :=
  if is_empty chainName || is_empty anyPinId then hret None
  else
    mapped <- fetch NamespaceService (pinToSourceKey chainName anyPinId) ;;
    loadService chainName (default anyPinId mapped).

(** The index entries that go with the previous version, and those of a record. *)
Definition stale_keys (previous rec : ServiceRecord) : list string :=
  (if is_empty (ProviderMetaId previous) then []
   else [providerIndexKey (ChainName previous) (ProviderMetaId previous) (SourceServicePinId previous);
         homepageProviderMetaIndexKey (ProviderMetaId previous) (UpdatedAt previous) (ChainName previous)
           (SourceServicePinId previous)])
  ++ (if (0 <? UpdatedAt previous) && negb (UpdatedAt previous =? UpdatedAt rec)
      then [updatedIndexKey (ChainName previous) (UpdatedAt previous) (SourceServicePinId previous)] else [])
  ++ List.concat (map (fun id =>
       [providerGlobalIndexKey id (UpdatedAt previous) (ChainName previous) (SourceServicePinId previous);
        providerGlobalChainIndexKey id (ChainName previous) (UpdatedAt previous) (SourceServicePinId previous)])
       (homepageProviderGlobalMetaIds lookup previous)).
Definition service_index_keys (rec : ServiceRecord) : list string :=
  (if is_empty (ProviderMetaId rec) then []
   else [providerIndexKey (ChainName rec) (ProviderMetaId rec) (SourceServicePinId rec);
         homepageProviderMetaIndexKey (ProviderMetaId rec) (UpdatedAt rec) (ChainName rec)
           (SourceServicePinId rec)])
  ++ List.concat (map (fun id =>
       [providerGlobalIndexKey id (UpdatedAt rec) (ChainName rec) (SourceServicePinId rec);
        providerGlobalChainIndexKey id (ChainName rec) (UpdatedAt rec) (SourceServicePinId rec)])
       (homepageProviderGlobalMetaIds lookup rec))
  ++ (if 0 <? UpdatedAt rec
      then [updatedIndexKey (ChainName rec) (UpdatedAt rec) (SourceServicePinId rec)] else []).
Definition saveService (rec : ServiceRecord) (previous : option ServiceRecord) : M St unit :=
  if is_empty (ChainName rec) || is_empty (SourceServicePinId rec)
  then hfail "saveService: missing chainName or sourceServicePinId"
  else
    match previous with
    | Some previous => del_all NamespaceService (stale_keys previous rec)
    | None => hret tt
    end ;;;
    kv_put NamespaceService (serviceKey (ChainName rec) (SourceServicePinId rec)) (json_Marshal rec) ;;;
    put_empty NamespaceService (service_index_keys rec).
Definition mapPinToSource (chainName anyPinId sourcePinId : string) : M St unit :=
  if is_empty chainName || is_empty anyPinId || is_empty sourcePinId || String.eqb anyPinId sourcePinId
  then hret tt
  else kv_put NamespaceService (pinToSourceKey chainName anyPinId) sourcePinId.

Definition processServiceCreate (pin : PinInscription) : M St unit :=
  match decodeServiceSummary pin with
  | None => hret tt
  | Some summary =>
      existing <- loadService (pin_ChainName pin) (pin_Id pin) ;;
      match existing with
      | Some _ => hret tt
      | None => saveService (newServiceRecord pin summary (pin_Id pin)) None
      end
  end.
(** The common part of [processServiceModify] and [processServiceRevoke]: the
    current version of the target, if the pin targets it. *)
Definition with_current (pin : PinInscription) (k : ServiceRecord -> M St unit) : M St unit :=
  match resolveTargetPinId pin with
  | None => hret tt
  | Some targetPinId =>
      previous <- loadServiceByAnyPinId (pin_ChainName pin) targetPinId ;;
      match previous with
      | None => hret tt
      | Some previous => if isCurrentVersionTarget previous targetPinId then k previous else hret tt
      end
  end.
Definition processServiceModify (pin : PinInscription) : M St unit :=
  with_current pin (fun previous =>
    match decodeServiceSummary pin with
    | None => hret tt
    | Some summary =>
        saveService (modified_service pin summary previous) (Some previous) ;;;
        mapPinToSource (pin_ChainName pin) (pin_Id pin) (SourceServicePinId previous)
    end).
Definition processServiceRevoke (pin : PinInscription) : M St unit :=
  with_current pin (fun previous =>
    saveService (revoked_service pin previous) (Some previous) ;;;
    mapPinToSource (pin_ChainName pin) (pin_Id pin) (SourceServicePinId previous)).
Definition processServicePin (pin : PinInscription) : M St unit :=
  if is_empty (pin_ChainName pin) || is_empty (pin_Id pin) then hret tt else
  let op := ToLower (TrimSpace (pin_Operation pin)) in
  if String.eqb op OperationCreate then processServiceCreate pin
  else if String.eqb op OperationModify then processServiceModify pin
  else if String.eqb op OperationRevoke then processServiceRevoke pin
  else hret tt.
Definition processTargetedServicePin (pin : PinInscription) : M St unit :=
  let targetPinId := pinTargetFromPath (pin_Path pin) in
  if is_empty targetPinId || is_empty (pin_ChainName pin) then hret tt else
  rec <- loadServiceByAnyPinId (pin_ChainName pin) targetPinId ;;
  match rec with
  | None => hret tt
  | Some _ => processServicePin pin
  end.

(** *** Ratings *)

Definition loadRatingPin (chainName ratingPinId : string) : M St (option RatingPin) :=
  if is_empty chainName || is_empty ratingPinId
  then hfail "loadRatingPin: chainName and ratingPinId required"
  else
    raw <- fetch NamespaceRate (ratingPinKey chainName ratingPinId) ;;
    match raw with
    | None => hret None
    | Some raw => match json_Unmarshal raw with
                  | Ok rp => hret (Some rp)
                  | Err _ => hfail "loadRatingPin: corrupt entry"
                  end
    end.
Definition saveRatingPin (rp : RatingPin) : M St unit :=
  if is_empty (rp_ChainName rp) || is_empty (rp_PinId rp) then hfail "saveRatingPin: missing identity"
  else kv_put NamespaceRate (ratingPinKey (rp_ChainName rp) (rp_PinId rp)) (json_Marshal rp).
Definition LoadRatingAggregate (chainName sourceServicePinId : string) : M St (option RatingAggregate) :=
  if is_empty chainName || is_empty sourceServicePinId then hret None
  else
    raw <- fetch NamespaceRate (ratingAggKey chainName sourceServicePinId) ;;
    match raw with
    | None => hret None
    | Some raw => match json_Unmarshal raw with
                  | Ok agg => hret (Some agg)
                  | Err _ => hfail "LoadRatingAggregate: corrupt entry"
                  end
    end.
(** [int64] additions. *)
Definition bumped (agg : RatingAggregate) (rate : Z) : RatingAggregate :=
  agg <| ag_Sum := wrap64 (ag_Sum agg + rate) |> <| ag_Count := wrap64 (ag_Count agg + 1) |>.
Definition bumpRatingAggregate (chainName sourcePinId : string) (rate : Z) : M St unit :=
  agg <- LoadRatingAggregate chainName sourcePinId ;;
  let agg := default (mkAggregate chainName sourcePinId 0 0) agg in
  kv_put NamespaceRate (ratingAggKey chainName sourcePinId) (json_Marshal (bumped agg rate)).
(** Errors of [loadRatingPin] are not looked at. *)
Definition known_rating (chainName ratingPinId : string) : M St bool := fun s =>
  match loadRatingPin chainName ratingPinId s with
  | (Ok (Some _), s) => (Ok true, s)
  | (_, s) => (Ok false, s)
  end.
Definition processRatingPin (pin : PinInscription) : M St unit :=
  if is_empty (pin_Id pin) || is_empty (pin_ChainName pin) then hret tt else
  match decodeRatingSummary pin with
  | None => hret tt
  | Some summary =>
      known <- known_rating (pin_ChainName pin) (pin_Id pin) ;;
      if (known : bool) then hret tt else
      rec <- loadServiceByAnyPinId (pin_ChainName pin) (ra_ServiceID summary) ;;
      let sourcePinId :=
        match rec with
        | None => ""
        | Some rec => if negb (is_empty (ChainName rec)) && negb (String.eqb (ChainName rec) (pin_ChainName pin))
                      then "" else SourceServicePinId rec
        end in
      saveRatingPin (newRatingPin pin summary sourcePinId) ;;;
      if is_empty sourcePinId then hret tt
      else bumpRatingAggregate (pin_ChainName pin) sourcePinId (ra_Rate summary)
  end.

Definition processPin (pin : PinInscription) : M St unit :=
  if is_empty (pin_Path pin) then hret tt else
  let base := protocolPathFromPinPath (pin_Path pin) in
  if String.eqb base PathSkillService then processServicePin pin
  else if String.eqb base PathSkillServiceRate then processRatingPin pin
  else if isVersionOperation (pin_Operation pin) then processTargetedServicePin pin
  else hret tt.
Definition HandleBlockPin (pin : PinInscription) : M St (option NotifyEvent) :=
  processPin pin ;;; hret None.
Definition HandleMempoolPin (pin : PinInscription) : M St (option NotifyEvent) :=
  processPin pin ;;; hret None.

(** *** Enumerations *)

Definition listServicesByChain (chainName : string) (s : St) : res (list ServiceRecord) :=
  scan_json_err NamespaceService (keyService +:+ chainName +:+ ":") s.
Definition listAllServices (s : St) : res (list ServiceRecord) :=
  scan_json_err NamespaceService keyService s.
End SkillService.
