(* ===== verification/SkillCatalogue.v ===== *)
(** * SkillCatalogue: services and ratings as an abstract catalogue

    What the skill service keeps, as finite maps by chain and id, and what a pin
    does to them; the handlers over the store implement it, whatever the user
    info aggregator answers meanwhile. *)

From S2P Require Import Prelude GoText Json Storage Aggregator Effects SkillService.
From coqutil.Datatypes Require Import RecordSetters.
Import TriangleBracketNotations.

(** * Records of one kind under two-part keys

    A table is the part of a namespace under keys [<kind><chain>:<id>]: a finite
    map from pairs of a chain name (which has no colon) and an id.  The lemmas
    say what reading, writing and scanning such keys do to the map. *)

Definition table_key (kind c i : string) : string := kind +:+ c +:+ ":" +:+ i.
(** The namespace contents [m] hold the map [f], encoded, under [kind]. *)
Record table {A} (enc : A -> string) (kind : string) (f : gmap (string * string) A)
    (m : gmap string string) : Prop := {
  table_chain c i : is_Some (f !! (c, i)) -> no_char ":" c = true;
  table_at k v : HasPrefix k kind = true ->
    (m !! k = Some v <-> exists c i a, k = table_key kind c i /\ f !! (c, i) = Some a /\ v = enc a) }.

Section Table.
Context {A : Type} (enc : A -> string) (kind : string).
Implicit Types (f : gmap (string * string) A) (m : gmap string string).
#[local] Abbreviation table := (table enc kind).
#[local] Abbreviation key := (table_key kind).

Lemma table_key_kind c i : HasPrefix (key c i) kind = true.
Proof. apply HasPrefix_app. Qed.
Lemma table_key_inj c i c' i' :
  no_char ":" c = true -> no_char ":" c' = true -> key c i = key c' i' -> c = c' /\ i = i'.
Proof.
  intros Hc Hc' E. unfold table_key in E. apply sapp_eq_length in E as [_ E]; [|done].
  change (c +:+ String ":" i = c' +:+ String ":" i') in E. by apply sep_inj in E.
Qed.
Lemma table_lookup f m c i :
  table f m -> no_char ":" c = true -> m !! key c i = enc <$> f !! (c, i).
Proof.
  intros [Hd Ht] Hc. destruct (f !! (c, i)) as [a|] eqn:E; cbn.
  - apply Ht; [apply table_key_kind|]. by exists c, i, a.
  - destruct (m !! key c i) as [v|] eqn:Ek; [|done].
    apply Ht in Ek as (c' & i' & a & Ei & Ea & _); [|apply table_key_kind].
    apply table_key_inj in Ei as [-> ->]; [congruence|done|by eapply Hd].
Qed.
Lemma table_empty : table ∅ ∅.
Proof.
  split; [intros c i [a H]; by rewrite lookup_empty in H|].
  intros k v _. rewrite lookup_empty. split; [done|]. intros (c & i & a & _ & H & _).
  by rewrite lookup_empty in H.
Qed.
Lemma table_insert f m c i a :
  table f m -> no_char ":" c = true -> table (<[(c, i) := a]> f) (<[key c i := enc a]> m).
Proof.
  intros [Hd Ht] Hc.
  assert (Hd' : forall c' i', is_Some (<[(c, i) := a]> f !! (c', i')) -> no_char ":" c' = true).
  { intros c' i' H. rewrite lookup_insert in H. case_decide as E; [by injection E as <- <-|by eapply Hd]. }
  split; [done|]. intros k v Hk. rewrite lookup_insert. destruct (decide (key c i = k)) as [<-|Hne].
  - split.
    + intros [= <-]. exists c, i, a. by rewrite lookup_insert_eq.
    + intros (c' & i' & a' & E & Ea & ->). apply table_key_inj in E as [<- <-]; [|done|by eapply Hd'].
      rewrite lookup_insert_eq in Ea. congruence.
  - rewrite (Ht k v Hk).
    assert (Hn : forall c' i', k = key c' i' -> (c, i) <> (c', i')) by (intros c' i' -> [= <- <-]; done).
    split; intros (c' & i' & a' & E & Ea & Ev); exists c', i', a'; specialize (Hn c' i' E).
    + by rewrite lookup_insert_ne.
    + by rewrite lookup_insert_ne in Ea.
Qed.
(** Changes under other kinds. *)
Lemma table_frame f m m' :
  table f m -> (forall k, HasPrefix k kind = true -> m' !! k = m !! k) -> table f m'.
Proof. intros [Hd Ht] Hm. split; [done|]. intros k v Hk. rewrite Hm by done. by apply Ht. Qed.
Lemma table_insert_other f m k v :
  table f m -> HasPrefix k kind = false -> table f (<[k := v]> m).
Proof.
  intros Ht Hk. apply (table_frame f m); [done|]. intros k' Hk'.
  rewrite lookup_insert_ne; [done|]. intros ->. congruence.
Qed.

(** A scan of one kind lists the map. *)
Lemma table_entries f m :
  table f m -> prefix_entries m kind ≡ₚ (fun e => (key e.1.1 e.1.2, enc e.2)) <$> map_to_list f.
Proof.
  intros [Hd Ht]. apply NoDup_Permutation.
  - apply (strict_NoDup fst), prefix_entries_strict.
  - apply NoDup_fmap_2_strong; [|apply NoDup_map_to_list].
    intros [[c i] a] [[c' i'] a'] H H' [= E _]. apply elem_of_map_to_list in H, H'.
    apply table_key_inj in E as [<- <-]; [congruence|by eapply Hd..].
  - intros [k v]. rewrite elem_of_prefix_entries, list_elem_of_fmap. split.
    + intros [H Hp]. apply Ht in H as (c & i & a & -> & Ea & ->); [|done].
      exists ((c, i), a). by rewrite elem_of_map_to_list.
    + intros ([[c i] a] & [= -> ->] & H). apply elem_of_map_to_list in H. cbn.
      split; [|apply table_key_kind]. apply Ht; [apply table_key_kind|]. by exists c, i, a.
Qed.
End Table.

(** * Services and ratings as an abstract catalogue

    What the skill service keeps, as finite maps by chain and id, and what a pin
    does to them; the handlers over the store implement it, whatever the user
    info aggregator answers meanwhile. *)

Record Catalogue := mkCatalogue {
  services : gmap (string * string) ServiceRecord;
  sources : gmap (string * string) string;
  ratings : gmap (string * string) RatingPin;
  aggregates : gmap (string * string) RatingAggregate }.
Definition no_catalogue : Catalogue := mkCatalogue ∅ ∅ ∅ ∅.

Definition op_of (pin : PinInscription) : string := ToLower (TrimSpace (pin_Operation pin)).

Section Catalogue.
Context {SJ : SkillJSON}.
Implicit Types (pin : PinInscription) (cat : Catalogue).

(** The service a pin id stands for, on its chain. *)
Definition by_any (chain any : string) cat : option ServiceRecord :=
  if is_empty chain || is_empty any then None
  else services cat !! (chain, default any (sources cat !! (chain, any))).
(** The record that a pin targeting the current version leaves. *)
Definition next_version pin (previous : ServiceRecord) : option ServiceRecord :=
  if String.eqb (op_of pin) OperationModify
  then (fun summary => modified_service pin summary previous) <$> decodeServiceSummary pin
  else if String.eqb (op_of pin) OperationRevoke then Some (revoked_service pin previous) else None.
Definition publish pin cat : Catalogue :=
  match decodeServiceSummary pin with
  | None => cat
  | Some summary =>
      let id := (pin_ChainName pin, pin_Id pin) in
      match services cat !! id with
      | Some _ => cat
      | None => mkCatalogue (<[id := newServiceRecord pin summary (pin_Id pin)]> (services cat)) (sources cat)
                  (ratings cat) (aggregates cat)
      end
  end.
Definition advance pin cat : Catalogue :=
  match resolveTargetPinId pin with
  | None => cat
  | Some target =>
      match by_any (pin_ChainName pin) target cat with
      | None => cat
      | Some previous =>
          if negb (isCurrentVersionTarget previous target) then cat else
          match next_version pin previous with
          | None => cat
          | Some rec =>
              let src := SourceServicePinId previous in
              mkCatalogue (<[(pin_ChainName pin, src) := rec]> (services cat))
                (if String.eqb (pin_Id pin) src then sources cat
                 else <[(pin_ChainName pin, pin_Id pin) := src]> (sources cat))
                (ratings cat) (aggregates cat)
          end
      end
  end.
Definition rate pin cat : Catalogue :=
  match decodeRatingSummary pin with
  | None => cat
  | Some summary =>
      let chain := pin_ChainName pin in
      match ratings cat !! (chain, pin_Id pin) with
      | Some _ => cat
      | None =>
          let src := match by_any chain (ra_ServiceID summary) cat with
                     | Some rec => SourceServicePinId rec
                     | None => ""
                     end in
          let stored := <[(chain, pin_Id pin) := newRatingPin pin summary src]> (ratings cat) in
          if is_empty src then mkCatalogue (services cat) (sources cat) stored (aggregates cat)
          else
            let agg := default (mkAggregate chain src 0 0) (aggregates cat !! (chain, src)) in
            mkCatalogue (services cat) (sources cat) stored
              (<[(chain, src) := bumped agg (ra_Rate summary)]> (aggregates cat))
      end
  end.
Definition update_service pin cat : Catalogue :=
  if is_empty (pin_ChainName pin) || is_empty (pin_Id pin) then cat
  else if String.eqb (op_of pin) OperationCreate then publish pin cat else advance pin cat.
(** What a pin does to the catalogue. *)
Definition apply_pin pin cat : Catalogue :=
  if is_empty (pin_Path pin) then cat else
  let base := protocolPathFromPinPath (pin_Path pin) in
  if String.eqb base PathSkillService then update_service pin cat
  else if String.eqb base PathSkillServiceRate then
    if is_empty (pin_Id pin) || is_empty (pin_ChainName pin) then cat else rate pin cat
  else if isVersionOperation (pin_Operation pin) then
    match by_any (pin_ChainName pin) (pinTargetFromPath (pin_Path pin)) cat with
    | Some _ => update_service pin cat
    | None => cat
    end
  else cat.

(** A pin as the indexers deliver it: a chain name without a colon, a timestamp
    in range, and texts that JSON represents. *)
Record good_pin pin : Prop := {
  gp_chain : no_char ":" (pin_ChainName pin) = true;
  gp_time : in_i64 (pin_Timestamp pin);
  gp_texts : Forall text_ok [pin_Id pin; pin_ChainName pin; firstNonEmpty [pin_MetaId pin; pin_CreateMetaId pin];
    pin_GlobalMetaId pin; firstNonEmpty [pin_Address pin; pin_CreateAddress pin]] }.

Record wf_service (chain id : string) (r : ServiceRecord) : Prop := {
  ws_chain : ChainName r = chain; ws_source : SourceServicePinId r = id;
  ws_chain_nonempty : chain <> ""; ws_id_nonempty : id <> "";
  ws_texts : Forall text_ok (service_texts r); ws_ints : Forall in_i64 (service_ints r) }.
Record wf_rating (chain id : string) (r : RatingPin) : Prop := {
  wr_chain : rp_ChainName r = chain; wr_id : rp_PinId r = id; wr_nonempty : id <> "";
  wr_texts : Forall text_ok (rating_texts r); wr_ints : Forall in_i64 (rating_ints r) }.
Record wf_aggregate (chain id : string) (a : RatingAggregate) : Prop := {
  wa_chain : ag_ChainName a = chain; wa_source : ag_SourceServicePinId a = id;
  wa_texts : Forall text_ok [ag_ChainName a; ag_SourceServicePinId a];
  wa_ints : Forall in_i64 [ag_Sum a; ag_Count a] }.
Record wf_catalogue cat : Prop := {
  wf_services chain id r : services cat !! (chain, id) = Some r -> wf_service chain id r;
  wf_sources chain id src : sources cat !! (chain, id) = Some src -> src <> "" /\ id <> src;
  wf_ratings chain id r : ratings cat !! (chain, id) = Some r -> wf_rating chain id r;
  wf_aggregates chain id a : aggregates cat !! (chain, id) = Some a -> wf_aggregate chain id a }.

(** *** The store of a catalogue *)

Context {St : Type} {KV : KVOps St} {KVS : KVStore St}.
Record implements cat (s : St) : Prop := {
  im_ok : kv_ok s NamespaceService = true /\ kv_ok s NamespaceRate = true;
  im_services : table json_Marshal keyService (services cat) (kv_view s NamespaceService);
  im_sources : table (fun src => src) keyPinToSource (sources cat) (kv_view s NamespaceService);
  im_ratings : table json_Marshal keyRatingPin (ratings cat) (kv_view s NamespaceRate);
  im_aggregates : table json_Marshal keyRatingAgg (aggregates cat) (kv_view s NamespaceRate);
  im_wf : wf_catalogue cat }.
End Catalogue.
