(* ===== verification/SkillServiceFacts.v ===== *)
(** * SkillServiceFacts: the handlers implement the catalogue

    Reads give the entries of the catalogue; each pin does to the store what
    [apply_pin] does to the catalogue, and leaves every namespace as it was when
    that is nothing. *)

From S2P Require Import Prelude GoText Json Storage Aggregator Effects SkillCatalogue SkillService.
From coqutil.Datatypes Require Import RecordSetters.
Import TriangleBracketNotations.

(** ** Index entries are kept apart from records *)

Definition is_index (k : string) : bool := HasPrefix k "service_by_".
Lemma index_apart k : is_index k = true -> HasPrefix k keyService = false /\ HasPrefix k keyPinToSource = false.
Proof. unfold is_index. intros H. apply HasPrefix_spec in H as [r ->]. done. Qed.
Lemma service_index_kind lookup rec k : k ∈ service_index_keys lookup rec -> is_index k = true.
Proof.
  unfold service_index_keys. rewrite !elem_of_app. intros [H|[H|H]].
  - destruct (is_empty _); [by apply not_elem_of_nil in H|].
    apply elem_of_cons in H as [->|H]; [done|]. by apply list_elem_of_singleton in H as ->.
  - apply list_elem_of_In, in_concat in H as (l & Hl & Hk). apply in_map_iff in Hl as (id & <- & _).
    destruct Hk as [<-|[<-|[]]]; done.
  - destruct (_ <? _); [|by apply not_elem_of_nil in H]. by apply list_elem_of_singleton in H as ->.
Qed.
Lemma stale_index_kind lookup previous rec k : k ∈ stale_keys lookup previous rec -> is_index k = true.
Proof.
  unfold stale_keys. rewrite !elem_of_app. intros [H|[H|H]].
  - destruct (is_empty _); [by apply not_elem_of_nil in H|].
    apply elem_of_cons in H as [->|H]; [done|]. by apply list_elem_of_singleton in H as ->.
  - destruct (_ && _); [|by apply not_elem_of_nil in H]. by apply list_elem_of_singleton in H as ->.
  - apply list_elem_of_In, in_concat in H as (l & Hl & Hk). apply in_map_iff in Hl as (id & <- & _).
    destruct Hk as [<-|[<-|[]]]; done.
Qed.
Lemma insert_index_table {A} (enc : A -> string) kind f m lookup rec :
  (forall k, is_index k = true -> HasPrefix k kind = false) ->
  table enc kind f m -> table enc kind f (insert_empty (service_index_keys lookup rec) m).
Proof.
  intros Hk Ht. apply (table_frame enc kind f m); [done|]. intros k Hp. rewrite insert_empty_lookup.
  rewrite bool_decide_eq_false_2; [done|]. intros H%service_index_kind%Hk. congruence.
Qed.
Lemma delete_stale_table {A} (enc : A -> string) kind f m lookup p rec :
  (forall k, is_index k = true -> HasPrefix k kind = false) ->
  table enc kind f m -> table enc kind f (delete_keys (stale_keys lookup p rec) m).
Proof.
  intros Hk Ht. apply (table_frame enc kind f m); [done|]. intros k Hp. rewrite delete_keys_lookup.
  rewrite bool_decide_eq_false_2; [done|]. intros H%stale_index_kind%Hk. congruence.
Qed.

Section Facts.
Context {St : Type} {KV : KVOps St} {KVS : KVStore St} {SJ : SkillJSON}.
Variable lookup : option ProfileLookup.
Implicit Types (pin : PinInscription) (cat : Catalogue) (s : St).

(** ** Reading *)

Definition same_view s s' : Prop := forall ns, kv_view s' ns = kv_view s ns.
Lemma same_view_refl s : same_view s s.
Proof. by intros ns. Qed.
Lemma same_view_trans s s1 s2 : same_view s s1 -> same_view s1 s2 -> same_view s s2.
Proof. intros H1 H2 ns. by rewrite H2, H1. Qed.
Lemma update_same s ns s' : kv_update s ns (kv_view s ns) s' -> same_view s s'.
Proof.
  intros [Hv Ho _ _] ns'. destruct (decide (ns' = ns)) as [->|Hne]; [done|by apply Ho].
Qed.
Lemma update_ok s ns m s' :
  kv_ok s NamespaceService = true /\ kv_ok s NamespaceRate = true -> kv_update s ns m s' ->
  kv_ok s' NamespaceService = true /\ kv_ok s' NamespaceRate = true.
Proof. intros [H1 H2] Hu. by rewrite !(kvu_ok _ _ _ _ Hu). Qed.
Lemma implements_service cat s svc src m s' :
  implements cat s -> kv_update s NamespaceService m s' ->
  table json_Marshal keyService svc m -> table (fun x => x) keyPinToSource src m ->
  wf_catalogue (mkCatalogue svc src (ratings cat) (aggregates cat)) ->
  implements (mkCatalogue svc src (ratings cat) (aggregates cat)) s'.
Proof.
  intros [Hok H1 H2 H3 H4 Hw] Hu Ht1 Ht2 Hw'. split; cbn; try done.
  - by eapply update_ok.
  - by rewrite (kvu_view _ _ _ _ Hu).
  - by rewrite (kvu_view _ _ _ _ Hu).
  - by rewrite (kvu_other _ _ _ _ Hu).
  - by rewrite (kvu_other _ _ _ _ Hu).
Qed.
Lemma implements_rate cat s rts ags m s' :
  implements cat s -> kv_update s NamespaceRate m s' ->
  table json_Marshal keyRatingPin rts m -> table json_Marshal keyRatingAgg ags m ->
  wf_catalogue (mkCatalogue (services cat) (sources cat) rts ags) ->
  implements (mkCatalogue (services cat) (sources cat) rts ags) s'.
Proof.
  intros [Hok H1 H2 H3 H4 Hw] Hu Ht1 Ht2 Hw'. split; cbn; try done.
  - by eapply update_ok.
  - by rewrite (kvu_other _ _ _ _ Hu).
  - by rewrite (kvu_other _ _ _ _ Hu).
  - by rewrite (kvu_view _ _ _ _ Hu).
  - by rewrite (kvu_view _ _ _ _ Hu).
Qed.
Lemma implements_same cat s s' ns :
  implements cat s -> kv_update s ns (kv_view s ns) s' -> implements cat s'.
Proof.
  intros [Hok H1 H2 H3 H4 Hw] Hu. pose proof (update_same _ _ _ Hu) as Hs.
  split; rewrite ?Hs; try done. by eapply update_ok.
Qed.

(** A computation that only reads [a], and one that takes the catalogue to [cat']. *)
Definition reads (ns : string) cat {A} (c : M St A) s (a : A) : Prop :=
  exists s', c s = (Ok a, s') /\ implements cat s' /\ same_view s s' /\ ns_open ns s'.
Definition takes cat (c : M St unit) s cat' : Prop :=
  exists s', c s = (Ok tt, s') /\ implements cat' s' /\ (cat' = cat -> same_view s s').
Lemma takes_ret cat s : implements cat s -> takes cat (hret tt) s cat.
Proof. intros H. exists s. split; [done|]. split; [done|]. intros _. apply same_view_refl. Qed.
Lemma reads_takes {A} ns cat (c : M St A) s a k cat' :
  reads ns cat c s a ->
  (forall s', implements cat s' -> ns_open ns s' -> takes cat (k a) s' cat') ->
  takes cat (hbind c k) s cat'.
Proof.
  intros (s1 & E & Hi & Hs & Ho) Hk. destruct (Hk s1 Hi Ho) as (s2 & E2 & Hi2 & Hs2).
  exists s2. unfold hbind. rewrite E. split; [done|]. split; [done|]. intros Ec.
  eapply same_view_trans; [exact Hs|by apply Hs2].
Qed.
Lemma reads_seq {A B} ns ns' cat (c : M St A) s a (k : A -> M St B) b :
  reads ns cat c s a -> (forall s', implements cat s' -> reads ns' cat (k a) s' b) ->
  reads ns' cat (hbind c k) s b.
Proof.
  intros (s1 & E & Hi & Hs & _) Hk. destruct (Hk s1 Hi) as (s2 & E2 & Hi2 & Hs2 & Ho).
  exists s2. unfold hbind. rewrite E. split; [done|]. split; [done|]. split; [|done].
  by eapply same_view_trans.
Qed.
Lemma reads_fetch cat ns k s :
  implements cat s -> ns = NamespaceService \/ ns = NamespaceRate ->
  reads ns cat (fetch ns k) s (kv_view s ns !! k).
Proof.
  intros Hi Hns. assert (Hok : kv_ok s ns = true) by (destruct Hns as [-> | ->]; apply Hi).
  destruct (fetch_spec ns k s Hok) as (s' & E & Ho & Hu). exists s'. split; [done|].
  split; [by eapply implements_same|]. split; [by eapply update_same|done].
Qed.

Lemma ws_faithful chain id r : wf_service chain id r -> json_faithful r.
Proof. intros [_ _ _ _ Ht Hi]. by apply Service_faithful. Qed.
Lemma wr_faithful chain id r : wf_rating chain id r -> json_faithful r.
Proof. intros [_ _ _ Ht Hi]. by apply RatingPin_faithful. Qed.
Lemma wa_faithful chain id a : wf_aggregate chain id a -> json_faithful a.
Proof. intros [_ _ Ht Hi]. by apply Aggregate_faithful. Qed.

Lemma loadService_reads cat chain id s :
  implements cat s -> no_char ":" chain = true -> chain <> "" -> id <> "" ->
  reads NamespaceService cat (loadService chain id) s (services cat !! (chain, id)).
Proof.
  intros Hi Hc Hne Hid. unfold loadService. rewrite (nonempty chain), (nonempty id) by done. cbn [orb].
  destruct (reads_fetch cat NamespaceService (serviceKey chain id) s Hi) as (s' & E & Hi' & Hs & Ho); [by left|].
  exists s'. unfold hbind. rewrite E.
  change (serviceKey chain id) with (table_key keyService chain id).
  rewrite (table_lookup _ _ _ _ _ _ (im_services _ _ Hi) Hc).
  destruct (services cat !! (chain, id)) as [r|] eqn:Er; cbn; [|done].
  by rewrite json_roundtrip by (eapply ws_faithful, (wf_services _ (im_wf _ _ Hi)), Er).
Qed.
Lemma loadAny_reads cat chain any s :
  implements cat s -> no_char ":" chain = true -> chain <> "" -> any <> "" ->
  reads NamespaceService cat (loadServiceByAnyPinId chain any) s (by_any chain any cat).
Proof.
  intros Hi Hc Hne Hid. unfold loadServiceByAnyPinId, by_any.
  rewrite (nonempty chain), (nonempty any) by done. cbn [orb].
  eapply reads_seq; [apply reads_fetch; [done|by left]|]. intros s' Hi'.
  change (pinToSourceKey chain any) with (table_key keyPinToSource chain any).
  rewrite (table_lookup _ _ _ _ _ _ (im_sources _ _ Hi) Hc).
  destruct (sources cat !! (chain, any)) as [src|] eqn:E; cbn [fmap option_fmap option_map default];
    apply loadService_reads; try done.
  by apply (wf_sources _ (im_wf _ _ Hi) chain any src).
Qed.
Lemma by_any_wf cat chain any r :
  wf_catalogue cat -> by_any chain any cat = Some r ->
  wf_service chain (SourceServicePinId r) r /\ services cat !! (chain, SourceServicePinId r) = Some r
  /\ SourceServicePinId r = default any (sources cat !! (chain, any)).
Proof.
  intros Hw. unfold by_any. destruct (_ || _); [done|]. intros E.
  pose proof (wf_services cat Hw _ _ _ E) as Hr. by rewrite (ws_source _ _ _ Hr).
Qed.

(** ** The records that pins leave *)

Lemma wf_new_service pin summary id :
  good_pin pin -> pin_ChainName pin <> "" -> id <> "" -> text_ok id -> op_of pin = OperationCreate \/
  op_of pin = OperationModify -> decodeServiceSummary pin = Some summary ->
  wf_service (pin_ChainName pin) id (newServiceRecord pin summary id).
Proof.
  intros [_ Ht Htx] Hc Hid Hti Hop Hd.
  assert (Hsu : Forall text_ok (summary_texts summary)).
  { unfold decodeServiceSummary in Hd. destruct (is_empty _); [done|].
    destruct (unmarshal_summary (pin_ContentBody pin)) as [su|] eqn:E; [|done].
    destruct (_ && _); [done|]. injection Hd as <-. by eapply summary_text_ok. }
  assert (Hto : text_ok (op_of pin)).
  { apply text_ok_ascii. destruct Hop as [-> | ->]; repeat constructor; done. }
  unfold summary_texts in Hsu. split; [done..| |].
  - unfold service_texts, newServiceRecord, op_of in *. forall_all.
  - unfold service_ints, newServiceRecord, statusFromPin, StatusConfirmed.
    assert (in_i64 0) by done. forall_all.
Qed.
(** An update of one field by a value in range. *)
Ltac wf_set H :=
  destruct H as [? ? ? ? ? ?]; lazymatch goal with r : ServiceRecord |- _ => destruct r end; split; try done;
  unfold service_texts, service_ints in *; forall_all.
Lemma wf_revoked_service pin previous chain id :
  good_pin pin -> wf_service chain id previous -> wf_service chain id (revoked_service pin previous).
Proof.
  intros [_ Ht Htx] Hw. cbv beta delta [revoked_service].
  assert (Hr : text_ok OperationRevoke) by (apply text_ok_ascii; repeat constructor; done).
  step_let; [wf_set Hw|]. intros r1 W1. step_let; [wf_set W1|]. intros r2 W2.
  apply (through_if (wf_service _ _)); [done|wf_set W2].
Qed.
Lemma wf_modified_service pin summary previous chain id :
  good_pin pin -> pin_ChainName pin = chain -> wf_service chain id previous -> op_of pin = OperationModify ->
  decodeServiceSummary pin = Some summary -> wf_service chain id (modified_service pin summary previous).
Proof.
  intros Hg <- Hw Hop Hd. cbv beta delta [modified_service].
  pose proof (wf_new_service pin summary id Hg (ws_chain_nonempty _ _ _ Hw) (ws_id_nonempty _ _ _ Hw)) as Hn.
  rewrite (ws_source _ _ _ Hw). pose proof Hw as [W1 W2 W3 W4 W5 W6].
  unfold service_texts, service_ints in W5, W6. apply Forall_all in W5, W6. cbn in W5, W6.
  step_let; [apply Hn; [rewrite <- W2; apply W5|by right|done]|]. clear Hn. intros u1 H1.
  assert (Hr : text_ok OperationRevoke) by (apply text_ok_ascii; repeat constructor; done).
  step_let; [wf_set H1|]. intros u2 H2.
  step_let; [apply (through_if (wf_service _ _)); [done|wf_set H2]|]. intros u3 H3.
  step_let; [apply (through_if (wf_service _ _)); [done|wf_set H3]|]. intros u4 H4.
  step_let; [apply (through_if (wf_service _ _)); [done|wf_set H4]|]. intros u5 H5.
  apply (through_if (wf_service _ _)); [done|wf_set H5].
Qed.
Lemma wf_next pin previous rec chain id :
  good_pin pin -> pin_ChainName pin = chain -> wf_service chain id previous ->
  next_version pin previous = Some rec -> wf_service chain id rec.
Proof.
  intros Hg Hc Hw. unfold next_version. destruct (String.eqb_spec (op_of pin) OperationModify) as [Hm|_].
  - destruct (decodeServiceSummary pin) as [su|] eqn:E; [|done]. intros [= <-]. by apply wf_modified_service.
  - destruct (String.eqb _ _); [|done]. intros [= <-]. by apply wf_revoked_service.
Qed.

(** ** Writing *)

Definition after_save (rec : ServiceRecord) (previous : option ServiceRecord) (m : gmap string string)
    : gmap string string :=
  insert_empty (service_index_keys lookup rec)
    (<[serviceKey (ChainName rec) (SourceServicePinId rec) := json_Marshal rec]>
       (match previous with Some p => delete_keys (stale_keys lookup p rec) m | None => m end)).
Lemma save_effect rec previous s :
  ns_open NamespaceService s -> ChainName rec <> "" -> SourceServicePinId rec <> "" ->
  ns_effect NamespaceService (saveService lookup rec previous) s
    (after_save rec previous (kv_view s NamespaceService)).
Proof.
  intros Ho Hc Hs. unfold saveService. rewrite (nonempty _ Hc), (nonempty _ Hs). cbn [orb].
  eapply effect_seq with (m := match previous with
    | Some p => delete_keys (stale_keys lookup p rec) (kv_view s NamespaceService)
    | None => kv_view s NamespaceService end); [done| |].
  { destruct previous; [by apply effect_del_all|apply effect_ret]. }
  intros s1 Ho1 E1. eapply effect_seq; [done|by apply effect_put|]. intros s2 Ho2 E2.
  eapply effect_eq; [by apply effect_put_empty|]. unfold after_save. by rewrite E2, E1.
Qed.
Lemma after_save_services svc m rec previous :
  table json_Marshal keyService svc m -> no_char ":" (ChainName rec) = true ->
  table json_Marshal keyService (<[(ChainName rec, SourceServicePinId rec) := rec]> svc) (after_save rec previous m).
Proof.
  intros Ht Hc. apply insert_index_table; [apply index_apart|]. apply table_insert; [|done].
  destruct previous; [|done]. apply delete_stale_table; [apply index_apart|done].
Qed.
Lemma after_save_sources src m rec previous :
  table (fun x => x) keyPinToSource src m -> table (fun x => x) keyPinToSource src (after_save rec previous m).
Proof.
  intros Ht. apply insert_index_table; [apply index_apart|]. apply table_insert_other; [|done].
  destruct previous; [|done]. apply delete_stale_table; [apply index_apart|done].
Qed.
Lemma save_takes cat rec previous chain id s :
  implements cat s -> ns_open NamespaceService s -> wf_service chain id rec -> no_char ":" chain = true ->
  exists s', saveService lookup rec previous s = (Ok tt, s') /\ ns_open NamespaceService s'
    /\ implements (mkCatalogue (<[(chain, id) := rec]> (services cat)) (sources cat) (ratings cat) (aggregates cat)) s'.
Proof.
  intros Hi Ho Hw Hc. pose proof Hw as [Ec Ei Hne Hid _ _].
  assert (He : ns_effect NamespaceService (saveService lookup rec previous) s
     (after_save rec previous (kv_view s NamespaceService))) by (apply save_effect; congruence).
  destruct (effect_open _ _ _ Ho He) as [Ho' _]. destruct He as (s' & E & Hu). rewrite E in Ho'.
  exists s'. split; [done|]. split; [done|]. eapply implements_service; [done|exact Hu| | |].
  - rewrite <- Ec, <- Ei. apply after_save_services; [apply Hi|congruence].
  - by apply after_save_sources, Hi.
  - pose proof (im_wf _ _ Hi) as [W1 W2 W3 W4]. split; cbn; try done.
    intros c i r Hr. rewrite lookup_insert in Hr. case_decide as E'; [|by apply W1].
    injection E' as <- <-. by injection Hr as <-.
Qed.
Lemma source_takes cat chain any src s :
  implements cat s -> ns_open NamespaceService s -> no_char ":" chain = true -> chain <> "" -> any <> "" ->
  src <> "" ->
  exists s', mapPinToSource chain any src s = (Ok tt, s')
    /\ implements (mkCatalogue (services cat) (if String.eqb any src then sources cat
         else <[(chain, any) := src]> (sources cat)) (ratings cat) (aggregates cat)) s'.
Proof.
  intros Hi Ho Hc Hne Ha Hs. unfold mapPinToSource.
  rewrite (nonempty chain), (nonempty any), (nonempty src) by done. cbn [orb].
  destruct (String.eqb_spec any src) as [->|Hd]; [exists s; split; [done|]; by destruct cat|].
  destruct (effect_put (pinToSourceKey chain any) src s Ho) as (s' & E & Hu).
  exists s'. split; [done|]. eapply implements_service; [done|exact Hu| | |].
  - apply table_insert_other; [apply Hi|done].
  - by apply table_insert; [apply Hi|].
  - pose proof (im_wf _ _ Hi) as [W1 W2 W3 W4]. split; cbn; try done.
    intros c i x Hx. rewrite lookup_insert in Hx. case_decide as E'; [|by eapply W2].
    injection E' as <- <-. by injection Hx as <-.
Qed.

(** ** Pins on services *)

Lemma create_takes cat pin s :
  implements cat s -> good_pin pin -> pin_ChainName pin <> "" -> pin_Id pin <> "" -> op_of pin = OperationCreate ->
  takes cat (processServiceCreate lookup pin) s (publish pin cat).
Proof.
  intros Hi Hg Hc Hid Hop. unfold processServiceCreate, publish.
  destruct (decodeServiceSummary pin) as [su|] eqn:Ed; [|by apply takes_ret].
  eapply reads_takes; [by apply loadService_reads; try done; apply (gp_chain pin Hg)|].
  intros s' Hi' Ho. destruct (services cat !! _) as [r|] eqn:Er; [by apply takes_ret|].
  assert (Hti : text_ok (pin_Id pin)).
  { pose proof (gp_texts pin Hg) as Ht. by apply Forall_all in Ht as [Ht _]. }
  pose proof (wf_new_service pin su (pin_Id pin) Hg Hc Hid Hti (or_introl Hop) Ed) as Hw.
  destruct (save_takes cat _ None _ _ s' Hi' Ho Hw (gp_chain pin Hg)) as (s2 & E & _ & Hi2).
  exists s2. split; [done|]. split; [done|]. intros Ec. exfalso.
  apply (f_equal (fun c => services c !! (pin_ChainName pin, pin_Id pin))) in Ec. cbn in Ec.
  rewrite lookup_insert_eq, Er in Ec. done.
Qed.
Lemma resolved_target pin t : resolveTargetPinId pin = Some t -> t <> "" /\ t <> pin_Id pin.
Proof.
  unfold resolveTargetPinId. cbv zeta. destruct (_ && _) eqn:E1.
  - intros [= <-]. apply andb_true_iff in E1 as [H1 H2]. apply negb_true_iff in H1, H2.
    apply String.eqb_neq in H2. split; [by intros E; rewrite E in H1|done].
  - destruct (negb (is_empty (TrimPrefix _ _)) && _) eqn:E2; [|done].
    intros [= <-]. apply andb_true_iff in E2 as [H1 H2]. apply negb_true_iff in H1, H2.
    apply String.eqb_neq in H2. split; [by intros E; rewrite E in H1|done].
Qed.
(** A fact on the record of a version that no conditional update touches. *)
Lemma version_ind (P : ServiceRecord -> Prop) pin previous rec :
  next_version pin previous = Some rec ->
  (forall su, op_of pin = OperationModify -> P (newServiceRecord pin su (SourceServicePinId previous))) ->
  (op_of pin = OperationRevoke -> P (revoked_service pin previous)) ->
  (forall r v, P r -> P (r <| CreatedAt := v |>)) ->
  (forall r v, P r -> P (r <| ProviderMetaId := v |>)) ->
  (forall r v, P r -> P (r <| ProviderGlobalMetaId := v |>)) ->
  (forall r v, P r -> P (r <| ProviderAddress := v |>)) ->
  (forall r, P r -> P (r <| Operation := OperationRevoke |>)) -> P rec.
Proof.
  unfold next_version. intros E Hn Hr H1 H2 H3 H4 H5.
  destruct (String.eqb_spec (op_of pin) OperationModify) as [Em|_].
  - destruct (decodeServiceSummary pin) as [su|]; [|done]. injection E as <-.
    cbv beta delta [modified_service]. step_let; [by apply Hn|]. intros u1 U1. step_let; [by apply H1|].
    intros u2 U2. step_let; [by apply (through_if P); auto|]. intros u3 U3.
    step_let; [by apply (through_if P); auto|]. intros u4 U4.
    step_let; [by apply (through_if P); auto|]. intros u5 U5. by apply (through_if P); auto.
  - destruct (String.eqb_spec (op_of pin) OperationRevoke) as [Er|_]; [|done]. injection E as <-. by apply Hr.
Qed.
Lemma next_current pin previous rec : next_version pin previous = Some rec -> CurrentPinId rec = pin_Id pin.
Proof.
  intros E. apply (version_ind (fun r => CurrentPinId r = pin_Id pin) _ _ _ E); try done.
  intros _. unfold revoked_service. by destruct (_ <? _).
Qed.
Lemma advance_takes cat pin s (step : ServiceRecord -> M St unit) :
  implements cat s -> good_pin pin -> pin_ChainName pin <> "" -> pin_Id pin <> "" ->
  (forall previous, step previous = match next_version pin previous with
     | None => hret tt
     | Some rec => hbind (saveService lookup rec (Some previous))
                     (fun _ => mapPinToSource (pin_ChainName pin) (pin_Id pin) (SourceServicePinId previous))
     end) ->
  takes cat (with_current pin step) s (advance pin cat).
Proof.
  intros Hi Hg Hc Hid Hstep. unfold with_current, advance.
  destruct (resolveTargetPinId pin) as [t|] eqn:Et; [|by apply takes_ret].
  destruct (resolved_target pin t Et) as [Hte Htn].
  eapply reads_takes; [by apply loadAny_reads; try done; apply (gp_chain pin Hg)|].
  intros s' Hi' Ho. destruct (by_any _ t cat) as [previous|] eqn:Ep; [|by apply takes_ret].
  destruct (by_any_wf _ _ _ _ (im_wf _ _ Hi) Ep) as (Hw & Hs & _).
  unfold isCurrentVersionTarget. destruct (String.eqb_spec t (CurrentPinId previous)) as [Ecur|]; cbn [negb];
    [|by apply takes_ret].
  rewrite Hstep. destruct (next_version pin previous) as [rec|] eqn:En; [|by apply takes_ret].
  pose proof (wf_next pin previous rec _ _ Hg eq_refl Hw En) as Hwr.
  destruct (save_takes cat rec (Some previous) _ _ s' Hi' Ho Hwr (gp_chain pin Hg)) as (s2 & E & Ho2 & Hi2).
  destruct (source_takes _ (pin_ChainName pin) (pin_Id pin) (SourceServicePinId previous) s2 Hi2 Ho2
    (gp_chain pin Hg) Hc Hid (ws_id_nonempty _ _ _ Hw)) as (s3 & E3 & Hi3).
  exists s3. unfold hbind. rewrite E. split; [done|]. split; [done|]. intros Ec. exfalso.
  apply (f_equal (fun c => services c !! (pin_ChainName pin, SourceServicePinId previous))) in Ec. cbn in Ec.
  rewrite lookup_insert_eq, Hs in Ec. injection Ec as ->. apply Htn. rewrite Ecur.
  by eapply next_current.
Qed.
Lemma service_takes cat pin s :
  implements cat s -> good_pin pin -> takes cat (processServicePin lookup pin) s (update_service pin cat).
Proof.
  intros Hi Hg. unfold processServicePin, update_service. cbv zeta. fold (op_of pin).
  destruct (decide (pin_ChainName pin = "")) as [->|Hc]; [by apply takes_ret|].
  destruct (decide (pin_Id pin = "")) as [->|Hid]; [rewrite orb_true_r; by apply takes_ret|].
  rewrite (nonempty _ Hc), (nonempty _ Hid). cbn [orb].
  destruct (String.eqb_spec (op_of pin) OperationCreate) as [Eop|Nc]; [by apply create_takes|].
  assert (Hstep : forall step, (forall previous, step previous = match next_version pin previous with
     | None => hret tt
     | Some rec => hbind (saveService lookup rec (Some previous))
                     (fun _ => mapPinToSource (pin_ChainName pin) (pin_Id pin) (SourceServicePinId previous))
     end) -> takes cat (with_current pin step) s (advance pin cat)) by (intros; by apply advance_takes).
  destruct (String.eqb_spec (op_of pin) OperationModify) as [Em|Nm].
  { apply Hstep. intros previous. unfold next_version. rewrite Em. cbn. by destruct (decodeServiceSummary pin). }
  destruct (String.eqb_spec (op_of pin) OperationRevoke) as [Er|Nr].
  { apply Hstep. intros previous. unfold next_version. by rewrite Er. }
  assert (En : forall previous, next_version pin previous = None).
  { intros previous. unfold next_version. by rewrite (proj2 (String.eqb_neq _ _) Nm), (proj2 (String.eqb_neq _ _) Nr). }
  unfold advance. destruct (resolveTargetPinId pin); [|by apply takes_ret].
  destruct (by_any _ _ _); [|by apply takes_ret]. rewrite En. destruct (negb _); by apply takes_ret.
Qed.

(** ** Ratings *)

Lemma decoded_rating pin su :
  decodeRatingSummary pin = Some su ->
  1 <= ra_Rate su <= 5 /\ ra_ServiceID su <> "" /\ Forall text_ok [ra_ServiceID su; ra_ServicePaidTx su; ra_Comment su].
Proof.
  unfold decodeRatingSummary. destruct (is_empty _); [done|].
  destruct (unmarshal_rating (pin_ContentBody pin)) as [x|] eqn:E; [|done].
  destruct (_ || _) eqn:Er; [done|]. destruct (is_empty (TrimSpace _)) eqn:Es; [done|]. intros [= <-].
  apply orb_false_iff in Er as [H1 H2]. apply Z.ltb_ge in H1, H2. split; [lia|].
  split; [|by eapply rating_text_ok]. intros E'. by rewrite E' in Es.
Qed.
Lemma rating_reads cat chain id s :
  implements cat s -> no_char ":" chain = true -> chain <> "" -> id <> "" ->
  reads NamespaceRate cat (loadRatingPin chain id) s (ratings cat !! (chain, id)).
Proof.
  intros Hi Hc Hne Hid. unfold loadRatingPin. rewrite (nonempty chain), (nonempty id) by done. cbn [orb].
  destruct (reads_fetch cat NamespaceRate (ratingPinKey chain id) s Hi) as (s' & E & Hi' & Hs & Ho); [by right|].
  exists s'. unfold hbind. rewrite E.
  change (ratingPinKey chain id) with (table_key keyRatingPin chain id).
  rewrite (table_lookup _ _ _ _ _ _ (im_ratings _ _ Hi) Hc).
  destruct (ratings cat !! (chain, id)) as [r|] eqn:Er; cbn; [|done].
  by rewrite json_roundtrip by (eapply wr_faithful, (wf_ratings _ (im_wf _ _ Hi)), Er).
Qed.

Lemma known_reads cat chain id s :
  implements cat s -> no_char ":" chain = true -> chain <> "" -> id <> "" ->
  reads NamespaceRate cat (known_rating chain id) s (bool_decide (is_Some (ratings cat !! (chain, id)))).
Proof.
  intros Hi Hc Hne Hid. destruct (rating_reads cat chain id s Hi Hc Hne Hid) as (s' & E & H).
  exists s'. split; [|done]. unfold known_rating. rewrite E. by destruct (ratings cat !! (chain, id)).
Qed.
Lemma aggregate_reads cat chain id s :
  implements cat s -> no_char ":" chain = true -> chain <> "" -> id <> "" ->
  reads NamespaceRate cat (LoadRatingAggregate chain id) s (aggregates cat !! (chain, id)).
Proof.
  intros Hi Hc Hne Hid. unfold LoadRatingAggregate. rewrite (nonempty chain), (nonempty id) by done. cbn [orb].
  destruct (reads_fetch cat NamespaceRate (ratingAggKey chain id) s Hi) as (s' & E & Hi' & Hs & Ho); [by right|].
  exists s'. unfold hbind. rewrite E.
  change (ratingAggKey chain id) with (table_key keyRatingAgg chain id).
  rewrite (table_lookup _ _ _ _ _ _ (im_aggregates _ _ Hi) Hc).
  destruct (aggregates cat !! (chain, id)) as [r|] eqn:Er; cbn; [|done].
  by rewrite json_roundtrip by (eapply wa_faithful, (wf_aggregates _ (im_wf _ _ Hi)), Er).
Qed.
Lemma wf_new_rating pin su src :
  good_pin pin -> decodeRatingSummary pin = Some su -> text_ok src -> pin_Id pin <> "" ->
  wf_rating (pin_ChainName pin) (pin_Id pin) (newRatingPin pin su src).
Proof.
  intros [_ Ht Htx] Hd Hs Hid. apply decoded_rating in Hd as (Hr & _ & Htd). split; [done..| |].
  - unfold rating_texts, newRatingPin. forall_all.
  - unfold rating_ints, newRatingPin. assert (in_i64 (ra_Rate su)) by (unfold in_i64; lia). forall_all.
Qed.
Lemma wf_bumped chain src agg r :
  wf_aggregate chain src agg -> wf_aggregate chain src (bumped agg r).
Proof.
  intros [H1 H2 H3 H4]. destruct agg. split; try done. cbn.
  apply Forall_all. split; [apply wrap64_range|]. split; [apply wrap64_range|done].
Qed.
Lemma rating_put cat pin su src s :
  implements cat s -> good_pin pin -> decodeRatingSummary pin = Some su ->
  text_ok src -> pin_ChainName pin <> "" -> pin_Id pin <> "" ->
  exists s', saveRatingPin (newRatingPin pin su src) s = (Ok tt, s')
    /\ implements (mkCatalogue (services cat) (sources cat)
         (<[(pin_ChainName pin, pin_Id pin) := newRatingPin pin su src]> (ratings cat)) (aggregates cat)) s'.
Proof.
  intros Hi Hg Hd Hs Hc Hid. unfold saveRatingPin.
  change (rp_ChainName (newRatingPin pin su src)) with (pin_ChainName pin).
  change (rp_PinId (newRatingPin pin su src)) with (pin_Id pin).
  rewrite (nonempty _ Hc), (nonempty _ Hid). cbn [orb].
  destruct (kv_Set_ok s NamespaceRate (ratingPinKey (pin_ChainName pin) (pin_Id pin))
    (json_Marshal (newRatingPin pin su src)) (proj2 (im_ok _ _ Hi))) as (s' & E & Hu & _).
  exists s'. split; [unfold kv_put; by rewrite E|]. eapply implements_rate; [done|exact Hu| | |].
  - by apply table_insert; [apply Hi|apply (gp_chain pin Hg)].
  - by apply table_insert_other; [apply Hi|].
  - pose proof (im_wf _ _ Hi) as [W1 W2 W3 W4]. split; cbn; try done.
    intros c i r Hr. rewrite lookup_insert in Hr. case_decide as E'; [|by apply W3].
    injection E' as <- <-. injection Hr as <-. by apply wf_new_rating.
Qed.
Lemma bump_takes cat chain src rate s :
  implements cat s -> no_char ":" chain = true -> chain <> "" -> src <> "" -> text_ok chain -> text_ok src ->
  exists s', bumpRatingAggregate chain src rate s = (Ok tt, s')
    /\ implements (mkCatalogue (services cat) (sources cat) (ratings cat)
         (<[(chain, src) := bumped (default (mkAggregate chain src 0 0) (aggregates cat !! (chain, src))) rate]>
            (aggregates cat))) s'.
Proof.
  intros Hi Hc Hne Hs Htc Hts. unfold bumpRatingAggregate, hbind.
  destruct (aggregate_reads cat chain src s Hi Hc Hne Hs) as (s1 & -> & Hi1 & _ & Ho1).
  set (agg := default _ _).
  destruct (effect_put (ratingAggKey chain src) (json_Marshal (bumped agg rate)) s1 Ho1) as (s' & E & Hu).
  exists s'. split; [done|]. eapply implements_rate; [done|exact Hu| | |].
  - by apply table_insert_other; [apply Hi1|].
  - by apply table_insert; [apply Hi1|].
  - pose proof (im_wf _ _ Hi) as [W1 W2 W3 W4]. split; cbn; try done.
    intros c i r Hr. rewrite lookup_insert in Hr. case_decide as E'; [|by apply W4].
    injection E' as <- <-. injection Hr as <-. apply wf_bumped. subst agg.
    destruct (aggregates cat !! (chain, src)) as [a|] eqn:Ea; cbn; [by apply W4|].
    split; cbn; try done; apply Forall_all; repeat split; done.
Qed.
Lemma rating_takes cat pin s :
  implements cat s -> good_pin pin -> pin_Id pin <> "" -> pin_ChainName pin <> "" ->
  takes cat (processRatingPin pin) s (rate pin cat).
Proof.
  intros Hi Hg Hid Hc. pose proof (gp_chain pin Hg) as Hcc.
  pose proof (gp_texts pin Hg) as Htx. apply Forall_all in Htx as (_ & Htc & _).
  unfold processRatingPin, rate. rewrite (nonempty _ Hid), (nonempty _ Hc). cbn [orb].
  destruct (decodeRatingSummary pin) as [su|] eqn:Ed; [|by apply takes_ret].
  eapply reads_takes; [by apply known_reads|]. intros s1 Hi1 Ho1. cbv zeta.
  destruct (ratings cat !! (pin_ChainName pin, pin_Id pin)) as [old|] eqn:Eold; [by apply takes_ret|].
  destruct (decoded_rating pin su Ed) as (_ & Hsid & _).
  eapply reads_takes; [by apply loadAny_reads|]. intros s2 Hi2 Ho2.
  assert (Hsrc : match by_any (pin_ChainName pin) (ra_ServiceID su) cat with
     | None => ""
     | Some rec => if negb (is_empty (ChainName rec)) && negb (String.eqb (ChainName rec) (pin_ChainName pin))
                   then "" else SourceServicePinId rec end
     = match by_any (pin_ChainName pin) (ra_ServiceID su) cat with
       | Some rec => SourceServicePinId rec | None => "" end
     /\ text_ok (match by_any (pin_ChainName pin) (ra_ServiceID su) cat with
       | Some rec => SourceServicePinId rec | None => "" end)).
  { destruct (by_any _ _ cat) as [rec|] eqn:Eb; [|split; [done|apply text_ok_ascii; constructor]].
    destruct (by_any_wf _ _ _ _ (im_wf _ _ Hi) Eb) as (Hw & _). split.
    - rewrite (ws_chain _ _ _ Hw), String.eqb_refl. by rewrite andb_false_r.
    - pose proof (ws_texts _ _ _ Hw) as Ht. by apply Forall_all in Ht as [Ht _]. }
  destruct Hsrc as [-> Hts]. set (src := match by_any _ _ _ with Some _ => _ | None => _ end) in *.
  assert (Hnew : forall sv sr ag, mkCatalogue sv sr
     (<[(pin_ChainName pin, pin_Id pin) := newRatingPin pin su src]> (ratings cat)) ag <> cat).
  { intros sv sr ag E. apply (f_equal (fun c => ratings c !! (pin_ChainName pin, pin_Id pin))) in E. cbn in E.
    rewrite lookup_insert_eq, Eold in E. done. }
  destruct (rating_put cat pin su src s2 Hi2 Hg Ed Hts Hc Hid) as (s3 & E3 & Hi3).
  unfold takes, hbind. rewrite E3. destruct (decide (src = "")) as [->|Hne].
  - exists s3. split; [done|]. split; [done|]. intros E. by apply Hnew in E.
  - rewrite (nonempty _ Hne).
    destruct (bump_takes _ (pin_ChainName pin) src (ra_Rate su) s3 Hi3 Hcc Hc Hne Htc Hts) as (s4 & E4 & Hi4).
    exists s4. split; [done|]. split; [done|]. intros E. by apply Hnew in E.
Qed.

(** ** Every pin *)

Lemma processPin_takes cat pin s :
  implements cat s -> good_pin pin -> takes cat (processPin lookup pin) s (apply_pin pin cat).
Proof.
  intros Hi Hg. unfold processPin, apply_pin. cbv zeta.
  destruct (is_empty (pin_Path pin)); [by apply takes_ret|].
  destruct (String.eqb _ PathSkillService); [by apply service_takes|].
  destruct (String.eqb _ PathSkillServiceRate).
  { destruct (decide (pin_Id pin = "")) as [E|Hid].
    - unfold processRatingPin. rewrite E. by apply takes_ret.
    - destruct (decide (pin_ChainName pin = "")) as [E|Hc].
      + unfold processRatingPin. rewrite E, orb_true_r. by apply takes_ret.
      + rewrite (nonempty _ Hid), (nonempty _ Hc). by apply rating_takes. }
  destruct (isVersionOperation _); [|by apply takes_ret].
  unfold processTargetedServicePin. cbv zeta.
  set (t := pinTargetFromPath (pin_Path pin)).
  destruct (decide (t = "")) as [->|Ht].
  { unfold by_any. rewrite orb_true_r. by apply takes_ret. }
  destruct (decide (pin_ChainName pin = "")) as [->|Hc].
  { unfold by_any. rewrite orb_true_r. by apply takes_ret. }
  rewrite (nonempty _ Ht), (nonempty _ Hc). cbn [orb].
  eapply reads_takes; [by apply loadAny_reads; try done; apply (gp_chain pin Hg)|].
  intros s' Hi' _. destruct (by_any _ t cat); [by apply service_takes|by apply takes_ret].
Qed.
End Facts.

(** ** Deliveries *)

Section Runs.
Context {St : Type} {KV : KVOps St} {KVS : KVStore St} {SJ : SkillJSON}.

(** A pin from a block or the mempool, with the user info answers of the time. *)
Record delivery := mkDelivery { d_mempool : bool; d_lookup : option ProfileLookup; d_pin : PinInscription }.
Definition handle (d : delivery) : M St (option NotifyEvent) :=
  if d_mempool d then HandleMempoolPin (d_lookup d) (d_pin d) else HandleBlockPin (d_lookup d) (d_pin d).
Definition deliver (ds : list delivery) (s : St) : St := foldl (fun s d => (handle d s).2) s ds.
Definition catalogue_of (ds : list delivery) : Catalogue :=
  foldl (fun cat d => apply_pin (d_pin d) cat) no_catalogue ds.
(** A store that opens and holds no service and no rating. *)
Record fresh (s : St) : Prop := {
  fr_ok : kv_ok s NamespaceService = true /\ kv_ok s NamespaceRate = true;
  fr_service : kv_view s NamespaceService = ∅;
  fr_rate : kv_view s NamespaceRate = ∅ }.

Lemma deliver_app ds ds' s : deliver (ds ++ ds') s = deliver ds' (deliver ds s).
Proof. apply foldl_app. Qed.
Lemma deliver_snoc ds d s : deliver (ds ++ [d]) s = (handle d (deliver ds s)).2.
Proof. unfold deliver. by rewrite foldl_snoc. Qed.
Lemma catalogue_snoc ds d : catalogue_of (ds ++ [d]) = apply_pin (d_pin d) (catalogue_of ds).
Proof. unfold catalogue_of. by rewrite foldl_snoc. Qed.
Lemma fresh_implements s : fresh s -> implements no_catalogue s.
Proof.
  intros [Hok Hs Hr]. split; rewrite ?Hs, ?Hr; try apply table_empty; [done|].
  split; cbn; intros c i r H; by rewrite lookup_empty in H.
Qed.
Lemma handle_takes d cat s :
  implements cat s -> good_pin (d_pin d) ->
  exists s', handle d s = (Ok None, s') /\ implements (apply_pin (d_pin d) cat) s'
    /\ (apply_pin (d_pin d) cat = cat -> same_view s s').
Proof.
  intros Hi Hg. destruct (processPin_takes (d_lookup d) cat (d_pin d) s Hi Hg) as (s' & E & H).
  exists s'. split; [|done]. unfold handle. destruct (d_mempool d); unfold HandleMempoolPin, HandleBlockPin, hbind; by rewrite E.
Qed.
Lemma deliver_implements ds s :
  fresh s -> Forall (fun d => good_pin (d_pin d)) ds -> implements (catalogue_of ds) (deliver ds s).
Proof.
  intros Hf. induction ds as [|d ds IH] using rev_ind; intros Hg; [by apply fresh_implements|].
  apply Forall_app in Hg as [Hg Hd]. rewrite deliver_app, catalogue_snoc. cbn.
  destruct (handle_takes d _ _ (IH Hg) (Forall_inv Hd)) as (s' & -> & H & _). exact H.
Qed.
End Runs.
