(* ===== verification/SkillServiceHistory.v ===== *)
(** * SkillServiceHistory: what any sequence of pins leaves

    A pin acts at most once; ratings and their sums agree; a revoked service
    stays hidden.  The arguments run over the steps of the catalogue. *)

From stdpp Require Import relations.
From S2P Require Import Prelude GoText Json Storage Aggregator Effects SkillCatalogue SkillService SkillServiceFacts.
From coqutil.Datatypes Require Import RecordSetters.
Import TriangleBracketNotations.

Section History.
Context {SJ : SkillJSON}.
Implicit Types (pin : PinInscription) (cat : Catalogue).

(** ** Steps of the catalogue *)

Definition is_rating pin : Prop := protocolPathFromPinPath (pin_Path pin) = PathSkillServiceRate.
Definition source_of (chain id : string) cat : string :=
  match by_any chain id cat with Some rec => SourceServicePinId rec | None => "" end.
Inductive step pin cat : Catalogue -> Prop :=
| step_none : step pin cat cat
| step_create su :
    ~ is_rating pin -> op_of pin = OperationCreate -> decodeServiceSummary pin = Some su ->
    services cat !! (pin_ChainName pin, pin_Id pin) = None ->
    step pin cat
      (mkCatalogue (<[(pin_ChainName pin, pin_Id pin) := newServiceRecord pin su (pin_Id pin)]> (services cat))
         (sources cat) (ratings cat) (aggregates cat))
| step_version target previous rec :
    ~ is_rating pin -> op_of pin <> OperationCreate -> resolveTargetPinId pin = Some target ->
    by_any (pin_ChainName pin) target cat = Some previous -> CurrentPinId previous = target ->
    next_version pin previous = Some rec ->
    step pin cat
      (mkCatalogue (<[(pin_ChainName pin, SourceServicePinId previous) := rec]> (services cat))
         (if String.eqb (pin_Id pin) (SourceServicePinId previous) then sources cat
          else <[(pin_ChainName pin, pin_Id pin) := SourceServicePinId previous]> (sources cat))
         (ratings cat) (aggregates cat))
| step_rate su src :
    is_rating pin -> decodeRatingSummary pin = Some su -> pin_ChainName pin <> "" -> pin_Id pin <> "" ->
    ratings cat !! (pin_ChainName pin, pin_Id pin) = None ->
    src = source_of (pin_ChainName pin) (ra_ServiceID su) cat ->
    step pin cat
      (mkCatalogue (services cat) (sources cat)
         (<[(pin_ChainName pin, pin_Id pin) := newRatingPin pin su src]> (ratings cat))
         (if is_empty src then aggregates cat
          else <[(pin_ChainName pin, src) :=
                  bumped (default (mkAggregate (pin_ChainName pin) src 0 0)
                            (aggregates cat !! (pin_ChainName pin, src))) (ra_Rate su)]> (aggregates cat))).

Lemma update_step pin cat : ~ is_rating pin -> step pin cat (update_service pin cat).
Proof.
  intros Hn. unfold update_service. destruct (_ || _); [constructor|].
  destruct (String.eqb_spec (op_of pin) OperationCreate) as [Eop|Nop].
  - unfold publish. destruct (decodeServiceSummary pin) as [su|] eqn:Ed; [|constructor]. cbv zeta.
    destruct (services cat !! _) eqn:Es; [constructor|by apply step_create].
  - unfold advance. destruct (resolveTargetPinId pin) as [t|] eqn:Et; [|constructor].
    destruct (by_any _ t cat) as [previous|] eqn:Ep; [|constructor].
    unfold isCurrentVersionTarget. destruct (String.eqb_spec t (CurrentPinId previous)); [|constructor]. cbn [negb].
    destruct (next_version pin previous) as [rec|] eqn:En; [|constructor]. cbv zeta. by eapply step_version.
Qed.
Lemma apply_step pin cat : step pin cat (apply_pin pin cat).
Proof.
  unfold apply_pin. destruct (is_empty (pin_Path pin)); [constructor|]. cbv zeta.
  destruct (String.eqb_spec (protocolPathFromPinPath (pin_Path pin)) PathSkillService) as [E|_].
  { apply update_step. unfold is_rating. by rewrite E. }
  destruct (String.eqb_spec (protocolPathFromPinPath (pin_Path pin)) PathSkillServiceRate) as [E|Hn].
  - destruct (decide (pin_Id pin = "")) as [->|Hid]; [constructor|].
    destruct (decide (pin_ChainName pin = "")) as [->|Hc]; [rewrite orb_true_r; constructor|].
    rewrite (nonempty _ Hid), (nonempty _ Hc). cbn [orb]. unfold rate.
    destruct (decodeRatingSummary pin) as [su|] eqn:Ed; [|constructor]. cbv zeta.
    destruct (ratings cat !! _) eqn:Er; [constructor|].
    pose proof (step_rate pin cat su _ E Ed Hc Hid Er eq_refl) as H. unfold source_of in *.
    by destruct (is_empty _).
  - destruct (isVersionOperation _); [|constructor].
    destruct (by_any _ _ cat); [by apply update_step|constructor].
Qed.
(** A change of the catalogue is one of the three proper steps. *)
Lemma step_ind_on (P : Catalogue -> Catalogue -> Prop) pin cat :
  (forall cat', step pin cat cat' -> P cat cat') -> P cat (apply_pin pin cat).
Proof. intros H. apply H, apply_step. Qed.

Definition runs (pins : list PinInscription) : Catalogue := foldl (fun cat pin => apply_pin pin cat) no_catalogue pins.
Lemma runs_app pins pins' : runs (pins ++ pins') = foldl (fun cat pin => apply_pin pin cat) (runs pins) pins'.
Proof. apply foldl_app. Qed.
(** Facts that every step preserves. *)
Lemma runs_keep (P : Catalogue -> Prop) pins cat :
  (forall pin cat cat', pin ∈ pins -> step pin cat cat' -> P cat -> P cat') -> P cat ->
  P (foldl (fun cat pin => apply_pin pin cat) cat pins).
Proof.
  revert cat. induction pins as [|pin pins IH]; intros cat Hs H; [done|]. cbn. apply IH.
  - intros p c c' Hp. apply Hs. by right.
  - apply (Hs pin cat); [by left|apply apply_step|done].
Qed.

(** Records, versions and ratings are never removed. *)
Lemma step_keeps pin cat cat' k :
  step pin cat cat' ->
  (is_Some (services cat !! k) -> is_Some (services cat' !! k))
  /\ (is_Some (sources cat !! k) -> is_Some (sources cat' !! k))
  /\ (is_Some (ratings cat !! k) -> is_Some (ratings cat' !! k)).
Proof.
  assert (Hi : forall A (m : gmap (string * string) A) k' a, is_Some (m !! k) -> is_Some (<[k' := a]> m !! k)).
  { intros A m k' a H. rewrite lookup_insert. by case_decide. }
  intros []; cbn; repeat split; auto. destruct (String.eqb _ _); auto.
Qed.
Lemma runs_keeps pins cat k :
  let cat' := foldl (fun cat pin => apply_pin pin cat) cat pins in
  (is_Some (services cat !! k) -> is_Some (services cat' !! k))
  /\ (is_Some (sources cat !! k) -> is_Some (sources cat' !! k))
  /\ (is_Some (ratings cat !! k) -> is_Some (ratings cat' !! k)).
Proof.
  cbv zeta. revert cat. induction pins as [|pin pins IH]; intros cat; [done|]. cbn.
  destruct (IH (apply_pin pin cat)) as (H1 & H2 & H3).
  destruct (step_keeps pin cat _ k (apply_step pin cat)) as (K1 & K2 & K3). auto.
Qed.

(** ** Versions form a line *)

(** What a pin says, apart from the block that carries it. *)
Record same_inscription (p q : PinInscription) : Prop := {
  si_chain : pin_ChainName p = pin_ChainName q; si_id : pin_Id p = pin_Id q;
  si_path : pin_Path p = pin_Path q; si_operation : pin_Operation p = pin_Operation q;
  si_original : pin_OriginalId p = pin_OriginalId q; si_content : pin_ContentBody p = pin_ContentBody q }.
Definition one_inscription_per_id (pins : list PinInscription) : Prop :=
  forall p q, p ∈ pins -> q ∈ pins -> pin_ChainName p = pin_ChainName q -> pin_Id p = pin_Id q -> same_inscription p q.
Lemma same_op p q : same_inscription p q -> op_of p = op_of q.
Proof. intros H. unfold op_of. by rewrite (si_operation _ _ H). Qed.
Lemma same_target p q : same_inscription p q -> resolveTargetPinId p = resolveTargetPinId q.
Proof. intros [E1 E2 E3 E4 E5 E6]. unfold resolveTargetPinId. by rewrite E2, E3, E5. Qed.

Section Line.
Variable all : list PinInscription.
Hypothesis Hall : one_inscription_per_id all.

(** The version [v] of some service replaces the version [t]. *)
Definition replaces (chain v t : string) : Prop :=
  exists p, p ∈ all /\ pin_ChainName p = chain /\ pin_Id p = v /\ op_of p <> OperationCreate
    /\ resolveTargetPinId p = Some t.
Definition creation (chain i : string) : Prop :=
  exists p, p ∈ all /\ pin_ChainName p = chain /\ pin_Id p = i /\ op_of p = OperationCreate.
Lemma replaces_functional chain v t t' : replaces chain v t -> replaces chain v t' -> t = t'.
Proof.
  intros (p & Hp & Ec & Ei & _ & Et) (q & Hq & Ec' & Ei' & _ & Et').
  assert (Hs : same_inscription p q) by (apply Hall; congruence).
  rewrite (same_target _ _ Hs) in Et. congruence.
Qed.
Lemma creation_first chain i t : creation chain i -> ~ replaces chain i t.
Proof.
  intros (p & Hp & Ec & Ei & Eop) (q & Hq & Ec' & Ei' & Nop & _).
  assert (Hs : same_inscription p q) by (apply Hall; congruence).
  by rewrite <- (same_op _ _ Hs) in Nop.
Qed.
Lemma first_unique chain v i j :
  creation chain i -> creation chain j -> rtc (replaces chain) v i -> rtc (replaces chain) v j -> i = j.
Proof.
  intros Hi Hj H. revert Hj. induction H as [v|v t i Hvt _ IH]; intros Hj Hj'.
  - inversion Hj' as [|? t ? Ht]; [done|]. by apply creation_first in Ht.
  - inversion Hj' as [|? t' ? Ht' Hr]; subst; [by apply creation_first in Hvt|].
    rewrite (replaces_functional _ _ _ _ Hvt Ht') in IH. by apply IH.
Qed.
Lemma line_acyclic chain v i : creation chain i -> rtc (replaces chain) v i -> ~ tc (replaces chain) v v.
Proof.
  intros Hi H. induction H as [v|v t i Hvt _ IH]; intros Hc.
  - inversion Hc as [? ? Ht|? t ? Ht]; by apply creation_first in Ht.
  - apply IH; [done|].
    assert (Hr : rtc (replaces chain) t v).
    { inversion Hc as [? ? Ht|? t' ? Ht Hr]; subst.
      - by rewrite (replaces_functional _ _ _ _ Hvt Ht) at 1.
      - rewrite (replaces_functional _ _ _ _ Hvt Ht). by apply tc_rtc. }
    eapply tc_rtc_l; [exact Hr|by apply tc_once].
Qed.
Lemma line_meet chain x v t i :
  creation chain i -> rtc (replaces chain) x i -> rtc (replaces chain) x v -> replaces chain v t ->
  rtc (replaces chain) t i.
Proof.
  intros Hi Hx Hv Hlink. revert Hx. induction Hv as [x|x y v Hxy _ IH]; intros Hx;
    (inversion Hx as [|? y' ? Hy' Hr]; subst; [by edestruct creation_first|]).
  - by rewrite (replaces_functional _ _ _ _ Hlink Hy').
  - apply IH; [done|]. by rewrite (replaces_functional _ _ _ _ Hxy Hy').
Qed.

Record line cat : Prop := {
  ln_service chain i r : services cat !! (chain, i) = Some r ->
    SourceServicePinId r = i /\ creation chain i /\ rtc (replaces chain) (CurrentPinId r) i;
  ln_source chain v i : sources cat !! (chain, v) = Some i ->
    exists r, services cat !! (chain, i) = Some r /\ rtc (replaces chain) (CurrentPinId r) v
      /\ exists t, replaces chain v t }.
Lemma line_empty : line no_catalogue.
Proof. split; intros c i r H; cbn in H; by rewrite lookup_empty in H. Qed.
Lemma by_any_source chain any cat r :
  by_any chain any cat = Some r -> exists i, services cat !! (chain, i) = Some r
    /\ i = default any (sources cat !! (chain, any)).
Proof. unfold by_any. destruct (_ || _); [done|]. intros H. by eexists. Qed.
Lemma next_source pin previous rec :
  next_version pin previous = Some rec -> SourceServicePinId rec = SourceServicePinId previous.
Proof.
  intros E. apply (version_ind (fun r => SourceServicePinId r = SourceServicePinId previous) _ _ _ E); try done.
  intros _. unfold revoked_service. by destruct (_ <? _).
Qed.
Lemma line_step pin cat cat' : pin ∈ all -> step pin cat cat' -> line cat -> line cat'.
Proof.
  intros Hpin Hs [Hv Hm]. destruct Hs as [|su Hr Hop Hd Hno|t previous rec Hr Hop Ht Hb Hcur Hn|]; [done| | |done].
  - split; cbn.
    + intros c i r H. rewrite lookup_insert in H. case_decide as E; [|by apply Hv].
      injection E as <- <-. injection H as <-. split; [done|]. split; [by exists pin|done].
    + intros c v i H. destruct (Hm c v i H) as (r & Es & Hrest). exists r. rewrite lookup_insert_ne; [done|].
      intros E. rewrite E in Hno. congruence.
  - destruct (by_any_source _ _ _ _ Hb) as (i & Es & _).
    destruct (Hv _ _ _ Es) as (Esrc & Hcr & Hline). rewrite Esrc.
    assert (Hlink : replaces (pin_ChainName pin) (pin_Id pin) t) by (by exists pin).
    assert (Hcur' : CurrentPinId rec = pin_Id pin) by (by eapply next_current).
    assert (Hgrow : forall w, rtc (replaces (pin_ChainName pin)) (CurrentPinId previous) w ->
      rtc (replaces (pin_ChainName pin)) (CurrentPinId rec) w).
    { intros w Hw. rewrite Hcur'. eapply rtc_l; [exact Hlink|]. by rewrite <- Hcur. }
    split; cbn.
    + intros c j r H. rewrite lookup_insert in H. case_decide as E; [|by apply Hv].
      injection E as <- <-. injection H as <-. split; [by rewrite (next_source _ _ _ Hn)|]. split; [done|].
      by apply Hgrow.
    + intros c v j H.
      assert (Hold : sources cat !! (c, v) = Some j -> exists r,
        <[(pin_ChainName pin, i) := rec]> (services cat) !! (c, j) = Some r
        /\ rtc (replaces c) (CurrentPinId r) v /\ exists t, replaces c v t).
      { intros H'. destruct (Hm c v j H') as (r & Er & Hw & Hl).
        destruct (decide ((pin_ChainName pin, i) = (c, j))) as [[= <- <-]|Hne].
        - exists rec. rewrite lookup_insert_eq. split; [done|]. split; [|done]. apply Hgrow.
          rewrite Es in Er. by injection Er as ->.
        - exists r. by rewrite lookup_insert_ne. }
      destruct (String.eqb _ _); [by apply Hold|]. rewrite lookup_insert in H. case_decide as E; [|by apply Hold].
      injection E as <- <-. injection H as <-. exists rec. rewrite lookup_insert_eq. split; [done|].
      split; [by rewrite Hcur'|by exists t].
Qed.
Lemma line_runs pins : (forall p, p ∈ pins -> p ∈ all) -> line (runs pins).
Proof.
  intros Hsub. apply (runs_keep line); [|apply line_empty]. intros pin cat cat' Hp Hs. by apply (line_step pin); [apply Hsub|].
Qed.

(** An applied version is not applied again. *)
Lemma applied_once cat pin t previous i :
  line cat -> pin ∈ all -> op_of pin <> OperationCreate -> resolveTargetPinId pin = Some t ->
  sources cat !! (pin_ChainName pin, pin_Id pin) = Some i ->
  by_any (pin_ChainName pin) t cat = Some previous -> CurrentPinId previous <> t.
Proof.
  intros [Hv Hm] Hpin Hop Ht Hsrc Hb Ecur. destruct (by_any_source _ _ _ _ Hb) as (j & Ej & _).
  destruct (Hv _ _ _ Ej) as (_ & Hcj & Hj). rewrite Ecur in Hj.
  destruct (Hm _ _ _ Hsrc) as (r & Er & Hreach & _). destruct (Hv _ _ _ Er) as (_ & Hci & Hi).
  assert (Hlink : replaces (pin_ChainName pin) (pin_Id pin) t) by (by exists pin).
  pose proof (line_meet _ _ _ _ _ Hci Hi Hreach Hlink) as Hline.
  pose proof (first_unique _ _ _ _ Hci Hcj Hline Hj) as <-. rewrite Er in Ej. injection Ej as ->.
  rewrite Ecur in Hreach. apply (line_acyclic _ _ _ Hci Hline).
  eapply tc_rtc_l; [exact Hreach|by apply tc_once].
Qed.

(** A pin that acted does not act again. *)
Lemma acts_once pre post pin pin' :
  (forall p, p ∈ pre ++ pin :: post -> p ∈ all) -> pin' ∈ all -> same_inscription pin pin' ->
  apply_pin pin (runs pre) <> runs pre ->
  apply_pin pin' (runs (pre ++ pin :: post)) = runs (pre ++ pin :: post).
Proof.
  intros Hsub Hpin' Hsame Hact. set (cat := runs (pre ++ pin :: post)).
  pose proof Hsame as [Ec Ei Ep _ _ _]. pose proof (same_op _ _ Hsame) as Eop.
  assert (Hrate : is_rating pin <-> is_rating pin') by (unfold is_rating; by rewrite Ep).
  assert (Hkeep : forall k, (is_Some (services (apply_pin pin (runs pre)) !! k) -> is_Some (services cat !! k))
     /\ (is_Some (sources (apply_pin pin (runs pre)) !! k) -> is_Some (sources cat !! k))
     /\ (is_Some (ratings (apply_pin pin (runs pre)) !! k) -> is_Some (ratings cat !! k))).
  { intros k. subst cat. rewrite runs_app. apply (runs_keeps post (apply_pin pin (runs pre)) k). }
  specialize (Hkeep (pin_ChainName pin, pin_Id pin)).
  assert (Hin : pin ∈ all) by (apply Hsub, elem_of_app; right; by left).
  pose proof (line_runs (pre ++ pin :: post) Hsub) as Hline.
  pose proof (apply_step pin (runs pre)) as Hs. pose proof (apply_step pin' cat) as Hs'.
  remember (apply_pin pin (runs pre)) as after eqn:Ea. remember (apply_pin pin' cat) as last eqn:El.
  destruct Hs' as [|su' Hr' Hop' Hd' Hno'|t' previous' rec' Hr' Hop' Ht' Hb' Hcur' Hn'|su' src' Hr' Hd' _ _ Hno' _];
    [done|exfalso..]; rewrite <- ?Ec, <- ?Ei in *;
    destruct Hs as [|su Hr Hop Hd Hno|t previous rec Hr Hop Ht Hb Hcur Hn|su src Hr Hd _ _ Hno _];
    try done; try (by destruct Hrate; auto); try congruence; cbn in Hkeep.
  - destruct Hkeep as [Hk _]. rewrite lookup_insert_eq, Hno' in Hk. by destruct Hk.
  - destruct Hkeep as (_ & Hk & _).
    destruct (by_any_source _ _ _ _ Hb) as (i & Es & _).
    destruct (ln_service _ (line_runs pre (fun p H => Hsub p (proj2 (elem_of_app _ _ _) (or_introl H)))) _ _ _ Es)
      as (Esrc & Hcr & _).
    destruct (String.eqb_spec (pin_Id pin) (SourceServicePinId previous)) as [E|_].
    { apply (creation_first _ _ t Hcr). exists pin. rewrite Esrc in E. done. }
    rewrite lookup_insert_eq in Hk. destruct Hk as [j Hj]; [done|].
    rewrite (same_target _ _ Hsame) in Ht. rewrite <- Hcur' in *.
    rewrite Ec, Ei in Hj. rewrite Ec in Hb'.
    by apply (applied_once cat pin' (CurrentPinId previous') previous' j Hline Hpin' Hop' Ht' Hj Hb').
  - destruct Hkeep as (_ & _ & Hk). rewrite lookup_insert_eq, Hno' in Hk. by destruct Hk.
Qed.
End Line.

(** ** Revoked services *)

Lemma next_revoked pin previous rec :
  next_version pin previous = Some rec -> Operation previous = OperationRevoke -> Operation rec = OperationRevoke.
Proof.
  unfold next_version. intros E Hp. destruct (String.eqb (op_of pin) OperationModify).
  - destruct (decodeServiceSummary pin) as [su|]; [|done]. injection E as <-. unfold modified_service. cbv zeta.
    by rewrite Hp.
  - destruct (String.eqb _ _); [|done]. injection E as <-. unfold revoked_service. by destruct (_ <? _).
Qed.
Lemma revoke_version pin previous :
  op_of pin = OperationRevoke -> exists rec, next_version pin previous = Some rec /\ Operation rec = OperationRevoke.
Proof.
  intros E. unfold next_version. rewrite E. exists (revoked_service pin previous). split; [done|].
  unfold revoked_service. by destruct (_ <? _).
Qed.
Definition revoked_at (k : string * string) cat : Prop :=
  exists r, services cat !! k = Some r /\ Operation r = OperationRevoke.
Lemma step_revoked pin cat cat' k : wf_catalogue cat -> step pin cat cat' -> revoked_at k cat -> revoked_at k cat'.
Proof.
  intros Hw Hs (r & Er & Hop). destruct Hs as [|su _ _ _ Hno|t previous rec _ _ _ Hb _ Hn|]; [by exists r| | |by exists r].
  - exists r. cbn. rewrite lookup_insert_ne; [done|]. intros <-. congruence.
  - destruct (by_any_wf _ _ _ _ Hw Hb) as (_ & Es & _). unfold revoked_at. cbn.
    rewrite lookup_insert. case_decide as E; [|by exists r]. subst k. exists rec. split; [done|].
    apply (next_revoked _ _ _ Hn). congruence.
Qed.

(** ** Sums of ratings *)

Definition total (l : list RatingPin) : Z := foldr Z.add 0 (map rp_Rate l).
Definition summary (chain src : string) (l : list RatingPin) : option RatingAggregate :=
  match l with [] => None | _ => Some (mkAggregate chain src (total l) (Z.of_nat (length l))) end.
Definition is_rating_of (chain src : string) (r : RatingPin) : bool :=
  String.eqb (rp_ChainName r) chain && String.eqb (rp_SourceServicePinId r) src.
Definition rated (chain src : string) cat : list RatingPin :=
  List.filter (is_rating_of chain src) (map_to_list (ratings cat)).*2.
Record tallied cat : Prop := {
  ta_rate k r : ratings cat !! k = Some r -> 1 <= rp_Rate r <= 5;
  ta_sum chain src : src <> "" -> aggregates cat !! (chain, src) = summary chain src (rated chain src cat) }.

Lemma total_perm l l' : l ≡ₚ l' -> total l = total l'.
Proof. unfold total. induction 1; cbn; lia. Qed.
Lemma summary_perm chain src l l' : l ≡ₚ l' -> summary chain src l = summary chain src l'.
Proof.
  intros H. unfold summary. rewrite (total_perm _ _ H), (Permutation_length H).
  destruct l, l'; try done; by apply Permutation_length in H.
Qed.
Lemma filter_perm {A} (f : A -> bool) l l' : l ≡ₚ l' -> List.filter f l ≡ₚ List.filter f l'.
Proof.
  induction 1 as [|x l l' _ IH|x y l|l l' l'' _ IH1 _ IH2]; cbn; [done| | |by rewrite IH1].
  - destruct (f x); [by rewrite IH|done].
  - destruct (f x), (f y); try done. apply Permutation_swap.
Qed.
Lemma rated_length chain src cat : (length (rated chain src cat) <= size (ratings cat))%nat.
Proof.
  unfold rated. etrans; [apply filter_length_le|]. rewrite length_fmap. by rewrite length_map_to_list.
Qed.
Lemma total_bounds l : Forall (fun r => 1 <= rp_Rate r <= 5) l -> 0 <= total l <= 5 * Z.of_nat (length l).
Proof. unfold total. induction 1; cbn; lia. Qed.
Lemma rated_rates chain src cat : tallied cat -> Forall (fun r => 1 <= rp_Rate r <= 5) (rated chain src cat).
Proof.
  intros [Hr _]. apply Forall_forall. intros r H. apply list_elem_of_In, filter_In in H as [H _].
  apply list_elem_of_In, list_elem_of_fmap in H as ([k x] & -> & H). apply elem_of_map_to_list in H. by apply (Hr k).
Qed.
Lemma summary_bump chain src l r :
  Forall (fun r => 1 <= rp_Rate r <= 5) (r :: l) -> Z.of_nat (length l) < 2 ^ 60 ->
  Some (bumped (default (mkAggregate chain src 0 0) (summary chain src l)) (rp_Rate r)) = summary chain src (r :: l).
Proof.
  intros Hf Hn. apply Forall_cons in Hf as [Hr Hf]. pose proof (total_bounds _ Hf) as Hb.
  assert (E : default (mkAggregate chain src 0 0) (summary chain src l)
    = mkAggregate chain src (total l) (Z.of_nat (length l))) by (by destruct l).
  rewrite E. unfold summary. cbn [length]. rewrite Nat2Z.inj_succ.
  change (total (r :: l)) with (rp_Rate r + total l).
  change (bumped (mkAggregate chain src (total l) (Z.of_nat (length l))) (rp_Rate r)) with
    (mkAggregate chain src (wrap64 (total l + rp_Rate r)) (wrap64 (Z.of_nat (length l) + 1))).
  rewrite !wrap64_id by (unfold in_i64; lia). f_equal. f_equal; lia.
Qed.
Lemma step_tallied pin cat cat' :
  Z.of_nat (size (ratings cat)) < 2 ^ 60 -> step pin cat cat' -> tallied cat -> tallied cat'.
Proof.
  intros Hn Hs Ht. pose proof Ht as [Hr Ha]. destruct Hs as [|su|t|su src _ Hd _ _ Hno Hsrc]; [done|by split..|].
  destruct (decoded_rating pin su Hd) as (Hrate & _). set (new := newRatingPin pin su src).
  assert (Hnew : forall c x, rated c x (mkCatalogue (services cat) (sources cat)
     (<[(pin_ChainName pin, pin_Id pin) := new]> (ratings cat)) ∅)
     ≡ₚ if is_rating_of c x new then new :: rated c x cat else rated c x cat).
  { intros c x. unfold rated. cbn [ratings]. rewrite (filter_perm _ _ (new :: (map_to_list (ratings cat)).*2)).
    - cbn [List.filter]. by destruct (is_rating_of c x new).
    - by rewrite map_to_list_insert by done. }
  split; cbn.
  - intros k r H. rewrite lookup_insert in H. case_decide; [|by eapply Hr]. by injection H as <-.
  - intros c x Hx. rewrite (summary_perm _ _ _ _ (Hnew c x)). unfold is_rating_of. subst new. cbn.
    destruct (decide (src = "")) as [E|Hne].
    { rewrite E. cbn [is_empty]. rewrite (proj2 (String.eqb_neq "" x)), andb_false_r by done. by apply Ha. }
    rewrite (nonempty _ Hne). destruct (decide ((pin_ChainName pin, src) = (c, x))) as [E|Hd'].
    + injection E as <- <-. rewrite lookup_insert_eq, !String.eqb_refl. cbn [andb]. rewrite (Ha _ _ Hne).
      apply (summary_bump _ _ _ (newRatingPin pin su src)); [apply Forall_cons_2; [done|by apply rated_rates]|].
      pose proof (rated_length (pin_ChainName pin) src cat). lia.
    + rewrite lookup_insert_ne by done. rewrite (Ha c x Hx).
      destruct (String.eqb_spec (pin_ChainName pin) c) as [E|]; [|done].
      destruct (String.eqb_spec src x) as [E'|]; [|done]. by rewrite E, E' in Hd'.
Qed.
Lemma step_size pin cat cat' : step pin cat cat' -> (size (ratings cat') <= S (size (ratings cat)))%nat.
Proof. intros []; cbn; try lia. rewrite map_size_insert. case_match; cbn; lia. Qed.
Lemma runs_services pins : (size (services (runs pins)) <= length pins)%nat.
Proof.
  induction pins as [|pin pins IH] using rev_ind; [done|]. rewrite length_app. cbn [length].
  unfold runs in *. rewrite foldl_snoc.
  destruct (apply_step pin (foldl (fun cat pin => apply_pin pin cat) no_catalogue pins)); cbn; try lia;
    rewrite map_size_insert; case_match; cbn; lia.
Qed.
Lemma runs_tallied pins :
  Z.of_nat (length pins) <= 2 ^ 60 -> tallied (runs pins) /\ (size (ratings (runs pins)) <= length pins)%nat.
Proof.
  induction pins as [|pin pins IH] using rev_ind; intros Hn.
  - split; [|done]. split; cbn; [intros k r H; by rewrite lookup_empty in H|]. intros c x _.
    rewrite lookup_empty. unfold rated. cbn. by rewrite map_to_list_empty.
  - rewrite length_app in *. cbn [length] in *. destruct IH as [Ht Hs]; [lia|].
    unfold runs in *. rewrite foldl_snoc. pose proof (apply_step pin (foldl (fun cat pin => apply_pin pin cat) no_catalogue pins)) as H.
    pose proof (step_size _ _ _ H). split; [|lia]. eapply step_tallied; [|exact H|done]. lia.
Qed.
End History.

(** ** What deliveries leave *)

Section Deliveries.
Context {St : Type} {KV : KVOps St} {KVS : KVStore St} {SJ : SkillJSON}.
Implicit Types (ds : list delivery) (s : St).

Definition good_all ds : Prop := Forall (fun d => good_pin (d_pin d)) ds.
Lemma catalogue_runs ds : catalogue_of ds = runs (map d_pin ds).
Proof. induction ds as [|d ds IH] using rev_ind; [done|]. by rewrite catalogue_snoc, map_app, runs_app, <- IH. Qed.
Lemma good_app ds ds' : good_all (ds ++ ds') <-> good_all ds /\ good_all ds'.
Proof. apply Forall_app. Qed.
Lemma implements_deliver ds s : fresh s -> good_all ds -> implements (catalogue_of ds) (deliver ds s).
Proof. apply deliver_implements. Qed.
Lemma list_all cat s :
  implements cat s -> exists l, listAllServices s = Ok l /\ l ≡ₚ (map_to_list (services cat)).*2.
Proof.
  intros Hi. unfold listAllServices, scan_json_err. rewrite kv_Scan_ok by apply Hi.
  eexists. split; [done|]. rewrite parse_values_snd, (table_entries _ _ _ _ (im_services _ _ Hi)).
  apply reflexive_eq. pose proof (fun k i r => wf_services _ (im_wf _ _ Hi) k i r) as Hw.
  assert (H : forall l, (forall k r, (k, r) ∈ l -> wf_service k.1 k.2 r) ->
     omap unmarshal_value ((fun e : string * string * ServiceRecord =>
        (table_key keyService e.1.1 e.1.2, json_Marshal e.2)) <$> l) = l.*2).
  { induction l as [|[k r] l IH]; intros Hl; [done|]. cbn. unfold unmarshal_value at 1. cbn [snd].
    rewrite json_roundtrip by (eapply ws_faithful, (Hl k r); by left). f_equal. apply IH.
    intros k' r' H. apply Hl. by right. }
  apply H. intros [c i] r Hk. apply elem_of_map_to_list in Hk. by apply Hw.
Qed.

Lemma services_keys cat s :
  implements cat s ->
  map (fun r => (ChainName r, SourceServicePinId r)) (map_to_list (services cat)).*2 = (map_to_list (services cat)).*1.
Proof.
  intros Hi. assert (H : forall l, (forall k r, (k, r) ∈ l -> services cat !! k = Some r) ->
    map (fun r => (ChainName r, SourceServicePinId r)) l.*2 = l.*1).
  { induction l as [|[[c i] r] l IH]; intros Hl; [done|]. cbn.
    pose proof (wf_services _ (im_wf _ _ Hi) _ _ _ (Hl (c, i) r ltac:(by left))) as [-> -> _ _ _ _].
    f_equal. apply IH. intros k x Hx. apply Hl. by right. }
  apply H. intros k r. apply elem_of_map_to_list.
Qed.

(** C33: The store implements the catalogue: over any deliveries, from blocks or
    the mempool and whatever profiles the user info aggregator knows, no handler
    fails; services are read by their id or by the id of any version, sums of
    ratings by service, and the enumeration lists every service once, exactly as
    the abstract catalogue of these deliveries has them. *)
Theorem skillservice_refines ds d s chain id :
  fresh s -> good_all (ds ++ [d]) -> no_char ":" chain = true -> chain <> "" -> id <> "" ->
  let cat := catalogue_of ds in
  (handle d (deliver ds s)).1 = Ok None
  /\ (loadService chain id (deliver ds s)).1 = Ok (services cat !! (chain, id))
  /\ (loadServiceByAnyPinId chain id (deliver ds s)).1 = Ok (by_any chain id cat)
  /\ (LoadRatingAggregate chain id (deliver ds s)).1 = Ok (aggregates cat !! (chain, id))
  /\ exists l, listAllServices (deliver ds s) = Ok l /\ l ≡ₚ (map_to_list (services cat)).*2.
Proof.
  intros Hf [Hg Hd]%good_app Hc Hne Hid cat. pose proof (implements_deliver ds s Hf Hg) as Hi.
  destruct (handle_takes d cat (deliver ds s) Hi (Forall_inv Hd)) as (s' & -> & _).
  destruct (loadService_reads cat chain id _ Hi Hc Hne Hid) as (s1 & -> & _).
  destruct (loadAny_reads cat chain id _ Hi Hc Hne Hid) as (s2 & -> & _).
  destruct (aggregate_reads cat chain id _ Hi Hc Hne Hid) as (s3 & -> & _).
  split; [done|]. split; [done|]. split; [done|]. split; [done|]. by apply list_all.
Qed.

(** C34: An inscription acts at most once.  If its first delivery changed the store,
    another one - from a block after the mempool, or replayed at any later time
    after any other pins - leaves every namespace as it is, when pins with one id
    on a chain say the same. *)
Theorem inscription_acts_once pre d post d' s :
  fresh s -> good_all (pre ++ d :: post ++ [d']) ->
  one_inscription_per_id (map d_pin (pre ++ d :: post ++ [d'])) ->
  pin_ChainName (d_pin d') = pin_ChainName (d_pin d) -> pin_Id (d_pin d') = pin_Id (d_pin d) ->
  ~ same_view (deliver pre s) (deliver (pre ++ [d]) s) ->
  same_view (deliver (pre ++ d :: post) s) (deliver (pre ++ d :: post ++ [d']) s).
Proof.
  intros Hf Hg Hone Hc Hid Hact.
  assert (E : pre ++ d :: post ++ [d'] = (pre ++ d :: post) ++ [d']) by (by rewrite <- app_assoc).
  rewrite E in *. pose proof Hg as [Hg1 Hd']%good_app. pose proof Hg1 as [Hpre Hrest]%good_app.
  set (all := map d_pin ((pre ++ d :: post) ++ [d'])) in *.
  assert (Hsub : forall p, p ∈ map d_pin pre ++ d_pin d :: map d_pin post -> p ∈ all).
  { intros p H. subst all. rewrite !map_app. apply elem_of_app. by left. }
  assert (Hlast : d_pin d' ∈ all).
  { subst all. rewrite map_app. apply elem_of_app. right. by left. }
  assert (Hfirst : d_pin d ∈ all) by (apply Hsub, elem_of_app; right; by left).
  rewrite deliver_snoc.
  destruct (handle_takes d' _ _ (implements_deliver _ s Hf Hg1) (Forall_inv Hd')) as (s' & -> & _ & Hsame).
  apply Hsame. rewrite catalogue_runs, map_app. cbn [map].
  apply (acts_once all Hone); [done|done|by apply Hone|].
  intros Hno. apply Hact. rewrite deliver_snoc.
  destruct (handle_takes d _ _ (implements_deliver pre s Hf Hpre) (Forall_inv Hrest)) as (s1 & -> & _ & Hsame1).
  apply Hsame1. by rewrite catalogue_runs.
Qed.

(** C35: The stored sum and count of a service are those of its stored ratings,
    each counted once, all between 1 and 5, after any sequence of fewer than 2^60
    deliveries. *)
Theorem rating_aggregate_exact ds s chain src :
  fresh s -> good_all ds -> Z.of_nat (length ds) <= 2 ^ 60 ->
  no_char ":" chain = true -> chain <> "" -> src <> "" ->
  exists l : list RatingPin,
    NoDup (map rp_PinId l)
    /\ (forall r, r ∈ l <-> (loadRatingPin chain (rp_PinId r) (deliver ds s)).1 = Ok (Some r)
          /\ rp_SourceServicePinId r = src)
    /\ Forall (fun r => 1 <= rp_Rate r <= 5) l
    /\ (LoadRatingAggregate chain src (deliver ds s)).1
       = Ok (match l with
             | [] => None
             | _ => Some (mkAggregate chain src (foldr Z.add 0 (map rp_Rate l)) (Z.of_nat (length l)))
             end).
Proof.
  intros Hf Hg Hn Hc Hne Hs. pose proof (implements_deliver ds s Hf Hg) as Hi.
  destruct (runs_tallied (map d_pin ds)) as [Ht _]; [by rewrite length_map|]. rewrite <- catalogue_runs in Ht.
  set (cat := catalogue_of ds) in *. exists (rated chain src cat). pose proof (im_wf _ _ Hi) as Hw.
  assert (Hin : forall r, r ∈ rated chain src cat <->
    ratings cat !! (chain, rp_PinId r) = Some r /\ rp_SourceServicePinId r = src).
  { intros r. unfold rated. rewrite list_elem_of_In, filter_In, <- list_elem_of_In, list_elem_of_fmap.
    unfold is_rating_of. rewrite andb_true_iff, !String.eqb_eq. split.
    - intros (([[c i] x] & -> & Hx) & <- & <-). apply elem_of_map_to_list in Hx. cbn in *.
      by rewrite (wr_chain _ _ _ (wf_ratings _ Hw _ _ _ Hx)), (wr_id _ _ _ (wf_ratings _ Hw _ _ _ Hx)) at 1.
    - intros [Hx <-]. rewrite (wr_chain _ _ _ (wf_ratings _ Hw _ _ _ Hx)). split; [|done].
      exists ((chain, rp_PinId r), r). by rewrite elem_of_map_to_list. }
  split; [|split; [|split; [by apply rated_rates|]]].
  - assert (Hd : NoDup (rated chain src cat)).
    { unfold rated. apply NoDup_ListNoDup, List.NoDup_filter, NoDup_ListNoDup.
      apply NoDup_fmap_2_strong; [|apply NoDup_map_to_list].
      intros [[c i] x] [[c' i'] x'] H H' E. cbn in E. subst x'. apply elem_of_map_to_list in H, H'.
      rewrite <- (wr_chain _ _ _ (wf_ratings _ Hw _ _ _ H)), <- (wr_id _ _ _ (wf_ratings _ Hw _ _ _ H)).
      by rewrite <- (wr_chain _ _ _ (wf_ratings _ Hw _ _ _ H')), <- (wr_id _ _ _ (wf_ratings _ Hw _ _ _ H')) at 1. }
    apply (NoDup_fmap_2_strong rp_PinId); [|done]. intros a b Ha Hb E. apply Hin in Ha as [Ha _], Hb as [Hb _].
    rewrite E in Ha. congruence.
  - intros r. rewrite Hin. apply and_iff_compat_r. destruct (decide (rp_PinId r = "")) as [->|Hid].
    + unfold loadRatingPin. rewrite orb_true_r. split; [|done]. intros H.
      by destruct (wr_nonempty _ _ _ (wf_ratings _ Hw _ _ _ H)).
    + destruct (rating_reads cat chain (rp_PinId r) _ Hi Hc Hne Hid) as (s1 & -> & _). cbn. split; congruence.
  - destruct (aggregate_reads cat chain src _ Hi Hc Hne Hs) as (s1 & -> & _). cbn [fst].
    by rewrite (ta_sum _ Ht chain src Hs).
Qed.

Lemma revoked_run ds ds' s k :
  fresh s -> good_all (ds ++ ds') -> revoked_at k (catalogue_of ds) -> revoked_at k (catalogue_of (ds ++ ds')).
Proof.
  intros Hf. induction ds' as [|d ds' IH] using rev_ind; intros Hg Hr; [by rewrite app_nil_r|].
  rewrite app_assoc in *. apply good_app in Hg as [Hg _]. rewrite catalogue_snoc.
  eapply step_revoked; [apply (im_wf _ _ (implements_deliver _ s Hf Hg))|apply apply_step|by apply IH].
Qed.

(** A service that was revoked is never offered again: after a revoke pin of
    its current version, whatever is delivered, its record stays and is hidden by
    default, alone and in the enumeration of all services. *)
Theorem revoke_is_terminal ds d ds' s r :
  fresh s -> good_all (ds ++ d :: ds') ->
  let chain := pin_ChainName (d_pin d) in
  chain <> "" -> pin_Id (d_pin d) <> "" -> op_of (d_pin d) = OperationRevoke ->
  protocolPathFromPinPath (pin_Path (d_pin d)) = PathSkillService ->
  resolveTargetPinId (d_pin d) = Some (CurrentPinId r) ->
  (loadServiceByAnyPinId chain (CurrentPinId r) (deliver ds s)).1 = Ok (Some r) ->
  (exists r', (loadService chain (SourceServicePinId r) (deliver (ds ++ d :: ds') s)).1 = Ok (Some r')
     /\ IsVisibleDefault r' = false)
  /\ forall l r', listAllServices (deliver (ds ++ d :: ds') s) = Ok l -> r' ∈ l ->
       ChainName r' = chain -> SourceServicePinId r' = SourceServicePinId r -> IsVisibleDefault r' = false.
Proof.
  intros Hf Hg chain Hne Hid Hop Hpath Ht Hload.
  pose proof (implements_deliver _ s Hf Hg) as Hi. pose proof Hg as [Hg1 Hg2]%good_app.
  pose proof (implements_deliver _ s Hf Hg1) as Hi1.
  assert (Hcc : no_char ":" chain = true) by apply (gp_chain _ (Forall_inv Hg2)).
  destruct (resolved_target _ _ Ht) as [Htn _].
  destruct (loadAny_reads _ chain (CurrentPinId r) _ Hi1 Hcc Hne Htn) as (s1 & E & _).
  rewrite E in Hload. cbn in Hload. injection Hload as Hb.
  destruct (by_any_wf _ _ _ _ (im_wf _ _ Hi1) Hb) as (Hw & _ & _).
  set (src := SourceServicePinId r) in *.
  assert (Hrev : revoked_at (chain, src) (catalogue_of (ds ++ d :: ds'))).
  { assert (Hstart : revoked_at (chain, src) (catalogue_of (ds ++ [d]))).
    { rewrite catalogue_snoc. unfold apply_pin. cbv zeta. rewrite Hpath.
      change (String.eqb PathSkillService PathSkillService) with true. cbn [negb].
      destruct (is_empty (pin_Path (d_pin d))) eqn:Ep.
      { apply is_empty_spec in Ep. rewrite Ep in Hpath. vm_compute in Hpath. discriminate. }
      unfold update_service. fold chain. rewrite (nonempty _ Hne), (nonempty _ Hid), Hop. cbn [orb].
      change (String.eqb OperationRevoke OperationCreate) with false. unfold advance.
      fold chain. rewrite Ht, Hb. unfold isCurrentVersionTarget. rewrite String.eqb_refl. cbn [negb].
      destruct (revoke_version (d_pin d) r Hop) as (rec & -> & Hr). exists rec. cbn.
      by rewrite lookup_insert_eq. }
    assert (E' : ds ++ d :: ds' = (ds ++ [d]) ++ ds') by (by rewrite <- app_assoc). rewrite E' in *.
    by eapply revoked_run. }
  destruct Hrev as (r' & Er & Hr).
  assert (Hhid : IsVisibleDefault r' = false) by (unfold IsVisibleDefault; by rewrite Hr).
  split.
  - exists r'. split; [|done].
    destruct (loadService_reads _ chain src _ Hi Hcc Hne (ws_id_nonempty _ _ _ Hw)) as (s2 & -> & _). cbn. by rewrite Er.
  - intros l x Hl Hx Ec Es. destruct (list_all _ _ Hi) as (l' & Hl' & Hp).
    rewrite Hl in Hl'. injection Hl' as <-. rewrite Hp in Hx.
    apply list_elem_of_fmap in Hx as ([[c i] y] & -> & Hx). apply elem_of_map_to_list in Hx. cbn in *.
    pose proof (wf_services _ (im_wf _ _ Hi) _ _ _ Hx) as Hwy.
    rewrite (ws_chain _ _ _ Hwy) in Ec. rewrite (ws_source _ _ _ Hwy) in Es. subst c i. congruence.
Qed.
End Deliveries.
