(* ===== verification/SkillList.v ===== *)
(** * SkillList: the lists and the detail of skill services

    list.go, detail.go, payment.go, asset.go and the parameters of api.go: the
    list filters, sorts and cuts pages out of the stored services; the homepage
    list follows the index entries of a provider; the detail resolves one service.
    [float64] is Rocq's specification of binary64. *)

From Stdlib Require Import SpecFloat.
From S2P Require Import Prelude GoText Json Storage Aggregator Effects HttpApi SkillService.

(** What the code takes from the libraries of Go: number parsing, the host and
    path of a URL, and the sort, which keeps ties in order for a strict weak order
    and permutes its input for any comparison. *)
Class GoLib := {
  ParseFloat : string -> res spec_float;
  url_HostPath : string -> option (string * string);
  sort_SliceStable : forall {A}, (A -> A -> bool) -> list A -> list A;
  sort_perm : forall {A} (less : A -> A -> bool) l, sort_SliceStable less l ≡ₚ l;
  sort_stable : forall {A} (less : A -> A -> bool) `{!StrictWeak less} l,
    sort_SliceStable less l = SliceStable less l }.

(** *** Binary64 *)

Definition f64_of_int (z : Z) : spec_float := binary_normalize 53 1024 z 0 false.
Definition f64_add : spec_float -> spec_float -> spec_float := SFadd 53 1024.
Definition f64_mul : spec_float -> spec_float -> spec_float := SFmul 53 1024.
Definition f64_div : spec_float -> spec_float -> spec_float := SFdiv 53 1024.
Definition f64_lt : spec_float -> spec_float -> bool := SFltb.
Definition f64_eq : spec_float -> spec_float -> bool := SFeqb.
Definition f64_0 : spec_float := f64_of_int 0.

(** ** Assets ([asset.go]) *)

Section List.
Context {G : GoLib}.

Definition NewAssetResolver (baseURL : string) : string := TrimRightChar "/" (TrimSpace baseURL).
Definition joinID (baseURL id : string) : string :=
  let id := TrimLeftChar "/" (TrimSpace id) in
  if is_empty id then "" else if is_empty baseURL then id else baseURL +:+ "/" +:+ id.
Definition has_host_path (host path asset : string) : bool :=
  match url_HostPath (TrimSpace asset) with
  | None => false
  | Some (h, p) => EqualFold h host && HasPrefix p path
  end.
Definition isLegacyManAPIContentURL : string -> bool := has_host_path "manapi.metaid.io" "/content/".
Definition isFileIndexerContentURL : string -> bool := has_host_path "file.metaid.io" "/metafile-indexer/content/".
(** The part after the last slash. *)
Definition last_part (s : string) : string :=
  match LastIndex s "/" with Some i => sdrop (i + 1) s | None => s end.
Definition assetIDFromContentURL (asset : string) : string :=
  match url_HostPath (TrimSpace asset) with
  | None => ""
  | Some (_, p) => TrimSpace (last_part (TrimChar "/" p))
  end.
Definition Resolve (baseURL asset : string) : string :=
  let asset := TrimSpace asset in
  if is_empty asset then "" else
  let lower := ToLower asset in
  if isLegacyManAPIContentURL asset || isFileIndexerContentURL asset
  then joinID baseURL (assetIDFromContentURL asset)
  else if HasPrefix lower "http://" || HasPrefix lower "https://" then asset
  else if HasPrefix lower "metafile://" then joinID baseURL (sdrop 11 asset)
  else if HasPrefix lower "metafile:" then joinID baseURL (sdrop 9 asset)
  else if HasPrefix asset "/content/" then joinID baseURL (sdrop 9 asset)
  else joinID baseURL asset.
(** [ResolveAsset]: no resolver leaves the reference as it is. *)
Definition ResolveAsset (assetResolver : option string) (asset : string) : string :=
  match assetResolver with None => asset | Some baseURL => Resolve baseURL asset end.

(** ** Payment ([payment.go]) *)

Record paymentMetadata := mkPayment {
  pay_currency : string; pay_settlementKind : string; pay_paymentChain : string; pay_paymentAddress : string;
  pay_mrc20Ticker : option string; pay_mrc20Id : option string }.
Definition normaliseDisplayCurrency (value : string) : string :=
  let currency := ToUpper (TrimSpace value) in
  if String.eqb currency "MVC" || String.eqb currency "MICROVISIONCHAIN" then "SPACE" else currency.
Definition normaliseSettlementKind (value currency mrc20Ticker mrc20Id : string) : string :=
  let raw := ToLower (TrimSpace value) in
  if String.eqb raw "mrc20" || HasSuffix currency "-MRC20" || String.eqb currency "MRC20"
     || negb (is_empty (TrimSpace mrc20Ticker)) || negb (is_empty (TrimSpace mrc20Id)) then "mrc20"
  else if String.eqb raw "fiat" then "fiat" else "native".
Definition defaultPaymentChain (settlementKind currency : string) : string :=
  if String.eqb settlementKind "mrc20" then "btc"
  else if String.eqb settlementKind "fiat" then ""
  else
    let currency := ToUpper (TrimSpace currency) in
    if String.eqb currency "BTC" then "btc"
    else if String.eqb currency "DOGE" then "doge"
    else if String.eqb currency "OPCAT" then "opcat"
    else if String.eqb currency "SPACE" || String.eqb currency "MVC" || String.eqb currency "MICROVISIONCHAIN"
    then "mvc" else "".
Definition isPositivePrice (value : string) : bool :=
  match ParseFloat (TrimSpace value) with Ok price => f64_lt f64_0 price | Err _ => false end.
Definition some_text (s : string) : option string := if is_empty s then None else Some s.
Definition normalisePaymentMetadata (rec : ServiceRecord) : paymentMetadata :=
  let currency := normaliseDisplayCurrency (Currency rec) in
  let settlementKind := normaliseSettlementKind (SettlementKind rec) currency (MRC20Ticker rec) (MRC20Id rec) in
  let paymentChain := ToLower (TrimSpace (PaymentChain rec)) in
  let paymentChain := if is_empty paymentChain then defaultPaymentChain settlementKind currency else paymentChain in
  let paymentAddress := TrimSpace (PaymentAddress rec) in
  let paymentAddress :=
    if is_empty paymentAddress && String.eqb settlementKind "native" && isPositivePrice (Price rec)
    then TrimSpace (ProviderAddress rec) else paymentAddress in
  mkPayment currency settlementKind paymentChain paymentAddress (some_text (MRC20Ticker rec)) (some_text (MRC20Id rec)).

(** ** Parameters *)

Record ListParams := mkListParams {
  lp_Size : Z; lp_Cursor : string; lp_Keyword : string; lp_Currency : string; lp_ChainName : string;
  lp_OutputType : string; lp_ProviderGlobalMetaId : string; lp_SortBy : string; lp_Order : string;
  lp_IncludeInactive : bool }.
Record HomepageListParams := mkHomepageParams {
  hp_ProviderGlobalMetaId : string; hp_ChainName : string; hp_Size : Z; hp_IncludeInactive : bool }.
Definition defaultListSize : Z := 20.
Definition maxListSize : Z := 100.
Definition clampSize (size : Z) : Z :=
  if size <=? 0 then defaultListSize else if maxListSize <? size then maxListSize else size.
Definition normaliseSortBy (sortBy : string) : string :=
  let s := ToLower (TrimSpace sortBy) in
  if String.eqb s "rating" || String.eqb s "updated" || String.eqb s "price" then s else "rating".
Definition normaliseOrder (order : string) : string :=
  if String.eqb (ToLower (TrimSpace order)) "asc" then "asc" else "desc".
Definition normaliseListParams (p : ListParams) : ListParams :=
  {| lp_Size := clampSize (lp_Size p); lp_Cursor := lp_Cursor p; lp_Keyword := TrimSpace (lp_Keyword p);
     lp_Currency := ToUpper (TrimSpace (lp_Currency p)); lp_ChainName := ToLower (TrimSpace (lp_ChainName p));
     lp_OutputType := ToLower (TrimSpace (lp_OutputType p));
     lp_ProviderGlobalMetaId := TrimSpace (lp_ProviderGlobalMetaId p);
     lp_SortBy := normaliseSortBy (lp_SortBy p); lp_Order := normaliseOrder (lp_Order p);
     lp_IncludeInactive := lp_IncludeInactive p |}.
Definition normaliseHomepageListParams (p : HomepageListParams) : HomepageListParams :=
  {| hp_ProviderGlobalMetaId := TrimSpace (hp_ProviderGlobalMetaId p);
     hp_ChainName := ToLower (TrimSpace (hp_ChainName p)); hp_Size := clampSize (hp_Size p);
     hp_IncludeInactive := hp_IncludeInactive p |}.
(** [parseListParams] of [api.go], from the query of a request. *)
Definition parseListParams (Query : string -> string) : res ListParams :=
  size <-? (let raw := Query "size" in
            if is_empty raw then Ok 0 else
            match Atoi raw with
            | Some n => if n <? 0 then Err "invalid size" else Ok n
            | None => Err "invalid size"
            end) ;;
  includeInactive <-? (let raw := Query "includeInactive" in
    if is_empty raw then Ok false else
    let v := TrimSpace raw in
    if bool_decide (v ∈ ["1"; "true"; "TRUE"; "yes"]) then Ok true
    else if bool_decide (v ∈ ["0"; "false"; "FALSE"; "no"; ""]) then Ok false
    else Err "invalid includeInactive") ;;
  Ok (mkListParams size (Query "cursor") (Query "keyword") (Query "currency") (Query "chainName")
        (Query "outputType") (Query "providerGlobalMetaId") (Query "sortBy") (Query "order") includeInactive).

(** ** Filters and order *)

Record expandedRecord := mkExpanded { ex_rec : ServiceRecord; ex_profile : ProfileSnapshot; ex_rating : option RatingAggregate }.
Definition matchesCurrencyFilter (rec : ServiceRecord) (want : string) : bool :=
  if is_empty want then true else
  let rc := ToUpper (TrimSpace (Currency rec)) in
  if String.eqb want "SPACE" && String.eqb rc "MVC" then true else String.eqb rc want.
Definition matchesOutputTypeFilter (rec : ServiceRecord) (want : string) : bool :=
  if is_empty want then true else EqualFold (OutputType rec) want.
Definition matchesProviderFilter (exp : expandedRecord) (want : string) : bool :=
  if is_empty want then true else
  existsb (fun candidate => EqualFold candidate want)
    [ps_GlobalMetaId (ex_profile exp); ProviderGlobalMetaId (ex_rec exp); ps_MetaId (ex_profile exp);
     ProviderMetaId (ex_rec exp); ps_Address (ex_profile exp); ProviderAddress (ex_rec exp)].
Definition matchesKeywordFilter (exp : expandedRecord) (kw : string) : bool :=
  if is_empty kw then true else
  let lc := ToLower kw in
  existsb (fun h => negb (is_empty h) && Contains (ToLower h) lc)
    [DisplayName (ex_rec exp); ServiceName (ex_rec exp); Description (ex_rec exp); ProviderSkill (ex_rec exp);
     ps_Name (ex_profile exp)].
Definition Average (a : RatingAggregate) : spec_float :=
  if ag_Count a =? 0 then f64_0 else f64_div (f64_of_int (ag_Sum a)) (f64_of_int (ag_Count a)).
Definition smoothMean : spec_float := f64_of_int 4.
Definition smoothPrior : spec_float := f64_of_int 5.
Definition smoothedScore (agg : option RatingAggregate) : spec_float :=
  let '(count, avg) :=
    match agg with
    | Some agg => if 0 <? ag_Count agg then (f64_of_int (ag_Count agg), Average agg) else (f64_0, f64_0)
    | None => (f64_0, f64_0)
    end in
  f64_div (f64_add (f64_mul avg count) (f64_mul smoothMean smoothPrior)) (f64_add count smoothPrior).
Definition ratingCount (agg : option RatingAggregate) : Z := match agg with Some agg => ag_Count agg | None => 0 end.
Definition parsePriceForSort (price : string) : spec_float :=
  if is_empty price then f64_0 else
  match ParseFloat (TrimSpace price) with Ok f => f | Err _ => f64_0 end.
Definition sort_less (sortBy : string) (x y : expandedRecord) : bool :=
  if String.eqb sortBy "updated" then UpdatedAt (ex_rec x) <? UpdatedAt (ex_rec y)
  else if String.eqb sortBy "price"
  then f64_lt (parsePriceForSort (Price (ex_rec x))) (parsePriceForSort (Price (ex_rec y)))
  else
    let sx := smoothedScore (ex_rating x) in
    let sy := smoothedScore (ex_rating y) in
    if f64_eq sx sy then
      let cx := ratingCount (ex_rating x) in
      let cy := ratingCount (ex_rating y) in
      if cx =? cy then UpdatedAt (ex_rec x) <? UpdatedAt (ex_rec y) else cx <? cy
    else f64_lt sx sy.
Definition sortExpanded (items : list expandedRecord) (sortBy order : string) : list expandedRecord :=
  sort_SliceStable (fun x y => let less := sort_less sortBy x y in
                               if String.eqb order "asc" then less else negb less) items.

(** ** Items *)

Record ServiceListItem := mkItem {
  li_Id : string; li_CurrentPinId : string; li_SourceServicePinId : string;
  li_ServiceName : string; li_DisplayName : string; li_Description : string; li_ServiceIcon : string;
  li_ProviderSkill : string; li_OutputType : string; li_Price : string; li_Currency : string;
  li_SettlementKind : string; li_PaymentChain : string; li_MRC20Ticker : option string; li_MRC20Id : option string;
  li_PaymentAddress : string; li_ProviderMetaId : string; li_ProviderGlobalMetaId : string;
  li_ProviderAddress : string; li_ProviderName : string; li_ProviderAvatar : string; li_ProviderAvatarId : string;
  li_ProviderChatPubkey : string; li_RatingAvg : spec_float; li_RatingCount : Z; li_Status : Z;
  li_Operation : string; li_Disabled : bool; li_ChainName : string; li_CreatedAt : Z; li_UpdatedAt : Z }.
Definition toListItem (assetResolver : option string) (exp : expandedRecord) : ServiceListItem :=
  let rec := ex_rec exp in
  let payment := normalisePaymentMetadata rec in
  let '(avg, count) := match ex_rating exp with
                       | Some rating => (Average rating, ag_Count rating)
                       | None => (f64_0, 0)
                       end in
  {| li_Id := CurrentPinId rec; li_CurrentPinId := CurrentPinId rec; li_SourceServicePinId := SourceServicePinId rec;
     li_ServiceName := ServiceName rec; li_DisplayName := DisplayName rec; li_Description := Description rec;
     li_ServiceIcon := ResolveAsset assetResolver (ServiceIcon rec); li_ProviderSkill := ProviderSkill rec;
     li_OutputType := OutputType rec; li_Price := Price rec; li_Currency := pay_currency payment;
     li_SettlementKind := pay_settlementKind payment; li_PaymentChain := pay_paymentChain payment;
     li_MRC20Ticker := pay_mrc20Ticker payment; li_MRC20Id := pay_mrc20Id payment;
     li_PaymentAddress := pay_paymentAddress payment;
     li_ProviderMetaId := firstNonEmpty [ps_MetaId (ex_profile exp); ProviderMetaId rec];
     li_ProviderGlobalMetaId := firstNonEmpty [ps_GlobalMetaId (ex_profile exp); ProviderGlobalMetaId rec];
     li_ProviderAddress := firstNonEmpty [ps_Address (ex_profile exp); ProviderAddress rec];
     li_ProviderName := ps_Name (ex_profile exp);
     li_ProviderAvatar := ResolveAsset assetResolver (ps_Avatar (ex_profile exp));
     li_ProviderAvatarId := ps_AvatarId (ex_profile exp); li_ProviderChatPubkey := ps_ChatPublicKey (ex_profile exp);
     li_RatingAvg := avg; li_RatingCount := count; li_Status := Status rec; li_Operation := Operation rec;
     li_Disabled := Disabled rec; li_ChainName := ChainName rec; li_CreatedAt := CreatedAt rec;
     li_UpdatedAt := UpdatedAt rec |}.
Record ListResult := mkListResult {
  lr_List : list ServiceListItem; lr_NextCursor : string; lr_AggregatedAt : Z; lr_SchemaVersion : string }.
Record HomepageListResult := mkHomepageResult { hr_List : list ServiceListItem; hr_HasMore : bool }.

(** ** Cursors: an offset in a JSON object *)

Context {CJ : JSON Z}.
Definition encodeListCursor (offset : Z) : string := url_encode (bytes_of_string (json_Marshal offset)).
Definition decodeListCursor (cursor : string) : res Z :=
  if is_empty cursor then Ok 0 else
  match url_decode cursor with
  | None => Err "invalid cursor"
  | Some raw => match json_Unmarshal (string_of_bytes raw) with
                | Ok o => Ok o
                | Err _ => Err "invalid cursor"
                end
  end.

(** ** The list *)

Context {St : Type} {KV : KVOps St} {SJ : SkillJSON}.
(** [a.profileLookup], [a.assetResolver] and the clock. *)
Variables (lookup : option ProfileLookup) (assetResolver : option string) (now : Z).

Definition rating_of (rec : ServiceRecord) (s : St) : option RatingAggregate :=
  match (LoadRatingAggregate (ChainName rec) (SourceServicePinId rec) s).1 with Ok agg => agg | Err _ => None end.
Definition expand (s : St) (rec : ServiceRecord) : expandedRecord :=
  mkExpanded rec (ResolveProvider lookup rec) (rating_of rec s).
(** Steps 1 to 3: gather, filter, sort. *)
Definition matching (p : ListParams) (s : St) : res (list expandedRecord) :=
  records <-? (if is_empty (lp_ChainName p) then listAllServices s else listServicesByChain (lp_ChainName p) s) ;;
  let filtered := List.filter (fun rec =>
    (lp_IncludeInactive p || IsVisibleDefault rec) && matchesCurrencyFilter rec (lp_Currency p)
    && matchesOutputTypeFilter rec (lp_OutputType p)) records in
  let expanded := List.filter (fun exp =>
    matchesProviderFilter exp (lp_ProviderGlobalMetaId p) && matchesKeywordFilter exp (lp_Keyword p))
    (map (expand s) filtered) in
  Ok (sortExpanded expanded (lp_SortBy p) (lp_Order p)).
(** Step 4: the offsets of the page. *)
Definition page_bounds (start size n : Z) (cursor : string) : Z * Z :=
  let start := if (start <? 0) || (n <=? start) then if is_empty cursor then 0 else n else start in
  let end_ := start + size in
  (start, if n <? end_ then n else end_).
Definition List_ (p : ListParams) (s : St) : res ListResult :=
  let p := normaliseListParams p in
  expanded <-? matching p s ;;
  start <-? decodeListCursor (lp_Cursor p) ;;
  let n := Z.of_nat (length expanded) in
  let '(start, end_) := page_bounds start (lp_Size p) n (lp_Cursor p) in
  let page := take (Z.to_nat (end_ - start)) (drop (Z.to_nat start) expanded) in
  Ok {| lr_List := map (toListItem assetResolver) page;
        lr_NextCursor := if end_ <? n then encodeListCursor end_ else "";
        lr_AggregatedAt := now; lr_SchemaVersion := "botHubSkillService.v1" |}.
Definition handleList (Query : string -> string) (s : St) : response ListResult :=
  match parseListParams Query with
  | Err e => RespErr 40000 e
  | Ok p =>
      match List_ p s with
      | Err e => if Contains e "invalid cursor" then RespErr 40000 "invalid cursor"
                 else RespErr 50000 "aggregation unavailable"
      | Ok result => RespSuccess result
      end
  end.

(** ** One provider's services *)

Record homepageProviderCandidate := mkCandidate {
  hc_invertedUpdatedAt : string; hc_chainName : string; hc_sourcePinId : string }.
Definition parse_three (rest : string) : option homepageProviderCandidate :=
  match SplitN rest ":" 3 with
  | [a; b; c] => if is_empty a || is_empty b || is_empty c then None else Some (mkCandidate a b c)
  | _ => None
  end.
Definition parseProviderGlobalIndexKey (key prefix : string) : option homepageProviderCandidate :=
  parse_three (TrimPrefix key prefix).
Definition parseHomepageProviderMetaIndexKey (key prefix : string) : option homepageProviderCandidate :=
  parse_three (TrimPrefix key prefix).
Definition parseProviderGlobalChainIndexKey (key prefix chainName : string) : option homepageProviderCandidate :=
  match SplitN (TrimPrefix key prefix) ":" 2 with
  | [a; b] => if is_empty a || is_empty b then None else Some (mkCandidate a chainName b)
  | _ => None
  end.
Definition parseProviderIndexKey (key prefix chainName : string) : option homepageProviderCandidate :=
  let rest := TrimPrefix key prefix in
  if is_empty rest then None else Some (mkCandidate "" chainName rest).
Definition parseAnyProviderIndexKey (key providerMetaId : string) : option homepageProviderCandidate :=
  if negb (HasPrefix key keyServiceByProvider) then None else
  match SplitN (TrimPrefix key keyServiceByProvider) ":" 3 with
  | [a; b; c] => if is_empty a || is_empty b || is_empty c || negb (EqualFold b providerMetaId) then None
                 else Some (mkCandidate "" a c)
  | _ => None
  end.
Definition matchesHomepageProviderGlobalMetaId (rec : ServiceRecord) (profile : ProfileSnapshot) (want : string)
    : bool :=
  if is_empty want then true else EqualFold (ProviderGlobalMetaId rec) want || EqualFold (ps_GlobalMetaId profile) want.
Definition matchesHomepageProviderCandidate (rec : ServiceRecord) (profile : ProfileSnapshot)
    (p : HomepageListParams) (c : homepageProviderCandidate) : bool :=
  EqualFold (ChainName rec) (hc_chainName c) && String.eqb (SourceServicePinId rec) (hc_sourcePinId c)
  && String.eqb (hc_invertedUpdatedAt c) (invertedTimestampHex (UpdatedAt rec))
  && matchesHomepageProviderGlobalMetaId rec profile (hp_ProviderGlobalMetaId p)
  && (is_empty (hp_ChainName p) || EqualFold (ChainName rec) (hp_ChainName p)).
Definition matchesLateHomepageProviderAliasCandidate (rec : ServiceRecord) (profile : ProfileSnapshot)
    (p : HomepageListParams) (c : homepageProviderCandidate) : bool :=
  EqualFold (ChainName rec) (hc_chainName c) && String.eqb (SourceServicePinId rec) (hc_sourcePinId c)
  && (is_empty (hc_invertedUpdatedAt c) || String.eqb (hc_invertedUpdatedAt c) (invertedTimestampHex (UpdatedAt rec)))
  && EqualFold (ProviderMetaId rec) (TrimSpace (ps_MetaId profile))
  && matchesHomepageProviderGlobalMetaId rec profile (hp_ProviderGlobalMetaId p)
  && (is_empty (hp_ChainName p) || EqualFold (ChainName rec) (hp_ChainName p)).
Definition homepageProviderRecordKey (rec : ServiceRecord) : string :=
  ToLower (ChainName rec) +:+ String "000" (SourceServicePinId rec).
Definition lookupHomepageProviderGlobalProfile (providerGlobalMetaId : string) : option ProfileSnapshot :=
  match lookup with
  | None => None
  | Some l =>
      if is_empty providerGlobalMetaId then None else
      match LookupByGlobalMetaId l providerGlobalMetaId with
      | Ok (Some profile) => if is_empty (TrimSpace (ps_MetaId profile)) then None else Some profile
      | _ => None
      end
  end.

(** The records found so far, in a Go map. *)
Notation found := (gmap string expandedRecord).
Open Scope handler_scope.
(** [store.Set] whose error is only logged. *)
Definition try_put (key : string) : M St unit := fun s =>
  match kv_Set s NamespaceService key "" with Ok s => (Ok tt, s) | Err _ => (Ok tt, s) end.
Definition backfillHomepageProviderGlobalIndex (providerGlobalMetaId : string) (rec : ServiceRecord) : M St unit :=
  if is_empty providerGlobalMetaId || (UpdatedAt rec <=? 0) then hret tt else
  try_put (providerGlobalIndexKey providerGlobalMetaId (UpdatedAt rec) (ChainName rec) (SourceServicePinId rec)) ;;;
  try_put (providerGlobalChainIndexKey providerGlobalMetaId (ChainName rec) (UpdatedAt rec) (SourceServicePinId rec)).
(** [loadService] whose error is only logged. *)
Definition candidate_service (c : homepageProviderCandidate) : M St (option ServiceRecord) := fun s =>
  match loadService (hc_chainName c) (hc_sourcePinId c) s with
  | (Ok r, s) => (Ok r, s)
  | (Err _, s) => (Ok None, s)
  end.
Definition candidate_rating (rec : ServiceRecord) : M St (option RatingAggregate) := fun s =>
  match LoadRatingAggregate (ChainName rec) (SourceServicePinId rec) s with
  | (Ok r, s) => (Ok r, s)
  | (Err _, s) => (Ok None, s)
  end.
Definition addHomepageProviderGlobalCandidate (p : HomepageListParams) (records : found)
    (c : homepageProviderCandidate) : M St found :=
  rec <- candidate_service c ;;
  match rec with
  | None => hret records
  | Some rec =>
      let profile := ResolveProvider lookup rec in
      if negb (matchesHomepageProviderCandidate rec profile p c) then hret records
      else if negb (hp_IncludeInactive p) && negb (IsVisibleDefault rec) then hret records
      else
        rating <- candidate_rating rec ;;
        hret (<[homepageProviderRecordKey rec := mkExpanded rec profile rating]> records)
  end.
Definition addLateHomepageProviderAliasCandidate (p : HomepageListParams) (profile : ProfileSnapshot)
    (records : found) (c : homepageProviderCandidate) : M St found :=
  rec <- candidate_service c ;;
  match rec with
  | None => hret records
  | Some rec =>
      if negb (matchesLateHomepageProviderAliasCandidate rec profile p c) then hret records
      else if negb (hp_IncludeInactive p) && negb (IsVisibleDefault rec) then hret records
      else
        rating <- candidate_rating rec ;;
        backfillHomepageProviderGlobalIndex (hp_ProviderGlobalMetaId p) rec ;;;
        hret (<[homepageProviderRecordKey rec := mkExpanded rec profile rating]> records)
  end.
(** [ScanPrefix] over the entries that parse. *)
Fixpoint visit_all (visit : found -> homepageProviderCandidate -> M St found)
    (candidates : list homepageProviderCandidate) (records : found) : M St found :=
  match candidates with
  | [] => hret records
  | c :: candidates => records <- visit records c ;; visit_all visit candidates records
  end.
Definition scan_candidates (prefix : string) (parse : string -> option homepageProviderCandidate)
    : M St (list homepageProviderCandidate) := fun s =>
  match kv_Scan s NamespaceService prefix with
  | Ok es => (Ok (omap (fun e => parse e.1) es), kv_touch s NamespaceService)
  | Err e => (Err e, s)
  end.
Definition scanHomepageProviderCandidates (p : HomepageListParams) : M St (list homepageProviderCandidate) :=
  if is_empty (hp_ChainName p) then
    let prefix := providerGlobalIndexPrefix (hp_ProviderGlobalMetaId p) in
    scan_candidates prefix (fun key => parseProviderGlobalIndexKey key prefix)
  else
    let prefix := providerGlobalChainIndexPrefix (hp_ProviderGlobalMetaId p) (hp_ChainName p) in
    scan_candidates prefix (fun key => parseProviderGlobalChainIndexKey key prefix (hp_ChainName p)).
Definition scanLateHomepageProviderAliasCandidates (p : HomepageListParams) (profile : ProfileSnapshot)
    : M St (list homepageProviderCandidate) :=
  let providerMetaId := TrimSpace (ps_MetaId profile) in
  if is_empty providerMetaId then hret []
  else if is_empty (hp_ChainName p) then
    let prefix := homepageProviderMetaIndexPrefix providerMetaId in
    scan_candidates prefix (fun key => parseHomepageProviderMetaIndexKey key prefix)
  else
    let prefix := providerIndexPrefix (hp_ChainName p) providerMetaId in
    scan_candidates prefix (fun key => parseProviderIndexKey key prefix (hp_ChainName p)).
Definition newest_first (x y : expandedRecord) : bool :=
  let x := ex_rec x in
  let y := ex_rec y in
  if negb (UpdatedAt x =? UpdatedAt y) then UpdatedAt y <? UpdatedAt x
  else if negb (String.eqb (ChainName x) (ChainName y)) then str_lt (ChainName x) (ChainName y)
  else str_lt (SourceServicePinId x) (SourceServicePinId y).
Definition pageHomepageProviderRecords {MO : MapOrder} (records : found) (size : Z) : list expandedRecord * bool :=
  let items := sort_SliceStable newest_first (map_range records).*2 in
  if Z.of_nat (length items) <=? size then (items, false) else (take (Z.to_nat size) items, true).
Definition ListHomepageByProvider {MO : MapOrder} (p : HomepageListParams) : M St HomepageListResult :=
  let p := normaliseHomepageListParams p in
  if is_empty (hp_ProviderGlobalMetaId p) then hret (mkHomepageResult [] false) else
  candidates <- scanHomepageProviderCandidates p ;;
  records <- visit_all (addHomepageProviderGlobalCandidate p) candidates ∅ ;;
  records <- match lookupHomepageProviderGlobalProfile (hp_ProviderGlobalMetaId p) with
             | None => hret records
             | Some profile =>
                 late <- scanLateHomepageProviderAliasCandidates p profile ;;
                 visit_all (addLateHomepageProviderAliasCandidate p profile) late records
             end ;;
  let '(page, hasMore) := pageHomepageProviderRecords records (hp_Size p) in
  hret (mkHomepageResult (map (toListItem assetResolver) page) hasMore).

(** ** One service ([detail.go]) *)

Record ServiceDetail := mkDetail {
  sd_Id : string; sd_CurrentPinId : string; sd_SourceServicePinId : string;
  sd_ServiceName : string; sd_DisplayName : string; sd_Description : string; sd_ServiceIcon : string;
  sd_ProviderSkill : string; sd_OutputType : string; sd_Price : string; sd_Currency : string;
  sd_SettlementKind : string; sd_PaymentChain : string; sd_MRC20Ticker : option string; sd_MRC20Id : option string;
  sd_PaymentAddress : string; sd_Status : Z; sd_Operation : string; sd_Disabled : bool; sd_ChainName : string;
  sd_CreatedAt : Z; sd_UpdatedAt : Z }.
Record DetailProvider := mkProvider {
  dp_MetaId : string; dp_GlobalMetaId : string; dp_Address : string; dp_Name : string; dp_Avatar : string;
  dp_AvatarId : string; dp_ChatPubkey : option string }.
Record DetailParams := mkDetailParams { dt_ServiceID : string; dt_ChainName : string; dt_IDType : string }.
Record DetailResult := mkDetailResult {
  dr_Service : ServiceDetail; dr_Provider : DetailProvider; dr_AggregatedAt : Z; dr_SchemaVersion : string }.
Definition errInvalidIDType : error := "invalid idType".
Definition errAmbiguousLookup : error := "ambiguous serviceId".
Definition normaliseIDType (idType : string) : string :=
  let s := ToLower (TrimSpace idType) in
  if is_empty s || String.eqb s "auto" then "auto"
  else if String.eqb s "currentpinid" then "currentPinId"
  else if String.eqb s "sourceservicepinid" then "sourceServicePinId"
  else "invalid".
Definition recordMatchesID (serviceID idType : string) (rec : ServiceRecord) : bool :=
  if String.eqb idType "sourceServicePinId" then String.eqb (SourceServicePinId rec) serviceID
  else if String.eqb idType "currentPinId" then String.eqb (CurrentPinId rec) serviceID
  else String.eqb (SourceServicePinId rec) serviceID || String.eqb (CurrentPinId rec) serviceID.
Definition findServiceOnChain (chainName serviceID idType : string) : M St (option ServiceRecord) :=
  if String.eqb idType "sourceServicePinId" then loadService chainName serviceID
  else if String.eqb idType "currentPinId" then loadServiceByAnyPinId chainName serviceID
  else
    rec <- loadService chainName serviceID ;;
    match rec with Some rec => hret (Some rec) | None => loadServiceByAnyPinId chainName serviceID end.
Definition FindService (serviceID chainName idType : string) (s : St) : res (option ServiceRecord) :=
  let serviceID := TrimSpace serviceID in
  if is_empty serviceID then Ok None else
  let chainName := ToLower (TrimSpace chainName) in
  let idType := normaliseIDType idType in
  if negb (is_empty chainName) then (findServiceOnChain chainName serviceID idType s).1 else
  records <-? listAllServices s ;;
  match List.filter (recordMatchesID serviceID idType) records with
  | [] => Ok None
  | [rec] => Ok (Some rec)
  | _ => Err errAmbiguousLookup
  end.
Definition toServiceDetail (rec : ServiceRecord) : ServiceDetail :=
  let payment := normalisePaymentMetadata rec in
  {| sd_Id := CurrentPinId rec; sd_CurrentPinId := CurrentPinId rec; sd_SourceServicePinId := SourceServicePinId rec;
     sd_ServiceName := ServiceName rec; sd_DisplayName := DisplayName rec; sd_Description := Description rec;
     sd_ServiceIcon := ResolveAsset assetResolver (ServiceIcon rec); sd_ProviderSkill := ProviderSkill rec;
     sd_OutputType := OutputType rec; sd_Price := Price rec; sd_Currency := pay_currency payment;
     sd_SettlementKind := pay_settlementKind payment; sd_PaymentChain := pay_paymentChain payment;
     sd_MRC20Ticker := pay_mrc20Ticker payment; sd_MRC20Id := pay_mrc20Id payment;
     sd_PaymentAddress := pay_paymentAddress payment; sd_Status := Status rec; sd_Operation := Operation rec;
     sd_Disabled := Disabled rec; sd_ChainName := ChainName rec; sd_CreatedAt := CreatedAt rec;
     sd_UpdatedAt := UpdatedAt rec |}.
Definition toDetailProvider (rec : ServiceRecord) (profile : ProfileSnapshot) : DetailProvider :=
  let pk := TrimSpace (ps_ChatPublicKey profile) in
  {| dp_MetaId := firstNonEmpty [ps_MetaId profile; ProviderMetaId rec];
     dp_GlobalMetaId := firstNonEmpty [ps_GlobalMetaId profile; ProviderGlobalMetaId rec];
     dp_Address := firstNonEmpty [ps_Address profile; ProviderAddress rec];
     dp_Name := ps_Name profile; dp_Avatar := ResolveAsset assetResolver (ps_Avatar profile);
     dp_AvatarId := ps_AvatarId profile; dp_ChatPubkey := some_text pk |}.
Definition Detail (p : DetailParams) (s : St) : res (option DetailResult) :=
  let idType := normaliseIDType (dt_IDType p) in
  if String.eqb idType "invalid" then Err errInvalidIDType else
  rec <-? FindService (dt_ServiceID p) (dt_ChainName p) idType s ;;
  match rec with
  | None => Ok None
  | Some rec =>
      Ok (Some {| dr_Service := toServiceDetail rec;
                  dr_Provider := toDetailProvider rec (ResolveProvider lookup rec);
                  dr_AggregatedAt := now; dr_SchemaVersion := "botHubSkillServiceDetail.v1" |})
  end.
Definition detailErr (e : error) : string :=
  if String.eqb e errInvalidIDType then "invalid idType"
  else if String.eqb e errAmbiguousLookup then "ambiguous serviceId: " +:+ e
  else "aggregation unavailable".
Definition handleDetail (serviceId : string) (Query : string -> string) (s : St) : response DetailResult :=
  let serviceID := TrimSpace serviceId in
  if is_empty serviceID then RespErr 40000 "serviceId required" else
  match Detail (mkDetailParams serviceID (Query "chainName") (Query "idType")) s with
  | Err e => if String.eqb e errInvalidIDType then RespErr 40000 (detailErr e)
             else if String.eqb e errAmbiguousLookup then RespErr 40000 "ambiguous serviceId"
             else RespErr 50000 (detailErr e)
  | Ok None => RespErr 40400 "service not found"
  | Ok (Some result) => RespSuccess result
  end.
End List.
