(* ===== verification/SkillListFacts.v ===== *)
(** * SkillListFacts: walking through the pages of the list

    Following the cursors from the first page ends, and shows every service that
    passes the filters exactly once, whatever the order asked for. *)

From Stdlib Require Import SpecFloat.
From S2P Require Import Prelude GoText Json Storage Aggregator Effects SkillCatalogue SkillService SkillServiceFacts SkillServiceHistory SkillList.

(** The entries of a longer prefix. *)
Lemma prefix_entries_sub m p q :
  prefix_entries m (p +:+ q) = List.filter (fun e => HasPrefix e.1 (p +:+ q)) (prefix_entries m p).
Proof.
  unfold prefix_entries. induction (sorted_entries m) as [|e l IH]; [done|]. cbn. rewrite IH.
  destruct (HasPrefix e.1 p) eqn:Ep; cbn; [done|].
  destruct (HasPrefix e.1 (p +:+ q)) eqn:Eq; [|done].
  rewrite (HasPrefix_trans _ _ _ Eq (HasPrefix_app p q)) in Ep. done.
Qed.

(** The encoding of a cursor payload: an object with an offset. *)
Class CursorJSON `{!JSON Z} := {
  cursor_faithful o : 0 <= o < 2 ^ 63 -> json_faithful o;
  cursor_nonempty o : json_Marshal o <> "" }.

Section Facts.
Context {G : GoLib} {CJ : JSON Z} {CL : CursorJSON} {St : Type} {KV : KVOps St} {KVS : KVStore St} {SJ : SkillJSON}.
Variables (lookup : option ProfileLookup) (assetResolver : option string) (now : Z).
Implicit Types (p : ListParams) (s : St).

Lemma cursor_roundtrip o : 0 <= o < 2 ^ 63 -> decodeListCursor (encodeListCursor o) = Ok o /\ encodeListCursor o <> "".
Proof.
  intros Ho. unfold decodeListCursor, encodeListCursor.
  assert (Hne : url_encode (bytes_of_string (json_Marshal o)) <> "").
  { pose proof (cursor_nonempty o) as H. destruct (json_Marshal o) as [|c r]; [done|]. cbn.
    destruct (bytes_of_string r) as [|b [|d l]]; done. }
  split; [|done]. rewrite (nonempty _ Hne), url_roundtrip by apply bytes_of_string_ok.
  by rewrite string_of_bytes_of_string, json_roundtrip by (by apply cursor_faithful).
Qed.

(** Whether a service is listed, with the profile and rating it is shown with. *)
Definition selected p s (rec : ServiceRecord) : bool :=
  (is_empty (lp_ChainName p) || String.eqb (ChainName rec) (lp_ChainName p))
  && ((lp_IncludeInactive p || IsVisibleDefault rec) && matchesCurrencyFilter rec (lp_Currency p)
      && matchesOutputTypeFilter rec (lp_OutputType p))
  && (matchesProviderFilter (expand lookup s rec) (lp_ProviderGlobalMetaId p)
      && matchesKeywordFilter (expand lookup s rec) (lp_Keyword p)).
Lemma filter_map_filter {A B} (f : A -> B) (P Q : A -> bool) (R : B -> bool) l :
  (forall x, Q x = P x && R (f x)) -> List.filter R (map f (List.filter P l)) = map f (List.filter Q l).
Proof.
  intros H. induction l as [|x l IH]; [done|]. cbn. rewrite H.
  destruct (P x); cbn; [|done]. destruct (R (f x)); cbn; by rewrite IH.
Qed.
Lemma chain_key cat s c i r chain :
  implements cat s -> services cat !! (c, i) = Some r -> no_char ":" chain = true ->
  HasPrefix (table_key keyService c i) (keyService +:+ (chain +:+ ":")) = String.eqb c chain.
Proof.
  intros Hi Hr Hc. unfold table_key. rewrite HasPrefix_app_l.
  pose proof (table_chain _ _ _ _ (im_services _ _ Hi) c i ltac:(by eexists)) as Hcc.
  destruct (String.eqb_spec c chain) as [->|Hne].
  - change (":" +:+ i) with (String ":" i). apply HasPrefix_spec. exists i.
    rewrite sapp_assoc. done.
  - destruct (HasPrefix _ _) eqn:E; [|done]. apply HasPrefix_spec in E as [x E].
    rewrite sapp_assoc in E. change (c +:+ String ":" i = chain +:+ String ":" x) in E.
    apply sep_inj in E as [-> _]; done.
Qed.
Lemma list_chain cat s chain :
  implements cat s -> no_char ":" chain = true ->
  exists l, listServicesByChain chain s = Ok l
    /\ l ≡ₚ List.filter (fun r => String.eqb (ChainName r) chain) (map_to_list (services cat)).*2.
Proof.
  intros Hi Hc. unfold listServicesByChain, scan_json_err. rewrite kv_Scan_ok by apply Hi.
  eexists. split; [done|]. rewrite parse_values_snd, (prefix_entries_sub _ keyService (chain +:+ ":")).
  rewrite (filter_perm _ _ _ (table_entries _ _ _ _ (im_services _ _ Hi))).
  apply reflexive_eq.
  assert (H : forall es, es ⊆ map_to_list (services cat) ->
    omap unmarshal_value (List.filter (fun e => HasPrefix e.1 (keyService +:+ (chain +:+ ":")))
      ((fun e : string * string * ServiceRecord => (table_key keyService e.1.1 e.1.2, json_Marshal e.2)) <$> es))
    = List.filter (fun r => String.eqb (ChainName r) chain) es.*2).
  { induction es as [|[[c i] r] es IH]; intros Hes; [done|]. cbn -[keyService].
    assert (Hr : services cat !! (c, i) = Some r) by (apply elem_of_map_to_list, Hes; by left).
    rewrite (chain_key cat s c i r chain Hi Hr Hc).
    pose proof (wf_services _ (im_wf _ _ Hi) _ _ _ Hr) as Hw. rewrite (ws_chain _ _ _ Hw).
    assert (IH' := IH (fun x Hx => Hes x (list_elem_of_further _ _ _ Hx))).
    destruct (String.eqb c chain); [|done]. cbn. unfold unmarshal_value at 1. cbn [snd].
    rewrite json_roundtrip by (by eapply ws_faithful). by rewrite IH'. }
  apply H. done.
Qed.
Lemma matching_spec cat s p :
  implements cat s -> no_char ":" (lp_ChainName p) = true ->
  exists l, matching lookup p s = Ok l
    /\ l ≡ₚ map (expand lookup s) (List.filter (selected p s) (map_to_list (services cat)).*2).
Proof.
  intros Hi Hc. unfold matching.
  assert (Hrec : exists l, (if is_empty (lp_ChainName p) then listAllServices s else listServicesByChain (lp_ChainName p) s)
     = Ok l /\ l ≡ₚ List.filter (fun r => is_empty (lp_ChainName p) || String.eqb (ChainName r) (lp_ChainName p))
                      (map_to_list (services cat)).*2).
  { destruct (is_empty (lp_ChainName p)).
    - destruct (list_all cat s Hi) as (l & E & Hp). exists l. split; [done|]. rewrite Hp. cbn.
      clear. induction ((map_to_list (services cat)).*2) as [|x l IH]; [done|]. cbn. by rewrite <- IH.
    - by apply list_chain. }
  destruct Hrec as (l & -> & Hp). eexists. split; [done|]. unfold sortExpanded. rewrite sort_perm.
  rewrite (filter_map_filter (expand lookup s) _ (fun rec =>
    (lp_IncludeInactive p || IsVisibleDefault rec) && matchesCurrencyFilter rec (lp_Currency p)
    && matchesOutputTypeFilter rec (lp_OutputType p)
    && (matchesProviderFilter (expand lookup s rec) (lp_ProviderGlobalMetaId p)
        && matchesKeywordFilter (expand lookup s rec) (lp_Keyword p)))) by done.
  apply Permutation_map. rewrite (filter_perm _ _ _ Hp).
  clear. unfold selected. induction ((map_to_list (services cat)).*2) as [|x l IH]; [done|]. cbn.
  destruct (is_empty (lp_ChainName p) || String.eqb (ChainName x) (lp_ChainName p)); cbn; [|done].
  by case_match; rewrite IH.
Qed.

(** ** Pages *)

Definition with_cursor (cursor : string) p : ListParams :=
  mkListParams (lp_Size p) cursor (lp_Keyword p) (lp_Currency p) (lp_ChainName p) (lp_OutputType p)
    (lp_ProviderGlobalMetaId p) (lp_SortBy p) (lp_Order p) (lp_IncludeInactive p).
(** A client that follows the cursors, [fuel] requests at most. *)
Fixpoint walk (fuel : nat) p (cursor : string) s : option (list ServiceListItem) :=
  match fuel with
  | O => None
  | S fuel =>
      match List_ lookup assetResolver now (with_cursor cursor p) s with
      | Err _ => None
      | Ok r => if is_empty (lr_NextCursor r) then Some (lr_List r)
                else (fun rest => lr_List r ++ rest) <$> walk fuel p (lr_NextCursor r) s
      end
  end.
Lemma clamp_size z : 1 <= clampSize z <= 100.
Proof. unfold clampSize, defaultListSize, maxListSize. repeat case_match; lia. Qed.
Lemma matching_cursor cursor p s :
  matching lookup (normaliseListParams (with_cursor cursor p)) s = matching lookup (normaliseListParams p) s.
Proof. done. Qed.
Lemma page_at p s l o cursor :
  matching lookup (normaliseListParams p) s = Ok l -> Z.of_nat (length l) < 2 ^ 62 ->
  0 <= o <= Z.of_nat (length l) -> decodeListCursor cursor = Ok o -> (o = 0 \/ o < Z.of_nat (length l)) ->
  List_ lookup assetResolver now (with_cursor cursor p) s
  = let n := Z.of_nat (length l) in
    let e := o + clampSize (lp_Size p) in
    Ok {| lr_List := map (toListItem assetResolver)
                       (take (Z.to_nat (clampSize (lp_Size p))) (drop (Z.to_nat o) l));
          lr_NextCursor := if e <? n then encodeListCursor e else "";
          lr_AggregatedAt := now; lr_SchemaVersion := "botHubSkillService.v1" |}.
Proof.
  intros Hm Hn Ho Hd Hlt. unfold List_. rewrite matching_cursor, Hm. cbv zeta.
  change (lp_Cursor (normaliseListParams (with_cursor cursor p))) with cursor. rewrite Hd.
  change (lp_Size (normaliseListParams (with_cursor cursor p))) with (clampSize (lp_Size p)).
  pose proof (clamp_size (lp_Size p)) as Hs. set (size := clampSize (lp_Size p)) in *.
  set (n := Z.of_nat (length l)) in *.
  assert (Hb : page_bounds o size n cursor = (o, Z.min n (o + size))).
  { unfold page_bounds. assert (Ez : (o <? 0) || (n <=? o) = (n <=? o)).
    { destruct (Z.ltb_spec o 0); [lia|done]. }
    rewrite Ez. destruct (Z.leb_spec n o).
    - assert (o = 0 /\ n = 0) as [-> ->] by lia.
      destruct (is_empty cursor); cbn; destruct (Z.ltb_spec 0 (0 + size)); f_equal; lia.
    - destruct (Z.ltb_spec n (o + size)); f_equal; lia. }
  rewrite Hb. f_equal. f_equal.
  - f_equal. destruct (Z.le_gt_cases (o + size) n).
    + rewrite Z.min_r by lia. f_equal. lia.
    + rewrite Z.min_l by lia. rewrite !take_ge; [done|..]; rewrite length_drop; lia.
  - destruct (Z.ltb_spec (Z.min n (o + size)) n), (Z.ltb_spec (o + size) n); try lia; [|done].
    f_equal. lia.
Qed.
Lemma walk_from p s l fuel o cursor :
  matching lookup (normaliseListParams p) s = Ok l -> Z.of_nat (length l) < 2 ^ 62 ->
  0 <= o <= Z.of_nat (length l) -> decodeListCursor cursor = Ok o -> (o = 0 \/ o < Z.of_nat (length l)) ->
  (length l - Z.to_nat o < fuel)%nat ->
  walk fuel p cursor s = Some (map (toListItem assetResolver) (drop (Z.to_nat o) l)).
Proof.
  intros Hm Hn. revert o cursor. induction fuel as [|fuel IH]; intros o cursor Ho Hd Hlt Hf; [lia|].
  cbn [walk]. rewrite (page_at p s l o cursor Hm Hn Ho Hd Hlt). cbv zeta. cbn [lr_NextCursor lr_List].
  pose proof (clamp_size (lp_Size p)) as Hs. set (size := clampSize (lp_Size p)) in *.
  destruct (Z.ltb_spec (o + size) (Z.of_nat (length l))) as [Hl|Hl].
  - destruct (cursor_roundtrip (o + size)) as [Hr Hne]; [lia|]. rewrite (nonempty _ Hne).
    rewrite (IH (o + size) _ ltac:(lia) Hr ltac:(by right) ltac:(lia)). cbn. f_equal.
    rewrite <- map_app. f_equal. rewrite Z2Nat.inj_add, <- drop_drop by lia. apply take_drop.
  - cbn [is_empty]. f_equal. f_equal. rewrite take_ge; [done|]. rewrite length_drop. lia.
Qed.

(** C36: A client that follows the cursors of the list sees every stored service
    that passes its filters exactly once, with its provider and rating, and then
    an empty cursor: one request per item and one more are enough, whatever the
    sort key, the order and the page size. *)
Theorem list_pages_cover ds s0 p :
  fresh s0 -> good_all ds -> no_char ":" (ToLower (TrimSpace (lp_ChainName p))) = true ->
  Z.of_nat (length ds) < 2 ^ 62 ->
  let s := deliver ds s0 in
  let q := normaliseListParams p in
  exists records shown : list ServiceRecord,
    listAllServices s = Ok records /\ NoDup (map (fun r => (ChainName r, SourceServicePinId r)) records)
    /\ shown ≡ₚ List.filter (selected q s) records
    /\ walk (S (length shown)) p "" s = Some (map (fun r => toListItem assetResolver (expand lookup s r)) shown).
Proof.
  intros Hf Hg Hc Hn s q. set (cat := catalogue_of ds).
  pose proof (implements_deliver ds s0 Hf Hg) as Hi. fold s cat in Hi.
  destruct (list_all cat s Hi) as (records & Hl & Hp). exists records.
  destruct (matching_spec cat s q Hi Hc) as (l & Hm & Hpl).
  apply Permutation_map_inv in Hpl as (shown & -> & Hsh). exists shown.
  split; [done|]. split.
  { rewrite (Permutation_map _ Hp), (services_keys cat s Hi). apply NoDup_fst_map_to_list. }
  assert (Hshown : shown ≡ₚ List.filter (selected q s) records).
  { rewrite <- Hsh. by apply filter_perm. }
  split; [done|].
  assert (Hsize : (length shown <= length ds)%nat).
  { rewrite <- Hsh. etrans; [apply filter_length_le|]. rewrite length_fmap, length_map_to_list.
    subst cat. rewrite catalogue_runs. etrans; [apply runs_services|]. by rewrite length_map. }
  erewrite (walk_from p s _ _ 0 ""); [|exact Hm|rewrite length_map; lia|lia|done|by left|rewrite length_map; lia].
  change (drop (Z.to_nat 0) (map (expand lookup s) shown)) with (map (expand lookup s) shown).
  f_equal. apply map_map.
Qed.
End Facts.
