(* ===== verification/SkillSample.v ===== *)
(** * SkillSample: services, ratings and lists on concrete pins *)

From S2P Require Import Prelude GoText Json Storage Aggregator Effects SkillService SkillCatalogue SkillServiceFacts SkillServiceHistory SkillList SkillListFacts.
From Stdlib Require Import SpecFloat.

(** * Services and ratings on concrete pins

    A codec of the records for evaluation, and the theorems on the skill service
    applied to a short history. *)

Definition of_bool (b : bool) : tok := TZ (if b then 1 else 0).
Definition service_JSON : JSON ServiceRecord := via_JSON
  (fun r => map TS (service_texts r) ++ map TZ (service_ints r) ++ [of_bool (Disabled r)])
  (fun l => match l with
     | [TS a; TS b; TS c; TS d; TS e; TS f; TS g; TS h; TS i; TS j; TS k; TS l; TS m; TS n; TS o; TS p; TS q;
        TS r; TS s; TS t; TS u; TZ v; TZ w; TZ x; TZ y] =>
         Some (mkService a b c d e f g h i j k l m n o p q r s t v u (y =? 1) w x)
     | _ => None end).
Definition rating_JSON : JSON RatingPin := via_JSON
  (fun r => map TS (rating_texts r) ++ map TZ (rating_ints r))
  (fun l => match l with
     | [TS a; TS b; TS c; TS d; TS e; TS f; TS g; TS h; TS i; TZ j; TZ k] =>
         Some (mkRatingPin a b c d e f g h j i k)
     | _ => None end).
Definition aggregate_JSON : JSON RatingAggregate := via_JSON
  (fun a => [TS (ag_ChainName a); TS (ag_SourceServicePinId a); TZ (ag_Sum a); TZ (ag_Count a)])
  (fun l => match l with [TS a; TS b; TZ c; TZ d] => Some (mkAggregate a b c d) | _ => None end).
(** A service body is its name, a rating body a digit and a service id. *)
#[refine] Definition sample_SkillJSON : SkillJSON :=
  {| json_Service := service_JSON; json_RatingPin := rating_JSON; json_Aggregate := aggregate_JSON;
     unmarshal_summary raw := Ok (mkSummary raw "" "" "" "" "" "" "" "" "" "" "" "" "" false);
     unmarshal_rating raw := match raw with
       | String c id => Ok (mkRatingSummary id "" (Z_of_ascii c - 48) "")
       | "" => Err "unexpected end of JSON input" end;
     text_ok _ := True |}.
Proof.
  - done.
  - intros raw s _. unfold summary_texts. repeat constructor.
  - intros raw s _. repeat constructor.
  - intros r _ _. by destruct r as [? ? ? ? ? ? ? ? ? ? ? ? ? ? ? ? ? ? ? ? ? ? [] ? ?].
  - intros r _ _. by destruct r.
  - intros a _ _. by destruct a.
Defined.
#[local] Existing Instance sample_SkillJSON.
#[local] Existing Instance sample_ops_inst.
#[local] Existing Instance sample_store_inst.

Definition skill_pin (id path op body : string) (time : Z) : PinInscription :=
  mkPin id 0 path "" op body "" "text/plain" "" "" "" "meta-ann" "idq-ann" "addr-ann" "mvc" "" 1 time "" false "" "".
Definition from_block (pin : PinInscription) : delivery := mkDelivery false None pin.
Definition from_mempool (pin : PinInscription) : delivery := mkDelivery true None pin.
Definition offer : PinInscription := skill_pin "s1" "/protocols/skill-service" "create" "translate" 10.
Definition update : PinInscription := skill_pin "s2" "/protocols/skill-service@s1" "modify" "translator" 20.
Definition withdrawal : PinInscription := skill_pin "s3" "/protocols/skill-service@s2" "revoke" "" 30.
(** A rating by the id of the service and one by the id of its second version. *)
Definition praise : PinInscription := skill_pin "r1" "/protocols/skill-service-rate" "create" "5s1" 40.
Definition critique : PinInscription := skill_pin "r2" "/protocols/skill-service-rate" "create" "2s2" 50.

Ltac good_pin := split; [done|vm_compute; intuition congruence|repeat constructor].
Lemma good_offer : good_pin offer. Proof. good_pin. Qed.
Lemma good_update : good_pin update. Proof. good_pin. Qed.
Lemma good_withdrawal : good_pin withdrawal. Proof. good_pin. Qed.
Lemma good_praise : good_pin praise. Proof. good_pin. Qed.
Lemma good_critique : good_pin critique. Proof. good_pin. Qed.
Ltac all_good := repeat first [apply Forall_nil_2|apply Forall_cons_2;
  [first [exact good_offer|exact good_update|exact good_withdrawal|exact good_praise|exact good_critique]|]].
Lemma empty_fresh : fresh empty_store.
Proof. split; [by split; vm_compute|by vm_compute..]. Qed.

(** The history of the witnesses: the service, a new version, two ratings. *)
Definition history : list delivery :=
  [from_mempool offer; from_block update; from_mempool praise; from_block critique].

Lemma skillservice_refines_witness :
  let s := deliver history empty_store in
  (handle (from_block withdrawal) s).1 = Ok None
  /\ (exists r, (loadServiceByAnyPinId "mvc" "s1" s).1 = Ok (Some r) /\ ServiceName r = "translator")
  /\ (LoadRatingAggregate "mvc" "s1" s).1 = Ok (Some (mkAggregate "mvc" "s1" 7 2)).
Proof.
  destruct (skillservice_refines history (from_block withdrawal) empty_store "mvc" "s1" empty_fresh)
    as (H1 & _ & H2 & H3 & _); [all_good|by vm_compute|done|done|].
  split; [exact H1|]. split.
  - eexists. split; [rewrite H2; vm_compute; reflexivity|vm_compute; reflexivity].
  - rewrite H3. vm_compute. reflexivity.
Defined.

Lemma inscription_acts_once_witness :
  same_view (deliver (history ++ [from_block withdrawal]) empty_store)
    (deliver (history ++ [from_block withdrawal; from_block praise]) empty_store).
Proof.
  apply (inscription_acts_once [from_mempool offer; from_block update] (from_mempool praise)
    [from_block critique; from_block withdrawal] (from_block praise) empty_store empty_fresh).
  - all_good.
  - intros p q Hp Hq _ E.
    repeat (apply elem_of_cons in Hp as [->|Hp]); [..|by apply not_elem_of_nil in Hp];
      repeat (apply elem_of_cons in Hq as [->|Hq]);
      first [by apply not_elem_of_nil in Hq|by vm_compute in E|by split].
  - done.
  - done.
  - intros H. specialize (H NamespaceRate).
    apply (f_equal (fun m : gmap string string => m !! ratingAggKey "mvc" "s1")) in H. vm_compute in H. discriminate.
Defined.

Lemma rating_aggregate_exact_witness :
  exists l : list RatingPin, NoDup (map rp_PinId l) /\ length l = 2%nat /\ foldr Z.add 0 (map rp_Rate l) = 7.
Proof.
  destruct (rating_aggregate_exact (history ++ [from_block praise]) empty_store "mvc" "s1" empty_fresh)
    as (l & Hd & _ & _ & H); [all_good|done|by vm_compute|done|done|].
  exists l. split; [exact Hd|]. destruct l as [|r l]; [vm_compute in H; discriminate|].
  assert (E : (LoadRatingAggregate "mvc" "s1" (deliver (history ++ [from_block praise]) empty_store)).1
    = Ok (Some (mkAggregate "mvc" "s1" 7 2))) by (vm_compute; reflexivity).
  rewrite E in H. injection H as E1 E2. split; [cbn [length] in *; lia|symmetry; exact E1].
Defined.

Definition updated_service : ServiceRecord :=
  Eval vm_compute in match (loadService "mvc" "s1" (deliver history empty_store)).1 with
    | Ok (Some r) => r | _ => newServiceRecord offer (mkSummary "" "" "" "" "" "" "" "" "" "" "" "" "" "" false) "" end.
Lemma revoke_is_terminal_witness :
  exists r', (loadService "mvc" "s1"
      (deliver (history ++ [from_block withdrawal; from_block update; from_block offer]) empty_store)).1 = Ok (Some r')
    /\ IsVisibleDefault r' = false.
Proof.
  apply (revoke_is_terminal history (from_block withdrawal) [from_block update; from_block offer] empty_store
    updated_service empty_fresh); [all_good|done|done|by vm_compute..].
Defined.

(** A rating delivered before its service is stored, and never counted. *)
Example early_rating_lost :
  let ds := [from_block praise; from_block offer; from_block praise] in
  (LoadRatingAggregate "mvc" "s1" (deliver ds empty_store)).1 = Ok None.
Proof. vm_compute. reflexivity. Qed.

(** * The list of services on a short history *)

#[local] Existing Instance sample_SkillJSON.
#[local] Existing Instance sample_ops_inst.
#[local] Existing Instance sample_store_inst.

(** Prices that are small integers, no URLs, and the insertion sort. *)
#[refine] Definition sample_GoLib : GoLib :=
  {| ParseFloat s := match Atoi s with Some z => Ok (f64_of_int z) | None => Err "invalid syntax" end;
     url_HostPath _ := None;
     sort_SliceStable := @SliceStable |}.
Proof.
  - intros A less l. apply SliceStable_perm.
  - done.
Defined.
#[local] Existing Instance sample_GoLib.
Definition offset_JSON : JSON Z :=
  via_JSON (fun o => [TZ o]) (fun l => match l with [TZ o] => Some o | _ => None end).
#[local] Existing Instance offset_JSON.
Lemma offset_cursor : CursorJSON.
Proof. split; [done|]. intros o. cbn. by destruct o. Qed.
#[local] Existing Instance offset_cursor.

(** A second offer, so that there are two pages of one. *)
Definition offer2 : PinInscription := skill_pin "s9" "/protocols/skill-service" "create" "summarise" 15.
Lemma good_offer2 : good_pin offer2. Proof. good_pin. Qed.
Definition one_per_page : ListParams := mkListParams 1 "" "" "" "" "" "" "updated" "asc" false.
Definition names (l : option (list ServiceListItem)) : option (list string) := map li_ServiceName <$> l.

Lemma list_pages_cover_witness :
  names (walk None None 0 3 one_per_page "" (deliver (history ++ [from_block offer2]) empty_store))
  = Some ["summarise"; "translator"]
  /\ exists shown : list ServiceRecord, length shown = 2%nat /\
    walk None None 0 3 one_per_page "" (deliver (history ++ [from_block offer2]) empty_store)
    = Some (map (fun r => toListItem None (expand None (deliver (history ++ [from_block offer2]) empty_store) r)) shown).
Proof.
  split; [vm_compute; reflexivity|].
  destruct (list_pages_cover None None 0 (history ++ [from_block offer2]) empty_store one_per_page empty_fresh)
    as (records & shown & Hl & _ & Hp & Hw).
  - repeat first [apply Forall_nil_2|apply Forall_cons_2;
      [first [exact good_offer|exact good_update|exact good_praise|exact good_critique|exact good_offer2]|]].
  - done.
  - by vm_compute.
  - exists shown. assert (E : length shown = 2%nat).
    { rewrite Hp. vm_compute in Hl. injection Hl as <-. by vm_compute. }
    split; [exact E|]. rewrite E in Hw. exact Hw.
Defined.

(** A service without ratings scores the prior mean. *)
Example unrated_score : smoothedScore None = f64_of_int 4.
Proof. vm_compute. reflexivity. Qed.
(** [6/2 * 2 + 4 * 5) / (2 + 5)] rounded to binary64. *)
Example rated_score :
  smoothedScore (Some (mkAggregate "mvc" "s1" 6 2)) = f64_div (f64_of_int 26) (f64_of_int 7).
Proof. vm_compute. reflexivity. Qed.

(** An old version id is found when the chain is given, and not otherwise. *)
Definition update2 : PinInscription := skill_pin "s5" "/protocols/skill-service@s2" "modify" "polyglot" 60.
Example old_version_found :
  let s := deliver (history ++ [from_block update2]) empty_store in
  ServiceName <$> match FindService "s2" "mvc" "currentPinId" s with Ok r => r | Err _ => None end = Some "polyglot"
  /\ FindService "s2" "" "currentPinId" s = Ok None.
Proof. vm_compute. by split. Qed.
(** The descending comparison puts each of two equal records before the other. *)
Example descending_ties x :
  let less y z := negb (sort_less "updated" y z) in less x x = true.
Proof. cbv zeta. unfold sort_less. cbn [String.eqb]. by rewrite Z.ltb_irrefl. Qed.
