(* ===== verification/PublishedContent.v ===== *)
(** * PublishedContent: user-published content ([internal/aggregator/publishedcontent])

    db.go, process.go, list.go and module.go: one record per content, kept under
    the pin that created it and updated by the pins that modify or revoke it;
    a map from every pin to the source pin; three indexes by publisher, newest
    first; lists. *)

From S2P Require Import Prelude GoText Json Storage Aggregator Effects IdAddress.
From coqutil.Datatypes Require Import RecordSetters.
Import TriangleBracketNotations.

Definition PathSimpleBuzz : string := "/protocols/simplebuzz".
Definition PathMetaApp : string := "/protocols/metaapp".
Definition PathMetaBotSkill : string := "/protocols/metabot-skill".
Definition OperationCreate : string := "create".
Definition OperationModify : string := "modify".
Definition OperationRevoke : string := "revoke".
Definition published_ns : string := "publishedcontent".

(** [PayloadJSON] is a [map[string]any], [None] when nil. *)
Record Record_ := mkRecord {
  SourcePinId : string;
  CurrentPinId : string;
  ChainName : string;
  ProtocolPath : string;
  PublisherGlobalMetaId : string;
  PublisherMetaId : string;
  PublisherAddress : string;
  Operation : string;
  Hidden : bool;
  IsMempool : bool;
  ContentType : string;
  PayloadText : string;
  PayloadJSON : option (list (string * any));
  PayloadExposed : bool;
  CreatedAt : Z;
  UpdatedAt : Z;
  SourceNumber : Z;
  CurrentNumber : Z;
  SourcePath : string;
  CurrentPath : string;
  SourceHost : string;
  CurrentHost : string }.
(** The same fields, copied one by one. *)
Definition SectionItem : Type := Record_.
Definition toSectionItem (rec : Record_) : SectionItem := rec.

Record ListParams := mkListParams {
  lp_ProtocolPath : string;
  lp_ChainName : string;
  lp_GlobalMetaId : string;
  lp_MetaId : string;
  lp_Address : string;
  lp_Size : Z;
  lp_IncludeHidden : bool }.
Record ListResult := mkListResult { lr_Items : list SectionItem; lr_HasMore : bool }.

(** The codec of records, and [json.Unmarshal] into a [map[string]any].  A record
    survives the round trip when its texts are valid UTF-8 and its object does. *)
Definition record_texts (r : Record_) : list string :=
  [SourcePinId r; CurrentPinId r; ChainName r; ProtocolPath r; PublisherGlobalMetaId r;
   PublisherMetaId r; PublisherAddress r; Operation r; ContentType r; PayloadText r; SourcePath r;
   CurrentPath r; SourceHost r; CurrentHost r].
Definition record_ints (r : Record_) : list Z :=
  [CreatedAt r; UpdatedAt r; SourceNumber r; CurrentNumber r].
Class PublishedJSON := {
  json_Record :: JSON Record_;
  unmarshal_object : string -> res (option (list (string * any)));
  text_ok : string -> Prop;
  object_ok : option (list (string * any)) -> Prop;
  text_ok_ascii s : ascii_bytes (bytes_of_string s) -> text_ok s;
  Record_faithful r :
    Forall text_ok (record_texts r) -> object_ok (PayloadJSON r) -> Forall in_i64 (record_ints r) ->
    json_faithful r }.

(** ** Keys ([db.go]) *)

Definition keyRecord : string := "record:".
Definition keyPinToSource : string := "pin_to_source:".
Definition keyByGlobal : string := "by_global:".
Definition keyByMetaId : string := "by_metaid:".
Definition keyByAddress : string := "by_address:".

Definition recordKey (chainName protocolPath sourcePinId : string) : string :=
  keyRecord +:+ chainName +:+ ":" +:+ protocolPath +:+ ":" +:+ sourcePinId.
Definition pinToSourceKey (chainName pinId : string) : string :=
  keyPinToSource +:+ chainName +:+ ":" +:+ pinId.
(** [^uint64(ts)] in sixteen hexadecimal digits. *)
Definition invertedTimestamp (ts : Z) : string := fmt_016x (u64 (Z.lnot ts)).
Definition identityIndexPrefix (prefix protocolPath identity : string) : string :=
  prefix +:+ protocolPath +:+ ":" +:+ identity +:+ ":".
Definition identityIndexKey (prefix protocolPath identity : string) (sortKey : Z)
    (chainName sourcePinId : string) : string :=
  prefix +:+ protocolPath +:+ ":" +:+ identity +:+ ":" +:+ invertedTimestamp sortKey +:+ ":"
  +:+ chainName +:+ ":" +:+ sourcePinId.
Definition byGlobalKey := identityIndexKey keyByGlobal.
Definition byMetaIdKey := identityIndexKey keyByMetaId.
Definition byAddressKey := identityIndexKey keyByAddress.
Definition parseIdentityIndexKey (key prefix : string) : option (string * string) :=
  match SplitN (TrimPrefix key prefix) ":" 3 with
  | [_; chainName; sourcePinId] => Some (chainName, sourcePinId)
  | _ => None
  end.
Definition sortTimestamp (r : Record_) : Z :=
  if String.eqb (ProtocolPath r) PathSimpleBuzz then CreatedAt r
  else if 0 <? UpdatedAt r then UpdatedAt r else CreatedAt r.

(** ** Pins ([process.go]) *)

Definition normaliseOperation (operation : string) : string := ToLower (TrimSpace operation).
Fixpoint firstNonEmpty (values : list string) : string :=
  match values with
  | [] => ""
  | value :: values =>
      let trimmed := TrimSpace value in
      if is_empty trimmed then firstNonEmpty values else trimmed
  end.
Definition isPublishedProtocol (protocolPath : string) : bool :=
  String.eqb protocolPath PathSimpleBuzz || String.eqb protocolPath PathMetaApp
  || String.eqb protocolPath PathMetaBotSkill.
Definition protocolPathFromPinPath (path : string) : string :=
  let base := TrimRightChar "/" (TrimSpace path) in
  let base := match Index base "@" with Some (S at_) => stake (S at_) base | _ => base end in
  ToLower base.
Definition pinTargetFromPath (path : string) : string :=
  match Index path "@" with
  | None => ""
  | Some at_ => TrimChar "/" (TrimSpace (sdrop (at_ + 1) path))
  end.
Definition targetPinID (pin : PinInscription) : string :=
  let candidate := pinTargetFromPath (pin_Path pin) in
  if negb (is_empty candidate) && negb (String.eqb candidate (pin_Id pin)) then candidate else
  let candidate := TrimPrefix (TrimSpace (pin_OriginalId pin)) "@" in
  if negb (is_empty candidate) && negb (String.eqb candidate (pin_Id pin)) then candidate else "".
Definition isBinaryPayload (contentType raw : string) : bool :=
  let ct := ToLower (TrimSpace contentType) in
  existsb (Contains ct) ["octet-stream"; "zip"; "image/"; "audio/"; "video/"]
  || negb (no_char "000" raw).

Record payloadResult := mkPayload {
  pr_text : string; pr_jsonObject : option (list (string * any)); pr_exposed : bool }.
Definition no_payload : payloadResult := mkPayload "" None false.

Definition mergeConfirmedReplayWithPendingCurrent (previous candidate : Record_) (confirmedPinID : string)
    : Record_ :=
  if IsMempool candidate || negb (IsMempool previous) then candidate
  else if is_empty (CurrentPinId previous)
          || String.eqb (CurrentPinId previous) (SourcePinId previous)
          || String.eqb (CurrentPinId previous) confirmedPinID then candidate
  else candidate
    <| CurrentPinId := CurrentPinId previous |>
    <| CurrentNumber := CurrentNumber previous |>
    <| CurrentPath := CurrentPath previous |>
    <| CurrentHost := CurrentHost previous |>
    <| Operation := Operation previous |>
    <| Hidden := Hidden previous |>
    <| IsMempool := true |>
    <| ContentType := ContentType previous |>
    <| PayloadText := PayloadText previous |>
    <| PayloadJSON := PayloadJSON previous |>
    <| PayloadExposed := PayloadExposed previous |>
    <| UpdatedAt := UpdatedAt previous |>.

Section PublishedContent.
Context {St : Type} {KV : KVOps St} {PJ : PublishedJSON} {B58 : Base58}.
Open Scope handler_scope.

Definition extractPayload (pin : PinInscription) : payloadResult :=
  let raw := TrimSpace (pin_ContentBody pin) in
  let raw := if is_empty raw then TrimSpace (pin_ContentSummary pin) else raw in
  if is_empty raw || isBinaryPayload (pin_ContentType pin) raw then no_payload else
  let plain := mkPayload raw None true in
  if HasPrefix raw "{" then
    match unmarshal_object raw with
    | Ok (Some obj) => mkPayload "" (Some obj) true
    | _ => plain
    end
  else plain.

Definition canonicalPublisherGlobalMetaId (pin : PinInscription) : string :=
  let globalMetaId := TrimSpace (pin_GlobalMetaId pin) in
  let address := firstNonEmpty [pin_Address pin; pin_CreateAddress pin] in
  if is_empty address then globalMetaId
  else if negb (is_empty globalMetaId) && negb (EqualFold globalMetaId address) then globalMetaId
  else
    let encoded := EncodeGlobalMetaId address (pin_ChainName pin) in
    if is_empty encoded then globalMetaId else encoded.

Definition newRecordFromPin (pin : PinInscription) (protocolPath sourcePinId : string) (isMempool : bool)
    : Record_ :=
  let payload := extractPayload pin in
  let operation := normaliseOperation (pin_Operation pin) in
  {| SourcePinId := sourcePinId;
     CurrentPinId := pin_Id pin;
     ChainName := ToLower (TrimSpace (pin_ChainName pin));
     ProtocolPath := protocolPath;
     PublisherGlobalMetaId := canonicalPublisherGlobalMetaId pin;
     PublisherMetaId := firstNonEmpty [pin_MetaId pin; pin_CreateMetaId pin];
     PublisherAddress := firstNonEmpty [pin_Address pin; pin_CreateAddress pin];
     Operation := operation;
     Hidden := String.eqb operation OperationRevoke;
     IsMempool := isMempool;
     ContentType := pin_ContentType pin;
     PayloadText := pr_text payload;
     PayloadJSON := pr_jsonObject payload;
     PayloadExposed := pr_exposed payload;
     CreatedAt := pin_Timestamp pin;
     UpdatedAt := pin_Timestamp pin;
     SourceNumber := pin_Number pin;
     CurrentNumber := pin_Number pin;
     SourcePath := pin_Path pin;
     CurrentPath := pin_Path pin;
     SourceHost := pin_Host pin;
     CurrentHost := pin_Host pin |}.

(** ** Records ([db.go])

    The first access opens the namespace ([kv_touch]), without which a [Delete]
    does nothing. *)

Definition read_record (chainName protocolPath sourcePinId : string) (s : St) : res (option Record_) :=
  if is_empty chainName || is_empty protocolPath || is_empty sourcePinId
  then Err "loadRecord: chainName, protocolPath and sourcePinId required"
  else match kv_Get s published_ns (recordKey chainName protocolPath sourcePinId) with
       | Ok (Some raw) =>
           match json_Unmarshal raw with
           | Ok rec => Ok (Some rec)
           | Err _ => Err "loadRecord: corrupt record"
           end
       | _ => Ok None
       end.
Definition loadRecord (chainName protocolPath sourcePinId : string) : M St (option Record_) :=
  fun s => let s := kv_touch s published_ns in (read_record chainName protocolPath sourcePinId s, s).

(** [i < 32]. *)
Fixpoint source_loop (fuel : nat) (chainName current : string) (seen : list string) (s : St) : string :=
  match fuel with
  | O => ""
  | S fuel =>
      if bool_decide (current ∈ seen) then "" else
      match kv_Get s published_ns (pinToSourceKey chainName current) with
      | Ok (Some raw) =>
          let next := TrimSpace raw in
          if is_empty next || String.eqb next current then current
          else source_loop fuel chainName next (current :: seen) s
      | _ => current
      end
  end.
Definition sourcePinIdFor (chainName pinId : string) (s : St) : string :=
  if is_empty chainName || is_empty pinId then "" else source_loop 32 chainName pinId [] s.
Definition loadRecordByAnyPinId (chainName protocolPath anyPinId : string) : M St (option Record_) :=
  fun s =>
    let s := kv_touch s published_ns in
    let sourcePinId := sourcePinIdFor chainName anyPinId s in
    if is_empty sourcePinId then (Ok None, s) else loadRecord chainName protocolPath sourcePinId s.

Definition put : string -> string -> M St unit := kv_put published_ns.
Definition del : string -> M St unit := kv_del published_ns.

Definition mapPinToSource (chainName pinId sourcePinId : string) : M St unit :=
  if is_empty chainName || is_empty pinId || is_empty sourcePinId then hret tt
  else put (pinToSourceKey chainName pinId) sourcePinId.
Definition writeIdentityIndexes (rec : Record_) : M St unit :=
  let sortKey := sortTimestamp rec in
  let key mk identity := mk (ProtocolPath rec) identity sortKey (ChainName rec) (SourcePinId rec) in
  hwhen (negb (is_empty (PublisherGlobalMetaId rec)))
    (put (key byGlobalKey (PublisherGlobalMetaId rec)) "") ;;;
  hwhen (negb (is_empty (PublisherMetaId rec))) (put (key byMetaIdKey (PublisherMetaId rec)) "") ;;;
  hwhen (negb (is_empty (PublisherAddress rec))) (put (key byAddressKey (PublisherAddress rec)) "").
Definition deleteIdentityIndexes (rec : Record_) : M St unit :=
  let sortKey := sortTimestamp rec in
  let key mk identity := mk (ProtocolPath rec) identity sortKey (ChainName rec) (SourcePinId rec) in
  hwhen (negb (is_empty (PublisherGlobalMetaId rec))) (del (key byGlobalKey (PublisherGlobalMetaId rec))) ;;;
  hwhen (negb (is_empty (PublisherMetaId rec))) (del (key byMetaIdKey (PublisherMetaId rec))) ;;;
  hwhen (negb (is_empty (PublisherAddress rec))) (del (key byAddressKey (PublisherAddress rec))).
Definition saveRecord (rec : Record_) (previous : option Record_) : M St unit :=
  if is_empty (ChainName rec) || is_empty (ProtocolPath rec) || is_empty (SourcePinId rec)
  then hfail "saveRecord: missing key fields"
  else
    match previous with Some p => deleteIdentityIndexes p | None => hret tt end ;;;
    put (recordKey (ChainName rec) (ProtocolPath rec) (SourcePinId rec)) (json_Marshal rec) ;;;
    mapPinToSource (ChainName rec) (CurrentPinId rec) (SourcePinId rec) ;;;
    writeIdentityIndexes rec.

(** ** The handlers *)

Definition processCreate (pin : PinInscription) (protocolPath : string) (isMempool : bool) : M St unit :=
  existing <- loadRecord (pin_ChainName pin) protocolPath (pin_Id pin) ;;
  let rec := newRecordFromPin pin protocolPath (pin_Id pin) isMempool in
  match existing with
  | Some ex =>
      if negb isMempool && IsMempool ex
      then saveRecord (mergeConfirmedReplayWithPendingCurrent ex rec (pin_Id pin)) (Some ex)
      else hret tt
  | None => saveRecord rec None
  end.

(** The record a modify pin leaves. *)
Definition modified (pin : PinInscription) (protocolPath : string) (isMempool : bool) (previous : Record_)
    : Record_ :=
  let updated := newRecordFromPin pin protocolPath (SourcePinId previous) isMempool in
  let updated := updated
    <| CreatedAt := CreatedAt previous |>
    <| SourceNumber := SourceNumber previous |>
    <| SourcePath := SourcePath previous |>
    <| SourceHost := SourceHost previous |> in
  let updated := if is_empty (PublisherGlobalMetaId updated)
    then updated <| PublisherGlobalMetaId := PublisherGlobalMetaId previous |> else updated in
  let updated := if is_empty (PublisherMetaId updated)
    then updated <| PublisherMetaId := PublisherMetaId previous |> else updated in
  let updated := if is_empty (PublisherAddress updated)
    then updated <| PublisherAddress := PublisherAddress previous |> else updated in
  let updated := if negb (PayloadExposed updated)
    then updated <| PayloadText := PayloadText previous |>
                 <| PayloadJSON := PayloadJSON previous |>
                 <| PayloadExposed := PayloadExposed previous |> else updated in
  let updated := if String.eqb (Operation previous) OperationRevoke
    then updated <| Operation := OperationRevoke |> <| Hidden := true |> else updated in
  mergeConfirmedReplayWithPendingCurrent previous updated (pin_Id pin).
(** The record a revoke pin leaves. *)
Definition revoked (pin : PinInscription) (isMempool : bool) (previous : Record_) : Record_ :=
  let updated := previous
    <| Operation := OperationRevoke |>
    <| Hidden := true |>
    <| IsMempool := isMempool |>
    <| CurrentPinId := pin_Id pin |>
    <| CurrentNumber := pin_Number pin |>
    <| CurrentPath := pin_Path pin |>
    <| CurrentHost := pin_Host pin |> in
  let updated := if negb (is_empty (pin_ContentType pin))
    then updated <| ContentType := pin_ContentType pin |> else updated in
  let updated := if 0 <? pin_Timestamp pin
    then updated <| UpdatedAt := pin_Timestamp pin |> else updated in
  mergeConfirmedReplayWithPendingCurrent previous updated (pin_Id pin).

(** The common part of [processModify] and [processRevoke]. *)
Definition process_update (change : Record_ -> Record_) (pin : PinInscription) (protocolPath : string)
    : M St unit :=
  let targetPinId := targetPinID pin in
  if is_empty targetPinId then hret tt else
  previous <- loadRecordByAnyPinId (pin_ChainName pin) protocolPath targetPinId ;;
  match previous with
  | None => hret tt
  | Some previous =>
      saveRecord (change previous) (Some previous) ;;;
      mapPinToSource (pin_ChainName pin) (pin_Id pin) (SourcePinId previous)
  end.
Definition processModify (pin : PinInscription) (protocolPath : string) (isMempool : bool) : M St unit :=
  process_update (modified pin protocolPath isMempool) pin protocolPath.
Definition processRevoke (pin : PinInscription) (protocolPath : string) (isMempool : bool) : M St unit :=
  process_update (revoked pin isMempool) pin protocolPath.

Definition processPin (pin : PinInscription) (isMempool : bool) : M St unit :=
  if is_empty (pin_Id pin) || is_empty (pin_ChainName pin) then hret tt else
  let protocolPath := protocolPathFromPinPath (pin_Path pin) in
  if negb (isPublishedProtocol protocolPath) then hret tt else
  let operation := normaliseOperation (pin_Operation pin) in
  if String.eqb operation OperationCreate then processCreate pin protocolPath isMempool
  else if String.eqb operation OperationModify then processModify pin protocolPath isMempool
  else if String.eqb operation OperationRevoke then processRevoke pin protocolPath isMempool
  else hret tt.

Definition HandleBlockPin (pin : PinInscription) : M St (option NotifyEvent) :=
  processPin pin false ;;; hret None.
Definition HandleMempoolPin (pin : PinInscription) : M St (option NotifyEvent) :=
  processPin pin true ;;; hret None.

(** ** Lists ([list.go]) *)

Definition defaultListSize : Z := 20.
Definition maxListSize : Z := 100.
Definition normaliseListParams (params : ListParams) : ListParams :=
  let size := if lp_Size params <=? 0 then defaultListSize else lp_Size params in
  {| lp_ProtocolPath := protocolPathFromPinPath (lp_ProtocolPath params);
     lp_ChainName := ToLower (TrimSpace (lp_ChainName params));
     lp_GlobalMetaId := TrimSpace (lp_GlobalMetaId params);
     lp_MetaId := TrimSpace (lp_MetaId params);
     lp_Address := TrimSpace (lp_Address params);
     lp_Size := if maxListSize <? size then maxListSize else size;
     lp_IncludeHidden := lp_IncludeHidden params |}.
Definition hasIdentityFilter (params : ListParams) : bool :=
  negb (is_empty (lp_GlobalMetaId params)) || negb (is_empty (lp_MetaId params))
  || negb (is_empty (lp_Address params)).
(** A filter that is empty matches everything. *)
Definition passes (filter value : string) : bool := is_empty filter || String.eqb value filter.
Definition recordMatches (rec : Record_) (params : ListParams) : bool :=
  passes (lp_ProtocolPath params) (ProtocolPath rec) && passes (lp_ChainName params) (ChainName rec)
  && (lp_IncludeHidden params || negb (Hidden rec))
  && passes (lp_GlobalMetaId params) (PublisherGlobalMetaId rec)
  && passes (lp_MetaId params) (PublisherMetaId rec)
  && passes (lp_Address params) (PublisherAddress rec).

(** The callback of [scanIdentity] over the keys; [errStopScan] ends it. *)
Fixpoint scan_identity_loop (keys : list string) (prefix : string) (params : ListParams) (limit : Z)
    (out : list Record_) (s : St) : res (list Record_) :=
  match keys with
  | [] => Ok out
  | key :: keys =>
      let next := scan_identity_loop keys prefix params limit in
      match parseIdentityIndexKey key prefix with
      | None => next out s
      | Some (chainName, sourcePinId) =>
          if negb (is_empty (lp_ChainName params)) && negb (String.eqb chainName (lp_ChainName params))
          then next out s
          else
            rec <-? read_record chainName (lp_ProtocolPath params) sourcePinId s ;;
            match rec with
            | None => next out s
            | Some rec =>
                if negb (recordMatches rec params) then next out s else
                let out := out ++ [rec] in
                if limit <=? Z.of_nat (length out) then Ok out else next out s
            end
      end
  end.
Definition scanIdentity (prefix : string) (params : ListParams) (limit : Z) (s : St) : res (list Record_) :=
  es <-? kv_Scan s published_ns prefix ;; scan_identity_loop es.*1 prefix params limit [] s.
Definition scanRecords (params : ListParams) (s : St) : res (list Record_) :=
  let prefix := if is_empty (lp_ChainName params) then keyRecord
                else keyRecord +:+ lp_ChainName params +:+ ":" in
  all <-? scan_json_err published_ns prefix s ;;
  Ok (List.filter (fun rec => recordMatches rec params) all).
Definition collectRecords (params : ListParams) (limit : Z) (s : St) : res (list Record_) :=
  let scan keyPrefix identity :=
    scanIdentity (identityIndexPrefix keyPrefix (lp_ProtocolPath params) identity) params limit s in
  if negb (is_empty (lp_GlobalMetaId params)) then scan keyByGlobal (lp_GlobalMetaId params)
  else if negb (is_empty (lp_MetaId params)) then scan keyByMetaId (lp_MetaId params)
  else if negb (is_empty (lp_Address params)) then scan keyByAddress (lp_Address params)
  else scanRecords params s.
Definition newest_less : Record_ -> Record_ -> bool :=
  on_key Z_gt sortTimestamp (on_key str_gt ChainName (on_key str_gt SourcePinId tie)).
Definition List_ (params : ListParams) (s : St) : res ListResult :=
  let params := normaliseListParams params in
  let limit := lp_Size params + 1 in
  records <-? collectRecords params limit s ;;
  let records := if negb (hasIdentityFilter params)
                 then take (Z.to_nat limit) (SliceStable newest_less records) else records in
  let hasMore := lp_Size params <? Z.of_nat (length records) in
  let records := if hasMore then take (Z.to_nat (lp_Size params)) records else records in
  Ok (mkListResult (map toSectionItem records) hasMore).
End PublishedContent.
