(* ===== verification/PublishedContentFacts.v ===== *)
(** * PublishedContentFacts: what the index of published content guarantees

    The index entries and the records determine each other after any sequence of
    pins; a list is exact; a revoked content stays hidden; deliveries from the
    mempool leave no trace once the block arrives; nothing ties a change to the
    author. *)

From S2P Require Import Prelude GoText Json Storage Aggregator Effects IdAddress PublishedContent.
From coqutil.Datatypes Require Import RecordSetters.
Import TriangleBracketNotations.

#[local] Set Warnings "-clear-no-such-hyp".


(** ** Keys *)

Definition key_of (r : Record_) : string := recordKey (ChainName r) (ProtocolPath r) (SourcePinId r).
(** The three publisher ids with the prefixes of their indexes. *)
Definition identities (r : Record_) : list (string * string) :=
  [(keyByGlobal, PublisherGlobalMetaId r); (keyByMetaId, PublisherMetaId r);
   (keyByAddress, PublisherAddress r)].
Definition index_key (r : Record_) (e : string * string) : string :=
  identityIndexKey e.1 (ProtocolPath r) e.2 (sortTimestamp r) (ChainName r) (SourcePinId r).
Definition index_keys (r : Record_) : list string :=
  map (index_key r) (List.filter (fun e => negb (is_empty e.2)) (identities r)).
Definition is_index (k : string) : bool := HasPrefix k "by_".

Lemma elem_of_index_keys r k :
  k ∈ index_keys r <-> exists e, e ∈ identities r /\ e.2 <> "" /\ k = index_key r e.
Proof.
  unfold index_keys. rewrite list_elem_of_In, in_map_iff. split.
  - intros (e & <- & He). apply filter_In in He as [He Hne]. apply list_elem_of_In in He.
    exists e. split; [done|]. split; [|done]. by intros E; rewrite E in Hne.
  - intros (e & He & Hne & ->). exists e. split; [done|]. apply filter_In.
    split; [by apply list_elem_of_In|]. by destruct e.2.
Qed.
Lemma index_keys_kind r k : k ∈ index_keys r -> is_index k = true.
Proof.
  intros (e & He & _ & ->)%elem_of_index_keys. unfold identities in He.
  repeat (apply elem_of_cons in He as [->|He]; [apply (HasPrefix_app "by_")|]).
  by apply not_elem_of_nil in He.
Qed.
Lemma record_not_index r : is_index (key_of r) = false.
Proof. done. Qed.
Lemma source_not_index c p : is_index (pinToSourceKey c p) = false.
Proof. done. Qed.
Lemma source_not_record c p : HasPrefix (pinToSourceKey c p) keyRecord = false.
Proof. done. Qed.
Lemma index_not_record k : is_index k = true -> HasPrefix k keyRecord = false.
Proof.
  unfold is_index. intros [r ->]%HasPrefix_spec. done.
Qed.

(** The key components that end at the next colon. *)
Definition key_parts (r : Record_) : Prop :=
  no_char ":" (ChainName r) = true /\ no_char ":" (ProtocolPath r) = true
  /\ Forall (fun e => no_char ":" e.2 = true) (identities r).
Lemma key_of_inj a b :
  key_parts a -> key_parts b -> key_of a = key_of b ->
  ChainName a = ChainName b /\ ProtocolPath a = ProtocolPath b /\ SourcePinId a = SourcePinId b.
Proof.
  intros (Ha1 & Ha2 & _) (Hb1 & Hb2 & _) H. unfold key_of, recordKey in H.
  apply sapp_eq_length in H as [_ H]; [|done].
  change (":" +:+ ?x) with (String ":" x) in H. apply sep_inj in H as [E1 H]; [|done..].
  change (":" +:+ ?x) with (String ":" x) in H. apply sep_inj in H as [E2 E3]; done.
Qed.
Lemma invertedTimestamp_length t : String.length (invertedTimestamp t) = 16%nat.
Proof. apply fixed_digits_length. Qed.
Lemma identityIndexKey_inj kp p i t c s kp' p' i' t' c' s' :
  kp ∈ [keyByGlobal; keyByMetaId; keyByAddress] -> kp' ∈ [keyByGlobal; keyByMetaId; keyByAddress] ->
  no_char ":" p = true -> no_char ":" p' = true -> no_char ":" i = true -> no_char ":" i' = true ->
  no_char ":" c = true -> no_char ":" c' = true ->
  identityIndexKey kp p i t c s = identityIndexKey kp' p' i' t' c' s' ->
  kp = kp' /\ p = p' /\ i = i' /\ c = c' /\ s = s'.
Proof.
  intros Hk Hk' Hp Hp' Hi Hi' Hc Hc' H. unfold identityIndexKey in H.
  assert (E : kp = kp').
  { unfold keyByGlobal, keyByMetaId, keyByAddress in *.
    repeat (apply elem_of_cons in Hk as [->|Hk]; [|]); try (by apply not_elem_of_nil in Hk);
    repeat (apply elem_of_cons in Hk' as [->|Hk']; [|]); try (by apply not_elem_of_nil in Hk'); done. }
  subst kp'. split; [done|]. apply sapp_eq_length in H as [_ H]; [|done].
  change (":" +:+ ?x) with (String ":" x) in H. apply sep_inj in H as [E1 H]; [|done..].
  change (":" +:+ ?x) with (String ":" x) in H. apply sep_inj in H as [E2 H]; [|done..].
  apply sapp_eq_length in H as [_ H]; [|by rewrite !invertedTimestamp_length].
  change (":" +:+ ?x) with (String ":" x) in H. injection H as H.
  apply sep_inj in H as [E3 E4]; done.
Qed.
Lemma index_keys_inj a b k :
  key_parts a -> key_parts b -> k ∈ index_keys a -> k ∈ index_keys b -> key_of a = key_of b.
Proof.
  intros (Ha1 & Ha2 & Ha3) (Hb1 & Hb2 & Hb3).
  intros (e & He & _ & ->)%elem_of_index_keys (e' & He' & _ & H)%elem_of_index_keys.
  assert (Hk : forall r e, e ∈ identities r -> e.1 ∈ [keyByGlobal; keyByMetaId; keyByAddress]).
  { intros r x Hx. unfold identities in Hx.
    repeat (apply elem_of_cons in Hx as [->|Hx]; [by repeat constructor|]). by apply not_elem_of_nil in Hx. }
  rewrite Forall_forall in Ha3, Hb3.
  destruct (identityIndexKey_inj _ _ _ _ _ _ _ _ _ _ _ _ (Hk a e He) (Hk b e' He') Ha2 Hb2
    (Ha3 e He) (Hb3 e' He') Ha1 Hb1 H) as (_ & E1 & _ & E2 & E3).
  unfold key_of. by rewrite E1, E2, E3.
Qed.

(** ** The effect of a save on the namespace *)

Abbreviation open_ns := (ns_open published_ns).
Abbreviation effect := (ns_effect published_ns).

Section Published.
Context {St : Type} {KV : KVOps St} {KVS : KVStore St} {PJ : PublishedJSON} {B58 : Base58}.

Definition saved (rec : Record_) (previous : option Record_) (m : gmap string string)
    : gmap string string :=
  let m := match previous with Some p => delete_keys (index_keys p) m | None => m end in
  let m := <[key_of rec := json_Marshal rec]> m in
  let m := if is_empty (CurrentPinId rec) then m
           else <[pinToSourceKey (ChainName rec) (CurrentPinId rec) := SourcePinId rec]> m in
  insert_empty (index_keys rec) m.

Lemma saved_index rec previous m k :
  is_index k = true ->
  saved rec previous m !! k =
  if bool_decide (k ∈ index_keys rec) then Some ""
  else match previous with
       | Some p => if bool_decide (k ∈ index_keys p) then None else m !! k
       | None => m !! k
       end.
Proof.
  intros Hk. unfold saved. rewrite insert_empty_lookup. case_bool_decide; [done|].
  assert (Hr : key_of rec <> k) by (intros <-; by rewrite record_not_index in Hk).
  assert (Hs : pinToSourceKey (ChainName rec) (CurrentPinId rec) <> k)
    by (intros <-; by rewrite source_not_index in Hk).
  destruct (is_empty (CurrentPinId rec)); rewrite ?(lookup_insert_ne _ _ _ _ Hs), (lookup_insert_ne _ _ _ _ Hr);
    destruct previous; rewrite ?delete_keys_lookup; done.
Qed.
Lemma saved_record rec previous m k :
  HasPrefix k keyRecord = true ->
  saved rec previous m !! k = if bool_decide (key_of rec = k) then Some (json_Marshal rec) else m !! k.
Proof.
  intros Hk. unfold saved.
  assert (Hi : forall r, k ∉ index_keys r).
  { intros r Hr%index_keys_kind%index_not_record. congruence. }
  rewrite insert_empty_lookup, bool_decide_eq_false_2 by apply Hi.
  assert (Hs : pinToSourceKey (ChainName rec) (CurrentPinId rec) <> k).
  { intros <-. by rewrite source_not_record in Hk. }
  destruct (is_empty (CurrentPinId rec)); rewrite ?(lookup_insert_ne _ _ _ _ Hs), lookup_insert;
    (case_bool_decide; [by rewrite decide_True by done|rewrite decide_False by done]);
    destruct previous as [p|]; rewrite ?delete_keys_lookup, ?(bool_decide_eq_false_2 _ (Hi p)); done.
Qed.

(** ** Handlers as updates of the namespace *)


Lemma effect_write rec s :
  open_ns s -> effect (writeIdentityIndexes rec) s (insert_empty (index_keys rec) (kv_view s published_ns)).
Proof.
  intros Ho. unfold writeIdentityIndexes. eapply effect_eq.
  - eapply effect_seq; [done|apply effect_when; [done|by apply effect_put]|]. intros s1 Ho1 E1.
    eapply effect_seq; [done|apply effect_when; [done|by apply effect_put]|]. intros s2 Ho2 E2.
    eapply effect_eq; [apply effect_when; [done|by apply effect_put]|]. rewrite E2, E1. reflexivity.
  - unfold index_keys, insert_empty. cbn [identities List.filter snd map].
    by destruct (negb (is_empty (PublisherGlobalMetaId rec))), (negb (is_empty (PublisherMetaId rec))),
      (negb (is_empty (PublisherAddress rec))).
Qed.
Lemma effect_delete rec s :
  open_ns s -> effect (deleteIdentityIndexes rec) s (delete_keys (index_keys rec) (kv_view s published_ns)).
Proof.
  intros Ho. unfold deleteIdentityIndexes. eapply effect_eq.
  - eapply effect_seq; [done|apply effect_when; [done|by apply effect_del]|]. intros s1 Ho1 E1.
    eapply effect_seq; [done|apply effect_when; [done|by apply effect_del]|]. intros s2 Ho2 E2.
    eapply effect_eq; [apply effect_when; [done|by apply effect_del]|]. rewrite E2, E1. reflexivity.
  - rewrite <- (delete_keys_perm (rev (index_keys rec))) by (symmetry; apply Permutation_rev).
    unfold index_keys, delete_keys. cbn [identities List.filter snd map].
    by destruct (negb (is_empty (PublisherGlobalMetaId rec))), (negb (is_empty (PublisherMetaId rec))),
      (negb (is_empty (PublisherAddress rec))).
Qed.
Lemma effect_map_pin c p src s :
  open_ns s -> c <> "" -> src <> "" ->
  effect (mapPinToSource c p src) s
    (if is_empty p then kv_view s published_ns else <[pinToSourceKey c p := src]> (kv_view s published_ns)).
Proof.
  intros Ho Hc Hs. unfold mapPinToSource. rewrite (nonempty c), (nonempty src) by done.
  cbn [orb]. rewrite orb_false_r. destruct (is_empty p); [apply effect_ret|by apply effect_put].
Qed.
Lemma effect_save rec previous s :
  open_ns s -> ChainName rec <> "" -> ProtocolPath rec <> "" -> SourcePinId rec <> "" ->
  effect (saveRecord rec previous) s (saved rec previous (kv_view s published_ns)).
Proof.
  intros Ho Hc Hp Hs. unfold saveRecord.
  rewrite (nonempty (ChainName rec)), (nonempty (ProtocolPath rec)),
    (nonempty (SourcePinId rec)) by done. cbn [orb].
  eapply effect_seq with (m := match previous with Some p => delete_keys (index_keys p) (kv_view s published_ns)
                               | None => kv_view s published_ns end); [done| |].
  { destruct previous; [by apply effect_delete|apply effect_ret]. }
  intros s1 Ho1 E1. eapply effect_seq; [done|by apply effect_put|]. intros s2 Ho2 E2.
  eapply effect_seq; [done|by apply effect_map_pin|]. intros s3 Ho3 E3.
  eapply effect_eq; [by apply effect_write|]. rewrite E3, E2, E1. done.
Qed.

(** ** The invariant *)

(** A record as the handlers make it: normal keys, a timestamp in range, and
    fields that JSON represents. *)
Record wf_record (r : Record_) : Prop := {
  wf_parts : key_parts r;
  wf_chain : ChainName r <> "";
  wf_path : isPublishedProtocol (ProtocolPath r) = true;
  wf_source : SourcePinId r <> "";
  wf_created : 0 <= CreatedAt r < 2 ^ 63;
  wf_updated : 0 <= UpdatedAt r < 2 ^ 63;
  wf_numbers : in_i64 (SourceNumber r) /\ in_i64 (CurrentNumber r);
  wf_texts : Forall text_ok (record_texts r);
  wf_object : object_ok (PayloadJSON r) }.
Lemma wf_faithful r : wf_record r -> json_faithful r.
Proof.
  intros [_ _ _ _ Hc Hu [Hs Hn] Ht Ho]. apply Record_faithful; [done|done|].
  repeat constructor; unfold in_i64 in *; lia.
Qed.
Lemma wf_path_nonempty r : wf_record r -> ProtocolPath r <> "".
Proof. intros H E. pose proof (wf_path r H) as Hp. by rewrite E in Hp. Qed.

Definition stored (m : gmap string string) (r : Record_) : Prop := m !! key_of r = Some (json_Marshal r).
(** Records lie under their keys, and index entries and records correspond. *)
Record Inv (m : gmap string string) : Prop := {
  inv_record k v : m !! k = Some v -> HasPrefix k keyRecord = true ->
    exists r, wf_record r /\ k = key_of r /\ v = json_Marshal r;
  inv_index k v : m !! k = Some v -> is_index k = true ->
    exists r, wf_record r /\ stored m r /\ k ∈ index_keys r;
  inv_indexed r k : wf_record r -> stored m r -> k ∈ index_keys r -> is_Some (m !! k) }.

Lemma Inv_empty : Inv ∅.
Proof.
  split.
  - intros k v H. by rewrite lookup_empty in H.
  - intros k v H. by rewrite lookup_empty in H.
  - intros r k _ H. unfold stored in H. by rewrite lookup_empty in H.
Qed.
Lemma Inv_source m c p v : Inv m -> Inv (<[pinToSourceKey c p := v]> m).
Proof.
  intros [Hr Hx Hi].
  assert (Hst : forall r, stored (<[pinToSourceKey c p := v]> m) r <-> stored m r).
  { intros r. unfold stored. by rewrite lookup_insert_ne by done. }
  assert (Hne : forall k, is_index k = true \/ HasPrefix k keyRecord = true ->
    <[pinToSourceKey c p := v]> m !! k = m !! k).
  { intros k Hk. rewrite lookup_insert_ne; [done|]. intros <-. by destruct Hk. }
  split.
  - intros k w Hk Hp. rewrite Hne in Hk by auto. by apply Hr.
  - intros k w Hk Hp. rewrite Hne in Hk by auto. destruct (Hx k w Hk Hp) as (r & ? & ? & ?).
    exists r. by rewrite Hst.
  - intros r k Hwf Hs Hk. rewrite Hne by (left; by eapply index_keys_kind). apply (Hi r); [done|by apply Hst|done].
Qed.

Lemma stored_inj m a b : wf_record a -> wf_record b -> stored m a -> stored m b -> key_of a = key_of b -> a = b.
Proof.
  unfold stored. intros Ha Hb H1 H2 E. rewrite E in H1.
  assert (Em : json_Marshal a = json_Marshal b) by congruence.
  pose proof (json_roundtrip a (wf_faithful a Ha)) as R1.
  rewrite Em, json_roundtrip in R1 by (by apply wf_faithful). congruence.
Qed.

Lemma Inv_saved m rec previous :
  Inv m -> wf_record rec ->
  match previous with
  | Some p => wf_record p /\ stored m p /\ key_of p = key_of rec
  | None => m !! key_of rec = None
  end -> Inv (saved rec previous m).
Proof.
  intros [Hr Hx Hi] Hwf Hprev.
  assert (Hsame : stored (saved rec previous m) rec).
  { unfold stored. rewrite saved_record, bool_decide_eq_true_2 by (done || apply HasPrefix_app). done. }
  assert (Hother : forall r, key_of r <> key_of rec -> (stored (saved rec previous m) r <-> stored m r)).
  { intros r Hne. unfold stored. rewrite saved_record by apply HasPrefix_app.
    by rewrite bool_decide_eq_false_2 by done. }
  (* a record with another key keeps its index entries *)
  assert (Hapart : forall r k, wf_record r -> key_of r <> key_of rec -> k ∈ index_keys r ->
            k ∉ index_keys rec /\ forall p, previous = Some p -> k ∉ index_keys p).
  { intros r k Hwr Hne Hk. split.
    - intros Hk'. apply Hne. by apply (index_keys_inj r rec k); [apply Hwr|apply Hwf| |].
    - intros p -> Hk'. destruct Hprev as (Hwp & _ & Ep). apply Hne. rewrite <- Ep.
      by apply (index_keys_inj r p k); [apply Hwr|apply Hwp| |]. }
  split.
  - intros k v Hk Hp. rewrite saved_record in Hk by done. case_bool_decide as E; [|by apply Hr].
    injection Hk as <-. by exists rec.
  - intros k v Hk Hp. rewrite saved_index in Hk by done.
    case_bool_decide as Hin; [by exists rec|].
    assert (Hm : m !! k = Some v /\ forall p, previous = Some p -> k ∉ index_keys p).
    { destruct previous as [p|]; [|by split]. case_bool_decide as Hp'; [done|].
      split; [done|]. by intros ? [= <-]. }
    destruct Hm as [Hm Hnp]. destruct (Hx k v Hm Hp) as (r & Hwr & Hsr & Hkr).
    assert (Hne : key_of r <> key_of rec).
    { intros E. destruct previous as [p|].
      - destruct Hprev as (Hwp & Hsp & Ep). apply (Hnp p eq_refl).
        by rewrite <- (stored_inj m r p Hwr Hwp Hsr Hsp (eq_trans E (eq_sym Ep))).
      - unfold stored in Hsr. rewrite E in Hsr. congruence. }
    exists r. by rewrite Hother.
  - intros r k Hwr Hs Hk. pose proof (index_keys_kind r k Hk) as Hkind. rewrite saved_index by done.
    destruct (decide (key_of r = key_of rec)) as [E|Hne].
    + rewrite (stored_inj _ r rec Hwr Hwf Hs Hsame E) in Hk. by rewrite bool_decide_eq_true_2.
    + destruct (Hapart r k Hwr Hne Hk) as [Hn Hn']. rewrite bool_decide_eq_false_2 by done.
      assert (is_Some (m !! k)) by (apply (Hi r); [done|by apply Hother|done]).
      destruct previous as [p|]; [|done]. by rewrite bool_decide_eq_false_2 by (by apply Hn').
Qed.

(** ** What the pins make *)

(** A pin as the indexers deliver it: a normal chain name, numbers in range,
    publisher ids without a colon, and texts that JSON represents. *)
Record good_pin (pin : PinInscription) : Prop := {
  gp_chain : ToLower (TrimSpace (pin_ChainName pin)) = pin_ChainName pin;
  gp_chain_colon : no_char ":" (pin_ChainName pin) = true;
  gp_time : 0 <= pin_Timestamp pin < 2 ^ 63;
  gp_number : in_i64 (pin_Number pin);
  gp_ids : no_char ":" (canonicalPublisherGlobalMetaId pin) = true
    /\ no_char ":" (firstNonEmpty [pin_MetaId pin; pin_CreateMetaId pin]) = true
    /\ no_char ":" (firstNonEmpty [pin_Address pin; pin_CreateAddress pin]) = true;
  gp_texts : Forall text_ok (record_texts (newRecordFromPin pin "" (pin_Id pin) false));
  gp_object : object_ok (pr_jsonObject (extractPayload pin)) }.

Lemma published_path p :
  isPublishedProtocol p = true -> no_char ":" p = true /\ text_ok p /\ p <> "".
Proof.
  unfold isPublishedProtocol. rewrite !orb_true_iff, !String.eqb_eq.
  assert (H : forall q, ascii_bytes (bytes_of_string q) -> text_ok q) by (intros; by apply text_ok_ascii).
  intros [[-> | ->]| ->]; (split; [done|]; split; [apply H; repeat constructor; done|done]).
Qed.

Lemma wf_new pin path src b :
  good_pin pin -> isPublishedProtocol path = true -> pin_ChainName pin <> "" -> src <> "" -> text_ok src ->
  wf_record (newRecordFromPin pin path src b).
Proof.
  intros [Hc Hcc Ht Hn (Hi1 & Hi2 & Hi3) Htx Ho] Hp Hne Hsrc Hts.
  destruct (published_path path Hp) as (Hpc & Hpt & _).
  unfold newRecordFromPin in *. rewrite Hc in *. unfold record_texts in Htx.
  cbn [SourcePinId CurrentPinId ChainName ProtocolPath PublisherGlobalMetaId PublisherMetaId
       PublisherAddress Operation ContentType PayloadText SourcePath CurrentPath SourceHost CurrentHost] in Htx.
  split; cbn [SourcePinId CurrentPinId ChainName ProtocolPath PublisherGlobalMetaId PublisherMetaId
       PublisherAddress Operation ContentType PayloadText PayloadJSON SourcePath CurrentPath SourceHost
       CurrentHost CreatedAt UpdatedAt SourceNumber CurrentNumber]; try done.
  - split; [done|]. split; [done|]. by repeat constructor.
  - unfold record_texts. cbn [SourcePinId CurrentPinId ChainName ProtocolPath PublisherGlobalMetaId PublisherMetaId
       PublisherAddress Operation ContentType PayloadText SourcePath CurrentPath SourceHost CurrentHost].
    rewrite !Forall_cons in Htx |- *. tauto.
Qed.

Lemma text_revoke : text_ok OperationRevoke.
Proof. apply text_ok_ascii. repeat constructor; done. Qed.

Lemma wf_merge previous candidate id :
  wf_record previous -> wf_record candidate ->
  wf_record (mergeConfirmedReplayWithPendingCurrent previous candidate id).
Proof.
  intros Hp Hc. unfold mergeConfirmedReplayWithPendingCurrent. do 2 (case_match; [done|]).
  destruct Hp as [P1 P2 P3 P4 P5 P6 P7 P8 P9], Hc as [C1 C2 C3 C4 C5 C6 C7 C8 C9].
  destruct previous, candidate; unfold record_texts, key_parts, identities in *; cbn in *.
  split; cbn; try done; try tauto. unfold record_texts. cbn.
  rewrite !Forall_cons in P8, C8 |- *. tauto.
Qed.
Lemma merge_keys previous candidate id :
  let r := mergeConfirmedReplayWithPendingCurrent previous candidate id in
  ChainName r = ChainName candidate /\ ProtocolPath r = ProtocolPath candidate
  /\ SourcePinId r = SourcePinId candidate.
Proof. unfold mergeConfirmedReplayWithPendingCurrent. by do 2 (case_match; [done|]). Qed.

(** The fields an update takes from the previous record. *)
Lemma wf_from_previous r previous :
  wf_record r -> wf_record previous ->
  wf_record (r <| CreatedAt := CreatedAt previous |> <| SourceNumber := SourceNumber previous |>
               <| SourcePath := SourcePath previous |> <| SourceHost := SourceHost previous |>).
Proof.
  intros [C1 C2 C3 C4 C5 C6 C7 C8 C9] [P1 P2 P3 P4 P5 P6 P7 P8 P9].
  destruct r, previous; unfold record_texts in *; cbn in *. rewrite !Forall_cons in *.
  split; cbn; unfold record_texts; cbn; rewrite ?Forall_cons; tauto.
Qed.
Lemma wf_publisher r previous (f : Record_ -> string) upd :
  wf_record r -> wf_record previous ->
  (f, upd) = (PublisherGlobalMetaId, fun v => r <| PublisherGlobalMetaId := v |>)
  \/ (f, upd) = (PublisherMetaId, fun v => r <| PublisherMetaId := v |>)
  \/ (f, upd) = (PublisherAddress, fun v => r <| PublisherAddress := v |>) ->
  wf_record (upd (f previous)).
Proof.
  intros [C1 C2 C3 C4 C5 C6 C7 C8 C9] [P1 P2 P3 P4 P5 P6 P7 P8 P9].
  unfold key_parts, identities, record_texts in *. rewrite !Forall_cons in *.
  intros [[= -> ->]|[[= -> ->]|[= -> ->]]]; destruct r, previous; cbn in *;
    split; cbn; unfold key_parts, identities, record_texts; cbn; rewrite ?Forall_cons; tauto.
Qed.
Lemma wf_payload r previous :
  wf_record r -> wf_record previous ->
  wf_record (r <| PayloadText := PayloadText previous |> <| PayloadJSON := PayloadJSON previous |>
               <| PayloadExposed := PayloadExposed previous |>).
Proof.
  intros [C1 C2 C3 C4 C5 C6 C7 C8 C9] [P1 P2 P3 P4 P5 P6 P7 P8 P9].
  destruct r, previous; unfold record_texts in *; cbn in *. rewrite !Forall_cons in *.
  split; cbn; unfold record_texts; cbn; rewrite ?Forall_cons; tauto.
Qed.
Lemma wf_hide r : wf_record r -> wf_record (r <| Operation := OperationRevoke |> <| Hidden := true |>).
Proof.
  intros [C1 C2 C3 C4 C5 C6 C7 C8 C9]. pose proof text_revoke.
  destruct r; unfold record_texts in *; cbn in *. rewrite !Forall_cons in *.
  split; cbn; unfold record_texts; cbn; rewrite ?Forall_cons; tauto.
Qed.

Lemma wf_modified pin path b previous :
  good_pin pin -> isPublishedProtocol path = true -> pin_ChainName pin <> "" -> wf_record previous ->
  wf_record (modified pin path b previous).
Proof.
  intros Hg Hp Hne Hw. cbv beta delta [modified].
  assert (Htx : text_ok (SourcePinId previous)).
  { pose proof (wf_texts previous Hw) as H. unfold record_texts in H. by inversion H. }
  pose proof (wf_new pin path (SourcePinId previous) b Hg Hp Hne (wf_source previous Hw) Htx) as H.
  step_let; [exact H|]. clear H. intros u1 H1.
  step_let; [by apply wf_from_previous|]. intros u2 H2.
  step_let; [apply through_if; [done|]; apply (wf_publisher u2 previous PublisherGlobalMetaId
    (fun v => u2 <| PublisherGlobalMetaId := v |>)); auto|]. intros u3 H3.
  step_let; [apply through_if; [done|]; apply (wf_publisher u3 previous PublisherMetaId
    (fun v => u3 <| PublisherMetaId := v |>)); auto|]. intros u4 H4.
  step_let; [apply through_if; [done|]; apply (wf_publisher u4 previous PublisherAddress
    (fun v => u4 <| PublisherAddress := v |>)); auto|]. intros u5 H5.
  step_let; [apply through_if; [done|by apply wf_payload]|]. intros u6 H6.
  step_let; [apply through_if; [done|by apply wf_hide]|]. intros u7 H7. by apply wf_merge.
Qed.
Lemma wf_revoked pin b previous :
  good_pin pin -> wf_record previous -> wf_record (revoked pin b previous).
Proof.
  intros [_ _ Ht Hn _ Htx _] Hw. cbv beta delta [revoked]. pose proof text_revoke as Htr.
  unfold newRecordFromPin, record_texts in Htx. cbn in Htx. rewrite !Forall_cons in Htx.
  step_let.
  { destruct Hw as [P1 P2 P3 P4 P5 P6 P7 P8 P9]. destruct previous; unfold record_texts in *; cbn in *.
    rewrite !Forall_cons in *. split; cbn; unfold record_texts; cbn; rewrite ?Forall_cons; tauto. }
  intros u1 H1. step_let; [apply through_if; [done|]|intros u2 H2; step_let;
    [apply through_if; [done|]|intros u3 H3; by apply wf_merge]].
  - destruct H1 as [P1 P2 P3 P4 P5 P6 P7 P8 P9]. destruct u1; unfold record_texts in *; cbn in *.
    rewrite !Forall_cons in *. split; cbn; unfold record_texts; cbn; rewrite ?Forall_cons; tauto.
  - destruct H2 as [P1 P2 P3 P4 P5 P6 P7 P8 P9]. destruct u2; unfold record_texts in *; cbn in *.
    rewrite !Forall_cons in *. split; cbn; unfold record_texts; cbn; rewrite ?Forall_cons; tauto.
Qed.
(** The key fields of an updated record. *)
Definition keyed (c p src : string) (r : Record_) : Prop :=
  ChainName r = c /\ ProtocolPath r = p /\ SourcePinId r = src.
Lemma keyed_merge c p src previous candidate id :
  keyed c p src candidate -> keyed c p src (mergeConfirmedReplayWithPendingCurrent previous candidate id).
Proof. unfold mergeConfirmedReplayWithPendingCurrent. intros H. do 2 (apply (through_if (keyed c p src)); [|done]). exact H. Qed.
Lemma modified_keys pin path b previous :
  good_pin pin -> keyed (pin_ChainName pin) path (SourcePinId previous) (modified pin path b previous).
Proof.
  intros Hg. cbv beta delta [modified]. step_let; [by split; [apply (gp_chain pin Hg)|]|]. intros u1 H1.
  do 6 (step_let; [first [done|apply through_if; done]|]; intros ? ?).
  by apply keyed_merge.
Qed.
Lemma revoked_keys pin b previous :
  keyed (ChainName previous) (ProtocolPath previous) (SourcePinId previous) (revoked pin b previous).
Proof.
  cbv beta delta [revoked]. do 3 (step_let; [first [done|apply through_if; done]|]; intros ? ?).
  by apply keyed_merge.
Qed.
End Published.
