(* ===== verification/PublishedContentRuns.v ===== *)
(** * PublishedContentRuns: what pins do to published content

    Reads give the one record of a key; every pin saves at most one record;
    any sequence of pins keeps the records and the indexes in step and none
    fails; a revoked record stays revoked. *)

From S2P Require Import Prelude GoText Json Storage Aggregator Effects IdAddress PublishedContent PublishedContentFacts.
From coqutil.Datatypes Require Import RecordSetters.
Import TriangleBracketNotations.

#[local] Set Warnings "-clear-no-such-hyp".

Section Published.
Context {St : Type} {KV : KVOps St} {KVS : KVStore St} {PJ : PublishedJSON} {B58 : Base58}.

Definition view (s : St) : gmap string string := kv_view s published_ns.
(** A store whose namespace opens and whose contents are in step. *)
Record ready (s : St) : Prop := { ready_ok : kv_ok s published_ns = true; ready_inv : Inv (view s) }.

Lemma touch_ready s :
  ready s -> open_ns (kv_touch s published_ns) /\ view (kv_touch s published_ns) = view s.
Proof.
  intros [Hok Hi]. pose proof (kv_touch_update s published_ns) as Hu. split; [split|].
  - by rewrite (kvu_ok _ _ _ _ Hu).
  - by apply kv_touch_open.
  - apply (kvu_view _ _ _ _ Hu).
Qed.

(** ** Reading *)

Definition holds (m : gmap string string) (c p src : string) (r : Record_) : Prop :=
  wf_record r /\ stored m r /\ keyed c p src r.
Lemma holds_inj m c p src a b : holds m c p src a -> holds m c p src b -> a = b.
Proof.
  intros (Ha & Hsa & E1 & E2 & E3) (Hb & Hsb & F1 & F2 & F3). apply (stored_inj m); try done.
  unfold key_of. congruence.
Qed.
Lemma holds_key m c p src r : holds m c p src r -> m !! recordKey c p src = Some (json_Marshal r).
Proof. intros (_ & Hs & <- & <- & <-). exact Hs. Qed.
Lemma recordKey_inj c p src c' p' src' :
  no_char ":" c = true -> no_char ":" p = true -> no_char ":" c' = true -> no_char ":" p' = true ->
  recordKey c p src = recordKey c' p' src' -> c = c' /\ p = p' /\ src = src'.
Proof.
  intros Hc Hp Hc' Hp' E. unfold recordKey in E. apply sapp_eq_length in E as [_ E]; [|done].
  change (":" +:+ ?x) with (String ":" x) in E. apply sep_inj in E as [-> E]; [|done..].
  change (":" +:+ ?x) with (String ":" x) in E. apply sep_inj in E as [-> ->]; done.
Qed.
Lemma record_at m c p src v :
  Inv m -> no_char ":" c = true -> no_char ":" p = true -> m !! recordKey c p src = Some v ->
  exists r, holds m c p src r /\ v = json_Marshal r.
Proof.
  intros Hi Hc Hp Hk. destruct (inv_record m Hi _ _ Hk) as (r & Hw & Ek & ->); [apply HasPrefix_app|].
  exists r. split; [|done]. split; [done|]. split; [unfold stored; by rewrite <- Ek|].
  destruct (wf_parts r Hw) as (Hrc & Hrp & _). by destruct (recordKey_inj _ _ _ _ _ _ Hc Hp Hrc Hrp Ek) as (-> & -> & ->).
Qed.
(** What a read gives: the one record of the key, or nothing. *)
Definition found (m : gmap string string) (c p src : string) (o : option Record_) : Prop :=
  match o with
  | Some r => holds m c p src r
  | None => m !! recordKey c p src = None
  end.
Lemma read_record_spec s c p src :
  ready s -> no_char ":" c = true -> c <> "" -> isPublishedProtocol p = true -> src <> "" ->
  exists o, read_record c p src s = Ok o /\ found (view s) c p src o.
Proof.
  intros [Hok Hi] Hc Hcne Hp Hs. destruct (published_path p Hp) as (Hpc & _ & Hpne).
  unfold read_record. rewrite (nonempty c), (nonempty p), (nonempty src) by done. cbn [orb].
  rewrite kv_Get_ok by done. destruct (kv_view s published_ns !! _) as [v|] eqn:E; [|by exists None].
  destruct (record_at _ _ _ _ _ Hi Hc Hpc E) as (r & Hr & ->). exists (Some r).
  rewrite json_roundtrip by (by apply wf_faithful, Hr). done.
Qed.
(** The load by any pin of a content, and the state it leaves. *)
Definition at_source (c any : string) (s : St) : string :=
  sourcePinIdFor c any (kv_touch s published_ns).
Lemma loadRecord_spec s c p src :
  ready s -> no_char ":" c = true -> c <> "" -> isPublishedProtocol p = true -> src <> "" ->
  exists o s', loadRecord c p src s = (Ok o, s') /\ found (view s) c p src o
    /\ open_ns s' /\ view s' = view s.
Proof.
  intros Hr Hc Hcne Hp Hs. destruct (touch_ready s Hr) as [Ho Hv].
  destruct (read_record_spec (kv_touch s published_ns) c p src) as (o & E & Hf); try done.
  { split; [apply Ho|rewrite Hv; apply Hr]. }
  exists o, (kv_touch s published_ns). rewrite <- Hv. unfold loadRecord. cbv zeta. by rewrite E.
Qed.
Lemma loadAny_spec s c p any :
  ready s -> no_char ":" c = true -> c <> "" -> isPublishedProtocol p = true ->
  exists o s', loadRecordByAnyPinId c p any s = (Ok o, s')
    /\ (at_source c any s = "" /\ o = None
        \/ at_source c any s <> "" /\ found (view s) c p (at_source c any s) o)
    /\ open_ns s' /\ view s' = view s.
Proof.
  intros Hr Hc Hcne Hp. destruct (touch_ready s Hr) as [Ho Hv].
  unfold loadRecordByAnyPinId. cbv zeta. fold (at_source c any s).
  destruct (decide (at_source c any s = "")) as [->|Hne].
  - exists None, (kv_touch s published_ns). split; [done|]. split; [by left|]. by split.
  - rewrite (nonempty _ Hne).
    destruct (loadRecord_spec (kv_touch s published_ns) c p (at_source c any s)) as (o & s' & E & Hf & Ho' & Hv');
      try done.
    { split; [apply Ho|rewrite Hv; apply Hr]. }
    exists o, s'. rewrite E. rewrite Hv in *. split; [done|]. split; [by right|by rewrite Hv'].
Qed.

(** ** One pin *)

Definition usable (pin : PinInscription) : Prop := pin_ChainName pin <> "" /\ pin_Id pin <> "".
(** What a pin did to the namespace: nothing; or it saved a record, and gave its
    id to the content. *)
Inductive pin_step (pin : PinInscription) (isMempool : bool) (s : St) : gmap string string -> Prop :=
| step_none : pin_step pin isMempool s (view s)
| step_new path :
    usable pin -> isPublishedProtocol path = true ->
    view s !! recordKey (pin_ChainName pin) path (pin_Id pin) = None ->
    pin_step pin isMempool s (saved (newRecordFromPin pin path (pin_Id pin) isMempool) None (view s))
| step_confirm path ex :
    usable pin -> isPublishedProtocol path = true -> isMempool = false -> IsMempool ex = true ->
    holds (view s) (pin_ChainName pin) path (pin_Id pin) ex ->
    pin_step pin isMempool s
      (saved (mergeConfirmedReplayWithPendingCurrent ex (newRecordFromPin pin path (pin_Id pin) false)
                (pin_Id pin)) (Some ex) (view s))
| step_change path previous change :
    usable pin -> isPublishedProtocol path = true ->
    change = modified pin path isMempool \/ change = revoked pin isMempool ->
    normaliseOperation (pin_Operation pin) <> OperationCreate ->
    holds (view s) (pin_ChainName pin) path (at_source (pin_ChainName pin) (targetPinID pin) s) previous ->
    pin_step pin isMempool s
      (<[pinToSourceKey (pin_ChainName pin) (pin_Id pin) := SourcePinId previous]>
         (saved (change previous) (Some previous) (view s))).

Lemma change_ok pin path b previous change c p src m :
  good_pin pin -> pin_ChainName pin <> "" -> isPublishedProtocol path = true ->
  change = modified pin path b \/ change = revoked pin b ->
  c = pin_ChainName pin -> p = path -> holds m c p src previous ->
  wf_record (change previous) /\ keyed c p src (change previous).
Proof.
  intros Hg Hne Hp Hch -> -> (Hw & _ & E1 & E2 & E3). destruct Hch as [-> | ->].
  - split; [by apply wf_modified|]. rewrite <- E3. by apply modified_keys.
  - split; [by apply wf_revoked|]. rewrite <- E1, <- E2, <- E3. by apply revoked_keys.
Qed.

Lemma good_id pin : good_pin pin -> text_ok (pin_Id pin).
Proof. intros H. pose proof (gp_texts pin H) as Ht. by inversion Ht. Qed.
Lemma new_keyed pin path src b :
  good_pin pin -> keyed (pin_ChainName pin) path src (newRecordFromPin pin path src b).
Proof. intros H. by split; [apply (gp_chain pin H)|]. Qed.
Lemma pin_step_inv pin b s m :
  ready s -> good_pin pin -> pin_step pin b s m -> Inv m.
Proof.
  intros [_ Hi] Hg [|path [Hc Hid] Hp Hno|path ex [Hc Hid] Hp _ _ Hex|path previous change [Hc Hid] Hp Hch _ Hprev].
  - done.
  - apply Inv_saved; [done|apply wf_new; try done; by apply good_id|].
    unfold key_of. destruct (new_keyed pin path (pin_Id pin) b Hg) as (-> & -> & ->). done.
  - apply Inv_saved; [done|apply wf_merge; [apply Hex|apply wf_new; try done; by apply good_id]|].
    destruct Hex as (Hw & Hs & E1 & E2 & E3). split; [done|]. split; [done|].
    destruct (keyed_merge (pin_ChainName pin) path (pin_Id pin) ex
      (newRecordFromPin pin path (pin_Id pin) false) (pin_Id pin) (new_keyed pin path _ _ Hg))
      as (F1 & F2 & F3).
    unfold key_of. congruence.
  - apply Inv_source.
    destruct (change_ok pin path b previous change _ _ _ _ Hg Hc Hp Hch eq_refl eq_refl Hprev)
      as (Hw & F1 & F2 & F3).
    destruct Hprev as (Hwp & Hs & E1 & E2 & E3).
    apply Inv_saved; [done|done|]. split; [done|]. split; [done|]. unfold key_of. congruence.
Qed.

(** The namespace after a create pin that finds [o] under its id, and after a
    change pin that finds [o] under its target. *)
Definition created (pin : PinInscription) (path : string) (b : bool) (o : option Record_)
    (m : gmap string string) : gmap string string :=
  match o with
  | Some ex =>
      if negb b && IsMempool ex
      then saved (mergeConfirmedReplayWithPendingCurrent ex (newRecordFromPin pin path (pin_Id pin) b)
                    (pin_Id pin)) (Some ex) m
      else m
  | None => saved (newRecordFromPin pin path (pin_Id pin) b) None m
  end.
Definition changed (pin : PinInscription) (change : Record_ -> Record_) (o : option Record_)
    (m : gmap string string) : gmap string string :=
  match o with
  | Some previous =>
      <[pinToSourceKey (pin_ChainName pin) (pin_Id pin) := SourcePinId previous]>
        (saved (change previous) (Some previous) m)
  | None => m
  end.
Lemma save_exact rec previous s :
  open_ns s -> wf_record rec ->
  exists s', saveRecord rec previous s = (Ok tt, s') /\ open_ns s' /\ view s' = saved rec previous (view s).
Proof.
  intros Ho Hw.
  pose proof (effect_save rec previous s Ho (wf_chain _ Hw) (wf_path_nonempty _ Hw) (wf_source _ Hw)) as He.
  destruct (effect_open _ _ _ Ho He) as [Ho' Hv']. destruct He as (s' & E' & _).
  rewrite E' in *. by exists s'.
Qed.
Lemma create_exact pin path b s :
  ready s -> good_pin pin -> usable pin -> isPublishedProtocol path = true ->
  exists o s', processCreate pin path b s = (Ok tt, s') /\ found (view s) (pin_ChainName pin) path (pin_Id pin) o
    /\ kv_ok s' published_ns = true /\ view s' = created pin path b o (view s).
Proof.
  intros Hr Hg [Hc Hid] Hp. unfold processCreate, hbind.
  destruct (loadRecord_spec s (pin_ChainName pin) path (pin_Id pin) Hr (gp_chain_colon pin Hg) Hc Hp Hid)
    as (o & s1 & E & Hf & Ho & Hv). rewrite E.
  pose proof (wf_new pin path (pin_Id pin) b Hg Hp Hc Hid (good_id pin Hg)) as Hw. cbv zeta.
  exists o. destruct o as [ex|]; unfold created.
  - destruct (negb b && IsMempool ex).
    + destruct (save_exact _ (Some ex) s1 Ho (wf_merge ex _ (pin_Id pin) (proj1 Hf) Hw)) as (s' & E' & Ho' & Hv').
      exists s'. rewrite E', Hv', Hv. by split; [|split; [|split; [apply Ho'|]]].
    + exists s1. by split; [|split; [|split; [apply Ho|]]].
  - destruct (save_exact _ None s1 Ho Hw) as (s' & E' & Ho' & Hv').
    exists s'. rewrite E', Hv', Hv. by split; [|split; [|split; [apply Ho'|]]].
Qed.
(** What the target of a change pin resolves to. *)
Definition target_found (pin : PinInscription) (path : string) (s : St) (o : option Record_) : Prop :=
  let src := at_source (pin_ChainName pin) (targetPinID pin) s in
  (targetPinID pin = "" \/ src = "") /\ o = None
  \/ targetPinID pin <> "" /\ src <> "" /\ found (view s) (pin_ChainName pin) path src o.
Lemma change_exact pin path b change s :
  ready s -> good_pin pin -> usable pin -> isPublishedProtocol path = true ->
  change = modified pin path b \/ change = revoked pin b ->
  exists o s', process_update change pin path s = (Ok tt, s') /\ target_found pin path s o
    /\ kv_ok s' published_ns = true /\ view s' = changed pin change o (view s).
Proof.
  intros Hr Hg [Hc Hid] Hp Hch. unfold process_update, hbind, target_found. cbv zeta.
  destruct (decide (targetPinID pin = "")) as [Et|Et].
  { rewrite Et. exists None, s. split; [done|]. split; [left; auto|]. split; [apply Hr|done]. }
  rewrite (nonempty _ Et).
  destruct (loadAny_spec s (pin_ChainName pin) path (targetPinID pin) Hr (gp_chain_colon pin Hg) Hc Hp)
    as (o & s1 & E & Hf & Ho & Hv). rewrite E. exists o.
  destruct o as [previous|].
  2: { exists s1. split; [done|]. split; [naive_solver|]. split; [apply Ho|done]. }
  destruct Hf as [[_ [=]]|[Hsrc Hf]].
  destruct (change_ok pin path b previous change _ _ _ _ Hg Hc Hp Hch eq_refl eq_refl Hf) as [Hw _].
  destruct (save_exact _ (Some previous) s1 Ho Hw) as (s2 & -> & Ho2 & Hv2).
  destruct (effect_map_pin (pin_ChainName pin) (pin_Id pin) (SourcePinId previous) s2 Ho2 Hc
    (wf_source _ (proj1 Hf))) as (s3 & E3 & Hu).
  exists s3. split; [exact E3|]. split; [by right|]. split; [by rewrite (kvu_ok _ _ _ _ Hu); apply Ho2|].
  unfold view at 1. rewrite (kvu_view _ _ _ _ Hu), (nonempty _ Hid). unfold changed.
  change (kv_view s2 published_ns) with (view s2). by rewrite Hv2, Hv.
Qed.
Lemma created_step pin path b o s :
  usable pin -> isPublishedProtocol path = true -> found (view s) (pin_ChainName pin) path (pin_Id pin) o ->
  pin_step pin b s (created pin path b o (view s)).
Proof.
  intros Hu Hp Hf. destruct o as [ex|]; unfold created; [|by apply step_new].
  destruct b; [constructor|]. cbn [negb andb]. destruct (IsMempool ex) eqn:Em; [|constructor].
  by apply step_confirm.
Qed.
Lemma changed_step pin path b change o s :
  usable pin -> isPublishedProtocol path = true -> change = modified pin path b \/ change = revoked pin b ->
  normaliseOperation (pin_Operation pin) <> OperationCreate -> target_found pin path s o ->
  pin_step pin b s (changed pin change o (view s)).
Proof.
  intros Hu Hp Hch Hop Hf. destruct o as [r|]; unfold changed; [|constructor].
  destruct Hf as [[_ [=]]|(_ & _ & Hf)]. by eapply step_change.
Qed.
Lemma processPin_step pin b s :
  ready s -> good_pin pin ->
  exists s', processPin pin b s = (Ok tt, s') /\ ready s' /\ pin_step pin b s (view s').
Proof.
  intros Hr Hg. unfold processPin.
  assert (Hnone : exists s', (Ok tt : res unit, s) = (Ok tt, s') /\ ready s' /\ pin_step pin b s (view s')).
  { exists s. split; [done|]. split; [done|constructor]. }
  destruct (decide (pin_Id pin = "")) as [->|Hid]; [exact Hnone|].
  destruct (decide (pin_ChainName pin = "")) as [->|Hc]; [by rewrite orb_true_r|].
  rewrite (nonempty _ Hid), (nonempty _ Hc). cbn [orb]. cbv zeta.
  set (path := protocolPathFromPinPath (pin_Path pin)).
  destruct (isPublishedProtocol path) eqn:Hp; [|exact Hnone]. cbn [negb].
  set (op := normaliseOperation (pin_Operation pin)).
  assert (Hend : forall s', kv_ok s' published_ns = true -> pin_step pin b s (view s') ->
            ready s' /\ pin_step pin b s (view s')).
  { intros s' Hok Hs. split; [split; [done|by eapply pin_step_inv]|done]. }
  assert (Hu : usable pin) by done.
  destruct (String.eqb_spec op OperationCreate) as [Eop|Eop].
  { destruct (create_exact pin path b s Hr Hg Hu Hp) as (o & s' & E & Hf & Ho & Hv).
    exists s'. split; [exact E|]. apply Hend; [done|]. rewrite Hv. by apply created_step. }
  destruct (String.eqb op OperationModify).
  { destruct (change_exact pin path b (modified pin path b) s) as (o & s' & E & Hf & Ho & Hv); auto.
    exists s'. split; [exact E|]. apply Hend; [done|]. rewrite Hv. apply (changed_step pin path); auto. }
  destruct (String.eqb op OperationRevoke); [|exact Hnone].
  destruct (change_exact pin path b (revoked pin b) s) as (o & s' & E & Hf & Ho & Hv); auto.
  exists s'. split; [exact E|]. apply Hend; [done|]. rewrite Hv. apply (changed_step pin path); auto.
Qed.

(** ** Runs *)

Definition handle (e : bool * PinInscription) : M St (option NotifyEvent) :=
  if e.1 then HandleMempoolPin e.2 else HandleBlockPin e.2.
(** The state after a sequence of deliveries, [true] for the mempool. *)
Definition run_pins (es : list (bool * PinInscription)) (s : St) : St :=
  foldl (fun s e => (handle e s).2) s es.
Lemma run_app es es' s : run_pins (es ++ es') s = run_pins es' (run_pins es s).
Proof. apply foldl_app. Qed.
Lemma handle_eq e s : handle e s = (r <-? (processPin e.2 e.1 s).1 ;; Ok None, (processPin e.2 e.1 s).2).
Proof.
  destruct e as [[|] pin]; unfold handle, HandleMempoolPin, HandleBlockPin, hbind, hret; cbn [fst snd];
    by destruct (processPin pin _ s) as [[[]|err] s'].
Qed.
Lemma handle_step e s :
  ready s -> good_pin e.2 -> (handle e s).1 = Ok None /\ ready (handle e s).2 /\ pin_step e.2 e.1 s (view (handle e s).2).
Proof.
  intros Hr Hg. rewrite handle_eq. destruct (processPin_step e.2 e.1 s Hr Hg) as (s' & E & Hr' & Hs).
  by rewrite E.
Qed.
Lemma run_ready es s : ready s -> Forall (fun e => good_pin e.2) es -> ready (run_pins es s).
Proof.
  intros Hr Hg. revert s Hr. induction Hg as [|e es Hge Hges IH]; intros s Hr; [done|].
  apply IH. by apply handle_step.
Qed.

(** ** Records stay, and a creation makes one *)

Definition has_record (m : gmap string string) (c p src : string) : Prop := is_Some (m !! recordKey c p src).
Lemma has_saved m rec previous c p src : has_record m c p src -> has_record (saved rec previous m) c p src.
Proof. unfold has_record. rewrite saved_record by apply HasPrefix_app. by case_bool_decide. Qed.
Lemma has_saved_own m rec previous : has_record (saved rec previous m) (ChainName rec) (ProtocolPath rec) (SourcePinId rec).
Proof. unfold has_record. by rewrite saved_record, bool_decide_eq_true_2 by (done || apply HasPrefix_app). Qed.
Lemma record_not_source c p c' p' src : pinToSourceKey c p <> recordKey c' p' src.
Proof.
  intros E. pose proof (source_not_record c p) as H. rewrite E in H. unfold recordKey in H. by rewrite HasPrefix_app in H.
Qed.
Lemma has_step pin b s c p src m : has_record (view s) c p src -> pin_step pin b s m -> has_record m c p src.
Proof.
  intros Hh [|path _ _ _|path ex _ _ _ _ _|path previous change _ _ _ _ _]; [done|by apply has_saved|by apply has_saved|].
  unfold has_record. rewrite lookup_insert_ne by apply record_not_source. by apply has_saved.
Qed.
Lemma has_run es s c p src :
  ready s -> Forall (fun e => good_pin e.2) es -> has_record (view s) c p src -> has_record (view (run_pins es s)) c p src.
Proof.
  intros Hr Hes. revert s Hr. induction Hes as [|e es Hge _ IH]; intros s Hr Hh; [done|].
  destruct (handle_step e s Hr Hge) as (_ & Hr' & Hst). apply IH; [done|]. exact (has_step _ _ _ _ _ _ _ Hh Hst).
Qed.
(** A pin that creates a content of a published protocol. *)
Definition creation (pin : PinInscription) : Prop :=
  usable pin /\ isPublishedProtocol (protocolPathFromPinPath (pin_Path pin)) = true
  /\ normaliseOperation (pin_Operation pin) = OperationCreate.
Lemma creation_step b pin s :
  ready s -> good_pin pin -> creation pin ->
  has_record (view (handle (b, pin) s).2) (pin_ChainName pin) (protocolPathFromPinPath (pin_Path pin)) (pin_Id pin).
Proof.
  intros Hr Hg ([Hc Hid] & Hp & Hop). rewrite handle_eq. cbn [fst snd]. unfold processPin.
  rewrite (nonempty _ Hid), (nonempty _ Hc), Hp, Hop, String.eqb_refl. cbn [orb negb].
  destruct (create_exact pin _ b s Hr Hg (conj Hc Hid) Hp) as (o & s' & -> & Hf & _ & Hv). cbn [snd]. rewrite Hv.
  unfold created. destruct o as [ex|].
  2: { destruct (new_keyed pin (protocolPathFromPinPath (pin_Path pin)) (pin_Id pin) b Hg) as (<- & <- & E).
       rewrite <- E at 4. apply has_saved_own. }
  assert (has_record (view s) (pin_ChainName pin) (protocolPathFromPinPath (pin_Path pin)) (pin_Id pin)) as H
    by (unfold has_record; by rewrite (holds_key _ _ _ _ _ Hf)).
  destruct (negb b && IsMempool ex); [by apply has_saved|done].
Qed.
(** After a run, every creation in it has its record. *)
Lemma run_creations es s b pin :
  ready s -> Forall (fun e => good_pin e.2) es -> (b, pin) ∈ es -> creation pin ->
  exists r, holds (view (run_pins es s)) (pin_ChainName pin) (protocolPathFromPinPath (pin_Path pin)) (pin_Id pin) r.
Proof.
  intros Hr Hes (es1 & es2 & ->)%list_elem_of_split Hc.
  apply Forall_app in Hes as [Hes1 [Hg Hes2]%Forall_cons]. cbn [snd] in Hg.
  pose proof (run_ready es1 s Hr Hes1) as Hr1. destruct (handle_step (b, pin) _ Hr1 Hg) as (_ & Hr2 & _).
  pose proof (creation_step b pin _ Hr1 Hg Hc) as Hh.
  apply (has_run es2 _ _ _ _ Hr2 Hes2) in Hh. pose proof (run_ready es2 _ Hr2 Hes2) as Hr3.
  replace (run_pins (es1 ++ (b, pin) :: es2) s) with (run_pins es2 (handle (b, pin) (run_pins es1 s)).2)
    by (by rewrite run_app).
  destruct Hh as [v Hv], Hc as (_ & Hp & _).
  destruct (record_at _ _ _ _ _ (ready_inv _ Hr3) (gp_chain_colon pin Hg) (proj1 (published_path _ Hp)) Hv) as (r & Hh & _).
  by exists r.
Qed.

Lemma start_ready es s0 :
  kv_ok s0 published_ns = true -> kv_view s0 published_ns = ∅ -> Forall (fun e => good_pin e.2) es ->
  ready (run_pins es s0).
Proof. intros Hok Hv Hg. apply run_ready; [|done]. split; [done|]. unfold view. rewrite Hv. apply Inv_empty. Qed.

(** C30: Whatever good pins a store with an empty namespace receives, from the
    mempool or from blocks, every one is handled without an error; afterwards
    every record reads back under the key made of its chain, protocol and source
    pin, and an index entry exists exactly for each publisher id of each stored
    record, at the record's current timestamp. *)
Theorem published_invariant es e s :
  kv_ok s published_ns = true -> kv_view s published_ns = ∅ ->
  Forall (fun e => good_pin e.2) (es ++ [e]) ->
  (handle e (run_pins es s)).1 = Ok None
  /\ let m := kv_view (run_pins (es ++ [e]) s) published_ns in
     (forall k v, m !! k = Some v -> HasPrefix k keyRecord = true ->
        exists r, k = recordKey (ChainName r) (ProtocolPath r) (SourcePinId r) /\ json_Unmarshal v = Ok r)
     /\ (forall k, is_index k = true ->
           (is_Some (m !! k) <->
            exists r, m !! recordKey (ChainName r) (ProtocolPath r) (SourcePinId r) = Some (json_Marshal r)
              /\ json_faithful r /\ k ∈ index_keys r)).
Proof.
  intros Hok Hv Hg. apply Forall_app in Hg as [Hg He]. apply Forall_inv in He.
  pose proof (start_ready es s Hok Hv Hg) as Hr.
  destruct (handle_step e _ Hr He) as (E & [_ Hi] & _). split; [done|].
  unfold run_pins at 1. rewrite foldl_snoc. cbv zeta. fold (run_pins es s). change (kv_view ?s published_ns) with (view s).
  split.
  - intros k v Hk Hp. destruct (inv_record _ Hi k v Hk Hp) as (r & Hw & -> & ->). exists r.
    split; [done|]. by apply json_roundtrip, wf_faithful.
  - intros k Hk. split.
    + intros [v Hm]. destruct (inv_index _ Hi k v Hm Hk) as (r & Hw & Hs & Hin). exists r.
      split; [exact Hs|]. split; [by apply wf_faithful|done].
    + intros (r & Hs & Hf & Hin).
      destruct (inv_record _ Hi _ _ Hs (HasPrefix_app _ _)) as (r' & Hw & _ & Em).
      assert (Er : r = r').
      { pose proof (json_roundtrip r Hf) as R. rewrite Em, json_roundtrip in R by (by apply wf_faithful).
        congruence. }
      subst r'. by apply (inv_indexed _ Hi r).
Qed.

(** ** A revoked content stays revoked *)

(** A revoked record; while its last change is unconfirmed, that change is not
    the create pin itself. *)
Definition gone (src : string) (r : Record_) : Prop :=
  Operation r = OperationRevoke /\ Hidden r = true
  /\ (IsMempool r = true -> CurrentPinId r <> "" /\ CurrentPinId r <> src).
Lemma gone_merge src previous candidate id :
  gone src previous -> gone src candidate -> gone src (mergeConfirmedReplayWithPendingCurrent previous candidate id).
Proof.
  intros Hp Hc. unfold mergeConfirmedReplayWithPendingCurrent. destruct (IsMempool candidate || _) eqn:E; [done|].
  apply orb_false_iff in E as [_ E]. apply negb_false_iff in E.
  case_match; [done|]. destruct Hp as (H1 & H2 & H3). split; [done|]. split; [done|]. intros _. by apply H3.
Qed.
Lemma gone_confirm src previous candidate :
  gone src previous -> SourcePinId previous = src -> IsMempool previous = true -> IsMempool candidate = false ->
  gone src (mergeConfirmedReplayWithPendingCurrent previous candidate src).
Proof.
  intros (H1 & H2 & H3) Hs Hm Hc. destruct (H3 Hm) as [Hne Hns].
  unfold mergeConfirmedReplayWithPendingCurrent.
  rewrite Hm, Hc, (nonempty _ Hne), Hs. cbn [orb negb].
  apply String.eqb_neq in Hns. rewrite Hns. cbn [orb].
  split; [exact H1|]. split; [exact H2|]. intros _. exact (conj Hne (proj2 (H3 Hm))).
Qed.
(** A property of what is bound, used for the body. *)
Lemma bind_let (P Q : Record_ -> Prop) e (f : Record_ -> Record_) :
  P e -> (forall y, P y -> Q (f y)) -> Q (let y := e in f y).
Proof. intros H1 H2. exact (H2 e H1). Qed.
Ltac bind_let P :=
  match goal with |- ?Q (let y := ?e in @?f y) => apply (bind_let P Q e f); cbv beta end.
Lemma gone_hide src r :
  CurrentPinId r <> "" -> CurrentPinId r <> src ->
  gone src (r <| Operation := OperationRevoke |> <| Hidden := true |>).
Proof. by intros. Qed.
Lemma gone_modified src pin path b previous :
  gone src previous -> pin_Id pin <> "" -> pin_Id pin <> src -> gone src (modified pin path b previous).
Proof.
  intros Hp Hid Hns. cbv beta delta [modified].
  set (P := fun r : Record_ => CurrentPinId r = pin_Id pin).
  bind_let P; [done|]. intros u1 H1. bind_let P; [done|]. intros u2 H2.
  do 3 (bind_let P; [apply (through_if P); done|]; intros ? ?).
  bind_let P; [apply (through_if P); done|]. intros u6 H6.
  bind_let (gone src).
  { rewrite (proj1 Hp), String.eqb_refl. apply gone_hide; unfold P in H6; by rewrite H6. }
  intros u7 H7. by apply gone_merge.
Qed.
Lemma gone_revoked src pin b previous :
  gone src previous \/ IsMempool previous = false \/ b = true \/ CurrentPinId previous = SourcePinId previous ->
  pin_Id pin <> "" -> pin_Id pin <> src -> gone src (revoked pin b previous).
Proof.
  intros Hp Hid Hns. cbv beta delta [revoked].
  set (P := fun r : Record_ => gone src r /\ IsMempool r = b).
  bind_let P.
  { split; [|done]. split; [done|]. by split. }
  intros u1 H1. bind_let P; [by apply (through_if P)|].
  intros u2 H2. bind_let P; [by apply (through_if P)|]. intros u3 [H3 Hm].
  destruct Hp as [Hp|Hp]; [by apply gone_merge|].
  unfold mergeConfirmedReplayWithPendingCurrent. rewrite Hm.
  destruct Hp as [-> |[-> | ->]]; rewrite ?orb_true_r; try done.
  rewrite String.eqb_refl, orb_true_r. by destruct (b || _).
Qed.

Definition gone_in (m : gmap string string) (c p src : string) : Prop :=
  exists r, holds m c p src r /\ gone src r.
Lemma holds_saved m rec previous c p src :
  wf_record rec -> keyed c p src rec -> holds (saved rec previous m) c p src rec.
Proof.
  intros Hw Hk. split; [done|]. split; [|done]. unfold stored.
  by rewrite saved_record, bool_decide_eq_true_2 by (done || apply HasPrefix_app).
Qed.
Lemma holds_saved_ne m rec previous c p src r :
  holds m c p src r -> key_of rec <> key_of r -> holds (saved rec previous m) c p src r.
Proof.
  intros (Hw & Hs & Hk) Hne. split; [done|]. split; [|done]. unfold stored.
  by rewrite saved_record, bool_decide_eq_false_2 by (done || apply HasPrefix_app).
Qed.
Lemma holds_source m k v x c p src r :
  holds m c p src r -> holds (<[pinToSourceKey k v := x]> m) c p src r.
Proof. intros (Hw & Hs & Hk). split; [done|]. split; [|done]. unfold stored. by rewrite lookup_insert_ne. Qed.
Lemma gone_step pin b s c p src m :
  ready s -> good_pin pin -> gone_in (view s) c p src ->
  (normaliseOperation (pin_Operation pin) <> OperationCreate -> pin_Id pin <> src) ->
  pin_step pin b s m -> gone_in m c p src.
Proof.
  intros Hr Hg (r & Hh & Hgone) Hid [|path [Hc Hne] Hp Hno|path ex [Hc Hne] Hp -> Hm Hex
    |path previous change [Hc Hne] Hp Hch Hop Hprev]; [by exists r| | |].
  all: destruct (published_path path Hp) as (Hpc & _).
  all: destruct (wf_parts r (proj1 Hh)) as (Hrc & Hrp & _); destruct Hh as (Hw & Hs & <- & <- & <-).
  - exists r. split; [|done]. apply holds_saved_ne; [done|]. intros E.
    destruct (new_keyed pin path (pin_Id pin) b Hg) as (F1 & F2 & F3).
    unfold stored in Hs. rewrite <- E in Hs. unfold key_of in Hs. rewrite F1, F2, F3 in Hs. congruence.
  - set (cand := newRecordFromPin pin path (pin_Id pin) false).
    pose proof (new_keyed pin path (pin_Id pin) false Hg) as Hk. fold cand in Hk.
    pose proof (keyed_merge _ _ _ ex cand (pin_Id pin) Hk) as Hkm.
    assert (Hwc : wf_record cand) by (apply wf_new; try done; by apply good_id).
    pose proof (wf_merge ex cand (pin_Id pin) (proj1 Hex) Hwc) as Hwm.
    destruct (decide (key_of (mergeConfirmedReplayWithPendingCurrent ex cand (pin_Id pin)) = key_of r)) as [E|E].
    2: { exists r. split; [|done]. by apply holds_saved_ne. }
    destruct (key_of_inj _ _ (wf_parts _ Hwm) (wf_parts r Hw) E) as (E1 & E2 & E3).
    destruct Hkm as (F1 & F2 & F3). rewrite F1 in E1. rewrite F2 in E2. rewrite F3 in E3.
    assert (ex = r) as ->.
    { apply (holds_inj (view s) (pin_ChainName pin) path (pin_Id pin)); [done|]. by split. }
    eexists. split; [apply holds_saved; [exact Hwm|]|].
    + by split; [rewrite F1|split; [rewrite F2|rewrite F3]].
    + rewrite <- E3. apply gone_confirm; [by rewrite E3|done..].
  - destruct (change_ok pin path b previous change _ _ _ _ Hg Hc Hp Hch eq_refl eq_refl Hprev) as (Hwc & F).
    set (src := at_source _ _ _) in *.
    destruct (decide (key_of (change previous) = key_of r)) as [E|E].
    2: { exists r. split; [|done].
         assert (holds (saved (change previous) (Some previous) (view s)) (ChainName r) (ProtocolPath r)
                   (SourcePinId r) r) as (H1 & H2 & H3) by (by apply holds_saved_ne).
         split; [done|]. split; [|done]. unfold stored. by rewrite lookup_insert_ne. }
    destruct (key_of_inj _ _ (wf_parts _ Hwc) (wf_parts r Hw) E) as (E1 & E2 & E3).
    destruct F as (F1 & F2 & F3). rewrite F1 in E1. rewrite F2 in E2. rewrite F3 in E3.
    assert (previous = r) as ->.
    { apply (holds_inj (view s) (pin_ChainName pin) path src); [done|]. by split. }
    exists (change r). split.
    + apply holds_source, holds_saved; [done|]. by split; [rewrite F1|split; [rewrite F2|rewrite F3]].
    + specialize (Hid Hop). destruct Hch as [-> | ->]; [by apply gone_modified|apply gone_revoked; auto].
Qed.
Lemma gone_run es s c p src :
  ready s -> gone_in (view s) c p src ->
  Forall (fun e => good_pin e.2
    /\ (normaliseOperation (pin_Operation e.2) <> OperationCreate -> pin_Id e.2 <> src)) es ->
  gone_in (view (run_pins es s)) c p src.
Proof.
  intros Hr Hg Hes. revert s Hr Hg. induction Hes as [|e es [Hge Hid] _ IH]; intros s Hr Hg; [done|].
  destruct (handle_step e s Hr Hge) as (_ & Hr' & Hst). apply IH; [done|]. exact (gone_step _ _ _ _ _ _ _ Hr Hge Hg Hid Hst).
Qed.

Lemma loaded_found c p any s r :
  ready s -> no_char ":" c = true -> c <> "" -> isPublishedProtocol p = true ->
  (loadRecordByAnyPinId c p any s).1 = Ok (Some r) ->
  at_source c any s <> "" /\ holds (view s) c p (at_source c any s) r.
Proof.
  intros Hr Hc Hne Hp Hl. destruct (loadAny_spec s c p any Hr Hc Hne Hp) as (o & s1 & E & Hf & _).
  rewrite E in Hl. injection Hl as ->. destruct Hf as [[_ [=]]|Hf]. exact Hf.
Qed.
Lemma target_nonempty c p s r : (loadRecordByAnyPinId c p "" s).1 = Ok (Some r) -> False.
Proof.
  unfold loadRecordByAnyPinId, sourcePinIdFor. cbv zeta. by rewrite orb_true_r.
Qed.
(** A revoke pin that finds its content, which has no other change pending or is
    told so by the mempool, revokes it. *)
Lemma revoke_gone b pin s r :
  let path := protocolPathFromPinPath (pin_Path pin) in
  ready s -> good_pin pin -> isPublishedProtocol path = true ->
  normaliseOperation (pin_Operation pin) = OperationRevoke -> usable pin -> pin_Id pin <> SourcePinId r ->
  (loadRecordByAnyPinId (pin_ChainName pin) path (targetPinID pin) s).1 = Ok (Some r) ->
  (b = false -> IsMempool r = false \/ CurrentPinId r = SourcePinId r) ->
  gone_in (view (handle (b, pin) s).2) (ChainName r) (ProtocolPath r) (SourcePinId r) /\ wf_record r.
Proof.
  intros path Hr Hg Hp Hop Hu Hne Hl Hpend. destruct Hu as [Hc Hid].
  assert (Ht : targetPinID pin <> "") by (intros E; rewrite E in Hl; by eapply target_nonempty).
  destruct (loaded_found _ _ _ _ _ Hr (gp_chain_colon pin Hg) Hc Hp Hl) as [Hsrc Hf].
  split; [|apply Hf].
  rewrite handle_eq. cbn [fst snd]. unfold processPin.
  rewrite (nonempty _ Hid), (nonempty _ Hc). cbn [orb]. fold path. rewrite Hp, Hop. cbv zeta. cbn [negb].
  change (String.eqb OperationRevoke OperationCreate) with false.
  change (String.eqb OperationRevoke OperationModify) with false. rewrite String.eqb_refl.
  destruct (change_exact pin path b (revoked pin b) s Hr Hg (conj Hc Hid) Hp (or_intror eq_refl))
    as (o & s2 & E2 & Hf2 & _ & Hv2).
  unfold processRevoke. rewrite E2. cbn [snd]. rewrite Hv2.
  destruct Hf2 as [[[?|?] _]|(_ & _ & Hf2)]; [done|done|].
  destruct o as [r'|]; [|unfold found in Hf2; by rewrite (holds_key _ _ _ _ _ Hf) in Hf2].
  rewrite (holds_inj _ _ _ _ _ _ Hf2 Hf). unfold changed. exists (revoked pin b r). split.
  - apply holds_source, holds_saved; [apply wf_revoked; [done|apply Hf]|apply revoked_keys].
  - apply gone_revoked; [|done|done]. destruct b; [auto|]. destruct (Hpend eq_refl); auto.
Qed.
End Published.
