(* ===== verification/PublishedContentLists.v ===== *)
(** * PublishedContentLists: the lists of published content

    An index scan and a scan of the records find the same records; a list is
    exactly the stored records that match; a revoked content never shows again. *)

From S2P Require Import Prelude GoText Json Storage Aggregator Effects IdAddress PublishedContent PublishedContentFacts PublishedContentRuns.

#[local] Set Warnings "-clear-no-such-hyp".

Section Published.
Context {St : Type} {KV : KVOps St} {KVS : KVStore St} {PJ : PublishedJSON} {B58 : Base58}.

(** ** Lists *)

Definition stored_in (s : St) (r : Record_) : Prop :=
  view s !! recordKey (ChainName r) (ProtocolPath r) (SourcePinId r) = Some (json_Marshal r) /\ json_faithful r.
Lemma stored_wf s r : ready s -> (stored_in s r <-> wf_record r /\ stored (view s) r).
Proof.
  intros [_ Hi]. split.
  - intros [Hs Hf]. destruct (inv_record _ Hi _ _ Hs (HasPrefix_app _ _)) as (r' & Hw & _ & Em).
    pose proof (json_roundtrip r Hf) as R. rewrite Em, json_roundtrip in R by (by apply wf_faithful).
    injection R as <-. by split.
  - intros [Hw Hs]. split; [done|]. by apply wf_faithful.
Qed.

(** The order of a list: newest first; ties by descending chain and source, or by
    ascending text [chain:source] when an index served it. *)
Definition index_less : Record_ -> Record_ -> bool :=
  on_key Z_gt sortTimestamp (on_key str_lt (fun r => ChainName r +:+ ":" +:+ SourcePinId r) tie).
Definition list_less (params : ListParams) : Record_ -> Record_ -> bool :=
  if hasIdentityFilter params then index_less else newest_less.

Lemma newest_total : StrictWeak newest_less.
Proof. unfold newest_less. apply _. Qed.
Lemma index_total : StrictWeak index_less.
Proof. unfold index_less. apply _. Qed.

(** *** All records *)

Definition all_records (s : St) (prefix : string) : list Record_ :=
  omap unmarshal_value (prefix_entries (view s) prefix).
Lemma record_entry s prefix k v :
  ready s -> HasPrefix prefix keyRecord = true -> (k, v) ∈ prefix_entries (view s) prefix ->
  exists r, wf_record r /\ stored (view s) r /\ k = key_of r /\ unmarshal_value (k, v) = Some r.
Proof.
  intros [_ Hi] Hp Hin. apply elem_of_prefix_entries in Hin as [Hk Hpk].
  destruct (inv_record _ Hi k v Hk (HasPrefix_trans _ _ _ Hpk Hp)) as (r & Hw & -> & ->). exists r.
  split; [done|]. split; [done|]. split; [done|]. unfold unmarshal_value. cbn.
  by rewrite json_roundtrip by (by apply wf_faithful).
Qed.
Lemma elem_of_all_records s prefix r :
  ready s -> HasPrefix prefix keyRecord = true ->
  r ∈ all_records s prefix <-> stored_in s r /\ HasPrefix (key_of r) prefix = true.
Proof.
  intros Hr Hp. rewrite (stored_wf s r Hr). unfold all_records. rewrite list_elem_of_omap. split.
  - intros ([k v] & Hin & E). destruct (record_entry s prefix k v Hr Hp Hin) as (r' & Hw & Hs & -> & E').
    rewrite E in E'. injection E' as <-. apply elem_of_prefix_entries in Hin as [_ Hpk]. done.
  - intros [[Hw Hs] Hpk]. exists (key_of r, json_Marshal r). split; [by apply elem_of_prefix_entries|].
    unfold unmarshal_value. cbn. by rewrite json_roundtrip by (by apply wf_faithful).
Qed.
Lemma all_records_NoDup s prefix : ready s -> HasPrefix prefix keyRecord = true -> NoDup (all_records s prefix).
Proof.
  intros Hr Hp. apply (strict_NoDup key_of). unfold all_records.
  eapply StronglySorted_omap; [|apply prefix_entries_strict].
  intros [k v] [k' v'] r r' Hin Hin' E E'.
  destruct (record_entry s prefix k v Hr Hp Hin) as (? & _ & _ & -> & F).
  destruct (record_entry s prefix k' v' Hr Hp Hin') as (? & _ & _ & -> & F').
  rewrite E in F. rewrite E' in F'. by injection F as <-; injection F' as <-.
Qed.

(** *** By an index *)

Lemma digit_not_colon d : 0 <= d < 16 -> Ascii.eqb ":" (digit_char d) = false.
Proof.
  intros H. apply Ascii.eqb_neq. intros E. apply (f_equal Z_of_ascii) in E. unfold digit_char in E.
  rewrite Z_of_ascii_of_Z in E by (unfold byte_ok; case_match; lia).
  change (Z_of_ascii ":") with 58 in E. destruct (Z.ltb_spec d 10); lia.
Qed.
Lemma digits_no_colon w z : 0 <= z < 16 ^ Z.of_nat w -> no_char ":" (fixed_digits 16 w z) = true.
Proof.
  revert z. induction w as [|w IH]; intros z Hz; [done|].
  replace (16 ^ Z.of_nat (S w)) with (16 * 16 ^ Z.of_nat w) in Hz
    by (rewrite Nat2Z.inj_succ, Z.pow_succ_r by lia; lia).
  assert (0 < 16 ^ Z.of_nat w) by (apply Z.pow_pos_nonneg; lia).
  cbn [fixed_digits no_char]. rewrite digit_not_colon.
  - apply IH, Z.mod_pos_bound. lia.
  - split; [apply Z.div_pos; lia|apply Z.div_lt_upper_bound; lia].
Qed.
Lemma inverted_eq t : 0 <= t < 2 ^ 63 -> u64 (Z.lnot t) = 2 ^ 64 - 1 - t.
Proof. intros H. unfold u64, Z.lnot. replace (Z.pred (- t)) with (2 ^ 64 - 1 - t + (-1) * 2 ^ 64) by lia.
  rewrite Z_mod_plus_full. apply Z.mod_small. lia. Qed.
Lemma inverted_no_colon t : no_char ":" (invertedTimestamp t) = true.
Proof. apply digits_no_colon. unfold u64. apply Z.mod_pos_bound. lia. Qed.
Lemma inverted_compare t t' :
  0 <= t < 2 ^ 63 -> 0 <= t' < 2 ^ 63 -> (invertedTimestamp t ?= invertedTimestamp t')%string = Z.compare t' t.
Proof.
  intros H H'. unfold invertedTimestamp, fmt_016x.
  rewrite fixed_digits_compare by (rewrite ?inverted_eq by done; change (16 ^ Z.of_nat 16) with (2 ^ 64); lia).
  rewrite !inverted_eq by done.
  destruct (Z.compare_spec t' t); (apply Z.compare_eq_iff || apply Z.compare_lt_iff || apply Z.compare_gt_iff); lia.
Qed.
Lemma sort_range r : wf_record r -> 0 <= sortTimestamp r < 2 ^ 63.
Proof. intros H. pose proof (wf_created r H). pose proof (wf_updated r H). unfold sortTimestamp. by repeat case_match. Qed.
Lemma index_key_order kp p i a b :
  wf_record a -> wf_record b ->
  str_lt (identityIndexKey kp p i (sortTimestamp a) (ChainName a) (SourcePinId a))
    (identityIndexKey kp p i (sortTimestamp b) (ChainName b) (SourcePinId b)) = true ->
  index_less a b = true.
Proof.
  intros Ha Hb. unfold identityIndexKey, str_lt. rewrite !ltb_app_l. unfold String.ltb.
  rewrite compare_app_eqlen by (by rewrite !invertedTimestamp_length).
  rewrite inverted_compare by (by apply sort_range). rewrite compare_app_l.
  unfold index_less, on_key, Z_gt, tie, str_lt, String.ltb.
  destruct (Z.compare_spec (sortTimestamp b) (sortTimestamp a)) as [E|E|E]; intros H.
  - rewrite decide_True by done. destruct (decide _) as [E'|_]; [|done].
    by rewrite E', compare_refl in H.
  - rewrite decide_False by lia. by apply Z.ltb_lt.
  - done.
Qed.

(** The record an index key leads to. *)
Definition indexed (s : St) (prefix path : string) (e : string * string) : option Record_ :=
  match parseIdentityIndexKey e.1 prefix with
  | Some (c, src) => match read_record c path src s with Ok o => o | Err _ => None end
  | None => None
  end.
Definition by_index (s : St) (kp path i : string) : list Record_ :=
  let prefix := identityIndexPrefix kp path i in
  omap (indexed s prefix path) (prefix_entries (view s) prefix).

Lemma prefix_key kp p i t c src :
  identityIndexKey kp p i t c src
  = identityIndexPrefix kp p i +:+ invertedTimestamp t +:+ ":" +:+ c +:+ ":" +:+ src.
Proof. unfold identityIndexKey, identityIndexPrefix. by rewrite !sapp_assoc. Qed.
Lemma parse_key kp p i t c src :
  no_char ":" c = true ->
  parseIdentityIndexKey (identityIndexKey kp p i t c src) (identityIndexPrefix kp p i) = Some (c, src).
Proof.
  intros Hc. rewrite prefix_key. unfold parseIdentityIndexKey. rewrite TrimPrefix_app.
  change (":" +:+ ?x) with (String ":" x). cbn [SplitN].
  rewrite cut_char_app by apply inverted_no_colon.
  change (":" +:+ ?x) with (String ":" x). by rewrite cut_char_app by done.
Qed.
Lemma prefix_determines kp p i kp' p' i' t c src :
  kp ∈ [keyByGlobal; keyByMetaId; keyByAddress] -> kp' ∈ [keyByGlobal; keyByMetaId; keyByAddress] ->
  no_char ":" p = true -> no_char ":" p' = true -> no_char ":" i = true -> no_char ":" i' = true ->
  no_char ":" c = true ->
  HasPrefix (identityIndexKey kp' p' i' t c src) (identityIndexPrefix kp p i) = true ->
  kp' = kp /\ p' = p /\ i' = i.
Proof.
  intros Hk Hk' Hp Hp' Hi Hi' Hc [x E]%HasPrefix_spec.
  rewrite prefix_key in E. unfold identityIndexPrefix in E. rewrite !sapp_assoc in E.
  assert (Ek : kp' = kp).
  { repeat (apply elem_of_cons in Hk as [->|Hk]; [|]); try (by apply not_elem_of_nil in Hk);
    repeat (apply elem_of_cons in Hk' as [->|Hk']; [|]); try (by apply not_elem_of_nil in Hk'); done. }
  subst kp'. apply sapp_eq_length in E as [_ E]; [|done].
  change (":" +:+ ?x) with (String ":" x) in E. apply sep_inj in E as [-> E]; [|done..].
  change (":" +:+ ?x) with (String ":" x) in E. by apply sep_inj in E as [-> _].
Qed.
Lemma prefix_kind kp p i :
  kp ∈ [keyByGlobal; keyByMetaId; keyByAddress] -> is_index (identityIndexPrefix kp p i) = true.
Proof.
  intros Hk. repeat (apply elem_of_cons in Hk as [->|Hk]; [apply (HasPrefix_app "by_")|]).
  by apply not_elem_of_nil in Hk.
Qed.
Section ByIndex.
Context (s : St) (Hr : ready s) (kp path i : string).
Context (Hkp : kp ∈ [keyByGlobal; keyByMetaId; keyByAddress]) (Hpath : isPublishedProtocol path = true).
Context (Hi : no_char ":" i = true) (Hine : i <> "").

Lemma indexed_entry e :
  e ∈ prefix_entries (view s) (identityIndexPrefix kp path i) ->
  exists r, wf_record r /\ stored (view s) r /\ ProtocolPath r = path /\ (kp, i) ∈ identities r
    /\ e.1 = identityIndexKey kp path i (sortTimestamp r) (ChainName r) (SourcePinId r)
    /\ parseIdentityIndexKey e.1 (identityIndexPrefix kp path i) = Some (ChainName r, SourcePinId r)
    /\ read_record (ChainName r) path (SourcePinId r) s = Ok (Some r).
Proof.
  destruct e as [k v]. intros [Hk Hpk]%elem_of_prefix_entries. cbn [fst].
  destruct (published_path path Hpath) as (Hpc & _).
  assert (His : is_index k = true).
  { eapply HasPrefix_trans; [exact Hpk|]. by apply prefix_kind. }
  destruct (inv_index _ (ready_inv s Hr) k v Hk His) as (r & Hw & Hs & Hin).
  apply elem_of_index_keys in Hin as ([kp' i'] & He & Hne & ->). cbn [snd] in Hne.
  destruct (wf_parts r Hw) as (Hc & Hp & Hids). rewrite Forall_forall in Hids.
  assert (Hkp' : kp' ∈ [keyByGlobal; keyByMetaId; keyByAddress]).
  { unfold identities in He. repeat (apply elem_of_cons in He as [[= -> _]|He]; [by repeat constructor|]).
    by apply not_elem_of_nil in He. }
  unfold index_key in *. cbn [fst snd] in *.
  assert (Hi' : no_char ":" i' = true) by exact (Hids _ He). clear Hids.
  destruct (prefix_determines _ _ _ _ _ _ _ _ _ Hkp Hkp' Hpc Hp Hi Hi' Hc Hpk) as (E1 & Ep & E2).
  subst kp' i'. rewrite Ep in *. exists r. do 5 (split; [done|]). split; [by apply parse_key|].
  destruct (read_record_spec s (ChainName r) path (SourcePinId r) Hr Hc (wf_chain r Hw) Hpath (wf_source r Hw))
    as ([r'|] & -> & Hf); unfold found in Hf.
  - by rewrite (holds_inj _ _ _ _ r' r Hf) by done.
  - unfold stored, key_of in Hs. rewrite Ep in Hs. congruence.
Qed.
Lemma indexed_some e r :
  e ∈ prefix_entries (view s) (identityIndexPrefix kp path i) ->
  indexed s (identityIndexPrefix kp path i) path e = Some r ->
  wf_record r /\ stored (view s) r /\ ProtocolPath r = path /\ (kp, i) ∈ identities r
  /\ e.1 = identityIndexKey kp path i (sortTimestamp r) (ChainName r) (SourcePinId r).
Proof.
  intros Hin E. destruct (indexed_entry e Hin) as (r' & ? & ? & ? & ? & ? & E1 & E2).
  unfold indexed in E. rewrite E1, E2 in E. by injection E as <-.
Qed.
Lemma elem_of_by_index r :
  r ∈ by_index s kp path i <-> stored_in s r /\ ProtocolPath r = path /\ (kp, i) ∈ identities r.
Proof.
  rewrite (stored_wf s r Hr). unfold by_index. cbv zeta. rewrite list_elem_of_omap. split.
  - intros (e & Hin & E). destruct (indexed_some e r Hin E) as (? & ? & ? & ? & _). done.
  - intros ([Hw Hs] & Ep & Hid).
    set (k := index_key r (kp, i)).
    assert (Hk : k ∈ index_keys r) by (apply elem_of_index_keys; by exists (kp, i)).
    destruct (inv_indexed _ (ready_inv s Hr) r k Hw Hs Hk) as [v Hv].
    assert (Hin : (k, v) ∈ prefix_entries (view s) (identityIndexPrefix kp path i)).
    { apply elem_of_prefix_entries. split; [done|]. unfold k, index_key. cbn [fst snd].
      rewrite Ep, prefix_key. apply HasPrefix_app. }
    exists (k, v). split; [done|].
    destruct (indexed_entry _ Hin) as (r' & Hw' & Hs' & Ep' & Hid' & Ek & E1 & E2).
    unfold indexed. rewrite E1, E2. f_equal. apply (stored_inj (view s)); try done.
    apply (index_keys_inj r' r k); [apply Hw'|apply Hw| |done]. apply elem_of_index_keys.
    exists (kp, i). split; [done|]. split; [done|]. cbn [fst] in Ek. rewrite Ek. unfold index_key. cbn [fst snd].
    by rewrite Ep'.
Qed.
Lemma by_index_order :
  StronglySorted (fun a b => index_less a b = true) (by_index s kp path i) /\ NoDup (by_index s kp path i).
Proof.
  pose proof (prefix_entries_strict (view s) (identityIndexPrefix kp path i)) as Hst. split.
  - eapply StronglySorted_omap; [|exact Hst]. intros e e' r r' Hin Hin' E E' Hlt.
    destruct (indexed_some e r Hin E) as (Hw & _ & _ & _ & Ek).
    destruct (indexed_some e' r' Hin' E') as (Hw' & _ & _ & _ & Ek').
    cbv beta in Hlt. rewrite Ek, Ek' in Hlt. by apply (index_key_order kp path i).
  - apply (strict_NoDup (fun r => identityIndexKey kp path i (sortTimestamp r) (ChainName r) (SourcePinId r))).
    eapply StronglySorted_omap; [|exact Hst]. intros e e' r r' Hin Hin' E E' Hlt.
    destruct (indexed_some e r Hin E) as (_ & _ & _ & _ & Ek).
    destruct (indexed_some e' r' Hin' E') as (_ & _ & _ & _ & Ek'). by rewrite <- Ek, <- Ek'.
Qed.

Lemma scan_identity_spec params limit es out :
  lp_ProtocolPath params = path -> Z.of_nat (length out) < limit ->
  (forall e, e ∈ es -> e ∈ prefix_entries (view s) (identityIndexPrefix kp path i)) ->
  scan_identity_loop es.*1 (identityIndexPrefix kp path i) params limit out s
  = Ok (take (Z.to_nat limit)
         (out ++ List.filter (fun r => recordMatches r params)
                   (omap (indexed s (identityIndexPrefix kp path i) path) es))).
Proof.
  intros Hpp. revert out. induction es as [|e es IH]; intros out Hlen Hes.
  { cbn. rewrite app_nil_r, take_ge by lia. done. }
  destruct (indexed_entry e (Hes e ltac:(left))) as (r & Hw & Hs & Ep & _ & _ & E1 & E2).
  assert (Hes' : forall e, e ∈ es -> e ∈ prefix_entries (view s) (identityIndexPrefix kp path i))
    by (intros e' He'; apply Hes; by right).
  csimpl. unfold indexed at 1. rewrite E1, E2, Hpp, E2. cbv beta iota zeta.
  destruct (negb (is_empty (lp_ChainName params)) && negb (String.eqb (ChainName r) (lp_ChainName params))) eqn:Ec.
  - cbn [List.filter]. replace (recordMatches r params) with false; [by apply IH|].
    symmetry. unfold recordMatches, passes. apply andb_true_iff in Ec as [Ec1 Ec2].
    apply negb_true_iff in Ec1, Ec2. rewrite Ec1, Ec2. cbn. by rewrite andb_false_r.
  - cbn [List.filter]. destruct (recordMatches r params) eqn:Em; cbn [negb]; [|by apply IH].
    destruct (Z.leb_spec limit (Z.of_nat (length (out ++ [r])))) as [Hl|Hl].
    + rewrite length_app in Hl. cbn [length] in Hl.
      set (rest := List.filter _ _).
      replace (out ++ r :: rest) with ((out ++ [r]) ++ rest) by (by rewrite <- app_assoc).
      assert (length (out ++ [r]) = Z.to_nat limit) as E by (rewrite length_app; cbn [length]; lia).
      by rewrite take_app_le, take_ge by lia.
    + rewrite IH by (done || lia). by rewrite <- app_assoc.
Qed.
End ByIndex.

(** *** The whole list *)

Lemma passes_spec f v : passes f v = true <-> f = "" \/ v = f.
Proof.
  unfold passes. rewrite orb_true_iff, is_empty_spec, String.eqb_eq. done.
Qed.
Lemma passes_nonempty f v : f <> "" -> passes f v = true -> v = f.
Proof. rewrite passes_spec. by intros ? [?|?]. Qed.

(** The index an identity filter uses: the first publisher id given. *)
Definition filter_index (params : ListParams) : option (string * string) :=
  if negb (is_empty (lp_GlobalMetaId params)) then Some (keyByGlobal, lp_GlobalMetaId params)
  else if negb (is_empty (lp_MetaId params)) then Some (keyByMetaId, lp_MetaId params)
  else if negb (is_empty (lp_Address params)) then Some (keyByAddress, lp_Address params)
  else None.
Lemma filter_index_spec params kp i :
  filter_index params = Some (kp, i) ->
  kp ∈ [keyByGlobal; keyByMetaId; keyByAddress] /\ i <> ""
  /\ i ∈ [lp_GlobalMetaId params; lp_MetaId params; lp_Address params]
  /\ (forall r, recordMatches r params = true -> (kp, i) ∈ identities r)
  /\ (forall limit s, collectRecords params limit s
        = scanIdentity (identityIndexPrefix kp (lp_ProtocolPath params) i) params limit s).
Proof.
  unfold filter_index, collectRecords.
  destruct (is_empty (lp_GlobalMetaId params)) eqn:E1; cbn [negb].
  2: { intros [= <- <-]. assert (lp_GlobalMetaId params <> "") by (by intros E; rewrite E in E1).
       split; [by repeat constructor|]. split; [done|]. split; [by repeat constructor|].
       split; [|done]. intros r Hm. unfold recordMatches in Hm. rewrite !andb_true_iff in Hm.
       unfold identities. rewrite <- (passes_nonempty (lp_GlobalMetaId params) (PublisherGlobalMetaId r)) by tauto.
       by repeat constructor. }
  destruct (is_empty (lp_MetaId params)) eqn:E2; cbn [negb].
  2: { intros [= <- <-]. assert (lp_MetaId params <> "") by (by intros E; rewrite E in E2).
       split; [by repeat constructor|]. split; [done|]. split; [by repeat constructor|].
       split; [|done]. intros r Hm. unfold recordMatches in Hm. rewrite !andb_true_iff in Hm.
       unfold identities. rewrite <- (passes_nonempty (lp_MetaId params) (PublisherMetaId r)) by tauto.
       by repeat constructor. }
  destruct (is_empty (lp_Address params)) eqn:E3; cbn [negb]; [done|].
  intros [= <- <-]. assert (lp_Address params <> "") by (by intros E; rewrite E in E3).
  split; [by repeat constructor|]. split; [done|]. split; [by repeat constructor|].
  split; [|done]. intros r Hm. unfold recordMatches in Hm. rewrite !andb_true_iff in Hm.
  unfold identities. rewrite <- (passes_nonempty (lp_Address params) (PublisherAddress r)) by tauto.
  by repeat constructor.
Qed.
Lemma filter_index_none params :
  filter_index params = None -> hasIdentityFilter params = false
  /\ forall limit s, collectRecords params limit s = scanRecords params s.
Proof.
  unfold filter_index, hasIdentityFilter, collectRecords. by repeat case_match.
Qed.
Lemma filter_index_some params e : filter_index params = Some e -> hasIdentityFilter params = true.
Proof.
  unfold filter_index, hasIdentityFilter.
  by destruct (negb (is_empty (lp_GlobalMetaId params))), (negb (is_empty (lp_MetaId params))),
    (negb (is_empty (lp_Address params))).
Qed.

(** All the records a list is a page of. *)
Definition matching (params : ListParams) (s : St) (all : list Record_) : Prop :=
  NoDup all /\ (forall r, r ∈ all <-> stored_in s r /\ recordMatches r params = true)
  /\ sorted_by (list_less params) all.
Lemma filter_matches params (l : list Record_) r :
  r ∈ List.filter (fun r => recordMatches r params) l <-> r ∈ l /\ recordMatches r params = true.
Proof. by rewrite list_elem_of_In, filter_In, <- list_elem_of_In. Qed.
Lemma filter_NoDup (P : Record_ -> bool) (l : list Record_) : NoDup l -> NoDup (List.filter P l).
Proof. intros H. by apply NoDup_ListNoDup, List.NoDup_filter, NoDup_ListNoDup. Qed.

Lemma matching_unfiltered params s :
  ready s -> filter_index params = None ->
  exists l all, scanRecords params s = Ok l /\ SliceStable newest_less l = all /\ matching params s all.
Proof.
  intros Hr Hf. destruct (filter_index_none params Hf) as [Hh _].
  set (prefix := if is_empty (lp_ChainName params) then keyRecord else keyRecord +:+ lp_ChainName params +:+ ":").
  assert (Hp : HasPrefix prefix keyRecord = true) by (unfold prefix; case_match; [done|apply HasPrefix_app]).
  exists (List.filter (fun r => recordMatches r params) (all_records s prefix)). eexists.
  split; [|split; [done|]].
  - unfold scanRecords, scan_json_err. cbv zeta. fold prefix. rewrite kv_Scan_ok by apply Hr.
    by rewrite parse_values_snd.
  - unfold matching, list_less. rewrite Hh. split; [|split].
    + rewrite SliceStable_perm. by apply filter_NoDup, all_records_NoDup.
    + intros r. rewrite elem_of_SliceStable, filter_matches, elem_of_all_records by done.
      split; [tauto|]. intros [Hs Hm]. split; [|done]. split; [done|].
      unfold prefix. destruct (is_empty (lp_ChainName params)) eqn:Ec; [apply HasPrefix_app|].
      assert (ChainName r = lp_ChainName params) as <-.
      { apply passes_nonempty; [by intros E; rewrite E in Ec|]. unfold recordMatches in Hm.
        rewrite !andb_true_iff in Hm. tauto. }
      unfold key_of, recordKey. rewrite !HasPrefix_app_l. apply HasPrefix_app.
    + apply SliceStable_sorted, newest_total.
Qed.
Lemma matching_filtered params s kp i :
  ready s -> filter_index params = Some (kp, i) -> isPublishedProtocol (lp_ProtocolPath params) = true ->
  no_char ":" i = true ->
  exists all, matching params s all
    /\ forall limit, 0 < limit -> collectRecords params limit s = Ok (take (Z.to_nat limit) all).
Proof.
  intros Hr Hf Hp Hi. destruct (filter_index_spec params kp i Hf) as (Hkp & Hne & _ & Hm & Hc).
  set (path := lp_ProtocolPath params) in *.
  destruct (by_index_order s Hr kp path i Hkp Hp Hi) as [Hs Hd].
  exists (List.filter (fun r => recordMatches r params) (by_index s kp path i)). split.
  - unfold matching, list_less. rewrite (filter_index_some _ _ Hf). split; [by apply filter_NoDup|]. split.
    + intros r. rewrite filter_matches, elem_of_by_index by done. split; [tauto|].
      intros [Hst Hmr]. split; [|done]. split; [done|]. split; [|by apply Hm].
      apply passes_nonempty; [by apply published_path|]. unfold recordMatches in Hmr.
      rewrite !andb_true_iff in Hmr. tauto.
    + apply sorted_by_filter. eapply StronglySorted_impl; [|exact Hs]. intros a b Hab.
      destruct index_total as [Ha _]. by apply Ha.
  - intros limit Hl. rewrite Hc. unfold scanIdentity. rewrite kv_Scan_ok by apply Hr.
    by apply (scan_identity_spec s Hr kp path i Hkp Hp Hi).
Qed.

Definition list_ok (params : ListParams) : Prop :=
  hasIdentityFilter params = true ->
  isPublishedProtocol (lp_ProtocolPath params) = true
  /\ Forall (fun i => no_char ":" i = true) [lp_GlobalMetaId params; lp_MetaId params; lp_Address params].
Lemma page_size params : 1 <= lp_Size (normaliseListParams params) <= maxListSize.
Proof. cbn. unfold maxListSize, defaultListSize. repeat case_match; lia. Qed.
Lemma List_pages params s :
  ready s -> list_ok (normaliseListParams params) ->
  exists all, matching (normaliseListParams params) s all
    /\ List_ params s
       = Ok (mkListResult (take (Z.to_nat (lp_Size (normaliseListParams params))) all)
               (lp_Size (normaliseListParams params) <? Z.of_nat (length all))).
Proof.
  intros Hr Hok. unfold List_. cbv zeta. pose proof (page_size params) as Hsize.
  set (p := normaliseListParams params) in *. set (size := lp_Size p) in *.
  assert (Hcut : forall all : list Record_, 
    Ok (mkListResult
      (map toSectionItem
         (if size <? Z.of_nat (length (take (Z.to_nat (size + 1)) all))
          then take (Z.to_nat size) (take (Z.to_nat (size + 1)) all)
          else take (Z.to_nat (size + 1)) all))
      (size <? Z.of_nat (length (take (Z.to_nat (size + 1)) all))))
    = Ok (mkListResult (take (Z.to_nat size) all) (size <? Z.of_nat (length all)))).
  { intros all. assert (Hid : forall l, map toSectionItem l = l) by (intros l; apply List.map_id). rewrite Hid.
    rewrite length_take, take_take.
    replace (Z.to_nat size `min` Z.to_nat (size + 1))%nat with (Z.to_nat size) by lia.
    destruct (Z.ltb_spec size (Z.of_nat (length all))) as [Hl|Hl].
    - by replace (size <? Z.of_nat (Z.to_nat (size + 1) `min` length all)) with true
        by (symmetry; apply Z.ltb_lt; lia).
    - replace (size <? Z.of_nat (Z.to_nat (size + 1) `min` length all)) with false
        by (symmetry; apply Z.ltb_ge; lia).
      by rewrite !take_ge by lia. }
  destruct (filter_index p) as [[kp i]|] eqn:Hf.
  - pose proof (filter_index_some _ _ Hf) as Hh. destruct (Hok Hh) as [Hp Hids]. rewrite Hh. cbn [negb].
    rewrite Forall_forall in Hids.
    destruct (matching_filtered p s kp i Hr Hf Hp) as (all & Hm & Hc).
    { by apply Hids, (filter_index_spec p kp i Hf). }
    exists all. split; [done|]. rewrite Hc by lia. apply Hcut.
  - destruct (filter_index_none p Hf) as [Hh Hc]. rewrite Hh, Hc. cbn [negb].
    destruct (matching_unfiltered p s Hr Hf) as (l & all & -> & Ea & Hm).
    exists all. split; [done|]. rewrite Ea. apply Hcut.
Qed.


(** C29: A list never fails, and it is the first page, of 1 to 100 items and 20 by
    default, of all the stored records that match the parameters, each once,
    newest first, with [hasMore] exactly when there are more; with a publisher
    filter the protocol path must be given. *)
Theorem List_exact es s0 params :
  let s := run_pins es s0 in
  let params' := normaliseListParams params in
  kv_ok s0 published_ns = true -> kv_view s0 published_ns = ∅ -> Forall (fun e => good_pin e.2) es ->
  (hasIdentityFilter params' = true ->
     isPublishedProtocol (lp_ProtocolPath params') = true
     /\ Forall (fun i => no_char ":" i = true)
          [lp_GlobalMetaId params'; lp_MetaId params'; lp_Address params']) ->
  exists all, NoDup all
    /\ (forall r, r ∈ all <->
          kv_view s published_ns !! recordKey (ChainName r) (ProtocolPath r) (SourcePinId r) = Some (json_Marshal r)
          /\ json_faithful r /\ recordMatches r params' = true)
    /\ sorted_by (list_less params') all
    /\ 1 <= lp_Size params' <= 100
    /\ List_ params s = Ok (mkListResult (take (Z.to_nat (lp_Size params')) all)
                              (lp_Size params' <? Z.of_nat (length all))).
Proof.
  intros s params' Hok Hv Hg Hl.
  destruct (List_pages params s (start_ready es s0 Hok Hv Hg) Hl) as (all & (Hd & Hm & Hs) & E).
  exists all. split; [done|]. split; [|split; [done|split; [apply page_size|done]]].
  intros r. rewrite Hm. unfold stored_in. tauto.
Qed.

(** Once a revoke pin for a content has been handled, no list without hidden
    items shows the content again, whatever pins follow, when the revoke came from
    the mempool or found no other change of the content pending. *)
Theorem revoked_never_listed es b pin es' s0 params r0 :
  let s := run_pins es s0 in
  let s' := run_pins (es ++ (b, pin) :: es') s0 in
  let path := protocolPathFromPinPath (pin_Path pin) in
  kv_ok s0 published_ns = true -> kv_view s0 published_ns = ∅ ->
  Forall (fun e => good_pin e.2) (es ++ (b, pin) :: es') ->
  isPublishedProtocol path = true -> normaliseOperation (pin_Operation pin) = OperationRevoke ->
  (loadRecordByAnyPinId (pin_ChainName pin) path (targetPinID pin) s).1 = Ok (Some r0) ->
  (b = false -> IsMempool r0 = false \/ CurrentPinId r0 = SourcePinId r0) ->
  Forall (fun e => normaliseOperation (pin_Operation e.2) <> OperationCreate -> pin_Id e.2 <> SourcePinId r0)
    ((b, pin) :: es') ->
  pin_Id pin <> "" -> pin_ChainName pin <> "" ->
  list_ok (normaliseListParams params) -> lp_IncludeHidden params = false ->
  exists res, List_ params s' = Ok res
    /\ forall r, r ∈ lr_Items res ->
         ~ (ChainName r = ChainName r0 /\ ProtocolPath r = ProtocolPath r0 /\ SourcePinId r = SourcePinId r0).
Proof.
  intros s s' path Hok Hv Hg Hp Hop Hload Hpend Hids Hid Hc Hl Hh.
  assert (Hr' : ready s') by (by apply start_ready).
  apply Forall_app in Hg as [Hg Hg2]. apply Forall_cons in Hg2 as [Hgp Hg'].
  apply Forall_cons in Hids as [Hidp Hids]. cbn [snd] in *.
  assert (Hne : pin_Id pin <> SourcePinId r0) by (apply Hidp; by rewrite Hop).
  assert (Hr : ready s) by (by apply start_ready).
  destruct (revoke_gone b pin s r0 Hr Hgp Hp Hop (conj Hc Hid) Hne Hload Hpend) as [Hgone Hw0].
  assert (Hend : gone_in (view s') (ChainName r0) (ProtocolPath r0) (SourcePinId r0)).
  { unfold s', run_pins. rewrite foldl_app. cbn [foldl]. fold (run_pins es s0).
    change (foldl (fun s e => (handle e s).2) ?x es') with (run_pins es' x).
    apply gone_run; [by apply handle_step|done|].
    rewrite Forall_forall in Hg', Hids |- *. intros e He. split; [by apply Hg'|by apply Hids]. }
  destruct (List_pages params s' Hr' Hl) as (all & (_ & Hm & _) & ->). eexists. split; [done|].
  intros r Hin Hk. cbn [lr_Items] in Hin. apply elem_of_take in Hin as (i & Hall & _).
  apply list_elem_of_lookup_2 in Hall.
  apply Hm in Hall as [Hst Hmr]. apply (stored_wf s' r Hr') in Hst as [Hwr Hsr].
  destruct Hend as (g & Hgh & _ & Hhid & _).
  rewrite (holds_inj _ _ _ _ _ _ Hgh (conj Hwr (conj Hsr Hk))) in Hhid.
  unfold recordMatches in Hmr. change (lp_IncludeHidden (normaliseListParams params)) with (lp_IncludeHidden params) in Hmr.
  rewrite Hh, Hhid in Hmr. cbn in Hmr. by rewrite !andb_false_r in Hmr.
Qed.
End Published.
