(* ===== verification/PublishedContentReplay.v ===== *)
(** * PublishedContentReplay: mempool deliveries and their blocks

    What the handlers do to one content, as a function on its record, and the
    equivalence of a run that saw the pins in the mempool first with the run of
    the blocks alone. *)

From S2P Require Import Prelude GoText Json Storage Aggregator Effects IdAddress PublishedContent PublishedContentFacts PublishedContentRuns.
From coqutil.Datatypes Require Import RecordSetters.
Import TriangleBracketNotations.

#[local] Set Warnings "-clear-no-such-hyp".

Section Published.
Context {St : Type} {KV : KVOps St} {KVS : KVStore St} {PJ : PublishedJSON} {B58 : Base58}.

(** ** Changes of a record *)

Definition is_modify (pin : PinInscription) : bool :=
  String.eqb (normaliseOperation (pin_Operation pin)) OperationModify.
Definition change_of (path : string) (b : bool) (pin : PinInscription) : Record_ -> Record_ :=
  if is_modify pin then modified pin path b else revoked pin b.
Definition pending (r : Record_) : Record_ := r <| IsMempool := true |>.
(** A confirmed record [r] under the pending change that left [m]. *)
Definition pend (r m : Record_) : Record_ :=
  r <| CurrentPinId := CurrentPinId m |> <| CurrentNumber := CurrentNumber m |>
    <| CurrentPath := CurrentPath m |> <| CurrentHost := CurrentHost m |>
    <| Operation := Operation m |> <| Hidden := Hidden m |> <| IsMempool := true |>
    <| ContentType := ContentType m |> <| PayloadText := PayloadText m |>
    <| PayloadJSON := PayloadJSON m |> <| PayloadExposed := PayloadExposed m |>
    <| UpdatedAt := UpdatedAt m |>.

Lemma merge_mempool previous candidate id :
  IsMempool candidate = true -> mergeConfirmedReplayWithPendingCurrent previous candidate id = candidate.
Proof. unfold mergeConfirmedReplayWithPendingCurrent. by intros ->. Qed.
Lemma merge_confirmed previous candidate id :
  IsMempool previous = false -> mergeConfirmedReplayWithPendingCurrent previous candidate id = candidate.
Proof. unfold mergeConfirmedReplayWithPendingCurrent. intros ->. by rewrite orb_true_r. Qed.
Lemma merge_replays previous candidate id :
  IsMempool candidate = false -> IsMempool previous = true ->
  mergeConfirmedReplayWithPendingCurrent previous candidate id
  = if is_empty (CurrentPinId previous) || String.eqb (CurrentPinId previous) (SourcePinId previous)
       || String.eqb (CurrentPinId previous) id then candidate else pend candidate previous.
Proof. unfold mergeConfirmedReplayWithPendingCurrent. by intros -> ->. Qed.

(** The record of a modify pin before the merge. *)
Definition modification (pin : PinInscription) (path : string) (b : bool) (r : Record_) : Record_ :=
  let n := newRecordFromPin pin path (SourcePinId r) b in
  let gone := String.eqb (Operation r) OperationRevoke in
  let pick (x y : string) := if is_empty x then y else x in
  {| SourcePinId := SourcePinId r; CurrentPinId := pin_Id pin; ChainName := ChainName n; ProtocolPath := path;
     PublisherGlobalMetaId := pick (PublisherGlobalMetaId n) (PublisherGlobalMetaId r);
     PublisherMetaId := pick (PublisherMetaId n) (PublisherMetaId r);
     PublisherAddress := pick (PublisherAddress n) (PublisherAddress r);
     Operation := if gone then OperationRevoke else Operation n;
     Hidden := if gone then true else Hidden n;
     IsMempool := b; ContentType := pin_ContentType pin;
     PayloadText := if PayloadExposed n then PayloadText n else PayloadText r;
     PayloadJSON := if PayloadExposed n then PayloadJSON n else PayloadJSON r;
     PayloadExposed := if PayloadExposed n then PayloadExposed n else PayloadExposed r;
     CreatedAt := CreatedAt r; UpdatedAt := pin_Timestamp pin;
     SourceNumber := SourceNumber r; CurrentNumber := pin_Number pin;
     SourcePath := SourcePath r; CurrentPath := pin_Path pin;
     SourceHost := SourceHost r; CurrentHost := pin_Host pin |}.
(** A chain of conditional updates, one step at a time: a conditional record is
    the record of the conditionals. *)
Lemma if_record (b : bool) x y :
  (if b then x else y)
  = let c {A} (f : Record_ -> A) := if b then f x else f y in
    mkRecord (c SourcePinId) (c CurrentPinId) (c ChainName) (c ProtocolPath) (c PublisherGlobalMetaId)
      (c PublisherMetaId) (c PublisherAddress) (c Operation) (c Hidden) (c IsMempool) (c ContentType)
      (c PayloadText) (c PayloadJSON) (c PayloadExposed) (c CreatedAt) (c UpdatedAt) (c SourceNumber)
      (c CurrentNumber) (c SourcePath) (c CurrentPath) (c SourceHost) (c CurrentHost).
Proof. by destruct b, x, y. Qed.
Ltac step_eq :=
  lazymatch goal with
  | |- (let y := ?e in @?f y) = ?z =>
      eapply (let_eq e _ f z);
      [cbn; lazymatch goal with
       | |- (if _ then _ else _) = _ => rewrite if_record; cbn; rewrite ?if_same; reflexivity
       | _ => reflexivity
       end
      |cbv beta]
  end.
Lemma modified_eq pin path b r :
  modified pin path b r = mergeConfirmedReplayWithPendingCurrent r (modification pin path b r) (pin_Id pin).
Proof.
  cbv beta delta [modified modification newRecordFromPin]. destruct r.
  do 7 step_eq. f_equal. cbn. f_equal; by repeat case_match.
Qed.

(** The record of a revoke pin before the merge. *)
Definition revocation (pin : PinInscription) (b : bool) (r : Record_) : Record_ :=
  {| SourcePinId := SourcePinId r; CurrentPinId := pin_Id pin; ChainName := ChainName r;
     ProtocolPath := ProtocolPath r; PublisherGlobalMetaId := PublisherGlobalMetaId r;
     PublisherMetaId := PublisherMetaId r; PublisherAddress := PublisherAddress r;
     Operation := OperationRevoke; Hidden := true; IsMempool := b;
     ContentType := if is_empty (pin_ContentType pin) then ContentType r else pin_ContentType pin;
     PayloadText := PayloadText r; PayloadJSON := PayloadJSON r; PayloadExposed := PayloadExposed r;
     CreatedAt := CreatedAt r;
     UpdatedAt := if 0 <? pin_Timestamp pin then pin_Timestamp pin else UpdatedAt r;
     SourceNumber := SourceNumber r; CurrentNumber := pin_Number pin;
     SourcePath := SourcePath r; CurrentPath := pin_Path pin;
     SourceHost := SourceHost r; CurrentHost := pin_Host pin |}.
Lemma revoked_eq pin b r :
  revoked pin b r = mergeConfirmedReplayWithPendingCurrent r (revocation pin b r) (pin_Id pin).
Proof.
  cbv beta delta [revoked revocation]. destruct r. do 3 step_eq. f_equal. cbn. f_equal; by repeat case_match.
Qed.
(** What a change pin asks for, before the merge. *)
Definition asked (path : string) (b : bool) (pin : PinInscription) (r : Record_) : Record_ :=
  if is_modify pin then modification pin path b r else revocation pin b r.
Lemma change_eq path b pin r :
  change_of path b pin r = mergeConfirmedReplayWithPendingCurrent r (asked path b pin r) (pin_Id pin).
Proof. unfold change_of, asked. destruct (is_modify pin); [apply modified_eq|apply revoked_eq]. Qed.
Lemma asked_fields path b pin r :
  IsMempool (asked path b pin r) = b /\ CurrentPinId (asked path b pin r) = pin_Id pin
  /\ SourcePinId (asked path b pin r) = SourcePinId r.
Proof. unfold asked. by destruct (is_modify pin). Qed.

Lemma change_confirmed path pin r :
  IsMempool r = false -> change_of path false pin r = asked path false pin r.
Proof. intros H. by rewrite change_eq, merge_confirmed. Qed.
Lemma change_pending path pin r : change_of path true pin (pending r) = pending (asked path false pin r).
Proof.
  rewrite change_eq, merge_mempool by apply asked_fields. unfold asked, modification, revocation.
  destruct (is_modify pin), r; reflexivity.
Qed.
(** A replayed pin that is not the pending one leaves the pending change in place. *)
Lemma change_pend path pin r m :
  CurrentPinId m <> "" -> CurrentPinId m <> SourcePinId r -> CurrentPinId m <> pin_Id pin ->
  change_of path false pin (pend r m) = pend (asked path false pin r) m.
Proof.
  intros H1 H2 H3. rewrite change_eq, merge_replays; [|apply asked_fields|done].
  change (CurrentPinId (pend r m)) with (CurrentPinId m).
  change (SourcePinId (pend r m)) with (SourcePinId r).
  rewrite (nonempty _ H1). apply String.eqb_neq in H2, H3. rewrite H2, H3. cbn [orb].
  unfold asked, modification, revocation, pend. destruct (is_modify pin), r, m; reflexivity.
Qed.
(** The pending pin itself, confirmed: nothing of the mempool is left. *)
Lemma change_last path pin r :
  change_of path false pin (pend r (pending (asked path false pin r))) = asked path false pin r.
Proof.
  rewrite change_eq, merge_replays; [|apply asked_fields|done].
  change (CurrentPinId (pend r (pending (asked path false pin r)))) with
    (CurrentPinId (asked path false pin r)).
  rewrite (proj1 (proj2 (asked_fields path false pin r))), String.eqb_refl, orb_true_r.
  unfold asked. destruct (is_modify pin) eqn:Em.
  - unfold modification, pend, pending. apply String.eqb_eq in Em. destruct r. cbn. rewrite Em.
    change (String.eqb OperationModify OperationRevoke) with false.
    destruct (String.eqb Operation OperationRevoke) eqn:Er, (pr_exposed (extractPayload pin)) eqn:Ep; cbn;
      rewrite ?Er, ?Ep; reflexivity.
  - unfold revocation, pend, pending. destruct r. cbn. by repeat case_match.
Qed.

(** The record the changes [pins] leave, from the confirmed record [r]. *)
Definition confirm (path : string) (pins : list PinInscription) (r : Record_) : Record_ :=
  foldl (fun r pin => asked path false pin r) r pins.
Definition distinct_ids (src : string) (pins : list PinInscription) : Prop :=
  NoDup (map pin_Id pins) /\ Forall (fun pin => pin_Id pin <> "" /\ pin_Id pin <> src) pins.
Lemma confirm_confirmed path pins r : IsMempool r = false -> IsMempool (confirm path pins r) = false.
Proof.
  unfold confirm. revert r. induction pins as [|pin pins IH]; intros r Hr; [done|]. apply IH, asked_fields.
Qed.
Lemma confirm_current path pins r :
  pins <> [] -> CurrentPinId (confirm path pins r) ∈ map pin_Id pins.
Proof.
  unfold confirm. induction pins as [|pin pins _] using rev_ind; [done|]. intros _. rewrite foldl_snoc, map_app.
  rewrite (proj1 (proj2 (asked_fields _ _ _ _))). apply elem_of_app. right. by left.
Qed.
Lemma run_confirmed path pins r :
  IsMempool r = false -> foldl (fun r pin => change_of path false pin r) r pins = confirm path pins r.
Proof.
  unfold confirm. revert r. induction pins as [|pin pins IH]; intros r Hr; [done|]. cbn [foldl].
  rewrite change_confirmed by done. apply IH, asked_fields.
Qed.
Lemma run_pending path pins r :
  foldl (fun r pin => change_of path true pin r) (pending r) pins = pending (confirm path pins r).
Proof.
  unfold confirm. revert r. induction pins as [|pin pins IH]; intros r; [done|]. cbn [foldl].
  by rewrite change_pending, IH.
Qed.
Lemma run_replayed path pins r :
  pins <> [] -> distinct_ids (SourcePinId r) pins ->
  foldl (fun r pin => change_of path false pin r) (pend r (pending (confirm path pins r))) pins
  = confirm path pins r.
Proof.
  revert r. induction pins as [|pin pins IH]; intros r Hne [Hd Hf]; [done|].
  apply Forall_cons in Hf as [[Hid Hs] Hf]. cbn [map] in Hd. apply NoDup_cons in Hd as [Hnot Hd].
  destruct (decide (pins = [])) as [->|Hp].
  { cbn. apply change_last. }
  cbn [foldl]. change (confirm path (pin :: pins) r) with (confirm path pins (asked path false pin r)).
  pose proof (confirm_current path pins (asked path false pin r) Hp) as Hcur.
  rewrite change_pend.
  - apply IH; [done|]. rewrite (proj2 (proj2 (asked_fields _ _ _ _))). by split.
  - intros E. rewrite Forall_forall in Hf. apply list_elem_of_In, in_map_iff in Hcur as (x & Ex & Hx).
    destruct (Hf x) as [Hx' _]; [by apply list_elem_of_In|]. apply Hx'. rewrite Ex. exact E.
  - intros E. rewrite Forall_forall in Hf. apply list_elem_of_In, in_map_iff in Hcur as (x & Ex & Hx).
    destruct (Hf x) as [_ Hx']; [by apply list_elem_of_In|]. apply Hx'. rewrite Ex. exact E.
  - intros E. apply Hnot. by rewrite <- E.
Qed.

(** ** One content in the store *)

Section Content.
Context (c path src : string).

(** A create pin of the content, and a pin that modifies or revokes it. *)
Record creates (pin : PinInscription) : Prop := {
  cr_good : good_pin pin;
  cr_usable : usable pin;
  cr_path : protocolPathFromPinPath (pin_Path pin) = path;
  cr_op : normaliseOperation (pin_Operation pin) = OperationCreate;
  cr_chain : pin_ChainName pin = c;
  cr_id : pin_Id pin = src }.
Record changes (pin : PinInscription) : Prop := {
  ch_good : good_pin pin;
  ch_usable : usable pin;
  ch_path : protocolPathFromPinPath (pin_Path pin) = path;
  ch_op : normaliseOperation (pin_Operation pin) ∈ [OperationModify; OperationRevoke];
  ch_chain : pin_ChainName pin = c;
  ch_target : targetPinID pin = src }.
Context (Hp : isPublishedProtocol path = true) (Hc : c <> "") (Hs : src <> "") (Htrim : TrimSpace src = src).

Record content (s : St) (r : Record_) : Prop := {
  co_ready : ready s;
  co_holds : holds (view s) c path src r;
  co_source : view s !! pinToSourceKey c src = Some src }.

Lemma at_source_own s : ready s -> view s !! pinToSourceKey c src = Some src -> at_source c src s = src.
Proof.
  intros Hr Hm. destruct (touch_ready s Hr) as [[Hok _] Hv]. unfold at_source, sourcePinIdFor.
  rewrite (nonempty c Hc), (nonempty src Hs). cbn [orb source_loop].
  rewrite bool_decide_eq_false_2 by apply not_elem_of_nil. rewrite kv_Get_ok by done.
  change (kv_view ?s published_ns) with (view s). rewrite Hv, Hm, Htrim, (nonempty src Hs), String.eqb_refl.
  reflexivity.
Qed.
Lemma saved_source rec previous m :
  SourcePinId rec = src ->
  CurrentPinId rec = src /\ ChainName rec = c \/ m !! pinToSourceKey c src = Some src ->
  saved rec previous m !! pinToSourceKey c src = Some src.
Proof.
  intros Hsrc Hm. unfold saved.
  assert (Hx : forall r, pinToSourceKey c src ∉ index_keys r) by (intros r H%index_keys_kind; done).
  rewrite insert_empty_lookup, bool_decide_eq_false_2 by apply Hx.
  assert (Hd : forall v, <[key_of rec := v]> (match previous with
             | Some p => delete_keys (index_keys p) m | None => m end) !! pinToSourceKey c src
           = m !! pinToSourceKey c src).
  { intros v. rewrite lookup_insert_ne by done. destruct previous; [|done].
    by rewrite delete_keys_lookup, bool_decide_eq_false_2 by apply Hx. }
  destruct Hm as [[E1 E2]|Hm].
  - rewrite E1, (nonempty src Hs), E2, lookup_insert_eq. by rewrite Hsrc.
  - destruct (is_empty (CurrentPinId rec)); [by rewrite Hd|]. rewrite lookup_insert, Hd, Hsrc.
    by case_decide.
Qed.
Lemma content_saved s s' r rec :
  content s r -> ready s' -> wf_record rec -> keyed c path src rec -> view s' = saved rec (Some r) (view s) ->
  content s' rec.
Proof.
  intros [Hr Hh Hm] Hr' Hw Hk Hv. split; [done| |]; rewrite Hv; [by apply holds_saved|].
  apply saved_source; [apply Hk|by right].
Qed.

(** The handlers on the content, one pin at a time. *)
Lemma create_absent pin b s :
  ready s -> creates pin -> view s !! recordKey c path src = None ->
  content (handle (b, pin) s).2 (newRecordFromPin pin path src b).
Proof.
  intros Hr [Hg Hu Hpa Hop Hch Hid] Hno.
  destruct (handle_step (b, pin) s Hr Hg) as (_ & Hr' & _). rewrite handle_eq in *. cbn [fst snd] in *.
  unfold processPin in *. rewrite (nonempty _ (proj1 Hu)), (nonempty _ (proj2 Hu)), Hpa, Hp, Hop in *.
  cbv zeta in *. cbn [orb negb] in *. rewrite String.eqb_refl in *.
  destruct (create_exact pin path b s Hr Hg Hu Hp) as (o & s' & E & Hf & _ & Hv). rewrite E in *. cbn [snd] in *.
  rewrite Hch, Hid in Hf. destruct o as [ex|]; [by rewrite (holds_key _ _ _ _ _ Hf) in Hno|].
  unfold created in Hv. rewrite Hid in Hv. pose proof (new_keyed pin path src b Hg) as Hk. rewrite Hch in Hk.
  split; [done| |]; rewrite Hv.
  - apply holds_saved; [|done]. apply wf_new; try done; [apply Hu|]. rewrite <- Hid. by apply good_id.
  - apply saved_source; [done|]. left. split; [done|apply Hk].
Qed.
Lemma create_replayed pin s ex :
  content s ex -> IsMempool ex = true -> creates pin ->
  content (handle (false, pin) s).2
    (mergeConfirmedReplayWithPendingCurrent ex (newRecordFromPin pin path src false) src).
Proof.
  intros Hco Hm [Hg Hu Hpa Hop Hch Hid]. pose proof (co_ready _ _ Hco) as Hr.
  destruct (handle_step (false, pin) s Hr Hg) as (_ & Hr' & _). rewrite handle_eq in *. cbn [fst snd] in *.
  unfold processPin in *. rewrite (nonempty _ (proj1 Hu)), (nonempty _ (proj2 Hu)), Hpa, Hp, Hop in *.
  cbv zeta in *. cbn [orb negb] in *. rewrite String.eqb_refl in *.
  destruct (create_exact pin path false s Hr Hg Hu Hp) as (o & s' & E & Hf & _ & Hv). rewrite E in *. cbn [snd] in *.
  rewrite Hch, Hid in Hf. pose proof (co_holds _ _ Hco) as Hh.
  destruct o as [ex'|]; [|unfold found in Hf; by rewrite (holds_key _ _ _ _ _ Hh) in Hf].
  assert (ex' = ex) as -> by (by eapply holds_inj).
  unfold created in Hv. rewrite Hm, Hid in Hv. cbn [negb andb] in Hv.
  eapply (content_saved s); [done|done| | |exact Hv].
  - apply wf_merge; [apply Hh|]. apply wf_new; try done; [apply Hu|]. rewrite <- Hid. by apply good_id.
  - apply keyed_merge. rewrite <- Hch. by apply new_keyed.
Qed.
Lemma change_content pin b s r :
  content s r -> changes pin -> content (handle (b, pin) s).2 (change_of path b pin r).
Proof.
  intros Hco [Hg Hu Hpa Hop Hch Htg]. pose proof (co_ready _ _ Hco) as Hr.
  destruct (handle_step (b, pin) s Hr Hg) as (_ & Hr' & _). rewrite handle_eq in *. cbn [fst snd] in *.
  assert (Hdo : processPin pin b s = process_update (change_of path b pin) pin path s).
  { unfold processPin. rewrite (nonempty _ (proj1 Hu)), (nonempty _ (proj2 Hu)), Hpa, Hp.
    cbv zeta. cbn [orb negb]. unfold change_of, is_modify.
    apply elem_of_cons in Hop as [->|Hop]; [done|]. by apply list_elem_of_singleton in Hop as ->. }
  rewrite Hdo in *.
  assert (Hwhich : change_of path b pin = modified pin path b \/ change_of path b pin = revoked pin b)
    by (unfold change_of; case_match; auto).
  destruct (change_exact pin path b (change_of path b pin) s Hr Hg Hu Hp Hwhich) as (o & s' & E & Hf & _ & Hv).
  rewrite E in *. cbn [snd] in *. pose proof (co_holds _ _ Hco) as Hh.
  unfold target_found in Hf. rewrite Hch, Htg, (at_source_own s Hr (co_source _ _ Hco)) in Hf.
  destruct Hf as [[[?|?] _]|(_ & _ & Hf)]; [done|done|].
  destruct o as [r'|]; [|unfold found in Hf; by rewrite (holds_key _ _ _ _ _ Hh) in Hf].
  assert (r' = r) as -> by (by eapply holds_inj).
  destruct (change_ok pin path b r (change_of path b pin) c path src (view s)) as [Hw Hk]; try done; [apply Hu|].
  unfold changed in Hv. destruct Hh as (Hwr & Hst & Hkr).
  split; [done| |]; rewrite Hv.
  - by apply holds_source, holds_saved.
  - rewrite lookup_insert. case_decide as Ek; [by rewrite (proj2 (proj2 Hkr))|].
    apply saved_source; [apply Hk|]. right. apply Hco.
Qed.
Lemma run_changes b pins s r :
  content s r -> Forall changes pins ->
  content (run_pins (map (pair b) pins) s) (foldl (fun r pin => change_of path b pin r) r pins).
Proof.
  intros Hco Hf. revert s r Hco. induction Hf as [|pin pins Hpin _ IH]; intros s r Hco; [done|].
  cbn [map foldl]. by apply IH, change_content.
Qed.
End Content.

(** The block pins over the state the mempool left. *)
Lemma replay_after_mempool path src create pins :
  pin_Id create = src -> distinct_ids src pins ->
  let n := newRecordFromPin create path src false in
  let m := pending (confirm path pins n) in
  foldl (fun r pin => change_of path false pin r) (mergeConfirmedReplayWithPendingCurrent m n src) pins
  = confirm path pins n.
Proof.
  intros Hid Hd. cbv zeta. set (n := newRecordFromPin create path src false).
  rewrite merge_replays by done. change (CurrentPinId (pending ?r)) with (CurrentPinId r).
  change (SourcePinId (pending ?r)) with (SourcePinId r).
  destruct (decide (pins = [])) as [->|Hne].
  { cbn [confirm foldl]. change (CurrentPinId n) with (pin_Id create).
    rewrite Hid, String.eqb_refl, !orb_true_r. done. }
  pose proof (confirm_current path pins n Hne) as Hcur.
  apply list_elem_of_In, in_map_iff in Hcur as (x & Ex & Hx). apply list_elem_of_In in Hx.
  destruct Hd as [Hnd Hf]. pose proof Hf as Hf'. rewrite Forall_forall in Hf'. destruct (Hf' x Hx) as [Hx1 Hx2].
  assert (Hsrc : SourcePinId (confirm path pins n) = src).
  { clear. unfold confirm. induction pins as [|pin pins IH] using rev_ind; [done|].
    rewrite foldl_snoc. by rewrite (proj2 (proj2 (asked_fields _ _ _ _))). }
  rewrite Hsrc, <- Ex, (nonempty _ Hx1). apply String.eqb_neq in Hx2. rewrite Hx2. cbn [orb].
  by apply run_replayed.
Qed.

(** The record a reader finds under a key. *)
Definition record_of (c path src : string) (s : St) : res Record_ :=
  match kv_view s published_ns !! recordKey c path src with
  | Some v => json_Unmarshal v
  | None => Err "not found"
  end.
Lemma content_record c path src s r : content c path src s r -> record_of c path src s = Ok r.
Proof.
  intros [_ Hh _]. unfold record_of. change (kv_view s published_ns) with (view s).
  rewrite (holds_key _ _ _ _ _ Hh). by apply json_roundtrip, wf_faithful, Hh.
Qed.

(** C32: Whatever has happened before, let the mempool deliver the create pin of a
    content and then pins that modify or revoke it, with distinct ids, and let
    blocks confirm them in the same order: the mempool shows the record the blocks
    are going to leave, marked as unconfirmed, and afterwards the record is the
    same as if the blocks alone had come, whoever signed the pins, with or without
    payloads, revocations included. *)
Theorem mempool_leaves_no_trace c path src create pins es s0 :
  let s := run_pins es s0 in
  let blocks := map (pair false) (create :: pins) in
  let mempool := map (pair true) (create :: pins) in
  kv_ok s0 published_ns = true -> kv_view s0 published_ns = ∅ -> Forall (fun e => good_pin e.2) es ->
  isPublishedProtocol path = true -> TrimSpace src = src ->
  creates c path src create -> Forall (changes c path src) pins -> distinct_ids src pins ->
  kv_view s published_ns !! recordKey c path src = None ->
  exists r, IsMempool r = false
    /\ record_of c path src (run_pins blocks s) = Ok r
    /\ record_of c path src (run_pins mempool s) = Ok (r <| IsMempool := true |>)
    /\ record_of c path src (run_pins (mempool ++ blocks) s) = Ok r.
Proof.
  intros s blocks mempool Hok Hv Hg Hp Htrim Hcr Hch Hd Hno.
  pose proof (cr_id _ _ _ _ Hcr) as Hid. destruct (cr_usable _ _ _ _ Hcr) as [Hc Hs].
  rewrite (cr_chain _ _ _ _ Hcr) in Hc. rewrite Hid in Hs.
  assert (Hr : ready s).
  { by apply start_ready. }
  set (n := newRecordFromPin create path src false).
  assert (Hb : content c path src (run_pins blocks s) (confirm path pins n)).
  { rewrite <- run_confirmed by done. unfold blocks. cbn [map]. apply run_changes; [done..| |done].
    by apply create_absent. }
  assert (Hm : content c path src (run_pins mempool s) (pending (confirm path pins n))).
  { rewrite <- run_pending. unfold mempool. cbn [map]. apply run_changes; [done..| |done].
    change (pending n) with (newRecordFromPin create path src true). by apply create_absent. }
  assert (Hb' : content c path src (run_pins (mempool ++ blocks) s) (confirm path pins n)).
  { pose proof (replay_after_mempool path src create pins Hid Hd) as E. cbv zeta in E. fold n in E.
    rewrite run_app. rewrite <- E. clear E.
    unfold blocks. cbn [map]. apply run_changes; [done..| |done]. by apply create_replayed. }
  exists (confirm path pins n). split; [by apply confirm_confirmed|].
  split; [by apply content_record|]. split; [exact (content_record _ _ _ _ _ Hm)|by apply content_record].
Qed.

Lemma newly_created c path src create s :
  ready s -> isPublishedProtocol path = true -> TrimSpace src = src -> creates c path src create ->
  kv_view s published_ns !! recordKey c path src = None ->
  c <> "" /\ src <> ""
  /\ content c path src (run_pins [(false, create)] s) (newRecordFromPin create path src false).
Proof.
  intros Hr Hp Htrim Hcr Hno. destruct (cr_usable _ _ _ _ Hcr) as [Hc Hs].
  rewrite (cr_chain _ _ _ _ Hcr) in Hc. rewrite (cr_id _ _ _ _ Hcr) in Hs.
  split; [done|]. split; [done|]. by apply create_absent.
Qed.

(** A confirmed revoke is lost when the mempool has delivered a modify pin for
    the content, by anyone, that a later block confirms: the content stays
    visible, while a node that saw the blocks alone hides it. *)
Theorem pending_change_swallows_revoke c path src create modify revoke es s0 :
  let s := run_pins es s0 in
  kv_ok s0 published_ns = true -> kv_view s0 published_ns = ∅ -> Forall (fun e => good_pin e.2) es ->
  isPublishedProtocol path = true -> TrimSpace src = src ->
  creates c path src create -> changes c path src modify -> changes c path src revoke ->
  is_modify modify = true -> is_modify revoke = false -> distinct_ids src [modify; revoke] ->
  kv_view s published_ns !! recordKey c path src = None ->
  exists r r',
    record_of c path src
      (run_pins [(false, create); (true, modify); (false, revoke); (false, modify)] s) = Ok r
    /\ Hidden r = false /\ IsMempool r = false
    /\ record_of c path src (run_pins [(false, create); (false, revoke); (false, modify)] s) = Ok r'
    /\ Hidden r' = true /\ IsMempool r' = false.
Proof.
  intros s Hok Hv Hg Hp Htrim Hcr Hm Hrv Em Er [Hd Hids] Hno.
  destruct (newly_created c path src create s (start_ready es s0 Hok Hv Hg) Hp Htrim Hcr Hno) as (Hc & Hs & Hco).
  set (n := newRecordFromPin create path src false) in *.
  apply Forall_cons in Hids as [[Hi1 Hi2] _]. cbn [map] in Hd. apply NoDup_cons in Hd as [Hd _].
  assert (Hne : pin_Id modify <> pin_Id revoke) by (intros E; apply Hd; rewrite E; by left).
  assert (Hop : normaliseOperation (pin_Operation modify) = OperationModify) by by apply String.eqb_eq.
  set (n1 := change_of path true modify n).
  assert (E1 : n1 = asked path true modify n) by (unfold n1; rewrite change_eq; by apply merge_mempool, asked_fields).
  assert (F1 : CurrentPinId n1 = pin_Id modify /\ SourcePinId n1 = src /\ IsMempool n1 = true
    /\ Operation n1 = OperationModify /\ Hidden n1 = false).
  { rewrite E1. unfold asked. rewrite Em. unfold modification. cbn.
    rewrite Hop. unfold n. cbn. rewrite (cr_op _ _ _ _ Hcr). by split. }
  destruct F1 as (F1 & F2 & F3 & F4 & F5).
  set (n2 := change_of path false revoke n1).
  assert (E2 : n2 = pend (asked path false revoke n1) n1).
  { unfold n2. rewrite change_eq, merge_replays; [|apply asked_fields|done].
    rewrite F1, F2, (nonempty _ Hi1). apply String.eqb_neq in Hi2, Hne. by rewrite Hi2, Hne. }
  set (n3 := change_of path false modify n2).
  assert (E3 : n3 = asked path false modify n2).
  { unfold n3. rewrite change_eq, merge_replays; [|apply asked_fields|by rewrite E2].
    assert (Ec : CurrentPinId n2 = pin_Id modify) by (rewrite E2; exact F1).
    by rewrite Ec, String.eqb_refl, orb_true_r. }
  exists n3, (asked path false modify (asked path false revoke n)).
  assert (H1 := change_content c path src Hp Hc Hs Htrim modify true _ _ Hco Hm).
  assert (H2 := change_content c path src Hp Hc Hs Htrim revoke false _ _ H1 Hrv).
  assert (H3 := change_content c path src Hp Hc Hs Htrim modify false _ _ H2 Hm).
  assert (B1 := change_content c path src Hp Hc Hs Htrim revoke false _ _ Hco Hrv).
  assert (B2 := change_content c path src Hp Hc Hs Htrim modify false _ _ B1 Hm).
  rewrite (change_confirmed path revoke n), change_confirmed in B2 by (done || apply asked_fields).
  split; [exact (content_record _ _ _ _ _ H3)|].
  split.
  { rewrite E3. unfold asked. rewrite Em. unfold modification.
    assert (Eo : Operation n2 = OperationModify) by (rewrite E2; exact F4). rewrite Eo. cbn. by rewrite Hop. }
  split; [rewrite E3; apply asked_fields|]. split; [exact (content_record _ _ _ _ _ B2)|].
  split; [|apply asked_fields]. unfold asked. by rewrite Em, Er.
Qed.

(** An update is taken from anyone: the content passes to the address that signed
    the modify pin. *)
Lemma modify_takes_over c path src create modify es s0 :
  let s := run_pins es s0 in
  let author := firstNonEmpty [pin_Address modify; pin_CreateAddress modify] in
  kv_ok s0 published_ns = true -> kv_view s0 published_ns = ∅ -> Forall (fun e => good_pin e.2) es ->
  isPublishedProtocol path = true -> TrimSpace src = src ->
  creates c path src create -> changes c path src modify -> is_modify modify = true ->
  kv_view s published_ns !! recordKey c path src = None -> author <> "" ->
  exists r, record_of c path src (run_pins [(false, create); (false, modify)] s) = Ok r
    /\ SourcePinId r = src /\ PublisherAddress r = author
    /\ (pr_exposed (extractPayload modify) = true -> PayloadText r = pr_text (extractPayload modify)).
Proof.
  intros s author Hok Hv Hg Hp Htrim Hcr Hm Em Hno Ha.
  destruct (newly_created c path src create s (start_ready es s0 Hok Hv Hg) Hp Htrim Hcr Hno) as (Hc & Hs & Hco).
  assert (H1 := change_content c path src Hp Hc Hs Htrim modify false _ _ Hco Hm).
  rewrite change_confirmed in H1 by done. eexists. split; [exact (content_record _ _ _ _ _ H1)|].
  unfold asked. rewrite Em. unfold modification. cbn -[firstNonEmpty]. fold author. rewrite (nonempty _ Ha).
  split; [done|]. split; [done|]. by intros ->.
Qed.
End Published.
