(* ===== verification/PublishedContentBackfill.v ===== *)
(** * PublishedContentBackfill: feeding published content from elsewhere

    [publishedcontent/backfill.go] reads the pins of a MANAPI service page by page,
    [publishedcontent/replay.go] those of a range of blocks, and
    [cmd/metaso-p2p/publishedcontent_replay.go] finds the first block of that range
    by its time. *)

From S2P Require Import Prelude GoText Json Storage Aggregator Effects Backfill IdAddress PublishedContent PublishedContentFacts PublishedContentRuns.

(** ** Pages ([backfill.go]) *)

(** The decoded answer: a list that is absent is [None]. *)
Record backfillEnvelope := mkEnvelope {
  be_Code : Z;
  be_Message : string;
  be_List : option (list manapiPin);
  be_NextCursor : string;
  be_Cursor : string;
  be_DataList : option (list manapiPin);
  be_DataNextCursor : string;
  be_DataCursor : string }.
Definition decodeBackfillPage (envelope : res backfillEnvelope) : res backfillPage :=
  match envelope with
  | Err e => Err ("decode MANAPI backfill response: " +:+ e)
  | Ok envelope =>
      if negb (be_Code envelope =? 0) && negb (be_Code envelope =? 1)
      then Err ("MANAPI backfill failed: code=" +:+ fmt_d (be_Code envelope) +:+ " message="
                +:+ be_Message envelope)
      else
        let pins := match be_DataList envelope with Some l => Some l | None => be_List envelope end in
        Ok (mkPage (default [] pins)
              (firstNonEmpty [be_DataNextCursor envelope; be_DataCursor envelope; be_NextCursor envelope;
                              be_Cursor envelope]))
  end.
Definition toAggregatorPin (p : manapiPin) : PinInscription :=
  mkPin (TrimSpace (mp_ID p)) 0 (TrimSpace (mp_Path p)) (TrimSpace (mp_OriginalPath p))
    (TrimSpace (mp_Operation p)) (mp_ContentBody p) (TrimSpace (mp_ContentSummary p))
    (TrimSpace (mp_ContentType p)) "" (TrimSpace (mp_CreateAddress p)) (TrimSpace (mp_CreateMetaId p))
    (TrimSpace (mp_MetaId p)) (TrimSpace (mp_GlobalMetaId p)) (TrimSpace (mp_Address p))
    (TrimSpace (mp_ChainName p)) "" (mp_GenesisHeight p) (mp_Timestamp p) "" false
    (TrimSpace (mp_OriginalId p)) "".
Definition defaultBackfillPageSize : Z := 100.
Definition all_paths : list string := [PathSimpleBuzz; PathMetaApp; PathMetaBotSkill].
Definition normaliseBackfillPaths (paths : list string) : list string :=
  match paths with
  | [] => all_paths
  | _ => List.filter (fun p => negb (is_empty p)) (map protocolPathFromPinPath paths)
  end.

(** ** Blocks ([replay.go]) *)

(** The times of a run, read from the clock, are left out. *)
Record ReplayStats := mkStats {
  st_FromHeight : Z; st_ToHeight : Z;
  st_BlocksScanned : Z; st_PinsSeen : Z; st_PinsMatched : Z; st_PinsIndexed : Z; st_Errors : Z }.
Definition replayProtocolSet (paths : list string) : gset string :=
  list_to_set (normaliseBackfillPaths paths).
Definition replayProtocolAllowed (pin : PinInscription) (allowed : gset string) : bool :=
  bool_decide (protocolPathFromPinPath (pin_Path pin) ∈ allowed).

Section Feeds.
Context {St : Type} {KV : KVOps St} {PJ : PublishedJSON} {B58 : Base58}.
Open Scope handler_scope.

Definition Backfill (ListPath : string -> string -> Z -> res backfillPage) (fuel : nat)
    (paths : list string) (pageSize : Z) (since : option Z) (s : St) : option (res unit * St) :=
  backfill_paths ListPath (fun pin => processPin (toAggregatorPin pin) false) fuel
    (normaliseBackfillPaths paths) (if pageSize <=? 0 then defaultBackfillPageSize else pageSize) since s.

(** [opts.Indexer.CatchPins], and whether the context is done at a height. *)
Variable CatchPins : Z -> res (list PinInscription * list string).
Variable done : Z -> bool.

(** The pins of one block. *)
Fixpoint replay_pins (pins : list PinInscription) (allowed : gset string) (matched indexed errors : Z) (s : St)
    : (Z * Z * Z) * St :=
  match pins with
  | [] => ((matched, indexed, errors), s)
  | pin :: pins =>
      if negb (replayProtocolAllowed pin allowed) then replay_pins pins allowed matched indexed errors s
      else
        match HandleBlockPin pin s with
        | (Err _, s) => replay_pins pins allowed (matched + 1) indexed (errors + 1) s
        | (Ok _, s) => replay_pins pins allowed (matched + 1) (indexed + 1) errors s
        end
  end.
(** One height; what [OnProgress] is told, if the counter says so. *)
Definition replay_block (height progressEvery : Z) (allowed : gset string) (stats : ReplayStats) (s : St)
    : ReplayStats * list ReplayStats * St :=
  match CatchPins height with
  | Err _ =>
      (mkStats (st_FromHeight stats) (st_ToHeight stats) (st_BlocksScanned stats) (st_PinsSeen stats)
         (st_PinsMatched stats) (st_PinsIndexed stats) (st_Errors stats + 1), [], s)
  | Ok (pins, _) =>
      let '((matched, indexed, errors), s) :=
        replay_pins pins allowed (st_PinsMatched stats) (st_PinsIndexed stats) (st_Errors stats) s in
      let stats := mkStats (st_FromHeight stats) (st_ToHeight stats) (st_BlocksScanned stats + 1)
        (st_PinsSeen stats + Z.of_nat (length pins)) matched indexed errors in
      (stats, if Z.rem (st_BlocksScanned stats) progressEvery =? 0 then [stats] else [], s)
  end.
Fixpoint replay_loop (n : nat) (height progressEvery : Z) (allowed : gset string) (stats : ReplayStats)
    (told : list ReplayStats) (s : St) : ReplayStats * res unit * list ReplayStats * St :=
  match n with
  | O => (stats, Ok tt, told ++ [stats], s)
  | S n =>
      if done height then (stats, Err "context canceled", told, s)
      else
        let '(stats, more, s) := replay_block height progressEvery allowed stats s in
        replay_loop n (height + 1) progressEvery allowed stats (told ++ more) s
  end.
(** The statistics, the error, what [OnProgress] was told, and the store. *)
Definition ReplayBlocks (from to : Z) (paths : list string) (progressEvery : Z) (s : St)
    : ReplayStats * res unit * list ReplayStats * St :=
  let stats := mkStats from to 0 0 0 0 0 in
  if (from <=? 0) || (to <? from)
  then (stats, Err "publishedcontent replay requires a valid height range", [], s)
  else replay_loop (Z.to_nat (to - from + 1)) from (if progressEvery <=? 0 then 100 else progressEvery)
         (replayProtocolSet paths) stats [] s.
End Feeds.

(** ** The first block of a time ([publishedcontent_replay.go]) *)

Section FindHeight.
Variable GetBlockTime : Z -> res Z.

Fixpoint height_search (fuel : nat) (lower left right result targetUnix : Z) : option Z :=
  match fuel with
  | O => None
  | S fuel =>
      if right <? left then Some result else
      let mid := left + (right - left) / 2 in
      match GetBlockTime mid with
      | Err _ => Some lower
      | Ok ts =>
          if targetUnix <=? ts then height_search fuel lower left (mid - 1) mid targetUnix
          else height_search fuel lower (mid + 1) right result targetUnix
      end
  end.
Definition findHeightAtOrAfter (fuel : nat) (lower upper targetUnix : Z) : option Z :=
  let lower := if lower <=? 0 then 1 else lower in
  if upper <? lower then Some 0 else height_search fuel lower lower upper upper targetUnix.
End FindHeight.

(** ** Facts *)

Section ReplayFacts.
Context {St : Type} {KV : KVOps St} {KVS : KVStore St} {PJ : PublishedJSON} {B58 : Base58}.
Variable CatchPins : Z -> res (list PinInscription * list string).

(** The allowed pins of the blocks from [height], and how many blocks, pins and
    failures they count. *)
Definition block_pins (height : Z) : list PinInscription :=
  match CatchPins height with Ok (pins, _) => pins | Err _ => [] end.
Definition heights (from : Z) (n : nat) : list Z := map (fun i => from + Z.of_nat i) (seq 0 n).
Definition range_pins (from : Z) (n : nat) : list PinInscription :=
  List.concat (map block_pins (heights from n)).
Definition allowed_pins (paths : list string) (pins : list PinInscription) : list PinInscription :=
  List.filter (fun pin => replayProtocolAllowed pin (replayProtocolSet paths)) pins.
Definition failed (from : Z) (n : nat) : list Z :=
  List.filter (fun h => negb (is_ok (CatchPins h))) (heights from n).

Lemma heights_S from n : heights from (S n) = from :: heights (from + 1) n.
Proof.
  unfold heights. cbn [seq map]. f_equal; [lia|]. rewrite <- seq_shift, map_map.
  apply map_ext. intros i. lia.
Qed.
Lemma replay_pins_exact allowed pins matched indexed errors s :
  ready s -> Forall good_pin pins ->
  let ok := List.filter (fun pin => replayProtocolAllowed pin allowed) pins in
  replay_pins pins allowed matched indexed errors s
  = ((matched + Z.of_nat (length ok), indexed + Z.of_nat (length ok), errors),
     run_pins (map (pair false) ok) s)
  /\ ready (run_pins (map (pair false) ok) s).
Proof.
  intros Hr Hg. revert matched indexed s Hr. induction Hg as [|pin pins Hp _ IH]; intros matched indexed s Hr.
  { cbn. by rewrite !Z.add_0_r. }
  cbv zeta in *. cbn [replay_pins List.filter].
  destruct (replayProtocolAllowed pin allowed); cbn [negb]; [|by apply IH].
  destruct (handle_step (false, pin) s Hr Hp) as (E & Hr' & _).
  change (run_pins (map (pair false) (pin :: ?l)) s) with (run_pins (map (pair false) l) (handle (false, pin) s).2).
  change (HandleBlockPin pin s) with (handle (false, pin) s).
  destruct (handle (false, pin) s) as [r s1]. cbn [fst snd] in *. subst r.
  destruct (IH (matched + 1) (indexed + 1) s1 Hr') as [-> Hr2].
  cbn [length]. split; [|done]. rewrite Nat2Z.inj_succ. set (k := Z.of_nat _).
  replace (matched + Z.succ k) with (matched + 1 + k) by lia.
  by replace (indexed + Z.succ k) with (indexed + 1 + k) by lia.
Qed.
Definition add_stats (st : ReplayStats) (blocks seen ok errors : Z) : ReplayStats :=
  mkStats (st_FromHeight st) (st_ToHeight st) (st_BlocksScanned st + blocks) (st_PinsSeen st + seen)
    (st_PinsMatched st + ok) (st_PinsIndexed st + ok) (st_Errors st + errors).
Lemma add_stats_add st b s o e b' s' o' e' :
  add_stats (add_stats st b s o e) b' s' o' e' = add_stats st (b + b') (s + s') (o + o') (e + e').
Proof. unfold add_stats. cbn. f_equal; lia. Qed.
Definition counted (paths : list string) (from : Z) (n : nat) (st : ReplayStats) : ReplayStats :=
  add_stats st (Z.of_nat n - Z.of_nat (length (failed from n))) (Z.of_nat (length (range_pins from n)))
    (Z.of_nat (length (allowed_pins paths (range_pins from n)))) (Z.of_nat (length (failed from n))).
Lemma counted_S paths from n st :
  counted paths from (S n) st
  = counted paths (from + 1) n
      (add_stats st (if is_ok (CatchPins from) then 1 else 0) (Z.of_nat (length (block_pins from)))
         (Z.of_nat (length (allowed_pins paths (block_pins from)))) (if is_ok (CatchPins from) then 0 else 1)).
Proof.
  unfold counted, failed, range_pins. rewrite heights_S, add_stats_add. cbn [map List.concat List.filter].
  unfold allowed_pins. rewrite List.filter_app, !length_app, !Nat2Z.inj_add, Nat2Z.inj_succ.
  destruct (is_ok (CatchPins from)); cbn [negb length]; rewrite ?Nat2Z.inj_succ; f_equal; lia.
Qed.
Lemma replay_block_exact progressEvery paths height st s :
  ready s -> Forall good_pin (block_pins height) ->
  let ok := allowed_pins paths (block_pins height) in
  exists more,
    replay_block CatchPins height progressEvery (replayProtocolSet paths) st s
    = (add_stats st (if is_ok (CatchPins height) then 1 else 0) (Z.of_nat (length (block_pins height)))
         (Z.of_nat (length ok)) (if is_ok (CatchPins height) then 0 else 1), more,
       run_pins (map (pair false) ok) s)
    /\ ready (run_pins (map (pair false) ok) s).
Proof.
  intros Hr Hg. cbv zeta. unfold replay_block, block_pins in *.
  destruct (CatchPins height) as [[pins ids]|e]; cbn [is_ok].
  - destruct (replay_pins_exact (replayProtocolSet paths) pins (st_PinsMatched st) (st_PinsIndexed st)
      (st_Errors st) s Hr Hg) as [E Hr']. fold (allowed_pins paths pins) in E, Hr'.
    rewrite E. cbv beta iota zeta. eexists. split; [|done]. unfold add_stats. by rewrite Z.add_0_r.
  - exists []. split; [|done]. unfold add_stats. cbn. by rewrite !Z.add_0_r.
Qed.
Lemma replay_loop_exact progressEvery paths n height st told s :
  ready s -> Forall good_pin (range_pins height n) ->
  exists told',
    replay_loop CatchPins (fun _ => false) n height progressEvery (replayProtocolSet paths) st told s
    = (counted paths height n st, Ok tt, told',
       run_pins (map (pair false) (allowed_pins paths (range_pins height n))) s).
Proof.
  revert height st told s. induction n as [|n IH]; intros height st told s Hr Hg.
  { exists (told ++ [st]). unfold counted, add_stats. cbn. rewrite !Z.add_0_r. by destruct st. }
  rewrite counted_S. unfold range_pins, allowed_pins in *. rewrite heights_S in *.
  cbn [map List.concat] in *. apply Forall_app in Hg as [Hg Hg'].
  cbn [replay_loop].
  destruct (replay_block_exact progressEvery paths height st s Hr Hg) as (more & E & Hr').
  rewrite E. cbv beta iota zeta. set (st' := add_stats st _ _ _ _).
  destruct (IH (height + 1) st' (told ++ more) _ Hr' Hg') as [told' E'].
  exists told'. rewrite E', List.filter_app, map_app. by rewrite run_app.
Qed.

(** A replay that is not cancelled is the block pins of the range, those of the
    wanted protocols, handled in order; its statistics count them. *)
Lemma ReplayBlocks_exact from to paths progressEvery s :
  kv_ok s published_ns = true -> kv_view s published_ns = ∅ -> 0 < from <= to ->
  let n := Z.to_nat (to - from + 1) in
  let ok := allowed_pins paths (range_pins from n) in
  Forall good_pin (range_pins from n) ->
  exists told,
    ReplayBlocks CatchPins (fun _ => false) from to paths progressEvery s
    = (mkStats from to (Z.of_nat n - Z.of_nat (length (failed from n))) (Z.of_nat (length (range_pins from n)))
         (Z.of_nat (length ok)) (Z.of_nat (length ok)) (Z.of_nat (length (failed from n))),
       Ok tt, told, run_pins (map (pair false) ok) s).
Proof.
  intros Hok Hv Hft n ok Hg. unfold ReplayBlocks.
  replace ((from <=? 0) || (to <? from)) with false by (symmetry; apply orb_false_iff; lia).
  fold n. destruct (replay_loop_exact (if progressEvery <=? 0 then 100 else progressEvery) paths n from
    (mkStats from to 0 0 0 0 0) [] s) as (told & E).
  - split; [done|]. unfold view. rewrite Hv. apply Inv_empty.
  - done.
  - exists told. rewrite E. unfold counted, add_stats.
    cbn [st_FromHeight st_ToHeight st_BlocksScanned st_PinsSeen st_PinsMatched st_PinsIndexed st_Errors].
    by rewrite !Z.add_0_l.
Qed.
End ReplayFacts.

Section FindHeightFacts.
Variable GetBlockTime : Z -> res Z.
Variable target : Z.

(** [h] starts the heights of the range whose block is not older than [target]. *)
Definition first_since (lower upper h : Z) : Prop :=
  lower <= h <= upper
  /\ (forall h' ts, lower <= h' < h -> GetBlockTime h' = Ok ts -> ts < target)
  /\ (forall h' ts, h <= h' < upper -> GetBlockTime h' = Ok ts -> target <= ts).

Lemma height_search_spec fuel lower0 lower upper left right result :
  (forall h h' ts ts', lower <= h <= h' -> h' <= upper ->
     GetBlockTime h = Ok ts -> GetBlockTime h' = Ok ts' -> ts <= ts') ->
  (forall h, lower <= h <= upper -> is_ok (GetBlockTime h) = true) ->
  right - left + 1 < 2 ^ Z.of_nat fuel -> lower <= left <= right + 1 -> lower <= upper -> right <= upper ->
  (forall h ts, lower <= h < left -> GetBlockTime h = Ok ts -> ts < target) ->
  (forall h ts, right < h <= upper -> GetBlockTime h = Ok ts -> target <= ts) ->
  result = right + 1 /\ right < upper \/ result = upper /\ right = upper ->
  exists h, height_search GetBlockTime (S fuel) lower0 left right result target = Some h
    /\ first_since lower upper h.
Proof.
  intros Hmono Htot. revert left right result.
  induction fuel as [|fuel IH]; intros left right result Hf Hl Hlu Hru Hlt Hge Hres; cbn [height_search].
  - change (2 ^ Z.of_nat 0) with 1 in Hf. replace (right <? left) with true by (symmetry; apply Z.ltb_lt; lia).
    exists result. split; [done|]. split; [lia|]. split; intros h ts Hh; [apply Hlt|apply Hge]; lia.
  - destruct (Z.ltb_spec right left) as [Hrl|Hrl].
    { exists result. split; [done|]. split; [lia|]. split; intros h ts Hh; [apply Hlt|apply Hge]; lia. }
    set (mid := left + (right - left) / 2).
    assert (Hmid : left <= mid <= right).
    { unfold mid. pose proof (Z.div_pos (right - left) 2). pose proof (Z.div_le_upper_bound (right - left) 2 (right - left)). lia. }
    assert (Hhalf : 2 * (mid - left) <= right - left /\ right - left <= 2 * (mid - left) + 1).
    { unfold mid. pose proof (Z.div_mod (right - left) 2 ltac:(lia)).
      pose proof (Z.mod_pos_bound (right - left) 2 ltac:(lia)). lia. }
    rewrite Nat2Z.inj_succ, Z.pow_succ_r in Hf by lia.
    destruct (GetBlockTime mid) as [ts|e] eqn:E.
    2: { specialize (Htot mid ltac:(lia)). by rewrite E in Htot. }
    destruct (Z.leb_spec target ts) as [Ht|Ht].
    + apply IH; try lia; [done|].
      intros h ts' Hh E'. destruct (Z.le_gt_cases h right).
      * specialize (Hmono mid h ts ts' ltac:(lia) ltac:(lia) E E'). lia.
      * by apply (Hge h); [lia|].
    + apply IH; try lia; [|done].
      intros h ts' Hh E'. destruct (Z.lt_ge_cases h left).
      * by apply (Hlt h); [lia|].
      * specialize (Hmono h mid ts' ts ltac:(lia) ltac:(lia) E' E). lia.
Qed.
(** 64 steps are enough for every range of heights, and the search finds the first
    height that is not older than the target, or the last one. *)
Lemma findHeight_exact lower upper :
  (forall h h' ts ts', lower <= h <= h' -> h' <= upper ->
     GetBlockTime h = Ok ts -> GetBlockTime h' = Ok ts' -> ts <= ts') ->
  (forall h, lower <= h <= upper -> is_ok (GetBlockTime h) = true) ->
  0 < lower <= upper -> upper < 2 ^ 63 ->
  exists h, findHeightAtOrAfter GetBlockTime 65 lower upper target = Some h /\ first_since lower upper h.
Proof.
  intros Hmono Htot Hlu Hu. unfold findHeightAtOrAfter.
  replace (lower <=? 0) with false by (symmetry; apply Z.leb_gt; lia).
  replace (upper <? lower) with false by (symmetry; apply Z.ltb_ge; lia).
  apply height_search_spec; try done; lia.
Qed.
End FindHeightFacts.
