(* ===== verification/PublishedContentSample.v ===== *)
(** * PublishedContentSample: published content on concrete pins

    A codec of records for evaluation, and the theorems on published content
    applied to short histories. *)

From S2P Require Import Prelude GoText Json Storage Aggregator Effects IdAddress IdAddressFacts PublishedContent PublishedContentFacts PublishedContentRuns PublishedContentLists PublishedContentReplay.
From coqutil.Datatypes Require Import RecordSetters.
Import TriangleBracketNotations.

Definition of_bool (b : bool) : tok := TZ (if b then 1 else 0).
Definition record_JSON : JSON Record_ := via_JSON
  (fun r => map TS (record_texts r) ++ map TZ (record_ints r)
            ++ [of_bool (Hidden r); of_bool (IsMempool r); of_bool (PayloadExposed r)]
            ++ match PayloadJSON r with Some _ => [TS "object"] | None => [] end)
  (fun l => match l with
     | [TS a; TS b; TS c; TS d; TS e; TS f; TS g; TS h; TS i; TS j; TS k; TS l; TS m; TS n;
        TZ o; TZ p; TZ q; TZ r; TZ s; TZ t; TZ u] =>
         Some (mkRecord a b c d e f g h (s =? 1) (t =? 1) i j None (u =? 1) o p q r k l m n)
     | _ => None end).
#[refine] Definition sample_PublishedJSON : PublishedJSON :=
  {| json_Record := record_JSON; unmarshal_object _ := Err "invalid character";
     text_ok _ := True; object_ok o := o = None |}.
Proof.
  - done.
  - intros r _ Ho _. destruct r as [? ? ? ? ? ? ? ? [] [] ? ? o []]; cbn in *; by subst.
Defined.
#[local] Existing Instance sample_PublishedJSON.
#[local] Existing Instance sample_ops_inst.
#[local] Existing Instance sample_store_inst.
#[local] Existing Instance toy_Base58.

(** A pin of [who] on [path]. *)
Definition buzz (id path op body who : string) (time : Z) : PinInscription :=
  mkPin id 0 path "" op body "" "text/plain" "" "" "" ("meta-" +:+ who) ("idq-" +:+ who) ("addr-" +:+ who)
    "mvc" "" 1 time "" false "" "".
Definition post : PinInscription := buzz "t1i0" "/protocols/simplebuzz" "create" "hello" "ann" 10.
Definition post2 : PinInscription := buzz "t2i0" "/protocols/simplebuzz" "create" "again" "ann" 20.
Definition edit : PinInscription := buzz "t3i0" "/protocols/simplebuzz@t1i0" "modify" "HELLO" "bob" 30.
Definition removal : PinInscription := buzz "t4i0" "/protocols/simplebuzz@t1i0" "revoke" "" "ann" 40.

Ltac good := constructor; try done; try (vm_compute; intuition congruence);
  unfold record_texts; repeat constructor.
Lemma good_post : good_pin post. Proof. good. Qed.
Lemma good_post2 : good_pin post2. Proof. good. Qed.
Lemma good_edit : good_pin edit. Proof. good. Qed.
Lemma good_removal : good_pin removal. Proof. good. Qed.

Ltac all_good := repeat first [apply Forall_nil_2|apply Forall_cons_2;
  [first [apply good_post|apply good_post2|apply good_edit|apply good_removal]|]].

Lemma published_invariant_witness :
  (handle (false, edit) (run_pins [(true, post); (false, post2)] empty_store)).1 = Ok None.
Proof.
  apply (published_invariant [(true, post); (false, post2)] (false, edit) empty_store);
    [by vm_compute|by vm_compute|all_good].
Defined.

Definition ann_buzz : ListParams :=
  mkListParams "/protocols/simplebuzz" "" "idq-ann" "" "" 1 false.
Definition titles (r : res ListResult) : option (list string * bool) :=
  match r with Ok l => Some (map PayloadText (lr_Items l), lr_HasMore l) | Err _ => None end.
Lemma List_exact_witness :
  let s := run_pins [(true, post); (false, post2)] empty_store in
  exists all : list Record_,
    (forall r, r ∈ all <->
       kv_view s published_ns !! recordKey (ChainName r) (ProtocolPath r) (SourcePinId r) = Some (json_Marshal r)
       /\ json_faithful r /\ recordMatches r (normaliseListParams ann_buzz) = true)
    /\ map PayloadText (take 1 all) = ["again"] /\ (1 <? Z.of_nat (length all)) = true.
Proof.
  intros s.
  destruct (List_exact [(true, post); (false, post2)] empty_store ann_buzz)
    as (all & _ & Hm & _ & _ & E); [by vm_compute|by vm_compute|all_good| |].
  { intros _. split; [done|]. repeat constructor. }
  exists all. split; [exact Hm|]. apply (f_equal titles) in E.
  change (Z.to_nat (lp_Size (normaliseListParams ann_buzz))) with 1%nat in E.
  change (lp_Size (normaliseListParams ann_buzz)) with 1 in E. cbn [titles lr_Items lr_HasMore] in E.
  vm_compute (titles _) in E. by injection E as <- <-.
Defined.

Definition posted : Record_ := newRecordFromPin post "/protocols/simplebuzz" "t1i0" true.
Lemma revoked_never_listed_witness :
  exists res, List_ ann_buzz (run_pins [(true, post); (true, removal); (false, post); (false, post2)] empty_store)
      = Ok res
    /\ forall r, r ∈ lr_Items res ->
         ~ (ChainName r = "mvc" /\ ProtocolPath r = "/protocols/simplebuzz" /\ SourcePinId r = "t1i0").
Proof.
  apply (revoked_never_listed [(true, post)] true removal [(false, post); (false, post2)] empty_store ann_buzz
    posted).
  - by vm_compute.
  - by vm_compute.
  - cbn [app]. all_good.
  - by vm_compute.
  - by vm_compute.
  - by vm_compute.
  - done.
  - repeat apply Forall_cons_2; [by intros _ H; vm_compute in H| | |apply Forall_nil_2]; intros H; by destruct H.
  - done.
  - done.
  - intros _. split; [done|]. repeat constructor.
  - done.
Defined.

Lemma post_creates : creates "mvc" "/protocols/simplebuzz" "t1i0" post.
Proof. split; [apply good_post|by split|by vm_compute..]. Qed.
Lemma edit_changes : changes "mvc" "/protocols/simplebuzz" "t1i0" edit.
Proof. split; [apply good_edit|by split|by vm_compute| |by vm_compute..]. by left. Qed.
Lemma removal_changes : changes "mvc" "/protocols/simplebuzz" "t1i0" removal.
Proof. split; [apply good_removal|by split|by vm_compute| |by vm_compute..]. right. by left. Qed.
Lemma edits_distinct : distinct_ids "t1i0" [edit; removal].
Proof.
  split; [|by repeat constructor]. apply NoDup_cons. split; [|by apply NoDup_singleton].
  intros H. by apply list_elem_of_singleton in H.
Qed.
Definition record_text (r : res Record_) : option (string * bool * bool) :=
  match r with Ok r => Some (PayloadText r, Hidden r, IsMempool r) | Err _ => None end.

Lemma mempool_leaves_no_trace_witness :
  let s := run_pins [(false, post2)] empty_store in
  let blocks := map (pair false) [post; edit; removal] in
  exists r, record_text (Ok r) = Some ("HELLO", true, false)
    /\ record_of "mvc" "/protocols/simplebuzz" "t1i0" (run_pins blocks s) = Ok r
    /\ record_of "mvc" "/protocols/simplebuzz" "t1i0"
         (run_pins (map (pair true) [post; edit; removal] ++ blocks) s) = Ok r.
Proof.
  cbv zeta.
  destruct (mempool_leaves_no_trace "mvc" "/protocols/simplebuzz" "t1i0" post [edit; removal] [(false, post2)]
    empty_store) as (r & _ & E & _ & E'); [by vm_compute|by vm_compute|all_good|done|done|apply post_creates| | |by vm_compute|].
  - apply Forall_cons_2; [apply edit_changes|]. apply Forall_cons_2; [apply removal_changes|apply Forall_nil_2].
  - apply edits_distinct.
  - exists r. split; [|split; [exact E|exact E']].
    apply (f_equal record_text) in E. rewrite <- E. vm_compute. reflexivity.
Defined.
Lemma pending_change_swallows_revoke_witness :
  exists r r',
    record_of "mvc" "/protocols/simplebuzz" "t1i0"
      (run_pins [(false, post); (true, edit); (false, removal); (false, edit)] empty_store) = Ok r
    /\ Hidden r = false
    /\ record_of "mvc" "/protocols/simplebuzz" "t1i0"
         (run_pins [(false, post); (false, removal); (false, edit)] empty_store) = Ok r'
    /\ Hidden r' = true.
Proof.
  destruct (pending_change_swallows_revoke "mvc" "/protocols/simplebuzz" "t1i0" post edit removal []
    empty_store) as (r & r' & E & H & _ & E' & H' & _);
    [by vm_compute|by vm_compute|apply Forall_nil_2|done|done|apply post_creates|apply edit_changes
    |apply removal_changes|done|done|apply edits_distinct|by vm_compute|].
  exists r, r'. split; [exact E|]. split; [exact H|]. split; [exact E'|exact H'].
Defined.
