(* ===== verification/HttpClients.v ===== *)
(** * HttpClients: the two HTTP clients of the aggregators

    The pages of a MANAPI service, which the backfills of userinfo and publishedcontent
    read with the same client ([backfill.go] of both), and the profiles of a remote
    service ([userinfo/remote.go]).  The escapes and the queries of [net/url] are written
    out; parsing a base URL is the class [NetURL], JSON the class [ClientJSON], the HTTP
    client a transport. *)

From S2P Require Import Prelude GoText Json Storage Aggregator IdAddress IdAddressFacts Federation Publisher Metalet Backfill UserInfo PublishedContent PublishedContentFacts PublishedContentRuns PublishedContentBackfill PublishedContentSample.
From coqutil.Datatypes Require Import RecordSetters.
Import TriangleBracketNotations.

(** ** net/url: escapes *)

Inductive encoding := encodePathSegment | encodeQueryComponent.
Definition unreserved (c : ascii) : bool :=
  let z := Z_of_ascii c in
  ((97 <=? z) && (z <=? 122)) || ((65 <=? z) && (z <=? 90)) || ((48 <=? z) && (z <=? 57))
  || (z =? 45) || (z =? 95) || (z =? 46) || (z =? 126).
Definition one_of (c : ascii) (s : string) : bool := negb (no_char c s).
Definition shouldEscape (c : ascii) (mode : encoding) : bool :=
  if unreserved c then false
  else match mode with
       | encodePathSegment => if one_of c "$&+,/:;=?@" then one_of c "/;,?" else true
       | encodeQueryComponent => true
       end.
Definition upper_hex (v : Z) : ascii := ascii_of_Z (if v <? 10 then v + 48 else v + 55).
Fixpoint url_escape (mode : encoding) (s : string) : string :=
  match s with
  | "" => ""
  | String c r =>
      (if shouldEscape c mode then
         match mode with
         | encodeQueryComponent => if Ascii.eqb c " " then "+" else
             String "%" (String (upper_hex (Z_of_ascii c / 16)) (String (upper_hex (Z_of_ascii c mod 16)) ""))
         | encodePathSegment =>
             String "%" (String (upper_hex (Z_of_ascii c / 16)) (String (upper_hex (Z_of_ascii c mod 16)) ""))
         end
       else String c "") +:+ url_escape mode r
  end.
Definition PathEscape : string -> string := url_escape encodePathSegment.
Definition QueryEscape : string -> string := url_escape encodeQueryComponent.
(** [None] is an [EscapeError]. *)
Fixpoint url_unescape (mode : encoding) (s : string) : option string :=
  match s with
  | "" => Some ""
  | String c r =>
      if Ascii.eqb c "%" then
        match r with
        | String h (String l r) =>
            h ← hex_val h; l ← hex_val l; String (ascii_of_Z (h * 16 + l)) <$> url_unescape mode r
        | _ => None
        end
      else
        String (match mode with
                | encodeQueryComponent => if Ascii.eqb c "+" then " "%char else c
                | encodePathSegment => c
                end) <$> url_unescape mode r
  end.
Definition PathUnescape : string -> option string := url_unescape encodePathSegment.
Definition QueryUnescape : string -> option string := url_unescape encodeQueryComponent.

Lemma ascii_all (P : ascii -> bool) :
  forallb (fun z => P (ascii_of_Z (Z.of_nat z))) (List.seq 0 256) = true -> forall c, P c = true.
Proof.
  intros H c. rewrite forallb_forall in H. rewrite <- (ascii_of_Z_of_ascii c).
  pose proof (Z_of_ascii_range c) as Hr. unfold byte_ok in Hr.
  rewrite <- (Z2Nat.id (Z_of_ascii c)) by lia. apply H, in_seq. lia.
Qed.
Lemma hex_val_upper v : 0 <= v < 16 -> hex_val (upper_hex v) = Some v.
Proof.
  intros Hv. assert (H : In v (map Z.of_nat (List.seq 0 16))).
  { apply in_map_iff. exists (Z.to_nat v). split; [lia|]. apply in_seq. lia. }
  revert H. apply (proj1 (List.Forall_forall (fun v => hex_val (upper_hex v) = Some v) _)). repeat constructor.
Qed.
(** A character that needs no escape stands for itself. *)
Lemma plain_char mode c :
  shouldEscape c mode = false ->
  Ascii.eqb c "%" = false /\ (mode = encodeQueryComponent -> Ascii.eqb c "+" = false).
Proof.
  assert (H : forall c, implb (negb (shouldEscape c mode))
    (negb (Ascii.eqb c "%") && match mode with encodeQueryComponent => negb (Ascii.eqb c "+") | _ => true end) = true).
  { apply ascii_all. by destruct mode. }
  intros Hc. specialize (H c). rewrite Hc in H. cbn [negb implb] in H. apply andb_true_iff in H as [H1 H2].
  split; [by apply negb_true_iff|]. intros ->. by apply negb_true_iff.
Qed.
Lemma unescape_hex mode c r :
  url_unescape mode (String "%" (String (upper_hex (Z_of_ascii c / 16)) (String (upper_hex (Z_of_ascii c mod 16)) r)))
  = String c <$> url_unescape mode r.
Proof.
  pose proof (Z_of_ascii_range c) as Hc. unfold byte_ok in Hc. cbn [url_unescape].
  change (Ascii.eqb "%" "%") with true. cbn iota.
  rewrite !hex_val_upper by (Z.div_mod_to_equations; lia). cbn [mbind option_bind].
  replace (Z_of_ascii c / 16 * 16 + Z_of_ascii c mod 16) with (Z_of_ascii c) by (Z.div_mod_to_equations; lia).
  by rewrite ascii_of_Z_of_ascii.
Qed.
(** What is escaped reads back, whatever the bytes. *)
Lemma unescape_escape mode s : url_unescape mode (url_escape mode s) = Some s.
Proof.
  induction s as [|c s IH]; [done|]. cbn [url_escape]. destruct (shouldEscape c mode) eqn:E.
  - assert (Hx : url_unescape mode (String "%" (String (upper_hex (Z_of_ascii c / 16))
        (String (upper_hex (Z_of_ascii c mod 16)) "")) +:+ url_escape mode s) = Some (String c s))
      by (rewrite !sapp_cons, sapp_nil_l, unescape_hex, IH; done).
    destruct mode; [exact Hx|]. destruct (Ascii.eqb_spec c " ") as [->|]; [|exact Hx].
    change ("+" +:+ url_escape encodeQueryComponent s) with (String "+" (url_escape encodeQueryComponent s)).
    cbn [url_unescape]. by rewrite IH.
  - rewrite sapp_cons, sapp_nil_l. cbn [url_unescape]. destruct (plain_char mode c E) as [-> Hq]. rewrite IH.
    destruct mode; [done|]. by rewrite Hq.
Qed.
(** The separators of paths and queries never come out of an escape. *)
Lemma no_char_app c a b : no_char c (a +:+ b) = no_char c a && no_char c b.
Proof. induction a as [|d a IH]; [done|]. rewrite sapp_cons. cbn [no_char]. by rewrite IH, andb_assoc. Qed.
Lemma escape_no_char mode c s :
  shouldEscape c mode = true -> one_of c "%+0123456789ABCDEF" = false -> no_char c (url_escape mode s) = true.
Proof.
  intros Hc Hx. unfold one_of in Hx. apply negb_false_iff in Hx.
  assert (Hh : forall v, 0 <= v < 16 -> Ascii.eqb c (upper_hex v) = false).
  { intros v Hv. assert (H : In v (map Z.of_nat (List.seq 0 16))).
    { apply in_map_iff. exists (Z.to_nat v). split; [lia|]. apply in_seq. lia. }
    revert H. apply (proj1 (List.Forall_forall (fun v => Ascii.eqb c (upper_hex v) = false) _)).
    cbn [no_char] in Hx. rewrite !andb_true_iff, !negb_true_iff in Hx. cbn [List.seq map].
    repeat (constructor; [tauto|]). constructor. }
  assert (Hp : Ascii.eqb c "%" = false /\ Ascii.eqb c "+" = false).
  { cbn [no_char] in Hx. rewrite !andb_true_iff, !negb_true_iff in Hx. tauto. }
  induction s as [|d s IH]; [done|]. cbn [url_escape]. rewrite no_char_app, IH, andb_true_r.
  pose proof (Z_of_ascii_range d) as Hd. unfold byte_ok in Hd. destruct Hp as [Hp1 Hp2].
  destruct (shouldEscape d mode) eqn:E.
  - assert (Hy : no_char c (String "%" (String (upper_hex (Z_of_ascii d / 16)) (String (upper_hex (Z_of_ascii d mod 16)) ""))) = true).
    { cbn [no_char]. by rewrite Hp1, !Hh by (Z.div_mod_to_equations; lia). }
    destruct mode; [exact Hy|]. destruct (Ascii.eqb d " "); [|exact Hy]. cbn [no_char]. by rewrite Hp2.
  - cbn [no_char]. destruct (Ascii.eqb_spec c d) as [->|]; [congruence|done].
Qed.

(** ** net/url: queries *)

Abbreviation Values := (gmap string (list string)).
(** [Values.Set]. *)
Definition values_Set (key value : string) (v : Values) : Values := <[key := [value]]> v.
Definition query_pair (kv : string * string) : string := QueryEscape kv.1 +:+ "=" +:+ QueryEscape kv.2.
Fixpoint join_amp (l : list string) : string :=
  match l with
  | [] => ""
  | [s] => s
  | s :: l => s +:+ "&" +:+ join_amp l
  end.
Definition key_pairs (v : Values) (key : string) : list (string * string) :=
  map (fun value => (key, value)) (default [] (v !! key)).
Definition value_pairs (v : Values) : list (string * string) :=
  concat (map (key_pairs v) (SliceStable str_lt (map_to_list v).*1)).
Definition Encode (v : Values) : string := join_amp (map query_pair (value_pairs v)).
(** One part of a query; [None] when [parseQuery] skips it. *)
Definition parse_part (part : string) : option (string * string) :=
  if one_of ";" part || is_empty part then None else
  let '(key, value) := default (part, "") (cut_char "=" part) in
  key ← QueryUnescape key; value ← QueryUnescape value; Some (key, value).
Definition add_value (v : Values) (kv : string * string) : Values := <[kv.1 := default [] (v !! kv.1) ++ [kv.2]]> v.
(** [URL.Query]: what does not parse is left out. *)
Definition ParseQuery (query : string) : Values :=
  foldl add_value ∅ (omap parse_part (SplitN query "&" (S (String.length query)))).

Lemma query_no_char c s : shouldEscape c encodeQueryComponent = true ->
  one_of c "%+0123456789ABCDEF" = false -> no_char c (QueryEscape s) = true.
Proof. apply escape_no_char. Qed.
Lemma parse_query_pair kv : parse_part (query_pair kv) = Some kv.
Proof.
  unfold parse_part, query_pair. destruct kv as [k x]. cbn [fst snd].
  assert (H1 : one_of ";" (QueryEscape k +:+ "=" +:+ QueryEscape x) = false).
  { unfold one_of. rewrite !no_char_app. by rewrite !query_no_char. }
  assert (H2 : is_empty (QueryEscape k +:+ "=" +:+ QueryEscape x) = false) by by destruct (QueryEscape k).
  rewrite H1, H2. cbn [orb]. change ("=" +:+ QueryEscape x) with (String "=" (QueryEscape x)).
  rewrite cut_char_app by by apply query_no_char. cbn [from_option id default].
  unfold QueryUnescape, QueryEscape. by rewrite !unescape_escape.
Qed.
Lemma split_join n l :
  Forall (fun s => no_char "&" s = true) l -> l <> [] -> (length l <= n)%nat -> SplitN (join_amp l) "&" n = l.
Proof.
  revert n. induction l as [|s l IH]; intros n Hl Hne Hn; [done|]. inversion Hl as [|? ? Hs Hl']; subst.
  destruct n as [|[|n]]; [cbn in Hn; lia| |].
  - destruct l; [done|cbn in Hn; lia].
  - destruct l as [|s' l].
    + cbn [join_amp SplitN]. by rewrite cut_char_none.
    + change (join_amp (s :: s' :: l)) with (s +:+ String "&" (join_amp (s' :: l))).
      transitivity (s :: SplitN (join_amp (s' :: l)) "&" (S n)); [|f_equal; apply IH; [done|done|cbn in *; lia]].
      cbn [SplitN]. by rewrite cut_char_app.
Qed.
Lemma join_length l : (forall s, s ∈ l -> s <> "") -> (length l <= S (String.length (join_amp l)))%nat.
Proof.
  induction l as [|s l IH]; intros H; [cbn; lia|]. assert (s <> "") by (apply H; left).
  destruct s as [|c s]; [done|]. destruct l as [|s' l]; [cbn; lia|].
  change (join_amp (String c s :: s' :: l)) with (String c s +:+ "&" +:+ join_amp (s' :: l)).
  rewrite !sapp_length. cbn [length String.length] in *. specialize (IH ltac:(intros x Hx; apply H; by right)). lia.
Qed.
Lemma parts_of_pairs pairs :
  omap parse_part (SplitN (join_amp (map query_pair pairs)) "&" (S (String.length (join_amp (map query_pair pairs))))) = pairs.
Proof.
  assert (Hp : omap parse_part (map query_pair pairs) = pairs).
  { induction pairs as [|kv l IH]; [done|]. cbn [map omap list_omap]. by rewrite parse_query_pair, IH. }
  destruct pairs as [|kv l]; [done|]. rewrite split_join; [done| |done|].
  - apply Forall_forall. intros s (x & <- & _)%list_elem_of_In%in_map_iff. unfold query_pair.
    rewrite !no_char_app. by rewrite !query_no_char.
  - apply join_length. intros s (x & <- & _)%list_elem_of_In%in_map_iff. unfold query_pair. by destruct (QueryEscape x.1).
Qed.
Lemma add_value_more (m : Values) key x values : add_value (<[key := values]> m) (key, x) = <[key := values ++ [x]]> m.
Proof. unfold add_value. cbn [fst snd]. by rewrite lookup_insert_eq, insert_insert_eq. Qed.
Lemma add_value_first (m : Values) key x : m !! key = None -> add_value m (key, x) = <[key := [x]]> m.
Proof. unfold add_value. cbn [fst snd]. by intros ->. Qed.
Lemma add_values (v m : Values) key values :
  m !! key = None -> v !! key = Some values -> values <> [] ->
  foldl add_value m (key_pairs v key) = <[key := values]> m.
Proof.
  intros Hm Hv Hne. unfold key_pairs. rewrite Hv. cbn [from_option id default].
  assert (H : forall done, foldl add_value (<[key := done]> m) (map (fun value => (key, value)) values)
                           = <[key := done ++ values]> m).
  { clear Hv Hne. induction values as [|x l IH]; intros acc; [cbn; by rewrite app_nil_r|].
    cbn [map foldl]. by rewrite add_value_more, IH, <- app_assoc. }
  destruct values as [|x l]; [done|]. cbn [map foldl]. rewrite add_value_first by done.
  specialize (H []). cbn [map foldl app] in H. by rewrite add_value_more in H.
Qed.
Lemma group_pairs (v : Values) keys (m : Values) :
  NoDup keys -> (forall k, k ∈ keys -> m !! k = None /\ exists values, v !! k = Some values /\ values <> []) ->
  foldl add_value m (concat (map (key_pairs v) keys)) = filter (fun kv => kv.1 ∈ keys) v ∪ m.
Proof.
  intros Hnd. revert m. induction Hnd as [|k keys Hk _ IH]; intros m H.
  - cbn [map concat foldl]. apply map_eq. intros i. rewrite lookup_union.
    rewrite (proj2 (map_lookup_filter_None _ _ _)); [by destruct (m !! i)|].
    right. intros x _ Hi. by apply not_elem_of_nil in Hi.
  - cbn [map concat]. rewrite foldl_app. destruct (H k ltac:(left)) as (Hm & values & Hv & Hne).
    rewrite (add_values v m k values) by done. rewrite IH.
    + apply map_eq. intros i. rewrite !lookup_union, !map_lookup_filter.
      destruct (decide (i = k)) as [->|Hi].
      * rewrite Hv, lookup_insert_eq, Hm. cbn [mbind option_bind]. rewrite option_guard_False by done.
        rewrite option_guard_True by left. done.
      * rewrite lookup_insert_ne by done. destruct (v !! i) as [x|]; cbn [mbind option_bind]; [|done].
        f_equal. destruct (decide (i ∈ keys)) as [Hin|Hin].
        -- rewrite !option_guard_True; [done|by right|done].
        -- rewrite !option_guard_False; [done| |done]. rewrite elem_of_cons. tauto.
    + intros k' Hk'. destruct (H k' ltac:(by right)) as [Hm' Hv']. split; [|done].
      rewrite lookup_insert_ne; [done|]. intros <-. done.
Qed.
(** A query reads back as the values it was made of. *)
Lemma Encode_roundtrip (v : Values) : (forall k values, v !! k = Some values -> values <> []) -> ParseQuery (Encode v) = v.
Proof.
  intros Hne. unfold ParseQuery, Encode. rewrite parts_of_pairs. unfold value_pairs.
  set (keys := SliceStable str_lt (map_to_list v).*1).
  assert (Hp : keys ≡ₚ (map_to_list v).*1) by apply SliceStable_perm.
  assert (Hin : forall k, k ∈ keys <-> is_Some (v !! k)).
  { intros k. rewrite Hp. rewrite list_elem_of_fmap. split.
    - intros ([k' x] & -> & Hx%elem_of_map_to_list). by exists x.
    - intros [x Hx]. exists (k, x). split; [done|]. by apply elem_of_map_to_list. }
  rewrite group_pairs.
  - rewrite (right_id_L ∅ (∪)). apply map_filter_id. intros k x Hx. apply Hin. by exists x.
  - rewrite Hp. apply NoDup_fst_map_to_list.
  - intros k [x Hx]%Hin. split; [apply lookup_empty|]. exists x. split; [done|]. by eapply Hne.
Qed.

(** ** Content bodies ([manapiContentBytes]) *)

(** base64.RawStdEncoding, URLEncoding: the other two are [b64_decode] and [url_decode]. *)
Definition raw_padding (s : string) : string :=
  match (String.length s mod 4)%nat with 2%nat => "==" | 3%nat => "=" | 1%nat => "=" | _ => "" end.
Definition raw_decode (text : string) : option (list Z) :=
  let s := b64_strip text in if one_of "=" s then None else b64_quanta (s +:+ raw_padding s).
Fixpoint to_std (s : string) : string :=
  match s with
  | "" => ""
  | String c r => String (if Ascii.eqb c "-" then "+" else if Ascii.eqb c "_" then "/" else c)%char (to_std r)
  end.
Definition padded_url_decode (text : string) : option (list Z) :=
  let s := b64_strip text in if one_of "+" s || one_of "/" s then None else b64_quanta (to_std s).
Definition encodings : list (string -> option (list Z)) := [b64_decode; raw_decode; padded_url_decode; url_decode].

(** What [encoding/json] does for the two clients: a page, given what the decoder of
    content bodies makes of the text of a member; a string; a raw message; whether a text
    is JSON; and the answer of a profile service. *)
Record remoteProfilePayload := mkPayload {
  rq_GlobalMetaID : string; rq_MetaID : string; rq_Address : string; rq_Name : string; rq_NameId : string;
  rq_Avatar : string; rq_AvatarId : string; rq_NftAvatar : string; rq_Bio : string; rq_BioId : string;
  rq_Background : string; rq_ChatPublicKey : string; rq_ChatPublicKeyId : string; rq_ChainName : string }.
Record remoteProfileEnvelope := mkRemoteEnvelope { re_Code : Z; re_Data : remoteProfilePayload }.
Class ClientJSON := {
  decode_page : (string -> string) -> string -> res backfillEnvelope;
  decode_string : string -> res string;
  decode_raw : string -> res string;
  json_Valid : string -> bool;
  json_Compact : string -> res string;
  decode_profile : string -> res remoteProfileEnvelope }.

Section Clients.
Context {CJ : ClientJSON} {NU : NetURL} {NUP : NetURLParts} {UP : URLParse}.

Fixpoint first_decoding (l : list (string -> option (list Z))) (text : string) : option string :=
  match l with
  | [] => None
  | decode :: l =>
      match decode text with
      | Some (b :: decoded) =>
          let body := string_of_bytes (b :: decoded) in if json_Valid body then Some body else first_decoding l text
      | _ => first_decoding l text
      end
  end.
Definition maybeDecodeBase64Content (text : string) : option string :=
  if HasPrefix text "{" || HasPrefix text "[" then None else first_decoding encodings text.
(** [UnmarshalJSON] on the text of the member; [""] is nil. *)
Definition UnmarshalJSON (data : string) : string :=
  let trimmed := TrimSpace data in
  if is_empty trimmed || String.eqb trimmed "null" then "" else
  match decode_string trimmed with
  | Ok text =>
      let text := TrimSpace text in
      if is_empty text then "" else default text (maybeDecodeBase64Content text)
  | Err _ => match decode_raw trimmed with Ok raw => raw | Err _ => trimmed end
  end.

(** ** The pages of a MANAPI service *)

Record BackfillClient := mkBackfillClient { bc_baseURL : string; bc_httpClient : HTTPTransport }.
Definition NewBackfillClient (baseURL : string) (httpClient : HTTPTransport) : BackfillClient :=
  mkBackfillClient (TrimRightChar "/" (TrimSpace baseURL)) httpClient.
Definition listURL (c : BackfillClient) (path cursor : string) (size : Z) : res string :=
  match url_Parse (bc_baseURL c) with
  | Err e => Err ("parse MANAPI base URL: " +:+ e)
  | Ok parsed =>
      if is_empty (u_Scheme parsed) || is_empty (u_Host parsed) then Err "MANAPI base URL requires scheme and host" else
      let parsed := if is_empty (url_Path parsed) || String.eqb (url_Path parsed) "/"
                    then url_SetPath "/pin/path/list" parsed else parsed in
      let q := ParseQuery (url_RawQuery parsed) in
      let q := values_Set "path" path (values_Set "size" (fmt_d size) (values_Set "cursor" cursor q)) in
      Ok (url_String (url_SetRawQuery (Encode q) parsed))
  end.
(** The body of an answer with a status of success. *)
Definition http_get (tr : HTTPTransport) (requestURL create fetch read : string) (status : Z -> error) : res string :=
  match ht_NewRequest tr "GET" requestURL "" with
  | Some e => Err (create +:+ e)
  | None =>
      match ht_Do tr "GET" requestURL "" with
      | Err e => Err (fetch +:+ e)
      | Ok (code, body) =>
          if (code <? 200) || (300 <=? code) then Err (status code) else
          match body with Err e => Err (read +:+ e) | Ok raw => Ok raw end
      end
  end.
Definition ListPath (c : BackfillClient) (path cursor : string) (size : Z) : res backfillPage :=
  if is_empty (TrimSpace (bc_baseURL c)) then Err "MANAPI base URL is required" else
  requestURL <-? listURL c path cursor size ;;
  raw <-? http_get (bc_httpClient c) requestURL "create MANAPI backfill request: " "fetch MANAPI backfill pins: "
            "read MANAPI backfill response: " (fun code => "MANAPI backfill returned HTTP " +:+ fmt_d code) ;;
  decodeBackfillPage (decode_page UnmarshalJSON raw).

(** ** Profiles of a remote service ([remote.go]) *)

Definition rawJSONToString (raw : string) : string :=
  let raw := TrimSpace raw in
  if is_empty raw || String.eqb raw "null" then "" else
  match decode_string raw with
  | Ok s => s
  | Err _ => match json_Compact raw with Ok s => s | Err _ => raw end
  end.
Definition toUserProfile (p : remoteProfilePayload) : option UserProfile :=
  if is_empty (rq_MetaID p) && is_empty (rq_GlobalMetaID p) && is_empty (rq_Address p) then None else
  let '(avatar, avatarID) := normaliseAvatarReference (rq_Avatar p) (rq_AvatarId p) in
  Some (empty_profile <| GlobalMetaID := rq_GlobalMetaID p |> <| MetaID := rq_MetaID p |> <| Address := rq_Address p |>
          <| Name := rq_Name p |> <| NameId := rq_NameId p |> <| Avatar := avatar |> <| AvatarId := avatarID |>
          <| NftAvatar := rq_NftAvatar p |> <| Bio := rawJSONToString (rq_Bio p) |> <| BioId := rq_BioId p |>
          <| Background := rq_Background p |> <| ChatPublicKey := rq_ChatPublicKey p |>
          <| ChatPublicKeyId := rq_ChatPublicKeyId p |> <| UserInfo.ChainName := rq_ChainName p |>).
Definition profile_endpoint (baseURL : string) (kind : lookup_kind) (value : string) : string :=
  baseURL +:+ "/info/" +:+ kind_string kind +:+ "/" +:+ PathEscape (TrimSpace value).
Definition apiSuccessCode : Z := 1.
(** [newHTTPRemoteProfileLookup] and [lookup]. *)
Definition newHTTPRemoteProfileLookup (tr : HTTPTransport) (baseURL : string) : remoteProfileLookup := fun kind value =>
  let baseURL := TrimRightChar "/" (TrimSpace baseURL) in
  if is_empty baseURL || is_empty (TrimSpace value) then Ok None else
  let url := profile_endpoint baseURL kind value in
  match ht_NewRequest tr "GET" url "" with
  | Some e => Err e
  | None =>
      resp <-? ht_Do tr "GET" url "" ;;
      if resp.1 =? 404 then Ok None else
      if (resp.1 <? 200) || (300 <=? resp.1)
      then Err ("remote profile " +:+ kind_string kind +:+ " returned HTTP " +:+ fmt_d (resp.1)) else
      body <-? resp.2 ;;
      envelope <-? decode_profile body ;;
      if negb (re_Code envelope =? apiSuccessCode) then Ok None else Ok (toUserProfile (re_Data envelope))
  end.
End Clients.

(** ** What the clients ask, and what they make of the answers *)

Section Facts.
Context {CJ : ClientJSON} {NU : NetURL} {NUP : NetURLParts} {UP : URLParse}.

(** The last segment of the endpoint is one segment, and reads back as the value. *)
Lemma endpoint_names_value value :
  no_char "/" (PathEscape (TrimSpace value)) = true /\ PathUnescape (PathEscape (TrimSpace value)) = Some (TrimSpace value).
Proof. split; [by apply escape_no_char|apply unescape_escape]. Qed.

(** A JSON body that the service hands over as the base64 of its bytes comes out as it was. *)
Lemma first_char_no l x : (exists c r, l = String c r /\ Ascii.eqb x c = false) -> HasPrefix l (String x "") = false.
Proof. intros (c & r & -> & H). cbn [HasPrefix]. first [by rewrite H|by rewrite Ascii.eqb_sym, H]. Qed.
Lemma base64_body data body :
  decode_string (TrimSpace data) = Ok (b64_encode (bytes_of_string body)) ->
  TrimSpace (b64_encode (bytes_of_string body)) = b64_encode (bytes_of_string body) ->
  is_empty (TrimSpace data) || String.eqb (TrimSpace data) "null" = false ->
  body <> "" -> json_Valid body = true -> UnmarshalJSON data = body.
Proof.
  intros Hd Ht Hn Hb Hv. unfold UnmarshalJSON. rewrite Hn, Hd, Ht. destruct body as [|c r]; [done|].
  pose proof (b64_roundtrip _ (bytes_of_string_ok (String c r))) as Hr. cbn [bytes_of_string] in *.
  set (l := bytes_of_string r) in *. set (z := Z_of_ascii c) in *.
  assert (Hz : 0 <= z / 4 < 64).
  { pose proof (Z_of_ascii_range c) as Hz. unfold byte_ok in Hz. fold z in Hz. Z.div_mod_to_equations; lia. }
  assert (Hx : exists rest, b64_encode (z :: l) = String (b64_char (z / 4)) rest).
  { destruct l as [|b [|b' l']]; eexists; reflexivity. }
  destruct Hx as (rest & Ex). rewrite Ex in *. cbn [is_empty].
  assert (Hp : Ascii.eqb "{" (b64_char (z / 4)) = false /\ Ascii.eqb "[" (b64_char (z / 4)) = false).
  { rewrite <- !negb_true_iff, <- andb_true_iff. revert Hz. generalize (z / 4). apply b64_all. by vm_compute. }
  unfold maybeDecodeBase64Content. rewrite !first_char_no by (eexists _, _; split; [reflexivity|tauto]). cbn [orb].
  cbn [first_decoding encodings]. rewrite Hr. cbv zeta.
  assert (Es : string_of_bytes (z :: l) = String c r).
  { change (z :: l) with (bytes_of_string (String c r)). apply string_of_bytes_of_string. }
  by rewrite Es, Hv.
Qed.

Lemma ParseQuery_nonempty query k values : ParseQuery query !! k = Some values -> values <> [].
Proof.
  unfold ParseQuery. generalize (omap parse_part (SplitN query "&" (S (String.length query)))). intros l.
  assert (H : forall (m : Values), (forall k values, m !! k = Some values -> values <> []) ->
    forall k values, foldl add_value m l !! k = Some values -> values <> []).
  { induction l as [|kv l IH]; intros m Hm; [exact Hm|]. cbn [foldl]. apply IH. intros k' x. unfold add_value.
    destruct (decide (k' = kv.1)) as [->|Hne]; [rewrite lookup_insert_eq; intros [= <-] E%app_eq_nil; by destruct E|].
    rewrite lookup_insert_ne by done. apply Hm. }
  apply H. intros k' x. by rewrite lookup_empty.
Qed.

(** The parsed base URL with the path of the list, the parameters of a request, and what
    a service that answers to parameters makes of them. *)
Definition list_base (baseURL : string) : option URL :=
  match url_Parse baseURL with
  | Ok u => if is_empty (u_Scheme u) || is_empty (u_Host u) then None
            else Some (if is_empty (url_Path u) || String.eqb (url_Path u) "/" then url_SetPath "/pin/path/list" u else u)
  | Err _ => None
  end.
Definition request_values (u : URL) (path cursor : string) (size : Z) : Values :=
  <["path" := [path]]> (<["size" := [fmt_d size]]> (<["cursor" := [cursor]]> (ParseQuery (url_RawQuery u)))).
Definition service_page (answer : Values -> Z * string) (u : URL) (path cursor : string) (size : Z) : res backfillPage :=
  let '(code, body) := answer (request_values u path cursor size) in
  if (code <? 200) || (300 <=? code) then Err ("MANAPI backfill returned HTTP " +:+ fmt_d code)
  else decodeBackfillPage (decode_page UnmarshalJSON body).
(** A transport behind which such a service listens at a URL. *)
Record listens (tr : HTTPTransport) (u : URL) (answer : Values -> Z * string) : Prop := {
  li_request url : ht_NewRequest tr "GET" url "" = None;
  li_answer query : ht_Do tr "GET" (url_String (url_SetRawQuery query u)) ""
                    = Ok ((answer (ParseQuery query)).1, Ok (answer (ParseQuery query)).2) }.
Lemma listURL_exact c u path cursor size :
  list_base (bc_baseURL c) = Some u ->
  exists query, listURL c path cursor size = Ok (url_String (url_SetRawQuery query u))
  /\ ParseQuery query = request_values u path cursor size.
Proof.
  unfold list_base, listURL. destruct (url_Parse _) as [v|]; [|done]. destruct (_ || _); [done|]. intros [= <-].
  eexists. split; [reflexivity|]. apply Encode_roundtrip. intros k values. unfold values_Set.
  assert (H : forall (m : Values) k' x, (forall values, m !! k = Some values -> values <> []) ->
    forall values, <[k' := [x]]> m !! k = Some values -> values <> []).
  { intros m k' x Hm ys. destruct (decide (k = k')) as [->|]; [rewrite lookup_insert_eq; by intros [= <-]|].
    rewrite lookup_insert_ne by done. apply Hm. }
  apply H, H, H. intros ys. apply ParseQuery_nonempty.
Qed.
Lemma ListPath_exact c u answer path cursor size :
  is_empty (TrimSpace (bc_baseURL c)) = false -> list_base (bc_baseURL c) = Some u -> listens (bc_httpClient c) u answer ->
  ListPath c path cursor size = service_page answer u path cursor size.
Proof.
  intros Hb Hu [H1 H2]. unfold ListPath, service_page. rewrite Hb.
  destruct (listURL_exact c u path cursor size Hu) as (query & -> & Hq). cbn [http_get]. unfold http_get.
  rewrite H1, H2, Hq. destruct (answer _) as [code body]. cbn [fst snd]. by destruct (_ || _).
Qed.
End Facts.

(** ** A backfill handles what the service lists *)

Section Backfills.
Context {CJ : ClientJSON} {NU : NetURL} {NUP : NetURLParts}.
Context {St : Type} {KV : KVOps St} {KVS : KVStore St} {PJ : PublishedJSON} {B58 : Base58}.

Lemma process_run pins s :
  ready s -> Forall good_pin (map PublishedContentBackfill.toAggregatorPin pins) ->
  process_all (fun pin => processPin (PublishedContentBackfill.toAggregatorPin pin) false) pins s
  = (Ok tt, run_pins (map (fun pin => (false, PublishedContentBackfill.toAggregatorPin pin)) pins) s).
Proof.
  revert s. induction pins as [|pin pins IH]; intros s Hr Hg; [done|]. cbn [map] in Hg.
  apply Forall_cons in Hg as [Hp Hg]. cbn [process_all]. unfold hbind. cbv beta.
  destruct (processPin_step (PublishedContentBackfill.toAggregatorPin pin) false s Hr Hp) as (s' & E & Hr' & _).
  rewrite E, IH by done. unfold run_pins. cbn [map foldl]. rewrite handle_eq. cbn [fst snd]. by rewrite E.
Qed.
(** C31: Take a MANAPI service that answers to the parameters of a query behind the URL
    that the client is configured with, and lists the pins of each path newest first, in
    full pages under distinct cursors.  A backfill over HTTP from any state the node can
    be in ends, without an error, and leaves the state that the recent pins of the paths
    would leave as block pins, each handled once and in the order listed, and no other;
    in it every content that one of them creates has its record.  (A change listed before
    the creation it changes finds no record, see [change_listed_first].) *)
Theorem backfill_indexes_service c u answer fuel paths pageSize since es s0
    (pages : string -> list (list manapiPin)) (cursors : string -> list string) :
  is_empty (TrimSpace (bc_baseURL c)) = false -> list_base (bc_baseURL c) = Some u -> listens (bc_httpClient c) u answer ->
  kv_ok s0 published_ns = true -> kv_view s0 published_ns = ∅ -> Forall (fun e => good_pin e.2) es ->
  let paths' := PublishedContentBackfill.normaliseBackfillPaths paths in
  let size := if pageSize <=? 0 then PublishedContentBackfill.defaultBackfillPageSize else pageSize in
  let recent := List.filter (not_older since) (concat (map (fun path => concat (pages path)) paths')) in
  (forall path, path ∈ paths' -> exists pins more names,
     pages path = pins :: more /\ cursors path = "" :: names /\ length names = length more
     /\ serves (service_page answer u) path size (zip ("" :: names) (pins :: more)) /\ NoDup ("" :: names)
     /\ StronglySorted (fun p q => not_older since p = false -> not_older since q = false) (concat (pages path))
     /\ (length more < fuel)%nat) ->
  Forall good_pin (map PublishedContentBackfill.toAggregatorPin recent) ->
  let s' := run_pins (es ++ map (fun pin => (false, PublishedContentBackfill.toAggregatorPin pin)) recent) s0 in
  PublishedContentBackfill.Backfill (ListPath c) fuel paths pageSize since (run_pins es s0) = Some (Ok tt, s')
  /\ (forall p, p ∈ recent -> let pin := PublishedContentBackfill.toAggregatorPin p in creation pin ->
       exists r, holds (view s') (pin_ChainName pin) (protocolPathFromPinPath (pin_Path pin)) (pin_Id pin) r).
Proof.
  intros Hb Hu Hl Hok Hv Hes paths' size recent Hsv Hg s'. split.
  2: { intros p Hp pin Hc. unfold s'. rewrite run_app. apply (run_creations _ _ false); [by apply start_ready| | |done].
       - by rewrite Forall_map in Hg |- *.
       - apply list_elem_of_fmap. by exists p. }
  unfold PublishedContentBackfill.Backfill. fold paths'. fold size. unfold s'. clear s'.
  rewrite (backfill_paths_serves _ _ _ _ pages cursors) with (pageSize := size).
  - fold recent. rewrite process_run; [by rewrite run_app| |done]. by apply start_ready.
  - unfold size. destruct (Z.leb_spec pageSize 0); [done|lia].
  - intros path Hp. destruct (Hsv path Hp) as (pins & more & names & H1 & H2 & H3 & H4 & H5 & H6 & H7).
    exists pins, more, names. split_and!; try done. revert H4. clear - Hb Hu Hl. generalize (zip ("" :: names) (pins :: more)).
    intros l. induction l as [|[cursor l'] l IH]; cbn [serves]; [done|]. intros [(page & E & H) Hs]. split; [|by apply IH].
    exists page. split; [|exact H]. by rewrite (ListPath_exact c u answer).
Qed.
End Backfills.

(** ** A service with two pages *)

#[local] Existing Instance sample_PublishedJSON.
#[local] Existing Instance sample_ops_inst.
#[local] Existing Instance sample_store_inst.
#[local] Existing Instance toy_Base58.
(** URLs of one path; the query is kept in the third field. *)
#[local] Instance query_url : NetURL := {|
  url_Parse s := if HasPrefix s "https://" then Ok (mkURL "https" (sdrop 8 s) "") else Err "parse error";
  url_String u := u_Scheme u +:+ "://" +:+ u_Host u +:+ "?" +:+ u_Hostname u;
  Federation.QueryEscape := QueryEscape;
  IsLoopbackIP s := String.eqb s "127.0.0.1" |}.
#[local] Instance query_parts : NetURLParts := {|
  url_Path u := "/pin/path/list"; url_RawQuery u := u_Hostname u; url_Fragment u := "";
  url_SetPath p u := u; url_SetRawQuery q u := mkURL (u_Scheme u) (u_Host u) q; url_SetFragment f u := u |}.
Definition listed (id body : string) (time : Z) : manapiPin :=
  mkManapiPin id PathSimpleBuzz "" "create" "text/plain" body "" "meta-ann" "idq-ann" "addr-ann" "" "" "mvc" time 1 "".
(** The text of a page is its name here. *)
Definition page_named (unmarshal : string -> string) (name : string) : res backfillEnvelope :=
  if String.eqb name "first" then Ok (mkEnvelope 1 "ok" None "" "" (Some [listed "t2i0" (unmarshal "again") 20]) "c2" "")
  else if String.eqb name "second" then Ok (mkEnvelope 1 "ok" None "" "" (Some [listed "t1i0" (unmarshal "hello") 10]) "" "")
  else Err "unexpected end of JSON input".
#[local] Instance sample_ClientJSON : ClientJSON := {|
  decode_page := page_named; decode_string s := Ok s; decode_raw s := Ok s; json_Valid _ := false;
  json_Compact s := Ok s; decode_profile _ := Err "unexpected end of JSON input" |}.
Definition sample_answer (v : Values) : Z * string :=
  if bool_decide (v !! "path" = Some [PathSimpleBuzz] /\ v !! "size" = Some ["1"]) then
    if bool_decide (v !! "cursor" = Some [""]) then (200, "first")
    else if bool_decide (v !! "cursor" = Some ["c2"]) then (200, "second") else (404, "")
  else (404, "").
Definition sample_service : HTTPTransport := mkTransport (fun _ _ _ => None)
  (fun _ url _ => let '(code, body) := sample_answer (ParseQuery (TrimPrefix url "https://man.example?")) in Ok (code, Ok body)).
Definition sample_client : BackfillClient := NewBackfillClient " https://man.example/ " sample_service.
Example sample_escapes :
  (PathEscape "a/b c:d", QueryEscape "/info/name&x=1 2", ParseQuery "a=1&b=%2Fx+y&a=2&;&c=%zz")
  = ("a%2Fb%20c:d", "%2Finfo%2Fname%26x%3D1+2", <["a" := ["1"; "2"]]> (<["b" := ["/x y"]]> ∅)).
Proof. vm_compute. reflexivity. Qed.
Example sample_page : bp_NextCursor <$> (match ListPath sample_client PathSimpleBuzz "" 1 with Ok p => Some p | Err _ => None end) = Some "c2".
Proof. vm_compute. reflexivity. Qed.
Lemma backfill_indexes_service_witness :
  PublishedContentBackfill.Backfill (ListPath sample_client) 2 [PathSimpleBuzz] 1 (Some 15000) (run_pins [(true, post)] empty_store)
  = Some (Ok tt, run_pins [(true, post); (false, post2)] empty_store)
  /\ exists r, holds (view (run_pins [(true, post); (false, post2)] empty_store)) "mvc" PathSimpleBuzz "t2i0" r.
Proof.
  destruct (backfill_indexes_service sample_client (mkURL "https" "man.example" "") sample_answer 2 [PathSimpleBuzz] 1 (Some 15000)
    [(true, post)] empty_store (fun _ => [[listed "t2i0" "again" 20]; [listed "t1i0" "hello" 10]]) (fun _ => [""; "c2"]))
    as [E Hc].
  - by vm_compute.
  - by vm_compute.
  - split; [done|]. intros query.
    assert (Eu : url_String (url_SetRawQuery query (mkURL "https" "man.example" "")) = "https://man.example?" +:+ query) by reflexivity.
    rewrite Eu. cbn [sample_client NewBackfillClient bc_httpClient sample_service ht_Do]. rewrite TrimPrefix_app.
    by destruct (sample_answer _).
  - by vm_compute.
  - by vm_compute.
  - constructor; [apply good_post|constructor].
  - intros path Hp. change (path ∈ [PathSimpleBuzz]) in Hp. apply list_elem_of_singleton in Hp as ->.
    eexists _, _, ["c2"]. split; [reflexivity|]. split; [reflexivity|]. split; [reflexivity|]. split; [|split; [|split]].
    + cbn [zip zip_with serves]. split; [|split; [|done]].
      * exists (mkPage [listed "t2i0" "again" 20] "c2"). split; [by vm_compute|]. by vm_compute.
      * exists (mkPage [listed "t1i0" "hello" 10] ""). split; [by vm_compute|]. split; [done|by left].
    + apply (bool_decide_unpack _). by vm_compute.
    + repeat constructor.
    + cbn. lia.
  - constructor; [apply good_post2|constructor].
  - match type of E with _ = Some (_, run_pins ?l _) => replace l with [(true, post); (false, post2)] in E, Hc by (by vm_compute) end.
    split; [exact E|]. assert (Hin : listed "t2i0" "again" 20 ∈ [listed "t2i0" "again" 20]) by left.
    match type of Hc with forall p, p ∈ ?l -> _ => replace l with [listed "t2i0" "again" 20] in Hc by (by vm_compute) end.
    specialize (Hc _ Hin). cbv zeta in Hc.
    replace (PublishedContentBackfill.toAggregatorPin (listed "t2i0" "again" 20)) with post2 in Hc by (by vm_compute).
    apply Hc. split; [split; done|]. split; by vm_compute.
Defined.

(** MANAPI lists the newest pin first: an edit comes before its post, finds no record and
    is lost; in blocks the post comes first. *)
Definition edited : manapiPin := mkManapiPin "t3i0" (PathSimpleBuzz +:+ "@t1i0") "" "modify" "text/plain" "HELLO" ""
  "meta-ann" "idq-ann" "addr-ann" "" "" "mvc" 30 1 "".
Definition texts_after (lister : res backfillPage) : option (list string * bool) :=
  match PublishedContentBackfill.Backfill (fun _ _ _ => lister) 2 [PathSimpleBuzz] 5 None empty_store with
  | Some (_, s) => titles (PublishedContent.List_ ann_buzz s)
  | None => None
  end.
Example change_listed_first :
  texts_after (Ok (mkPage [edited; listed "t1i0" "hello" 10] "")) = Some (["hello"], false)
  /\ texts_after (Ok (mkPage [listed "t1i0" "hello" 10; edited] "")) = Some (["HELLO"], false).
Proof. vm_compute. done. Qed.
