(* ===== verification/BotHomepage.v ===== *)
(** * BotHomepage: the homepage of a bot

    [internal/aggregator/bothomepage]: a read model that joins the profile of a user
    with its presence, its services and its published contents.  The aggregator
    keeps no records; what it reads comes from the parts it is connected to, which
    are its fields.  A reader runs on the state of the node, [W]; the profile lookup
    and the services of the homepage can write to it. *)

From Stdlib Require Import SpecFloat.
From S2P Require Import Prelude GoText Json Storage Aggregator Effects HttpApi UserInfo FedStore Federation PublishedContent SkillService SkillList.

(** ** Payload ([types.go]) *)

Record CanonicalIdentity := mkCanonical {
  ci_GlobalMetaId : string; ci_MetaId : string; ci_Address : string; ci_ChainName : string }.
Record Profile := mkProfile {
  pf_Name : string; pf_Avatar : string; pf_AvatarPinId : string; pf_Background : string;
  pf_BackgroundPinId : string; pf_Bio : string; pf_BioPinId : string; pf_ChatPubkey : string;
  pf_ChatPubkeyPinId : string; pf_NftAvatar : string; pf_DisplayGlobalId : string }.
Record CustomHomepage := mkCustom {
  cu_URI : string; cu_PinId : string; cu_ContentType : string; cu_Renderer : string;
  cu_Txid : string; cu_ProtocolPath : string }.
Record Homepage := mkHome {
  hm_Mode : string; hm_Title : string; hm_Summary : string; hm_Custom : option CustomHomepage }.
(** [Allow] is [None] when the slice is nil. *)
Record ChatSkills := mkChatSkills { cs_Allow : option (list string); cs_PinId : string }.
Record LLM := mkLLM { llm_Provider : string; llm_Model : string; llm_Name : string; llm_PinId : string }.
Record Persona := mkPersona {
  pe_Role : string; pe_RolePinId : string; pe_Soul : string; pe_SoulPinId : string;
  pe_Goal : string; pe_GoalPinId : string; pe_ChatSkills : ChatSkills; pe_LLM : LLM }.
Record Presence := mkPresence { pr_State : string; pr_UpdatedAt : option Z; pr_Source : string }.
Record ProofSummary := mkProof {
  po_PinId : string; po_ProtocolPath : string; po_PublisherGlobalMetaId : string }.
Record ProfileProof := mkProfileProof {
  pp_Field : string; pp_PinId : string; pp_ProtocolPath : string; pp_PublisherGlobalMetaId : string }.
Record ServiceProof := mkServiceProof {
  sp_ServiceId : string; sp_PinId : string; sp_SourceServicePinId : string; sp_ProtocolPath : string;
  sp_PublisherGlobalMetaId : string }.
Record Service := mkService {
  sv_Id : string; sv_CurrentPinId : string; sv_SourceServicePinId : string; sv_DisplayName : string;
  sv_ServiceName : string; sv_Description : string; sv_ServiceIcon : string; sv_ProviderSkill : string;
  sv_OutputType : string; sv_Price : string; sv_Currency : string; sv_SettlementKind : string;
  sv_PaymentChain : string; sv_MRC20Ticker : option string; sv_MRC20Id : option string;
  sv_PaymentAddress : string; sv_RatingAvg : spec_float; sv_RatingCount : Z; sv_Status : Z;
  sv_Operation : string; sv_Disabled : bool; sv_ChainName : string; sv_CreatedAt : Z; sv_UpdatedAt : Z;
  sv_Proof : option ServiceProof }.
Record SectionItem := mkSectionItem {
  si_Id : string; si_SourcePinId : string; si_CurrentPinId : string; si_ChainName : string;
  si_ProtocolPath : string; si_Title : string; si_Description : string; si_ContentType : string;
  si_PayloadText : string; si_PayloadJSON : option (list (string * any)); si_PayloadExposed : bool;
  si_IsMempool : bool; si_CreatedAt : Z; si_UpdatedAt : Z; si_Proof : option ProofSummary;
  si_Data : option (list (string * any)); si_Service : option Service }.
(** [More] is the disabled link "More" in every section. *)
Record Section_ := mkSection {
  se_Id : string; se_Title : string; se_Kind : string; se_Items : list SectionItem;
  se_Limit : Z; se_Returned : Z; se_HasMore : bool }.
Record Action := mkAction {
  ac_Id : string; ac_Label : string; ac_Kind : string; ac_Enabled : bool;
  ac_RequiresUsingIdentity : bool; ac_URI : string }.
Record Proofs := mkProofs {
  pv_VerificationState : string; pv_Profile : list ProfileProof; pv_Persona : list ProfileProof;
  pv_Homepage : option ProofSummary; pv_Sections : gmap string (list ProofSummary);
  pv_Services : list ServiceProof }.
Record Source := mkSource {
  so_Resolver : string; so_Node : string; so_ProfileEndpoint : string; so_ServiceEndpoint : string;
  so_ContentBaseURL : string; so_FetchedAt : Z; so_Stale : bool }.
Record Data := mkData {
  da_SchemaVersion : string; da_ResolvedAt : Z; da_GlobalMetaId : string; da_Canonical : CanonicalIdentity;
  da_Profile : Profile; da_Persona : option Persona; da_Homepage : Homepage; da_Presence : Presence;
  da_Services : list Service; da_Sections : list Section_; da_Actions : list Action; da_Proofs : Proofs;
  da_Source : Source; da_Warnings : list string }.

(** [userinfo_adapter.go] *)
Record ProfileSnapshot := mkSnapshot {
  snap_GlobalMetaId : string; snap_MetaId : string; snap_Address : string; snap_Name : string; snap_NameId : string;
  snap_Avatar : string; snap_AvatarId : string; snap_Background : string; snap_BackgroundId : string;
  snap_NftAvatar : string; snap_Bio : string; snap_BioId : string; snap_Homepage : string; snap_HomepageId : string;
  snap_Role : string; snap_RoleId : string; snap_Soul : string; snap_SoulId : string; snap_Goal : string;
  snap_GoalId : string; snap_ChatSkills : string; snap_ChatSkillsId : string; snap_LLM : string; snap_LLMId : string;
  snap_ChatPublicKey : string; snap_ChatPublicKeyId : string; snap_ChainName : string }.
Definition profileFromUserInfo (p : UserProfile) : ProfileSnapshot :=
  {| snap_GlobalMetaId := UserInfo.GlobalMetaID p; snap_MetaId := UserInfo.MetaID p;
     snap_Address := UserInfo.Address p; snap_Name := UserInfo.Name p; snap_NameId := UserInfo.NameId p;
     snap_Avatar := UserInfo.Avatar p; snap_AvatarId := UserInfo.AvatarId p;
     snap_Background := UserInfo.Background p; snap_BackgroundId := UserInfo.BackgroundId p;
     snap_NftAvatar := UserInfo.NftAvatar p; snap_Bio := UserInfo.Bio p; snap_BioId := UserInfo.BioId p;
     snap_Homepage := UserInfo.Homepage p; snap_HomepageId := UserInfo.HomepageId p;
     snap_Role := UserInfo.Role p; snap_RoleId := UserInfo.RoleId p; snap_Soul := UserInfo.Soul p;
     snap_SoulId := UserInfo.SoulId p; snap_Goal := UserInfo.Goal p; snap_GoalId := UserInfo.GoalId p;
     snap_ChatSkills := UserInfo.ChatSkills p; snap_ChatSkillsId := UserInfo.ChatSkillsId p;
     snap_LLM := UserInfo.LLM p; snap_LLMId := UserInfo.LLMId p;
     snap_ChatPublicKey := UserInfo.ChatPublicKey p; snap_ChatPublicKeyId := UserInfo.ChatPublicKeyId p;
     snap_ChainName := UserInfo.ChainName p |}.

(** ** Parameters ([query.go]) *)

Definition defaultServiceSize : Z := 20.
Definition maxServiceSize : Z := 100.
Definition homepageSectionLimit : Z := 5.
Definition homepageSectionReadSize : Z := homepageSectionLimit + 1.
Record Options := mkOptions {
  op_Version : string; op_IncludeServices : bool; op_IncludeSections : bool; op_IncludeMetaApps : bool;
  op_IncludeSkills : bool; op_IncludeBuzzes : bool; op_ServiceSize : Z; op_IncludeInactiveServices : bool;
  op_IncludeProofs : bool; op_IncludePresence : bool; op_ChainName : string }.
Definition DefaultOptions : Options := mkOptions "" true false true true true defaultServiceSize false true true "".

Definition is_v2 (version : string) : bool := String.eqb version "v2".
Definition parseVersion (values : Values) : string :=
  let version := ToLower (TrimSpace (Query values "version")) in
  let schemaVersion := TrimSpace (Query values "schemaVersion") in
  if String.eqb version "v2" || String.eqb schemaVersion "botHomepage.v2" then "v2" else "".
Definition parseBool (values : Values) (key : string) (fallback : bool) : res bool :=
  match values !! key with
  | None => Ok fallback
  | Some rawValues =>
      let s := ToLower (TrimSpace (default "" (head rawValues))) in
      if String.eqb s "1" || String.eqb s "true" || String.eqb s "yes" then Ok true
      else if String.eqb s "0" || String.eqb s "false" || String.eqb s "no" then Ok false
      else Err ("invalid " +:+ key +:+ " value")
  end.
Definition parseServiceSize (values : Values) : res Z :=
  match values !! "serviceSize" with
  | None => Ok defaultServiceSize
  | Some rawValues =>
      match Atoi (TrimSpace (default "" (head rawValues))) with
      | None => Err "invalid serviceSize value"
      | Some size =>
          if size <? 0 then Err "serviceSize must be non-negative"
          else if size =? 0 then Ok defaultServiceSize
          else if maxServiceSize <? size then Ok maxServiceSize
          else Ok size
      end
  end.
Definition ParseOptions (values : Values) : res Options :=
  let version := parseVersion values in
  services <-? parseBool values "includeServices" true ;;
  sections <-? parseBool values "includeSections" (is_v2 version) ;;
  metaApps <-? (if is_v2 version then parseBool values "includeMetaApps" true else Ok true) ;;
  skills <-? (if is_v2 version then parseBool values "includeSkills" true else Ok true) ;;
  buzzes <-? (if is_v2 version then parseBool values "includeBuzzes" true else Ok true) ;;
  inactive <-? parseBool values "includeInactiveServices" false ;;
  proofs <-? parseBool values "includeProofs" true ;;
  presence <-? parseBool values "includePresence" true ;;
  size <-? (if is_v2 version then Ok homepageSectionLimit else parseServiceSize values) ;;
  Ok {| op_Version := version; op_IncludeServices := services; op_IncludeSections := sections;
        op_IncludeMetaApps := metaApps; op_IncludeSkills := skills; op_IncludeBuzzes := buzzes;
        op_ServiceSize := size; op_IncludeInactiveServices := inactive; op_IncludeProofs := proofs;
        op_IncludePresence := presence; op_ChainName := ToLower (TrimSpace (Query values "chainName")) |}.

(** ** Texts ([build.go]) *)

Fixpoint firstNonEmpty (values : list string) : string :=
  match values with
  | [] => ""
  | value :: values =>
      let trimmed := TrimSpace value in
      if is_empty trimmed then firstNonEmpty values else trimmed
  end.
Definition abbreviateGlobalMetaId (globalMetaId : string) : string :=
  let globalMetaId := TrimSpace globalMetaId in
  if slen globalMetaId <=? 16 then globalMetaId
  else stake 8 globalMetaId +:+ "..." +:+ sdrop (String.length globalMetaId - 6) globalMetaId.
Definition startsJSONContainer (raw : string) : bool := HasPrefix raw "{" || HasPrefix raw "[".
Definition get (k : string) (m : list (string * any)) : any := default ANil (obj_get k m).
Definition stringValue (value : any) : string :=
  match value with AStr text => TrimSpace text | _ => "" end.
Definition firstNonNil (values : list any) : any :=
  default ANil (head (List.filter (fun v => match v with ANil => false | _ => true end) values)).
Definition firstNonEmptyStringSlice (values : list (option (list string))) : option (list string) :=
  mjoin (head (List.filter (fun v => match v with Some (_ :: _) => true | _ => false end) values)).
Definition trimStringSlice (values : list string) : list string :=
  List.filter (fun t => negb (is_empty t)) (map TrimSpace values).
(** [None] is a nil slice. *)
Fixpoint stringSliceValue (value : any) : option (list string) :=
  match value with
  | AStr typed => Some (trimStringSlice [typed])
  | AList typed => Some (List.filter (fun t => negb (is_empty t)) (map stringValue typed))
  | AMap typed =>
      let member key :=
        (fix go (m : list (string * any)) : option (list string) :=
           match m with
           | [] => None
           | (k, v) :: m => if String.eqb key k then stringSliceValue v else go m
           end) typed in
      firstNonEmptyStringSlice
        [member "allowChatSkills"; member "allow"; member "chatSkills"; member "skills"; member "tools"]
  | _ => None
  end.
Definition llmValue (value : any) : LLM :=
  match value with
  | AStr typed => mkLLM (TrimSpace typed) "" "" ""
  | AMap typed =>
      mkLLM (firstNonEmpty [stringValue (get "provider" typed); stringValue (get "primaryProvider" typed)])
        (stringValue (get "model" typed))
        (firstNonEmpty [stringValue (get "name" typed); stringValue (get "displayName" typed)]) ""
  | _ => mkLLM "" "" "" ""
  end.
Definition legacyKeys : list string :=
  ["role"; "soul"; "goal"; "llm"; "LLM"; "allowChatSkills"; "chatSkills"; "skills"; "tools"].
Definition hasLegacyPersonaKey (values : list (string * any)) : bool :=
  existsb (fun key => match obj_get key values with Some _ => true | None => false end) legacyKeys.

(** [json.Unmarshal] into an [any]; into a map it takes an object or [null]. *)
Class HomepageJSON := { unmarshal_any : string -> res any }.

Section Homepage.
Context {HJ : HomepageJSON} {G : GoLib} {NU : NetURL} {W : Type}.
#[local] Open Scope handler_scope.

Definition unmarshal_map (raw : string) : res (list (string * any)) :=
  v <-? unmarshal_any raw ;;
  match v with AMap m => Ok m | ANil => Ok [] | _ => Err "json: cannot unmarshal into Go value" end.

(** ** Profile, persona and homepage ([build.go]) *)

Definition parseCustomHomepage (raw sourcePinID : string) : option CustomHomepage :=
  let raw := TrimSpace raw in
  if is_empty raw then None else
  let pin := TrimSpace sourcePinID in
  let custom :=
    if startsJSONContainer raw then
      match unmarshal_map raw with
      | Err _ => None
      | Ok decoded =>
          Some {| cu_URI := stringValue (get "uri" decoded);
                  cu_PinId := firstNonEmpty [pin; stringValue (get "pinId" decoded)];
                  cu_ContentType := stringValue (get "contentType" decoded);
                  cu_Renderer := stringValue (get "renderer" decoded);
                  cu_Txid := stringValue (get "txid" decoded); cu_ProtocolPath := "/info/homepage" |}
      end
    else Some (mkCustom raw pin "" "" "" "/info/homepage") in
  match custom with
  | Some c => if is_empty (TrimSpace (cu_URI c)) then None else Some c
  | None => None
  end.
Definition homepageSummary (profile : Profile) (persona : option Persona) : string :=
  if negb (is_empty (TrimSpace (pf_Bio profile))) then TrimSpace (pf_Bio profile) else
  match persona with
  | None => ""
  | Some p =>
      if negb (is_empty (TrimSpace (pe_Role p))) then TrimSpace (pe_Role p)
      else if negb (is_empty (TrimSpace (pe_Goal p))) then TrimSpace (pe_Goal p)
      else ""
  end.
Definition toDefaultHomepage (profile : Profile) (persona : option Persona) : Homepage :=
  mkHome "default" (pf_Name profile) (homepageSummary profile persona) None.
Definition toHomepage (profile : Profile) (persona : option Persona) (snapshot : ProfileSnapshot) : Homepage :=
  let homepage := toDefaultHomepage profile persona in
  match parseCustomHomepage (snap_Homepage snapshot) (snap_HomepageId snapshot) with
  | None => homepage
  | Some custom => mkHome "custom" (hm_Title homepage) (hm_Summary homepage) (Some custom)
  end.

Definition personaFromLegacyBio (raw : string) : option Persona :=
  let raw := TrimSpace raw in
  if is_empty raw || negb (HasPrefix raw "{") then None else
  match unmarshal_map raw with
  | Err _ => None
  | Ok legacy =>
      if negb (hasLegacyPersonaKey legacy) then None else
      let allow := firstNonEmptyStringSlice
        (map (fun k => stringSliceValue (get k legacy)) ["allowChatSkills"; "chatSkills"; "skills"; "tools"]) in
      Some (mkPersona (stringValue (get "role" legacy)) "" (stringValue (get "soul" legacy)) ""
              (stringValue (get "goal" legacy)) "" (mkChatSkills allow "")
              (llmValue (firstNonNil [get "llm" legacy; get "LLM" legacy])))
  end.
(** A field that is plain text, or JSON text. *)
Definition parse_field {A} (plain : string -> A) (decode : any -> A) (raw : string) : option A :=
  let raw := TrimSpace raw in
  if is_empty raw then None else
  if startsJSONContainer raw
  then match unmarshal_any raw with Ok decoded => Some (decode decoded) | Err _ => None end
  else Some (plain raw).
Definition parseChatSkills : string -> option ChatSkills :=
  parse_field (fun raw => mkChatSkills (Some [raw]) "") (fun v => mkChatSkills (stringSliceValue v) "").
Definition parseLLM : string -> option LLM := parse_field (fun raw => mkLLM raw "" "" "") llmValue.

Definition no_persona : Persona := mkPersona "" "" "" "" "" "" (mkChatSkills None "") (mkLLM "" "" "" "").
(** A field of the profile, with its pin, replaces the value of the legacy bio. *)
Definition text_over (value pin : string) (legacy : string * string) : string * string :=
  let value := TrimSpace value in if is_empty value then legacy else (value, TrimSpace pin).
Definition buildPersona (p : ProfileSnapshot) : Persona :=
  let persona := default no_persona (personaFromLegacyBio (snap_Bio p)) in
  let '(role, rolePin) := text_over (snap_Role p) (snap_RoleId p) (pe_Role persona, pe_RolePinId persona) in
  let '(soul, soulPin) := text_over (snap_Soul p) (snap_SoulId p) (pe_Soul persona, pe_SoulPinId persona) in
  let '(goal, goalPin) := text_over (snap_Goal p) (snap_GoalId p) (pe_Goal persona, pe_GoalPinId persona) in
  let skills := match parseChatSkills (snap_ChatSkills p) with
                | Some s => mkChatSkills (cs_Allow s) (TrimSpace (snap_ChatSkillsId p))
                | None => pe_ChatSkills persona
                end in
  let llm := match parseLLM (snap_LLM p) with
             | Some l => mkLLM (llm_Provider l) (llm_Model l) (llm_Name l) (TrimSpace (snap_LLMId p))
             | None => pe_LLM persona
             end in
  mkPersona role rolePin soul soulPin goal goalPin skills llm.
Definition profileBioForVersion (p : ProfileSnapshot) (bio version : string) : string :=
  if negb (is_v2 version) then bio else
  match personaFromLegacyBio (snap_Bio p) with Some _ => "" | None => bio end.

(** ** Proofs *)

Definition emptyProofs : Proofs := mkProofs "unverified" [] [] None ∅ [].
Definition missing (field : string) : string := field +:+ " proof txid/contentHash metadata is missing".
(** The proofs of the fields whose pin is known, and a warning for each. *)
Definition field_proofs (publisher : string) (fields : list (string * string * string))
    : list ProfileProof * list string :=
  let known := List.filter (fun f => negb (is_empty (TrimSpace f.2))) fields in
  (map (fun f => mkProfileProof f.1.1 (TrimSpace f.2) f.1.2 publisher) known, map (fun f => missing f.1.1) known).
Definition profile_fields (p : ProfileSnapshot) : list (string * string * string) :=
  [("name", "/info/name", snap_NameId p); ("avatar", "/info/avatar", snap_AvatarId p);
   ("background", "/info/background", snap_BackgroundId p); ("bio", "/info/bio", snap_BioId p);
   ("chatPubkey", "/info/chatpubkey", snap_ChatPublicKeyId p)].
Definition persona_fields (p : ProfileSnapshot) : list (string * string * string) :=
  [("role", "/info/role", snap_RoleId p); ("soul", "/info/soul", snap_SoulId p);
   ("goal", "/info/goal", snap_GoalId p); ("chatSkills", "/info/chatSkills", snap_ChatSkillsId p);
   ("llm", "/info/LLM", snap_LLMId p)].
Definition buildProfileProofs (p : ProfileSnapshot) (canonicalGlobalMetaId : string) (includeV2 : bool)
    : Proofs * list string :=
  let '(profile, warnings) := field_proofs canonicalGlobalMetaId (profile_fields p) in
  let '(persona, warnings') := field_proofs canonicalGlobalMetaId (persona_fields p) in
  let homepagePinID := TrimSpace (snap_HomepageId p) in
  let homepage := if includeV2 && negb (is_empty homepagePinID)
                  then Some (mkProof homepagePinID "/info/homepage" canonicalGlobalMetaId) else None in
  let warnings := warnings ++ warnings' ++ match homepage with Some _ => [missing "homepage"] | None => [] end in
  let '(profile, persona) := if includeV2 then (profile, persona) else (profile ++ persona, []) in
  match profile, persona, homepage with
  | [], [], None => (emptyProofs, warnings ++ ["profile proof metadata is unavailable"])
  | _, _, _ => (mkProofs "partial" profile persona homepage ∅ [], warnings)
  end.

(** ** Readers ([module.go]) *)

(** [presence.GlobalReader]. *)
Record GlobalReader := mkGlobal {
  gr_Enabled : bool; gr_OnlineList : list OnlineEntry -> Z -> Z -> W -> list OnlineEntry }.
(** The fields of the aggregator that are read; [None] is a nil pointer.  A lister
    may answer with a nil result. *)
Record Aggregator := mkHomepage {
  bh_now : option Z;
  bh_profileLookup : option (string -> M W (option ProfileSnapshot));
  bh_serviceLister : option (SkillList.ListParams -> M W (option SkillList.ListResult));
  bh_homepageServiceLister : option (HomepageListParams -> M W (option HomepageListResult));
  bh_publishedContentLister : option (PublishedContent.ListParams -> M W (option PublishedContent.ListResult));
  bh_localPresence : option (W -> list OnlineEntry);
  bh_globalPresence : option GlobalReader;
  bh_assetResolver : option string;
  bh_assetBaseURL : string }.
(** A new aggregator after [Init] at a time. *)
Definition homepage_Init (now : Z) : Aggregator := mkHomepage (Some now) None None None None None None None "".
Definition SetProfileLookup (lookup : string -> M W (option ProfileSnapshot)) (a : Aggregator) : Aggregator :=
  mkHomepage (bh_now a) (Some lookup) (bh_serviceLister a) (bh_homepageServiceLister a) (bh_publishedContentLister a)
    (bh_localPresence a) (bh_globalPresence a) (bh_assetResolver a) (bh_assetBaseURL a).
Definition SetServiceLister (lister : SkillList.ListParams -> M W (option SkillList.ListResult)) (a : Aggregator) : Aggregator :=
  mkHomepage (bh_now a) (bh_profileLookup a) (Some lister) (bh_homepageServiceLister a) (bh_publishedContentLister a)
    (bh_localPresence a) (bh_globalPresence a) (bh_assetResolver a) (bh_assetBaseURL a).
Definition SetHomepageServiceLister (lister : HomepageListParams -> M W (option HomepageListResult)) (a : Aggregator)
    : Aggregator :=
  mkHomepage (bh_now a) (bh_profileLookup a) (bh_serviceLister a) (Some lister) (bh_publishedContentLister a)
    (bh_localPresence a) (bh_globalPresence a) (bh_assetResolver a) (bh_assetBaseURL a).
Definition SetPublishedContentLister (lister : PublishedContent.ListParams -> M W (option PublishedContent.ListResult))
    (a : Aggregator) : Aggregator :=
  mkHomepage (bh_now a) (bh_profileLookup a) (bh_serviceLister a) (bh_homepageServiceLister a) (Some lister)
    (bh_localPresence a) (bh_globalPresence a) (bh_assetResolver a) (bh_assetBaseURL a).
Definition SetPresenceReaders (local : option (W -> list OnlineEntry)) (global : option GlobalReader) (a : Aggregator)
    : Aggregator :=
  mkHomepage (bh_now a) (bh_profileLookup a) (bh_serviceLister a) (bh_homepageServiceLister a)
    (bh_publishedContentLister a) local global (bh_assetResolver a) (bh_assetBaseURL a).
Definition SetAssetBaseURL (baseURL : string) (a : Aggregator) : Aggregator :=
  let resolver := NewAssetResolver baseURL in
  mkHomepage (bh_now a) (bh_profileLookup a) (bh_serviceLister a) (bh_homepageServiceLister a)
    (bh_publishedContentLister a) (bh_localPresence a) (bh_globalPresence a) (Some resolver) resolver.

Definition resolveAsset (a : Aggregator) (asset : string) : string :=
  match bh_assetResolver a with None => TrimSpace asset | Some baseURL => Resolve baseURL asset end.
Definition toProfile (a : Aggregator) (p : ProfileSnapshot) (canonicalGlobalMetaId : string) : Profile :=
  {| pf_Name := TrimSpace (snap_Name p); pf_Avatar := resolveAsset a (snap_Avatar p);
     pf_AvatarPinId := TrimSpace (snap_AvatarId p); pf_Background := resolveAsset a (snap_Background p);
     pf_BackgroundPinId := TrimSpace (snap_BackgroundId p); pf_Bio := TrimSpace (snap_Bio p);
     pf_BioPinId := TrimSpace (snap_BioId p); pf_ChatPubkey := TrimSpace (snap_ChatPublicKey p);
     pf_ChatPubkeyPinId := TrimSpace (snap_ChatPublicKeyId p); pf_NftAvatar := resolveAsset a (snap_NftAvatar p);
     pf_DisplayGlobalId := abbreviateGlobalMetaId canonicalGlobalMetaId |}.
Definition contentOrigin (baseURL : string) : string :=
  match url_Parse (TrimSpace baseURL) with
  | Err _ => ""
  | Ok parsed => if is_empty (u_Scheme parsed) || is_empty (u_Host parsed) then ""
                 else u_Scheme parsed +:+ "://" +:+ u_Host parsed
  end.
Definition source (a : Aggregator) (fetchedAt : Z) : Source :=
  mkSource "metaso-p2p" (contentOrigin (bh_assetBaseURL a)) "/api/info/globalmetaid/:globalMetaId"
    "/api/bot-hub/skill-service/list" (bh_assetBaseURL a) fetchedAt false.

(** ** Presence ([presence.go]) *)

Definition unknownPresence : Presence := mkPresence "unknown" None "".
Fixpoint candidates_loop (values seen : list string) : list string :=
  match values with
  | [] => []
  | value :: values =>
      let trimmed := TrimSpace value in
      let key := ToLower trimmed in
      if is_empty trimmed || bool_decide (key ∈ seen) then candidates_loop values seen
      else trimmed :: candidates_loop values (key :: seen)
  end.
Definition identityCandidates (profile : ProfileSnapshot) : list string :=
  candidates_loop [snap_GlobalMetaId profile; snap_MetaId profile; snap_Address profile] [].
Definition findPresence (items : list OnlineEntry) (candidates : list string) : option OnlineEntry :=
  let lookup := map (fun c => ToLower (TrimSpace c)) (List.filter (fun c => negb (is_empty (TrimSpace c))) candidates) in
  List.find (fun item => bool_decide (ToLower (TrimSpace (oe_MetaId item)) ∈ lookup)) items.
Definition presenceFromEntry (item : OnlineEntry) (source : string) : Presence :=
  mkPresence "online" (Some (if oe_LastSeenAt item =? 0 then oe_ConnectedAt item else oe_LastSeenAt item)) source.
Definition resolvePresence (a : Aggregator) (profile : ProfileSnapshot) (include : bool) (w : W) : Presence :=
  if negb include then unknownPresence else
  let candidates := identityCandidates profile in
  match candidates with
  | [] => unknownPresence
  | _ =>
      let local := match bh_localPresence a with Some entries => entries w | None => [] end in
      let global := match bh_globalPresence a with
                    | Some r => if gr_Enabled r then findPresence (gr_OnlineList r local 1 100 w) candidates else None
                    | None => None
                    end in
      match global with
      | Some item => presenceFromEntry item "federated-presence"
      | None =>
          match findPresence local candidates with
          | Some item => presenceFromEntry item "local-presence"
          | None => unknownPresence
          end
      end
  end.

(** ** Services *)

Definition serviceFromListItem (item : ServiceListItem) (proof : option ServiceProof) : Service :=
  {| sv_Id := li_Id item; sv_CurrentPinId := li_CurrentPinId item;
     sv_SourceServicePinId := li_SourceServicePinId item; sv_DisplayName := li_DisplayName item;
     sv_ServiceName := li_ServiceName item; sv_Description := li_Description item;
     sv_ServiceIcon := li_ServiceIcon item; sv_ProviderSkill := li_ProviderSkill item;
     sv_OutputType := li_OutputType item; sv_Price := li_Price item; sv_Currency := li_Currency item;
     sv_SettlementKind := li_SettlementKind item; sv_PaymentChain := li_PaymentChain item;
     sv_MRC20Ticker := li_MRC20Ticker item; sv_MRC20Id := li_MRC20Id item;
     sv_PaymentAddress := li_PaymentAddress item; sv_RatingAvg := li_RatingAvg item;
     sv_RatingCount := li_RatingCount item; sv_Status := li_Status item; sv_Operation := li_Operation item;
     sv_Disabled := li_Disabled item; sv_ChainName := li_ChainName item; sv_CreatedAt := li_CreatedAt item;
     sv_UpdatedAt := li_UpdatedAt item; sv_Proof := proof |}.
Definition service_proof (canonicalGlobalMetaId : string) (item : ServiceListItem) : ServiceProof :=
  mkServiceProof (li_Id item) (li_CurrentPinId item) (li_SourceServicePinId item) PathSkillService
    canonicalGlobalMetaId.
Definition loadServices (a : Aggregator) (canonicalGlobalMetaId : string) (opts : Options) (warnings : list string)
    : M W (list Service * list ServiceProof * list string) :=
  match bh_serviceLister a with
  | None => hret ([], [], warnings)
  | Some lister =>
      result <- lister (SkillList.mkListParams (op_ServiceSize opts) "" "" "" (op_ChainName opts) ""
                          canonicalGlobalMetaId "updated" "desc" (op_IncludeInactiveServices opts)) ;;
      let items := match result with Some r => lr_List r | None => [] end in
      let proof := service_proof canonicalGlobalMetaId in
      hret (if op_IncludeProofs opts
            then (map (fun item => serviceFromListItem item (Some (proof item))) items, map proof items,
                  warnings ++ map (fun item => "service proof for " +:+ li_Id item
                                     +:+ " is missing txid/contentHash metadata") items)
            else (map (fun item => serviceFromListItem item None) items, [], warnings))
  end.

(** ** Sections *)

Definition emptySection (id title kind : string) : Section_ :=
  mkSection id title kind [] homepageSectionLimit 0 false.
Definition sectionWithItems (id title kind : string) (items : list SectionItem) (hasMore : bool) : Section_ :=
  let over := homepageSectionLimit <? Z.of_nat (length items) in
  let items := if over then take (Z.to_nat homepageSectionLimit) items else items in
  mkSection id title kind items homepageSectionLimit (Z.of_nat (length items)) (over || hasMore).
(** A section of items, and their proofs. *)
Definition section_of (id title kind : string) (items : list SectionItem) (hasMore : bool)
    : Section_ * list ProofSummary :=
  match items with
  | [] => (emptySection id title kind, [])
  | _ => (sectionWithItems id title kind items hasMore,
          take (Z.to_nat homepageSectionLimit) (omap si_Proof items))
  end.

Definition proofSummaryFromService (service : Service) (publisherGlobalMetaId : string) : option ProofSummary :=
  let pinID := firstNonEmpty [sv_CurrentPinId service; sv_SourceServicePinId service] in
  if is_empty pinID then None else Some (mkProof pinID PathSkillService (TrimSpace publisherGlobalMetaId)).
Definition sectionItemFromService (service : Service) (publisherGlobalMetaId : string) (includeProofs : bool)
    : SectionItem :=
  {| si_Id := sv_Id service; si_SourcePinId := sv_SourceServicePinId service;
     si_CurrentPinId := sv_CurrentPinId service; si_ChainName := sv_ChainName service;
     si_ProtocolPath := PathSkillService; si_Title := firstNonEmpty [sv_DisplayName service; sv_ServiceName service];
     si_Description := sv_Description service; si_ContentType := ""; si_PayloadText := "";
     si_PayloadJSON := None; si_PayloadExposed := false; si_IsMempool := false;
     si_CreatedAt := sv_CreatedAt service; si_UpdatedAt := sv_UpdatedAt service;
     si_Proof := if includeProofs then proofSummaryFromService service publisherGlobalMetaId else None;
     si_Data := None; si_Service := Some service |}.
Definition loadServicesSection (a : Aggregator) (canonicalGlobalMetaId : string) (opts : Options)
    : M W (Section_ * list ProofSummary * string) := fun w =>
  let empty := emptySection "services" "Services" "services" in
  match bh_homepageServiceLister a with
  | None => (Ok (empty, [], ""), w)
  | Some lister =>
      match lister (mkHomepageParams canonicalGlobalMetaId (op_ChainName opts) homepageSectionReadSize
                      (op_IncludeInactiveServices opts)) w with
      | (Err _, w) => (Ok (empty, [], "services section unavailable"), w)
      | (Ok None, w) => (Ok (empty, [], ""), w)
      | (Ok (Some result), w) =>
          let items := map (fun item => sectionItemFromService (serviceFromListItem item None)
                                          canonicalGlobalMetaId (op_IncludeProofs opts)) (hr_List result) in
          (Ok (section_of "services" "Services" "services" items (hr_HasMore result), ""), w)
      end
  end.

(** *** Published contents *)

Definition proofSummaryFromPublishedContent (item : PublishedContent.SectionItem)
    (protocolPath publisherGlobalMetaId : string) : option ProofSummary :=
  let pinID := firstNonEmpty [PublishedContent.CurrentPinId item; PublishedContent.SourcePinId item] in
  if is_empty pinID then None else
  Some (mkProof pinID (firstNonEmpty [PublishedContent.ProtocolPath item; protocolPath])
          (firstNonEmpty [PublishedContent.PublisherGlobalMetaId item; publisherGlobalMetaId])).
(** [cloneStringAnyMap] copies a map that is not empty. *)
Definition payload_members (item : PublishedContent.SectionItem) : list (string * any) :=
  default [] (PublishedContent.PayloadJSON item).
Definition sectionItemData (item : PublishedContent.SectionItem) : option (list (string * any)) :=
  if negb (PublishedContent.PayloadExposed item) then None else
  match payload_members item with
  | _ :: _ as payload => Some [("payload", AMap payload)]
  | [] => if is_empty (TrimSpace (PublishedContent.PayloadText item)) then None
          else Some [("payload", AStr (PublishedContent.PayloadText item))]
  end.
Definition first_text (keys : list string) (m : list (string * any)) : string :=
  firstNonEmpty (map (fun key => obj_string key m) keys).
Definition sectionItemTitle (item : PublishedContent.SectionItem) : string :=
  let title := first_text ["title"; "name"; "displayName"] (payload_members item) in
  if is_empty title then TrimSpace (PublishedContent.PayloadText item) else title.
Definition sectionItemDescription (item : PublishedContent.SectionItem) : string :=
  first_text ["description"; "summary"] (payload_members item).
Definition sectionItemFromPublishedContent (protocolPath publisherGlobalMetaId : string) (includeProofs : bool)
    (item : PublishedContent.SectionItem) : SectionItem :=
  {| si_Id := firstNonEmpty [PublishedContent.CurrentPinId item; PublishedContent.SourcePinId item];
     si_SourcePinId := PublishedContent.SourcePinId item; si_CurrentPinId := PublishedContent.CurrentPinId item;
     si_ChainName := PublishedContent.ChainName item; si_ProtocolPath := PublishedContent.ProtocolPath item;
     si_Title := sectionItemTitle item; si_Description := sectionItemDescription item;
     si_ContentType := PublishedContent.ContentType item; si_PayloadText := PublishedContent.PayloadText item;
     si_PayloadJSON := PublishedContent.PayloadJSON item; si_PayloadExposed := PublishedContent.PayloadExposed item;
     si_IsMempool := PublishedContent.IsMempool item; si_CreatedAt := PublishedContent.CreatedAt item;
     si_UpdatedAt := PublishedContent.UpdatedAt item;
     si_Proof := if includeProofs then proofSummaryFromPublishedContent item protocolPath publisherGlobalMetaId
                 else None;
     si_Data := sectionItemData item; si_Service := None |}.

(** One query per identity that is known; the three kinds of keys never clash. *)
Definition publishedContentIdentityQueries (canonical : CanonicalIdentity) (opts : Options) (protocolPath : string)
    : list PublishedContent.ListParams :=
  let query g m a := PublishedContent.mkListParams protocolPath (op_ChainName opts) g m a homepageSectionReadSize false in
  let add value (params : string -> PublishedContent.ListParams) :=
    let value := TrimSpace value in if is_empty value then [] else [params value] in
  add (ci_GlobalMetaId canonical) (fun v => query v "" "") ++ add (ci_MetaId canonical) (fun v => query "" v "")
  ++ add (ci_Address canonical) (fun v => query "" "" v).
Definition publishedContentItemKey (item : PublishedContent.SectionItem) : string :=
  let pinId := firstNonEmpty [PublishedContent.SourcePinId item; PublishedContent.CurrentPinId item] in
  ToLower (PublishedContent.ChainName item) +:+ ":" +:+ PublishedContent.ProtocolPath item +:+ ":" +:+ pinId.
Definition publishedContentItemSortTimestamp (item : PublishedContent.SectionItem) : Z :=
  if String.eqb (PublishedContent.ProtocolPath item) PathSimpleBuzz && (0 <? PublishedContent.CreatedAt item)
  then PublishedContent.CreatedAt item
  else if 0 <? PublishedContent.UpdatedAt item then PublishedContent.UpdatedAt item
  else PublishedContent.CreatedAt item.
(** The items whose key was not seen before. *)
Fixpoint add_unseen (items : list PublishedContent.SectionItem) (seen : list string)
    : list PublishedContent.SectionItem * list string :=
  match items with
  | [] => ([], seen)
  | item :: items =>
      let key := publishedContentItemKey item in
      if bool_decide (key ∈ seen) then add_unseen items seen
      else let '(out, seen) := add_unseen items (key :: seen) in (item :: out, seen)
  end.
Fixpoint run_queries (lister : PublishedContent.ListParams -> M W (option PublishedContent.ListResult))
    (queries : list PublishedContent.ListParams) (items : list PublishedContent.SectionItem) (seen : list string)
    (hasMore : bool) : M W (list PublishedContent.SectionItem * bool) :=
  match queries with
  | [] => hret (items, hasMore)
  | params :: queries =>
      result <- lister params ;;
      match result with
      | None => run_queries lister queries items seen hasMore
      | Some r =>
          let '(fresh, seen) := add_unseen (PublishedContent.lr_Items r) seen in
          run_queries lister queries (items ++ fresh) seen (hasMore || PublishedContent.lr_HasMore r)
      end
  end.
Definition newest_item : PublishedContent.SectionItem -> PublishedContent.SectionItem -> bool :=
  on_key Z_gt publishedContentItemSortTimestamp tie.
Definition loadPublishedContentByCanonicalIdentity
    (lister : PublishedContent.ListParams -> M W (option PublishedContent.ListResult))
    (canonical : CanonicalIdentity) (opts : Options) (protocolPath : string) : M W PublishedContent.ListResult :=
  found <- run_queries lister (publishedContentIdentityQueries canonical opts protocolPath) [] [] false ;;
  let '(items, hasMore) := found in
  let items := SliceStable newest_item items in
  let over := homepageSectionReadSize <? Z.of_nat (length items) in
  hret (PublishedContent.mkListResult
          (if over then take (Z.to_nat homepageSectionReadSize) items else items) (over || hasMore)).
Definition loadPublishedContentSection (a : Aggregator) (canonical : CanonicalIdentity) (opts : Options)
    (id title kind protocolPath warningText : string) : M W (Section_ * list ProofSummary * string) := fun w =>
  match bh_publishedContentLister a with
  | None => (Ok (emptySection id title kind, [], ""), w)
  | Some lister =>
      match loadPublishedContentByCanonicalIdentity lister canonical opts protocolPath w with
      | (Err _, w) => (Ok (emptySection id title kind, [], warningText), w)
      | (Ok result, w) =>
          let items := map (sectionItemFromPublishedContent protocolPath (ci_GlobalMetaId canonical)
                              (op_IncludeProofs opts)) (PublishedContent.lr_Items result) in
          (Ok (section_of id title kind items (PublishedContent.lr_HasMore result), ""), w)
      end
  end.

Definition sectionSpecs (opts : Options) : list (string * string * string * string) :=
  (if op_IncludeMetaApps opts then [("metaapps", "MetaAPPs", PathMetaApp, "metaapps section unavailable")] else [])
  ++ (if op_IncludeSkills opts then [("skills", "Skills", PathMetaBotSkill, "skills section unavailable")] else [])
  ++ (if op_IncludeBuzzes opts then [("buzzes", "Buzzes", PathSimpleBuzz, "buzzes section unavailable")] else []).
Definition section_loaders (a : Aggregator) (canonical : CanonicalIdentity) (opts : Options)
    : list (M W (Section_ * list ProofSummary * string)) :=
  (if op_IncludeServices opts then [loadServicesSection a (ci_GlobalMetaId canonical) opts] else [])
  ++ map (fun '(id, title, path, warning) =>
            loadPublishedContentSection a canonical opts id title id path warning) (sectionSpecs opts).
Definition sections_state : Type := list Section_ * gmap string (list ProofSummary) * list string.
Definition add_section (opts : Options) (out : sections_state) (loaded : Section_ * list ProofSummary * string)
    : sections_state :=
  let '(sections, proofs, warnings) := out in
  let '(section, sectionProofs, warning) := loaded in
  (sections ++ [section],
   match sectionProofs with
   | _ :: _ => if op_IncludeProofs opts then <[se_Id section := sectionProofs]> proofs else proofs
   | [] => proofs
   end,
   if is_empty warning then warnings else warnings ++ [warning]).
Definition loadSections (a : Aggregator) (canonical : CanonicalIdentity) (opts : Options) (warnings : list string)
    : M W sections_state :=
  hfold (fun out load => loaded <- load ;; hret (add_section opts out loaded)) (section_loaders a canonical opts)
    ([], ∅, warnings).

(** ** The page *)

Definition serviceActionCount (services : list Service) (sections : list Section_) : Z :=
  match services with
  | _ :: _ => Z.of_nat (length services)
  | [] =>
      match List.find (fun s => String.eqb (se_Id s) "services") sections with
      | None => 0
      | Some s => if 0 <? se_Returned s then se_Returned s else Z.of_nat (length (se_Items s))
      end
  end.
Definition buildActions (chatPubkey : string) (serviceCount : Z) (canonicalGlobalMetaId : string) : list Action :=
  [mkAction "message" "Message" "private-chat" (negb (is_empty (TrimSpace chatPubkey))) true "";
   mkAction "services" "Services" "service-list" (0 <? serviceCount) true "";
   mkAction "copy-uri" "Copy URI" "copy" true false ("metaid://" +:+ TrimSpace canonicalGlobalMetaId)].
Definition schemaVersion (opts : Options) : string :=
  if is_v2 (op_Version opts) then "botHomepage.v2" else "botHomepage.v1".
Definition currentTime (a : Aggregator) : Z := default 0 (bh_now a).
Definition canonical_of (requestGlobalMetaId : string) (p : ProfileSnapshot) : CanonicalIdentity :=
  mkCanonical (firstNonEmpty [snap_GlobalMetaId p; requestGlobalMetaId]) (TrimSpace (snap_MetaId p))
    (TrimSpace (snap_Address p)) (TrimSpace (snap_ChainName p)).

Definition ErrInvalidParameter : error := "invalid parameter".
Definition ErrNotFound : error := "bot homepage not found".
Definition ErrAggregationUnavailable : error := "aggregation unavailable".

(** The services and sections follow; the actions come last. *)
Definition base_page (a : Aggregator) (requestGlobalMetaId : string) (opts : Options) (p : ProfileSnapshot) (w : W)
    : Data :=
  let v2 := is_v2 (op_Version opts) in
  let canonical := canonical_of requestGlobalMetaId p in
  let profile := toProfile a p (ci_GlobalMetaId canonical) in
  let persona := if v2 then Some (buildPersona p) else None in
  let profile := mkProfile (pf_Name profile) (pf_Avatar profile) (pf_AvatarPinId profile) (pf_Background profile)
                   (pf_BackgroundPinId profile) (profileBioForVersion p (pf_Bio profile) (op_Version opts))
                   (pf_BioPinId profile) (pf_ChatPubkey profile) (pf_ChatPubkeyPinId profile)
                   (pf_NftAvatar profile) (pf_DisplayGlobalId profile) in
  let '(proofs, warnings) := if op_IncludeProofs opts then buildProfileProofs p (ci_GlobalMetaId canonical) v2
                             else (emptyProofs, []) in
  {| da_SchemaVersion := schemaVersion opts; da_ResolvedAt := currentTime a; da_GlobalMetaId := requestGlobalMetaId;
     da_Canonical := canonical; da_Profile := profile; da_Persona := persona;
     da_Homepage := if v2 then toHomepage profile persona p else toDefaultHomepage profile persona;
     da_Presence := resolvePresence a p (op_IncludePresence opts) w; da_Services := []; da_Sections := [];
     da_Actions := []; da_Proofs := proofs; da_Source := source a (currentTime a); da_Warnings := warnings |}.
Definition with_services (services : list Service) (proofs : list ServiceProof) (warnings : list string) (d : Data)
    : Data :=
  let p := da_Proofs d in
  mkData (da_SchemaVersion d) (da_ResolvedAt d) (da_GlobalMetaId d) (da_Canonical d) (da_Profile d) (da_Persona d)
    (da_Homepage d) (da_Presence d) services (da_Sections d) (da_Actions d)
    (mkProofs (match proofs with [] => pv_VerificationState p | _ => "partial" end) (pv_Profile p) (pv_Persona p)
       (pv_Homepage p) (pv_Sections p) proofs) (da_Source d) warnings.
Definition with_sections (opts : Options) (out : sections_state) (d : Data) : Data :=
  let '(sections, proofs, warnings) := out in
  let p := da_Proofs d in
  mkData (da_SchemaVersion d) (da_ResolvedAt d) (da_GlobalMetaId d) (da_Canonical d) (da_Profile d) (da_Persona d)
    (da_Homepage d) (da_Presence d) (da_Services d) sections (da_Actions d)
    (if op_IncludeProofs opts && negb (bool_decide (proofs = ∅))
     then mkProofs "partial" (pv_Profile p) (pv_Persona p) (pv_Homepage p) proofs (pv_Services p) else p)
    (da_Source d) warnings.
Definition with_actions (d : Data) : Data :=
  mkData (da_SchemaVersion d) (da_ResolvedAt d) (da_GlobalMetaId d) (da_Canonical d) (da_Profile d) (da_Persona d)
    (da_Homepage d) (da_Presence d) (da_Services d) (da_Sections d)
    (buildActions (pf_ChatPubkey (da_Profile d)) (serviceActionCount (da_Services d) (da_Sections d))
       (ci_GlobalMetaId (da_Canonical d))) (da_Proofs d) (da_Source d) (da_Warnings d).
Definition Build (a : Aggregator) (requestGlobalMetaId : string) (opts : Options) : M W Data := fun w =>
  let requestGlobalMetaId := TrimSpace requestGlobalMetaId in
  if is_empty requestGlobalMetaId then (Err ErrInvalidParameter, w) else
  match bh_profileLookup a with
  | None => (Err ErrAggregationUnavailable, w)
  | Some lookup =>
      match lookup requestGlobalMetaId w with
      | (Err _, w) => (Err ErrAggregationUnavailable, w)
      | (Ok None, w) => (Err ErrNotFound, w)
      | (Ok (Some profile), w) =>
          let d := base_page a requestGlobalMetaId opts profile w in
          let canonical := da_Canonical d in
          let services := if op_IncludeServices opts
                          then loadServices a (ci_GlobalMetaId canonical) opts (da_Warnings d)
                          else hret (da_Services d, pv_Services (da_Proofs d), da_Warnings d) in
          match services w with
          | (Err _, w) => (Err ErrAggregationUnavailable, w)
          | (Ok (services, proofs, warnings), w) =>
              let d := with_services services proofs warnings d in
              let sections := if is_v2 (op_Version opts) && op_IncludeSections opts
                              then out <- loadSections a canonical opts (da_Warnings d) ;; hret (with_sections opts out d)
                              else hret d in
              (d <- sections ;; hret (with_actions d)) w
          end
      end
  end.

(** ** The endpoint ([api.go]) *)

Definition handleGlobalMetaID (a : Aggregator) (globalMetaId : string) (query : Values) (w : W) : response Data * W :=
  match ParseOptions query with
  | Err _ => (RespErr 40000 "invalid parameter", w)
  | Ok opts =>
      match Build a globalMetaId opts w with
      | (Ok data, w) => (RespSuccess data, w)
      | (Err e, w) =>
          (if String.eqb e ErrInvalidParameter then RespErr 40000 "invalid parameter"
           else if String.eqb e ErrNotFound then RespErr 40400 "bot homepage not found"
           else RespErr 50000 "aggregation unavailable", w)
      end
  end.
End Homepage.
