(* ===== verification/BotHomepageFacts.v ===== *)
(** * BotHomepageFacts: the sections of published content

    A section shows the first items of all that the user published under any of its
    identities.  The contents come from [PublishedContent.List_] on the state the
    pins made. *)

From S2P Require Import Prelude GoText Json Storage Aggregator Effects IdAddress PublishedContent PublishedContentFacts PublishedContentRuns PublishedContentLists PublishedContentReplay FedStore Federation SkillList BotHomepage.
#[local] Set Warnings "-clear-no-such-hyp".

(** * The first items of several sorted lists

    A section asks three lists for one item more than it shows, joins what it gets
    and sorts again.  What it shows is the beginning of all the items together. *)

Section Merge.
Context {A : Type} (less : A -> A -> bool) `{!StrictWeak less} (n : nat).

Lemma take_before (l : list A) x y : sorted_by less l -> x ∈ take n l -> y ∈ drop n l -> less y x = false.
Proof.
  intros Hs Hx Hy. rewrite <- (take_drop n l) in Hs.
  by apply (StronglySorted_app_1_elem_of (fun a b => less b a = false) (take n l) (drop n l)).
Qed.
Lemma no_more (a b : list A) : NoDup a -> (forall x, x ∈ a -> x ∈ b) -> (length a <= length b)%nat.
Proof. intros Hd Hi. by apply submseteq_length, NoDup_submseteq. Qed.
(** If [n] elements of a sorted list are not after [y], its first [n] are not. *)
Lemma prefix_before (l top : list A) x y :
  sorted_by less l -> NoDup top -> (n <= length top)%nat -> (forall t, t ∈ top -> t ∈ l /\ less y t = false) ->
  x ∈ take n l -> less y x = false.
Proof.
  intros Hs Hd Hn Ht Hx. destruct (less y x) eqn:E; [|done]. exfalso.
  apply elem_of_take in Hx as (j & Hj & Hjn).
  assert (Hle : (length top <= length (take j l))%nat).
  { apply no_more; [done|]. intros t Htop. destruct (Ht t Htop) as [Hin Hyt].
    apply list_elem_of_lookup in Hin as (k & Hk). apply elem_of_take. exists k. split; [done|].
    destruct (decide (k < j)%nat) as [|Hkj]; [done|]. exfalso.
    assert (less t x = false) as Htx.
    { rewrite <- (take_drop j l) in Hs.
      assert (Hdrop : t ∈ drop j l).
      { apply list_elem_of_lookup. exists (k - j)%nat. rewrite lookup_drop. by replace (j + (k - j))%nat with k by lia. }
      apply StronglySorted_app_1_r in Hs. rewrite (drop_S l x j Hj) in Hs, Hdrop.
      apply elem_of_cons in Hdrop as [->|Hd2].
      - destruct (less x x) eqn:Ex; [|done]. by rewrite (sw_asym _ _ Ex) in Ex.
      - inversion Hs as [|? ? _ Hall]; subst. rewrite Forall_forall in Hall. by apply Hall. }
    by rewrite (sw_negtrans y t x Hyt Htx) in E. }
  rewrite length_take in Hle. lia.
Qed.

(** [M] has the first [n] elements of each list, [rest] what else the lists have. *)
Lemma top_merge (alls : list (list A)) (M rest : list A) :
  (forall all, all ∈ alls -> NoDup all /\ sorted_by less all) ->
  NoDup (M ++ rest) ->
  (forall all x, all ∈ alls -> x ∈ take n all -> x ∈ M) ->
  (forall x, x ∈ rest -> exists all, all ∈ alls /\ x ∈ all) ->
  exists merged, merged ≡ₚ M ++ rest /\ sorted_by less merged
    /\ take n merged = take n (SliceStable less M) /\ ((n <= length merged)%nat <-> (n <= length M)%nat).
Proof.
  intros Halls Hnd Htop Hrest. apply NoDup_app in Hnd as (HdM & Hdis & _).
  set (S := SliceStable less M).
  assert (HS : S ≡ₚ M) by apply SliceStable_perm.
  assert (HsS : sorted_by less S) by apply SliceStable_sorted, _.
  assert (Hafter : forall y, y ∈ rest -> (n <= length M)%nat /\ forall x, x ∈ take n S -> less y x = false).
  { intros y Hy. destruct (Hrest y Hy) as (all & Hall & Hin). destruct (Halls all Hall) as [Hda Hsa].
    assert (Hyd : y ∈ drop n all).
    { rewrite <- (take_drop n all) in Hin. apply elem_of_app in Hin as [Hin|Hin]; [|done].
      destruct (Hdis y); [by apply (Htop all)|done]. }
    assert (Hlen : length (take n all) = n).
    { rewrite length_take. apply list_elem_of_lookup in Hyd as (k & Hk%lookup_lt_Some).
      rewrite length_drop in Hk. lia. }
    assert (HdT : NoDup (take n all)) by (rewrite <- (take_drop n all) in Hda; apply NoDup_app in Hda; tauto).
    split.
    - rewrite <- Hlen at 1. apply no_more; [done|]. intros x. by apply Htop.
    - intros x. apply (prefix_before S (take n all)); [done|done|lia|].
      intros t Ht. split; [rewrite HS; by apply (Htop all)|by apply (take_before all)]. }
  set (tail := SliceStable less (drop n S ++ rest)).
  assert (Ht : tail ≡ₚ drop n S ++ rest) by apply SliceStable_perm.
  assert (Hp : take n S ++ tail ≡ₚ M ++ rest) by (rewrite Ht, app_assoc, take_drop; by rewrite HS).
  assert (Hshort : (length M < n)%nat -> rest = []).
  { intros Hl. destruct rest as [|y rest']; [done|]. destruct (Hafter y ltac:(left)). lia. }
  exists (take n S ++ tail). split; [done|]. split; [|split].
  - apply StronglySorted_app. split; [|split].
    + intros x y Hx Hy. rewrite Ht in Hy. apply elem_of_app in Hy as [Hy|Hy]; [by apply (take_before S)|].
      by apply Hafter.
    + rewrite <- (take_drop n S) in HsS. by apply StronglySorted_app_1_l in HsS.
    + apply SliceStable_sorted, _.
  - destruct (decide (n <= length M)%nat) as [Hl|Hl].
    + apply take_app_length'. rewrite length_take, HS. lia.
    + assert (Hr : rest = []) by (apply Hshort; lia).
      assert (tail = []) as ->.
      { apply Permutation_nil_r. rewrite Ht, Hr, drop_ge by (rewrite HS; lia). done. }
      by rewrite app_nil_r, take_take, Nat.min_id.
  - rewrite Hp, length_app. split; [|lia]. intros Hl.
    destruct (decide (n <= length M)%nat); [done|]. rewrite Hshort in Hl by lia. cbn in Hl. lia.
Qed.
End Merge.

(** ** Joining what the queries answer *)

Abbreviation key := publishedContentItemKey.
Lemma add_unseen_spec items seen :
  let '(out, seen') := add_unseen items seen in
  (forall k, k ∈ seen' <-> k ∈ seen \/ k ∈ map key out) /\ NoDup (map key out)
  /\ (forall x, x ∈ out -> x ∈ items /\ key x ∉ seen) /\ (forall x, x ∈ items -> key x ∈ seen').
Proof.
  revert seen. induction items as [|x items IH]; intros seen; cbn [add_unseen].
  { split; [intros k; cbn; rewrite elem_of_nil; tauto|]. split; [constructor|].
    split; intros y Hy; by apply elem_of_nil in Hy. }
  case_bool_decide as Hx.
  - specialize (IH seen). destruct (add_unseen items seen) as [out seen']. destruct IH as (H1 & H2 & H3 & H4).
    split; [done|]. split; [done|]. split.
    + intros y Hy. destruct (H3 y Hy). split; [by right|done].
    + intros y [->|Hy]%elem_of_cons; [rewrite H1; by left|by apply H4].
  - specialize (IH (key x :: seen)). destruct (add_unseen items (key x :: seen)) as [out seen'].
    destruct IH as (H1 & H2 & H3 & H4). cbn [map]. split.
    { intros k. rewrite H1, !elem_of_cons. tauto. }
    split.
    { apply NoDup_cons. split; [|done]. intros (y & E & Hy)%list_elem_of_fmap.
      apply H3 in Hy as [_ Hy]. apply Hy. rewrite <- E. left. }
    split.
    + intros y [->|Hy]%elem_of_cons; [split; [left|done]|]. destruct (H3 y Hy) as [Hin Hn].
      split; [by right|]. intros Hs. apply Hn. by right.
    + intros y [->|Hy]%elem_of_cons; [rewrite H1; left; left|by apply H4].
Qed.
Lemma add_unseen_app a b seen :
  add_unseen (a ++ b) seen
  = let '(x, seen1) := add_unseen a seen in let '(y, seen2) := add_unseen b seen1 in (x ++ y, seen2).
Proof.
  revert seen. induction a as [|i a IH]; intros seen; cbn.
  { by destruct (add_unseen b seen). }
  case_bool_decide; rewrite IH; [done|].
  destruct (add_unseen a (key i :: seen)) as [x s1]. by destruct (add_unseen b s1).
Qed.
(** The queries of one request are answered from one state. *)
Lemma run_queries_spec {W} (lister : PublishedContent.ListParams -> M W (option PublishedContent.ListResult)) (w : W) answer queries items seen more :
  (forall q, q ∈ queries -> lister q w = (Ok (Some (answer q)), w)) ->
  run_queries lister queries items seen more w
  = (Ok (items ++ (add_unseen (mjoin (map (fun q => lr_Items (answer q)) queries)) seen).1,
         more || existsb (fun q => lr_HasMore (answer q)) queries), w).
Proof.
  revert items seen more. induction queries as [|q queries IH]; intros items seen more Hq; cbn [run_queries].
  { cbn. by rewrite app_nil_r, orb_false_r. }
  unfold hbind. rewrite Hq by left.
  change (mjoin (map (fun q => lr_Items (answer q)) (q :: queries)))
    with (lr_Items (answer q) ++ mjoin (map (fun q => lr_Items (answer q)) queries)).
  rewrite add_unseen_app. destruct (add_unseen (lr_Items (answer q)) seen) as [x seen1].
  rewrite IH by (intros q' Hq'; apply Hq; by right). cbn [existsb].
  destruct (add_unseen _ seen1) as [y seen2]. cbn [fst]. by rewrite <- app_assoc, orb_assoc.
Qed.

(** * The sections of published content

    A section shows the first items of all that the user published under any of its
    identities.  The contents come from [PublishedContent.List_] on the state the
    pins made. *)

(** ** Records with a plain key and a time *)

Section Plain.
Context {St : Type} {KV : KVOps St} {KVS : KVStore St} {PJ : PublishedJSON} {B58 : Base58}.

Record plain (r : Record_) : Prop := {
  pl_chain : ToLower (ChainName r) = ChainName r;
  pl_source : TrimSpace (SourcePinId r) = SourcePinId r;
  pl_created : 0 < CreatedAt r }.
Record plain_pin (pin : PinInscription) : Prop := {
  plp_good : good_pin pin;
  plp_id : TrimSpace (pin_Id pin) = pin_Id pin;
  plp_time : 0 < pin_Timestamp pin }.
Definition all_plain (m : gmap string string) : Prop := forall r, wf_record r -> stored m r -> plain r.

Lemma plain_saved rec previous m :
  wf_record rec -> plain rec -> all_plain m -> all_plain (saved rec previous m).
Proof.
  intros Hw Hp Hm r Hwr Hs. unfold stored in Hs. rewrite saved_record in Hs by apply HasPrefix_app.
  case_bool_decide as E; [|by apply Hm].
  injection Hs as Ej. pose proof (json_roundtrip rec (wf_faithful _ Hw)) as R.
  rewrite Ej, json_roundtrip in R by (by apply wf_faithful). by injection R as ->.
Qed.
Lemma plain_mapped k p src m : all_plain m -> all_plain (<[pinToSourceKey k p := src]> m).
Proof.
  intros Hm r Hw Hs. apply Hm; [done|]. unfold stored in *. by rewrite lookup_insert_ne in Hs.
Qed.
Lemma merge_created previous candidate id :
  CreatedAt (mergeConfirmedReplayWithPendingCurrent previous candidate id) = CreatedAt candidate.
Proof. unfold mergeConfirmedReplayWithPendingCurrent. by do 2 (case_match; [done|]). Qed.
Lemma plain_keyed c p src r : keyed c p src r -> ToLower c = c -> TrimSpace src = src -> 0 < CreatedAt r -> plain r.
Proof. intros (<- & _ & <-) ???. by split. Qed.
Lemma plain_step pin b s m :
  ready s -> plain_pin pin -> all_plain (view s) -> pin_step pin b s m -> all_plain m.
Proof.
  intros Hr [Hg Hid Ht] Hm Hstep.
  assert (Hc : ToLower (pin_ChainName pin) = pin_ChainName pin).
  { pose proof (gp_chain pin Hg) as E. rewrite <- E at 1. by rewrite ToLower_idem, E. }
  destruct Hstep as [|path [Hne Hi] Hp Hno|path ex [Hne Hi] Hp _ _ Hex|path previous change [Hne Hi] Hp Hch _ Hprev].
  - done.
  - apply plain_saved; [apply wf_new; try done; by apply good_id| |done].
    by apply (plain_keyed (pin_ChainName pin) path (pin_Id pin)); [apply new_keyed|..].
  - apply plain_saved; [apply wf_merge; [apply Hex|apply wf_new; try done; by apply good_id]| |done].
    apply (plain_keyed (pin_ChainName pin) path (pin_Id pin)); [apply keyed_merge; by apply new_keyed|done|done|].
    by rewrite merge_created.
  - apply plain_mapped.
    destruct (change_ok pin path b previous change _ _ _ _ Hg Hne Hp Hch eq_refl eq_refl Hprev) as [Hw Hk].
    pose proof Hprev as (Hwp & Hs & _ & _ & Esrc). destruct (Hm previous Hwp Hs) as [_ Hsrc Hcr].
    apply plain_saved; [done| |done].
    apply (plain_keyed _ _ _ _ Hk); [done|by rewrite <- Esrc|].
    destruct Hch as [-> | ->]; [by rewrite modified_eq, merge_created|by rewrite revoked_eq, merge_created].
Qed.
Lemma plain_run es s :
  ready s -> all_plain (view s) -> Forall (fun e => plain_pin e.2) es -> all_plain (view (run_pins es s)).
Proof.
  intros Hr Hm Hes. revert s Hr Hm. induction Hes as [|e es He _ IH]; intros s Hr Hm; [done|].
  destruct (handle_step e s Hr (plp_good _ He)) as (_ & Hr' & Hst). apply IH; [done|].
  exact (plain_step _ _ _ _ Hr He Hm Hst).
Qed.

Lemma plain_timestamp r : plain r -> publishedContentItemSortTimestamp r = sortTimestamp r.
Proof.
  intros [_ _ H]. unfold publishedContentItemSortTimestamp, sortTimestamp.
  destruct (String.eqb _ _); [|done]. by rewrite (proj2 (Z.ltb_lt 0 (CreatedAt r)) H).
Qed.
Lemma plain_key r : wf_record r -> plain r -> keyRecord +:+ publishedContentItemKey r = key_of r.
Proof.
  intros Hw [Hc Hs _]. unfold publishedContentItemKey, key_of, recordKey. cbn [firstNonEmpty].
  rewrite Hc, Hs. destruct (is_empty (SourcePinId r)) eqn:E; [|done].
  apply is_empty_spec in E. by destruct (wf_source r Hw).
Qed.
Lemma same_key_same_record s a b :
  ready s -> all_plain (view s) -> stored_in s a -> stored_in s b ->
  publishedContentItemKey a = publishedContentItemKey b -> a = b.
Proof.
  intros Hr Hp Ha Hb E. apply (stored_wf s a Hr) in Ha as [Hwa Hsa]. apply (stored_wf s b Hr) in Hb as [Hwb Hsb].
  apply (stored_inj (view s)); [done..|].
  rewrite <- !plain_key by (done || by apply Hp). by rewrite E.
Qed.
End Plain.

Lemma sorted_by_weaken {A} (less less' : A -> A -> bool) l :
  (forall a b, a ∈ l -> b ∈ l -> less b a = false -> less' b a = false) -> sorted_by less l -> sorted_by less' l.
Proof.
  intros H Hs. unfold sorted_by in *. induction Hs as [|x l Hs IH Hx]; [constructor|]. constructor.
  - apply IH. intros a b Ha Hb. apply H; by right.
  - rewrite Forall_forall in *. intros y Hy. apply H; [left|by right|by apply Hx].
Qed.
Lemma choose_list {A B} (P : A -> B -> Prop) l :
  (forall a, a ∈ l -> exists b, P a b) -> exists k, Forall2 P l k.
Proof.
  induction l as [|a l IH]; intros H; [exists []; constructor|].
  destruct (H a ltac:(left)) as [b Hb]. destruct IH as [k Hk]; [intros x Hx; apply H; by right|].
  exists (b :: k). by constructor.
Qed.

(** ** What the queries of a section ask for *)

Section Content.
Context {St W : Type} {KV : KVOps St} {KVS : KVStore St} {PJ : PublishedJSON} {B58 : Base58}.
Context {HJ : HomepageJSON} {G : GoLib} {NU : NetURL}.
(** The part of the node's state that the published contents live in. *)
Context (store : W -> St).

Definition published_lister (params : PublishedContent.ListParams) : M W (option PublishedContent.ListResult) :=
  fun w => (r <-? PublishedContent.List_ params (store w) ;; Ok (Some r), w).

Definition published_by (c : CanonicalIdentity) (r : Record_) : Prop :=
  (TrimSpace (ci_GlobalMetaId c) <> "" /\ PublisherGlobalMetaId r = TrimSpace (ci_GlobalMetaId c))
  \/ (TrimSpace (ci_MetaId c) <> "" /\ PublisherMetaId r = TrimSpace (ci_MetaId c))
  \/ (TrimSpace (ci_Address c) <> "" /\ PublisherAddress r = TrimSpace (ci_Address c)).
Definition asked_for (opts : Options) (path : string) (r : Record_) : Prop :=
  ProtocolPath r = path /\ Hidden r = false
  /\ (ToLower (TrimSpace (op_ChainName opts)) = "" \/ ChainName r = ToLower (TrimSpace (op_ChainName opts))).
(** The visible records of a protocol that the user published. *)
Definition shown (c : CanonicalIdentity) (opts : Options) (path : string) (s : St) (r : Record_) : Prop :=
  stored_in s r /\ asked_for opts path r /\ published_by c r.
Definition ids_ok (c : CanonicalIdentity) : Prop :=
  Forall (fun i => no_char ":" (TrimSpace i) = true) [ci_GlobalMetaId c; ci_MetaId c; ci_Address c].

Abbreviation norm := PublishedContent.normaliseListParams.
Definition query (opts : Options) (path g m a : string) : PublishedContent.ListParams :=
  PublishedContent.mkListParams path (op_ChainName opts) g m a homepageSectionReadSize false.
Lemma published_normal path : isPublishedProtocol path = true -> protocolPathFromPinPath path = path.
Proof. unfold isPublishedProtocol. rewrite !orb_true_iff, !String.eqb_eq. by intros [[-> | ->]| ->]. Qed.
Lemma query_matches opts path g m a r :
  isPublishedProtocol path = true ->
  recordMatches r (norm (query opts path g m a)) = true
  <-> asked_for opts path r /\ (TrimSpace g = "" \/ PublisherGlobalMetaId r = TrimSpace g)
      /\ (TrimSpace m = "" \/ PublisherMetaId r = TrimSpace m) /\ (TrimSpace a = "" \/ PublisherAddress r = TrimSpace a).
Proof.
  intros Hp. unfold recordMatches, norm, query, asked_for.
  cbn [lp_ProtocolPath PublishedContent.lp_ChainName lp_GlobalMetaId lp_MetaId lp_Address lp_IncludeHidden].
  rewrite (published_normal path Hp), !andb_true_iff, !passes_spec. cbn [orb]. rewrite negb_true_iff.
  assert (path <> "") by (by apply published_path). intuition.
Qed.
Lemma query_in c opts path q :
  q ∈ publishedContentIdentityQueries c opts path
  -> (exists i, i ∈ [ci_GlobalMetaId c; ci_MetaId c; ci_Address c]
       /\ (q = query opts path (TrimSpace i) "" "" \/ q = query opts path "" (TrimSpace i) ""
           \/ q = query opts path "" "" (TrimSpace i))) .
Proof.
  unfold publishedContentIdentityQueries. cbv zeta. rewrite !elem_of_app. fold (query opts path).
  destruct (is_empty (TrimSpace (ci_GlobalMetaId c))), (is_empty (TrimSpace (ci_MetaId c))),
    (is_empty (TrimSpace (ci_Address c))); rewrite ?list_elem_of_singleton, ?elem_of_nil;
    intros [?|[?|?]]; try done; eauto 10 using list_elem_of_here, list_elem_of_further.
Qed.
Lemma query_ok c opts path q :
  isPublishedProtocol path = true -> ids_ok c -> q ∈ publishedContentIdentityQueries c opts path ->
  list_ok (norm q) /\ PublishedContent.lp_Size (norm q) = 6.
Proof.
  intros Hp Hids (i & Hi & Hq)%query_in. unfold ids_ok in Hids. rewrite Forall_forall in Hids.
  specialize (Hids i Hi). unfold list_ok.
  destruct Hq as [-> | [-> | ->]]; (split; [intros _; split; [change (isPublishedProtocol (protocolPathFromPinPath path) = true); by rewrite published_normal|]|done]);
    unfold PublishedContent.normaliseListParams, query; cbn [lp_GlobalMetaId lp_MetaId lp_Address];
    rewrite !Forall_cons, Forall_nil, ?TrimSpace_idem; by rewrite ?Hids.
Qed.
Lemma added_query (P : PublishedContent.ListParams -> Prop) (v : string) (q : string -> PublishedContent.ListParams) :
  (exists x, x ∈ (if is_empty v then [] else [q v]) /\ P x) <-> v <> "" /\ P (q v).
Proof.
  rewrite <- is_empty_spec. destruct (is_empty v); split.
  - by intros (x & Hx%elem_of_nil & _).
  - by intros [[] _].
  - by intros (x & ->%list_elem_of_singleton & H).
  - intros [_ H]. exists (q v). split; [left|done].
Qed.
Lemma queries_match c opts path r :
  isPublishedProtocol path = true ->
  (exists q, q ∈ publishedContentIdentityQueries c opts path /\ recordMatches r (norm q) = true)
  <-> asked_for opts path r /\ published_by c r.
Proof.
  intros Hp. unfold publishedContentIdentityQueries, published_by. cbv zeta. fold (query opts path).
  set (P := fun q => recordMatches r (norm q) = true).
  assert (Happ : forall l l', (exists q, q ∈ l ++ l' /\ P q) <-> (exists q, q ∈ l /\ P q) \/ (exists q, q ∈ l' /\ P q)).
  { intros l l'. setoid_rewrite elem_of_app. naive_solver. }
  change (recordMatches r (norm ?q) = true) with (P q).
  rewrite !Happ.
  rewrite (added_query P (TrimSpace (ci_GlobalMetaId c)) (fun v => query opts path v "" "")),
    (added_query P (TrimSpace (ci_MetaId c)) (fun v => query opts path "" v "")),
    (added_query P (TrimSpace (ci_Address c)) (fun v => query opts path "" "" v)).
  unfold P. rewrite !query_matches, !TrimSpace_idem by done.
  assert (TrimSpace "" = "") by done. tauto.
Qed.

(** ** The answers, joined *)

Definition answer (w : W) (q : PublishedContent.ListParams) : PublishedContent.ListResult :=
  match PublishedContent.List_ q (store w) with Ok r => r | Err _ => PublishedContent.mkListResult [] false end.
Lemma list_sorted params s all :
  ready s -> all_plain (view s) -> PublishedContentLists.matching (St := St) params s all -> sorted_by newest_item all.
Proof.
  intros Hr Hpl (_ & Hm & Hs). revert Hs. apply sorted_by_weaken. intros a b Ha Hb.
  assert (Hts : forall r, r ∈ all -> publishedContentItemSortTimestamp r = sortTimestamp r).
  { intros r Hin. apply Hm in Hin as [Hst _]. apply (stored_wf s r Hr) in Hst as [Hw Hst].
    apply plain_timestamp. by apply Hpl. }
  unfold list_less, newest_item, index_less, newest_less, on_key. rewrite !Hts by done.
  destruct (hasIdentityFilter params); by case_decide.
Qed.

Section Load.
Context (c : CanonicalIdentity) (opts : Options) (path : string) (w : W).
Context (Hp : isPublishedProtocol path = true) (Hids : ids_ok c).
Context (Hr : ready (store w)) (Hpl : all_plain (view (store w))).
Abbreviation queries := (publishedContentIdentityQueries c opts path).

Definition answers_to (q : PublishedContent.ListParams) (all : list Record_) : Prop :=
  PublishedContentLists.matching (St := St) (norm q) (store w) all
  /\ answer w q = PublishedContent.mkListResult (take 6 all) (6 <? Z.of_nat (length all)).
Lemma query_answered q : q ∈ queries -> (exists all, answers_to q all) /\ published_lister q w = (Ok (Some (answer w q)), w).
Proof.
  intros Hq. destruct (query_ok c opts path q Hp Hids Hq) as [Hok Hsize].
  destruct (List_pages q (store w) Hr Hok) as (all & Hm & E). rewrite Hsize in E.
  unfold answers_to, published_lister, answer. rewrite E. split; [by exists all|done].
Qed.
Lemma in_queries alls r :
  Forall2 answers_to queries alls ->
  (exists all, all ∈ alls /\ r ∈ all) <-> shown c opts path (store w) r.
Proof.
  intros Ha. unfold shown. rewrite <- (queries_match c opts path r Hp). split.
  - intros (all & Hall & Hin). apply list_elem_of_lookup in Hall as (k & Hk).
    destruct (Forall2_lookup_r _ _ _ _ _ Ha Hk) as (q & Hq & (_ & Hm & _) & _).
    destruct (proj1 (Hm r) Hin) as [Hst Hmr]. split; [done|]. exists q. split; [by eapply list_elem_of_lookup_2|done].
  - intros (Hst & q & Hq & Hmr). destruct (proj1 (list_elem_of_lookup _ _) Hq) as (k & Hk).
    destruct (Forall2_lookup_l _ _ _ _ _ Ha Hk) as (all & Hall & (_ & Hm & _) & _).
    exists all. split; [by eapply list_elem_of_lookup_2|]. by apply Hm.
Qed.
Lemma joined_answers alls :
  Forall2 answers_to queries alls ->
  mjoin (map (fun q => PublishedContent.lr_Items (answer w q)) queries) = mjoin (map (take 6) alls)
  /\ existsb (fun q => PublishedContent.lr_HasMore (answer w q)) queries
     = existsb (fun all : list Record_ => 6 <? Z.of_nat (length all)) alls.
Proof.
  induction 1 as [|q all qs alls [_ E] _ [IH1 IH2]]; [done|].
  cbn [map existsb]. rewrite E. cbn [PublishedContent.lr_Items PublishedContent.lr_HasMore].
  rewrite IH2. split; [|done]. change (mjoin (?x :: ?l)) with (x ++ mjoin l). f_equal. exact IH1.
Qed.

(** Everything that is shown, beginning with what the queries return. *)
Lemma load_exact :
  exists all, NoDup all /\ (forall r, r ∈ all <-> shown c opts path (store w) r) /\ sorted_by newest_item all
    /\ exists more, loadPublishedContentByCanonicalIdentity published_lister c opts path w
       = (Ok (PublishedContent.mkListResult (take 6 all) more), w)
    /\ (more = true -> (6 <= length all)%nat).
Proof.
  destruct (choose_list answers_to queries) as [alls Ha]; [intros q Hq; by apply query_answered|].
  set (M := (add_unseen (mjoin (map (take 6) alls)) []).1).
  set (rest := (add_unseen (mjoin alls) (map key M)).1).
  pose proof (add_unseen_spec (mjoin (map (take 6) alls)) []) as HM.
  pose proof (add_unseen_spec (mjoin alls) (map key M)) as HR.
  unfold M, rest in *. destruct (add_unseen (mjoin (map (take 6) alls)) []) as [M' seen] eqn:EM.
  cbn [fst] in *. clear M. destruct (add_unseen (mjoin alls) (map key M')) as [R seen'] eqn:ER. cbn [fst] in *.
  destruct HM as (HM1 & HM2 & HM3 & HM4), HR as (HR1 & HR2 & HR3 & HR4).
  assert (Hshown : forall all r, all ∈ alls -> r ∈ all -> shown c opts path (store w) r)
    by (intros all r ? ?; apply (in_queries alls); [done|by exists all]).
  assert (Hjoin : forall r, r ∈ mjoin alls <-> shown c opts path (store w) r).
  { intros r. rewrite <- (in_queries alls r Ha), list_elem_of_join. naive_solver. }
  assert (Hfirst : forall r, r ∈ mjoin (map (take 6) alls) -> r ∈ mjoin alls).
  { intros r (l & Hin & (all & -> & Hall)%list_elem_of_fmap)%list_elem_of_join. apply list_elem_of_join.
    exists all. split; [|done]. by eapply elem_of_take in Hin as (k & Hk%list_elem_of_lookup_2 & _). }
  assert (Hsame : forall a b, shown c opts path (store w) a -> shown c opts path (store w) b -> key a = key b -> a = b).
  { intros a b [Ha' _] [Hb' _]. by apply (same_key_same_record (store w)). }
  assert (HMs : forall r, r ∈ M' -> shown c opts path (store w) r).
  { intros r Hin. apply Hjoin, Hfirst. by apply HM3. }
  assert (HRs : forall r, r ∈ R -> shown c opts path (store w) r).
  { intros r Hin. apply Hjoin. by apply HR3. }
  assert (Hd : NoDup (M' ++ R)).
  { apply NoDup_app. split; [by apply (NoDup_fmap_1 key)|]. split; [|by apply (NoDup_fmap_1 key)].
    intros r Hin HinR. apply HR3 in HinR as [_ Hn]. apply Hn. by apply list_elem_of_fmap_2. }
  assert (Hall : forall r, shown c opts path (store w) r -> r ∈ M' ++ R).
  { intros r Hs. pose proof (HR4 r (proj2 (Hjoin r) Hs)) as Hk. apply HR1 in Hk. rewrite elem_of_app.
    destruct Hk as [Hk|Hk]; apply list_elem_of_fmap in Hk as (r' & E & Hin); [left|right];
      (rewrite (Hsame r r'); [done|done|auto|done]). }
  destruct (top_merge newest_item 6 alls M' R) as (all & Hperm & Hsort & Htake & Hlen).
  - intros l Hl. apply list_elem_of_lookup in Hl as (k & Hk).
    destruct (Forall2_lookup_r _ _ _ _ _ Ha Hk) as (q & Hq & Hm & _).
    split; [apply Hm|]. by apply (list_sorted (norm q) (store w)).
  - done.
  - intros l r Hl Hin. assert (Hsr : shown c opts path (store w) r).
    { apply (Hshown l); [done|]. by apply elem_of_take in Hin as (k & Hk%list_elem_of_lookup_2 & _). }
    assert (Hk : key r ∈ seen).
    { apply HM4, list_elem_of_join. exists (take 6 l). split; [done|]. by apply list_elem_of_fmap_2. }
    apply HM1 in Hk as [Hk%elem_of_nil|Hk]; [done|]. apply list_elem_of_fmap in Hk as (r' & E & Hin').
    rewrite (Hsame r r'); auto.
  - intros r Hin. apply (in_queries alls r Ha). by apply HRs.
  - exists all. split; [by rewrite Hperm|]. split.
    { intros r. rewrite Hperm. split; [|apply Hall]. intros [Hin|Hin]%elem_of_app; auto. }
    split; [done|]. destruct (joined_answers alls Ha) as [EI EH].
    unfold loadPublishedContentByCanonicalIdentity, hbind, hret.
    rewrite (run_queries_spec _ w (answer w)) by (intros q Hq; by apply query_answered).
    rewrite EI, EH, EM. cbn [fst app orb]. cbv zeta. rewrite Htake, length_SliceStable.
    change (Z.to_nat homepageSectionReadSize) with 6%nat. change homepageSectionReadSize with 6.
    set (big := existsb _ alls).
    assert (Hbig : big = true -> (6 <= length M')%nat).
    { intros (l & Hl & Hlt)%existsb_exists. apply list_elem_of_In in Hl. apply Z.ltb_lt in Hlt.
      apply Hlen. rewrite (Permutation_length Hperm). transitivity (length l); [lia|].
      assert (NoDup l) as Hdl.
      { apply list_elem_of_lookup in Hl as (k & Hk).
        destruct (Forall2_lookup_r _ _ _ _ _ Ha Hk) as (q & _ & (Hdl & _) & _). done. }
      apply no_more; [done|]. intros r Hin. apply Hall. by apply (Hshown l). }
    exists ((6 <? Z.of_nat (length M')) || big). split.
    + repeat f_equal. destruct (Z.ltb_spec 6 (Z.of_nat (length M'))); [done|].
      rewrite take_ge; [done|]. rewrite length_SliceStable. lia.
    + intros [Hm%Z.ltb_lt|Hm]%orb_true_iff; apply Hlen; [lia|auto].
Qed.

(** ** A section *)

(** The first five items of all that is shown, and whether there are more. *)
Definition shows (s : St) (id title : string) (sec : Section_) : Prop :=
  exists all, NoDup all /\ (forall r, r ∈ all <-> shown c opts path s r) /\ sorted_by newest_item all
    /\ sec = mkSection id title id
         (map (sectionItemFromPublishedContent path (ci_GlobalMetaId c) (op_IncludeProofs opts)) (take 5 all))
         5 (Z.of_nat (length (take 5 all))) (5 <? Z.of_nat (length all)).
Lemma section_exact a id title warning :
  bh_publishedContentLister a = Some published_lister ->
  exists sec proofs, loadPublishedContentSection a c opts id title id path warning w = (Ok (sec, proofs, ""), w)
    /\ shows (store w) id title sec.
Proof.
  intros Ha. destruct load_exact as (all & Hd & Hm & Hs & more & E & Hmore).
  unfold loadPublishedContentSection. rewrite Ha, E. cbn [PublishedContent.lr_Items PublishedContent.lr_HasMore].
  set (f := sectionItemFromPublishedContent path (ci_GlobalMetaId c) (op_IncludeProofs opts)).
  exists (section_of id title id (map f (take 6 all)) more).1, (section_of id title id (map f (take 6 all)) more).2.
  split; [by destruct (section_of id title id (map f (take 6 all)) more)|].
  exists all. do 3 (split; [done|]). fold f.
  assert (Hne : all = [] \/ (section_of id title id (map f (take 6 all)) more).1
                            = sectionWithItems id title id (map f (take 6 all)) more)
    by (destruct all; [by left|by right]).
  destruct Hne as [->| ->]; [done|]. unfold sectionWithItems.
  change homepageSectionLimit with 5. change (Z.to_nat 5) with 5%nat.
  assert (E5 : take 5 (map f (take 6 all)) = map f (take 5 all)) by (by rewrite firstn_map, take_take).
  rewrite E5. rewrite !length_map, !length_take.
  destruct (Z.ltb_spec 5 (Z.of_nat (6 `min` length all))) as [Hn|Hn]; cbn [orb].
  - f_equal; [by rewrite length_map, length_take|]. symmetry. apply Z.ltb_lt. lia.
  - rewrite length_map, (take_ge all 6), (take_ge all 5) by lia. f_equal; [lia|].
    destruct more; [specialize (Hmore eq_refl); lia|]. symmetry. apply Z.ltb_ge. lia.
Qed.
End Load.

(** ** The page *)

Lemma specs_published opts id title path warning :
  (id, title, path, warning) ∈ sectionSpecs opts -> isPublishedProtocol path = true.
Proof.
  unfold sectionSpecs. rewrite !elem_of_app.
  destruct (op_IncludeMetaApps opts), (op_IncludeSkills opts), (op_IncludeBuzzes opts);
    rewrite ?list_elem_of_singleton, ?elem_of_nil; intros [?|[?|?]]; by simplify_eq.
Qed.
Lemma sections_exact a c opts specs out w :
  bh_publishedContentLister a = Some published_lister -> ids_ok c ->
  ready (store w) -> all_plain (view (store w)) ->
  (forall id title path warning, (id, title, path, warning) ∈ specs -> isPublishedProtocol path = true) ->
  exists secs proofs,
    hfold (fun out (load : M W (Section_ * list ProofSummary * string)) =>
             hbind load (fun loaded => hret (add_section opts out loaded)))
      (map (fun '(id, title, path, warning) => loadPublishedContentSection a c opts id title id path warning) specs)
      out w = (Ok (out.1.1 ++ secs, proofs, out.2), w)
    /\ Forall2 (fun '(id, title, path, _) sec => shows c opts path (store w) id title sec) specs secs.
Proof.
  intros Ha Hids Hr Hpl. revert out. induction specs as [|[[[id title] path] warning] specs IH]; intros out Hsp.
  { destruct out as [[secs proofs] warnings]. exists [], proofs. cbn. rewrite app_nil_r. by split. }
  cbn [map hfold]. unfold hbind at 1 2.
  destruct (section_exact c opts path w (Hsp id title path warning ltac:(left)) Hids Hr Hpl a id title warning Ha)
    as (sec & proofs & -> & Hsec).
  cbn [hret]. destruct out as [[secs0 proofs0] warnings0]. cbn [add_section is_empty].
  edestruct IH as (secs & proofs' & E & Hf); [intros; eapply Hsp; by right|].
  exists (sec :: secs), proofs'. unfold hret. rewrite E. cbn [fst snd]. rewrite <- app_assoc.
  split; [done|]. by constructor.
Qed.
End Content.
