(* ===== verification/BotHomepagePage.v ===== *)
(** * BotHomepagePage: the page as a whole

    What a homepage shows of the published contents, which requests fail and how,
    and what every page that is served satisfies. *)

From S2P Require Import Prelude GoText Json Storage Aggregator Effects HttpApi IdAddress PublishedContent PublishedContentFacts PublishedContentRuns PublishedContentLists FedStore FedStoreFacts Federation SkillService SkillList BotHomepage BotHomepageFacts.

#[local] Set Warnings "-clear-no-such-hyp".

(** ** Parameters *)

Lemma parseServiceSize_ok query n : parseServiceSize query = Ok n -> 1 <= n <= maxServiceSize.
Proof.
  unfold parseServiceSize, maxServiceSize, defaultServiceSize.
  destruct (query !! "serviceSize"); [|by intros [= <-]]. destruct (Atoi _) as [k|]; [|done].
  destruct (Z.ltb_spec k 0); [done|]. destruct (Z.eqb_spec k 0); [by intros [= <-]|].
  destruct (Z.ltb_spec 100 k); [by intros [= <-]|]. intros [= <-]. lia.
Qed.
Lemma parseVersion_ok query : parseVersion query = "v2" \/ parseVersion query = "".
Proof. unfold parseVersion. case_match; auto. Qed.
Lemma ParseOptions_ok query opts :
  ParseOptions query = Ok opts ->
  1 <= op_ServiceSize opts <= maxServiceSize /\ (op_Version opts = "v2" \/ op_Version opts = "")
  /\ (is_v2 (op_Version opts) = true -> op_ServiceSize opts = homepageSectionLimit).
Proof.
  unfold ParseOptions. cbv zeta. pose proof (parseVersion_ok query) as Hver.
  destruct (is_v2 (parseVersion query)) eqn:Ev; intros H;
    repeat match type of H with context [parseBool query ?k ?f] =>
      destruct (parseBool query k f); [|discriminate H] end.
  - injection H as <-. by cbn.
  - destruct (parseServiceSize query) as [n|] eqn:E; [|done]. injection H as <-. cbn [op_ServiceSize op_Version].
    split; [by apply parseServiceSize_ok in E|]. split; [done|]. by rewrite Ev.
Qed.

(** ** Every page *)

Section Page.
Context {W : Type} {HJ : HomepageJSON} {G : GoLib} {NU : NetURL}.

Definition no_proofs (p : Proofs) : Prop :=
  pv_Profile p = [] /\ pv_Persona p = [] /\ pv_Homepage p = None /\ pv_Sections p = ∅ /\ pv_Services p = [].
(** "partial" as soon as there is one proof. *)
Definition state_ok (p : Proofs) : Prop :=
  (no_proofs p /\ pv_VerificationState p = "unverified") \/ (~ no_proofs p /\ pv_VerificationState p = "partial").
Definition section_ok (s : Section_) : Prop :=
  (length (se_Items s) <= 5)%nat /\ se_Returned s = Z.of_nat (length (se_Items s)) /\ se_Limit s = 5
  /\ (se_Items s = [] -> se_HasMore s = false).
Definition section_ids (opts : Options) : list string :=
  if is_v2 (op_Version opts) && op_IncludeSections opts
  then (if op_IncludeServices opts then ["services"] else []) ++ map (fun spec => spec.1.1.1) (sectionSpecs opts)
  else [].
Record page_ok (opts : Options) (d : Data) : Prop := {
  pk_ids : da_GlobalMetaId d <> "" /\ ci_GlobalMetaId (da_Canonical d) <> "";
  pk_state : state_ok (da_Proofs d);
  pk_unasked : op_IncludeProofs opts = false -> no_proofs (da_Proofs d);
  pk_section_ids : map se_Id (da_Sections d) = section_ids opts;
  pk_sections : Forall section_ok (da_Sections d);
  pk_section_proofs : map_Forall (fun id l => id ∈ map se_Id (da_Sections d) /\ (1 <= length l <= 5)%nat)
                        (pv_Sections (da_Proofs d));
  pk_persona : is_v2 (op_Version opts) = match da_Persona d with Some _ => true | None => false end;
  pk_homepage : hm_Mode (da_Homepage d) = match hm_Custom (da_Homepage d) with Some _ => "custom" | None => "default" end;
  pk_actions : exists b, map ac_Enabled (da_Actions d) = [negb (is_empty (TrimSpace (pf_ChatPubkey (da_Profile d)))); b; true]
    /\ (b = true <-> da_Services d <> [] \/ exists s, s ∈ da_Sections d /\ se_Id s = "services" /\ se_Items s <> []) }.

(** *** Sections are always loaded *)

Definition loaded_ok (l : Section_ * list ProofSummary * string) : Prop :=
  section_ok l.1.1 /\ (length l.1.2 <= 5)%nat.
Lemma section_of_ok id title kind items more :
  section_ok (section_of id title kind items more).1 /\ (length (section_of id title kind items more).2 <= 5)%nat
  /\ se_Id (section_of id title kind items more).1 = id.
Proof.
  unfold section_of. destruct items as [|i items]; [by repeat split; cbn; try lia|].
  set (l := i :: items). split; [|split; [|done]].
  2: { cbn [snd]. rewrite length_take. change (Z.to_nat homepageSectionLimit) with 5%nat. lia. }
  unfold section_ok, sectionWithItems. cbn [fst se_Items se_Returned se_Limit se_HasMore].
  change homepageSectionLimit with 5. change (Z.to_nat 5) with 5%nat.
  destruct (Z.ltb_spec 5 (Z.of_nat (length l))) as [Hl|Hl].
  - rewrite length_take. split; [lia|]. split; [lia|]. by split.
  - split; [lia|]. by split.
Qed.
Lemma empty_ok id title kind warning :
  loaded_ok (emptySection id title kind, [], warning).
Proof. unfold loaded_ok, section_ok, emptySection. cbn. repeat split; lia. Qed.
Lemma services_loaded a c opts w :
  exists l w', loadServicesSection (W := W) a c opts w = (Ok l, w') /\ loaded_ok l /\ se_Id l.1.1 = "services".
Proof.
  unfold loadServicesSection. destruct (bh_homepageServiceLister a) as [lister|].
  2: { do 2 eexists. split; [done|]. split; [apply empty_ok|done]. }
  destruct (lister _ w) as [[[r|]|e] w']; do 2 eexists; (split; [done|]).
  - destruct (section_of_ok "services" "Services" "services"
      (map (fun item => sectionItemFromService (serviceFromListItem item None) c (op_IncludeProofs opts)) (hr_List r))
      (hr_HasMore r)) as (H1 & H2 & H3).
    destruct (section_of _ _ _ _ _). by split; [split|].
  - split; [apply empty_ok|done].
  - split; [apply empty_ok|done].
Qed.
Lemma published_loaded a c opts id title path warning w :
  exists l w', loadPublishedContentSection (W := W) a c opts id title id path warning w = (Ok l, w')
    /\ loaded_ok l /\ se_Id l.1.1 = id.
Proof.
  unfold loadPublishedContentSection. destruct (bh_publishedContentLister a) as [lister|].
  2: { do 2 eexists. split; [done|]. split; [apply empty_ok|done]. }
  destruct (loadPublishedContentByCanonicalIdentity lister c opts path w) as [[r|e] w']; do 2 eexists; (split; [done|]).
  - match goal with |- context [section_of id title id ?i ?m] =>
      destruct (section_of_ok id title id i m) as (H1 & H2 & H3); destruct (section_of id title id i m) end.
    by split; [split|].
  - split; [apply empty_ok|done].
Qed.
(** What the sections loaded so far satisfy. *)
Definition sections_ok (opts : Options) (out : sections_state) : Prop :=
  Forall section_ok out.1.1
  /\ map_Forall (fun id l => id ∈ map se_Id out.1.1 /\ (1 <= length l <= 5)%nat) out.1.2
  /\ (op_IncludeProofs opts = false -> out.1.2 = ∅).
Lemma add_section_ok opts out l :
  sections_ok opts out -> loaded_ok l ->
  sections_ok opts (add_section opts out l) /\ map se_Id (add_section opts out l).1.1 = map se_Id out.1.1 ++ [se_Id l.1.1].
Proof.
  destruct out as [[secs proofs] warnings], l as [[sec sp] warning]. intros (H1 & H2 & H3) [Hs Hl].
  cbn [fst snd] in *. cbn [add_section].
  assert (Hmap : map se_Id (secs ++ [sec]) = map se_Id secs ++ [se_Id sec]) by apply map_app.
  split; [|exact Hmap]. unfold sections_ok. cbn [fst snd]. rewrite Hmap. split; [|split].
  - apply Forall_app. split; [done|by constructor].
  - assert (Hold : map_Forall (fun id l => id ∈ map se_Id secs ++ [se_Id sec] /\ (1 <= length l <= 5)%nat) proofs).
    { intros k l Hk. destruct (H2 k l Hk). split; [apply elem_of_app; by left|done]. }
    destruct sp as [|x sp]; [done|]. destruct (op_IncludeProofs opts); [|done].
    apply map_Forall_insert_2; [|done]. split; [apply elem_of_app; right; left|cbn in *; lia].
  - intros E. specialize (H3 E). rewrite E. by destruct sp.
Qed.
Lemma loaders_ok opts loads ids out w :
  Forall2 (fun (load : M W _) id => forall w, exists l w', load w = (Ok l, w') /\ loaded_ok l /\ se_Id l.1.1 = id) loads ids ->
  sections_ok opts out ->
  exists out' w', hfold (fun out (load : M W _) => hbind load (fun loaded => hret (add_section opts out loaded))) loads out w
      = (Ok out', w')
    /\ sections_ok opts out' /\ map se_Id out'.1.1 = map se_Id out.1.1 ++ ids.
Proof.
  intros Hl. revert out w. induction Hl as [|load id loads ids H _ IH]; intros out w Ho.
  { exists out, w. by rewrite app_nil_r. }
  cbn [hfold]. destruct (H w) as (l & w1 & E & Hok & Hid).
  destruct (add_section_ok opts out l Ho Hok) as [Ho' Hm].
  destruct (IH (add_section opts out l) w1 Ho') as (out' & w' & E' & Hout & Hm').
  exists out', w'. unfold hbind in E' |- *. rewrite E. cbn [hret]. split; [exact E'|]. split; [done|].
  by rewrite Hm', Hm, Hid, <- app_assoc.
Qed.
Lemma loadSections_ok a c opts warnings w :
  exists out w', loadSections (W := W) a c opts warnings w = (Ok out, w') /\ sections_ok opts out
    /\ map se_Id out.1.1
       = (if op_IncludeServices opts then ["services"] else []) ++ map (fun spec => spec.1.1.1) (sectionSpecs opts).
Proof.
  unfold loadSections, section_loaders.
  destruct (loaders_ok opts
    ((if op_IncludeServices opts then [loadServicesSection a (ci_GlobalMetaId c) opts] else [])
     ++ map (fun '(id, title, path, warning) => loadPublishedContentSection a c opts id title id path warning) (sectionSpecs opts))
    ((if op_IncludeServices opts then ["services"] else []) ++ map (fun spec => spec.1.1.1) (sectionSpecs opts))
    ([], ∅, warnings) w) as (out & w' & E & H1 & H2).
  - apply Forall2_app.
    + destruct (op_IncludeServices opts); [|done]. constructor; [|done]. intros w0. apply services_loaded.
    + induction (sectionSpecs opts) as [|[[[id title] path] warning] specs IH]; cbn; constructor; [|done].
      intros w0. apply published_loaded.
  - split; [done|]. split; [apply map_Forall_empty|done].
  - exists out, w'. by rewrite H2.
Qed.

(** *** The parts of the page *)

Lemma no_proofs_dec p : no_proofs p \/ ~ no_proofs p.
Proof.
  unfold no_proofs. destruct (pv_Profile p); [|right; naive_solver]. destruct (pv_Persona p); [|right; naive_solver].
  destruct (pv_Homepage p); [right; naive_solver|]. destruct (pv_Services p); [|right; naive_solver].
  destruct (decide (pv_Sections p = ∅)); [left|right]; naive_solver.
Qed.
Lemma profile_proofs_ok p c v2 :
  state_ok (buildProfileProofs p c v2).1 /\ pv_Sections (buildProfileProofs p c v2).1 = ∅
  /\ pv_Services (buildProfileProofs p c v2).1 = [].
Proof.
  unfold buildProfileProofs.
  destruct (field_proofs c (profile_fields p)) as [profile ws], (field_proofs c (persona_fields p)) as [persona ws'].
  cbv zeta. set (hp := if v2 && _ then _ else _). set (pp := if v2 then _ else _).
  destruct pp as [x y]. unfold state_ok, no_proofs.
  destruct x as [|x0 x], y as [|y0 y], hp as [h|]; cbn; (split; [|done]); [right|left|right..]; naive_solver.
Qed.
Lemma with_services_ok d services proofs warnings :
  state_ok (da_Proofs d) -> pv_Services (da_Proofs d) = [] ->
  state_ok (da_Proofs (with_services services proofs warnings d)).
Proof.
  unfold state_ok, no_proofs, with_services. cbn. intros H E. rewrite E in H. destruct proofs; [done|].
  right. naive_solver.
Qed.
Lemma with_sections_ok opts out d :
  state_ok (da_Proofs d) -> pv_Sections (da_Proofs d) = ∅ -> (op_IncludeProofs opts = false -> out.1.2 = ∅) ->
  state_ok (da_Proofs (with_sections opts out d)) /\ pv_Sections (da_Proofs (with_sections opts out d)) = out.1.2.
Proof.
  destruct out as [[secs proofs] ws]. unfold with_sections. cbn. intros H E Hn.
  destruct (op_IncludeProofs opts); cbn [andb].
  - case_bool_decide as Hp; cbn [negb]; [by rewrite Hp|]. split; [|done]. right. unfold no_proofs. cbn. naive_solver.
  - by rewrite Hn.
Qed.
Lemma section_ids_NoDup opts : NoDup (section_ids opts).
Proof.
  unfold section_ids, sectionSpecs.
  destruct (is_v2 (op_Version opts) && op_IncludeSections opts); [|constructor].
  destruct (op_IncludeServices opts), (op_IncludeMetaApps opts), (op_IncludeSkills opts), (op_IncludeBuzzes opts);
    by apply (bool_decide_unpack (NoDup _)).
Qed.
Lemma services_action services sections :
  Forall section_ok sections -> NoDup (map se_Id sections) ->
  (0 <? serviceActionCount services sections) = true
  <-> services <> [] \/ exists s, s ∈ sections /\ se_Id s = "services" /\ se_Items s <> [].
Proof.
  intros Hs Hd. unfold serviceActionCount. rewrite Z.ltb_lt. destruct services as [|x services].
  2: { cbn [length]. split; [by left|lia]. }
  assert (Hfind : forall s, s ∈ sections -> se_Id s = "services" ->
     List.find (fun s => String.eqb (se_Id s) "services") sections = Some s).
  { intros s Hin Hid. destruct (List.find _ sections) as [s'|] eqn:E.
    - apply find_some in E as [Hin' Hid']. apply String.eqb_eq in Hid'. apply list_elem_of_In in Hin'. f_equal.
      apply list_elem_of_lookup in Hin as (i & Hi), Hin' as (j & Hj).
      assert (i = j) as ->; [|congruence].
      apply (NoDup_lookup (map se_Id sections) i j "services"); [done|..];
        change (map se_Id sections) with (se_Id <$> sections); rewrite list_lookup_fmap, ?Hi, ?Hj; cbn; congruence.
    - apply list_elem_of_In in Hin. pose proof (find_none _ _ E s Hin) as Hn. cbn in Hn. by rewrite Hid in Hn. }
  destruct (List.find _ sections) as [s|] eqn:E.
  - apply find_some in E as [Hin Hid]. apply String.eqb_eq in Hid. apply list_elem_of_In in Hin.
    rewrite Forall_forall in Hs. destruct (Hs s Hin) as (_ & Hret & _). rewrite Hret.
    assert (Hc : (if 0 <? Z.of_nat (length (se_Items s)) then Z.of_nat (length (se_Items s))
                  else Z.of_nat (length (se_Items s))) = Z.of_nat (length (se_Items s))) by (by case_match).
    rewrite Hc. split.
    + intros Hpos. right. exists s. split; [done|]. split; [done|]. by destruct (se_Items s).
    + intros [[]|(s' & Hin' & Hid' & Hne)]; [done|]. injection (Hfind s' Hin' Hid') as <-.
      destruct (se_Items s); [done|cbn; lia].
  - split; [lia|]. intros [[]|(s' & Hin' & Hid' & _)]; [done|]. by specialize (Hfind s' Hin' Hid').
Qed.

Lemma firstNonEmpty_last a b : TrimSpace b = b -> b <> "" -> firstNonEmpty [a; b] <> "".
Proof.
  intros Ht Hb. cbn [firstNonEmpty]. destruct (is_empty (TrimSpace a)) eqn:E.
  - rewrite Ht. by destruct b.
  - intros E'. by rewrite E' in E.
Qed.
Section Pages.
Context (a : Aggregator (W := W)) (opts : Options) (request : string) (p : ProfileSnapshot) (w : W).
Context (Hreq : TrimSpace request = request) (Hne : request <> "").
Abbreviation base := (base_page a request opts p w).
Lemma base_ok :
  state_ok (da_Proofs base) /\ pv_Sections (da_Proofs base) = ∅ /\ pv_Services (da_Proofs base) = []
  /\ (op_IncludeProofs opts = false -> da_Proofs base = emptyProofs)
  /\ is_v2 (op_Version opts) = (match da_Persona base with Some _ => true | None => false end)
  /\ hm_Mode (da_Homepage base) = (match hm_Custom (da_Homepage base) with Some _ => "custom" | None => "default" end)
  /\ da_Canonical base = canonical_of request p /\ da_GlobalMetaId base = request /\ da_Sections base = [].
Proof.
  pose proof (profile_proofs_ok p (ci_GlobalMetaId (canonical_of request p)) (is_v2 (op_Version opts))) as H.
  unfold base_page. cbv zeta. destruct (op_IncludeProofs opts).
  - destruct (buildProfileProofs _ _ _) as [pr ws]. cbn [fst] in H. destruct H as (H1 & H2 & H3).
    repeat split; try done; cbn [da_Persona da_Homepage]; destruct (is_v2 (op_Version opts)); try done.
    unfold toHomepage. by destruct (parseCustomHomepage _ _).
  - repeat split; try done; [by left|..]; cbn [da_Persona da_Homepage]; destruct (is_v2 (op_Version opts)); try done.
    unfold toHomepage. by destruct (parseCustomHomepage _ _).
Qed.

Definition finish (out : option sections_state) (services : list Service) (proofs : list ServiceProof)
    (warnings : list string) : Data :=
  let d := with_services services proofs warnings base in
  with_actions (match out with Some out => with_sections opts out d | None => d end).
Lemma finish_ok out services proofs warnings :
  (op_IncludeProofs opts = false -> proofs = []) ->
  match out with
  | Some out => sections_ok opts out /\ map se_Id out.1.1 = section_ids opts
  | None => section_ids opts = []
  end ->
  page_ok opts (finish out services proofs warnings) /\ da_GlobalMetaId (finish out services proofs warnings) = request.
Proof.
  intros Hun Hout. destruct base_ok as (H1 & H2 & H3 & H4 & H5 & H6 & H7 & H8 & H9).
  pose proof (with_services_ok base services proofs warnings H1 H3) as Hst.
  set (d := with_services services proofs warnings base) in *.
  assert (Hids : da_GlobalMetaId d <> "" /\ ci_GlobalMetaId (da_Canonical d) <> "").
  { split; [by change (da_GlobalMetaId base <> ""); rewrite H8|].
    change (ci_GlobalMetaId (da_Canonical base) <> ""). rewrite H7. by apply firstNonEmpty_last. }
  assert (Hund : op_IncludeProofs opts = false -> no_proofs (da_Proofs d)).
  { intros E. unfold no_proofs, d, with_services. cbn [da_Proofs pv_Profile pv_Persona pv_Homepage pv_Sections pv_Services].
    by rewrite (H4 E), (Hun E). }
  unfold finish. fold d. destruct out as [[[secs ps] ws]|].
  - destruct Hout as [(Hs1 & Hs2 & Hs3) Hm]. cbn [fst snd] in *.
    destruct (with_sections_ok opts (secs, ps, ws) d Hst H2 Hs3) as [Hst' Hps].
    split; [|exact H8]. split; try done.
    + intros E. change (no_proofs (da_Proofs (with_sections opts (secs, ps, ws) d))).
      unfold with_sections. rewrite E. by apply Hund.
    + change (map_Forall (fun id l => id ∈ map se_Id secs /\ (1 <= length l <= 5)%nat)
        (pv_Sections (da_Proofs (with_sections opts (secs, ps, ws) d)))). by rewrite Hps.
    + exists (0 <? serviceActionCount services secs). split; [done|]. apply (services_action services secs); [done|].
      rewrite Hm. apply section_ids_NoDup.
  - split; [|exact H8]. assert (Hsec : da_Sections (with_actions d) = []) by exact H9.
    split; rewrite ?Hsec; try done.
    + change (map_Forall (fun id l => id ∈ @nil string /\ (1 <= length l <= 5)%nat) (pv_Sections (da_Proofs base))).
      rewrite H2. apply map_Forall_empty.
    + exists (0 <? serviceActionCount services (da_Sections base)).
      split; [done|]. rewrite H9. apply (services_action services []); constructor.
Qed.
End Pages.

(** The services that are listed first. *)
Definition listed (a : Aggregator (W := W)) (opts : Options) (d : Data) : M W (list Service * list ServiceProof * list string) :=
  if op_IncludeServices opts then loadServices a (ci_GlobalMetaId (da_Canonical d)) opts (da_Warnings d)
  else hret (da_Services d, pv_Services (da_Proofs d), da_Warnings d).
Lemma listed_ok a opts d w :
  pv_Services (da_Proofs d) = [] ->
  match (listed a opts d w).1 with
  | Ok (_, proofs, _) => op_IncludeProofs opts = false -> proofs = []
  | Err _ => op_IncludeServices opts = true
             /\ exists lister q e, bh_serviceLister a = Some lister /\ (lister q w).1 = Err e
  end.
Proof.
  intros Hs. unfold listed, loadServices. destruct (op_IncludeServices opts); [|by cbn].
  destruct (bh_serviceLister a) as [lister|] eqn:El; [|done].
  unfold hbind. set (q := SkillList.mkListParams _ _ _ _ _ _ _ _ _ _).
  destruct (lister q w) as [[r|e] w1] eqn:E; cbn.
  - destruct (op_IncludeProofs opts); [done|by intros _].
  - split; [done|]. exists lister, q, e. by rewrite E.
Qed.

(** C40: Every request gets one of four answers, each for its own reason: 40000 when a
    parameter does not parse or the id is blank, 40400 when no profile is found,
    50000 when there is no profile lookup or it fails or the list of services
    fails, and otherwise a page.  On a page the verification state is "partial"
    exactly when there is a proof, there are no proofs when none were asked for,
    the sections are those asked for, in order, each with at most five items that
    its counters describe, and each action is enabled exactly when it can be used. *)
Theorem homepage_responses a id query w :
  match (handleGlobalMetaID (W := W) a id query w).1 with
  | RespSuccess d =>
      exists opts lookup p w1, ParseOptions query = Ok opts /\ bh_profileLookup a = Some lookup
        /\ lookup (TrimSpace id) w = (Ok (Some p), w1)
        /\ page_ok opts d /\ da_GlobalMetaId d = TrimSpace id
  | RespErr code _ =>
      (code = 40000 /\ ((exists e, ParseOptions query = Err e) \/ TrimSpace id = ""))
      \/ (code = 40400 /\ exists lookup, bh_profileLookup a = Some lookup /\ (lookup (TrimSpace id) w).1 = Ok None)
      \/ (code = 50000 /\
            (bh_profileLookup a = None
             \/ (exists lookup e, bh_profileLookup a = Some lookup /\ (lookup (TrimSpace id) w).1 = Err e)
             \/ exists opts lister q w1 e, ParseOptions query = Ok opts /\ op_IncludeServices opts = true
                  /\ bh_serviceLister a = Some lister /\ (lister q w1).1 = Err e))
  end.
Proof.
  unfold handleGlobalMetaID. destruct (ParseOptions query) as [opts|e]; [|left; eauto].
  unfold Build. cbv zeta. destruct (is_empty (TrimSpace id)) eqn:Eid; [apply is_empty_spec in Eid; left; eauto|].
  destruct (bh_profileLookup a) as [lookup|] eqn:El; [|right; right; eauto].
  destruct (lookup (TrimSpace id) w) as [[[p|]|e] w1] eqn:Elook;
    [|right; left; split; [done|]; exists lookup; by rewrite Elook
     |right; right; split; [done|]; right; left; exists lookup, e; by rewrite Elook].
  assert (Hreq : TrimSpace (TrimSpace id) = TrimSpace id) by apply TrimSpace_idem.
  assert (Hne : TrimSpace id <> "") by (intros E; by rewrite E in Eid).
  assert (Hpage : forall out services proofs warnings,
    (op_IncludeProofs opts = false -> proofs = []) ->
    match out with
    | Some out => sections_ok opts out /\ map se_Id out.1.1 = section_ids opts
    | None => section_ids opts = []
    end ->
    exists opts' lookup' p' w1', Ok opts = Ok opts' /\ Some lookup = Some lookup'
      /\ lookup' (TrimSpace id) w = (Ok (Some p'), w1')
      /\ page_ok opts' (finish a opts (TrimSpace id) p w1 out services proofs warnings)
      /\ da_GlobalMetaId (finish a opts (TrimSpace id) p w1 out services proofs warnings) = TrimSpace id).
  { intros out services proofs warnings H1 H2. exists opts, lookup, p, w1. do 3 (split; [done|]).
    by apply finish_ok. }
  fold (listed a opts (base_page a (TrimSpace id) opts p w1)).
  pose proof (listed_ok a opts (base_page a (TrimSpace id) opts p w1) w1) as Hl.
  destruct (base_ok a opts (TrimSpace id) p w1) as (_ & _ & Hsv & _).
  specialize (Hl Hsv). destruct (listed _ _ _ w1) as [[[[services proofs] warnings]|e] w2]; cbn [fst] in Hl.
  2: { right; right. split; [done|]. right; right. destruct Hl as (Hinc & lister & q & e' & Hlister & E).
       by exists opts, lister, q, w1, e'. }
  set (d := with_services services proofs warnings _).
  unfold section_ids in Hpage.
  destruct (is_v2 (op_Version opts) && op_IncludeSections opts) eqn:Ev.
  - destruct (loadSections_ok a (da_Canonical (base_page a (TrimSpace id) opts p w1)) opts (da_Warnings d) w2)
      as (out & w3 & E & Hok & Hids).
    unfold hbind. rewrite E. apply (Hpage (Some out) services proofs warnings); [done|].
    split; [done|]. by rewrite Hids.
  - by apply (Hpage None services proofs warnings).
Qed.
End Page.

(** The identity on a page is that of the profile. *)
Lemma Build_canonical {W} {HJ : HomepageJSON} {G : GoLib} {NU : NetURL} (a : Aggregator (W := W)) id opts lookup p w w1 w' d :
  bh_profileLookup a = Some lookup -> lookup (TrimSpace id) w = (Ok (Some p), w1) -> Build a id opts w = (Ok d, w') ->
  da_Canonical d = canonical_of (TrimSpace id) p.
Proof.
  intros Hl Hlook. unfold Build. cbv zeta. destruct (is_empty _); [done|]. rewrite Hl, Hlook.
  assert (Hc : da_Canonical (base_page a (TrimSpace id) opts p w1) = canonical_of (TrimSpace id) p).
  { unfold base_page. cbv zeta. by destruct (if op_IncludeProofs opts then _ else _). }
  destruct (if op_IncludeServices opts then _ else _) as [[[[services proofs] warnings]|e] w2]; [|done].
  unfold hbind. destruct (_ && _); [|by intros [= <- <-]].
  destruct (loadSections _ _ _ _ w2) as [[[[secs ps] ws]|e] w3]; [|done]. by intros [= <- <-].
Qed.

(** ** What a page shows *)

Section Shown.
Context {St W : Type} {KV : KVOps St} {KVS : KVStore St} {PJ : PublishedJSON} {B58 : Base58}.
Context {HJ : HomepageJSON} {G : GoLib} {NU : NetURL}.
Context (store : W -> St).

(** A reader that leaves the published contents alone, in the states that satisfy [J],
    which it keeps: the services may write to other namespaces of the same store. *)
Context (J : W -> Prop).
Definition same_content (s s' : St) : Prop :=
  kv_view s published_ns = kv_view s' published_ns /\ kv_ok s published_ns = kv_ok s' published_ns.
Definition frames {Q A : Type} (f : option (Q -> M W A)) : Prop :=
  forall g q w, f = Some g -> J w -> J (g q w).2 /\ same_content (store (g q w).2) (store w).
Lemma same_ready s s' : same_content s s' -> ready s' -> ready s.
Proof. intros [Ev Eo] [Ho Hi]. split; [congruence|]. unfold view. by rewrite Ev. Qed.
Lemma same_shows c opts path s s' id title sec :
  same_content s s' -> shows c opts path s id title sec -> shows c opts path s' id title sec.
Proof.
  intros [Ev _] (all & H1 & H2 & H3). exists all. split; [done|]. split; [|done].
  intros r. rewrite H2. unfold shown, stored_in, view. by rewrite Ev.
Qed.
Lemma same_sections c opts s s' specs secs :
  same_content s s' ->
  Forall2 (fun '(id, title, path, _) sec => shows c opts path s id title sec) specs secs ->
  Forall2 (fun '((id, title, path, _) : string * string * string * string) sec => shows c opts path s' id title sec) specs secs.
Proof.
  intros E H. eapply Forall2_impl; [exact H|]. intros [[[id title] path] warning] sec. by apply same_shows.
Qed.
Lemma listed_frames a opts d w : frames (bh_serviceLister a) -> J w ->
  J (listed a opts d w).2 /\ same_content (store (listed a opts d w).2) (store w).
Proof.
  intros Hf HJ0. unfold listed, loadServices. destruct (op_IncludeServices opts); [|done].
  destruct (bh_serviceLister a) as [lister|] eqn:E; [|done]. unfold hbind.
  set (q := SkillList.mkListParams _ _ _ _ _ _ _ _ _ _). specialize (Hf lister q w eq_refl HJ0).
  by destruct (lister q w) as [[r|e] w'].
Qed.
Lemma services_frame a c opts w :
  frames (bh_homepageServiceLister a) -> J w -> same_content (store (loadServicesSection a c opts w).2) (store w).
Proof.
  intros Hf HJ0. unfold loadServicesSection. destruct (bh_homepageServiceLister a) as [lister|] eqn:E; [|done].
  set (q := mkHomepageParams _ _ _ _). destruct (Hf lister q w eq_refl HJ0) as [_ Hs]. clear Hf.
  by destruct (lister q w) as [[[r|]|e] w'].
Qed.

Lemma sections_shown a c opts warnings w :
  bh_publishedContentLister a = Some (published_lister store) -> frames (bh_homepageServiceLister a) ->
  J w -> ids_ok c -> ready (store w) -> all_plain (view (store w)) ->
  exists out w', loadSections a c opts warnings w = (Ok out, w')
    /\ Forall2 (fun '(id, title, path, _) sec => shows c opts path (store w) id title sec) (sectionSpecs opts)
         (drop (if op_IncludeServices opts then 1 else 0) out.1.1).
Proof.
  intros Hpub Hf HJ0 Hids Hr Hpl. unfold loadSections, section_loaders.
  assert (Hsp : forall id title path warning, (id, title, path, warning) ∈ sectionSpecs opts -> isPublishedProtocol path = true)
    by (intros; by eapply specs_published).
  destruct (op_IncludeServices opts).
  - cbn [app hfold]. unfold hbind at 1 2.
    pose proof (services_frame a (ci_GlobalMetaId c) opts w Hf HJ0) as Hfr.
    destruct (services_loaded a (ci_GlobalMetaId c) opts w) as (l & w' & E & _). rewrite E in Hfr |- *.
    unfold hret at 1. cbn [snd] in Hfr.
    apply (same_ready _ _ Hfr) in Hr. assert (Hpl' : all_plain (view (store w'))) by (unfold view; by rewrite (proj1 Hfr)).
    destruct (sections_exact store a c opts (sectionSpecs opts) (add_section opts ([], ∅, warnings) l) w')
      as (secs & ps & E' & Hall); [done..|].
    rewrite E'. do 2 eexists. split; [done|]. apply (same_sections _ _ _ _ _ _ Hfr). by destruct l as [[sec sp] wn].
  - cbn [app].
    destruct (sections_exact store a c opts (sectionSpecs opts) ([], ∅, warnings) w) as (secs & ps & E' & Hall); [done..|].
    rewrite E'. by do 2 eexists.
Qed.

(** Whatever pins the node has seen, the sections of published content on a page
    are those that were asked for, in order, and each shows the first five, newest
    first, of all the visible records of its protocol, on the chain asked for, whose
    publisher is the user under any of the ids of its profile, each once; and says
    that there are more exactly when there are. *)
Theorem homepage_shows_publications es s0 a id opts lookup p w w1 d :
  let s := run_pins es s0 in
  let c := canonical_of (TrimSpace id) p in
  kv_ok s0 published_ns = true -> kv_view s0 published_ns = ∅ -> Forall (fun e => plain_pin e.2) es ->
  bh_profileLookup a = Some lookup -> lookup (TrimSpace id) w = (Ok (Some p), w1) -> same_content (store w1) s -> J w1 ->
  bh_publishedContentLister a = Some (published_lister store) ->
  frames (bh_serviceLister a) -> frames (bh_homepageServiceLister a) ->
  ids_ok c -> op_Version opts = "v2" -> op_IncludeSections opts = true ->
  (Build a id opts w).1 = Ok d ->
  da_Canonical d = c
  /\ Forall2 (fun '(id, title, path, _) sec => shows c opts path s id title sec) (sectionSpecs opts)
       (drop (if op_IncludeServices opts then 1 else 0) (da_Sections d)).
Proof.
  intros s c Hok Hv Hes Hl Hlook Hst HJ1 Hpub Hf1 Hf2 Hids Hver Hsec Hb.
  assert (Hr : ready s).
  { apply start_ready; [done..|]. eapply Forall_impl; [exact Hes|]. intros e. apply plp_good. }
  assert (Hpl : all_plain (view s)).
  { apply plain_run; [split; [done|]; unfold view; rewrite Hv; apply Inv_empty| |done].
    intros r _ Hs. unfold stored, view in Hs. by rewrite Hv, lookup_empty in Hs. }
  unfold Build in Hb. cbv zeta in Hb. destruct (is_empty (TrimSpace id)) eqn:Eid; [done|].
  rewrite Hl, Hlook, Hver, Hsec in Hb. change (is_v2 "v2" && true) with true in Hb.
  fold (listed a opts (base_page a (TrimSpace id) opts p w1)) in Hb.
  pose proof (listed_frames a opts (base_page a (TrimSpace id) opts p w1) w1 Hf1 HJ1) as [HJ2 Hfr].
  assert (Hc : da_Canonical (base_page a (TrimSpace id) opts p w1) = c).
  { unfold base_page. cbv zeta. by destruct (if op_IncludeProofs opts then _ else _). }
  rewrite Hc in Hb.
  destruct (listed _ _ _ w1) as [[[[services proofs] warnings]|e] w2]; [|done]. cbn [snd] in HJ2, Hfr.
  set (d1 := with_services services proofs warnings _) in *.
  assert (Es : same_content (store w2) s) by (unfold same_content in *; intuition congruence).
  apply (same_ready _ _ Es) in Hr. assert (Hpl' : all_plain (view (store w2))) by (unfold view; by rewrite (proj1 Es)).
  destruct (sections_shown a c opts (da_Warnings d1) w2 Hpub Hf2 HJ2 Hids Hr Hpl') as (out & w3 & E & Hall).
  unfold hbind in Hb. rewrite E in Hb. unfold hret in Hb. injection Hb as <-.
  destruct out as [[secs ps] ws]. split; [done|]. by apply (same_sections _ _ _ _ _ _ Es).
Qed.
End Shown.
