(* ===== verification/BotHomepageSample.v ===== *)
(** * BotHomepageSample: homepages on concrete data

    The presence shown on a homepage, and the theorems on homepages applied to a
    node that has seen seven posts of one user. *)

From S2P Require Import Prelude GoText Json Storage Aggregator Effects HttpApi IdAddress IdAddressFacts PublishedContent PublishedContentFacts PublishedContentRuns PublishedContentLists PublishedContentSample FedStore FedStoreFacts Federation FederationSample SkillList SkillSample BotHomepage BotHomepageFacts BotHomepagePage.

(** ** Presence *)

Section Presence.
Context {MO : MapOrder} {W : Type}.
(** The reader of [internal/federation/store.go], at a given time. *)
Definition store_reader (f : Store) (now : Z) : GlobalReader (W := W) :=
  mkGlobal (fs_enabled f)
    (fun local page size _ => match OnlineList local page size now f with Ok l => l | Err _ => [] end).
Definition is_user (candidates : list string) (e : OnlineEntry) : Prop :=
  ToLower (TrimSpace (oe_MetaId e)) ∈ map (fun c => ToLower (TrimSpace c)) candidates.
Lemma OnlineList_first f local now : OnlineList local 1 100 now f = Ok (take 100 (GlobalOnline local now f)).
Proof.
  unfold OnlineList, paginatePresence. set (l := GlobalOnline local now f).
  change (if 1 <? 1 then 1 else 1) with 1. change (if 100 <? 1 then 20 else 100) with 100. cbv zeta.
  change (wrap64 (wrap64 (1 - 1) * 100)) with 0. change (wrap64 (0 + 100)) with 100.
  change (drop (Z.to_nat 0) l) with l. change (0 <=? 0) with true. rewrite Z.sub_0_r.
  destruct (Z.leb_spec (Z.of_nat (length l)) 0) as [H|H]; [by destruct l; [|cbn in H; lia]|].
  destruct (Z.ltb_spec (Z.of_nat (length l)) 100) as [Hl|Hl]; cbn [andb]; [|done].
  rewrite (proj2 (Z.leb_le 0 (Z.of_nat (length l)))) by lia. by rewrite Nat2Z.id, !take_ge by lia.
Qed.
Lemma findPresence_some items candidates :
  Forall (fun c => TrimSpace c <> "") candidates ->
  (exists e, findPresence items candidates = Some e) <-> exists e, e ∈ items /\ is_user candidates e.
Proof.
  intros Hc. unfold findPresence, is_user. cbv zeta.
  replace (List.filter (fun c => negb (is_empty (TrimSpace c))) candidates) with candidates.
  2: { induction Hc as [|c l Hc _ IH]; [done|]. cbn. destruct (is_empty (TrimSpace c)) eqn:E; [by apply is_empty_spec in E|].
       cbn. by rewrite <- IH. }
  split.
  - intros [x Hx]. apply find_some in Hx as [Hin Hx]. apply bool_decide_eq_true in Hx. exists x.
    by rewrite list_elem_of_In.
  - intros (x & Hin & Hx). destruct (List.find _ items) as [y|] eqn:E; [by exists y|].
    apply list_elem_of_In in Hin. pose proof (find_none _ _ E x Hin) as Hn. cbn in Hn.
    by rewrite bool_decide_eq_true_2 in Hn.
Qed.
Lemma candidates_trimmed values seen : Forall (fun c => TrimSpace c <> "") (candidates_loop values seen).
Proof.
  revert seen. induction values as [|v values IH]; intros seen; [constructor|]. cbn [candidates_loop].
  destruct (is_empty (TrimSpace v)) eqn:E; [apply IH|]. cbn [orb]. case_match; [apply IH|]. constructor; [|apply IH].
  rewrite TrimSpace_idem. intros E'. by rewrite E' in E.
Qed.
(** A user is shown online exactly when one of its ids is among the first hundred
    entries of the merged list, or in the list of this node. *)
Lemma presence_exact (a : Aggregator (W := W)) profile w f now local :
  bh_globalPresence a = Some (store_reader f now) -> fs_enabled f = true -> bh_localPresence a = Some local ->
  pr_State (resolvePresence a profile true w) = "online"
  <-> exists e, (e ∈ take 100 (GlobalOnline (local w) now f) \/ e ∈ local w) /\ is_user (identityCandidates profile) e.
Proof.
  intros Hg He Hl. unfold resolvePresence. rewrite Hg, Hl. cbn [negb gr_Enabled gr_OnlineList store_reader].
  rewrite He, OnlineList_first.
  pose proof (candidates_trimmed [snap_GlobalMetaId profile; snap_MetaId profile; snap_Address profile] []) as Hc.
  fold (identityCandidates profile) in Hc. set (cs := identityCandidates profile) in *.
  pose proof (findPresence_some (take 100 (GlobalOnline (local w) now f)) cs Hc) as H1.
  pose proof (findPresence_some (local w) cs Hc) as H2.
  destruct cs as [|c cs]; [split; [done|]; intros (e & _ & He'); by apply elem_of_nil in He'|].
  destruct (findPresence (take 100 _) (c :: cs)) as [e|]; [split; [intros _|done]|].
  { destruct (proj1 H1 ltac:(by eexists)) as (x & ? & ?). eauto. }
  destruct (findPresence (local w) (c :: cs)) as [e|]; [split; [intros _|done]|].
  { destruct (proj1 H2 ltac:(by eexists)) as (x & ? & ?). eauto. }
  split; [done|]. intros (e & [Hin|Hin] & Hu);
    [destruct (proj2 H1 (ex_intro _ e (conj Hin Hu))) as [? [=]]|destruct (proj2 H2 (ex_intro _ e (conj Hin Hu))) as [? [=]]].
Qed.
End Presence.

(** ** A node that has seen seven posts *)

#[local] Existing Instance some_order.
#[local] Existing Instance sample_ops_inst.
#[local] Existing Instance sample_store_inst.
#[local] Existing Instance sample_PublishedJSON.
#[local] Existing Instance toy_Base58.
#[local] Existing Instance sample_GoLib.
#[local] Existing Instance toy_url.
(** A decoder that knows one text. *)
#[local] Instance sample_HomepageJSON : HomepageJSON :=
  {| unmarshal_any s := if String.eqb s "{bio}"
       then Ok (AMap [("role", AStr " guide "); ("skills", AList [AStr "chat"; AStr ""; ANil; AStr "maps"])])
       else Err "invalid character" |}.

Definition numbered_post (n : Z) : bool * PinInscription :=
  (false, buzz ("t" +:+ fmt_d n +:+ "i0") "/protocols/simplebuzz" "create" ("post " +:+ fmt_d n) "ann" (10 * n)).
Definition seven_posts : list (bool * PinInscription) := map numbered_post [1; 2; 3; 4; 5; 6; 7].
Definition ann_profile : ProfileSnapshot :=
  mkSnapshot "idq-ann" "meta-ann" "addr-ann" " Ann " "n1i0" "" "" "" "" "" "{bio}" "b1i0" "https://ann.example" "h1i0"
    "" "" "" "" "" "" "" "" "deepseek" "l1i0" "02ab" "c1i0" "mvc".
Definition ann_lookup (id : string) : M sample_store (option ProfileSnapshot) :=
  fun s => (Ok (if String.eqb id "idq-ann" then Some ann_profile else None), s).
Definition conn_of (id : string) (t : Z) : OnlineEntry := mkEntry id "pc" 1 t [] 0.
Definition page_maker : Aggregator (W := sample_store) :=
  mkHomepage (Some 1234) (Some ann_lookup) None None (Some (published_lister (fun s => s)))
    (Some (fun _ => [conn_of " META-ann" 77])) None None "".
Definition node_state : sample_store := run_pins seven_posts empty_store.
Definition v2_query : Values := {["version" := ["V2"]; "includeSkills" := ["no"]]}.
Definition v2_options : Options := mkOptions "v2" true true true false true 5 false true true "".
Example v2_query_options : ParseOptions v2_query = Ok v2_options.
Proof. vm_compute. reflexivity. Qed.

Definition page_summary (r : response Data) :=
  match r with
  | RespSuccess d => Some (map (fun s => (se_Id s, map si_Title (se_Items s), se_Returned s, se_HasMore s)) (da_Sections d),
      (pr_State (da_Presence d), pr_UpdatedAt (da_Presence d)), pf_Bio (da_Profile d),
      option_map (fun p => (pe_Role p, cs_Allow (pe_ChatSkills p), llm_Provider (pe_LLM p))) (da_Persona d),
      option_map cu_URI (hm_Custom (da_Homepage d)), map ac_Enabled (da_Actions d), length (da_Warnings d))
  | RespErr _ _ => None
  end.
Example ann_page :
  page_summary (handleGlobalMetaID page_maker " idq-ann" v2_query node_state).1
  = Some ([("services", [], 0, false); ("metaapps", [], 0, false);
           ("buzzes", ["post 7"; "post 6"; "post 5"; "post 4"; "post 3"], 5, true)],
      ("online", Some 77), "", Some ("guide", Some ["chat"; "maps"], "deepseek"),
      Some "https://ann.example", [true; false; true], 5%nat).
Proof. vm_compute. reflexivity. Qed.
Example unknown_user : (handleGlobalMetaID page_maker "idq-eve" v2_query node_state).1 = RespErr 40400 "bot homepage not found".
Proof. vm_compute. reflexivity. Qed.

Lemma plain_posts : Forall (fun e => plain_pin e.2) seven_posts.
Proof.
  repeat (apply Forall_cons_2; [split; [good|vm_compute; reflexivity|vm_compute; reflexivity]|]). apply Forall_nil_2.
Qed.
Lemma homepage_shows_publications_witness :
  match (Build page_maker "idq-ann" v2_options node_state).1 with
  | Ok d => Forall2 (fun '(id, title, path, _) sec => shows (da_Canonical d) v2_options path node_state id title sec)
              (sectionSpecs v2_options) (drop 1 (da_Sections d))
  | Err _ => False
  end.
Proof.
  destruct (Build page_maker "idq-ann" v2_options node_state).1 as [d|e] eqn:E; [|by vm_compute in E].
  destruct (homepage_shows_publications (fun s => s) (fun _ => True) seven_posts empty_store page_maker "idq-ann" v2_options
    ann_lookup ann_profile node_state node_state d) as [Hc Hs].
  - by vm_compute.
  - by vm_compute.
  - apply plain_posts.
  - reflexivity.
  - unfold ann_lookup. by change (String.eqb (TrimSpace "idq-ann") "idq-ann") with true.
  - by split.
  - done.
  - reflexivity.
  - by intros g q w [=].
  - by intros g q w [=].
  - by repeat constructor.
  - reflexivity.
  - reflexivity.
  - exact E.
  - by rewrite Hc.
Defined.

(** *** A user of another node, behind a hundred users *)

Definition many_entries : list OnlineEntry := map (fun n => conn_of ("u" +:+ fmt_d (Z.of_nat n)) 1000) (seq 0 100).
Definition peer : RegistryNode := mkNode "" "" "B" "" "" "" "" "" [] 0 1000000000000.
Definition peer_store : Store :=
  mkStore "A" true "global" {["B" := peer]} {["B" := FedStore.mkSnapshot "" "" "B" 0 1000 1 [conn_of "meta-ann" 77] ""]}.
Definition crowded : Aggregator (W := sample_store) :=
  mkHomepage None None None None None (Some (fun _ => many_entries)) (Some (store_reader peer_store 1)) None "".
(** Online in the federation, unknown on the homepage. *)
Example hundred_and_first :
  (existsb (fun e => String.eqb (oe_MetaId e) "meta-ann") (GlobalOnline many_entries 1 peer_store),
   pr_State (resolvePresence crowded ann_profile true empty_store)) = (true, "unknown").
Proof. vm_compute. reflexivity. Qed.
