(* ===== verification/Node.v ===== *)
(** * Node: the seven aggregators over one store

    What cmd/metaso-p2p/main.go registers, in its order, and what the indexer engine
    routes through the registry.  The aggregators share the store and the caches; the
    notify channels of group and private chats are the only other state.  Each of the
    aggregators whose state is the chain's — group chats, published contents, skill
    services — is in the node what it is alone, on a store of its own. *)

From S2P Require Import Prelude GoText Json Storage Aggregator Cache Frames IdAddress UserInfo UserInfoFacts UserInfoFrames GroupChat PrivateChat Notify PublishedContent SkillService.

Section Node.
Context {L : LRU} {St : Type} {KV : KVOps St} {KVS : KVStore St} {UP : URLParse} {J : JSON UserProfile} {B58 : Base58}.
Context {GJ : GroupChatJSON} {F : FmtV} {MO : MapOrder} {PRJ : PrivateChatJSON} {SJ : SkillJSON} {PJ : PublishedJSON}.
#[local] Abbreviation W := (CacheProvider St).

(** The state behind the registry, in the form in which the engine threads it. *)
Definition Node : Type := W * (list NotifyEvent * list NotifyEvent).
Definition mkNode (w : W) (groupCh privateCh : list NotifyEvent) : Node := (w, (groupCh, privateCh)).
Definition nd_provider (n : Node) : W := n.1.
Definition nd_groupCh (n : Node) : list NotifyEvent := n.2.1.
Definition nd_privateCh (n : Node) : list NotifyEvent := n.2.2.

(** ** The aggregators *)

(** [Init] takes a cache from the provider; it never fails. *)
Definition init_cache (name : string) (maxEntries ttl : Z) (n : Node) : option error * Node :=
  (None, mkNode (Namespace name maxEntries ttl (nd_provider n)) (nd_groupCh n) (nd_privateCh n)).
Definition on_provider {A} (c : M W A) (n : Node) : res A * Node :=
  let '(r, w) := c (nd_provider n) in (r, mkNode w (nd_groupCh n) (nd_privateCh n)).
Definition no_pins (_ : PinInscription) (n : Node) : res (option NotifyEvent) * Node := (Ok None, n).
Definition minutes (n : Z) : Z := n * 60 * 10 ^ 9.

Definition notify_aggregator : AggregatorI Node :=
  mkAggregator "notify" (init_cache "notify" 1000 300) no_pins no_pins.
Definition userinfo_aggregator : AggregatorI Node :=
  mkAggregator "userinfo" (init_cache "userinfo" 5000 (minutes 10))
    (fun pin => on_provider (UserInfo.HandleBlockPin pin)) (fun pin => on_provider (UserInfo.HandleMempoolPin pin)).
Definition on_group (c : Module (St := W) -> res (option NotifyEvent) * Module (St := W)) (n : Node)
    : res (option NotifyEvent) * Node :=
  let '(r, m) := c (mkModule (nd_provider n) (nd_groupCh n)) in
  (r, mkNode (md_store m) (md_notifyCh m) (nd_privateCh n)).
Definition groupchat_aggregator : AggregatorI Node :=
  mkAggregator "groupchat" (init_cache "groupchat" 2000 300)
    (fun pin => on_group (GroupChat.HandleBlockPin pin)) (fun pin => on_group (GroupChat.HandleMempoolPin pin)).

(** The lookups that main.go wires to the user info aggregator. *)
Variable ui : UserInfo.Aggregator.
Definition on_private (pin : PinInscription) (n : Node) : res (option NotifyEvent) * Node :=
  let '(r, m) := private_HandlePin (Some (PrivateChat.NewUserInfoLookupAdapter ui)) pin
                   (mkPrivateModule (nd_provider n) (nd_privateCh n)) in
  (r, mkNode (pv_store m) (nd_groupCh n) (pv_notifyCh m)).
Definition privatechat_aggregator : AggregatorI Node :=
  mkAggregator "privatechat" (init_cache "privatechat" 2000 300) on_private on_private.
(** The answers at the time of the pin; the profiles they may complete are not
    written. *)
Definition answers (n : Node) : SkillService.ProfileLookup :=
  let ask (look : string -> M W (option UserProfile)) (id : string) : res (option SkillService.ProfileSnapshot) :=
    p <-? (look id (nd_provider n)).1 ;; Ok (snapshotFromUserInfo <$> p) in
  SkillService.mkLookup (ask (lookupByMetaId ui)) (ask (lookupByGlobalMetaId ui)) (ask (lookupByAddress ui)).
Definition on_skill (pin : PinInscription) (n : Node) : res (option NotifyEvent) * Node :=
  on_provider (SkillService.HandleBlockPin (Some (answers n)) pin) n.
Definition skillservice_aggregator : AggregatorI Node :=
  mkAggregator "skillservice" (init_cache "skillservice" 2000 (minutes 5)) on_skill on_skill.
Definition publishedcontent_aggregator : AggregatorI Node :=
  mkAggregator "publishedcontent" (init_cache "publishedcontent" 1000 (minutes 5))
    (fun pin => on_provider (PublishedContent.HandleBlockPin pin))
    (fun pin => on_provider (PublishedContent.HandleMempoolPin pin)).
Definition bothomepage_aggregator : AggregatorI Node :=
  mkAggregator "bothomepage" (init_cache "bothomepage" 1000 (30 * 10 ^ 9)) no_pins no_pins.

(** ** Start-up and pins *)

Definition node_aggregators : list (AggregatorI Node) :=
  [notify_aggregator; userinfo_aggregator; groupchat_aggregator; privatechat_aggregator; skillservice_aggregator;
   publishedcontent_aggregator; bothomepage_aggregator].
(** A failed registration is logged. *)
Definition register_all (l : list (AggregatorI Node)) (r : Registry Node) (n : Node) : Registry Node * Node :=
  foldl (fun rn a => let '(_, r, n) := Register a rn.1 rn.2 in (r, n)) (r, n) l.
Definition start_node (store : St) : Registry Node * Node :=
  register_all node_aggregators NewRegistry (mkNode (New store) [] []).

(** What the engine hands to the registry. *)
Inductive routed := BlockPin (pin : PinInscription) | MempoolPin (pin : PinInscription).
Definition deliver (r : Registry Node) (x : routed) (n : Node) : list NotifyEvent * Node :=
  match x with BlockPin pin => RouteBlockPin r pin n | MempoolPin pin => RouteMempoolPin r pin n end.
Definition run_node (r : Registry Node) (xs : list routed) (n : Node) : Node :=
  foldl (fun n x => (deliver r x n).2) n xs.
End Node.
Arguments Node {L} St : simpl never.

(** ** An aggregator alone *)

Section Alone.
Context {S2 : Type} {KV2 : KVOps S2} {GJ : GroupChatJSON} {F : FmtV} {MO : MapOrder} {SJ : SkillJSON} {PJ : PublishedJSON}
  {B58 : Base58}.
Definition run_group (xs : list routed) (m : Module (St := S2)) : Module (St := S2) :=
  foldl (fun m x => match x with
                    | BlockPin pin => (GroupChat.HandleBlockPin pin m).2
                    | MempoolPin pin => (GroupChat.HandleMempoolPin pin m).2
                    end) m xs.
Definition run_published (xs : list routed) (s : S2) : S2 :=
  foldl (fun s x => match x with
                    | BlockPin pin => (PublishedContent.HandleBlockPin pin s).2
                    | MempoolPin pin => (PublishedContent.HandleMempoolPin pin s).2
                    end) s xs.
(** Each pin with the answers of the profile lookup at its time. *)
Definition run_skill (xs : list (option SkillService.ProfileLookup * routed)) (s : S2) : S2 :=
  foldl (fun s x => match x.2 with
                    | BlockPin pin => (SkillService.HandleBlockPin x.1 pin s).2
                    | MempoolPin pin => (SkillService.HandleMempoolPin x.1 pin s).2
                    end) s xs.
End Alone.
