(* ===== verification/NodeFacts.v ===== *)
(** * NodeFacts: an aggregator in the node is what it is alone

    First the frames of the handlers of each aggregator: which namespaces they leave alone
    and depend on.  With them, over every sequence of block and mempool pins, the node's
    records and pending notifications of group chats, its published contents and its
    services and ratings are the ones each aggregator computes alone from the same pins;
    so the theorems about an aggregator alone hold of the node.  Then the engine over the
    node: a run of it is such a sequence, whose block pins are those of the blocks it
    scanned.  The last part runs a node and an engine on concrete pins. *)

From S2P Require Import Prelude GoText Json Aliases Storage Aggregator Effects Cache Frames Engine EngineFacts IdAddress IdAddressFacts GroupChatFacts PublishedContentSample SkillSample UserInfo UserInfoFacts UserInfoFrames GroupChat PrivateChat PrivateChatFacts PublishedContent SkillService Node.
Open Scope handler_scope.

(** * The handlers of the aggregators, framed

    No handler changes a namespace of another aggregator, and the handlers of group
    chats and of published contents depend on nothing but their own. *)

(** ** Group chats *)

Section GroupChat.
Context {S1 : Type} {KV1 : KVOps S1} {KVS1 : KVStore S1} {S2 : Type} {KV2 : KVOps S2} {KVS2 : KVStore S2}.
Context {GJ : GroupChatJSON} {F : FmtV} {MO : MapOrder}.
Context (I : S1 -> Prop) {SI : StoreInv I}.
#[local] Abbreviation frame := (frame I [namespace]).
#[local] Abbreviation same := (same (S1 := S1) (S2 := S2) [namespace] []).

Lemma save_aliases_frame ids groupId item : frame (save_aliases ids groupId item).
Proof. induction ids as [|i ids IH]; cbn [save_aliases]; frame_steps. Qed.
Hint Resolve save_aliases_frame : frames.
Lemma SaveChatMessage_frame msg : frame (SaveChatMessage msg).
Proof.
  intros s. unfold SaveChatMessage. set (m := if _ <? 0 then _ else msg).
  apply (frame_bind I [namespace] (save namespace _ m)); frame_steps.
Qed.
Hint Resolve SaveChatMessage_frame : frames.
Lemma dispatchPin_frame pin : frame (dispatchPin pin).
Proof.
  unfold dispatchPin, handleCommunityCreate, handleGroupCreate, handleGroupChannel, handleGroupAdmin, handleGroupBlock,
    handleGroupChat, handleGroupJoin, set_admin, set_blocked, SaveCommunity, SaveGroup, SaveGroupMember, SetGroupRole,
    SaveGroupMetaIdJoinItem, SaveGroupChannel. cbv zeta. frame_steps.
Qed.

(** The reads of the handlers. *)
Ltac group_read :=
  intros s1 s2 H; unfold role_or_new, getGroupMemberRole, IsUserInGroup, GetReplyInfo, GroupMemberTargetIds, GetGroupMember,
    getGroupMemberRole, GetGroup, nextChatIndex, collectGroupRootMessages, collectChannelMessages, collectAllChatMessages,
    collectGroupMessages, scan_json, scan, load; same_reads; reflexivity.
Lemma role_or_new_same g m : same_read (S1 := S1) (S2 := S2) [namespace] [] (role_or_new g m) (role_or_new g m).
Proof. group_read. Qed.
Lemma is_member_same g m : same_read (S1 := S1) (S2 := S2) [namespace] []
  (fun s => match IsUserInGroup g m s with Ok b => b | Err _ => false end)
  (fun s => match IsUserInGroup g m s with Ok b => b | Err _ => false end).
Proof. group_read. Qed.
Lemma reply_same p : same_read (S1 := S1) (S2 := S2) [namespace] []
  (fun s => if is_empty p then None else GetReplyInfo p s) (fun s => if is_empty p then None else GetReplyInfo p s).
Proof. group_read. Qed.
Lemma targets_same g : same_read (S1 := S1) (S2 := S2) [namespace] [] (GroupMemberTargetIds g) (GroupMemberTargetIds g).
Proof. group_read. Qed.
Lemma member_same g m : same_read (S1 := S1) (S2 := S2) [namespace] []
  (fun s => value_of (GetGroupMember g m s)) (fun s => value_of (GetGroupMember g m s)).
Proof. group_read. Qed.
Lemma group_same g : same_read (S1 := S1) (S2 := S2) [namespace] []
  (fun s => value_of (GetGroup g s)) (fun s => value_of (GetGroup g s)).
Proof. group_read. Qed.
Lemma nextChatIndex_same g c : same_read (S1 := S1) (S2 := S2) [namespace] [] (nextChatIndex g c) (nextChatIndex g c).
Proof. group_read. Qed.
Hint Resolve role_or_new_same is_member_same reply_same targets_same member_same group_same : same.

Lemma save_aliases_same ids groupId item : same (save_aliases ids groupId item) (save_aliases ids groupId item).
Proof. induction ids as [|i ids IH]; cbn [save_aliases]; same_steps. Qed.
Lemma SaveChatMessage_same msg : same (SaveChatMessage msg) (SaveChatMessage msg).
Proof.
  intros s1 s2 H. unfold SaveChatMessage. rewrite (nextChatIndex_same _ _ s1 s2 H). cbv zeta.
  generalize (if cm_Index msg <? 0 then set_Index (nextChatIndex (cm_GroupId msg) (cm_ChannelId msg) s2) msg else msg).
  intros m. revert s1 s2 H. apply (same_bind [namespace] [] (save namespace _ m)); same_steps.
Qed.
Hint Resolve save_aliases_same SaveChatMessage_same : same.
Lemma dispatchPin_same pin : same (dispatchPin pin) (dispatchPin pin).
Proof.
  unfold dispatchPin, handleCommunityCreate, handleGroupCreate, handleGroupChannel, handleGroupAdmin, handleGroupBlock,
    handleGroupChat, handleGroupJoin, set_admin, set_blocked, SaveCommunity, SaveGroup, SaveGroupMember, SetGroupRole,
    SaveGroupMetaIdJoinItem, SaveGroupChannel. cbv zeta. same_steps.
Qed.
End GroupChat.

(** ** Published contents *)

Section Published.
Context {S1 : Type} {KV1 : KVOps S1} {KVS1 : KVStore S1} {S2 : Type} {KV2 : KVOps S2} {KVS2 : KVStore S2}.
Context {PJ : PublishedJSON} {B58 : Base58}.
Context (I : S1 -> Prop) {SI : StoreInv I}.
#[local] Abbreviation frame := (frame I [published_ns]).
#[local] Abbreviation same := (same (S1 := S1) (S2 := S2) [published_ns] [published_ns]).

Lemma loadRecord_frame c p i : frame (loadRecord c p i).
Proof. intros s. apply moves_touch; [typeclasses eauto|in_list]. Qed.
Lemma loadRecordByAnyPinId_frame c p i : frame (loadRecordByAnyPinId c p i).
Proof.
  intros s. unfold loadRecordByAnyPinId. cbv zeta.
  assert (Ht : moves I [published_ns] s (kv_touch s published_ns))
    by (apply moves_touch; [typeclasses eauto|in_list]).
  destruct (is_empty _); [done|]. eapply moves_trans; [exact Ht|apply loadRecord_frame].
Qed.
Hint Resolve loadRecord_frame loadRecordByAnyPinId_frame : frames.
Ltac published_unfold :=
  unfold PublishedContent.processPin, processCreate, processModify, processRevoke, process_update, saveRecord,
    deleteIdentityIndexes, writeIdentityIndexes, PublishedContent.mapPinToSource, put, del; cbv zeta.
Lemma published_frame pin isMempool : frame (PublishedContent.processPin pin isMempool).
Proof. published_unfold. frame_steps. Qed.

Lemma loadRecord_opens c p i opened s1 s2 :
  agree (S1 := S1) (S2 := S2) [published_ns] opened s1 s2 ->
  (loadRecord c p i s1).1 = (loadRecord c p i s2).1
  /\ agree [published_ns] (published_ns :: opened) (loadRecord c p i s1).2 (loadRecord c p i s2).2.
Proof.
  intros H. apply (agree_touch _ _ _ _ published_ns) in H; [|in_list]. split; [|exact H].
  unfold loadRecord, read_record. cbn [fst]. same_reads. reflexivity.
Qed.
Lemma sourcePinIdFor_same c i opened s1 s2 :
  agree (S1 := S1) (S2 := S2) [published_ns] opened s1 s2 -> sourcePinIdFor c i s1 = sourcePinIdFor c i s2.
Proof.
  intros H. unfold sourcePinIdFor. destruct (_ || _); [done|].
  assert (E : forall fuel cur seen, source_loop fuel c cur seen s1 = source_loop fuel c cur seen s2); [|apply E].
  induction fuel as [|fuel IH]; intros cur seen; [done|]. cbn [source_loop]. same_reads.
  destruct (kv_Get s2 _ _) as [[raw|]|]; try done. by rewrite IH.
Qed.
Lemma loadRecordByAnyPinId_opens c p i opened s1 s2 :
  agree (S1 := S1) (S2 := S2) [published_ns] opened s1 s2 ->
  (loadRecordByAnyPinId c p i s1).1 = (loadRecordByAnyPinId c p i s2).1
  /\ agree [published_ns] (published_ns :: opened) (loadRecordByAnyPinId c p i s1).2 (loadRecordByAnyPinId c p i s2).2.
Proof.
  intros H. apply (agree_touch _ _ _ _ published_ns) in H; [|in_list]. unfold loadRecordByAnyPinId. cbv zeta.
  rewrite (sourcePinIdFor_same _ _ _ _ _ H). destruct (is_empty _); [done|].
  destruct (loadRecord_opens c p (sourcePinIdFor c i (kv_touch s2 published_ns)) _ _ _ H) as [E H'].
  split; [exact E|]. eapply agree_weaken; [|exact H']. intros x Hx. by right.
Qed.
Ltac opening_step :=
  eapply same_opened;
    [intros s1 s2 H; first [apply loadRecord_opens|apply loadRecordByAnyPinId_opens]; exact H|intros ?].
Lemma processCreate_same pin p isMempool :
  Frames.same (S1 := S1) (S2 := S2) [published_ns] [] (processCreate pin p isMempool) (processCreate pin p isMempool).
Proof. published_unfold. opening_step. same_steps. Qed.
Lemma process_update_same change pin p :
  Frames.same (S1 := S1) (S2 := S2) [published_ns] [] (process_update change pin p) (process_update change pin p).
Proof. published_unfold. destruct (is_empty _); [apply same_ret|]. opening_step. same_steps. Qed.
Hint Resolve processCreate_same process_update_same : same.
Lemma published_same pin isMempool :
  Frames.same (S1 := S1) (S2 := S2) [published_ns] [] (PublishedContent.processPin pin isMempool)
    (PublishedContent.processPin pin isMempool).
Proof. unfold PublishedContent.processPin, processModify, processRevoke. cbv zeta. same_steps. Qed.
End Published.

(** ** Services and ratings *)

Section Skill.
Context {S1 : Type} {KV1 : KVOps S1} {KVS1 : KVStore S1} {S2 : Type} {KV2 : KVOps S2} {KVS2 : KVStore S2}.
Context {SJ : SkillJSON} (lookup : option SkillService.ProfileLookup).
#[local] Abbreviation own := [NamespaceService; NamespaceRate].
Context (I : S1 -> Prop) {SI : StoreInv I}.
#[local] Abbreviation frame := (frame I own).
#[local] Abbreviation same := (same (S1 := S1) (S2 := S2) own).
Ltac skill_unfold :=
  unfold processRatingPin, processServicePin, processTargetedServicePin, processServiceCreate, processServiceModify,
    processServiceRevoke, with_current, saveService, SkillService.mapPinToSource, saveRatingPin, bumpRatingAggregate,
    LoadRatingAggregate, loadServiceByAnyPinId, loadService; cbv zeta.

Lemma known_rating_frame c i : frame (known_rating c i).
Proof.
  assert (Hl : frame (loadRatingPin c i)) by (unfold loadRatingPin; frame_steps).
  intros s. specialize (Hl s). unfold known_rating. by destruct (loadRatingPin c i s) as [[[]|] s'].
Qed.
Hint Resolve known_rating_frame : frames.
Lemma processServicePin_frame pin : frame (processServicePin lookup pin).
Proof. skill_unfold. frame_steps. Qed.
Hint Resolve processServicePin_frame : frames.
Lemma skill_frame pin : frame (SkillService.processPin lookup pin).
Proof. unfold SkillService.processPin, processTargetedServicePin. skill_unfold. frame_steps. Qed.

Lemma known_rating_same opened c i : same opened (known_rating c i) (known_rating c i).
Proof.
  assert (Hl : same opened (loadRatingPin c i) (loadRatingPin c i)) by (unfold loadRatingPin; same_steps).
  intros s1 s2 H. destruct (Hl s1 s2 H) as [E H']. unfold known_rating.
  destruct (loadRatingPin c i s1) as [r1 s1'], (loadRatingPin c i s2) as [r2 s2']. cbn [fst snd] in *. subst r2.
  by destruct r1 as [[]|].
Qed.
Lemma loadService_same opened c i : same opened (loadService c i) (loadService c i).
Proof. skill_unfold. same_steps. Qed.
Lemma loadServiceByAnyPinId_same opened c i : same opened (loadServiceByAnyPinId c i) (loadServiceByAnyPinId c i).
Proof. skill_unfold. same_steps. Qed.
Lemma saveService_same opened rec previous :
  match previous with Some _ => NamespaceService ∈ opened | None => True end ->
  same opened (saveService lookup rec previous) (saveService lookup rec previous).
Proof. intros Hp. unfold saveService. cbv zeta. destruct previous; same_steps. Qed.
Lemma mapPinToSource_same opened c i j :
  same opened (SkillService.mapPinToSource c i j) (SkillService.mapPinToSource c i j).
Proof. skill_unfold. same_steps. Qed.
Hint Resolve known_rating_same loadService_same loadServiceByAnyPinId_same mapPinToSource_same : same.
(** A version found was found in an open namespace. *)
Lemma any_pin_opens opened c i s1 s2 :
  agree (S1 := S1) (S2 := S2) own opened s1 s2 ->
  let r1 := loadServiceByAnyPinId c i s1 in let r2 := loadServiceByAnyPinId c i s2 in
  r1.1 = r2.1 /\ agree own opened r1.2 r2.2
  /\ forall a, r1.1 = Ok a -> bool_decide (is_Some a) = true -> agree own (NamespaceService :: opened) r1.2 r2.2.
Proof.
  intros H. cbv zeta. destruct (loadServiceByAnyPinId_same opened c i s1 s2 H) as [E H']. split_and!; [done|done|].
  intros a Ea Ha. revert E H' Ea. unfold loadServiceByAnyPinId. destruct (_ || _).
  { cbn. intros _ _ [= <-]. by apply bool_decide_eq_true in Ha as [? ?]. }
  intros _ _ _. unfold hbind.
  destruct (fetch_opens own opened NamespaceService (pinToSourceKey c i) s1 s2) as [E H']; [in_list|done|].
  destruct (fetch _ _ s1) as [r1 s1'], (fetch _ _ s2) as [r2 s2']. cbn [fst snd] in *. subst r2.
  destruct r1 as [m|]; [by apply loadService_same|done].
Qed.
Lemma with_current_same opened pin k1 k2 :
  (forall previous, same (NamespaceService :: opened) (k1 previous) (k2 previous)) ->
  same opened (with_current pin k1) (with_current pin k2).
Proof.
  intros Hk. unfold with_current. destruct (resolveTargetPinId pin); [|apply same_ret].
  apply (same_opening own (fun a => bool_decide (is_Some a)) opened NamespaceService); [intros *; apply any_pin_opens|].
  intros [previous|]; [|apply same_ret]. rewrite bool_decide_eq_true_2 by done.
  destruct (isCurrentVersionTarget _ _); [apply Hk|apply same_ret].
Qed.
Lemma processServicePin_same pin : same [] (processServicePin lookup pin) (processServicePin lookup pin).
Proof.
  unfold processServicePin, processServiceCreate, processServiceModify, processServiceRevoke. cbv zeta. same_steps.
  all: first [ by apply saveService_same | apply with_current_same; intros ?; same_steps; apply saveService_same; in_list ].
Qed.
Hint Resolve processServicePin_same : same.
(** With the same answers of the profile lookup. *)
Lemma skill_same pin : same [] (SkillService.processPin lookup pin) (SkillService.processPin lookup pin).
Proof.
  unfold SkillService.processPin, processRatingPin, processTargetedServicePin, saveRatingPin, bumpRatingAggregate,
    LoadRatingAggregate. cbv zeta. same_steps.
Qed.
End Skill.

(** ** Private messages

    Over the provider of the caches, with the lookups of the user info aggregator. *)

Section Private.
Context {L : LRU} {St : Type} {KV : KVOps St} {KVS : KVStore St} {UP : URLParse} {J : JSON UserProfile}.
Context {PJ : PrivateChatJSON} (ui : Aggregator).
#[local] Abbreviation W := (CacheProvider St).
#[local] Abbreviation own := (privatechat_ns :: user_namespaces).
#[local] Abbreviation frame := (frame cache_placed own).
#[local] Abbreviation moves := (moves cache_placed own).
#[local] Abbreviation adapter := (Some (NewUserInfoLookupAdapter ui)).

Lemma moves_elsewhere {A} (c : M W A) (w : W) : elsewhere c -> moves w (c w).2.
Proof.
  intros Hc Hw _. destruct (Hc w Hw) as (H1 & H2 & H3). split; [done|]. split; [|done].
  intros ns Hns. split; [apply H2|done]. intros Hin. apply Hns. by right.
Qed.
Lemma lookup_aliases_moves ls id st (w : W) :
  (forall l, l ∈ ls -> elsewhere (l id)) -> moves w (lookup_aliases ls id st w).2.
Proof.
  revert st w. induction ls as [|l ls IH]; intros st w Hl; cbn [lookup_aliases]; [apply moves_refl|].
  pose proof (moves_elsewhere (l id) w (Hl l ltac:(left))) as Hm.
  assert (Hl' : forall l, l ∈ ls -> elsewhere (l id)) by (intros x Hx; apply Hl; by right).
  destruct (l id w) as [[[p|]|e] w']; (eapply moves_trans; [exact Hm|by apply IH]).
Qed.
Lemma identityAliases_moves id (w : W) : moves w (identityAliases adapter id w).2.
Proof.
  unfold identityAliases. cbv zeta. destruct (is_empty _); [apply moves_refl|].
  pose proof (lookup_aliases_moves (map (fun f => f (NewUserInfoLookupAdapter ui))
    [PrivateChat.LookupByMetaId; PrivateChat.LookupByGlobalMetaId; PrivateChat.LookupByAddress]) (TrimSpace id) (add_alias ([], ∅) (TrimSpace id)) w) as H.
  cbn [map] in H. destruct (lookup_aliases _ _ _ w) as [st w']. apply H.
  intros l Hl. repeat (apply elem_of_cons in Hl as [->|Hl]); [| | |by apply not_elem_of_nil in Hl];
    apply (elsewhere_bind _ (fun p => hret (identityFromUserInfo p))); first [apply (elsewhere_lookups ui (TrimSpace id))|intros; apply elsewhere_ret].
Qed.
Lemma collect_moves my other (w : W) : moves w (collectPrivateMessages adapter my other w).2.
Proof.
  unfold collectPrivateMessages. pose proof (identityAliases_moves my w) as H1.
  destruct (identityAliases adapter my w) as [a w1]. pose proof (identityAliases_moves other w1) as H2.
  destruct (identityAliases adapter other w1) as [b w2]. eapply moves_trans; [exact H1|exact H2].
Qed.
Lemma SavePrivateMessage_frame msg : frame (SavePrivateMessage adapter msg).
Proof.
  intros w. unfold SavePrivateMessage.
  assert (Hm : exists m w', (if pm_Index msg <? 0
      then let '(i, s) := nextPrivateMessageIndex adapter (pm_From msg) (pm_To msg) w in (set_pm_Index i msg, s)
      else (msg, w)) = (m, w') /\ moves w w').
  { destruct (_ <? 0); [|exists msg, w; split; [done|apply moves_refl]]. unfold nextPrivateMessageIndex.
    pose proof (collect_moves (pm_From msg) (pm_To msg) w) as H.
    destruct (collectPrivateMessages adapter _ _ w) as [l w']. by eexists _, w'. }
  destruct Hm as (m & w' & -> & Hm). eapply moves_trans; [exact Hm|].
  apply (frame_bind cache_placed own (save privatechat_ns _ m)); frame_steps.
Qed.
Hint Resolve SavePrivateMessage_frame : frames.
Lemma private_frame pin : frame (private_dispatchPin adapter pin).
Proof.
  unfold private_dispatchPin, handlePrivateChat, handlePrivateBlock. cbv zeta. frame_steps.
  intros w. pose proof (identityAliases_moves (sm_To a) w) as H. by destruct (identityAliases adapter (sm_To a) w).
Qed.
End Private.

(** * An aggregator in the node is what it is alone

    Over every sequence of block and mempool pins, the node's records and pending
    notifications of group chats, its published contents and its services and ratings
    are the ones each aggregator computes alone from the same pins; so the theorems
    about an aggregator alone hold of the node. *)

Section Facts.
Context {L : LRU} {St : Type} {KV : KVOps St} {KVS : KVStore St} {UP : URLParse} {J : JSON UserProfile} {B58 : Base58}.
Context {GJ : GroupChatJSON} {F : FmtV} {MO : MapOrder} {PRJ : PrivateChatJSON} {SJ : SkillJSON} {PJ : PublishedJSON}.
Context {S2 : Type} {KV2 : KVOps S2} {KVS2 : KVStore S2}.
Variable ui : UserInfo.Aggregator.

Definition skill_namespaces : list string := [NamespaceService; NamespaceRate].
(** Those of the aggregators and that of the scan heights. *)
Definition node_namespaces : list string :=
  user_namespaces ++ [namespace; privatechat_ns; published_ns] ++ skill_namespaces ++ ["indexer_meta"].
Definition node_ok (n : Node St) : Prop :=
  cache_placed (nd_provider n) /\ forall ns, ns ∈ node_namespaces -> kv_ok (nd_provider n) ns = true.
(** [n'] is [n] with the namespaces [own] changed at most. *)
Definition node_moves (own : list string) (n n' : Node St) : Prop :=
  moves cache_placed own (nd_provider n) (nd_provider n').

Lemma node_moves_ok own n n' : own ⊆ node_namespaces -> node_moves own n n' -> node_ok n ->
  node_ok n' /\ forall ns, ns ∉ own -> kept ns (nd_provider n) (nd_provider n').
Proof.
  intros Hsub Hm [Hp Hk]. destruct (Hm Hp) as (Hp' & Hkept & Hok).
  { intros ns Hns. by apply Hk, Hsub. }
  split; [|done]. split; [done|]. intros ns Hns. rewrite Hok. by apply Hk.
Qed.
(** A part of the store that agrees goes on agreeing when others are changed. *)
Lemma agree_kept (own own' : list string) (n n' : Node St) (s : S2) :
  (forall ns, ns ∈ own -> ns ∉ own') ->
  (forall ns, ns ∉ own' -> kept ns (nd_provider n) (nd_provider n')) ->
  agree own [] (nd_provider n) s -> agree own [] (nd_provider n') s.
Proof.
  intros Hd Hk H ns Hns. destruct (H ns Hns) as (A1 & A2 & Av & _).
  destruct (Hk ns (Hd ns Hns)) as [Kv Ko]. split_and!; [congruence|done|congruence|].
  intros Hin. by apply not_elem_of_nil in Hin.
Qed.

(** ** The steps *)

(** The state that the handler of [a] leaves. *)
Definition handle (x : routed) (a : AggregatorI (Node St)) (n : Node St) : Node St :=
  match x with
  | BlockPin pin => (agg_HandleBlockPin a pin n).2
  | MempoolPin pin => (agg_HandleMempoolPin a pin n).2
  end.
Lemma deliver_handles x l n : (deliver (mkRegistry l) x n).2 = foldl (fun n a => handle x a n) n l.
Proof.
  assert (H : forall h pin l n, (route h pin l n).2 = foldl (fun n (a : AggregatorI (Node St)) => (h a pin n).2) n l).
  { intros h pin. induction l0 as [|a l0 IH]; intros n0; [done|]. cbn [route foldl].
    destruct (h a pin n0) as [r n1]. cbn [snd]. rewrite <- IH. by destruct (route h pin l0 n1). }
  destruct x as [pin|pin]; apply H.
Qed.
Lemma userinfo_moves x n : node_moves user_namespaces n (handle x userinfo_aggregator n).
Proof.
  destruct x as [pin|pin]; [|apply moves_refl]. cbn. unfold node_moves, on_provider.
  pose proof (elsewhere_frame _ (elsewhere_HandleBlockPin pin) (nd_provider n)) as H.
  by destruct (UserInfo.HandleBlockPin pin (nd_provider n)).
Qed.
Lemma private_moves pin n :
  node_moves (privatechat_ns :: user_namespaces) n (on_private ui pin n).2
  /\ nd_groupCh (on_private ui pin n).2 = nd_groupCh n.
Proof.
  unfold node_moves, on_private, private_HandlePin. cbn [pv_store pv_notifyCh].
  pose proof (private_frame ui pin (nd_provider n)) as H. destruct (private_dispatchPin _ pin _) as [r w].
  destruct r as [[e|]|e]; cbn; [|done..]. unfold private_send. by case_match.
Qed.

Lemma group_sim x n (m : Module (St := S2)) :
  agree [namespace] [] (nd_provider n) (md_store m) -> nd_groupCh n = md_notifyCh m ->
  let n' := handle x groupchat_aggregator n in
  let m' := run_group [x] m in
  node_moves [namespace] n n' /\ agree [namespace] [] (nd_provider n') (md_store m') /\ nd_groupCh n' = md_notifyCh m'.
Proof.
  intros Ha Hc. assert (Hboth : forall pin,
    let n' := (on_group (GroupChat.HandleBlockPin pin) n).2 in let m' := (GroupChat.HandleBlockPin pin m).2 in
    node_moves [namespace] n n' /\ agree [namespace] [] (nd_provider n') (md_store m')
    /\ nd_groupCh n' = md_notifyCh m').
  { intros pin. unfold node_moves, on_group, GroupChat.HandleBlockPin. cbn [md_store md_notifyCh].
    pose proof (dispatchPin_frame cache_placed pin (nd_provider n)) as Hm.
    pose proof (dispatchPin_same pin _ _ Ha) as [Er Ha'].
    destruct (dispatchPin pin (nd_provider n)) as [r w], (dispatchPin pin (md_store m)) as [r' s].
    cbn [fst snd] in *. subst r'. destruct r as [[e|]|e]; cbn; [|by rewrite Hc..].
    unfold sendNotifyEvent. cbn [md_store md_notifyCh]. rewrite Hc. by case_match. }
  destruct x as [pin|pin]; apply (Hboth pin).
Qed.
Lemma published_sim x n (s : S2) :
  agree [published_ns] [] (nd_provider n) s ->
  let n' := handle x publishedcontent_aggregator n in
  node_moves [published_ns] n n' /\ agree [published_ns] [] (nd_provider n') (run_published [x] s)
  /\ nd_groupCh n' = nd_groupCh n.
Proof.
  intros Ha. assert (Hboth : forall pin b,
    let n' := (on_provider (hbind (PublishedContent.processPin pin b) (fun _ => hret (A := option NotifyEvent) None)) n).2 in
    node_moves [published_ns] n n'
    /\ agree [published_ns] [] (nd_provider n') (hbind (PublishedContent.processPin pin b) (fun _ => hret (A := option NotifyEvent) None) s).2
    /\ nd_groupCh n' = nd_groupCh n).
  { intros pin b. unfold node_moves, on_provider.
    pose proof (published_frame cache_placed pin b (nd_provider n)) as Hm.
    pose proof (published_same pin b _ _ Ha) as [Er Ha']. unfold hbind.
    destruct (PublishedContent.processPin pin b (nd_provider n)) as [r w], (PublishedContent.processPin pin b s) as [r' s'].
    cbn [fst snd] in *. subst r'. by destruct r. }
  destruct x as [pin|pin]; apply Hboth.
Qed.
Lemma skill_sim pin n (s : S2) :
  agree skill_namespaces [] (nd_provider n) s ->
  let n' := (on_skill ui pin n).2 in
  node_moves skill_namespaces n n'
  /\ agree skill_namespaces [] (nd_provider n') (SkillService.HandleBlockPin (Some (answers ui n)) pin s).2
  /\ nd_groupCh n' = nd_groupCh n.
Proof.
  intros Ha. cbv zeta. unfold node_moves, on_skill, on_provider, SkillService.HandleBlockPin.
  set (lookup := Some (answers ui n)).
  pose proof (skill_frame lookup cache_placed pin (nd_provider n)) as Hm.
  pose proof (skill_same lookup pin _ _ Ha) as [Er Ha']. unfold hbind.
  destruct (SkillService.processPin lookup pin (nd_provider n)) as [r w], (SkillService.processPin lookup pin s) as [r' s'].
  cbn [fst snd] in *. subst r'. by destruct r.
Qed.
(** ** The simulation *)

(** The node and the three aggregators alone, each on a store of its own. *)
Record sim (n : Node St) (m : Module (St := S2)) (p s : S2) : Prop := {
  sim_ok : node_ok n;
  sim_group : agree [namespace] [] (nd_provider n) (md_store m);
  sim_events : nd_groupCh n = md_notifyCh m;
  sim_published : agree [published_ns] [] (nd_provider n) p;
  sim_skill : agree skill_namespaces [] (nd_provider n) s }.
Lemma own_disjoint (l l' : list string) :
  forallb (fun ns => negb (bool_decide (ns ∈ l'))) l = true -> forall ns, ns ∈ l -> ns ∉ l'.
Proof. intros H ns Hns. pose proof (check_all _ l H ns Hns) as E. by apply negb_true_iff, bool_decide_eq_false in E. Qed.
Lemma own_included (l : list string) :
  forallb (fun ns => bool_decide (ns ∈ node_namespaces)) l = true -> l ⊆ node_namespaces.
Proof. intros H ns Hns. pose proof (check_all _ l H ns Hns) as E. by apply bool_decide_eq_true in E. Qed.
(** An aggregator that owns none of the three leaves the simulation alone. *)
Lemma sim_other own n n' m p s :
  own ⊆ node_namespaces -> (forall ns, ns ∈ [namespace; published_ns] ++ skill_namespaces -> ns ∉ own) ->
  node_moves own n n' -> nd_groupCh n' = nd_groupCh n -> sim n m p s -> sim n' m p s.
Proof.
  intros Hown Hd Hm He [H1 H2 H3 H4 H5]. destruct (node_moves_ok own n n' Hown Hm H1) as [H1' Hk].
  split; [done| |congruence| |]; (eapply agree_kept; [|exact Hk|done]); intros ns Hns; apply Hd.
  - apply elem_of_app. left. apply list_elem_of_singleton in Hns as ->. in_list.
  - apply elem_of_app. left. apply list_elem_of_singleton in Hns as ->. in_list.
  - apply elem_of_app. by right.
Qed.
Ltac own_check := first [apply own_included|apply own_disjoint]; reflexivity.

Lemma sim_group_step x n m p s : sim n m p s -> sim (handle x groupchat_aggregator n) (run_group [x] m) p s.
Proof.
  intros [H1 H2 H3 H4 H5]. destruct (group_sim x n m H2 H3) as (Hm & Ha & Hc).
  destruct (node_moves_ok [namespace] n _ ltac:(own_check) Hm H1) as [H1' Hk].
  split; [done..| |]; (eapply agree_kept; [|exact Hk|done]); own_check.
Qed.
Lemma sim_published_step x n m p s :
  sim n m p s -> sim (handle x publishedcontent_aggregator n) m (run_published [x] p) s.
Proof.
  intros [H1 H2 H3 H4 H5]. destruct (published_sim x n p H4) as (Hm & Ha & Hc).
  destruct (node_moves_ok [published_ns] n _ ltac:(own_check) Hm H1) as [H1' Hk].
  split; [done| |by rewrite Hc|done|]; (eapply agree_kept; [|exact Hk|done]); own_check.
Qed.
Lemma sim_skill_step x n m p s :
  sim n m p s ->
  sim (handle x (skillservice_aggregator ui) n) m p (run_skill [(Some (answers ui n), x)] s).
Proof.
  intros [H1 H2 H3 H4 H5].
  assert (Hboth : forall pin, sim (on_skill ui pin n).2 m p
    (SkillService.HandleBlockPin (Some (answers ui n)) pin s).2); [|destruct x; apply Hboth].
  intros pin. destruct (skill_sim pin n s H5) as (Hm & Ha & Hc).
  destruct (node_moves_ok skill_namespaces n _ ltac:(own_check) Hm H1) as [H1' Hk].
  split; [done| |by rewrite Hc| |done]; (eapply agree_kept; [|exact Hk|done]); own_check.
Qed.
(** One pin through the seven aggregators. *)
Lemma sim_deliver x n m p s :
  sim n m p s -> exists lookup,
  sim (deliver (mkRegistry (node_aggregators ui)) x n).2 (run_group [x] m) (run_published [x] p)
    (run_skill [(lookup, x)] s).
Proof.
  intros H. rewrite deliver_handles. unfold node_aggregators. cbn [foldl].
  assert (E : forall name init n, handle x (mkAggregator name init no_pins no_pins) n = n) by (by destruct x).
  unfold notify_aggregator, bothomepage_aggregator. rewrite !E.
  assert (Hu : nd_groupCh (handle x userinfo_aggregator n) = nd_groupCh n).
  { destruct x as [pin|pin]; [|done]. cbn. unfold on_provider. by destruct (UserInfo.HandleBlockPin _ _). }
  apply (sim_other user_namespaces _ (handle x userinfo_aggregator n)) in H;
    [|own_check|own_check|apply userinfo_moves|exact Hu].
  apply (sim_group_step x) in H. set (n2 := handle x groupchat_aggregator _) in *.
  assert (Hp : forall x, node_moves (privatechat_ns :: user_namespaces) n2 (handle x (privatechat_aggregator ui) n2)
                         /\ nd_groupCh (handle x (privatechat_aggregator ui) n2) = nd_groupCh n2).
  { intros [pin|pin]; apply private_moves. }
  apply (sim_other (privatechat_ns :: user_namespaces) _ (handle x (privatechat_aggregator ui) n2)) in H;
    [|own_check|own_check|apply Hp|apply Hp].
  apply (sim_skill_step x) in H. apply (sim_published_step x) in H. eexists. exact H.
Qed.

(** ** Start-up *)

Lemma Namespace_store name maxEntries ttl (w : CacheProvider St) : cp_store (Namespace name maxEntries ttl w) = cp_store w.
Proof. unfold Namespace. by destruct (cp_namespaces w !! name). Qed.
Lemma Namespace_placed name maxEntries ttl (w : CacheProvider St) :
  cache_placed w -> cache_placed (Namespace name maxEntries ttl w).
Proof.
  unfold cache_placed, Namespace, ns_of. destruct (cp_namespaces w !! name) eqn:E; [done|]. cbn [cp_namespaces].
  rewrite lookup_insert. case_decide as Hd; [by subst|done].
Qed.
Lemma start_node_registry (store : St) : (start_node ui store).1 = mkRegistry (node_aggregators ui).
Proof. reflexivity. Qed.
Lemma start_node_state (store : St) :
  cp_store (nd_provider (start_node ui store).2) = store /\ cache_placed (nd_provider (start_node ui store).2)
  /\ nd_groupCh (start_node ui store).2 = [].
Proof.
  split_and!; [|repeat apply Namespace_placed|reflexivity].
  - do 7 (etransitivity; [apply Namespace_store|]). reflexivity.
  - reflexivity.
Qed.
Lemma start_sim (store : St) m p s :
  (forall ns, ns ∈ node_namespaces -> kv_ok store ns = true) ->
  agree [namespace] [] store (md_store m) -> md_notifyCh m = [] ->
  agree [published_ns] [] store p -> agree skill_namespaces [] store s ->
  sim (start_node ui store).2 m p s.
Proof.
  intros Hok Hg He Hp Hs. destruct (start_node_state store) as (Est & Hpl & Ech).
  set (n := (start_node ui store).2) in *.
  assert (Hv : forall own (s2 : S2), agree own [] store s2 -> agree own [] (nd_provider n) s2).
  { intros own s2 H ns Hns. destruct (H ns Hns) as (A1 & A2 & Av & _).
    change (kv_ok (cp_store (nd_provider n)) ns = true /\ kv_ok s2 ns = true
            /\ kv_view (cp_store (nd_provider n)) ns = kv_view s2 ns
            /\ (ns ∈ [] -> kv_is_open (cp_store (nd_provider n)) ns = true /\ kv_is_open s2 ns = true)).
    rewrite Est. split_and!; [done..|].
    intros Hin. by apply not_elem_of_nil in Hin. }
  split; [|by apply Hv|by rewrite Ech, He|by apply Hv|by apply Hv].
  split; [done|]. intros ns Hns. change (kv_ok (cp_store (nd_provider n)) ns = true). rewrite Est. by apply Hok.
Qed.
Lemma sim_run xs n m p s :
  sim n m p s -> exists lookups, length lookups = length xs
  /\ sim (run_node (mkRegistry (node_aggregators ui)) xs n) (run_group xs m) (run_published xs p)
       (run_skill (zip lookups xs) s).
Proof.
  revert n m p s. induction xs as [|x xs IH]; intros n m p s H; [by exists []|].
  apply (sim_deliver x) in H as [lookup H]. apply IH in H as (lookups & Hl & H).
  exists (lookup :: lookups). split; [cbn; by rewrite Hl|exact H].
Qed.

Lemma sim_views n m p s :
  sim n m p s ->
  kv_view (nd_provider n) namespace = kv_view (md_store m) namespace /\ nd_groupCh n = md_notifyCh m
  /\ kv_view (nd_provider n) published_ns = kv_view p published_ns
  /\ forall ns, ns ∈ skill_namespaces -> kv_view (nd_provider n) ns = kv_view s ns.
Proof.
  intros [_ Ag Ev Ap As]. split_and!; [|done| |].
  - by destruct (Ag namespace ltac:(in_list)) as (_ & _ & ? & _).
  - by destruct (Ap published_ns ltac:(in_list)) as (_ & _ & ? & _).
  - intros ns Hns. by destruct (As ns Hns) as (_ & _ & ? & _).
Qed.

(** C9: A node that starts on a store and routes any sequence of block and mempool pins
    through its registry of seven aggregators holds, in the namespace of group chats and
    in their notify channel, exactly what the group chat aggregator alone makes of the
    same pins on a store of any kind that starts with the same records; so for published
    contents, and, given the answers of the profile lookups, for services and ratings. *)
Theorem node_refines_aggregators xs (store : St) m p s :
  (forall ns, ns ∈ node_namespaces -> kv_ok store ns = true) ->
  agree [namespace] [] store (md_store m) -> md_notifyCh m = [] ->
  agree [published_ns] [] store p -> agree skill_namespaces [] store s ->
  let '(r, n0) := start_node ui store in let n := run_node r xs n0 in
  kv_view (nd_provider n) namespace = kv_view (md_store (run_group xs m)) namespace
  /\ nd_groupCh n = md_notifyCh (run_group xs m)
  /\ kv_view (nd_provider n) published_ns = kv_view (run_published xs p) published_ns
  /\ exists lookups, length lookups = length xs /\ forall ns, ns ∈ skill_namespaces ->
       kv_view (nd_provider n) ns = kv_view (run_skill (zip lookups xs) s) ns.
Proof.
  intros Hok Hg He Hp Hs. pose proof (start_sim store m p s Hok Hg He Hp Hs) as H.
  pose proof (start_node_registry store) as Er. destruct (start_node ui store) as [r n0]. cbn [fst snd] in *. subst r.
  destruct (sim_run xs n0 m p s H) as (lookups & Hl & Hsim).
  destruct (sim_views _ _ _ _ Hsim) as (V1 & V2 & V3 & V4). split_and!; [done..|]. by exists lookups.
Qed.
End Facts.

(** * The scan engine over the seven aggregators

    The engine changes the node only by routing pins through the registry and by
    recording scan heights in a namespace of its own.  So a run of the engine, however
    its passes and polls interleave, is a sequence of routed pins: what the aggregators
    hold at its end is what each makes alone of that sequence, and the block pins of the
    sequence are those of the blocks in the log. *)

(** The block pins among routed pins, and the pins of the blocks in a log. *)
Definition block_part (xs : list routed) : list PinInscription :=
  omap (fun x => match x with BlockPin pin => Some pin | MempoolPin _ => None end) xs.
Definition scan_pins (ls : list scan_log) : list PinInscription :=
  mjoin (map (fun x => match x with LogBlock _ pins => pins | LogError _ => [] end) ls).
Definition logged_pins (l : list (string * list scan_log)) : list PinInscription := mjoin (map (fun e => scan_pins e.2) l).

Lemma block_part_app xs ys : block_part (xs ++ ys) = block_part xs ++ block_part ys.
Proof. apply omap_app. Qed.
Lemma block_part_blocks pins : block_part (map BlockPin pins) = pins.
Proof. induction pins as [|p pins IH]; [done|]. cbn. f_equal. exact IH. Qed.
Lemma block_part_mempool pins : block_part (map MempoolPin pins) = [].
Proof. by induction pins. Qed.
Lemma logged_pins_app l1 l2 : logged_pins (l1 ++ l2) = logged_pins l1 ++ logged_pins l2.
Proof. unfold logged_pins. by rewrite map_app, join_app. Qed.

Lemma route_pins_cons {St X} (r : Registry (St * X)) pin pins w :
  (route_pins r (pin :: pins) w).2 = (route_pins r pins (RouteBlockPin r pin w).2).2.
Proof.
  cbn [route_pins]. destruct (RouteBlockPin r pin w) as [evt w1]. cbn [snd]. by destruct (route_pins r pins w1).
Qed.

Section Runs.
Context {L : LRU} {St : Type} {KV : KVOps St} {KVS : KVStore St} {UP : URLParse} {J : JSON UserProfile} {B58 : Base58}.
Context {GJ : GroupChatJSON} {F : FmtV} {MO : MapOrder} {PRJ : PrivateChatJSON} {SJ : SkillJSON} {PJ : PublishedJSON}.
Context {S2 : Type} {KV2 : KVOps S2} {KVS2 : KVStore S2}.
Variable ui : UserInfo.Aggregator.
#[local] Abbreviation Eng := (Engine (CacheProvider St) (list NotifyEvent * list NotifyEvent)).
#[local] Abbreviation node_registry := (mkRegistry (node_aggregators (St := St) ui)).

(** The node went from [n] to [n'] by pins routed through its registry, of which the
    block pins are [pins]. *)
Definition follows (n : Node St) (pins : list PinInscription) (n' : Node St) : Prop :=
  exists xs, block_part xs = pins /\ forall (m : Module (St := S2)) p s, sim n m p s ->
    exists lookups, length lookups = length xs
    /\ sim n' (run_group xs m) (run_published xs p) (run_skill (zip lookups xs) s).

Lemma follows_silent n n' : (forall (m : Module (St := S2)) p s, sim n m p s -> sim n' m p s) -> follows n [] n'.
Proof. intros H. exists []. split; [done|]. intros m p s Hs. exists []. split; [done|]. by apply H. Qed.
Lemma follows_refl n : follows n [] n.
Proof. by apply follows_silent. Qed.
Lemma follows_trans n1 n2 n3 pins1 pins2 :
  follows n1 pins1 n2 -> follows n2 pins2 n3 -> follows n1 (pins1 ++ pins2) n3.
Proof.
  intros (xs & <- & H1) (ys & <- & H2). exists (xs ++ ys). split; [apply block_part_app|].
  intros m p s Hs. destruct (H1 m p s Hs) as (l1 & E1 & Hs1). destruct (H2 _ _ _ Hs1) as (l2 & E2 & Hs2).
  exists (l1 ++ l2). split; [by rewrite !length_app, E1, E2|]. rewrite zip_with_app by done.
  unfold run_group, run_published, run_skill in *. by rewrite !foldl_app.
Qed.
Lemma follows_deliver x n : follows n (block_part [x]) (deliver node_registry x n).2.
Proof.
  exists [x]. split; [done|]. intros m p s H. apply (sim_deliver ui x) in H as [lookup H].
  by exists [lookup].
Qed.
Lemma follows_route pins n : follows n pins (route_pins node_registry pins n).2.
Proof.
  revert n. induction pins as [|pin pins IH]; intros n; [apply follows_refl|]. rewrite route_pins_cons.
  exact (follows_trans _ _ _ [pin] pins (follows_deliver (BlockPin pin) n) (IH _)).
Qed.
Lemma follows_mempool pins n : follows n [] (route_mempool node_registry pins n).
Proof.
  revert n. induction pins as [|pin pins IH]; intros n; [apply follows_refl|].
  exact (follows_trans _ _ _ [] [] (follows_deliver (MempoolPin pin) n) (IH _)).
Qed.
(** The heights are in no aggregator's namespace. *)
Lemma persistHeight_moves name h (n : Node St) : node_moves ["indexer_meta"] n (persistHeight name h n).
Proof.
  unfold node_moves, persistHeight. destruct (kv_Set n.1 "indexer_meta" (height_key name) (fmt_d h)) as [s'|e] eqn:E;
    [|apply moves_refl].
  intros HI HO. destruct (kv_Set_ok n.1 "indexer_meta" (height_key name) (fmt_d h)) as (s'' & E' & Hu & _);
    [by apply HO; left|]. rewrite E in E'. injection E' as <-. revert HI HO. change (moves cache_placed ["indexer_meta"] n.1 s').
  eapply (moves_update cache_placed ["indexer_meta"] n.1 "indexer_meta" _ s'); [by left| |exact Hu].
  intros HI. by eapply (si_Set (I := cache_placed)).
Qed.
Lemma follows_height name h n : follows n [] (persistHeight name h n).
Proof.
  apply follows_silent. intros m p s H. eapply (sim_other ["indexer_meta"]); [by apply own_included|by apply own_disjoint| | |exact H].
  - apply persistHeight_moves.
  - unfold persistHeight. by destruct (kv_Set n.1 _ _ _).
Qed.

(** ** Passes and polls *)

Definition round_follows {Tx} (f : string -> ChainEnv Tx -> Eng -> Node St -> list scan_log * Eng * Node St) : Prop :=
  forall name env e n ls e' n', en_registry e = node_registry -> f name env e n = (ls, e', n') ->
  en_registry e' = node_registry /\ follows n (scan_pins ls) n'.

Lemma scan_block_follows {Tx} name (env : ChainEnv Tx) h e n l e' n' :
  en_registry e = node_registry -> scan_block name env h e n = (l, e', n') ->
  en_registry e' = node_registry /\ follows n (scan_pins [l]) n'.
Proof.
  intros Hr E. unfold scan_block in E. destruct (ce_CatchPins env h) as [[pins txIDs]|err].
  - assert (Hf : follows n pins (persistHeight name h (route_pins node_registry pins n).2)).
    { rewrite <- (app_nil_r pins) at 1. exact (follows_trans _ _ _ pins [] (follows_route pins n) (follows_height name h _)). }
    assert (El : scan_pins [LogBlock h pins] = pins) by apply app_nil_r.
    destruct pins as [|pin pins]; [injection E as <- <- <-; by rewrite El|].
    rewrite Hr in E. destruct (route_pins node_registry (pin :: pins) n) as [events n1].
    replace (if (0 <? length txIDs)%nat then processTransfers name txIDs n1 else n1) with n1 in E by by case_match.
    injection E as <- <- <-. by rewrite El.
  - injection E as <- <- <-. split; [done|apply follows_refl].
Qed.
Lemma scan_loop_follows {Tx} k name (env : ChainEnv Tx) h e n ls e' n' :
  en_registry e = node_registry -> scan_loop k name env h e n = (ls, e', n') ->
  en_registry e' = node_registry /\ follows n (scan_pins ls) n'.
Proof.
  revert h e n ls. induction k as [|k IH]; intros h e n ls Hr E; cbn [scan_loop] in E.
  { injection E as <- <- <-. split; [done|apply follows_refl]. }
  destruct (scan_block name env h e n) as [[l e1] n1] eqn:E1.
  destruct (scan_loop k name env (h + 1) e1 n1) as [[ls1 e2] n2] eqn:E2. injection E as <- <- <-.
  apply scan_block_follows in E1 as [Hr1 F1]; [|done]. apply IH in E2 as [Hr2 F2]; [|done]. split; [done|].
  change (l :: ls1) with ([l] ++ ls1). unfold scan_pins in *. rewrite map_app, join_app.
  exact (follows_trans _ _ _ _ _ F1 F2).
Qed.
Lemma catchUp_follows {Tx} : round_follows (catchUp (Tx := Tx)).
Proof.
  intros name env e n ls e' n' Hr E. unfold catchUp in E. case_match; [|by apply scan_loop_follows in E].
  injection E as <- <- <-. split; [done|apply follows_refl].
Qed.
Lemma scanNew_follows {Tx} : round_follows (scanNew (Tx := Tx)).
Proof.
  intros name env e n ls e' n' Hr E. unfold scanNew in E. case_match; [by apply scan_loop_follows in E|].
  injection E as <- <- <-. split; [done|apply follows_refl].
Qed.
Lemma for_chains_follows {Tx} (f : string -> ChainEnv Tx -> _) names envs e n l e' n' :
  round_follows f -> en_registry e = node_registry -> for_chains f names envs e n = (l, e', n') ->
  en_registry e' = node_registry /\ follows n (logged_pins l) n'.
Proof.
  intros Hf. revert e n l. induction names as [|name names IH]; intros e n l Hr E; cbn [for_chains] in E.
  { injection E as <- <- <-. split; [done|apply follows_refl]. }
  destruct (f name (envs name) e n) as [[ls e1] n1] eqn:E1.
  destruct (for_chains f names envs e1 n1) as [[l1 e2] n2] eqn:E2. injection E as <- <- <-.
  apply Hf in E1 as [Hr1 F1]; [|done]. apply IH in E2 as [Hr2 F2]; [|done]. split; [done|].
  exact (follows_trans _ _ _ _ _ F1 F2).
Qed.
Lemma poll_chains_follows {Tx} names (envs : string -> ChainEnv Tx) now e n :
  en_registry e = node_registry ->
  let '(e', n') := poll_chains names envs now e n in en_registry e' = node_registry /\ follows n [] n'.
Proof.
  revert e n. induction names as [|name names IH]; intros e n Hr; cbn [poll_chains]; [split; [done|apply follows_refl]|].
  assert (Hp : let '(e1, n1) := poll_chain name (envs name) now e n in
               en_registry e1 = node_registry /\ follows n [] n1).
  { unfold poll_chain. repeat case_match; simplify_eq; try (split; [done|apply follows_refl]).
    rewrite Hr. split; [done|apply follows_mempool]. }
  destruct (poll_chain name (envs name) now e n) as [e1 n1]. destruct Hp as [Hr1 F1]. specialize (IH e1 n1 Hr1).
  destruct (poll_chains names envs now e1 n1) as [e2 n2]. destruct IH as [Hr2 F2]. split; [done|].
  exact (follows_trans _ _ _ [] [] F1 F2).
Qed.
Lemma engine_step_follows (c c' : conf) l :
  engine_step c l c' -> en_registry c.1 = node_registry ->
  en_registry c'.1 = node_registry /\ follows c.2 (logged_pins l) c'.2.
Proof.
  intros Hst Hr. inversion Hst as [Tx envs e w l0 e' w' _ E|Tx envs e w l0 e' w' _ E|Tx envs now e w|]; subst; cbn [fst snd] in *.
  - eapply for_chains_follows; [apply catchUp_follows|done|exact E].
  - eapply for_chains_follows; [apply scanNew_follows|done|exact E].
  - pose proof (poll_chains_follows (map_range (en_chains e)).*1 envs now e w Hr) as H.
    unfold pollMempoolOnce. by destruct (poll_chains _ envs now e w).
  - split; [done|apply follows_refl].
Qed.
Lemma engine_steps_follows (c c' : conf) l :
  engine_steps c l c' -> en_registry c.1 = node_registry -> follows c.2 (logged_pins l) c'.2.
Proof.
  induction 1 as [c|c1 l c2 ls c3 H1 _ IH]; intros Hr; [apply follows_refl|].
  apply engine_step_follows in H1 as [Hr2 F1]; [|done]. rewrite logged_pins_app.
  exact (follows_trans _ _ _ _ _ F1 (IH Hr2)).
Qed.

(** Let an engine with the node's registry, for any chains, run from the start of the
    node: however its catch-up and scan passes, its mempool polls and the answers of the
    chains' nodes interleave, the run is a sequence of routed pins whose block pins are,
    in order, the pins of the blocks that the log reports scanned; and at its end the
    node's chat groups and their notify channel, its published contents, its services and
    ratings are what each of these aggregators makes of that sequence alone, on a store
    of its own. *)
Theorem engine_drives_aggregators (e e' : Eng) l (store : St) (n' : Node St) (m : Module (St := S2)) p s :
  (forall ns, ns ∈ node_namespaces -> kv_ok store ns = true) ->
  agree [namespace] [] store (md_store m) -> md_notifyCh m = [] ->
  agree [published_ns] [] store p -> agree skill_namespaces [] store s ->
  en_registry e = (start_node ui store).1 -> engine_steps (e, (start_node ui store).2) l (e', n') ->
  exists xs, block_part xs = logged_pins l
  /\ kv_view (nd_provider n') namespace = kv_view (md_store (run_group xs m)) namespace
  /\ nd_groupCh n' = md_notifyCh (run_group xs m)
  /\ kv_view (nd_provider n') published_ns = kv_view (run_published xs p) published_ns
  /\ exists lookups, length lookups = length xs /\ forall ns, ns ∈ skill_namespaces ->
       kv_view (nd_provider n') ns = kv_view (run_skill (zip lookups xs) s) ns.
Proof.
  intros Hok Hg He Hp Hs Hr Hrun. pose proof (start_sim ui store m p s Hok Hg He Hp Hs) as H.
  rewrite (start_node_registry ui store) in Hr. apply engine_steps_follows in Hrun as (xs & Ex & Hf); [|exact Hr].
  destruct (Hf m p s H) as (lookups & Hl & Hsim). exists xs. split; [exact Ex|].
  destruct (sim_views _ _ _ _ Hsim) as (V1 & V2 & V3 & V4). split_and!; [done..|]. by exists lookups.
Qed.
End Runs.

(** * The node on concrete pins *)


#[local] Existing Instance list_LRU.
#[local] Existing Instance profile_JSON.
#[local] Existing Instance no_urls.
#[local] Existing Instance toy_Base58.
#[local] Existing Instance sample_ops_inst.
#[local] Existing Instance sample_store_inst.
#[local] Existing Instance GroupChatFacts.sample_JSON.
#[local] Existing Instance sample_fmt.
#[local] Existing Instance some_order.
#[local] Existing Instance private_JSON.
#[local] Existing Instance sample_SkillJSON.
#[local] Existing Instance sample_PublishedJSON.

(** A chat message seen twice, a profile, a private message, a post, a service and its
    rating. *)
Definition day : list routed :=
  [MempoolPin (chat_pin "t1i0" "ann" "hi" 5); BlockPin (info_pin "ann" "/info/name" "Ann" "p1i0");
   BlockPin (msg_pin "ann" "m1:i0" "" "bob" "psst" 6); BlockPin (chat_pin "t1i0" "ann" "hi" 5); MempoolPin post;
   BlockPin offer; BlockPin post; BlockPin praise; BlockPin (chat_pin "t2i0" "bob" "hello" 9)].
Definition node_after : Node sample_store :=
  let '(r, n) := start_node local_only empty_store in run_node r day n.
Lemma store_is_ok ns : kv_ok empty_store ns = true.
Proof. reflexivity. Qed.
Lemma empty_agrees own : agree (S1 := sample_store) own [] empty_store empty_store.
Proof. intros ns _. split_and!; [apply store_is_ok..|done|]. intros H. by apply not_elem_of_nil in H. Qed.

Example node_messages :
  (map cm_Content (collectGroupMessages "G" (nd_provider node_after)), length (nd_groupCh node_after),
   length (nd_privateCh node_after), option_map Name (stored_profile "ann" (nd_provider node_after)))
  = (["hi"; "hello"], 3%nat, 1%nat, Some "Ann").
Proof. vm_compute. reflexivity. Qed.

Lemma node_refines_aggregators_witness :
  kv_view (nd_provider node_after) namespace
  = kv_view (md_store (run_group day (mkModule empty_store []))) namespace
  /\ nd_groupCh node_after = md_notifyCh (run_group day (mkModule empty_store []))
  /\ kv_view (nd_provider node_after) published_ns = kv_view (run_published day empty_store) published_ns.
Proof.
  pose proof (node_refines_aggregators local_only day empty_store (mkModule empty_store []) empty_store empty_store
    (fun ns _ => store_is_ok ns) (empty_agrees _) eq_refl (empty_agrees _) (empty_agrees _)) as H.
  unfold node_after. destruct (start_node local_only empty_store) as [r n0]. cbv zeta in H.
  destruct H as (H1 & H2 & H3 & _). by split_and!.
Defined.

(** ** An engine over the node

    One poll that sees a chat message, then two blocks: the message, and a profile with
    another message. *)

Definition two_blocks : ChainEnv string :=
  mkEnv None None 2 (Ok ["t1"])
    (fun h => Ok (if h =? 1 then [chat_pin "t1i0" "ann" "hi" 5]
                  else [info_pin "ann" "/info/name" "Ann" "p1i0"; chat_pin "t2i0" "bob" "hello" 9], []))
    (fun _ => Ok ([Some (chat_pin "t1i0" "ann" "hi" 5)], ["t1"])).
Definition node_engine : Engine (CacheProvider sample_store) (list NotifyEvent * list NotifyEvent) :=
  (RegisterChain "mvc" two_blocks 0 (NewEngine (start_node local_only empty_store).1)).2.
Definition polled := pollMempoolOnce (fun _ => two_blocks) 0 node_engine (start_node local_only empty_store).2.
Definition passed := scanNewBlocks (fun _ => two_blocks) polled.1 polled.2.
Example engine_messages :
  (map cm_Content (collectGroupMessages "G" (nd_provider passed.2)), length (nd_groupCh passed.2),
   lastHeight "mvc" passed.1.2, kv_view (nd_provider passed.2) "indexer_meta" !! "mvc_lastheight")
  = (["hi"; "hello"], 3%nat, 2, Some "2").
Proof. vm_compute. reflexivity. Qed.

Lemma node_engine_runs :
  engine_steps (node_engine, (start_node local_only empty_store).2) ([] ++ passed.1.1 ++ []) (passed.1.2, passed.2).
Proof.
  apply steps_cons with (c2 := (polled.1, polled.2)).
  { unfold polled. rewrite <- surjective_pairing. apply step_pollMempoolOnce. }
  apply steps_cons with (c2 := (passed.1.2, passed.2)); [|constructor].
  apply (step_scanNewBlocks string (fun _ => two_blocks)); [by intros ?|]. by rewrite <- !surjective_pairing.
Qed.
Lemma engine_drives_aggregators_witness :
  exists xs, block_part xs
    = [chat_pin "t1i0" "ann" "hi" 5; info_pin "ann" "/info/name" "Ann" "p1i0"; chat_pin "t2i0" "bob" "hello" 9]
  /\ kv_view (nd_provider passed.2) namespace = kv_view (md_store (run_group xs (mkModule empty_store []))) namespace.
Proof.
  destruct (engine_drives_aggregators local_only node_engine passed.1.2 ([] ++ passed.1.1 ++ []) empty_store passed.2
    (mkModule empty_store []) empty_store empty_store (fun ns _ => store_is_ok ns) (empty_agrees _) eq_refl (empty_agrees _)
    (empty_agrees _) eq_refl node_engine_runs) as (xs & Ex & Hv & _).
  exists xs. split; [|exact Hv]. rewrite Ex. vm_compute. reflexivity.
Defined.
