(* ===== verification/Router.v ===== *)
(** * Router: the HTTP routes of the node ([internal/api/router.go])

    Every route that [SetupRouter] registers, with the handler it leads to: the routes
    of the aggregators under /api and under the prefixes that older clients use, the
    socket and presence routes, the health check.  gin is third-party: the class [Gin]
    has the paths it makes of relative ones, and whether its tree takes a list of routes. *)

From S2P Require Import Prelude GoText Json Storage Aggregator Config HttpApi GroupChat GroupChatApi PrivateChat PrivateChatApi SocketProfile.

(** gin joins and cleans paths, and panics on a route that it has already. *)
Definition clean_path (p : string) : bool :=
  HasPrefix p "/" && negb (Contains p "//") && negb (Contains p "/.") && negb (HasSuffix p "/").
Definition route_key : Type := string * string.
Class Gin := {
  gin_path : string -> string;
  gin_accepts : list route_key -> bool;
  gin_path_clean p : clean_path p = true -> gin_path p = p;
  gin_no_duplicates l : gin_accepts l = true -> NoDup l }.

(** ** Handlers *)

Inductive handler :=
  | Health | SocketIO
  | OnlineStats | OnlineList_ | PresenceSnapshot | IdchatOnlineUsers | IdchatUserOnline
  | GroupEndpoint (e : endpoint) | PrivateEndpoint (e : private_endpoint)
  | GetBlockedChats_ | AddBlockedChat_ | RemoveBlockedChat_
  | AddressInfo | MetaIdInfo | GlobalMetaIdInfo
  | SkillList_ | SkillDetail | BotHomepage_.
#[export] Instance handler_eq : EqDecision handler.
Proof. unfold EqDecision, Decision. decide equality; decide equality. Defined.
Record route := mkRoute { rt_Method : string; rt_Path : string; rt_Handler : handler }.
Definition key (r : route) : route_key := (rt_Method r, rt_Path r).

(** [RegisterRoutes] of each aggregator on a group with a prefix; the published contents
    have no endpoint. *)
Definition get (path : string) (h : handler) : route := mkRoute "GET" path h.
Definition post (path : string) (h : handler) : route := mkRoute "POST" path h.
Definition under (prefix : string) : list route -> list route :=
  map (fun r => mkRoute (rt_Method r) (prefix +:+ rt_Path r) (rt_Handler r)).
Definition notify_routes : list route :=
  under "/push-base/v1/push"
    [get "/get_user_blocked_chats" GetBlockedChats_; post "/add_blocked_chat" AddBlockedChat_;
     post "/remove_blocked_chat" RemoveBlockedChat_].
Definition userinfo_routes : list route :=
  [get "/info/address/:address" AddressInfo; get "/info/metaid/:metaid" MetaIdInfo;
   get "/info/globalmetaid/:globalMetaId" GlobalMetaIdInfo].
Definition groupchat_routes : list route := map (fun r => get r.1 (GroupEndpoint r.2)) registerRoutes.
Definition privatechat_routes : list route := map (fun r => get r.1 (PrivateEndpoint r.2)) private_registerRoutes.
Definition skillservice_routes : list route :=
  under "/bot-hub/skill-service" [get "/list" SkillList_; get "/detail/:serviceId" SkillDetail].
Definition bothomepage_routes : list route := [get "/bot-homepage/globalmetaid/:globalMetaId" BotHomepage_].
Definition RegisterRoutes (name prefix : string) : list route :=
  under prefix
    (if String.eqb name "notify" then notify_routes else if String.eqb name "userinfo" then userinfo_routes
     else if String.eqb name "groupchat" then groupchat_routes
     else if String.eqb name "privatechat" then privatechat_routes
     else if String.eqb name "skillservice" then skillservice_routes
     else if String.eqb name "bothomepage" then bothomepage_routes else []).

(** ** The table *)

Definition any_methods : list string :=
  ["GET"; "POST"; "PUT"; "PATCH"; "HEAD"; "OPTIONS"; "DELETE"; "CONNECT"; "TRACE"].
Definition Any (path : string) (h : handler) : list route := map (fun m => mkRoute m path h) any_methods.
(** [RegisterPresenceRoutes]. *)
Definition RegisterPresenceRoutes (snapshotPath : string) : list route :=
  match presence_routes snapshotPath with
  | [stats; lst; snapshot] => [get stats OnlineStats; get lst OnlineList_; get snapshot PresenceSnapshot]
  | _ => []
  end.
(** [aggregators] are the names in the registry, [None] without a registry. *)
Definition SetupRouter (cfg : Config) (aggregators : option (list string)) (socketServer : bool) : list route :=
  let all := default [] aggregators in
  let these (P : string -> bool) (prefix : string) :=
    concat (map (fun name => RegisterRoutes name prefix) (List.filter P all)) in
  [get (cs_HealthPath (cfg_Service cfg)) Health]
  ++ (if socketServer then
        Any (so_PrimaryPath (cfg_Socket cfg) +:+ "/*any") SocketIO
        ++ Any (so_LegacyPath (cfg_Socket cfg) +:+ "/*any") SocketIO
        ++ RegisterPresenceRoutes (fc_PresencePath (cfg_Federation cfg))
        ++ [get "/chat-api/group-chat/socket/online-users" IdchatOnlineUsers;
            get "/chat-api/group-chat/socket/user-online" IdchatUserOnline;
            get "/chat-api/group-chat/socket/stats" OnlineStats]
      else [])
  ++ these (fun _ => true) "/api"
  ++ these (fun name => String.eqb name "groupchat" || String.eqb name "privatechat") "/chat-api"
  ++ these (fun name => String.eqb name "notify") ""
  ++ these (fun name => String.eqb name "userinfo") "/metafile-indexer/api".
Definition node_names : list string :=
  ["notify"; "userinfo"; "groupchat"; "privatechat"; "skillservice"; "publishedcontent"; "bothomepage"].

(** [corsMiddleware]: the headers of every answer, and the status that ends a preflight. *)
Definition cors_headers : list (string * string) :=
  [("Access-Control-Allow-Origin", "*"); ("Access-Control-Allow-Methods", "GET, POST, PUT, DELETE, OPTIONS");
   ("Access-Control-Allow-Headers", "Origin, Content-Type, Content-Length, Accept-Encoding, X-CSRF-Token, Authorization, AccessToken, X-API-KEY, X-Signature, X-Public-Key")].
Definition corsMiddleware (method : string) : list (string * string) * option Z :=
  (cors_headers, if String.eqb method "OPTIONS" then Some 204 else None).
Definition health_body (version : string) : response (list (string * string)) :=
  RespSuccess [("status", "ok"); ("service", "metaso-p2p"); ("version", version)].

(** ** No route twice *)

Section Facts.
Context {G : Gin}.
Definition keys (l : list route) : list route_key := map (fun r => (rt_Method r, gin_path (rt_Path r))) l.

(** What the configuration decides, and what it does not. *)
Definition configured (h p s l : string) : list route_key :=
  [("GET", h); ("GET", p)] ++ map (fun m => (m, s)) any_methods ++ map (fun m => (m, l)) any_methods.
Definition fixed_routes : list route :=
  [get "/socket/online/stats" OnlineStats; get "/socket/online/list" OnlineList_;
   get "/chat-api/group-chat/socket/online-users" IdchatOnlineUsers;
   get "/chat-api/group-chat/socket/user-online" IdchatUserOnline; get "/chat-api/group-chat/socket/stats" OnlineStats]
  ++ concat (map (fun name => RegisterRoutes name "/api") node_names)
  ++ RegisterRoutes "groupchat" "/chat-api" ++ RegisterRoutes "privatechat" "/chat-api"
  ++ RegisterRoutes "notify" "" ++ RegisterRoutes "userinfo" "/metafile-indexer/api".
Definition fixed_keys : list route_key := map key fixed_routes.

Lemma fixed_clean : keys fixed_routes = fixed_keys.
Proof.
  assert (H : Forall (fun r => clean_path (rt_Path r) = true) fixed_routes).
  { apply Forall_forall. intros r Hr. apply (check_all (fun r => clean_path (rt_Path r)) fixed_routes); [|done].
    vm_compute. reflexivity. }
  unfold keys, fixed_keys. induction H as [|r l Hr _ IH]; [done|]. cbn [map]. by rewrite IH, gin_path_clean.
Qed.
Lemma fixed_NoDup : NoDup fixed_keys.
Proof. apply (bool_decide_unpack _). vm_compute. exact I. Qed.

(** The four paths that the configuration of a full node decides, as gin has them. *)
Definition health_path (cfg : Config) : string := gin_path (cs_HealthPath (cfg_Service cfg)).
Definition presence_path (cfg : Config) : string :=
  gin_path (let p := fc_PresencePath (cfg_Federation cfg) in if is_empty p then "/.well-known/metaso-p2p/presence" else p).
Definition primary_path (cfg : Config) : string := gin_path (so_PrimaryPath (cfg_Socket cfg) +:+ "/*any").
Definition legacy_path (cfg : Config) : string := gin_path (so_LegacyPath (cfg_Socket cfg) +:+ "/*any").

Lemma table_keys cfg :
  Permutation (keys (SetupRouter cfg (Some node_names) true))
    (configured (health_path cfg) (presence_path cfg) (primary_path cfg) (legacy_path cfg) ++ fixed_keys).
Proof.
  rewrite <- fixed_clean. unfold SetupRouter, RegisterPresenceRoutes, presence_routes, presence_path, configured.
  set (pp := if is_empty _ then _ else _). unfold keys at 1.
  assert (E : fixed_routes = [get "/socket/online/stats" OnlineStats; get "/socket/online/list" OnlineList_]
     ++ [get "/chat-api/group-chat/socket/online-users" IdchatOnlineUsers;
         get "/chat-api/group-chat/socket/user-online" IdchatUserOnline; get "/chat-api/group-chat/socket/stats" OnlineStats]
     ++ concat (map (fun name => RegisterRoutes name "/api") (List.filter (fun _ => true) node_names))
     ++ concat (map (fun name => RegisterRoutes name "/chat-api")
          (List.filter (fun name => String.eqb name "groupchat" || String.eqb name "privatechat") node_names))
     ++ concat (map (fun name => RegisterRoutes name "") (List.filter (fun name => String.eqb name "notify") node_names))
     ++ concat (map (fun name => RegisterRoutes name "/metafile-indexer/api")
          (List.filter (fun name => String.eqb name "userinfo") node_names))) by reflexivity.
  rewrite E. unfold keys. change (default [] (Some node_names)) with node_names. cbv zeta. rewrite !map_app. clear E.
  generalize (concat (map (fun name => RegisterRoutes name "/api") (List.filter (fun _ => true) node_names))).
  intros a1. generalize (concat (map (fun name => RegisterRoutes name "/chat-api")
    (List.filter (fun name => String.eqb name "groupchat" || String.eqb name "privatechat") node_names))). intros a2.
  generalize (concat (map (fun name => RegisterRoutes name "") (List.filter (fun name => String.eqb name "notify") node_names))).
  intros a3. generalize (concat (map (fun name => RegisterRoutes name "/metafile-indexer/api")
    (List.filter (fun name => String.eqb name "userinfo") node_names))). intros a4.
  unfold Any. rewrite !map_map. cbn [map app rt_Method rt_Path get]. rewrite <- !app_assoc. cbn [app].
  apply perm_skip. fold pp. set (P := map (fun m => (m, primary_path cfg)) any_methods).
  set (Q := map (fun m => (m, legacy_path cfg)) any_methods). set (X := map _ a1 ++ _).
  match goal with |- Permutation ?l _ => match l with context [("GET", gin_path pp) :: ?tl] => set (R := tl) in * end end.
  match goal with |- Permutation (?p1 ++ ?q1 ++ ?st :: ?ls :: ?x :: R) _ =>
    change (Permutation (P ++ Q ++ [st; ls] ++ x :: R) (x :: P ++ Q ++ [st; ls] ++ R)) end.
  symmetry. rewrite !(app_assoc P), !(app_assoc (P ++ Q)). apply Permutation_middle.
Qed.

Lemma configured_NoDup h p s l : NoDup (configured h p s l) <-> NoDup [h; p; s; l].
Proof.
  assert (Ha : forall x : string, NoDup (map (fun m => (m, x)) any_methods)).
  { intros x. apply (NoDup_fmap_2 (fun m : string => (m, x)) any_methods).
    apply (bool_decide_unpack _). vm_compute. exact I. }
  assert (Hin : forall m x y : string, (m, x) ∈ map (fun m => (m, y)) any_methods -> x = y).
  { intros m x y (m' & [= _ ->] & _)%list_elem_of_In%in_map_iff. done. }
  assert (Hget : forall x : string, ("GET", x) ∈ map (fun m => (m, x)) any_methods) by (intros x; left).
  unfold configured. rewrite !NoDup_app, !NoDup_cons. split.
  - intros (H1 & H2 & H3). destruct H1 as (H1 & _). destruct H3 as (_ & H3 & _).
    assert (Hg : forall x y, x ∈ [h; p] -> y ∈ [s; l] -> x <> y).
    { intros x y Hx Hy <-. apply (H2 ("GET", x)).
      - rewrite !elem_of_cons in Hx. destruct Hx as [->|[->|Hx]]; [left|right; left|by apply not_elem_of_nil in Hx].
      - apply elem_of_app. rewrite !elem_of_cons in Hy. destruct Hy as [->|[->|Hy]]; [by left|by right|by apply not_elem_of_nil in Hy]. }
    split_and!; [| | |by apply not_elem_of_nil|constructor].
    + rewrite !not_elem_of_cons. split_and!; [intros ->; apply H1; left|apply Hg; [left|left]|apply Hg; [left|right; left]|by apply not_elem_of_nil].
    + rewrite !not_elem_of_cons. split_and!; [apply Hg; [right; left|left]|apply Hg; [right; left|right; left]|by apply not_elem_of_nil].
    + rewrite not_elem_of_cons. split; [|by apply not_elem_of_nil]. intros <-. by apply (H3 ("GET", s)).
  - rewrite !not_elem_of_cons. intros ((N1 & N2 & N3 & _) & (N4 & N5 & _) & (N6 & _) & _ & _).
    split_and!; [by intros [=]|by apply not_elem_of_nil|by apply not_elem_of_nil|constructor| |done| |done].
    + intros [m x] Hx [Hy%Hin|Hy%Hin]%elem_of_app; rewrite !elem_of_cons in Hx;
        destruct Hx as [[= _ ->]|[[= _ ->]|Hx]]; congruence || by apply not_elem_of_nil in Hx.
    + intros [m x] Hx%Hin Hy%Hin. congruence.
Qed.

(** gin is asked for no route twice exactly when the health path, the presence path and
    the two socket paths differ from each other and from the paths of the endpoints. *)
Theorem routes_distinct cfg :
  let paths := [health_path cfg; presence_path cfg; primary_path cfg; legacy_path cfg] in
  NoDup (keys (SetupRouter cfg (Some node_names) true))
  <-> NoDup paths /\ (forall x, x ∈ configured (health_path cfg) (presence_path cfg) (primary_path cfg) (legacy_path cfg) ->
                     x ∉ fixed_keys).
Proof.
  cbv zeta. rewrite table_keys, NoDup_app, configured_NoDup. split; [intros (H1 & H2 & _); by split|].
  intros [H1 H2]. split_and!; [done|done|apply fixed_NoDup].
Qed.
(** Two equal socket paths pass [Validate], and gin panics. *)
Lemma equal_socket_paths_panic cfg :
  so_PrimaryPath (cfg_Socket cfg) = so_LegacyPath (cfg_Socket cfg) ->
  gin_accepts (keys (SetupRouter cfg (Some node_names) true)) = false.
Proof.
  intros E. destruct (gin_accepts _) eqn:H; [|done]. apply gin_no_duplicates, routes_distinct in H as [H _].
  apply NoDup_cons_1_2, NoDup_cons_1_2, NoDup_cons in H as [H _]. unfold primary_path, legacy_path in H. rewrite E in H.
  destruct H. left.
Qed.
(** The older prefixes lead to the handlers of the routes under /api. *)
Lemma prefixes_agree name prefix :
  RegisterRoutes name prefix
  = map (fun r => mkRoute (rt_Method r) (prefix +:+ sdrop 4 (rt_Path r)) (rt_Handler r)) (RegisterRoutes name "/api").
Proof. unfold RegisterRoutes, under. rewrite map_map. by apply map_ext. Qed.
End Facts.
