(* ===== verification/Command.v ===== *)
(** * Command: the program ([cmd/metaso-p2p])

    What main.go builds from the environment, in its order, until the server listens, and
    the shutdown; the replay of published contents ([publishedcontent_replay.go]).  The
    parts run on afterwards as the other files say: [program_indexes] for the blocks and
    pools of the running engine, [program_homepage] for the homepages it serves. *)

From S2P Require Import Prelude BotHomepage BotHomepageFacts BotHomepagePage GoText Json Storage Aggregator Effects Cache Frames IdAddress IdAddressFacts UserInfo UserInfoFacts UserInfoFrames GroupChat PrivateChat PrivateChatFacts Config FedStore Federation Socket SocketProfile SocketServer Wire Chain ChainRpc ChainBitcoin ChainOpcat ChainMvc ChainDoge ChainSample ChainRpcFacts Engine EngineFacts Publisher Metalet FederationService PublisherSample FederationServiceFacts FederationSample GroupChatFacts PublishedContent PublishedContentBackfill PublishedContentRuns PublishedContentSample HttpClients SkillService SkillList SkillSample SkillServiceHistory Node NodeFacts Router.

(** ** The replay of published contents *)

Record publishedContentReplayConfig := mkReplayConfig {
  rc_Enabled : bool; rc_ChainName : string; rc_ProtocolPaths : list string; rc_FromHeight : Z; rc_ToHeight : Z;
  rc_Lookback : Z; rc_ProgressEvery : Z }.

Section Replay.
Context {DP : DurationParser}.
(** [strings.Split(s, comma)]: there are at most as many pieces as characters and one. *)
Definition Split_comma (s : string) : list string := SplitN s "," (S (String.length s)).
(** [envBool], [envInt64] and [envDuration]. *)
Definition env_value {A} (parse : string -> option A) (env : Environ) (key : string) (fallback : A) : A :=
  let value := TrimSpace (Getenv env key) in if is_empty value then fallback else default fallback (parse value).
Definition envBool := env_value ParseBool.
Definition envInt64 := env_value Atoi.
Definition envDuration := env_value ParseDuration.
Definition loadPublishedContentReplayConfig (env : Environ) : publishedContentReplayConfig :=
  let text name := TrimSpace (Getenv env ("METASO_P2P_PUBLISHEDCONTENT_REPLAY_" +:+ name)) in
  let every := envInt64 env "METASO_P2P_PUBLISHEDCONTENT_REPLAY_PROGRESS_EVERY" 100 in
  let paths := if is_empty (text "PROTOCOLS") then [PathSimpleBuzz]
               else List.filter (fun path => negb (is_empty path)) (map TrimSpace (Split_comma (text "PROTOCOLS"))) in
  mkReplayConfig (envBool env "METASO_P2P_PUBLISHEDCONTENT_REPLAY_ENABLED" false)
    (if is_empty (text "CHAIN") then "mvc" else ToLower (text "CHAIN"))
    (match paths with [] => [PathSimpleBuzz] | _ => paths end)
    (envInt64 env "METASO_P2P_PUBLISHEDCONTENT_REPLAY_FROM_HEIGHT" 0)
    (envInt64 env "METASO_P2P_PUBLISHEDCONTENT_REPLAY_TO_HEIGHT" 0)
    (envDuration env "METASO_P2P_PUBLISHEDCONTENT_REPLAY_LOOKBACK" (1440 * hour))
    (if every <=? 0 then 100 else every).
(** The replay that is launched, if any. *)
Definition startPublishedContentReplayIfEnabled (env : Environ) (publishedAgg : bool) (appCfg : Config)
    : option publishedContentReplayConfig :=
  let cfg := loadPublishedContentReplayConfig env in
  if rc_Enabled cfg && publishedAgg && String.eqb (rc_ChainName cfg) "mvc" && cr_Enabled (cb_MVC (cfg_BlockIndex appCfg))
  then Some cfg else None.
End Replay.

(** [runMVCPublishedContentReplay]: [now] in seconds; a search of at most 65 steps; [None]
    when nothing was replayed.  The context is never done. *)
Section Run.
Context {St : Type} {KV : KVOps St} {PJ : PublishedJSON} {B58 : Base58} {BT : Btcd} {HT : HashText BT}.
Definition runMVCPublishedContentReplay (dial : ConnConfig -> res RPC) (chainCfg : ChainRPCConfig)
    (replayCfg : publishedContentReplayConfig) (now : Z) (s : St)
    : option (ReplayStats * res unit * list ReplayStats) * St :=
  match ChainMvc.Init dial chainCfg with
  | Err _ => (None, s)
  | Ok client =>
      let toHeight := if rc_ToHeight replayCfg <=? 0 then ChainMvc.GetBestHeight client else rc_ToHeight replayCfg in
      let fromHeight :=
        if rc_FromHeight replayCfg <=? 0
        then default 0 (findHeightAtOrAfter (ChainMvc.GetBlockTime client) 65 (cr_InitialHeight chainCfg) toHeight
               (now - Z.quot (rc_Lookback replayCfg) second))
        else rc_FromHeight replayCfg in
      if (fromHeight <=? 0) || (toHeight <? fromHeight) then (None, s) else
      let '(stats, err, told, s) :=
        ReplayBlocks (fun h => (ChainMvc.CatchPins (ChainMvc.GetBlock client) h NewIndexer).1) (fun _ => false)
          fromHeight toHeight (rc_ProtocolPaths replayCfg) (rc_ProgressEvery replayCfg) s in
      (Some (stats, err, told), s)
  end.
End Run.

Definition enabledBlockIndexChainNames (cfg : BlockIndexConfig) : list string :=
  (if cr_Enabled (cb_BTC cfg) then ["btc"] else []) ++ (if cr_Enabled (cb_MVC cfg) then ["mvc"] else [])
  ++ (if cr_Enabled (cb_DOGE cfg) then ["doge"] else []) ++ (if cr_Enabled (cb_OPCAT cfg) then ["opcat"] else []).

(** ** Start-up *)

Section Main.
Context {DP : DurationParser} {G : Gin}.
Context {L : LRU} {St : Type} {KV : KVOps St} {UP : URLParse} {J : JSON UserProfile} {B58 : Base58}.
Context {GJ : GroupChatJSON} {F : FmtV} {MO : MapOrder} {PRJ : PrivateChatJSON} {SJ : SkillJSON} {PJ : PublishedJSON}.
Context {BT : Btcd} {HT : HashText BT} {JS : JSON string}.
Context {EC : Secp256k1} {BS : Bsv} {NU : NetURL} {NUP : NetURLParts} {FJ : FedJSON} {MJ : MetaletJSON}.
#[local] Abbreviation W := (CacheProvider St).
#[local] Abbreviation Channels := (list NotifyEvent * list NotifyEvent)%type.

(** The user info aggregator as [Init] configures it from the environment, the RPC
    clients of the chains, the transport of a new HTTP client, and what is stored under
    the data directory. *)
Variables (ui : UserInfo.Aggregator) (dial : ConnConfig -> res RPC) (fresh : HTTPTransport) (disk : St).

(** [RegisterChain], whose error is logged. *)
Definition register_chain (chain : ChainOps) (ops : IndexerOps) (cfg : ChainRPCConfig)
    (e : Engine W Channels) : Engine W Channels :=
  if negb (cr_Enabled cfg) then e else
  (RegisterChain (Tx := option MsgTx) (co_Name chain)
     (mkEnv (res_error (ChainRpc.Init (co_Name chain) dial cfg)) (io_Init ops) 0 (Err "not asked")
        (fun _ => Err "not asked") (fun _ => Err "not asked")) (cr_InitialHeight cfg) e).2.
Definition start_engine (cfg : Config) (registry : Registry (Node St)) (n : Node St) : Engine W Channels :=
  let b := cfg_BlockIndex cfg in
  let e := ConfigureMempoolPolling (zq_MempoolPollingEnabled (cfg_ZMQ cfg)) (zq_MempoolPollInterval (cfg_ZMQ cfg))
             (zq_MempoolDedupeTTL (cfg_ZMQ cfg)) (NewEngine registry) in
  let e := register_chain ChainBitcoin.chain ChainBitcoin.ops (cb_BTC b) e in
  let e := register_chain ChainMvc.chain ChainMvc.ops (cb_MVC b) e in
  let e := register_chain ChainDoge.chain ChainDoge.ops (cb_DOGE b) e in
  let e := register_chain ChainOpcat.chain ChainOpcat.ops (cb_OPCAT b) e in
  if 0 <? Chains e then Engine.Start n e else e.

(** The backfill that runs beside the engine: published contents, then profiles, from the
    same service, back to a time before [now] (nanoseconds).  Each error is logged; the
    deadline is left out.  [fuel] bounds the pages of a path, [None] means it ran out. *)
Definition bot_homepage_backfill {CJ : ClientJSON} (cfg : Config) (http : HTTPTransport) (now : Z) (fuel : nat) (w : W)
    : option (res unit * res unit * W) :=
  let b := cfg_BotHomepageV2Backfill cfg in
  let since := Some ((now - bb_Lookback b) / 1000000) in
  let list_path := ListPath (NewBackfillClient (bb_MANAPIBaseURL b) http) in
  '(e1, w) ← PublishedContentBackfill.Backfill list_path fuel [] (bb_PageSize b) since w;
  '(e2, w) ← UserInfo.Backfill list_path fuel [] (bb_PageSize b) since w;
  Some (e1, e2, w).

(** The profile completion that [Init] of userinfo configures; [main] is given the result. *)
Definition configureRemoteProfileLookupFromEnv {CJ : ClientJSON} (tr : HTTPTransport) (env : Environ) : UserInfo.Aggregator :=
  configureRemoteProfileLookup (newHTTPRemoteProfileLookup tr) (Getenv env "METASO_P2P_PROFILE_MODE")
    (Getenv env "METASO_P2P_PROFILE_ALLOW_REMOTE_FALLBACK") (Getenv env "METASO_P2P_PROFILE_REMOTE_BASE_URL").

(** The running program.  [app_backfill] and [app_replay] are the background jobs that
    were launched; the home page's presence readers are the manager and the federation's
    reader. *)
Record App := mkApp {
  app_config : Config;
  app_node : option (Registry (Node St) * Node St);
  app_backfill : bool;
  app_replay : option publishedContentReplayConfig;
  app_engine : option (Engine W Channels);
  app_socket : option (Server W);
  app_federation : option Service;
  app_presence : option (ConnectionManager * option Store);
  app_routes : list route }.
Inductive outcome := Fatal (err : error) | Panic | Started (app : App).

Definition start_socket (cfg : Config) (node : bool) : Server W :=
  let sv := NewServer (cfg_Socket cfg) in
  let sv := SetProfileAssetBaseURL (ch_AssetBaseURL (cfg_BotHub cfg)) sv in
  if node then SetProfileLookup (Some (socketUserInfoLookupAdapter ui)) sv else sv.
(** The federation service and the socket server that reads from it. *)
Definition start_federation (cfg : Config) (sock : option (Server W)) : res (option Service * option (Server W)) :=
  if negb (fc_Enabled (cfg_Federation cfg)) then Ok (None, sock) else
  match sock with
  | None => Err "federation is enabled but socket server is disabled"
  | Some sv =>
      match NewService fresh (cfg_Federation cfg) true [] with
      | Err e => Err ("failed to create federation service: " +:+ e)
      | Ok service =>
          Ok (Some service, Some (SetGlobalReader (GlobalReader service) (SetSnapshotProvider (SnapshotProvider service) sv)))
      end
  end.
Definition main (env : Environ) : outcome :=
  match Load env with
  | Err e => Fatal ("failed to load config: " +:+ e)
  | Ok cfg =>
      let node := if cp_Enabled (cfg_Pebble cfg) then Some (start_node ui disk) else None in
      let backfill := cp_Enabled (cfg_Pebble cfg) && bb_Enabled (cfg_BotHomepageV2Backfill cfg) in
      let replay := if cp_Enabled (cfg_Pebble cfg) then startPublishedContentReplayIfEnabled env true cfg else None in
      let engine := rn ← node; if cb_Enabled (cfg_BlockIndex cfg) then Some (start_engine cfg rn.1 rn.2) else None in
      let sock := if so_Enabled (cfg_Socket cfg) then Some (start_socket cfg (cp_Enabled (cfg_Pebble cfg))) else None in
      match start_federation cfg sock with
      | Err e => Fatal e
      | Ok (service, sock) =>
          let presence := _ ← node; sv ← sock; Some (sv_manager sv, service ≫= GlobalReader) in
          let routes := SetupRouter cfg ((fun rn => map agg_Name (All rn.1)) <$> node) (bool_decide (is_Some sock)) in
          if gin_accepts (keys routes)
          then Started (mkApp cfg node backfill replay engine sock ((fun s => (service_Start s).1) <$> service) presence routes)
          else Panic
      end
  end.

(** ** Shutdown

    After the signal: the federation's loops, the socket server, the engine, the HTTP
    server, the store.  A server that does not come to its end keeps the store open. *)
Definition shutdown (app : App) (close : St -> St) : res App :=
  let service := (fun s => (service_Stop s).1) <$> app_federation app in
  sock <-? match app_socket app with None => Ok None | Some sv => sv <-? Shutdown sv ;; Ok (Some sv) end ;;
  let engine := Engine.Stop <$> app_engine app in
  let node := (fun rn : Registry (Node St) * Node St =>
    (rn.1, mkNode (set_store (close (cp_store (nd_provider rn.2))) (nd_provider rn.2)) (nd_groupCh rn.2) (nd_privateCh rn.2))) <$> app_node app in
  Ok (mkApp (app_config app) node (app_backfill app) (app_replay app) engine sock service (app_presence app)
        (app_routes app)).
End Main.

(** ** What is started *)

Section Facts.
Context {DP : DurationParser} {G : Gin}.
Context {L : LRU} {St : Type} {KV : KVOps St} {UP : URLParse} {J : JSON UserProfile} {B58 : Base58}.
Context {GJ : GroupChatJSON} {F : FmtV} {MO : MapOrder} {PRJ : PrivateChatJSON} {SJ : SkillJSON} {PJ : PublishedJSON}.
Context {BT : Btcd} {HT : HashText BT} {JS : JSON string}.
Context {EC : Secp256k1} {BS : Bsv} {NU : NetURL} {NUP : NetURLParts} {FJ : FedJSON} {MJ : MetaletJSON}.
#[local] Abbreviation W := (CacheProvider St).
#[local] Abbreviation Channels := (list NotifyEvent * list NotifyEvent)%type.
Variables (ui : UserInfo.Aggregator) (dial : ConnConfig -> res RPC) (fresh : HTTPTransport) (disk : St).

Definition chain_config (cfg : BlockIndexConfig) (name : string) : option ChainRPCConfig :=
  if String.eqb name "btc" then Some (cb_BTC cfg) else if String.eqb name "mvc" then Some (cb_MVC cfg)
  else if String.eqb name "doge" then Some (cb_DOGE cfg) else if String.eqb name "opcat" then Some (cb_OPCAT cfg) else None.
(** The chain is configured and its client could be made. *)
Definition usable (cfg : BlockIndexConfig) (name : string) : option ChainRPCConfig :=
  c ← chain_config cfg name; if cr_Enabled c && is_ok (ChainRpc.Init name dial c) then Some c else None.

Lemma register_chain_chains chain ops cfg (e : Engine W Channels) name :
  io_Init ops = None ->
  en_chains (register_chain dial chain ops cfg e) !! name
  = if String.eqb name (co_Name chain) && (cr_Enabled cfg && is_ok (ChainRpc.Init (co_Name chain) dial cfg))
    then Some (cr_InitialHeight cfg) else en_chains e !! name.
Proof.
  intros Hi. unfold register_chain, RegisterChain. cbn [ce_InitChain ce_InitIndexer]. rewrite Hi.
  destruct (cr_Enabled cfg); cbn [negb andb]; [|by rewrite andb_false_r].
  destruct (ChainRpc.Init _ dial cfg) as [client|err]; cbn [res_error is_ok fst snd]; [|by rewrite andb_false_r].
  rewrite andb_true_r. cbn [set_height en_chains]. destruct (String.eqb_spec name (co_Name chain)) as [->|Hne];
    [by rewrite lookup_insert_eq|by rewrite lookup_insert_ne].
Qed.
Lemma register_chain_registry chain ops cfg (e : Engine W Channels) :
  en_registry (register_chain dial chain ops cfg e) = en_registry e.
Proof. unfold register_chain, RegisterChain. by repeat case_match. Qed.
Lemma register_chain_polling chain ops cfg (e : Engine W Channels) :
  en_mempoolPollingEnabled (register_chain dial chain ops cfg e) = en_mempoolPollingEnabled e.
Proof. unfold register_chain, RegisterChain. by repeat case_match. Qed.
Lemma register_chain_running chain ops cfg (e : Engine W Channels) :
  en_running (register_chain dial chain ops cfg e) = en_running e.
Proof. unfold register_chain, RegisterChain. by repeat case_match. Qed.

(** The engine over a node: every chain that is enabled and whose client can be made, at
    the height stored for it, or else at its initial height. *)
Record engine_started (cfg : Config) (registry : Registry (Node St)) (n : Node St) (e : Engine W Channels) : Prop := {
  es_registry : en_registry e = registry;
  es_chains name : en_chains e !! name
    = c ← usable (cfg_BlockIndex cfg) name; Some (default (cr_InitialHeight c) (restored_height name n));
  es_running : en_running e = bool_decide (en_chains e <> ∅);
  es_polling : en_mempoolPollingEnabled e = zq_MempoolPollingEnabled (cfg_ZMQ cfg) }.
Lemma start_engine_started cfg registry n : engine_started cfg registry n (start_engine dial cfg registry n).
Proof.
  unfold start_engine. cbv zeta. set (e0 := ConfigureMempoolPolling _ _ _ _).
  set (e1 := register_chain _ ChainBitcoin.chain _ _ e0). set (e2 := register_chain _ ChainMvc.chain _ _ e1).
  set (e3 := register_chain _ ChainDoge.chain _ _ e2). set (e4 := register_chain _ ChainOpcat.chain _ _ e3).
  assert (Hrest : en_registry e4 = registry /\ en_mempoolPollingEnabled e4 = zq_MempoolPollingEnabled (cfg_ZMQ cfg)
                  /\ en_running e4 = false).
  { unfold e4, e3, e2, e1. by rewrite !register_chain_registry, !register_chain_polling, !register_chain_running. }
  assert (Hch : forall name, en_chains e4 !! name = c ← usable (cfg_BlockIndex cfg) name; Some (cr_InitialHeight c)).
  { intros name. unfold e4, e3, e2, e1. rewrite !register_chain_chains by done.
    change (en_chains e0) with (∅ : gmap string Z). rewrite lookup_empty. unfold usable, chain_config.
    unfold ChainBitcoin.chain, ChainMvc.chain, ChainDoge.chain, ChainOpcat.chain, co_Name, ChainBitcoin.Name,
      ChainMvc.Name, ChainDoge.Name, ChainOpcat.Name.
    destruct (String.eqb_spec name "btc") as [->|]; [cbn [String.eqb Ascii.eqb Bool.eqb andb mbind option_bind]; by destruct (_ && _)|].
    destruct (String.eqb_spec name "mvc") as [->|]; [cbn [String.eqb Ascii.eqb Bool.eqb andb mbind option_bind]; by destruct (_ && _)|].
    destruct (String.eqb_spec name "doge") as [->|]; [cbn [String.eqb Ascii.eqb Bool.eqb andb mbind option_bind]; by destruct (_ && _)|].
    destruct (String.eqb_spec name "opcat") as [->|]; [cbn [String.eqb Ascii.eqb Bool.eqb andb mbind option_bind]; by destruct (_ && _)|].
    done. }
  destruct Hrest as (Hr & Hp & Hrun). unfold Chains. destruct (Z.ltb_spec 0 (Z.of_nat (size (en_chains e4)))) as [Hs|Hs].
  - split; cbn [Engine.Start restoreHeights en_registry en_chains en_running en_mempoolPollingEnabled]; [done| | |done].
    + intros name. rewrite map_lookup_imap, Hch. by destruct (usable _ name).
    + rewrite bool_decide_eq_true_2; [done|]. intros E. assert (en_chains e4 = ∅) as E4; [|rewrite E4 in Hs; by cbn in Hs].
      apply map_eq. intros name. apply (f_equal (lookup name)) in E. rewrite map_lookup_imap in E.
      rewrite lookup_empty in *. by destruct (en_chains e4 !! name).
  - assert (E4 : en_chains e4 = ∅) by (apply map_size_empty_iff; lia). split; [done| | |done].
    + intros name. specialize (Hch name). rewrite E4, lookup_empty in *. by destruct (usable _ name).
    + rewrite bool_decide_eq_false_2; [done|]. by intros [].
Qed.

(** What federation needs beyond what [Load] checks. *)
Definition federation_sound (cfg : Config) : bool :=
  let f := cfg_Federation cfg in
  negb (fc_Enabled f)
  || so_Enabled (cfg_Socket cfg)
     && match normalizePublisherNetwork (fc_Network f) with
        | Err _ => false
        | Ok network =>
            is_ok (MVCIdentityFromPrivateKey (fc_NodePrivateKey f) network)
            && is_ok (normalizeMetaletBaseURL (fc_MetaletBaseURL f)) && is_ok (normalizePublisherBaseURL (fc_PublicBaseURL f))
        end.
Definition app_table (cfg : Config) : list route :=
  SetupRouter cfg (if cp_Enabled (cfg_Pebble cfg) then Some node_names else None) (so_Enabled (cfg_Socket cfg)).
(** The program that runs a configuration. *)
Record running (env : Environ) (cfg : Config) (app : App (St := St)) : Prop := {
  ru_config : app_config app = cfg;
  ru_node : app_node app = if cp_Enabled (cfg_Pebble cfg) then Some (start_node ui disk) else None;
  ru_engine : match app_engine app with
              | Some e => cp_Enabled (cfg_Pebble cfg) && cb_Enabled (cfg_BlockIndex cfg) = true
                          /\ engine_started cfg (start_node ui disk).1 (start_node ui disk).2 e
              | None => cp_Enabled (cfg_Pebble cfg) && cb_Enabled (cfg_BlockIndex cfg) = false
              end;
  ru_socket : match app_socket app with
              | Some sv => so_Enabled (cfg_Socket cfg) = true /\ sv_cfg sv = cfg_Socket cfg
                           /\ bool_decide (is_Some (sv_profileLookup sv)) = cp_Enabled (cfg_Pebble cfg)
                           /\ sv_snapshotProvider sv = app_federation app ≫= SnapshotProvider
                           /\ sv_globalReader sv = app_federation app ≫= GlobalReader
              | None => so_Enabled (cfg_Socket cfg) = false
              end;
  ru_federation : match app_federation app with
                  | Some service => fc_Enabled (cfg_Federation cfg) = true /\ sv_enabled service = true
                                    /\ sv_running service = true
                  | None => fc_Enabled (cfg_Federation cfg) = false
                  end;
  ru_replay : is_Some (app_replay app) -> cp_Enabled (cfg_Pebble cfg) = true /\ cr_Enabled (cb_MVC (cfg_BlockIndex cfg)) = true;
  ru_routes : app_routes app = app_table cfg }.

Lemma NewService_fresh cfg local opts s :
  NewService fresh cfg local opts = Ok s -> sv_enabled s = fc_Enabled cfg /\ sv_running s = false.
Proof.
  unfold NewService. cbv zeta. destruct (fc_Enabled cfg); cbn [negb]; [|by intros [= <-]].
  destruct local; cbn [negb]; [|done].
  destruct (normalizePublisherNetwork _); [|done]. destruct (MVCIdentityFromPrivateKey _ _); [|done].
  match goal with |- match ?c with Ok _ => _ | Err _ => _ end = _ -> _ => destruct c end; [|done].
  destruct (NewPublisher _); [|done]. destruct (NewDiscovery _ _ _ _ _ _ _); [|done]. by intros [= <-].
Qed.
Lemma service_Start_reads s :
  SnapshotProvider (service_Start s).1 = SnapshotProvider s /\ GlobalReader (service_Start s).1 = GlobalReader s.
Proof. unfold service_Start. by destruct (negb (sv_enabled s) || sv_running s). Qed.
Lemma node_registry_names : map agg_Name (All (start_node (St := St) ui disk).1) = node_names.
Proof. reflexivity. Qed.
Lemma start_federation_spec cfg env (sock : option (Server W)) :
  Load env = Ok cfg -> bool_decide (is_Some sock) = so_Enabled (cfg_Socket cfg) ->
  is_ok (start_federation fresh cfg sock) = federation_sound cfg.
Proof.
  intros Hl Hs. unfold start_federation, federation_sound. cbv zeta.
  destruct (fc_Enabled (cfg_Federation cfg)) eqn:Ef; cbn [negb orb]; [|done]. rewrite <- Hs.
  destruct sock as [sv|]; [|by rewrite bool_decide_eq_false_2 by (by intros [? ?])].
  rewrite bool_decide_eq_true_2 by done. cbn [andb].
  pose proof (loaded_service_starts env cfg fresh [] Hl Ef) as E. cbv zeta in E.
  replace (is_ok match NewService fresh (cfg_Federation cfg) true [] with
                 | Ok service => Ok (Some service, Some (SetGlobalReader (GlobalReader service) (SetSnapshotProvider (SnapshotProvider service) sv)))
                 | Err e => Err ("failed to create federation service: " +:+ e) end)
    with (is_ok (NewService fresh (cfg_Federation cfg) true [])) by (by destruct (NewService _ _ _ _)).
  rewrite E. destruct (normalizePublisherNetwork _); [|done]. by rewrite bool_decide_eq_false_2 by (by intros [? ?]).
Qed.

(** C8: From any environment, the program starts exactly when the configuration loads, its
    federation is sound (off, or with the socket server on, a known network, a valid key
    and usable URLs) and gin takes its routes; otherwise it stops with an error before it
    serves.  What starts is the node of seven aggregators on the store, an engine over
    that node's registry with exactly the chains that are enabled and whose client can be
    made, each at its stored height or else at its initial one, the socket server with the
    node's profiles and the federation's readers, and the running federation service. *)
Theorem startup_exact env :
  match Load env with
  | Err e => main ui dial fresh disk env = Fatal ("failed to load config: " +:+ e)
  | Ok cfg =>
      if federation_sound cfg then
        if gin_accepts (keys (app_table cfg)) then
          match main ui dial fresh disk env with Started app => running env cfg app | _ => False end
        else main ui dial fresh disk env = Panic
      else match main ui dial fresh disk env with Fatal _ => True | _ => False end
  end.
Proof.
  unfold main. destruct (Load env) as [cfg|e] eqn:Hl; [|done]. cbv zeta.
  set (sock := if so_Enabled (cfg_Socket cfg) then _ else _).
  assert (Hsock : bool_decide (is_Some sock) = so_Enabled (cfg_Socket cfg)) by (unfold sock; by destruct (so_Enabled _)).
  pose proof (start_federation_spec cfg env sock Hl Hsock) as Hf.
  destruct (start_federation fresh cfg sock) as [[service sock']|e] eqn:Ef; cbn [is_ok] in Hf; rewrite <- Hf; [|done].
  assert (Hfed : match service with
                 | Some s => fc_Enabled (cfg_Federation cfg) = true /\ sv_enabled s = true /\ sv_running s = false
                 | None => fc_Enabled (cfg_Federation cfg) = false end
    /\ bool_decide (is_Some sock') = so_Enabled (cfg_Socket cfg)
    /\ match sock' with
       | Some sv => sv_cfg sv = cfg_Socket cfg /\ bool_decide (is_Some (sv_profileLookup sv)) = cp_Enabled (cfg_Pebble cfg)
                    /\ sv_snapshotProvider sv = service ≫= SnapshotProvider /\ sv_globalReader sv = service ≫= GlobalReader
       | None => True end).
  { unfold start_federation in Ef. destruct (fc_Enabled (cfg_Federation cfg)) eqn:Efed; cbn [negb] in Ef.
    - destruct sock as [sv|] eqn:Esv; [|done]. destruct (NewService _ _ _ _) as [s|] eqn:Es; [|done].
      injection Ef as <- <-. apply NewService_fresh in Es as [Es1 Es2]. rewrite Efed in Es1.
      split_and!; [done|done|done|exact Hsock| | | |done]; unfold sock in Esv; destruct (so_Enabled _); try done; injection Esv as <-;
        unfold start_socket; by destruct (cp_Enabled _).
    - injection Ef as <- <-. split_and!; [done..|]. unfold sock. destruct (so_Enabled _); [|done].
      unfold start_socket. by destruct (cp_Enabled _). }
  destruct Hfed as (Hs1 & Hs2 & Hs3).
  assert (Ht : SetupRouter cfg ((fun rn : Registry (Node St) * Node St => map agg_Name (All rn.1)) <$>
      (if cp_Enabled (cfg_Pebble cfg) then Some (start_node ui disk) else None)) (bool_decide (is_Some sock')) = app_table cfg).
  { unfold app_table. rewrite Hs2. by destruct (cp_Enabled _). }
  rewrite Ht. destruct (gin_accepts _); [|done].
  split; cbn [app_config app_node app_engine app_socket app_federation app_replay app_routes]; [done|done| | | | |done].
  - destruct (cp_Enabled _); cbn [mbind option_bind andb]; [|done]. destruct (cb_Enabled _); [|done].
    split; [done|]. apply start_engine_started.
  - destruct sock' as [sv|]; [|by rewrite bool_decide_eq_false_2 in Hs2 by (by intros [? ?])].
    rewrite bool_decide_eq_true_2 in Hs2 by done. destruct Hs3 as (H1 & H2 & H3 & H4). split_and!; [done|done|done| |];
      [rewrite H3|rewrite H4]; destruct service as [s|]; cbn [fmap option_fmap option_map mbind option_bind]; [|done| |done];
      destruct (service_Start_reads s) as [E1 E2]; by rewrite ?E1, ?E2.
  - destruct service as [s|]; cbn [fmap option_fmap option_map]; [|done]. destruct Hs1 as (H1 & H2 & H3).
    unfold service_Start. by rewrite H2, H3.
  - destruct (cp_Enabled _); [|by intros [? ?]]. unfold startPublishedContentReplayIfEnabled. cbv zeta.
    destruct (cr_Enabled _); [done|]. rewrite andb_false_r. by intros [? ?].
Qed.
End Facts.

(** ** From the environment to the indexed records *)

Section Indexing.
Context {DP : DurationParser} {G : Gin}.
Context {L : LRU} {St : Type} {KV : KVOps St} {KVS : KVStore St} {UP : URLParse} {J : JSON UserProfile} {B58 : Base58}.
Context {GJ : GroupChatJSON} {F : FmtV} {MO : MapOrder} {PRJ : PrivateChatJSON} {SJ : SkillJSON} {PJ : PublishedJSON}.
Context {BT : Btcd} {HT : HashText BT} {JS : JSON string}.
Context {EC : Secp256k1} {BS : Bsv} {NU : NetURL} {NUP : NetURLParts} {FJ : FedJSON} {MJ : MetaletJSON}.
Context {S2 : Type} {KV2 : KVOps S2} {KVS2 : KVStore S2}.
#[local] Abbreviation W := (CacheProvider St).
#[local] Abbreviation Channels := (list NotifyEvent * list NotifyEvent)%type.
Variables (ui : UserInfo.Aggregator) (dial : ConnConfig -> res RPC) (fresh : HTTPTransport) (disk : St).

Lemma main_engine env app e r n :
  main ui dial fresh disk env = Started app -> app_engine app = Some e -> app_node app = Some (r, n) ->
  (r, n) = start_node ui disk /\ engine_started dial (app_config app) r n e.
Proof.
  unfold main. destruct (Load env) as [cfg|]; [|done]. cbv zeta. destruct (start_federation _ cfg _) as [[service sock]|]; [|done].
  destruct (gin_accepts _); [|done]. intros [= <-]. cbn [app_engine app_node app_config].
  destruct (cp_Enabled _); [|done]. cbn [mbind option_bind]. destruct (cb_Enabled _); [|done].
  intros E1 E2. apply (inj Some) in E1 as <-, E2 as E2. split; [done|]. rewrite E2. apply start_engine_started.
Qed.

(** C6: Once the program has started on a disk, let its engine run on, its passes and
    polls interleaved in any way and the chains' nodes answering anything.  A chain that is
    off or has no client is never scanned; every other chain routes each block at most
    once, in increasing height from its stored height, or else its initial one, and tries
    every height up to the one recorded; and the group chats with their notifications, the
    published contents and the services of the node are what each aggregator alone makes
    of the routed pins, which are, of blocks, those of the blocks scanned. *)
Theorem program_indexes env app r n e l e' n' (m : Module (St := S2)) p s :
  main ui dial fresh disk env = Started app -> app_node app = Some (r, n) -> app_engine app = Some e ->
  (forall ns, ns ∈ node_namespaces -> kv_ok disk ns = true) ->
  agree [namespace] [] disk (md_store m) -> md_notifyCh m = [] ->
  agree [published_ns] [] disk p -> agree skill_namespaces [] disk s ->
  engine_steps (e, n) l (e', n') ->
  (forall name, let ls := lines_of name l in
     match usable dial (cfg_BlockIndex (app_config app)) name with
     | None => ls = []
     | Some c =>
         let start := default (cr_InitialHeight c) (restored_height name n) in 0 <= start < 2 ^ 63 - 1 ->
         StronglySorted Z.lt (processed ls)
         /\ (forall h, h ∈ processed ls -> start < h <= lastHeight name e')
         /\ (forall h, start < h <= lastHeight name e' -> h ∈ map log_height ls)
     end)
  /\ exists xs, block_part xs = logged_pins l
     /\ kv_view (nd_provider n') namespace = kv_view (md_store (run_group xs m)) namespace
     /\ nd_groupCh n' = md_notifyCh (run_group xs m)
     /\ kv_view (nd_provider n') published_ns = kv_view (run_published xs p) published_ns
     /\ exists lookups, length lookups = length xs /\ forall ns, ns ∈ skill_namespaces ->
          kv_view (nd_provider n') ns = kv_view (run_skill (zip lookups xs) s) ns.
Proof.
  intros Hm Hn He Hok Hg Hch Hp Hs Hrun. destruct (main_engine env app e r n Hm He Hn) as [Hrn [Hr Hc _ _]].
  split.
  - intros name. cbv zeta. specialize (Hc name). destruct (usable _ _ name) as [c|]; cbn [mbind option_bind] in Hc.
    + intros [H0 H1]. assert (El : lastHeight name e = default (cr_InitialHeight c) (restored_height name n))
        by (unfold lastHeight; by rewrite Hc). rewrite <- El in *.
      destruct (engine_steps_scanned _ _ _ name _ [] Hrun H0 (scanned_start name e H1)) as [S1 S2' S3 S4]. by split_and!.
    + by apply (engine_steps_registered _ _ _ name Hrun).
  - injection Hrn as Er En. rewrite Er in Hr. rewrite En in Hrun.
    exact (engine_drives_aggregators ui e e' l disk n' m p s Hok Hg Hch Hp Hs Hr Hrun).
Qed.
End Indexing.


(** ** The homepage of a bot on the running node *)

Section Lists.
Context {St : Type} {KV : KVOps St} {KVS : KVStore St} {SJ : SkillJSON} {G : GoLib} {MO : MapOrder}.
Context (I : St -> Prop) {SI : StoreInv I} (lookup : option SkillService.ProfileLookup) (assetResolver : option string).
#[local] Abbreviation frame := (frame I [NamespaceService; NamespaceRate]).
(** The list of a provider writes to the namespaces of the skill service at most. *)
Lemma try_put_frame key : frame (try_put key).
Proof.
  intros s HI HO. unfold try_put.
  destruct (kv_Set_ok s NamespaceService key "" (HO NamespaceService ltac:(in_list))) as (s' & E & Hu & _). rewrite E.
  revert HI HO. eapply moves_update; [in_list|intros; by eapply si_Set|exact Hu].
Qed.
Lemma scan_candidates_frame prefix parse : frame (scan_candidates prefix parse).
Proof.
  intros s. unfold scan_candidates. destruct (kv_Scan s _ _); [|by apply moves_refl]. apply moves_touch; [done|in_list].
Qed.
Lemma candidate_service_frame c : frame (candidate_service c).
Proof.
  assert (Hl : frame (SkillService.loadService (hc_chainName c) (hc_sourcePinId c))) by (unfold SkillService.loadService; frame_steps).
  intros s. specialize (Hl s). unfold candidate_service. by destruct (SkillService.loadService _ _ s) as [[?|?] ?].
Qed.
Lemma candidate_rating_frame rec : frame (candidate_rating rec).
Proof.
  assert (Hl : frame (SkillService.LoadRatingAggregate (SkillService.ChainName rec) (SkillService.SourceServicePinId rec)))
    by (unfold SkillService.LoadRatingAggregate; frame_steps).
  intros s. specialize (Hl s). unfold candidate_rating. by destruct (SkillService.LoadRatingAggregate _ _ s) as [[?|?] ?].
Qed.
Lemma visit_all_frame visit candidates records :
  (forall records c, frame (visit records c)) -> frame (visit_all visit candidates records).
Proof.
  intros Hv. revert records. induction candidates as [|c l IH]; intros records; [apply frame_ret|].
  apply frame_bind; [apply Hv|intros; apply IH].
Qed.
Hint Resolve try_put_frame scan_candidates_frame candidate_service_frame candidate_rating_frame visit_all_frame : frames.
Lemma ListHomepageByProvider_frame p : frame (ListHomepageByProvider lookup assetResolver p).
Proof.
  unfold ListHomepageByProvider, scanHomepageProviderCandidates, scanLateHomepageProviderAliasCandidates; cbv zeta.
  assert (H1 : forall p records c, frame (addHomepageProviderGlobalCandidate lookup p records c))
    by (intros; unfold addHomepageProviderGlobalCandidate; cbv zeta; frame_steps).
  assert (H2 : forall p profile records c, frame (addLateHomepageProviderAliasCandidate p profile records c))
    by (intros; unfold addLateHomepageProviderAliasCandidate, backfillHomepageProviderGlobalIndex; frame_steps).
  frame_steps.
Qed.
End Lists.

Section Homepage.
Context {DP : DurationParser} {G : Gin} {GL : GoLib} {ZJ : JSON Z} {HJ : HomepageJSON}.
Context {L : LRU} {St : Type} {KV : KVOps St} {KVS : KVStore St} {UP : URLParse} {J : JSON UserProfile} {B58 : Base58}.
Context {GJ : GroupChatJSON} {F : FmtV} {MO : MapOrder} {PRJ : PrivateChatJSON} {SJ : SkillJSON} {PJ : PublishedJSON}.
Context {BT : Btcd} {HT : HashText BT} {JS : JSON string}.
Context {EC : Secp256k1} {BS : Bsv} {NU : NetURL} {NUP : NetURLParts} {FJ : FedJSON} {MJ : MetaletJSON}.
#[local] Abbreviation W := (CacheProvider St).
Variables (ui : UserInfo.Aggregator) (dial : ConnConfig -> res RPC) (fresh : HTTPTransport) (disk : St).

(** The parts that main connects the homepage to.  Profiles that the lists of services
    complete are not written, as in [answers]. *)
Definition homepage_lookup (id : string) : M W (option BotHomepage.ProfileSnapshot) := fun w =>
  let '(p, w) := lookupByGlobalMetaId ui id w in (p <-? p ;; Ok (BotHomepage.profileFromUserInfo <$> p), w).
Definition skill_answers (w : W) : option SkillService.ProfileLookup := Some (answers ui (mkNode w [] [])).
Definition service_lister (asset : string) (now : Z) (p : SkillList.ListParams) : M W (option SkillList.ListResult) := fun w =>
  (r <-? SkillList.List_ (skill_answers w) (Some asset) now p w ;; Ok (Some r), w).
Definition homepage_service_lister (asset : string) (p : HomepageListParams) : M W (option HomepageListResult) := fun w =>
  let '(r, w) := ListHomepageByProvider (skill_answers w) (Some asset) p w in (r <-? r ;; Ok (Some r), w).
(** The readers of presence at a time, when there is a socket server. *)
Definition federation_reader (now : Z) (f : Store) : BotHomepage.GlobalReader (W := W) :=
  BotHomepage.mkGlobal (fs_enabled f)
    (fun local page size _ => match FedStore.OnlineList local page size now f with Ok l => l | Err _ => [] end).
Definition wire_homepage (cfg : Config) (presence : option (ConnectionManager * option Store)) (now : Z)
    : BotHomepage.Aggregator (W := W) :=
  let base := ch_AssetBaseURL (cfg_BotHub cfg) in
  let asset := NewAssetResolver base in
  let a := BotHomepage.SetProfileLookup homepage_lookup (homepage_Init (now / 1000000)) in
  let a := SetServiceLister (service_lister asset now) a in
  let a := SetHomepageServiceLister (homepage_service_lister asset) a in
  let a := SetPublishedContentLister (published_lister (fun w => w)) a in
  let a := BotHomepage.SetAssetBaseURL base a in
  match presence with
  | None => a
  | Some (manager, reader) =>
      SetPresenceReaders (Some (fun _ => OnlineEntries manager)) (federation_reader now <$> reader) a
  end.

(** ** What its pages show *)

Definition homepage_safe (w : W) : Prop := cache_placed w /\ forall ns, ns ∈ node_namespaces -> kv_ok w ns = true.
Lemma framed_content own {A} (c : M W A) w :
  frame cache_placed own c -> own ⊆ node_namespaces -> published_ns ∉ own -> homepage_safe w ->
  homepage_safe (c w).2 /\ same_content (c w).2 w.
Proof.
  intros Hf Hsub Hp [Hc Hok]. destruct (Hf w Hc) as (H1 & H2 & H3); [intros ns Hns; by apply Hok, Hsub|].
  split; [split; [done|intros ns Hns; rewrite H3; by apply Hok]|]. destruct (H2 published_ns Hp) as [V O]. by split.
Qed.
Lemma wire_frames cfg presence now :
  frames (fun w : W => w) homepage_safe (bh_serviceLister (wire_homepage cfg presence now))
  /\ frames (fun w : W => w) homepage_safe (bh_homepageServiceLister (wire_homepage cfg presence now)).
Proof.
  assert (E : bh_serviceLister (wire_homepage cfg presence now) = Some (service_lister (NewAssetResolver (ch_AssetBaseURL (cfg_BotHub cfg))) now)
    /\ bh_homepageServiceLister (wire_homepage cfg presence now)
       = Some (homepage_service_lister (NewAssetResolver (ch_AssetBaseURL (cfg_BotHub cfg)))))
    by (by destruct presence as [[manager reader]|]). destruct E as [-> ->].
  split; intros g q w [= <-] Hw; [by repeat split; apply Hw|]. unfold homepage_service_lister.
  pose proof (framed_content [NamespaceService; NamespaceRate] (ListHomepageByProvider (skill_answers w)
    (Some (NewAssetResolver (ch_AssetBaseURL (cfg_BotHub cfg)))) q) w) as H.
  destruct (ListHomepageByProvider _ _ q w) as [r w']. cbn [snd] in *. apply H; [|by apply own_included|by apply (bool_decide_unpack _)|done].
  apply ListHomepageByProvider_frame, cache_placed_inv.
Qed.
(** The deliveries of published contents in a sequence of routed pins. *)
Definition delivered (x : routed) : bool * PinInscription := match x with BlockPin pin => (false, pin) | MempoolPin pin => (true, pin) end.
Lemma run_published_pins (xs : list routed) (s : W) : run_published xs s = run_pins (map delivered xs) s.
Proof.
  unfold run_published, run_pins. revert s. induction xs as [|x xs IH]; intros s; [done|]. cbn [map foldl]. rewrite IH.
  f_equal. by destruct x.
Qed.

(** C7: Once the program has started on a disk without published contents, let its engine
    run on in any way.  The pages that the endpoint of bot homepages then serves, with the
    sections of published content asked for, show in each section the first five, newest
    first, of all the visible records of its protocol that the pins routed so far have
    made and whose publisher is the user under any of the ids of its profile, each once,
    and say that there are more exactly when there are; of blocks, those pins are the ones
    in the blocks scanned. *)
Theorem program_homepage env app r n e l e' n' presence now id opts d :
  main ui dial fresh disk env = Started app -> app_node app = Some (r, n) -> app_engine app = Some e ->
  (forall ns, ns ∈ node_namespaces -> kv_ok disk ns = true) -> kv_view disk published_ns = ∅ ->
  engine_steps (e, n) l (e', n') ->
  op_Version opts = "v2" -> op_IncludeSections opts = true ->
  (Build (wire_homepage (app_config app) presence now) id opts (nd_provider n')).1 = Ok d ->
  exists xs, block_part xs = logged_pins l
  /\ (Forall (fun x => plain_pin (delivered x).2) xs -> ids_ok (da_Canonical d) ->
      Forall2 (fun '(id, title, path, _) sec => shows (da_Canonical d) opts path (run_published xs (New disk)) id title sec)
        (sectionSpecs opts) (drop (if op_IncludeServices opts then 1 else 0) (da_Sections d))).
Proof.
  intros Hm Hn He Hok Hv Hrun Hver Hsec Hb. destruct (main_engine ui dial fresh disk env app e r n Hm He Hn) as [Hrn [Hr _ _ _]].
  injection Hrn as Er En. rewrite Er in Hr. rewrite En in Hrun.
  apply (engine_steps_follows (S2 := W) ui) in Hrun as (xs & Ex & Hf); [|exact Hr]. exists xs. split; [exact Ex|].
  assert (Ha : forall own, own ⊆ node_namespaces -> agree (S1 := St) (S2 := W) own [] disk (New disk)).
  { intros own Hown ns Hns. split_and!; [by apply Hok, Hown|by apply Hok, Hown|done|]. intros H. by apply not_elem_of_nil in H. }
  destruct (Hf (mkModule (New disk) []) (New disk) (New disk)) as (lookups & _ & Hsim).
  { apply (start_sim ui disk (mkModule (New disk) []) (New disk) (New disk)); [done| |done| |]; apply Ha; apply own_included; reflexivity. }
  intros Hpl Hids. set (w := nd_provider n') in *.
  assert (Hsafe : homepage_safe w) by exact (sim_ok _ _ _ _ Hsim).
  destruct (Build _ id opts w) as [rd w'] eqn:EB. cbn [fst] in Hb. subst rd.
  assert (Hlook : bh_profileLookup (wire_homepage (app_config app) presence now) = Some homepage_lookup)
    by (by destruct presence as [[manager reader]|]).
  destruct (homepage_lookup (TrimSpace id) w) as [rp w1] eqn:El.
  pose proof (framed_content user_namespaces (lookupByGlobalMetaId ui (TrimSpace id)) w
    (elsewhere_frame _ (proj1 (proj2 (elsewhere_lookups ui (TrimSpace id))))) ) as Hl.
  assert (Hw1 : w1 = (lookupByGlobalMetaId ui (TrimSpace id) w).2).
  { unfold homepage_lookup in El. by destruct (lookupByGlobalMetaId ui _ w) as [? ?]; injection El as <- <-. }
  rewrite <- Hw1 in Hl. destruct Hl as [Hs1 Hc1]; [by apply own_included|by apply (bool_decide_unpack _)|done|].
  assert (Hp : exists p, rp = Ok (Some p)).
  { unfold Build in EB. rewrite Hlook, El in EB. destruct (is_empty _); [done|]. destruct rp as [[p|]|]; [by exists p|done|done]. }
  destruct Hp as [p ->].
  pose proof (Build_canonical _ id opts _ p w w1 w' d Hlook El EB) as Hcanon.
  assert (Hcont : same_content w (run_published xs (New disk))).
  { destruct (sim_published _ _ _ _ Hsim published_ns ltac:(by left)) as (O1 & O2 & V & _). split; [exact V|]. transitivity true; [exact O1|symmetry; exact O2]. }
  rewrite run_published_pins in Hcont |- *. destruct (wire_frames (app_config app) presence now) as [F1 F2].
  destruct (homepage_shows_publications (fun w : W => w) homepage_safe (map delivered xs) (New disk)
    (wire_homepage (app_config app) presence now) id opts homepage_lookup p w w1 d) as [_ Hall].
  - by apply Hok, own_included with (l := [published_ns]); [|left].
  - exact Hv.
  - by apply Forall_map.
  - exact Hlook.
  - exact El.
  - unfold same_content in *. intuition congruence.
  - exact Hs1.
  - by destruct presence as [[manager reader]|].
  - exact F1.
  - exact F2.
  - by rewrite <- Hcanon.
  - exact Hver.
  - exact Hsec.
  - by rewrite EB.
  - rewrite Hcanon. exact Hall.
Qed.
End Homepage.

(** ** A program over one chain *)

#[local] Existing Instance list_LRU.
#[local] Existing Instance profile_JSON.
#[local] Existing Instance no_urls.
#[local] Existing Instance toy_Base58.
#[local] Existing Instance sample_ops_inst.
#[local] Existing Instance sample_store_inst.
#[local] Existing Instance GroupChatFacts.sample_JSON.
#[local] Existing Instance sample_fmt.
#[local] Existing Instance some_order.
#[local] Existing Instance private_JSON.
#[local] Existing Instance sample_SkillJSON.
#[local] Existing Instance sample_PublishedJSON.
#[local] Existing Instance sample_Btcd.
#[local] Existing Instance sample_HashText.
#[local] Existing Instance plain_text.
#[local] Existing Instance toy_crypto.
#[local] Existing Instance toy_url.
#[local] Existing Instance toy_json.
#[local] Existing Instance toy_bsv.
#[local] Existing Instance toy_parts.
#[local] Existing Instance toy_metalet.
#[local] Existing Instance no_durations.
(** A router that takes clean paths as they are and refuses a route that it has. *)
#[local] Instance plain_gin : Gin.
Proof.
  refine {| gin_path p := p; gin_accepts l := bool_decide (NoDup l) |}; [done|].
  intros l. apply bool_decide_eq_true_1.
Defined.
Definition one_chain : Environ := fun name =>
  if String.eqb name "METASO_P2P_BLOCK_INDEX_ENABLED" then Some "true"
  else if String.eqb name "METASO_P2P_BLOCK_INDEX_MVC_ENABLED" then Some "true"
  else if String.eqb name "METASO_P2P_BLOCK_INDEX_MVC_INITIAL_HEIGHT" then Some "0" else None.
Definition always : ConnConfig -> res RPC := fun _ => Ok doge_node.
Definition sample_main (env : Environ) : outcome := main local_only always no_transport empty_store env.
Definition describe (o : outcome (St := sample_store)) : option (bool * bool * list string * nat) + string :=
  match o with
  | Started app => inl (Some (bool_decide (is_Some (app_engine app)), bool_decide (is_Some (app_socket app)),
                     map agg_Name (default [] ((fun rn => All rn.1) <$> app_node app)), length (app_routes app)))
  | Panic => inl None
  | Fatal err => inr err
  end.
Example main_one_chain : describe (sample_main one_chain) = inl (Some (true, true, node_names, 110%nat)).
Proof. vm_compute. reflexivity. Qed.
(** Two configurations that [Load] takes and that do not serve: two equal socket paths, and
    a federation without the socket server. *)
Definition same_paths : Environ := fun name =>
  if String.eqb name "METASO_P2P_SOCKET_LEGACY_PATH" then Some (so_PrimaryPath (cfg_Socket Default)) else None.
Definition no_sockets : Environ := fun name =>
  if String.eqb name "METASO_P2P_SOCKET_ENABLED" then Some "false" else env_of secret_a "https://a.example" name.
Example main_stops :
  map (fun env => is_ok (Load env)) [same_paths; no_sockets] = [true; true]
  /\ map (fun env => describe (sample_main env)) [same_paths; no_sockets]
     = [inl None; inr "federation is enabled but socket server is disabled"].
Proof. vm_compute. done. Qed.
Example main_federation :
  match sample_main (env_of secret_a "https://a.example") with
  | Started app => sv_running <$> app_federation app = Some true
  | _ => False
  end.
Proof. vm_compute. reflexivity. Qed.

(** The engine of that program sees a message in the mempool, then two blocks. *)
Definition sample_cfg : Config := match Load one_chain with Ok cfg => cfg | Err _ => Default end.
Definition sample_node := start_node local_only empty_store.
Definition program_engine := start_engine always sample_cfg sample_node.1 sample_node.2.
Definition polled_once := pollMempoolOnce (fun _ => two_blocks) 0 program_engine sample_node.2.
Definition scanned_twice := scanNewBlocks (fun _ => two_blocks) polled_once.1 polled_once.2.
Lemma program_engine_runs :
  engine_steps (program_engine, sample_node.2) ([] ++ scanned_twice.1.1 ++ []) (scanned_twice.1.2, scanned_twice.2).
Proof.
  apply steps_cons with (c2 := (polled_once.1, polled_once.2)).
  { unfold polled_once. rewrite <- surjective_pairing. apply step_pollMempoolOnce. }
  apply steps_cons with (c2 := (scanned_twice.1.2, scanned_twice.2)); [|constructor].
  apply (step_scanNewBlocks string (fun _ => two_blocks)); [by intros ?|]. by rewrite <- !surjective_pairing.
Qed.
Lemma sample_started :
  exists app, sample_main one_chain = Started app /\ app_node app = Some sample_node /\ app_engine app = Some program_engine
  /\ app_config app = sample_cfg.
Proof.
  assert (El : Load one_chain = Ok sample_cfg) by (vm_compute; reflexivity).
  assert (Ep : cp_Enabled (cfg_Pebble sample_cfg) = true) by (vm_compute; reflexivity).
  assert (Eb : cb_Enabled (cfg_BlockIndex sample_cfg) = true) by (vm_compute; reflexivity).
  assert (Es : so_Enabled (cfg_Socket sample_cfg) = true) by (vm_compute; reflexivity).
  assert (Ef : fc_Enabled (cfg_Federation sample_cfg) = false) by (vm_compute; reflexivity).
  unfold sample_main, main. rewrite El. cbv zeta. rewrite Ep, Eb, Es. unfold start_federation. rewrite Ef. cbn [negb]. cbv iota beta.
  match goal with |- context [gin_accepts ?k] => assert (Eg : gin_accepts k = true) by (vm_compute; reflexivity); rewrite Eg end.
  eexists. split; [reflexivity|]. cbn [app_node app_engine app_config mbind option_bind]. unfold program_engine, sample_node.
  by split_and!.
Qed.
Lemma program_indexes_witness :
  map log_height (lines_of "mvc" scanned_twice.1.1) = [1; 2]
  /\ (forall h, h ∈ processed (lines_of "mvc" scanned_twice.1.1) -> 0 < h <= lastHeight "mvc" scanned_twice.1.2)
  /\ exists xs, kv_view (nd_provider scanned_twice.2) namespace = kv_view (md_store (run_group xs (mkModule empty_store []))) namespace.
Proof.
  destruct sample_started as (app & Em & En & Ee & Ec).
  destruct (program_indexes local_only always no_transport empty_store one_chain app sample_node.1 sample_node.2
    program_engine ([] ++ scanned_twice.1.1 ++ []) scanned_twice.1.2 scanned_twice.2 (mkModule empty_store []) empty_store
    empty_store Em En Ee (fun ns _ => store_is_ok ns) (empty_agrees _) eq_refl (empty_agrees _) (empty_agrees _)
    program_engine_runs) as [Hh (xs & _ & Hv & _)].
  split; [vm_compute; reflexivity|]. split; [|by exists xs]. specialize (Hh "mvc"). rewrite Ec, app_nil_l in Hh.
  rewrite app_nil_r in Hh.
  assert (Eu : usable always (cfg_BlockIndex sample_cfg) "mvc" = Some (cb_MVC (cfg_BlockIndex sample_cfg))) by (vm_compute; reflexivity).
  assert (Er : default (cr_InitialHeight (cb_MVC (cfg_BlockIndex sample_cfg))) (restored_height "mvc" sample_node.2) = 0)
    by (vm_compute; reflexivity).
  rewrite Eu in Hh. cbv zeta in Hh. rewrite Er in Hh. destruct Hh as (_ & Hh & _); [split; [lia|reflexivity]|exact Hh].
Defined.

(** *** The homepage of a user of that program *)

#[local] Existing Instance sample_GoLib.
#[local] Existing Instance offset_JSON.
#[local] Instance no_objects : HomepageJSON := {| unmarshal_any _ := Err "invalid character" |}.
(** One pass that scans a name and a post, then another post. *)
Definition posts_env : ChainEnv string :=
  mkEnv None None 2 (Ok [])
    (fun h => Ok (if h =? 1 then [info_pin "ann" "/info/name" "Ann" "p1i0"; PublishedContentSample.post] else [post2], [])) (fun _ => Ok ([], [])).
Definition posts_scanned := scanNewBlocks (fun _ => posts_env) program_engine sample_node.2.
Definition homepage_options : Options := mkOptions "v2" true true true true true 5 false true true "".
Definition ann_homepage : res Data :=
  (Build (wire_homepage local_only sample_cfg None 1000) "idq-ann" homepage_options (nd_provider posts_scanned.2)).1.
Example ann_homepage_shows :
  match ann_homepage with
  | Ok d => Some (map (fun s => (se_Id s, map si_SourcePinId (se_Items s), se_HasMore s)) (da_Sections d), pf_Name (da_Profile d))
  | Err _ => None
  end = Some ([("services", [], false); ("metaapps", [], false); ("skills", [], false); ("buzzes", ["t2i0"; "t1i0"], false)], "Ann").
Proof. vm_compute. reflexivity. Qed.
Lemma posts_scanned_runs :
  engine_steps (program_engine, sample_node.2) (posts_scanned.1.1 ++ []) (posts_scanned.1.2, posts_scanned.2).
Proof.
  apply steps_cons with (c2 := (posts_scanned.1.2, posts_scanned.2)); [|constructor].
  apply (step_scanNewBlocks string (fun _ => posts_env)); [by intros ?|]. unfold posts_scanned. by rewrite <- !surjective_pairing.
Qed.
Definition scanned_pins : list PinInscription := [info_pin "ann" "/info/name" "Ann" "p1i0"; PublishedContentSample.post; post2].
Lemma scanned_pins_plain : Forall plain_pin scanned_pins.
Proof.
  unfold scanned_pins. repeat (apply Forall_cons_2; [split; [good|vm_compute; reflexivity|vm_compute; reflexivity]|]). apply Forall_nil_2.
Qed.
Lemma program_homepage_witness :
  Forall plain_pin scanned_pins
  /\ exists d xs, ann_homepage = Ok d
  /\ block_part xs = scanned_pins
  /\ (Forall (fun x => plain_pin (delivered x).2) xs ->
      Forall2 (fun '(id, title, path, _) sec => shows (da_Canonical d) homepage_options path (run_published xs (New empty_store)) id title sec)
        (sectionSpecs homepage_options) (drop 1 (da_Sections d))).
Proof.
  assert (Hl : logged_pins (posts_scanned.1.1 ++ []) = scanned_pins) by (vm_compute; reflexivity).
  split; [exact scanned_pins_plain|]. destruct sample_started as (app & Em & En & Ee & Ec).
  destruct ann_homepage as [d|e] eqn:Ed; [|by vm_compute in Ed].
  destruct (program_homepage local_only always no_transport empty_store one_chain app sample_node.1 sample_node.2
    program_engine (posts_scanned.1.1 ++ []) posts_scanned.1.2 posts_scanned.2 None 1000 "idq-ann" homepage_options d
    Em En Ee (fun ns _ => store_is_ok ns) eq_refl posts_scanned_runs eq_refl eq_refl) as (xs & Hx & Hs).
  { rewrite Ec. exact Ed. }
  exists d, xs. split; [done|]. split; [by rewrite Hx|]. intros Hp. apply Hs; [exact Hp|].
  vm_compute in Ed. injection Ed as <-. by repeat constructor.
Defined.
